(* ===== verification/_CoqProject ===== *)
-Q . S2P
Prelude.v
ArithUint.v
Compact.v
Opcodes.v
ScriptNum.v
Script.v
Interpreter.v
InterpreterSafety.v
SoftFork.v
Multisig.v
Serialize.v
Hashing.v
Sha2Spec.v
Sha1.v
Ripemd160.v
Sha512.v
Sha256.v
Siphash.v
Hash.v
Transaction.v
Sighash.v
Chain.v
ActiveChain.v
LockTime.v
Pow.v
Standard.v
Spend.v
Merkle.v
PartialMerkle.v
VersionBits.v
AssetData.v
Coins.v
Utxo.v
Compressor.v
Money.v
Replay.v
ProviderTx.v
Bloom.v
RollingBloom.v
Text.v
LibBoolEE.v
Regex.v
AssetNames.v
Verifier.v
BestChain.v
Candidates.v
ChainState.v
Activation.v
ChainCalls.v
NodeState.v
