(* ===== verification/Prelude.v ===== *)
(** * A verification library for BlackRaven V2

    BlackRaven is a proof-of-work currency in the line of Bitcoin, Dash and Ravencoin,
    written in C++ (src/src).  A node keeps a tree of block headers, selects the branch
    with the most work, and applies the blocks of that branch to the set of unspent
    outputs, the coins.  To be applied a block must meet its difficulty target, its
    Merkle root must fit its transactions, the inputs must be there, be worth the
    outputs, and come with scripts that run to success.  This library translates the
    consensus parts of the node that can be stated without I/O into Rocq and proves what
    they are relied on for.  Everything is executable: definitions are functions on
    integers, lists, records and finite maps, and the lemmas named [..._witness] run the
    theorems on concrete data.

    ** How code becomes definitions

    - Integers are [Z]; wherever the source can wrap around, the truncation is written
      ([u8], [u32], [u64], [i32], [i64] below).  Bytes, strings and scripts are lists of
      [Z]; a [uint256] is its 32 bytes; [base_uint] is its list of 32-bit limbs.
    - Errors are values: [option] where a function throws, asserts or follows a null
      pointer, and the types [result] (Interpreter.v), [outcome] (Coins.v), [verdict]
      (Money.v), [block_verdict] (BestChain.v) where the kinds of failure matter.  Reading from a stream is the
      [parser] monad of Serialize.v.
    - Loops are structural recursion where the source walks a container.  Other loops are
      [while_loop] below, run with a bound; the bound is a measure of the data (the length
      of the script, the number of keys, the height of the block, the size of the search
      interval) and the theorems show that the loop ends within it ([while_total]), so
      [Diverge] or running out of steps is never a result.
    - Objects with pointers (the block index) live in a store, a finite map from pointers;
      shared globals are a record.
    - Code outside src/src is an argument with named laws: signature verification and
      the low-S test of libsecp256k1 ([PubKeyVerify], [LowSCheck]), its parser of public
      keys ([Secp256k1], [Secp256k1Laws]), the encodings of the BLS library
      ([BLSLibrary]), the vector versions of SHA-256, and the header hash
      ([HeaderHash]).  Theorems that do not depend on how a digest is computed take the
      hash functions as the class [ScriptHashes], of which only the lengths are known;
      Hash.v gives the instance made of the code of src/src/crypto.

    ** Files, parts of the program and what is shown

    - Prelude.v (this file): machine integers, loops, tactics, lemmas on lists.
    - ArithUint.v: arith_uint256.h/.cpp.  Each operator of [base_uint] on limbs refines
      the operation on integers modulo [2^BITS]; division is Euclidean and throws
      exactly for zero.
    - Compact.v: [SetCompact], [GetCompact], [CheckProofOfWork], [GetBlockProof].  What a
      compact word denotes, round trips, the exact meaning of the proof-of-work check.
    - Opcodes.v, ScriptNum.v, Script.v: script/script.h/.cpp.  Script numbers are a
      bijection with minimal byte strings; building and parsing scripts, [FindAndDelete].
    - Interpreter.v: script/interpreter.cpp, every opcode, [EvalScript], [VerifyScript],
      [VerifyWitnessProgram].  InterpreterSafety.v: they always return, within their
      limits, and no assertion or stack access fails at any instruction they come to.  Multisig.v: OP_CHECKMULTISIG
      decides whether the signatures can be assigned to keys in order.  SoftFork.v:
      verification flags only ever restrict what is accepted.
    - Hashing.v, Sha2Spec.v, Sha1.v, Ripemd160.v, Sha512.v, Sha256.v, Siphash.v, Hash.v:
      crypto/sha1.cpp, sha256.cpp, sha512.cpp, ripemd160.cpp, hmac_*.cpp, hash.h/.cpp.
      Hashing.v treats the buffered objects once, for any compression function; the
      other files translate the unrolled compression functions and prove them equal to
      the published definitions, whose constants are computed from primes.
    - Serialize.v, Transaction.v: serialize.h, primitives/transaction.h/.cpp, amount.h.
      Canonical encodings, round trip of transactions in both formats.
    - Sighash.v: the signature hash and [TransactionSignatureChecker].  It agrees with the
      copy-and-blank reference; equal hashed strings mean equal signed parts.
    - Chain.v, ActiveChain.v, LockTime.v: chain.h/.cpp, [AddToBlockIndex], [CChain],
      median times and lock times.  Every reachable block tree is well formed; skip
      lists find ancestors; the chain vector follows the parent pointers; the lock-time
      opcodes enforce what they promise against the consensus rules on blocks.
    - Pow.v: pow.cpp.  Dark Gravity Wave computes the exact integer average and retarget
      when nothing wraps around, and where it does on the main network.
    - Standard.v, Spend.v: script/standard.cpp.  Standard scripts are recognised; what
      spending them takes, through the interpreter and the signature hash.
    - Merkle.v, PartialMerkle.v: consensus/merkle.cpp, merkleblock.cpp.  Constant-space
      roots are tree roots; roots bind their leaves; a partial tree proves membership.
      Binding is stated as: or two different strings among those hashed have one digest.
    - ProviderTx.v: evo/providertx.h, evo/cbtx.h, llmq/quorums_commitment.h,
      evo/specialtx.h, bls/bls.h.  The payloads of the seven kinds of special
      transactions have exactly one serialized form.
    - Bloom.v, RollingBloom.v: bloom.h/.cpp, [CMerkleBlock], the filter messages of
      net_processing.cpp.  Filters stay well formed whatever a peer sends; a filtered
      block leaves out no transaction that concerns the peer; a rolling filter remembers
      the last elements.
    - VersionBits.v: versionbits.cpp.  The cached state machine computes the states
      defined period by period; states only advance and every deployment is decided.
    - AssetData.v: the asset records of assets/assettypes.h and the scripts that carry
      them (assets/assets.cpp, script/script.cpp), with [IsUnspendable].
    - Text.v, Regex.v, AssetNames.v: the names of assets.  Regex.v models the part of
      [std::regex] in use, by derivatives, with its language; the accepted names are
      described without expressions.
    - LibBoolEE.v, Verifier.v: LibBoolEE.cpp and the verifier strings of restricted
      assets.  The evaluator returns on every text and computes the value that the
      documented grammar gives; an address passes exactly when the formula is true.
    - Coins.v: coins.h/.cpp, txdb.cpp.  [CCoinsView] is the interface between the layers
      and [CoinsViewLaws] its contract; the database and a cache over any lawful view
      fulfil it.  A cache behaves as a finite map of coins and flushing hands that map
      down, whatever its DIRTY and FRESH flags.
    - Utxo.v: [UpdateCoins], [ApplyTxInUndo] and what [ConnectBlock] and
      [DisconnectBlock] do to the coins.  Disconnecting inverts connecting, and is
      reported clean only then.
    - Compressor.v: compressor.h/.cpp, undo.h.  Coins and undo data survive the disk, for
      amounts up to a ninth of [2^64]; not for all that consensus allows.
    - Money.v: [CheckTxInputs], fees, [GetBlockSubsidy], [IsBlockValueValid].  The exact
      meaning of the value check, and a bound on the worth of all coins along any
      sequence of connected blocks, when transaction ids are new.
    - Replay.v: the batches of [CCoinsViewDB::BatchWrite] and [ReplayBlocks].  After a
      crash at any moment of a flush, the coins of the old or the new tip are restored.
    - BestChain.v, Candidates.v, ChainState.v, Activation.v, ChainCalls.v, NodeState.v:
      best-chain selection and block acceptance (validation.cpp, rpc/blockchain.cpp).
      BestChain.v has the definitions: the record [chain_state] of the globals, and
      every function that changes them while the node runs.  Candidates.v shows that
      [FindMostWorkChain] returns the best candidate that can be used; ChainState.v
      states the invariant [chain_state_ok]; Activation.v shows that [ActivateBestChain]
      ends, within a number of turns bounded by the square of the number of blocks, with
      no valid chain better than the tip; ChainCalls.v treats [InvalidateBlock],
      [ReceivedBlockTransactions], [PreciousBlock] and [ResetBlockFailureFlags];
      NodeState.v the arrival of headers and blocks, and the states a node reaches
      ([node_state]).  The verdict of [ConnectBlock] on each block is the class
      [BlockValidation], a fixed function of the block, which by its laws accepts or
      refuses and never reports corruption or a system error; the checks of headers and
      blocks at the time of a call are [BlockChecks].  The events a node is shown to handle are [allowed]: the work of a
      chain fits 256 bits, heights and numbers of transactions are such that their
      product fits 32 bits ([Limits]), the genesis block is not invalidated, a block is
      reconsidered when none of its ancestors is marked, and a block that is made
      precious while it is the tip does not get a later sequence number.  What happens
      when an ancestor is marked, and when [ConnectBlock] reports corruption, are
      theorems of NodeState.v as well.

    The parts meet in the theorems: LockTime.v joins the interpreter, the checker and the
    block index; Spend.v the scripts, the interpreter and the signature hash; Utxo.v,
    Compressor.v and Money.v are proved against the interface of Coins.v, with
    [represents] relating a view to its map; Replay.v joins the coins with the skip list
    and the common ancestors of the block index; NodeState.v the block index, the active
    chain and the candidates.

    ** Not modelled

    Of [ConnectBlock] and [DisconnectBlock]: the rules for assets, smartnode payments
    and special transactions, the optional indexes, and the files. Of the coins
    database: the memory statistics, cursors and upgrades of old formats.
    [CheckTxAssets] and the asset caches, which are databases with a dozen dirty sets.
    Of best-chain selection: the block files, loading the index from disk, pruning, a
    shutdown between two steps and failing writes; a thread that runs between two turns
    of [ActivateBestChain], where the lock is released, is not interleaved. The hashes of block headers, X16R and KAWPOW, are the bundled sph and ethash
    libraries. The memory pool, wallet, network, RPC and user interface are mostly I/O;
    fee estimation and the sizing of Bloom filters use floating point. Smartnodes,
    quorums and InstantSend rest on BLS signatures of a library and are switched off on
    the main network. Printing functions are left out everywhere. *)

From Stdlib Require Export ZArith Lia Bool.
From stdpp Require Export base tactics numbers option list.

#[global] Open Scope Z_scope.

(** ** Machine integers

    C++ integers are kept as [Z]; every place where the source can wrap is
    written out with one of these truncations. *)

Definition u8 (x : Z) : Z := x mod 2 ^ 8.
Definition u16 (x : Z) : Z := x mod 2 ^ 16.
Definition u32 (x : Z) : Z := x mod 2 ^ 32.
Definition u64 (x : Z) : Z := x mod 2 ^ 64.
(** two's complement reinterpretation of the low [w] bits *)
Definition wrap_signed (w x : Z) : Z := (x + 2 ^ (w - 1)) mod 2 ^ w - 2 ^ (w - 1).
Definition i32 (x : Z) : Z := wrap_signed 32 x.
Definition i64 (x : Z) : Z := wrap_signed 64 x.

Definition INT_MAX : Z := 2147483647.
Definition INT64_MAX : Z := 9223372036854775807.
Definition INT64_MIN : Z := -9223372036854775808.

Definition is_u8 (x : Z) : Prop := 0 <= x < 2 ^ 8.
Definition is_u32 (x : Z) : Prop := 0 <= x < 2 ^ 32.
Definition is_u64 (x : Z) : Prop := 0 <= x < 2 ^ 64.
Definition is_i32 (x : Z) : Prop := - 2 ^ 31 <= x < 2 ^ 31.
Definition is_i64 (x : Z) : Prop := - 2 ^ 63 <= x < 2 ^ 63.

(** [l !!! i] reads an array of integers; the models only read in range, and
    outside it the default is 0. *)
#[export] Instance Z_zero_inhabited : Inhabited Z := populate 0.

Lemma lookup_total_ge (l : list Z) i : (length l <= i)%nat -> l !!! i = 0.
Proof. intros H. by rewrite list_lookup_total_alt, lookup_ge_None_2. Qed.

(** ** Hint databases and tactics *)

Create HintDb br discriminated.
Create HintDb uint discriminated.

(** Case analysis on the boolean tests a C++ condition is translated to. *)
Ltac bool_to_prop :=
  repeat match goal with
  | H : (_ && _) = true |- _ => apply andb_true_iff in H; destruct H
  | H : (_ || _) = false |- _ => apply orb_false_iff in H; destruct H
  | H : negb _ = true |- _ => apply negb_true_iff in H
  | H : negb _ = false |- _ => apply negb_false_iff in H
  | H : (_ =? _)%Z = true |- _ => apply Z.eqb_eq in H
  | H : (_ =? _)%Z = false |- _ => apply Z.eqb_neq in H
  | H : (_ <? _)%Z = true |- _ => apply Z.ltb_lt in H
  | H : (_ <? _)%Z = false |- _ => apply Z.ltb_ge in H
  | H : (_ <=? _)%Z = true |- _ => apply Z.leb_le in H
  | H : (_ <=? _)%Z = false |- _ => apply Z.leb_gt in H
  | H : (_ >? _)%Z = true |- _ => rewrite Z.gtb_ltb in H
  | H : (_ >? _)%Z = false |- _ => rewrite Z.gtb_ltb in H
  | H : (_ >=? _)%Z = true |- _ => rewrite Z.geb_leb in H
  | H : (_ >=? _)%Z = false |- _ => rewrite Z.geb_leb in H
  | H : bool_decide _ = true |- _ => apply bool_decide_eq_true in H
  | H : bool_decide _ = false |- _ => apply bool_decide_eq_false in H
  end.

(** Split every [if] of the goal on its condition, keeping the equation. *)
Ltac case_ifs :=
  repeat match goal with
  | |- context [if ?b then _ else _] =>
      lazymatch type of b with bool => let E := fresh "E" in destruct b eqn:E end
  end.

Ltac case_if_in H :=
  match type of H with
  | context [if ?b then _ else _] => let E := fresh "E" in destruct b eqn:E
  end.

(** ** Counting loops

    [for_from i n f s] runs [for (j = i; j < i + n; j++) s = f(j, s)]. *)

Fixpoint for_from {S : Type} (i n : nat) (f : nat -> S -> S) (s : S) : S :=
  match n with
  | O => s
  | Datatypes.S n' => for_from (Datatypes.S i) n' f (f i s)
  end.

Abbreviation for_loop n f s := (for_from 0%nat n f s).

Lemma for_from_ind {S : Type} (I : nat -> S -> Prop) f n : forall i s,
  I i s ->
  (forall j s, (i <= j < i + n)%nat -> I j s -> I (Datatypes.S j) (f j s)) ->
  I (i + n)%nat (for_from i n f s).
Proof.
  induction n as [|n IH]; intros i s Hs Hf; simpl.
  - by rewrite Nat.add_0_r.
  - rewrite Nat.add_succ_r. apply (IH (Datatypes.S i)).
    + apply Hf; [lia | done].
    + intros j s' Hj. apply Hf. lia.
Qed.

(** The invariant rule as it is used: from 0 to [n]. *)
Lemma for_loop_inv {S : Type} (I : nat -> S -> Prop) f n s :
  I 0%nat s ->
  (forall j s, (j < n)%nat -> I j s -> I (Datatypes.S j) (f j s)) ->
  I n (for_loop n f s).
Proof.
  intros Hs Hf. apply (for_from_ind I f n 0 s Hs).
  intros j s' Hj. apply Hf. lia.
Qed.

(** ** Conditional loops

    [step s] is one turn of a [while] loop: [inl] of the next state, or [inr] of
    the result when the loop is left.  The bound on the number of turns is
    explicit; [while_total] is the rule that shows it is never met. *)

Section While.
Context {S R : Type} (step : S -> S + R).

Fixpoint while_loop (fuel : nat) (s : S) : option R :=
  match fuel with
  | O => None
  | Datatypes.S fuel =>
      match step s with
      | inl s' => while_loop fuel s'
      | inr r => Some r
      end
  end.

(** total correctness: an invariant [I], a measure that falls at every turn and
    is below the bound, and a postcondition [Q] *)
Lemma while_total (I : S -> Prop) (m : S -> nat) (Q : R -> Prop) :
  (forall s s', I s -> step s = inl s' -> I s' /\ (m s' < m s)%nat) ->
  (forall s r, I s -> step s = inr r -> Q r) ->
  forall fuel s, I s -> (m s < fuel)%nat -> exists r, while_loop fuel s = Some r /\ Q r.
Proof.
  intros Hstep Hexit. induction fuel as [|fuel IH]; intros s Hs Hm; [lia|]. simpl.
  destruct (step s) as [s'|r] eqn:E; [|eauto].
  destruct (Hstep s s' Hs E) as [Hs' Hlt]. apply IH; [done | lia].
Qed.

(** any larger bound gives the same result *)
Lemma while_fuel fuel fuel' s r :
  while_loop fuel s = Some r -> (fuel <= fuel')%nat -> while_loop fuel' s = Some r.
Proof.
  revert fuel' s. induction fuel as [|fuel IH]; intros fuel' s H Hle; [done|].
  destruct fuel' as [|fuel']; [lia|]. simpl in *. destruct (step s) as [s'|r']; [|done].
  apply IH; [done | lia].
Qed.
End While.

(** the number of elements, as the unsigned number [size()] returns *)
Abbreviation zlen l := (Z.of_nat (length l)).

(** ** Integer lemmas shared by the components *)

Lemma u32_range x : is_u32 (u32 x).
Proof. unfold is_u32, u32. apply Z.mod_pos_bound. lia. Qed.

Lemma u64_range x : is_u64 (u64 x).
Proof. unfold is_u64, u64. apply Z.mod_pos_bound. lia. Qed.

Lemma u32_small x : is_u32 x -> u32 x = x.
Proof. apply Z.mod_small. Qed.

Lemma u64_small x : is_u64 x -> u64 x = x.
Proof. apply Z.mod_small. Qed.

Lemma wrap_signed_small w x :
  0 < w -> - 2 ^ (w - 1) <= x < 2 ^ (w - 1) -> wrap_signed w x = x.
Proof.
  intros Hw Hx. unfold wrap_signed.
  assert (2 ^ w = 2 * 2 ^ (w - 1)) by (rewrite <- Z.pow_succ_r by lia; f_equal; lia).
  rewrite Z.mod_small by lia. lia.
Qed.

Lemma i64_small x : is_i64 x -> i64 x = x.
Proof. intros H. apply wrap_signed_small; [lia | exact H]. Qed.

Lemma i32_small x : is_i32 x -> i32 x = x.
Proof. intros H. apply wrap_signed_small; [lia | exact H]. Qed.

Lemma land_mask (n k : Z) : 0 <= k -> Z.land n (2 ^ k - 1) = n mod 2 ^ k.
Proof. intros Hk. rewrite <- Z.land_ones by lia. f_equal. rewrite Z.ones_equiv. lia. Qed.

Lemma land_ffffffff n : Z.land n 4294967295 = n mod 2 ^ 32.
Proof. apply (land_mask n 32). lia. Qed.

(** [or] of numbers with disjoint bits is addition. *)
Lemma lor_disjoint_add (lo hi k : Z) :
  0 <= k -> 0 <= lo < 2 ^ k -> Z.lor lo (hi * 2 ^ k) = lo + hi * 2 ^ k.
Proof.
  intros Hk Hlo. pose proof (Z.add_lor_land lo (hi * 2 ^ k)) as E.
  replace (Z.land lo (hi * 2 ^ k)) with 0 in E; [lia|].
  rewrite <- Z.shiftl_mul_pow2 by lia. symmetry.
  apply Z.bits_inj'. intros j Hj. rewrite Z.land_spec, Z.bits_0, Z.shiftl_spec by lia.
  destruct (Z.lt_ge_cases j k).
  - rewrite (Z.testbit_neg_r _ (j - k)) by lia. apply andb_false_r.
  - rewrite <- (Z.mod_small lo (2 ^ k)), Z.mod_pow2_bits_high by lia. done.
Qed.

#[export] Hint Resolve u32_range u64_range : br.
