(* ===== verification/ArithUint.v ===== *)
(** * Big unsigned integers ([src/src/arith_uint256.h], [arith_uint256.cpp])

    [base_uint<BITS>] is an array [pn] of [WIDTH = BITS/32] limbs of 32 bits,
    least significant first.  It is modelled as a list of [Z] with the loops of
    the source running over it, for an arbitrary [WIDTH]; [arith_uint256] and
    [arith_uint512] are the instances 8 and 16.  The abstraction function is
    [uval]; the lemmas show that each operation is the operation on [Z] modulo
    [2^BITS]. *)

From S2P Require Import Prelude.

Abbreviation base_uint := (list Z).

(** ** The operations of the class *)

Module Uint.

(** [base_uint()] *)
Definition zero (W : nat) : base_uint := replicate W 0.

(** [base_uint(uint64_t)] and [operator=(uint64_t)] *)
Definition of_u64 (W : nat) (b : Z) : base_uint :=
  let pn := replicate W 0 in
  let pn := <[0%nat := u32 b]> pn in
  <[1%nat := u32 (Z.shiftr b 32)]> pn.

(** [operator!] *)
Fixpoint is_zero (a : base_uint) : bool :=
  match a with
  | [] => true
  | x :: r => if negb (x =? 0) then false else is_zero r
  end.

(** [operator~] *)
Definition not_ (a : base_uint) : base_uint := map (fun x => u32 (Z.lnot x)) a.

(** prefix [operator++]: [while (i < WIDTH && ++pn[i] == 0) i++] *)
Fixpoint inc (a : base_uint) : base_uint :=
  match a with
  | [] => []
  | x :: r => let x' := u32 (x + 1) in if x' =? 0 then x' :: inc r else x' :: r
  end.

(** prefix [operator--]: [while (i < WIDTH && --pn[i] == (uint32_t)-1) i++] *)
Fixpoint dec (a : base_uint) : base_uint :=
  match a with
  | [] => []
  | x :: r => let x' := u32 (x - 1) in if x' =? u32 (-1) then x' :: dec r else x' :: r
  end.

(** unary [operator-]: complement, then [ret++] *)
Definition neg (a : base_uint) : base_uint := inc (not_ a).

(** [operator^=], [operator&=], [operator|=] *)
Definition xor (a b : base_uint) : base_uint := zip_with Z.lxor a b.
Definition and_ (a b : base_uint) : base_uint := zip_with Z.land a b.
Definition or_ (a b : base_uint) : base_uint := zip_with Z.lor a b.

(** [operator^=(uint64_t)], [operator|=(uint64_t)] *)
Definition xor_u64 (a : base_uint) (b : Z) : base_uint :=
  let a := <[0%nat := Z.lxor (a !!! 0%nat) (u32 b)]> a in
  <[1%nat := Z.lxor (a !!! 1%nat) (u32 (Z.shiftr b 32))]> a.
Definition or_u64 (a : base_uint) (b : Z) : base_uint :=
  let a := <[0%nat := Z.lor (a !!! 0%nat) (u32 b)]> a in
  <[1%nat := Z.lor (a !!! 1%nat) (u32 (Z.shiftr b 32))]> a.

(** [operator<<=]; [pn] starts as all zeroes, [a] is the copy *)
Definition shl (a : base_uint) (shift : Z) : base_uint :=
  let W := length a in
  let k := Z.to_nat (shift / 32) in
  let sh := shift mod 32 in
  for_loop W (fun i pn =>
    let pn := if ((i + k + 1 <? W)%nat && negb (sh =? 0))
              then <[(i + k + 1)%nat := Z.lor (pn !!! (i + k + 1)%nat) (Z.shiftr (a !!! i) (32 - sh))]> pn
              else pn in
    if (i + k <? W)%nat
    then <[(i + k)%nat := Z.lor (pn !!! (i + k)%nat) (u32 (Z.shiftl (a !!! i) sh))]> pn
    else pn) (zero W).

(** [operator>>=] *)
Definition shr (a : base_uint) (shift : Z) : base_uint :=
  let W := length a in
  let k := Z.to_nat (shift / 32) in
  let sh := shift mod 32 in
  for_loop W (fun i pn =>
    let pn := if ((k + 1 <=? i)%nat && negb (sh =? 0))
              then <[(i - k - 1)%nat := Z.lor (pn !!! (i - k - 1)%nat) (u32 (Z.shiftl (a !!! i) (32 - sh)))]> pn
              else pn in
    if (k <=? i)%nat
    then <[(i - k)%nat := Z.lor (pn !!! (i - k)%nat) (Z.shiftr (a !!! i) sh)]> pn
    else pn) (zero W).

(** [operator+=]: limbwise with a 64-bit carry *)
Fixpoint add_carry (carry : Z) (a b : base_uint) : base_uint :=
  match a, b with
  | x :: a', y :: b' =>
      let n := u64 (carry + x + y) in
      Z.land n 0xffffffff :: add_carry (Z.shiftr n 32) a' b'
  | _, _ => []
  end.
Definition add (a b : base_uint) : base_uint := add_carry 0 a b.

(** [operator-=]: [*this += -b] *)
Definition sub (a b : base_uint) : base_uint := add a (neg b).

(** [operator+=(uint64_t)], [operator-=(uint64_t)] *)
Definition add_u64 (a : base_uint) (b64 : Z) : base_uint := add a (of_u64 (length a) b64).
Definition sub_u64 (a : base_uint) (b64 : Z) : base_uint := add a (neg (of_u64 (length a) b64)).

(** [operator*=(uint32_t)] *)
Fixpoint mul_u32_carry (carry : Z) (a : base_uint) (b32 : Z) : base_uint :=
  match a with
  | x :: a' =>
      let n := u64 (carry + b32 * x) in
      Z.land n 0xffffffff :: mul_u32_carry (Z.shiftr n 32) a' b32
  | [] => []
  end.
Definition mul_u32 (a : base_uint) (b32 : Z) : base_uint := mul_u32_carry 0 a (u32 b32).

(** [operator*=(const base_uint&)]: schoolbook, the inner loop of row [j]
    carries into [pn[i + j]] for [i + j < WIDTH]; [b] is another object than [*this], as
    in every call of the node *)
Definition mul_row (aj : Z) (b : base_uint) (j : nat) (pn : base_uint) : base_uint :=
  (for_loop (length pn - j) (fun i '(pn, carry) =>
     let n := u64 (carry + pn !!! (i + j)%nat + aj * (b !!! i)) in
     (<[(i + j)%nat := Z.land n 0xffffffff]> pn, Z.shiftr n 32)) (pn, 0)).1.
Definition mul (a b : base_uint) : base_uint :=
  for_loop (length a) (fun j pn => mul_row (a !!! j) b j pn) (zero (length a)).

(** [CompareTo]: from the top limb down; [compare_from i] looks at limbs below [i] *)
Fixpoint compare_from (i : nat) (a b : base_uint) : Z :=
  match i with
  | O => 0
  | S i' => if (a !!! i') <? (b !!! i') then -1
            else if (a !!! i') >? (b !!! i') then 1
            else compare_from i' a b
  end.
Definition CompareTo (a b : base_uint) : Z := compare_from (length a) a b.

(** [EqualTo(uint64_t)] *)
Fixpoint high_limbs_zero (i : nat) (a : base_uint) : bool :=
  match i with
  | S (S (S _) as i') => if negb (a !!! i' =? 0) then false else high_limbs_zero i' a
  | _ => true
  end.
Definition EqualTo (a : base_uint) (b : Z) : bool :=
  if negb (high_limbs_zero (length a) a) then false
  else if negb (a !!! 1%nat =? Z.shiftr b 32) then false
  else if negb (a !!! 0%nat =? Z.land b 0xffffffff) then false
  else true.

(** [bits()]: the loops over [pos] and [nbits], both downwards *)
Fixpoint limb_bits (nbits : nat) (x : Z) : Z :=
  match nbits with
  | O => 1
  | S n' => if negb (Z.land x (Z.shiftl 1 (Z.of_nat nbits)) =? 0) then Z.of_nat nbits + 1
            else limb_bits n' x
  end.
Fixpoint bits_from (pos : nat) (a : base_uint) : Z :=
  match pos with
  | O => 0
  | S p' => if negb (a !!! p' =? 0) then 32 * Z.of_nat p' + limb_bits 31 (a !!! p')
            else bits_from p' a
  end.
Definition bits (a : base_uint) : Z := bits_from (length a) a.

(** [GetLow64] *)
Definition GetLow64 (a : base_uint) : Z := Z.lor (a !!! 0%nat) (u64 (Z.shiftl (a !!! 1%nat) 32)).

(** [operator/=]: shift-and-subtract; [None] is the thrown [uint_error].
    The loop runs for [shift = num_bits - div_bits] down to 0. *)
Fixpoint div_loop (n : nat) (num div quo : base_uint) : base_uint * base_uint :=
  match n with
  | O => (quo, num)
  | S shift =>
      let '(num, quo) :=
        if CompareTo num div >=? 0
        then (sub num div,
              <[(shift / 32)%nat := Z.lor (quo !!! (shift / 32)%nat)
                                          (Z.shiftl 1 (Z.of_nat shift mod 32))]> quo)
        else (num, quo) in
      div_loop shift num (shr div 1) quo
  end.
Definition div (a b : base_uint) : option base_uint :=
  let num_bits := bits a in
  let div_bits := bits b in
  if div_bits =? 0 then None
  else if div_bits >? num_bits then Some (zero (length a))
  else let shift := num_bits - div_bits in
       Some (div_loop (S (Z.to_nat shift)) a (shl b shift) (zero (length a))).1.

(** [SetHex(const char* psz)]: the bytes of the string are copied into the
    limbs as they are (little-endian host), four per limb. *)
Definition ReadLE32 (p : list Z) : Z :=
  p !!! 0%nat + 2 ^ 8 * p !!! 1%nat + 2 ^ 16 * p !!! 2%nat + 2 ^ 24 * p !!! 3%nat.
Definition WriteLE32 (x : Z) : list Z :=
  [u8 x; u8 (Z.shiftr x 8); u8 (Z.shiftr x 16); u8 (Z.shiftr x 24)].
Definition SetHex (W : nat) (psz : list Z) : base_uint :=
  map (fun x => ReadLE32 (drop (x * 4) psz)) (seq 0 W).

(** [ArithToUint256] and [UintToArith256]: limbs to and from the 32 bytes *)
Definition ArithToUint256 (a : base_uint) : list Z := concat (map WriteLE32 a).
Definition UintToArith256 (W : nat) (b : list Z) : base_uint :=
  map (fun x => ReadLE32 (drop (x * 4) b)) (seq 0 W).

(** [arith_uint512(const arith_uint256&)] and [trim256] *)
Definition extend512 (b : base_uint) : base_uint := b ++ replicate 8 0.
Definition trim256 (a : base_uint) : base_uint := take 8 a.

End Uint.

(** ** Abstraction: the number the limbs stand for *)

Fixpoint uval (a : base_uint) : Z :=
  match a with
  | [] => 0
  | x :: r => x + 2 ^ 32 * uval r
  end.

(** the representation invariant: [W] limbs, each below [2^32] *)
Definition uwf (W : nat) (a : base_uint) : Prop := length a = W /\ Forall is_u32 a.

Definition modulus (W : nat) : Z := 2 ^ (32 * Z.of_nat W).

Lemma modulus_pos W : 0 < modulus W.
Proof. apply Z.pow_pos_nonneg; lia. Qed.

Lemma modulus_S W : modulus (S W) = 2 ^ 32 * modulus W.
Proof. unfold modulus. rewrite <- Z.pow_add_r by lia. f_equal. lia. Qed.

Lemma modulus_add m n : modulus (m + n) = modulus m * modulus n.
Proof. unfold modulus. rewrite <- Z.pow_add_r by lia. f_equal. lia. Qed.

Lemma uwf_cons W x a : uwf (S W) (x :: a) <-> is_u32 x /\ uwf W a.
Proof.
  unfold uwf. rewrite Forall_cons. simpl. split; intros [? ?]; intuition lia.
Qed.

Lemma uwf_cons_inv W a : uwf (S W) a -> exists x r, a = x :: r /\ is_u32 x /\ uwf W r.
Proof.
  intros Ha. destruct a as [|x r]; [by destruct Ha|]. exists x, r.
  split; [done|]. by apply uwf_cons.
Qed.

Lemma uwf_nil_inv a : uwf 0 a -> a = [].
Proof. intros [H _]. by apply nil_length_inv. Qed.

(** rule induction on the representation invariant *)
Lemma uwf_ind (P : nat -> base_uint -> Prop) :
  P 0%nat [] ->
  (forall W x a, is_u32 x -> uwf W a -> P W a -> P (S W) (x :: a)) ->
  forall W a, uwf W a -> P W a.
Proof.
  intros H0 HS. induction W as [|W IH]; intros a Ha.
  - by rewrite (uwf_nil_inv a Ha).
  - apply uwf_cons_inv in Ha as (x & r & -> & Hx & Hr). auto.
Qed.

Lemma uval_range W a : uwf W a -> 0 <= uval a < modulus W.
Proof.
  intros Ha. induction Ha as [|W x a Hx Ha IH] using uwf_ind.
  - done.
  - rewrite modulus_S. unfold is_u32 in Hx. simpl uval. nia.
Qed.

Lemma uval_inj W a b : uwf W a -> uwf W b -> uval a = uval b -> a = b.
Proof.
  revert a b. induction W as [|W IH]; intros a b Ha Hb E.
  - by rewrite (uwf_nil_inv a), (uwf_nil_inv b).
  - apply uwf_cons_inv in Ha as (x & a' & -> & Hx & Ha).
    apply uwf_cons_inv in Hb as (y & b' & -> & Hy & Hb).
    simpl in E. unfold is_u32 in *. assert (x = y /\ uval a' = uval b') as [-> E'] by lia.
    f_equal. by apply IH.
Qed.

Lemma uval_app a b : uval (a ++ b) = uval a + modulus (length a) * uval b.
Proof.
  induction a as [|x a IH]; simpl uval; simpl length.
  - unfold modulus. rewrite Z.mul_0_r, Z.pow_0_r. simpl. lia.
  - simpl app. simpl uval. rewrite IH, modulus_S. lia.
Qed.

Lemma uval_replicate_0 n : uval (replicate n 0) = 0.
Proof. induction n as [|n IH]; [done|]. cbn [replicate uval]. lia. Qed.

Lemma uwf_zero W : uwf W (Uint.zero W).
Proof.
  split; [apply length_replicate|]. apply Forall_replicate. unfold is_u32. lia.
Qed.

Lemma uval_insert a i y : (i < length a)%nat ->
  uval (<[i := y]> a) = uval a + (y - a !!! i) * 2 ^ (32 * Z.of_nat i).
Proof.
  revert i. induction a as [|x a IH]; intros i Hi; simpl in Hi; [lia|].
  destruct i as [|i].
  - cbn. lia.
  - change (<[S i := y]> (x :: a)) with (x :: <[i := y]> a).
    cbn [uval]. rewrite IH by lia. change ((x :: a) !!! S i) with (a !!! i).
    replace (32 * Z.of_nat (S i)) with (32 + 32 * Z.of_nat i) by lia.
    rewrite Z.pow_add_r by lia. lia.
Qed.

Lemma uwf_insert W a i y : uwf W a -> is_u32 y -> uwf W (<[i := y]> a).
Proof.
  intros [Hl Ha] Hy. split; [by rewrite length_insert|]. by apply Forall_insert.
Qed.

Lemma uwf_lookup W a i : uwf W a -> is_u32 (a !!! i).
Proof.
  intros [_ Ha]. destruct (decide (i < length a)%nat) as [Hi|Hi].
  - destruct (lookup_lt_is_Some_2 a i Hi) as [x Hx].
    rewrite (list_lookup_total_correct _ _ _ Hx). by apply (Forall_lookup_1 _ _ _ _ Ha Hx).
  - rewrite lookup_total_ge by lia. done.
Qed.

Lemma uval_take_S a i : (i < length a)%nat ->
  uval (take (S i) a) = uval (take i a) + a !!! i * 2 ^ (32 * Z.of_nat i).
Proof.
  intros Hi. destruct (lookup_lt_is_Some_2 a i Hi) as [x Hx].
  rewrite (take_S_r _ _ _ Hx), uval_app, (list_lookup_total_correct _ _ _ Hx).
  cbn [uval]. unfold modulus. rewrite length_take_le by lia. lia.
Qed.

#[export] Hint Resolve uwf_zero uwf_insert : br.

(** ** Each operation computes on [Z] modulo [2^BITS] *)

Lemma uval_of_u64 W b : (2 <= W)%nat -> is_u64 b ->
  uwf W (Uint.of_u64 W b) /\ uval (Uint.of_u64 W b) = b.
Proof.
  intros HW Hb. unfold Uint.of_u64. split.
  - auto using uwf_zero with br.
  - destruct W as [|[|W]]; try lia. cbn [replicate insert list_insert uval].
    rewrite uval_replicate_0, Z.shiftr_div_pow2 by lia.
    unfold u32, is_u64 in *. rewrite (Z.mod_small (b / 2 ^ 32)) by
      (split; [apply Z.div_pos; lia | apply Z.div_lt_upper_bound; lia]).
    pose proof (Z.div_mod b (2 ^ 32)). lia.
Qed.

Lemma is_zero_spec a W : uwf W a -> Uint.is_zero a = (uval a =? 0).
Proof.
  intros Ha. induction Ha as [|W x a Hx Ha IH] using uwf_ind.
  - done.
  - cbn [Uint.is_zero uval].
    pose proof (uval_range _ _ Ha). unfold is_u32 in Hx.
    destruct (Z.eqb_spec x 0); simpl.
    + rewrite IH. subst. apply Bool.eq_iff_eq_true. rewrite !Z.eqb_eq. lia.
    + symmetry. apply Z.eqb_neq. lia.
Qed.

Lemma uval_not W a : uwf W a ->
  uwf W (Uint.not_ a) /\ uval (Uint.not_ a) = modulus W - 1 - uval a.
Proof.
  intros Ha. induction Ha as [|W x a Hx Ha IH] using uwf_ind.
  - done.
  - destruct IH as [IH1 IH2].
    cbn [Uint.not_ map uval]. rewrite uwf_cons.
    split; [split; [apply u32_range | exact IH1]|].
    change (map _ a) with (Uint.not_ a). rewrite IH2, modulus_S.
    unfold u32, is_u32 in *. unfold Z.lnot.
    replace (Z.pred (- x)) with (2 ^ 32 - 1 - x + (-1) * 2 ^ 32) by lia.
    rewrite Z.mod_add, Z.mod_small by lia. lia.
Qed.

Lemma uval_inc W a : uwf W a ->
  uwf W (Uint.inc a) /\ uval (Uint.inc a) = (uval a + 1) mod modulus W.
Proof.
  intros Ha. induction Ha as [|W x a Hx Ha IH] using uwf_ind.
  - done.
  - pose proof (uval_range _ _ Ha) as Hr.
    destruct IH as [IH1 IH2]. unfold is_u32 in Hx.
    cbn [Uint.inc]. rewrite modulus_S. unfold u32.
    destruct (Z.eq_dec x (2 ^ 32 - 1)) as [->|Hne].
    + change ((2 ^ 32 - 1 + 1) mod 2 ^ 32 =? 0) with true. cbv iota.
      rewrite uwf_cons. split; [split; [apply u32_range | exact IH1]|].
      cbn [uval]. rewrite IH2. change ((2 ^ 32 - 1 + 1) mod 2 ^ 32) with 0.
      replace (2 ^ 32 - 1 + 2 ^ 32 * uval a + 1) with (2 ^ 32 * (uval a + 1)) by lia.
      rewrite Z.mul_mod_distr_l by (pose proof (modulus_pos W); lia). lia.
    + rewrite Z.mod_small by lia.
      destruct (Z.eqb_spec (x + 1) 0); [lia|]. rewrite uwf_cons.
      split; [split; [unfold is_u32; lia | done]|]. cbn [uval].
      rewrite Z.mod_small; nia.
Qed.

Lemma uval_dec W a : uwf W a ->
  uwf W (Uint.dec a) /\ uval (Uint.dec a) = (uval a - 1) mod modulus W.
Proof.
  intros Ha. induction Ha as [|W x a Hx Ha IH] using uwf_ind.
  - done.
  - pose proof (uval_range _ _ Ha) as Hr.
    destruct IH as [IH1 IH2]. unfold is_u32 in Hx.
    cbn [Uint.dec]. rewrite modulus_S. unfold u32. change ((-1) mod 2 ^ 32) with (2 ^ 32 - 1).
    destruct (Z.eq_dec x 0) as [->|Hne].
    + change ((0 - 1) mod 2 ^ 32) with (2 ^ 32 - 1). rewrite Z.eqb_refl.
      rewrite uwf_cons. split; [split; [unfold is_u32; lia | exact IH1]|].
      cbn [uval]. rewrite IH2.
      replace (0 + 2 ^ 32 * uval a - 1) with (2 ^ 32 - 1 + 2 ^ 32 * (uval a - 1)) by lia.
      pose proof (modulus_pos W).
      rewrite Z.rem_mul_r by lia.
      replace (2 ^ 32 - 1 + 2 ^ 32 * (uval a - 1)) with (2 ^ 32 - 1 + (uval a - 1) * 2 ^ 32) by lia.
      rewrite Z.mod_add, Z.div_add by lia.
      change ((2 ^ 32 - 1) mod 2 ^ 32) with (2 ^ 32 - 1).
      change ((2 ^ 32 - 1) / 2 ^ 32) with 0. rewrite Z.add_0_l. done.
    + rewrite Z.mod_small by lia.
      destruct (Z.eqb_spec (x - 1) (2 ^ 32 - 1)); [lia|]. rewrite uwf_cons.
      split; [split; [unfold is_u32; lia | done]|]. cbn [uval].
      rewrite Z.mod_small; nia.
Qed.

Lemma uval_neg W a : uwf W a ->
  uwf W (Uint.neg a) /\ uval (Uint.neg a) = (- uval a) mod modulus W.
Proof.
  intros Ha. destruct (uval_not W a Ha) as [Hn En]. destruct (uval_inc W _ Hn) as [Hi Ei].
  split; [exact Hi|]. unfold Uint.neg. rewrite Ei, En.
  replace (modulus W - 1 - uval a + 1) with (- uval a + 1 * modulus W) by lia.
  apply Z.mod_add. pose proof (modulus_pos W). lia.
Qed.

Lemma testbit_cons x v j : is_u32 x -> 0 <= j ->
  Z.testbit (x + 2 ^ 32 * v) j = if j <? 32 then Z.testbit x j else Z.testbit v (j - 32).
Proof.
  intros Hx Hj. rewrite (Z.mul_comm (2 ^ 32)), <- lor_disjoint_add by (unfold is_u32 in Hx; lia).
  rewrite Z.lor_spec, <- Z.shiftl_mul_pow2, Z.shiftl_spec by lia.
  destruct (Z.ltb_spec j 32).
  - rewrite (Z.testbit_neg_r _ (j - 32)) by lia. apply orb_false_r.
  - rewrite <- (Z.mod_small x (2 ^ 32)), Z.mod_pow2_bits_high by (unfold is_u32 in Hx; lia). done.
Qed.

(** the three limbwise bit operations at once *)
Lemma uval_bitwise (op : Z -> Z -> Z) (bop : bool -> bool -> bool) W a b :
  (forall x y j, 0 <= j -> Z.testbit (op x y) j = bop (Z.testbit x j) (Z.testbit y j)) ->
  (forall x y, is_u32 x -> is_u32 y -> is_u32 (op x y)) ->
  op 0 0 = 0 ->
  uwf W a -> uwf W b -> uwf W (zip_with op a b) /\ uval (zip_with op a b) = op (uval a) (uval b).
Proof.
  intros Hbit Hr H0 Ha. revert b. induction Ha as [|W x a Hx Ha IH] using uwf_ind; intros b Hb.
  - by rewrite (uwf_nil_inv b Hb).
  - apply uwf_cons_inv in Hb as (y & r & -> & Hy & Hb). destruct (IH r Hb) as [IH1 IH2].
    simpl. rewrite uwf_cons, IH2. split; [auto|]. apply Z.bits_inj'. intros j Hj.
    rewrite Hbit by done. rewrite !testbit_cons by auto.
    destruct (Z.ltb_spec j 32); rewrite Hbit by lia; done.
Qed.

Lemma is_u32_log2 x : 0 <= x -> (x = 0 \/ Z.log2 x < 32) <-> is_u32 x.
Proof.
  intros Hx. unfold is_u32. destruct (Z.eq_dec x 0) as [->|]; [lia|].
  rewrite (Z.log2_lt_pow2 x 32) by lia. lia.
Qed.

Lemma uval_xor W a b : uwf W a -> uwf W b ->
  uwf W (Uint.xor a b) /\ uval (Uint.xor a b) = Z.lxor (uval a) (uval b).
Proof.
  apply (uval_bitwise Z.lxor xorb); [intros; apply Z.lxor_spec| |done].
  intros x y Hx Hy. unfold is_u32 in Hx, Hy. apply is_u32_log2; [apply Z.lxor_nonneg; lia|].
  destruct (Z.eq_dec (Z.lxor x y) 0); [by left|right].
  apply Z.le_lt_trans with (1 := Z.log2_lxor x y ltac:(lia) ltac:(lia)).
  apply Z.max_lub_lt; [destruct (Z.eq_dec x 0) as [->|] | destruct (Z.eq_dec y 0) as [->|]];
    try done; apply Z.log2_lt_pow2; lia.
Qed.

Lemma uval_and W a b : uwf W a -> uwf W b ->
  uwf W (Uint.and_ a b) /\ uval (Uint.and_ a b) = Z.land (uval a) (uval b).
Proof.
  apply (uval_bitwise Z.land andb); [intros; apply Z.land_spec| |done].
  intros x y Hx Hy. unfold is_u32 in *. split; [apply Z.land_nonneg; lia|].
  apply Z.le_lt_trans with x; [|lia]. apply Z.ldiff_le; [lia|]. 
  apply Z.bits_inj'. intros j Hj. rewrite Z.ldiff_spec, Z.land_spec, Z.bits_0.
  by destruct (Z.testbit x j), (Z.testbit y j).
Qed.

Lemma is_u32_lor x y : is_u32 x -> is_u32 y -> is_u32 (Z.lor x y).
Proof.
  intros Hx Hy. unfold is_u32 in Hx, Hy. apply is_u32_log2; [apply Z.lor_nonneg; lia|].
  destruct (Z.eq_dec (Z.lor x y) 0); [by left|right].
  rewrite Z.log2_lor by lia.
  apply Z.max_lub_lt; [destruct (Z.eq_dec x 0) as [->|] | destruct (Z.eq_dec y 0) as [->|]];
    try done; apply Z.log2_lt_pow2; lia.
Qed.

Lemma uval_or W a b : uwf W a -> uwf W b ->
  uwf W (Uint.or_ a b) /\ uval (Uint.or_ a b) = Z.lor (uval a) (uval b).
Proof.
  apply (uval_bitwise Z.lor orb); [intros; apply Z.lor_spec|apply is_u32_lor|done].
Qed.

(** one limb of a carry chain: low half stored, high half carried *)
Lemma carry_step n : 0 <= n -> Z.land n 0xffffffff + 2 ^ 32 * Z.shiftr n 32 = n /\
  is_u32 (Z.land n 0xffffffff).
Proof.
  intros Hn. rewrite land_ffffffff, Z.shiftr_div_pow2 by lia.
  split; [pose proof (Z.div_mod n (2 ^ 32)); lia | apply u32_range].
Qed.

(** [x + 2^32 * (y mod m) = (x + 2^32 * y) mod (2^32 * m)] for a 32-bit [x] *)
Lemma limb_mod x y W : is_u32 x ->
  x + 2 ^ 32 * (y mod modulus W) = (x + 2 ^ 32 * y) mod modulus (S W).
Proof.
  intros Hx. unfold is_u32 in Hx. pose proof (modulus_pos W) as Hm.
  rewrite modulus_S, Z.rem_mul_r by lia.
  rewrite (Z.mul_comm (2 ^ 32) y), Z.mod_add, Z.div_add by lia.
  rewrite (Z.mod_small x), (Z.div_small x) by lia. done.
Qed.

Lemma uval_add_carry W a b c : uwf W a -> uwf W b -> 0 <= c <= 1 ->
  uwf W (Uint.add_carry c a b) /\ uval (Uint.add_carry c a b) = (c + uval a + uval b) mod modulus W.
Proof.
  intros Ha. revert b c. induction Ha as [|W x a Hx Ha IH] using uwf_ind; intros b c Hb Hc.
  - rewrite (uwf_nil_inv b Hb). split; [done|]. change (modulus 0) with 1. by rewrite Z.mod_1_r.
  - apply uwf_cons_inv in Hb as (y & r & -> & Hy & Hb). unfold is_u32 in Hx, Hy.
    cbn [Uint.add_carry uval]. rewrite u64_small by (unfold is_u64; lia).
    destruct (carry_step (c + x + y) ltac:(lia)) as [E Hl]. unfold is_u32 in Hl.
    destruct (IH r (Z.shiftr (c + x + y) 32) Hb ltac:(lia)) as [IH1 IH2].
    rewrite uwf_cons, IH2. split; [done|]. rewrite limb_mod by done. f_equal. lia.
Qed.

Lemma uval_add W a b : uwf W a -> uwf W b ->
  uwf W (Uint.add a b) /\ uval (Uint.add a b) = (uval a + uval b) mod modulus W.
Proof. intros Ha Hb. apply (uval_add_carry W a b 0 Ha Hb). lia. Qed.

Lemma uval_sub W a b : uwf W a -> uwf W b ->
  uwf W (Uint.sub a b) /\ uval (Uint.sub a b) = (uval a - uval b) mod modulus W.
Proof.
  intros Ha Hb. destruct (uval_neg W b Hb) as [Hn En].
  destruct (uval_add W a _ Ha Hn) as [Hs Es]. split; [exact Hs|].
  unfold Uint.sub. rewrite Es, En. pose proof (modulus_pos W).
  rewrite Z.add_mod_idemp_r by lia. f_equal.
Qed.

Lemma uval_mul_u32_carry W a b c : uwf W a -> is_u32 b -> is_u32 c ->
  uwf W (Uint.mul_u32_carry c a b) /\ uval (Uint.mul_u32_carry c a b) = (c + uval a * b) mod modulus W.
Proof.
  intros Ha Hb. revert c. induction Ha as [|W x a Hx Ha IH] using uwf_ind; intros c Hc.
  - split; [done|]. change (modulus 0) with 1. by rewrite Z.mod_1_r.
  - unfold is_u32 in Hx, Hb, Hc. cbn [Uint.mul_u32_carry uval].
    rewrite u64_small by (unfold is_u64; nia).
    destruct (carry_step (c + b * x) ltac:(nia)) as [E Hl]. unfold is_u32 in Hl.
    destruct (IH (Z.shiftr (c + b * x) 32) ltac:(unfold is_u32; nia)) as [IH1 IH2].
    rewrite uwf_cons, IH2. split; [done|]. rewrite limb_mod by done. f_equal. lia.
Qed.

Lemma uval_mul_u32 W a b : uwf W a ->
  uwf W (Uint.mul_u32 a b) /\ uval (Uint.mul_u32 a b) = (uval a * u32 b) mod modulus W.
Proof.
  intros Ha. apply (uval_mul_u32_carry W a (u32 b) 0 Ha); [apply u32_range|]. unfold is_u32. lia.
Qed.

(** *** Shifts *)

(** a limb shifted left splits into the part kept and the part moved up *)
Lemma split_shl x sh : is_u32 x -> 0 <= sh < 32 ->
  x * 2 ^ sh = u32 (Z.shiftl x sh) + 2 ^ 32 * Z.shiftr x (32 - sh) /\
  0 <= Z.shiftr x (32 - sh) < 2 ^ sh /\
  u32 (Z.shiftl x sh) = (x mod 2 ^ (32 - sh)) * 2 ^ sh.
Proof.
  intros Hx Hsh. unfold is_u32, u32 in *.
  rewrite Z.shiftl_mul_pow2, Z.shiftr_div_pow2 by lia.
  assert (Hp : 2 ^ 32 = 2 ^ (32 - sh) * 2 ^ sh) by (rewrite <- Z.pow_add_r by lia; f_equal; lia).
  assert (0 < 2 ^ (32 - sh)) by (apply Z.pow_pos_nonneg; lia).
  assert (0 < 2 ^ sh) by (apply Z.pow_pos_nonneg; lia).
  assert (E : (x * 2 ^ sh) mod 2 ^ 32 = (x mod 2 ^ (32 - sh)) * 2 ^ sh)
    by (rewrite Hp, Z.mul_mod_distr_r by lia; done).
  rewrite E. pose proof (Z.div_mod x (2 ^ (32 - sh))).
  split; [rewrite Hp; nia|]. split; [|done].
  split; [apply Z.div_pos; lia | apply Z.div_lt_upper_bound; nia].
Qed.

Lemma lookup_zero W j : Uint.zero W !!! j = 0.
Proof.
  unfold Uint.zero. destruct (decide (j < W)%nat).
  - by apply lookup_total_replicate_2.
  - apply lookup_total_ge. rewrite length_replicate. lia.
Qed.

Lemma pow_le_mod_0 W e : (32 * Z.of_nat W <= e) -> 2 ^ e mod modulus W = 0.
Proof.
  intros He. unfold modulus. replace e with (e - 32 * Z.of_nat W + 32 * Z.of_nat W) by lia.
  rewrite Z.pow_add_r by lia. apply Z.mod_mul. apply Z.pow_nonzero; lia.
Qed.

(** or-ing [x * 2^n] into limb [j], if there is one, above the [n] bits it holds;
    a limb beyond the array stands for a multiple of the modulus *)
Lemma or_limb_spec W pn j x n : uwf W pn -> 0 <= n -> 0 <= pn !!! j < 2 ^ n -> is_u32 (x * 2 ^ n) ->
  let pn' := if (j <? W)%nat then <[j := Z.lor (pn !!! j) (x * 2 ^ n)]> pn else pn in
  uwf W pn' /\ uval pn' = (uval pn + x * 2 ^ n * 2 ^ (32 * Z.of_nat j)) mod modulus W /\
  (forall i, i <> j -> pn' !!! i = pn !!! i) /\ 0 <= pn' !!! j <= pn !!! j + x * 2 ^ n.
Proof.
  intros Hp Hn Hb Hx. pose proof (modulus_pos W). pose proof (uval_range W pn Hp).
  assert (Hl : length pn = W) by apply Hp. destruct (Nat.ltb_spec j W) as [HW|HW]; cbv zeta.
  - assert (Hwf : uwf W (<[j := Z.lor (pn !!! j) (x * 2 ^ n)]> pn)).
    { apply uwf_insert; [done|]. apply is_u32_lor; [by apply (uwf_lookup W)|done]. }
    split; [done|]. pose proof (uval_range W _ Hwf) as Hr.
    assert (E : uval (<[j := Z.lor (pn !!! j) (x * 2 ^ n)]> pn) = uval pn + x * 2 ^ n * 2 ^ (32 * Z.of_nat j))
      by (rewrite uval_insert, lor_disjoint_add by lia; lia).
    split; [rewrite E in *; symmetry; apply Z.mod_small; lia|]. split.
    + intros i Hi. by rewrite list_lookup_total_insert_ne.
    + rewrite list_lookup_total_insert_eq, lor_disjoint_add by lia. unfold is_u32 in Hx. lia.
  - split; [done|]. split; [|unfold is_u32 in Hx; auto with lia].
    rewrite Z.add_mod, (Z.mul_mod (x * 2 ^ n)), pow_le_mod_0, Z.mul_0_r by lia.
    rewrite Z.mod_0_l, Z.add_0_r, Z.mod_mod, Z.mod_small by lia. done.
Qed.

(** skipping an update that would or in 0 changes nothing *)
Lemma or_limb_guard W pn j x b : uwf W pn -> (b = false -> x = 0) ->
  (if ((j <? W)%nat && b) then <[j := Z.lor (pn !!! j) x]> pn else pn) =
  (if (j <? W)%nat then <[j := Z.lor (pn !!! j) (x * 2 ^ 0)]> pn else pn).
Proof.
  intros Hp Hb. rewrite Z.pow_0_r, Z.mul_1_r. destruct (Nat.ltb_spec j W); [|done].
  destruct b; [done|]. simpl. rewrite (Hb eq_refl), Z.lor_0_r.
  rewrite list_insert_id; [done|]. apply list_lookup_lookup_total_lt. destruct Hp. lia.
Qed.

Section shl.
Context (W : nat) (a : base_uint) (shift : Z) (Ha : uwf W a) (Hs : 0 <= shift).
Let k := Z.to_nat (shift / 32).
Let sh := shift mod 32.

Definition shl_inv (i : nat) (pn : base_uint) : Prop :=
  uwf W pn /\ uval pn = (uval (take i a) * 2 ^ shift) mod modulus W /\
  (forall j, (i + k < j)%nat -> pn !!! j = 0) /\ 0 <= pn !!! (i + k)%nat < 2 ^ sh.

Lemma shift_split : 0 <= sh < 32 /\ shift = 32 * Z.of_nat k + sh.
Proof.
  subst k sh. pose proof (Z.div_mod shift 32 ltac:(lia)).
  pose proof (Z.mod_pos_bound shift 32 ltac:(lia)). pose proof (Z.div_pos shift 32). lia.
Qed.

Lemma shl_take_S i : (i < W)%nat -> uval (take (S i) a) * 2 ^ shift =
  uval (take i a) * 2 ^ shift + u32 (Z.shiftl (a !!! i) sh) * 2 ^ (32 * Z.of_nat (i + k))
  + Z.shiftr (a !!! i) (32 - sh) * 2 ^ (32 * Z.of_nat (i + k + 1)).
Proof.
  intros Hi. destruct shift_split as [Hsh Hshift]. assert (Hla : length a = W) by apply Ha.
  destruct (split_shl (a !!! i) sh (uwf_lookup W a i Ha) Hsh) as (Esp & _ & _).
  replace (2 ^ (32 * Z.of_nat (i + k + 1))) with (2 ^ 32 * 2 ^ (32 * Z.of_nat (i + k)))
    by (rewrite <- Z.pow_add_r by lia; f_equal; lia).
  rewrite uval_take_S by lia.
  replace ((uval (take i a) + a !!! i * 2 ^ (32 * Z.of_nat i)) * 2 ^ shift) with
    (uval (take i a) * 2 ^ shift + a !!! i * (2 ^ (32 * Z.of_nat i) * 2 ^ shift)) by lia.
  replace (2 ^ (32 * Z.of_nat i) * 2 ^ shift) with (2 ^ sh * 2 ^ (32 * Z.of_nat (i + k)))
    by (rewrite <- !Z.pow_add_r by lia; f_equal; lia).
  rewrite Z.mul_assoc, Esp. lia.
Qed.

Lemma shl_step i pn : (i < W)%nat -> shl_inv i pn ->
  shl_inv (S i)
    (let pn := if ((i + k + 1 <? W)%nat && negb (sh =? 0))
            then <[(i + k + 1)%nat := Z.lor (pn !!! (i + k + 1)%nat) (Z.shiftr (a !!! i) (32 - sh))]> pn
            else pn in
    if (i + k <? W)%nat
    then <[(i + k)%nat := Z.lor (pn !!! (i + k)%nat) (u32 (Z.shiftl (a !!! i) sh))]> pn
    else pn).
Proof.
  intros Hi (Hwf & Hv & Hz & Hb). destruct shift_split as [Hsh Hshift].
  pose proof (shl_take_S i Hi) as Etake. pose proof (modulus_pos W).
  destruct (split_shl (a !!! i) sh (uwf_lookup W a i Ha) Hsh) as (_ & Hhi & Elo).
  assert (2 ^ sh <= 2 ^ 32) by (apply Z.pow_le_mono_r; lia).
  rewrite or_limb_guard by (done || (intros E; apply negb_false_iff, Z.eqb_eq in E; rewrite E in *; lia)).
  destruct (or_limb_spec W pn (i + k + 1) (Z.shiftr (a !!! i) (32 - sh)) 0) as (Hwf1 & Hv1 & Hn1 & Hb1);
    rewrite ?Z.pow_0_r, ?Z.mul_1_r in *; [done|lia|rewrite Hz; lia|unfold is_u32; lia|].
  set (pn1 := if (i + k + 1 <? W)%nat then _ else _) in *. clearbody pn1. cbv zeta. rewrite Elo in *.
  destruct (or_limb_spec W pn1 (i + k) ((a !!! i) mod 2 ^ (32 - sh)) sh) as (Hwf2 & Hv2 & Hn2 & _);
    [done|lia|rewrite Hn1 by lia; done|rewrite <- Elo; apply u32_range|].
  set (pn2 := if (i + k <? W)%nat then _ else _) in *. clearbody pn2.
  rewrite Hz in Hb1 by lia. split; [done|]. split; [|split].
  - rewrite Hv2, Hv1, Hv, Etake, !Z.add_mod_idemp_l by lia.
    rewrite <- Z.add_assoc, Z.add_mod_idemp_l by lia. f_equal. lia.
  - intros j Hj. rewrite Hn2, Hn1, Hz by lia. done.
  - replace (S i + k)%nat with (i + k + 1)%nat by lia. rewrite Hn2 by lia. lia.
Qed.
End shl.

Lemma uval_shl W a shift : uwf W a -> 0 <= shift ->
  uwf W (Uint.shl a shift) /\ uval (Uint.shl a shift) = (uval a * 2 ^ shift) mod modulus W.
Proof.
  intros Ha Hs. assert (Hla : length a = W) by apply Ha.
  assert (Hinv : shl_inv W a shift W (Uint.shl a shift)).
  { unfold Uint.shl. rewrite Hla. apply (for_loop_inv (shl_inv W a shift)).
    - unfold shl_inv. rewrite take_0. change (uval []) with 0. rewrite Z.mul_0_l, Zmod_0_l.
      split; [apply uwf_zero|]. split; [apply uval_replicate_0|].
      split; [intros; apply lookup_zero|]. rewrite lookup_zero. split; [lia|].
      apply Z.pow_pos_nonneg; [lia|]. apply Z.mod_pos_bound. lia.
    - intros i pn Hi. by apply shl_step. }
  destruct Hinv as (H1 & H2 & _). rewrite take_ge in H2 by lia. done.
Qed.

(** [or_limb_spec] for a limb that exists and a sum that fits *)
Lemma or_limb_in W pn j x n v : uwf W pn -> (j < W)%nat -> 0 <= n -> 0 <= pn !!! j < 2 ^ n ->
  is_u32 (x * 2 ^ n) -> v = uval pn + x * 2 ^ n * 2 ^ (32 * Z.of_nat j) -> 0 <= v < modulus W ->
  let pn' := <[j := Z.lor (pn !!! j) (x * 2 ^ n)]> pn in
  uwf W pn' /\ uval pn' = v /\
  (forall i, i <> j -> pn' !!! i = pn !!! i) /\ 0 <= pn' !!! j <= pn !!! j + x * 2 ^ n.
Proof.
  intros Hp Hj Hn Hb Hx -> Hr. pose proof (or_limb_spec W pn j x n Hp Hn Hb Hx) as H.
  apply Nat.ltb_lt in Hj. rewrite Hj in H. cbv zeta in *. by rewrite Z.mod_small in H.
Qed.

Lemma uval_take_range W a i : uwf W a -> (i <= W)%nat -> 0 <= uval (take i a) < modulus i.
Proof.
  intros [Hl Ha] Hi. apply uval_range. split; [rewrite length_take; lia|]. by apply Forall_take.
Qed.

Lemma modulus_mono m n : (m <= n)%nat -> modulus m <= modulus n.
Proof. intros H. apply Z.pow_le_mono_r; lia. Qed.

Section shr.
Context (W : nat) (a : base_uint) (shift : Z) (Ha : uwf W a) (Hs : 0 <= shift).
Let k := Z.to_nat (shift / 32).
Let sh := shift mod 32.

Definition shr_inv (i : nat) (pn : base_uint) : Prop :=
  uwf W pn /\ uval pn = uval (take i a) / 2 ^ shift /\
  (forall j, (i <= j + k)%nat -> pn !!! j = 0) /\
  ((k + 1 <= i)%nat -> 0 <= pn !!! (i - k - 1)%nat < 2 ^ (32 - sh)).

(** what processing limb [i] adds to the quotient *)
Lemma shr_take_S i : (i < W)%nat ->
  uval (take (S i) a) / 2 ^ shift = uval (take i a) / 2 ^ shift +
    (if (k <=? i)%nat then Z.shiftr (a !!! i) sh * 2 ^ (32 * Z.of_nat (i - k)) else 0) +
    (if (k + 1 <=? i)%nat then (a !!! i mod 2 ^ sh) * 2 ^ (32 - sh) * 2 ^ (32 * Z.of_nat (i - k - 1)) else 0).
Proof.
  intros Hi. destruct (shift_split shift Hs) as [Hsh Hshift]. fold k sh in Hsh, Hshift.
  pose proof (uval_take_range W a i Ha ltac:(lia)) as Hr. unfold modulus in Hr.
  pose proof (uwf_lookup W a i Ha) as Hai. unfold is_u32 in Hai. assert (Hla : length a = W) by apply Ha.
  assert (0 < 2 ^ sh) by (apply Z.pow_pos_nonneg; lia). assert (0 < 2 ^ shift) by (apply Z.pow_pos_nonneg; lia).
  rewrite uval_take_S, Z.shiftr_div_pow2 by lia.
  destruct (Nat.leb_spec (k + 1) i); [|destruct (Nat.leb_spec k i)].
  - rewrite (proj2 (Nat.leb_le k i)) by lia.
    replace (2 ^ (32 * Z.of_nat i)) with (2 ^ (32 - sh) * 2 ^ (32 * Z.of_nat (i - k - 1)) * 2 ^ shift)
      by (rewrite <- !Z.pow_add_r by lia; f_equal; lia).
    replace (2 ^ (32 * Z.of_nat (i - k))) with (2 ^ sh * (2 ^ (32 - sh) * 2 ^ (32 * Z.of_nat (i - k - 1))))
      by (rewrite <- !Z.pow_add_r by lia; f_equal; lia).
    rewrite Z.mul_assoc, Z.div_add by lia.
    pose proof (Z.div_mod (a !!! i) (2 ^ sh) ltac:(lia)) as E. rewrite E at 1. lia.
  - assert (i = k) as -> by lia. replace (k - k)%nat with 0%nat by lia.
    rewrite (Z.div_small (uval (take k a))) by
      (split; [lia|]; apply Z.lt_le_trans with (1 := proj2 Hr); apply Z.pow_le_mono_r; lia).
    rewrite Hshift at 1. rewrite Z.pow_add_r, <- Z.div_div by lia.
    rewrite Z.div_add, (Z.div_small (uval _)) by lia. rewrite Z.add_0_l, Z.mul_0_r, Z.pow_0_r. lia.
  - rewrite !Z.div_small; [lia| |]; (split; [lia|]).
    + apply Z.lt_le_trans with (1 := proj2 Hr). apply Z.pow_le_mono_r; lia.
    + apply Z.lt_le_trans with (2 ^ (32 * Z.of_nat (S i))); [|apply Z.pow_le_mono_r; lia].
      pose proof (uval_take_range W a (S i) Ha ltac:(lia)) as Hr2. rewrite uval_take_S in Hr2 by lia. apply Hr2.
Qed.

Lemma shr_bound i : (i < W)%nat -> 0 <= uval (take (S i) a) / 2 ^ shift < modulus W.
Proof.
  intros Hi. pose proof (uval_take_range W a (S i) Ha ltac:(lia)) as Hr.
  pose proof (modulus_mono (S i) W ltac:(lia)).
  assert (0 < 2 ^ shift) by (apply Z.pow_pos_nonneg; lia).
  split; [apply Z.div_pos; lia|]. apply Z.div_lt_upper_bound; nia.
Qed.

Lemma shr_lo_range i : 0 <= Z.shiftr (a !!! i) sh < 2 ^ (32 - sh).
Proof.
  destruct (shift_split shift Hs) as [Hsh _]. fold sh in Hsh.
  pose proof (uwf_lookup W a i Ha) as Hai. unfold is_u32 in Hai.
  rewrite Z.shiftr_div_pow2 by lia. assert (0 < 2 ^ sh) by (apply Z.pow_pos_nonneg; lia).
  split; [apply Z.div_pos; lia|]. apply Z.div_lt_upper_bound; [lia|].
  rewrite <- Z.pow_add_r by lia. replace (sh + (32 - sh)) with 32 by lia. lia.
Qed.

(** the first update of the body: the bits that fall into the limb below *)
Lemma shr_hi i pn : (i < W)%nat -> shr_inv i pn ->
  let pn1 := if ((k + 1 <=? i)%nat && negb (sh =? 0))
            then <[(i - k - 1)%nat := Z.lor (pn !!! (i - k - 1)%nat) (u32 (Z.shiftl (a !!! i) (32 - sh)))]> pn
            else pn in
  uwf W pn1 /\ uval pn1 = uval pn +
    (if (k + 1 <=? i)%nat then (a !!! i mod 2 ^ sh) * 2 ^ (32 - sh) * 2 ^ (32 * Z.of_nat (i - k - 1)) else 0) /\
  (forall j, (i <= j + k)%nat -> pn1 !!! j = 0).
Proof.
  intros Hi (Hwf & Hv & Hz & Hb). destruct (shift_split shift Hs) as [Hsh _]. fold sh in Hsh.
  pose proof (shr_take_S i Hi) as E. pose proof (shr_bound i Hi) as Hbd. pose proof (shr_lo_range i) as Hx.
  pose proof (uwf_lookup W a i Ha) as Hai. cbv zeta.
  destruct (Nat.leb_spec (k + 1) i) as [Hki|]; simpl; [|rewrite Z.add_0_r; auto].
  rewrite (proj2 (Nat.leb_le k i)) in E by lia.
  destruct (Z.eqb_spec sh 0) as [E0|E0]; simpl.
  - rewrite E0, Z.pow_0_r, Z.mod_1_r. split; [done|]. split; [lia|done].
  - destruct (split_shl (a !!! i) (32 - sh) Hai ltac:(lia)) as (_ & _ & El).
    replace (32 - (32 - sh)) with sh in El by lia.
    assert (is_u32 (a !!! i mod 2 ^ sh * 2 ^ (32 - sh))) as Hu by (rewrite <- El; apply u32_range).
    rewrite El. assert (0 < 2 ^ (32 * Z.of_nat (i - k))) by (apply Z.pow_pos_nonneg; lia).
    assert (0 < 2 ^ (32 * Z.of_nat (i - k - 1))) by (apply Z.pow_pos_nonneg; lia).
    pose proof (uval_range W pn Hwf) as Hr. unfold is_u32 in Hu.
    pose proof (Z.mul_nonneg_nonneg _ (2 ^ (32 * Z.of_nat (i - k))) (proj1 Hx) ltac:(lia)).
    pose proof (Z.mul_nonneg_nonneg _ (2 ^ (32 * Z.of_nat (i - k - 1))) (proj1 Hu) ltac:(lia)).
    destruct (or_limb_in W pn (i - k - 1) (a !!! i mod 2 ^ sh) (32 - sh)
      (uval pn + a !!! i mod 2 ^ sh * 2 ^ (32 - sh) * 2 ^ (32 * Z.of_nat (i - k - 1))) Hwf) as (A & B & C & _);
      [lia|lia|auto|done|reflexivity|lia|].
    split; [done|]. split; [by rewrite B|]. intros j Hj. rewrite C by lia. apply Hz. lia.
Qed.

Lemma shr_step i pn : (i < W)%nat -> shr_inv i pn ->
  shr_inv (S i)
    (let pn := if ((k + 1 <=? i)%nat && negb (sh =? 0))
            then <[(i - k - 1)%nat := Z.lor (pn !!! (i - k - 1)%nat) (u32 (Z.shiftl (a !!! i) (32 - sh)))]> pn
            else pn in
    if (k <=? i)%nat
    then <[(i - k)%nat := Z.lor (pn !!! (i - k)%nat) (Z.shiftr (a !!! i) sh)]> pn
    else pn).
Proof.
  intros Hi Hinv. pose proof (shr_hi i pn Hi Hinv) as H1. destruct Hinv as (_ & Hv & _ & _).
  destruct (shift_split shift Hs) as [Hsh _]. fold sh in Hsh.
  pose proof (shr_take_S i Hi) as E. pose proof (shr_bound i Hi) as Hbd. pose proof (shr_lo_range i) as Hx.
  cbv zeta in *. set (pn1 := if _ && _ then _ else pn) in *. clearbody pn1. destruct H1 as (Hwf1 & Hv1 & Hz1).
  rewrite Hv in Hv1. assert (2 ^ (32 - sh) <= 2 ^ 32) by (apply Z.pow_le_mono_r; lia).
  destruct (Nat.leb_spec k i) as [Hki|Hki].
  - destruct (or_limb_in W pn1 (i - k) (Z.shiftr (a !!! i) sh) 0 (uval (take (S i) a) / 2 ^ shift) Hwf1) as (A & B & C & D);
      rewrite ?Z.pow_0_r, ?Z.mul_1_r in *; [lia|lia|rewrite Hz1; lia|unfold is_u32; lia|lia|done|].
    pose proof (Hz1 (i - k)%nat ltac:(lia)). split; [done|]. split; [done|]. split.
    + intros j Hj. rewrite C by lia. apply Hz1. lia.
    + intros _. replace (S i - k - 1)%nat with (i - k)%nat by lia. lia.
  - split; [done|]. split; [lia|]. split; [intros j Hj; apply Hz1; lia | lia].
Qed.
End shr.

Lemma uval_shr W a shift : uwf W a -> 0 <= shift ->
  uwf W (Uint.shr a shift) /\ uval (Uint.shr a shift) = uval a / 2 ^ shift.
Proof.
  intros Ha Hs. assert (Hla : length a = W) by apply Ha.
  assert (Hinv : shr_inv W a shift W (Uint.shr a shift)).
  { unfold Uint.shr. rewrite Hla. apply (for_loop_inv (shr_inv W a shift)).
    - unfold shr_inv. rewrite take_0. change (uval []) with 0. rewrite Zdiv_0_l.
      split; [apply uwf_zero|]. split; [apply uval_replicate_0|]. split; [intros; apply lookup_zero | lia].
    - intros i pn Hi. by apply shr_step. }
  destruct Hinv as (H1 & H2 & _). rewrite take_ge in H2 by lia. done.
Qed.

(** *** Multiplication *)

Lemma uval_split W b i : uwf W b -> (i <= W)%nat ->
  exists q, uval b = uval (take i b) + modulus i * q.
Proof.
  intros [Hl _] Hi. exists (uval (drop i b)).
  rewrite <- (take_drop i b) at 1. rewrite uval_app, length_take_le by lia. done.
Qed.

Section mul_row.
Context (W : nat) (aj : Z) (b pn : base_uint) (j : nat).
Context (Haj : is_u32 aj) (Hb : uwf W b) (Hpn : uwf W pn) (Hj : (j <= W)%nat).

Definition row_inv (i : nat) (st : base_uint * Z) : Prop :=
  uwf W st.1 /\ is_u32 st.2 /\
  uval st.1 + st.2 * 2 ^ (32 * Z.of_nat (i + j)) = uval pn + aj * uval (take i b) * 2 ^ (32 * Z.of_nat j).

Lemma row_step i st : (i < W - j)%nat -> row_inv i st ->
  row_inv (S i) (let '(pn, carry) := st in
    let n := u64 (carry + pn !!! (i + j)%nat + aj * (b !!! i)) in
    (<[(i + j)%nat := Z.land n 0xffffffff]> pn, Z.shiftr n 32)).
Proof.
  destruct st as [p carry]. intros Hi (Hwf & Hc & Hv); simpl in Hwf, Hc, Hv.
  pose proof (uwf_lookup W p (i + j) Hwf) as Hp. pose proof (uwf_lookup W b i Hb) as Hbi.
  assert (Hlp : length p = W) by apply Hwf. assert (Hlb : length b = W) by apply Hb.
  unfold is_u32 in *. set (n := u64 _).
  assert (En : n = carry + p !!! (i + j)%nat + aj * b !!! i) by (apply u64_small; unfold is_u64; nia).
  destruct (carry_step n ltac:(rewrite En; nia)) as [Ec Hl]. split; [|split]; simpl.
  - by apply uwf_insert.
  - rewrite Z.shiftr_div_pow2 by lia. unfold is_u32.
    split; [apply Z.div_pos; nia|]. apply Z.div_lt_upper_bound; nia.
  - rewrite uval_insert by lia. rewrite uval_take_S by lia.
    replace (2 ^ (32 * Z.of_nat (S (i + j)))) with (2 ^ 32 * 2 ^ (32 * Z.of_nat (i + j)))
      by (rewrite <- Z.pow_add_r by lia; f_equal; lia).
    assert (Ep : 2 ^ (32 * Z.of_nat (i + j)) = 2 ^ (32 * Z.of_nat i) * 2 ^ (32 * Z.of_nat j))
      by (rewrite <- Z.pow_add_r by lia; f_equal; lia).
    assert (Hsum : uval pn + aj * (uval (take i b) + b !!! i * 2 ^ (32 * Z.of_nat i)) * 2 ^ (32 * Z.of_nat j)
      = uval p + (carry + aj * b !!! i) * 2 ^ (32 * Z.of_nat (i + j))) by (rewrite Ep in *; lia).
    rewrite Hsum. replace (Z.land n 4294967295) with (n - 2 ^ 32 * Z.shiftr n 32) by lia.
    rewrite En at 1. lia.
Qed.

Lemma uval_mul_row : uwf W (Uint.mul_row aj b j pn) /\
  uval (Uint.mul_row aj b j pn) = (uval pn + aj * uval b * 2 ^ (32 * Z.of_nat j)) mod modulus W.
Proof.
  assert (Hlp : length pn = W) by apply Hpn. unfold Uint.mul_row. rewrite Hlp.
  match goal with |- context [for_from 0 _ ?f ?s] =>
    assert (Hinv : row_inv (W - j) (for_loop (W - j) f s)) end.
  { apply (for_loop_inv row_inv).
    - unfold row_inv. simpl. split; [done|]. split; [unfold is_u32; lia|]. lia.
    - intros i st Hi. apply row_step. done. }
  destruct Hinv as (Hwf & Hc & Hv). split; [done|].
  destruct (uval_split W b (W - j) Hb ltac:(lia)) as [q Hq].
  replace (W - j + j)%nat with W in Hv by lia.
  assert (Hm : modulus (W - j) * 2 ^ (32 * Z.of_nat j) = modulus W)
    by (unfold modulus; rewrite <- Z.pow_add_r by lia; f_equal; lia).
  rewrite Hq. fold (modulus W) in Hv.
  replace (uval pn + aj * (uval (take (W - j) b) + modulus (W - j) * q) * 2 ^ (32 * Z.of_nat j))
    with (uval pn + aj * uval (take (W - j) b) * 2 ^ (32 * Z.of_nat j) + (aj * q) * modulus W) by lia.
  rewrite Z.mod_add, <- Hv, Z.mod_add by (pose proof (modulus_pos W); lia).
  symmetry. apply Z.mod_small. by apply uval_range.
Qed.
End mul_row.

Lemma uval_mul W a b : uwf W a -> uwf W b ->
  uwf W (Uint.mul a b) /\ uval (Uint.mul a b) = (uval a * uval b) mod modulus W.
Proof.
  intros Ha Hb. assert (Hla : length a = W) by apply Ha. unfold Uint.mul. rewrite Hla.
  pose (I := fun (j : nat) pn => uwf W pn /\ uval pn = (uval (take j a) * uval b) mod modulus W).
  assert (Hinv : I W (for_loop W (fun j pn => Uint.mul_row (a !!! j) b j pn) (Uint.zero W))).
  { apply (for_loop_inv I).
    - split; [apply uwf_zero|]. rewrite take_0. simpl uval. rewrite Z.mul_0_l, Zmod_0_l. apply uval_replicate_0.
    - intros j pn Hj [Hwf Hv].
      destruct (uval_mul_row W (a !!! j) b pn j (uwf_lookup W a j Ha) Hb Hwf ltac:(lia)) as [H1 H2].
      split; [done|]. rewrite H2, Hv, Z.add_mod_idemp_l by (pose proof (modulus_pos W); lia).
      rewrite uval_take_S by lia. f_equal. lia. }
  destruct Hinv as [H1 H2]. rewrite take_ge in H2 by lia. done.
Qed.

(** *** Comparison *)

Lemma compare_from_spec W a b i : uwf W a -> uwf W b -> (i <= W)%nat ->
  Uint.compare_from i a b =
  match Z.compare (uval (take i a)) (uval (take i b)) with Lt => -1 | Eq => 0 | Gt => 1 end.
Proof.
  intros Ha Hb. assert (Hla : length a = W) by apply Ha. assert (Hlb : length b = W) by apply Hb.
  induction i as [|i IH]; intros Hi; [done|]. cbn [Uint.compare_from].
  rewrite !uval_take_S by lia.
  pose proof (uval_take_range W a i Ha ltac:(lia)) as Ra. pose proof (uval_take_range W b i Hb ltac:(lia)) as Rb.
  unfold modulus in Ra, Rb. rewrite Z.gtb_ltb.
  destruct (Z.ltb_spec (a !!! i) (b !!! i)); [|destruct (Z.ltb_spec (b !!! i) (a !!! i))].
  - rewrite (proj2 (Z.compare_lt_iff _ _)) by nia. done.
  - rewrite (proj2 (Z.compare_gt_iff _ _)) by nia. done.
  - rewrite IH by lia. replace (b !!! i) with (a !!! i) by lia.
    by rewrite !(Z.add_comm _ (a !!! i * _)), Z.add_compare_mono_l.
Qed.

Lemma CompareTo_spec W a b : uwf W a -> uwf W b ->
  Uint.CompareTo a b = match Z.compare (uval a) (uval b) with Lt => -1 | Eq => 0 | Gt => 1 end.
Proof.
  intros Ha Hb. unfold Uint.CompareTo. rewrite (proj1 Ha), (compare_from_spec W) by done.
  rewrite !take_ge by (rewrite ?(proj1 Ha), ?(proj1 Hb); lia). done.
Qed.

Lemma CompareTo_ge W a b : uwf W a -> uwf W b -> (Uint.CompareTo a b >=? 0) = (uval b <=? uval a).
Proof.
  intros Ha Hb. rewrite (CompareTo_spec W) by done. unfold Z.leb. rewrite (Z.compare_antisym (uval a)).
  by destruct (uval a ?= uval b).
Qed.

Lemma CompareTo_gt W a b : uwf W a -> uwf W b -> (Uint.CompareTo a b >? 0) = (uval b <? uval a).
Proof.
  intros Ha Hb. rewrite (CompareTo_spec W) by done. unfold Z.ltb. rewrite (Z.compare_antisym (uval a)).
  by destruct (uval a ?= uval b).
Qed.

Lemma uval_limb W a j : uwf W a -> a !!! j = (uval a / 2 ^ (32 * Z.of_nat j)) mod 2 ^ 32.
Proof.
  intros Ha. revert j. induction Ha as [|W x a Hx Ha IH] using uwf_ind; intros j.
  - simpl uval. rewrite Zdiv_0_l. done.
  - unfold is_u32 in Hx. destruct j as [|j].
    + simpl uval. rewrite Z.mul_0_r, Z.pow_0_r, Z.div_1_r, Z.mul_comm, Z.mod_add, Z.mod_small by lia. done.
    + change ((x :: a) !!! S j) with (a !!! j). rewrite IH. cbn [uval].
      replace (32 * Z.of_nat (S j)) with (32 + 32 * Z.of_nat j) by lia.
      rewrite Z.pow_add_r by lia. rewrite <- (Z.div_div _ (2 ^ 32)) by lia.
      rewrite (Z.mul_comm (2 ^ 32)), Z.div_add, (Z.div_small x), Z.add_0_l by lia. done.
Qed.

Lemma EqualTo_spec W a b : (2 <= W)%nat -> uwf W a -> is_u64 b -> Uint.EqualTo a b = (uval a =? b).
Proof.
  intros HW Ha Hb. unfold is_u64 in Hb.
  assert (Hhi : forall i, (2 <= i <= W)%nat ->
    Uint.high_limbs_zero i a = (uval (take i a) =? uval (take 2 a))).
  { induction i as [|i IH]; intros Hi; [lia|]. destruct i as [|[|i]]; [lia|by rewrite Z.eqb_refl|].
    assert (Hla : length a = W) by apply Ha. pose proof (uwf_lookup W a (S (S i)) Ha) as Hl. unfold is_u32 in Hl.
    change (Uint.high_limbs_zero (S (S (S i))) a) with
      (if negb (a !!! S (S i) =? 0) then false else Uint.high_limbs_zero (S (S i)) a).
    rewrite uval_take_S by lia.
    destruct (Z.eqb_spec (a !!! S (S i)) 0) as [E|E]; simpl negb; cbv iota.
    - rewrite IH, E by lia. f_equal. lia.
    - symmetry. apply Z.eqb_neq.
      pose proof (uval_take_range W a (S (S i)) Ha ltac:(lia)).
      pose proof (uval_take_range W a 2 Ha ltac:(lia)). pose proof (modulus_mono 2 (S (S i)) ltac:(lia)).
      fold (modulus (S (S i))). nia. }
  unfold Uint.EqualTo. rewrite (proj1 Ha), Hhi by lia. rewrite take_ge by (rewrite (proj1 Ha); lia).
  assert (Hla : length a = W) by apply Ha.
  pose proof (uwf_lookup W a 0 Ha) as H0. pose proof (uwf_lookup W a 1 Ha) as H1. unfold is_u32 in H0, H1.
  rewrite !uval_take_S, take_0 by lia. change (uval []) with 0.
  rewrite land_ffffffff, Z.shiftr_div_pow2 by lia. pose proof (Z.div_mod b (2 ^ 32) ltac:(lia)).
  pose proof (Z.mod_pos_bound b (2 ^ 32) ltac:(lia)).
  change (2 ^ (32 * Z.of_nat 0)) with 1. change (2 ^ (32 * Z.of_nat 1)) with (2 ^ 32).
  destruct (uval_split W a 2 Ha ltac:(lia)) as [q Hq]. rewrite !uval_take_S, take_0 in Hq by lia.
  change (uval []) with 0 in Hq. change (2 ^ (32 * Z.of_nat 0)) with 1 in Hq.
  change (2 ^ (32 * Z.of_nat 1)) with (2 ^ 32) in Hq. change (modulus 2) with (2 ^ 64) in Hq.
  pose proof (uval_range W a Ha). case_ifs; bool_to_prop; symmetry; try (apply Z.eqb_neq; nia). apply Z.eqb_eq. lia.
Qed.

Lemma GetLow64_spec W a : (2 <= W)%nat -> uwf W a -> Uint.GetLow64 a = uval a mod 2 ^ 64.
Proof.
  intros HW Ha. unfold Uint.GetLow64. assert (Hla : length a = W) by apply Ha.
  pose proof (uwf_lookup W a 0 Ha) as H0. pose proof (uwf_lookup W a 1 Ha) as H1. unfold is_u32 in H0, H1.
  rewrite Z.shiftl_mul_pow2, u64_small by (unfold is_u64; lia). rewrite lor_disjoint_add by lia.
  destruct (uval_split W a 2 Ha ltac:(lia)) as [q Hq]. rewrite !uval_take_S, take_0 in Hq by lia.
  change (uval []) with 0 in Hq. change (2 ^ (32 * Z.of_nat 0)) with 1 in Hq.
  change (2 ^ (32 * Z.of_nat 1)) with (2 ^ 32) in Hq. change (modulus 2) with (2 ^ 64) in Hq.
  rewrite Hq, (Z.mul_comm (2 ^ 64)), Z.mod_add, Z.mod_small by lia. lia.
Qed.

(** *** Position of the highest bit *)

Lemma land_bit_zero x n : 0 <= n -> (Z.land x (Z.shiftl 1 n) =? 0) = negb (Z.testbit x n).
Proof.
  intros Hn. destruct (Z.testbit x n) eqn:E; simpl.
  - apply Z.eqb_neq. intros H. apply (f_equal (fun z => Z.testbit z n)) in H.
    rewrite Z.land_spec, E, Z.shiftl_spec, Z.sub_diag, Z.bits_0 in H by lia. done.
  - apply Z.eqb_eq. apply Z.bits_inj'. intros j Hj.
    rewrite Z.land_spec, Z.bits_0, Z.shiftl_1_l, Z.pow2_bits_eqb by lia.
    destruct (Z.eqb_spec n j); [subst; by rewrite E | apply andb_false_r].
Qed.

Lemma limb_bits_spec n x : 0 < x < 2 ^ (Z.of_nat n + 1) -> Uint.limb_bits n x = Z.log2 x + 1.
Proof.
  induction n as [|n IH]; intros Hx.
  - assert (x = 1) as -> by (simpl in Hx; lia). done.
  - cbn [Uint.limb_bits]. rewrite land_bit_zero, negb_involutive by lia.
    destruct (Z.lt_ge_cases x (2 ^ Z.of_nat (S n))) as [Hlt|Hge].
    + rewrite <- (Z.mod_small x (2 ^ Z.of_nat (S n))) at 1 by lia.
      rewrite Z.mod_pow2_bits_high by lia. apply IH. split; [lia|].
      replace (Z.of_nat n + 1) with (Z.of_nat (S n)) by lia. done.
    + assert (El : Z.log2 x = Z.of_nat (S n)).
      { apply Z.log2_unique; [lia|]. unfold Z.succ. lia. }
      rewrite <- El at 1. rewrite Z.bit_log2 by lia. lia.
Qed.

Lemma bits_spec W a : uwf W a -> Uint.bits a = if uval a =? 0 then 0 else Z.log2 (uval a) + 1.
Proof.
  intros Ha. assert (Hla : length a = W) by apply Ha.
  assert (H : forall i, (i <= W)%nat -> Uint.bits_from i a =
    if uval (take i a) =? 0 then 0 else Z.log2 (uval (take i a)) + 1).
  { induction i as [|i IH]; intros Hi; [done|]. cbn [Uint.bits_from]. rewrite uval_take_S by lia.
    pose proof (uwf_lookup W a i Ha) as Hl. unfold is_u32 in Hl.
    pose proof (uval_take_range W a i Ha ltac:(lia)) as Hr. unfold modulus in Hr.
    destruct (Z.eqb_spec (a !!! i) 0) as [E|E]; simpl negb; cbv iota.
    - rewrite IH, E, Z.mul_0_l, Z.add_0_r by lia. done.
    - rewrite limb_bits_spec by (change (Z.of_nat 31 + 1) with 32; lia).
      rewrite (proj2 (Z.eqb_neq _ _)) by nia.
      enough (Z.log2 (uval (take i a) + a !!! i * 2 ^ (32 * Z.of_nat i)) = Z.log2 (a !!! i) + 32 * Z.of_nat i) by lia.
      assert (Hpos : 0 < a !!! i) by lia. pose proof (Z.log2_spec _ Hpos) as Hs. pose proof (Z.log2_nonneg (a !!! i)).
      apply Z.log2_unique; [lia|]. unfold Z.succ in *. rewrite !Z.pow_add_r in * by lia. nia. }
  unfold Uint.bits. rewrite H, take_ge by lia. done.
Qed.

(** *** Division *)

(** setting bit [p] of a number whose bits up to [p] are clear adds [2^p] *)
Lemma set_bit_spec W q p c : uwf W q -> (p < 32 * W)%nat -> uval q = c * 2 ^ (Z.of_nat p + 1) ->
  let q' := <[(p / 32)%nat := Z.lor (q !!! (p / 32)%nat) (Z.shiftl 1 (Z.of_nat p mod 32))]> q in
  uwf W q' /\ uval q' = uval q + 2 ^ Z.of_nat p.
Proof.
  intros Hq Hp Hc q'. set (j := (p / 32)%nat). set (r := Z.of_nat p mod 32).
  assert (Hpj : Z.of_nat p = 32 * Z.of_nat j + r /\ 0 <= r < 32).
  { subst j r. pose proof (Z.div_mod (Z.of_nat p) 32 ltac:(lia)).
    pose proof (Z.mod_pos_bound (Z.of_nat p) 32 ltac:(lia)). rewrite Nat2Z.inj_div. lia. }
  destruct Hpj as [Ep Hr]. assert (Hjw : (j < W)%nat) by lia.
  assert (0 < 2 ^ r) by (apply Z.pow_pos_nonneg; lia).
  assert (Elimb : q !!! j = (c mod 2 ^ (31 - r)) * 2 ^ (r + 1)).
  { rewrite (uval_limb W q j Hq), Hc, Ep.
    replace (c * 2 ^ (32 * Z.of_nat j + r + 1)) with (c * 2 ^ (r + 1) * 2 ^ (32 * Z.of_nat j))
      by (rewrite <- Z.mul_assoc, <- Z.pow_add_r by lia; do 2 f_equal; lia).
    rewrite Z.div_mul by (apply Z.pow_nonzero; lia).
    replace (2 ^ 32) with (2 ^ (31 - r) * 2 ^ (r + 1)) by (rewrite <- Z.pow_add_r by lia; f_equal; lia).
    rewrite Z.mul_mod_distr_r by (apply Z.pow_nonzero; lia). done. }
  assert (Elor : Z.lor (q !!! j) (Z.shiftl 1 r) = q !!! j + 2 ^ r).
  { rewrite Z.lor_comm, Elimb, Z.shiftl_1_l, lor_disjoint_add; [lia|lia|].
    rewrite Z.pow_add_r by lia. lia. }
  assert (Hu : is_u32 (Z.shiftl 1 r)).
  { rewrite Z.shiftl_1_l. unfold is_u32. split; [lia|]. apply Z.pow_lt_mono_r; lia. }
  subst q'. fold j r. split.
  - apply uwf_insert; [done|]. apply is_u32_lor; [by apply (uwf_lookup W)|done].
  - rewrite uval_insert by (rewrite (proj1 Hq); lia). rewrite Elor, Ep, Z.pow_add_r by lia. lia.
Qed.

(** the loop invariant: [num0 = quo * D + num] with [num] below the divisor's
    next position, and the quotient bits still to come clear *)
Lemma div_loop_spec W D N n : forall num dv quo,
  uwf W num -> uwf W dv -> uwf W quo -> 0 < D -> (n <= 32 * W)%nat ->
  (n = 0%nat \/ uval dv = D * 2 ^ (Z.of_nat n - 1)) ->
  uval num < D * 2 ^ Z.of_nat n ->
  (exists c, uval quo = c * 2 ^ Z.of_nat n) ->
  N = uval quo * D + uval num ->
  let '(q, r) := Uint.div_loop n num dv quo in
  uwf W q /\ uwf W r /\ uval q = N / D /\ uval r = N mod D.
Proof.
  induction n as [|n IH]; intros num dv quo Hnum Hdv Hquo HD Hn Hd Hlt [c Hc] HN.
  - simpl. rewrite Z.pow_0_r, Z.mul_1_r in Hlt. pose proof (uval_range W num Hnum).
    split; [done|]. split; [done|]. split.
    + apply (Z.div_unique _ _ _ (uval num)); lia.
    + apply (Z.mod_unique _ _ (uval quo)); lia.
  - destruct Hd as [Hd|Hd]; [done|]. replace (Z.of_nat (S n) - 1) with (Z.of_nat n) in Hd by lia.
    assert (Ep : 2 ^ Z.of_nat (S n) = 2 * 2 ^ Z.of_nat n) by (rewrite <- Z.pow_succ_r by lia; f_equal; lia).
    assert (0 < 2 ^ Z.of_nat n) by (apply Z.pow_pos_nonneg; lia).
    pose proof (uval_range W num Hnum) as Rn.
    destruct (uval_shr W dv 1 Hdv ltac:(lia)) as [Hdv' Ed'].
    assert (Hd' : n = 0%nat \/ uval (Uint.shr dv 1) = D * 2 ^ (Z.of_nat n - 1)).
    { destruct n as [|n]; [by left|right]. rewrite Ed', Hd.
      replace (Z.of_nat (S n)) with (Z.of_nat (S n) - 1 + 1) at 1 by lia.
      rewrite Z.pow_add_r, Z.mul_assoc by lia. apply Z.div_mul. lia. }
    cbn [Uint.div_loop]. rewrite (CompareTo_ge W) by done.
    destruct (Z.leb_spec (uval dv) (uval num)) as [Hge|Hge].
    + destruct (uval_sub W num dv Hnum Hdv) as [Hs Es].
      rewrite Z.mod_small in Es by (pose proof (uval_range W dv Hdv); lia).
      destruct (set_bit_spec W quo n c Hquo ltac:(lia)) as [Hq' Eq'].
      { rewrite Hc. do 2 f_equal. lia. }
      apply IH; try done; try lia.
      exists (2 * c + 1). rewrite Eq', Hc. lia.
    + apply IH; try done; try lia. exists (2 * c). lia.
Qed.

Lemma uval_div W a b : uwf W a -> uwf W b ->
  match Uint.div a b with
  | None => uval b = 0
  | Some q => uval b <> 0 /\ uwf W q /\ uval q = uval a / uval b
  end.
Proof.
  intros Ha Hb. unfold Uint.div. rewrite !(bits_spec W) by done.
  pose proof (uval_range W a Ha) as Ra. pose proof (uval_range W b Hb) as Rb.
  destruct (Z.eqb_spec (uval b) 0) as [Eb|Eb]; [done|].
  assert (Hpb : 0 < uval b) by lia. pose proof (Z.log2_spec (uval b) Hpb) as Lb.
  pose proof (Z.log2_nonneg (uval b)). rewrite (proj2 (Z.eqb_neq (Z.log2 (uval b) + 1) 0)) by lia.
  rewrite Z.gtb_ltb. unfold Z.succ in Lb. rewrite (proj1 Ha).
  destruct (Z.ltb_spec (if uval a =? 0 then 0 else Z.log2 (uval a) + 1) (Z.log2 (uval b) + 1)) as [Hlt|Hge].
  - split; [done|]. split; [apply uwf_zero|]. unfold Uint.zero. rewrite uval_replicate_0, Z.div_small; [done|].
    destruct (Z.eqb_spec (uval a) 0); [lia|]. split; [lia|].
    apply Z.log2_lt_cancel. lia.
  - destruct (Z.eqb_spec (uval a) 0); [lia|]. assert (Hpa : 0 < uval a) by lia.
    pose proof (Z.log2_spec (uval a) Hpa) as La. unfold Z.succ in La.
    assert (Hla : Z.log2 (uval a) < 32 * Z.of_nat W) by (apply Z.log2_lt_pow2; [lia | apply Ra]).
    set (s := Z.log2 (uval a) + 1 - (Z.log2 (uval b) + 1)).
    assert (Ep : 2 ^ (Z.log2 (uval a) + 1) = 2 ^ (Z.log2 (uval b) + 1) * 2 ^ s)
      by (rewrite <- Z.pow_add_r by lia; f_equal; lia).
    assert (Hps : 0 < 2 ^ s) by (apply Z.pow_pos_nonneg; lia).
    assert (Hm : 2 ^ (Z.log2 (uval a) + 1) <= modulus W) by (apply Z.pow_le_mono_r; lia).
    destruct (uval_shl W b s Hb ltac:(lia)) as [Hs Es]. rewrite Z.mod_small in Es by nia.
    pose proof (div_loop_spec W (uval b) (uval a) (S (Z.to_nat s)) a (Uint.shl b s) (Uint.zero W)) as Hdl.
    destruct (Uint.div_loop _ _ _ _) as [q r].
    assert (Esn : Z.of_nat (S (Z.to_nat s)) = s + 1) by lia. rewrite Esn in Hdl.
    destruct Hdl as (Hq & _ & Eq & _); auto using uwf_zero.
    + lia.
    + right. rewrite Es. do 2 f_equal. lia.
    + rewrite (Z.pow_add_r 2 s 1), Z.pow_1_r by lia.
      rewrite (Z.pow_add_r 2 (Z.log2 (uval b)) 1), Z.pow_1_r in Ep by lia. nia.
    + exists 0. apply uval_replicate_0.
    + unfold Uint.zero. rewrite uval_replicate_0. lia.
Qed.

Lemma uval_add_u64 W a b : (2 <= W)%nat -> uwf W a -> is_u64 b ->
  uwf W (Uint.add_u64 a b) /\ uval (Uint.add_u64 a b) = (uval a + b) mod modulus W.
Proof.
  intros HW Ha Hb. unfold Uint.add_u64. rewrite (proj1 Ha).
  destruct (uval_of_u64 W b HW Hb) as [H1 H2]. destruct (uval_add W a _ Ha H1) as [H3 H4].
  by rewrite H4, H2.
Qed.

Lemma uval_sub_u64 W a b : (2 <= W)%nat -> uwf W a -> is_u64 b ->
  uwf W (Uint.sub_u64 a b) /\ uval (Uint.sub_u64 a b) = (uval a - b) mod modulus W.
Proof.
  intros HW Ha Hb. unfold Uint.sub_u64. rewrite (proj1 Ha).
  destruct (uval_of_u64 W b HW Hb) as [H1 H2]. destruct (uval_sub W a _ Ha H1) as [H3 H4].
  rewrite H2 in H4. split; [exact H3 | exact H4].
Qed.

(** ** Conversion to and from byte blobs *)

Lemma WriteLE32_spec x : is_u32 x ->
  length (Uint.WriteLE32 x) = 4%nat /\ forall r, Uint.ReadLE32 (Uint.WriteLE32 x ++ r) = x.
Proof.
  intros Hx. unfold is_u32 in Hx. split; [done|]. intros r.
  change (Uint.ReadLE32 (Uint.WriteLE32 x ++ r)) with
    (u8 x + 2 ^ 8 * u8 (Z.shiftr x 8) + 2 ^ 16 * u8 (Z.shiftr x 16) + 2 ^ 24 * u8 (Z.shiftr x 24)).
  unfold u8. rewrite !Z.shiftr_div_pow2 by lia.
  replace (x / 2 ^ 24) with (x / 2 ^ 8 / 2 ^ 8 / 2 ^ 8) by (rewrite !Z.div_div by lia; done).
  replace (x / 2 ^ 16) with (x / 2 ^ 8 / 2 ^ 8) by (rewrite !Z.div_div by lia; done).
  pose proof (Z.div_mod x (2 ^ 8) ltac:(lia)). pose proof (Z.div_mod (x / 2 ^ 8) (2 ^ 8) ltac:(lia)).
  pose proof (Z.div_mod (x / 2 ^ 8 / 2 ^ 8) (2 ^ 8) ltac:(lia)).
  rewrite (Z.mod_small (x / 2 ^ 8 / 2 ^ 8 / 2 ^ 8)); [lia|].
  rewrite !Z.div_div by lia. split; [apply Z.div_pos; lia | apply Z.div_lt_upper_bound; lia].
Qed.

Lemma blob_roundtrip W a : uwf W a -> forall n,
  map (fun x => Uint.ReadLE32 (drop (x * 4) (replicate (n * 4) 0 ++ Uint.ArithToUint256 a))) (seq n W) = a.
Proof.
  intros Ha. induction Ha as [|W x a Hx Ha IH] using uwf_ind; intros n; [done|].
  destruct (WriteLE32_spec x Hx) as [Hl Hr].
  cbn [seq map]. f_equal.
  - rewrite drop_app_length' by (rewrite length_replicate; lia). apply Hr.
  - etransitivity; [|apply (IH (S n))]. apply map_ext_in. intros j Hj. apply in_seq in Hj. f_equal.
    unfold Uint.ArithToUint256. cbn [map concat].
    rewrite app_assoc, !drop_app_ge by (rewrite ?length_app, ?length_replicate, ?Hl; lia).
    rewrite length_app, !length_replicate, Hl. f_equal. lia.
Qed.

(** ** Properties *)

Local Notation "x ≡_ W y" := (x = y mod modulus W) (at level 70, W at level 1).

(** C24: on every limb array that satisfies the invariant, [+=], [-=], [*=] (both
    overloads), unary [-], [++], [--] and the [uint64_t] overloads compute the
    corresponding operation on integers modulo [2^BITS], and the result
    satisfies the invariant again. *)
Theorem base_uint_ring_refines W a b c :
  (2 <= W)%nat -> uwf W a -> uwf W b -> is_u64 c ->
  (uwf W (Uint.add a b) /\ uval (Uint.add a b) ≡_W uval a + uval b) /\
  (uwf W (Uint.sub a b) /\ uval (Uint.sub a b) ≡_W uval a - uval b) /\
  (uwf W (Uint.mul a b) /\ uval (Uint.mul a b) ≡_W uval a * uval b) /\
  (uwf W (Uint.mul_u32 a c) /\ uval (Uint.mul_u32 a c) ≡_W uval a * u32 c) /\
  (uwf W (Uint.neg a) /\ uval (Uint.neg a) ≡_W - uval a) /\
  (uwf W (Uint.inc a) /\ uval (Uint.inc a) ≡_W uval a + 1) /\
  (uwf W (Uint.dec a) /\ uval (Uint.dec a) ≡_W uval a - 1) /\
  (uwf W (Uint.add_u64 a c) /\ uval (Uint.add_u64 a c) ≡_W uval a + c) /\
  (uwf W (Uint.sub_u64 a c) /\ uval (Uint.sub_u64 a c) ≡_W uval a - c).
Proof.
  auto 20 using uval_add, uval_sub, uval_mul, uval_mul_u32, uval_neg, uval_inc, uval_dec,
    uval_add_u64, uval_sub_u64.
Qed.

Definition sample_a : base_uint := Uint.of_u64 8 0xfedcba9876543210.
Definition sample_b : base_uint := Uint.shl (Uint.of_u64 8 12345) 200.

Lemma sample_a_wf : uwf 8 sample_a.
Proof. apply uval_of_u64; unfold is_u64; lia. Qed.

Lemma sample_b_wf : uwf 8 sample_b.
Proof. apply uval_shl; [apply uval_of_u64; unfold is_u64; lia | lia]. Qed.

Lemma base_uint_ring_refines_witness :
  uval (Uint.mul sample_a sample_b) = (0xfedcba9876543210 * (12345 * 2 ^ 200)) mod 2 ^ 256.
Proof.
  exact (proj2 (proj1 (proj2 (proj2 (base_uint_ring_refines 8 sample_a sample_b 7
    ltac:(lia) sample_a_wf sample_b_wf ltac:(unfold is_u64; lia)))))).
Defined.

(** The limb shifts, complement and bitwise operators are the ones of [Z];
    [CompareTo], [EqualTo], [operator!] decide the order and equality of the
    values; [bits] is one plus the position of the highest set bit and
    [GetLow64] the value modulo [2^64]. *)
Theorem base_uint_bits_refine W a b s c :
  (2 <= W)%nat -> uwf W a -> uwf W b -> 0 <= s -> is_u64 c ->
  uval (Uint.shl a s) ≡_W uval a * 2 ^ s /\
  uval (Uint.shr a s) = uval a / 2 ^ s /\
  uval (Uint.not_ a) = 2 ^ (32 * Z.of_nat W) - 1 - uval a /\
  uval (Uint.and_ a b) = Z.land (uval a) (uval b) /\
  uval (Uint.or_ a b) = Z.lor (uval a) (uval b) /\
  uval (Uint.xor a b) = Z.lxor (uval a) (uval b) /\
  Uint.CompareTo a b = match Z.compare (uval a) (uval b) with Lt => -1 | Eq => 0 | Gt => 1 end /\
  Uint.EqualTo a c = (uval a =? c) /\
  Uint.is_zero a = (uval a =? 0) /\
  Uint.bits a = (if uval a =? 0 then 0 else Z.log2 (uval a) + 1) /\
  Uint.GetLow64 a = uval a mod 2 ^ 64.
Proof.
  intros HW Ha Hb Hs Hc.
  split; [by apply uval_shl|]. split; [by apply (uval_shr W)|]. split; [by apply uval_not|].
  split; [by apply (uval_and W)|]. split; [by apply (uval_or W)|]. split; [by apply (uval_xor W)|].
  split; [by apply (CompareTo_spec W)|]. split; [by apply (EqualTo_spec W)|].
  split; [by apply (is_zero_spec _ W)|]. split; [by apply (bits_spec W) | by apply (GetLow64_spec W)].
Qed.

Lemma base_uint_bits_refine_witness :
  uval (Uint.shr sample_b 100) = (12345 * 2 ^ 200) / 2 ^ 100.
Proof.
  exact (proj1 (proj2 (base_uint_bits_refine 8 sample_b sample_a 100 0
    ltac:(lia) sample_b_wf sample_a_wf ltac:(lia) ltac:(unfold is_u64; lia)))).
Defined.

(** [operator/=] throws exactly when the divisor is zero, and otherwise the
    shift-and-subtract loop returns the floor quotient. *)
Theorem base_uint_division W a b :
  uwf W a -> uwf W b ->
  match Uint.div a b with
  | None => uval b = 0
  | Some q => uval b <> 0 /\ uwf W q /\ uval q = uval a / uval b
  end.
Proof. apply uval_div. Qed.

Lemma base_uint_division_witness :
  match Uint.div sample_b sample_a with
  | None => uval sample_a = 0
  | Some q => uval sample_a <> 0 /\ uwf 8 q /\ uval q = uval sample_b / uval sample_a
  end.
Proof. exact (base_uint_division 8 sample_b sample_a sample_b_wf sample_a_wf). Defined.

(** Writing the limbs of an [arith_uint256] to the 32 bytes of a [uint256]
    and reading them back is the identity. *)
Theorem uint256_blob_roundtrip W a :
  uwf W a -> Uint.UintToArith256 W (Uint.ArithToUint256 a) = a.
Proof. intros Ha. apply (blob_roundtrip W a Ha 0). Qed.

Lemma uint256_blob_roundtrip_witness : Uint.UintToArith256 8 (Uint.ArithToUint256 sample_b) = sample_b.
Proof. exact (uint256_blob_roundtrip 8 sample_b sample_b_wf). Defined.
