(* ===== verification/Compact.v ===== *)
(** * Compact difficulty targets and proof of work
    ([arith_uint256::SetCompact], [GetCompact], [CheckProofOfWork] of pow.cpp,
    [GetBlockProof] and [GetBlockProofEquivalentTime] of chain.cpp)

    A target is stored in 32 bits as a one-byte base-256 exponent and a 23-bit
    mantissa with a sign bit.  [arith_uint256] is a [base_uint] of eight limbs. *)

From S2P Require Import Prelude ArithUint.

Abbreviation arith_uint256 := base_uint.

(** ** Definitions *)

(** [SetCompact(nCompact, &fNegative, &fOverflow)]: the new value and both flags *)
Definition SetCompact (nCompact : Z) : arith_uint256 * bool * bool :=
  let nSize := Z.shiftr nCompact 24 in
  let nWord := Z.land nCompact 0x007fffff in
  let '(this, nWord) :=
    if nSize <=? 3
    then let nWord := Z.shiftr nWord (8 * (3 - nSize)) in (Uint.of_u64 8 nWord, nWord)
    else (Uint.shl (Uint.of_u64 8 nWord) (8 * (nSize - 3)), nWord) in
  let fNegative := negb (nWord =? 0) && negb (Z.land nCompact 0x00800000 =? 0) in
  let fOverflow := negb (nWord =? 0) &&
    ((nSize >? 34) || ((nWord >? 0xff) && (nSize >? 33)) || ((nWord >? 0xffff) && (nSize >? 32))) in
  (this, fNegative, fOverflow).

(** [GetCompact(fNegative)]; [None] when one of the two assertions fails *)
Definition GetCompact (a : arith_uint256) (fNegative : bool) : option Z :=
  let nSize := (Uint.bits a + 7) / 8 in
  let nCompact :=
    if nSize <=? 3
    then u32 (u64 (Z.shiftl (Uint.GetLow64 a) (8 * (3 - nSize))))
    else u32 (Uint.GetLow64 (Uint.shr a (8 * (nSize - 3)))) in
  let '(nCompact, nSize) :=
    if negb (Z.land nCompact 0x00800000 =? 0)
    then (Z.shiftr nCompact 8, nSize + 1) else (nCompact, nSize) in
  if negb (Z.land nCompact (u32 (Z.lnot 0x007fffff)) =? 0) then None
  else if negb (nSize <? 256) then None
  else
    let nCompact := Z.lor nCompact (u32 (Z.shiftl nSize 24)) in
    Some (Z.lor nCompact (if fNegative && negb (Z.land nCompact 0x007fffff =? 0) then 0x00800000 else 0)).

(** [CheckProofOfWork(hash, nBits, params)]; [hash] and [powLimit] are 32-byte blobs *)
Definition CheckProofOfWork (hash : list Z) (nBits : Z) (powLimit : list Z) : bool :=
  let '(bnTarget, fNegative, fOverflow) := SetCompact nBits in
  if fNegative || Uint.EqualTo bnTarget 0 || fOverflow
     || (Uint.CompareTo bnTarget (Uint.UintToArith256 8 powLimit) >? 0)
  then false
  else if Uint.CompareTo (Uint.UintToArith256 8 hash) bnTarget >? 0 then false
  else true.

(** [GetBlockProof(block)], of the block's [nBits]; the division cannot throw
    ([GetBlockProof_spec]), [None] records that it is the throwing operator *)
Definition GetBlockProof (nBits : Z) : option arith_uint256 :=
  let '(bnTarget, fNegative, fOverflow) := SetCompact nBits in
  if fNegative || fOverflow || Uint.EqualTo bnTarget 0 then Some (Uint.of_u64 8 0)
  else q ← Uint.div (Uint.not_ bnTarget) (Uint.add_u64 bnTarget 1);
       Some (Uint.add_u64 q 1).

(** [GetBlockProofEquivalentTime(to, from, tip, params)], of the two chain works *)
Definition GetBlockProofEquivalentTime (toWork fromWork : arith_uint256) (tipBits nPowTargetSpacing : Z) : option Z :=
  let '(r, sign) :=
    if Uint.CompareTo toWork fromWork >? 0
    then (Uint.sub toWork fromWork, 1)
    else (Uint.sub fromWork toWork, -1) in
  proof ← GetBlockProof tipBits;
  r ← Uint.div (Uint.mul r (Uint.of_u64 8 (u64 nPowTargetSpacing))) proof;
  if Uint.bits r >? 63 then Some (sign * INT64_MAX)
  else Some (i64 (u64 (u64 sign * Uint.GetLow64 r))).

(** ** The number a compact encoding denotes *)

Definition compact_size (c : Z) : Z := c / 2 ^ 24.
Definition compact_mantissa (c : Z) : Z := c mod 2 ^ 23.
Definition compact_sign (c : Z) : bool := Z.testbit c 23.

(** [N = mantissa * 256^(exponent-3)], rounded down when the exponent is below 3 *)
Definition compact_value (c : Z) : Z :=
  if compact_size c <=? 3 then compact_mantissa c / 256 ^ (3 - compact_size c)
  else compact_mantissa c * 256 ^ (compact_size c - 3).

(** ** SetCompact *)

Lemma pow256 n : 0 <= n -> 256 ^ n = 2 ^ (8 * n).
Proof. intros Hn. rewrite Z.pow_mul_r by lia. done. Qed.

Lemma modulus_8 : modulus 8 = 2 ^ 256.
Proof. done. Qed.

Lemma compact_fields c : is_u32 c ->
  Z.shiftr c 24 = compact_size c /\ Z.land c 0x007fffff = compact_mantissa c /\
  negb (Z.land c 0x00800000 =? 0) = compact_sign c /\
  0 <= compact_size c < 256 /\ 0 <= compact_mantissa c < 2 ^ 23.
Proof.
  intros Hc. unfold is_u32 in Hc. unfold compact_size, compact_mantissa, compact_sign.
  rewrite Z.shiftr_div_pow2 by lia. split; [done|].
  split; [apply (land_mask c 23); lia|].
  split; [change 0x00800000 with (Z.shiftl 1 23); rewrite land_bit_zero by lia; apply negb_involutive|].
  split; [split; [apply Z.div_pos; lia | apply Z.div_lt_upper_bound; lia] | apply Z.mod_pos_bound; lia].
Qed.

(** the overflow test of the source is exactly "the value needs more than 256 bits" *)
Lemma overflow_test m s : 0 <= m < 2 ^ 23 -> 3 < s < 256 ->
  (negb (m =? 0) && ((s >? 34) || ((m >? 0xff) && (s >? 33)) || ((m >? 0xffff) && (s >? 32)))) =
  (2 ^ 256 <=? m * 256 ^ (s - 3)).
Proof.
  intros Hm Hs. rewrite pow256, !Z.gtb_ltb by lia.
  assert (Hp : forall a b, 0 <= a <= b -> 2 ^ a <= 2 ^ b) by (intros; apply Z.pow_le_mono_r; lia).
  destruct (Z.eqb_spec m 0) as [->|Hm0]; [done|]. simpl negb. rewrite andb_true_l.
  destruct (Z.ltb_spec 34 s).
  { rewrite !orb_true_l. symmetry. apply Z.leb_le. pose proof (Hp 256 (8 * (s - 3)) ltac:(lia)). nia. }
  destruct (Z.ltb_spec 33 s).
  { assert (s = 34) as -> by lia. rewrite andb_true_r. change (2 ^ (8 * (34 - 3))) with (2 ^ 248).
    destruct (Z.ltb_spec 255 m), (Z.ltb_spec 65535 m), (Z.leb_spec (2 ^ 256) (m * 2 ^ 248)); simpl; lia. }
  destruct (Z.ltb_spec 32 s).
  { assert (s = 33) as -> by lia. rewrite andb_false_r, andb_true_r. change (2 ^ (8 * (33 - 3))) with (2 ^ 240).
    destruct (Z.ltb_spec 65535 m), (Z.leb_spec (2 ^ 256) (m * 2 ^ 240)); simpl; lia. }
  rewrite !andb_false_r. symmetry. apply Z.leb_gt.
  pose proof (Hp (8 * (s - 3)) 232 ltac:(lia)). nia.
Qed.

Lemma SetCompact_spec c : is_u32 c ->
  let '(t, fNegative, fOverflow) := SetCompact c in
  uwf 8 t /\ uval t = compact_value c mod 2 ^ 256 /\
  fNegative = compact_sign c && negb (compact_value c =? 0) /\
  fOverflow = (2 ^ 256 <=? compact_value c).
Proof.
  intros Hc. destruct (compact_fields c Hc) as (Es & Em & Eg & Hs & Hm).
  unfold SetCompact, compact_value. rewrite Es, Em, Eg.
  set (s := compact_size c) in *. set (m := compact_mantissa c) in *.
  destruct (Z.leb_spec s 3) as [Hle|Hgt]; cbv beta iota zeta.
  - rewrite Z.shiftr_div_pow2, <- pow256 by lia. assert (1 <= 256 ^ (3 - s)) by (rewrite pow256 by lia; apply (Z.pow_le_mono_r 2 0); lia).
    set (w := m / 256 ^ (3 - s)). assert (Hw : 0 <= w < 2 ^ 23).
    { split; [apply Z.div_pos; lia|]. apply Z.div_lt_upper_bound; nia. }
    destruct (uval_of_u64 8 w ltac:(lia) ltac:(unfold is_u64; lia)) as [H1 H2].
    split; [done|]. split; [by rewrite H2, Z.mod_small by lia|].
    split; [apply andb_comm|]. rewrite !(Z.gtb_ltb s).
    rewrite (proj2 (Z.ltb_ge 34 s)), (proj2 (Z.ltb_ge 33 s)), (proj2 (Z.ltb_ge 32 s)), !andb_false_r by lia.
    symmetry. apply Z.leb_gt. lia.
  - destruct (uval_of_u64 8 m ltac:(lia) ltac:(unfold is_u64; lia)) as [H1 H2].
    destruct (uval_shl 8 _ (8 * (s - 3)) H1 ltac:(lia)) as [H3 H4].
    split; [done|]. split; [rewrite H4, H2, pow256 by lia; done|].
    split; [|apply overflow_test; lia]. rewrite andb_comm. f_equal. f_equal.
    assert (0 < 256 ^ (s - 3)) by (apply Z.pow_pos_nonneg; lia).
    apply Bool.eq_iff_eq_true. rewrite !Z.eqb_eq. nia.
Qed.

(** ** GetCompact *)

(** base-256 length and three leading digits, then the sign-bit adjustment *)
Definition digits (N : Z) : Z := Z.log2 N / 8 + 1.
Definition leading (N : Z) : Z :=
  if digits N <=? 3 then N * 256 ^ (3 - digits N) else N / 256 ^ (digits N - 3).
Definition compact_of (N : Z) : Z * Z :=
  if N =? 0 then (0, 0)
  else if leading N <? 2 ^ 23 then (digits N, leading N) else (digits N + 1, leading N / 256).

Lemma digits_bound N : 0 < N ->
  1 <= digits N /\ 256 ^ (digits N - 1) <= 2 ^ Z.log2 N <= N /\ N < 256 ^ digits N.
Proof.
  intros HN. unfold digits. pose proof (Z.log2_spec N HN) as [H1 H2]. pose proof (Z.log2_nonneg N).
  pose proof (Z.div_mod (Z.log2 N) 8 ltac:(lia)). pose proof (Z.mod_pos_bound (Z.log2 N) 8 ltac:(lia)).
  pose proof (Z.div_pos (Z.log2 N) 8 ltac:(lia) ltac:(lia)).
  split; [lia|]. rewrite !pow256 by lia. split; [split; [|done]|].
  - apply Z.pow_le_mono_r; lia.
  - apply Z.lt_le_trans with (1 := H2). apply Z.pow_le_mono_r; lia.
Qed.

Lemma leading_bound N : 0 < N -> 2 ^ 16 <= leading N < 2 ^ 24.
Proof.
  intros HN. destruct (digits_bound N HN) as (Hd & [Hlo Hmid] & Hhi). unfold leading.
  destruct (Z.leb_spec (digits N) 3) as [H|H].
  - assert (Hp : 0 < 256 ^ (3 - digits N)) by (apply Z.pow_pos_nonneg; lia).
    assert (E1 : 256 ^ (digits N - 1) * 256 ^ (3 - digits N) = 2 ^ 16)
      by (rewrite <- Z.pow_add_r by lia; replace (digits N - 1 + (3 - digits N)) with 2 by lia; done).
    assert (E2 : 256 ^ digits N * 256 ^ (3 - digits N) = 2 ^ 24)
      by (rewrite <- Z.pow_add_r by lia; replace (digits N + (3 - digits N)) with 3 by lia; done).
    nia.
  - assert (Hp : 0 < 256 ^ (digits N - 3)) by (apply Z.pow_pos_nonneg; lia).
    assert (E1 : 256 ^ (digits N - 1) = 256 ^ (digits N - 3) * 2 ^ 16)
      by (replace (digits N - 1) with (digits N - 3 + 2) by lia; rewrite Z.pow_add_r by lia; done).
    assert (E2 : 256 ^ digits N = 256 ^ (digits N - 3) * 2 ^ 24)
      by (replace (digits N) with (digits N - 3 + 3) at 1 by lia; rewrite Z.pow_add_r by lia; done).
    split; [apply Z.div_le_lower_bound; lia | apply Z.div_lt_upper_bound; lia].
Qed.

Lemma compact_of_bound N : 0 <= N < 2 ^ 256 ->
  let '(s, m) := compact_of N in 0 <= s <= 33 /\ 0 <= m < 2 ^ 23.
Proof.
  intros HN. unfold compact_of. destruct (Z.eqb_spec N 0); [lia|].
  destruct (leading_bound N ltac:(lia)) as [H1 H2]. destruct (digits_bound N ltac:(lia)) as [Hd _].
  assert (digits N <= 32).
  { unfold digits. assert (Z.log2 N < 256) by (apply Z.log2_lt_pow2; lia).
    pose proof (Z.div_lt_upper_bound (Z.log2 N) 8 32 ltac:(lia) ltac:(lia)). lia. }
  destruct (Z.ltb_spec (leading N) (2 ^ 23)); [lia|]. split; [lia|].
  split; [apply Z.div_pos; lia | apply Z.div_lt_upper_bound; lia].
Qed.

(** the word read off the limbs is [leading] *)
Lemma GetCompact_word a : uwf 8 a -> uval a <> 0 ->
  (Uint.bits a + 7) / 8 = digits (uval a) /\
  (if digits (uval a) <=? 3
   then u32 (u64 (Z.shiftl (Uint.GetLow64 a) (8 * (3 - digits (uval a)))))
   else u32 (Uint.GetLow64 (Uint.shr a (8 * (digits (uval a) - 3))))) = leading (uval a).
Proof.
  intros Ha Hz. pose proof (uval_range 8 a Ha) as Hr. assert (HN : 0 < uval a) by lia.
  pose proof (leading_bound _ HN) as Hl. destruct (digits_bound _ HN) as (Hd & _ & Hhi).
  rewrite (bits_spec 8 a Ha), (proj2 (Z.eqb_neq _ _) Hz). split.
  { unfold digits. replace (Z.log2 (uval a) + 1 + 7) with (Z.log2 (uval a) + 1 * 8) by lia.
    by rewrite Z.div_add. }
  unfold leading in *. destruct (Z.leb_spec (digits (uval a)) 3) as [H|H].
  - assert (256 ^ digits (uval a) <= 2 ^ 24) by (apply (Z.pow_le_mono_r 256 _ 3); lia).
    rewrite (GetLow64_spec 8), (Z.mod_small (uval a)) by (done || lia).
    rewrite Z.shiftl_mul_pow2, <- pow256, u64_small, u32_small by (unfold is_u64, is_u32; lia). done.
  - destruct (uval_shr 8 a (8 * (digits (uval a) - 3)) Ha ltac:(lia)) as [H1 H2].
    rewrite (GetLow64_spec 8), H2, <- pow256 by (done || lia).
    rewrite Z.mod_small, u32_small by (unfold is_u32; lia). done.
Qed.

Lemma testbit_high m n : 0 <= n -> 0 <= m < 2 ^ (n + 1) -> Z.testbit m n = (2 ^ n <=? m).
Proof.
  intros Hn Hm. rewrite Z.pow_add_r in Hm by lia. rewrite Z.testbit_odd, Z.shiftr_div_pow2 by lia.
  assert (0 < 2 ^ n) by (apply Z.pow_pos_nonneg; lia).
  destruct (Z.leb_spec (2 ^ n) m).
  - replace (m / 2 ^ n) with 1; [done|]. apply (Z.div_unique _ _ _ (m - 2 ^ n)); lia.
  - rewrite Z.div_small by lia. done.
Qed.

Lemma GetCompact_spec a fNegative : uwf 8 a ->
  GetCompact a fNegative = Some
    (let '(s, m) := compact_of (uval a) in
     m + s * 2 ^ 24 + (if fNegative && negb (m =? 0) then 2 ^ 23 else 0)).
Proof.
  intros Ha. pose proof (uval_range 8 a Ha) as Hr. pose proof (compact_of_bound _ Hr) as Hb.
  unfold GetCompact.
  assert (E : (let nSize := (Uint.bits a + 7) / 8 in
    let nCompact := if nSize <=? 3 then u32 (u64 (Z.shiftl (Uint.GetLow64 a) (8 * (3 - nSize))))
                    else u32 (Uint.GetLow64 (Uint.shr a (8 * (nSize - 3)))) in
    if negb (Z.land nCompact 0x00800000 =? 0) then (Z.shiftr nCompact 8, nSize + 1) else (nCompact, nSize))
    = let '(s, m) := compact_of (uval a) in (m, s)).
  { cbv zeta. unfold compact_of. destruct (Z.eqb_spec (uval a) 0) as [E0|E0].
    - rewrite (bits_spec 8 a Ha), E0, (GetLow64_spec 8), E0 by (done || lia). done.
    - destruct (GetCompact_word a Ha E0) as [-> ->]. pose proof (leading_bound (uval a) ltac:(lia)).
      change 0x00800000 with (Z.shiftl 1 23). rewrite land_bit_zero, negb_involutive, testbit_high by lia.
      rewrite Z.leb_antisym, Z.shiftr_div_pow2 by lia. by destruct (leading (uval a) <? 2 ^ 23). }
  cbv zeta in E. rewrite E. clear E. destruct (compact_of (uval a)) as [s m]. destruct Hb as [Hs Hm].
  replace (Z.land m (u32 (Z.lnot 0x007fffff))) with 0.
  2:{ symmetry. change (u32 (Z.lnot 0x007fffff)) with (Z.shiftl 511 23). apply Z.bits_inj'. intros j Hj.
      rewrite Z.land_spec, Z.bits_0, Z.shiftl_spec by lia. destruct (Z.lt_ge_cases j 23).
      - rewrite (Z.testbit_neg_r _ (j - 23)) by lia. apply andb_false_r.
      - rewrite <- (Z.mod_small m (2 ^ 23)), Z.mod_pow2_bits_high by lia. done. }
  change (negb (0 =? 0)) with false. rewrite (proj2 (Z.ltb_lt s 256)) by lia. cbv beta iota zeta. simpl negb. cbv iota.
  rewrite Z.shiftl_mul_pow2, u32_small, lor_disjoint_add by (unfold is_u32; lia).
  assert (El : Z.land (m + s * 2 ^ 24) 0x007fffff = m).
  { rewrite (land_mask _ 23) by lia. replace (s * 2 ^ 24) with (2 * s * 2 ^ 23) by lia.
    rewrite Z.mod_add, Z.mod_small by lia. done. }
  rewrite El. f_equal. destruct (fNegative && negb (m =? 0)); [|by rewrite Z.lor_0_r, Z.add_0_r].
  rewrite <- (lor_disjoint_add m s 24), <- Z.lor_assoc, (Z.lor_comm (s * 2 ^ 24)), Z.lor_assoc by lia.
  change 0x00800000 with (1 * 2 ^ 23). rewrite (lor_disjoint_add m 1 23), !lor_disjoint_add by lia.
  lia.
Qed.

(** ** Round trip *)

Lemma compact_pack s m : 0 <= m < 2 ^ 23 ->
  compact_size (m + s * 2 ^ 24) = s /\ compact_mantissa (m + s * 2 ^ 24) = m /\
  compact_sign (m + s * 2 ^ 24) = false.
Proof.
  intros Hm. unfold compact_size, compact_mantissa, compact_sign.
  rewrite Z.div_add, Z.div_small by lia. split; [lia|]. split.
  - replace (s * 2 ^ 24) with (2 * s * 2 ^ 23) by lia. rewrite Z.mod_add, Z.mod_small by lia. done.
  - rewrite Z.testbit_odd, Z.shiftr_div_pow2 by lia. replace (s * 2 ^ 24) with (2 * s * 2 ^ 23) by lia.
    rewrite Z.div_add, Z.div_small, Z.add_0_l, Z.odd_mul by lia. done.
Qed.

(** the value kept by the encoding: [N] with its [k] low base-256 digits cleared *)
Definition compact_round (N : Z) : Z :=
  let k := Z.max 0 ((compact_of N).1 - 3) in (N / 256 ^ k) * 256 ^ k.

Lemma compact_of_value N : 0 <= N < 2 ^ 256 ->
  compact_value ((compact_of N).2 + (compact_of N).1 * 2 ^ 24) = compact_round N.
Proof.
  intros HN. pose proof (compact_of_bound N HN) as Hb. unfold compact_round.
  destruct (compact_of N) as [s m] eqn:E. destruct Hb as [Hs Hm]. cbn [fst snd].
  destruct (compact_pack s m Hm) as (E1 & E2 & _). unfold compact_value. rewrite E1, E2.
  unfold compact_of in E. destruct (Z.eqb_spec N 0) as [->|H0]; [injection E as <- <-; done|].
  destruct (digits_bound N ltac:(lia)) as [Hd _]. pose proof (leading_bound N ltac:(lia)) as Hl.
  unfold leading in *.
  assert (Hp : forall e, 0 < 256 ^ e \/ e < 0).
  { intros e. destruct (Z.lt_ge_cases e 0); [by right | left; apply Z.pow_pos_nonneg; lia]. }
  destruct (Z.leb_spec (digits N) 3) as [Hle|Hgt]; case_if_in E; bool_to_prop; injection E as <- <-.
  - rewrite (proj2 (Z.leb_le _ _)) by lia. rewrite Z.max_l, Z.pow_0_r, Z.div_1_r, Z.mul_1_r by lia.
    apply Z.div_mul. destruct (Hp (3 - digits N)); lia.
  - destruct (Z.leb_spec (digits N + 1) 3).
    + rewrite Z.max_l, Z.pow_0_r, Z.div_1_r, Z.mul_1_r by lia.
      replace (3 - digits N) with (1 + (3 - (digits N + 1))) by lia.
      rewrite Z.pow_add_r, Z.pow_1_r, Z.mul_comm, <- Z.mul_assoc, (Z.mul_comm 256), Z.div_mul by lia.
      rewrite Z.mul_comm. apply Z.div_mul. destruct (Hp (3 - (digits N + 1))); lia.
    + assert (digits N = 3) as -> by lia. change (3 - 3) with 0. by rewrite Z.pow_0_r, Z.mul_1_r.
  - rewrite (proj2 (Z.leb_gt _ _)), Z.max_r by lia. done.
  - rewrite (proj2 (Z.leb_gt _ _)), Z.max_r by lia.
    replace (digits N + 1 - 3) with (digits N - 3 + 1) by lia. rewrite !Z.pow_add_r, Z.pow_1_r by lia.
    rewrite Z.div_div by (destruct (Hp (digits N - 3)); lia). done.
Qed.

Lemma compact_round_log2 N : 0 < N < 2 ^ 256 ->
  0 < compact_round N <= N /\ Z.log2 (compact_round N) = Z.log2 N.
Proof.
  intros HN. unfold compact_round. set (k := Z.max 0 _).
  pose proof (Z.log2_spec N ltac:(lia)) as [H1 H2]. pose proof (Z.log2_nonneg N).
  assert (Hk : 0 <= 8 * k <= Z.log2 N).
  { subst k. unfold compact_of. rewrite (proj2 (Z.eqb_neq N 0)) by lia.
    pose proof (Z.div_mod (Z.log2 N) 8 ltac:(lia)). pose proof (Z.mod_pos_bound (Z.log2 N) 8 ltac:(lia)).
    pose proof (Z.div_pos (Z.log2 N) 8 ltac:(lia) ltac:(lia)).
    unfold digits. destruct (leading N <? 2 ^ 23); cbn [fst]; lia. }
  rewrite pow256 by lia. assert (Hp : 0 < 2 ^ (8 * k)) by (apply Z.pow_pos_nonneg; lia).
  assert (Hlo : 2 ^ Z.log2 N <= N / 2 ^ (8 * k) * 2 ^ (8 * k)).
  { replace (Z.log2 N) with (Z.log2 N - 8 * k + 8 * k) at 1 by lia. rewrite Z.pow_add_r by lia.
    apply Z.mul_le_mono_nonneg_r; [lia|]. apply Z.div_le_lower_bound; [lia|].
    rewrite Z.mul_comm, <- Z.pow_add_r by lia. replace (Z.log2 N - 8 * k + 8 * k) with (Z.log2 N) by lia. lia. }
  pose proof (Z.mul_div_le N (2 ^ (8 * k)) Hp).
  assert (0 < 2 ^ Z.log2 N) by (apply Z.pow_pos_nonneg; lia).
  split; [lia|]. apply Z.log2_unique; lia.
Qed.

Lemma compact_of_round N : 0 <= N < 2 ^ 256 -> compact_of (compact_round N) = compact_of N.
Proof.
  intros HN. destruct (Z.eq_dec N 0) as [->|H0]; [done|].
  destruct (compact_round_log2 N ltac:(lia)) as [Hr Hlog].
  assert (Ed : digits (compact_round N) = digits N) by (unfold digits; by rewrite Hlog).
  destruct (digits_bound N ltac:(lia)) as (Hd & _).
  pose proof (leading_bound N ltac:(lia)) as Hl.
  unfold compact_of at 1 2. rewrite !(proj2 (Z.eqb_neq _ 0)) by lia. rewrite Ed.
  assert (El : leading (compact_round N) = if leading N <? 2 ^ 23 then leading N else (leading N / 256) * 256).
  { unfold leading at 1. rewrite Ed. unfold compact_round, compact_of.
    rewrite (proj2 (Z.eqb_neq N 0)) by lia. unfold leading in *.
    assert (Hp : 0 < 256 ^ (digits N - 3) \/ digits N <= 2).
    { destruct (Z.le_gt_cases (digits N) 2); [by right | left; apply Z.pow_pos_nonneg; lia]. }
    destruct (Z.leb_spec (digits N) 3) as [Hle|Hgt]; case_ifs; bool_to_prop; cbn [fst].
    - rewrite Z.max_l, Z.pow_0_r, Z.div_1_r by lia. lia.
    - destruct (Z.eq_dec (digits N) 3) as [E3|E3].
      + rewrite E3. change (3 + 1 - 3) with 1. change (Z.max 0 1) with 1. change (3 - 3) with 0.
        rewrite Z.pow_0_r, Z.pow_1_r, !Z.mul_1_r. done.
      + rewrite Z.max_l, Z.pow_0_r, Z.div_1_r, Z.mul_1_r by lia.
        replace (3 - digits N) with (2 - digits N + 1) by lia.
        rewrite Z.pow_add_r, Z.pow_1_r, Z.mul_assoc, Z.div_mul by lia. done.
    - rewrite Z.max_r, Z.div_mul by lia. done.
    - rewrite Z.max_r by lia. replace (digits N + 1 - 3) with (1 + (digits N - 3)) by lia.
      rewrite Z.pow_add_r, Z.pow_1_r, Z.mul_assoc, Z.div_mul by lia.
      rewrite (Z.mul_comm 256), Z.div_div by lia. done. }
  rewrite El. destruct (Z.ltb_spec (leading N) (2 ^ 23)) as [H|H].
  - by rewrite (proj2 (Z.ltb_lt _ _)).
  - rewrite (proj2 (Z.ltb_ge _ _)), Z.div_mul; [done|lia|].
    pose proof (Z.div_le_mono (2 ^ 23) (leading N) 256 ltac:(lia) H).
    change (2 ^ 23 / 256) with (2 ^ 15) in *. lia.
Qed.

(** the encoding keeps at least 15 significant bits *)
Lemma compact_round_precision N : 0 < N < 2 ^ 256 -> (N - compact_round N) * 2 ^ 15 < N.
Proof.
  intros HN. destruct (digits_bound N ltac:(lia)) as (Hd & [Hlo Hmid] & _).
  pose proof (leading_bound N ltac:(lia)) as Hl. unfold compact_round. set (k := Z.max 0 _).
  destruct (Z.eq_dec k 0) as [->|Hk]; [rewrite Z.pow_0_r, Z.div_1_r; lia|].
  assert (Hp : 0 < 256 ^ k) by (apply Z.pow_pos_nonneg; lia).
  enough (2 ^ 15 * 256 ^ k <= N).
  { pose proof (Z.div_mod N (256 ^ k) ltac:(lia)). pose proof (Z.mod_pos_bound N (256 ^ k) Hp). lia. }
  assert (Ek : k = (compact_of N).1 - 3) by lia. assert (Hk0 : 0 <= k) by lia. clearbody k.
  unfold compact_of in Ek. rewrite (proj2 (Z.eqb_neq N 0)) in Ek by lia. unfold leading in Hl, Ek.
  destruct (Z.leb_spec (digits N) 3); case_if_in Ek; bool_to_prop; cbn [fst] in Ek; subst k; try lia.
  - assert (digits N = 3) as E3 by lia.
    rewrite E3 in *. change (3 + 1 - 3) with 1. rewrite Z.pow_1_r.
    change (3 - 3) with 0 in *. rewrite Z.pow_0_r in *. lia.
  - assert (256 ^ (digits N - 1) = 2 ^ 16 * 256 ^ (digits N - 3)) as E1
      by (replace (digits N - 1) with (2 + (digits N - 3)) by lia; rewrite Z.pow_add_r by lia; done). lia.
  - replace (digits N + 1 - 3) with (1 + (digits N - 3)) by lia. rewrite Z.pow_add_r, Z.pow_1_r by lia.
    assert (0 < 256 ^ (digits N - 3)) by (apply Z.pow_pos_nonneg; lia).
    pose proof (Z.mul_div_le N (256 ^ (digits N - 3)) ltac:(lia)). nia.
Qed.

(** ** Proof of work *)

Lemma compact_pack_u32 s m : 0 <= s <= 33 -> 0 <= m < 2 ^ 23 -> is_u32 (m + s * 2 ^ 24).
Proof. unfold is_u32. lia. Qed.

Lemma compact_value_nonneg c : is_u32 c -> 0 <= compact_value c.
Proof.
  intros Hc. destruct (compact_fields c Hc) as (_ & _ & _ & Hs & Hm). unfold compact_value. case_ifs; bool_to_prop.
  - apply Z.div_pos; [lia|]. apply Z.pow_pos_nonneg; lia.
  - apply Z.mul_nonneg_nonneg; [lia|]. apply Z.pow_nonneg. lia.
Qed.

(** no compact target is the largest 256-bit number, so [bnTarget + 1] never wraps to 0 *)
Lemma compact_value_not_max c : is_u32 c -> compact_value c <> 2 ^ 256 - 1.
Proof.
  intros Hc. destruct (compact_fields c Hc) as (_ & _ & _ & Hs & Hm). unfold compact_value. case_ifs; bool_to_prop.
  - assert (1 <= 256 ^ (3 - compact_size c)) by (apply (Z.pow_le_mono_r 256 0); lia).
    pose proof (Z.div_le_upper_bound (compact_mantissa c) (256 ^ (3 - compact_size c)) (2 ^ 23) ltac:(lia) ltac:(nia)). lia.
  - replace (compact_size c - 3) with (compact_size c - 4 + 1) by lia.
    rewrite Z.pow_add_r, Z.pow_1_r, Z.mul_assoc by lia.
    intros Emax. apply (f_equal (fun z => z mod 256)) in Emax. rewrite Z.mod_mul in Emax by lia. done.
Qed.

(** [SetCompact_spec] as the users read it: the value is exact unless it overflows *)
Lemma SetCompact_cases c : is_u32 c -> exists t,
  SetCompact c = (t, compact_sign c && negb (compact_value c =? 0), 2 ^ 256 <=? compact_value c) /\
  uwf 8 t /\ (compact_value c < 2 ^ 256 -> uval t = compact_value c).
Proof.
  intros Hc. pose proof (SetCompact_spec c Hc) as H. pose proof (compact_value_nonneg c Hc).
  destruct (SetCompact c) as [[t n] o]. destruct H as (Ht & Hv & -> & ->). exists t.
  split; [done|]. split; [done|]. intros Hlt. rewrite Hv. apply Z.mod_small. lia.
Qed.

Lemma GetBlockProof_spec c : is_u32 c ->
  exists p, GetBlockProof c = Some p /\ uwf 8 p /\
    uval p = if compact_sign c || (compact_value c =? 0) || (2 ^ 256 <=? compact_value c) then 0
             else 2 ^ 256 / (compact_value c + 1).
Proof.
  intros Hc. unfold GetBlockProof. destruct (SetCompact_cases c Hc) as (t & -> & Ht & Hv).
  pose proof (compact_value_nonneg c Hc). pose proof (compact_value_not_max c Hc).
  destruct (uval_of_u64 8 0 ltac:(lia) ltac:(unfold is_u64; lia)) as [Hz Ez].
  rewrite (EqualTo_spec 8) by (done || unfold is_u64; lia).
  destruct (Z.leb_spec (2 ^ 256) (compact_value c)) as [Hov|Hov]; [rewrite !orb_true_r; eauto|].
  rewrite (Hv Hov), !orb_false_r. set (T := compact_value c) in *.
  destruct (Z.eqb_spec T 0) as [E|E]; [rewrite !orb_true_r; eauto|].
  rewrite andb_true_r, !orb_false_r. destruct (compact_sign c); [eauto|]. simpl.
  destruct (uval_not 8 t Ht) as [Hn En].
  destruct (uval_add_u64 8 t 1 ltac:(lia) Ht ltac:(unfold is_u64; lia)) as [Ha Ea].
  rewrite (Hv Hov), modulus_8 in En, Ea. rewrite Z.mod_small in Ea by lia.
  pose proof (uval_div 8 _ _ Hn Ha) as Hd. rewrite En, Ea in Hd.
  destruct (Uint.div _ _) as [q|]; [|lia]. destruct Hd as (_ & Hq & Eq). simpl.
  destruct (uval_add_u64 8 q 1 ltac:(lia) Hq ltac:(unfold is_u64; lia)) as [Hq1 Eq1].
  exists (Uint.add_u64 q 1). split; [done|]. split; [done|]. rewrite Eq1, Eq, modulus_8.
  replace (2 ^ 256 - 1 - T) with (2 ^ 256 + (-1) * (T + 1)) by lia. rewrite Z.div_add by lia.
  rewrite Z.mod_small; [lia|].
  pose proof (Z.div_pos (2 ^ 256) (T + 1) ltac:(lia) ltac:(lia)).
  pose proof (Z.div_lt (2 ^ 256) (T + 1) ltac:(lia) ltac:(lia)). lia.
Qed.

(** a 32-byte blob: what the hash and the proof-of-work limit are *)
Definition is_blob (b : list Z) : Prop := length b = 32%nat /\ Forall is_u8 b.

Lemma UintToArith256_wf b : Forall is_u8 b -> uwf 8 (Uint.UintToArith256 8 b).
Proof.
  intros Hb. split; [done|]. apply Forall_forall. intros x Hx.
  apply list_elem_of_In, in_map_iff in Hx as (j & <- & _). unfold Uint.ReadLE32.
  assert (H : forall i, 0 <= drop (j * 4) b !!! i < 256).
  { intros i. destruct (decide (i < length (drop (j * 4) b))%nat) as [Hi|Hi].
    - apply (Forall_lookup_total_1 is_u8); [by apply Forall_drop | done].
    - rewrite lookup_total_ge by lia. lia. }
  pose proof (H 0%nat). pose proof (H 1%nat). pose proof (H 2%nat). pose proof (H 3%nat). unfold is_u32. lia.
Qed.

Definition blob_value (b : list Z) : Z := uval (Uint.UintToArith256 8 b).

(** ** Properties *)

(** [SetCompact] decodes every 32-bit word to [mantissa * 256^(size-3)]
    (rounded down for sizes below 3) modulo [2^256]; the overflow flag is raised
    exactly when that number does not fit in 256 bits and the negative flag
    exactly when the sign bit is set and the number is not zero. *)
Theorem SetCompact_denotes c :
  is_u32 c ->
  let '(t, fNegative, fOverflow) := SetCompact c in
  uwf 8 t /\ uval t = compact_value c mod 2 ^ 256 /\
  fNegative = compact_sign c && negb (compact_value c =? 0) /\
  fOverflow = (2 ^ 256 <=? compact_value c).
Proof. apply SetCompact_spec. Qed.

Lemma SetCompact_denotes_witness :
  let '(t, fNegative, fOverflow) := SetCompact 0x1d00ffff in
  uwf 8 t /\ uval t = compact_value 0x1d00ffff mod 2 ^ 256 /\
  fNegative = compact_sign 0x1d00ffff && negb (compact_value 0x1d00ffff =? 0) /\
  fOverflow = (2 ^ 256 <=? compact_value 0x1d00ffff).
Proof. apply (SetCompact_denotes 0x1d00ffff). unfold is_u32. lia. Defined.

(** Encoding a target never trips an assertion, gives a 32-bit word that
    decodes without flags to a value not above the target and within
    [2^-15] of it, and re-encoding that value gives the same word. *)
Theorem compact_roundtrip a :
  uwf 8 a ->
  exists c t, GetCompact a false = Some c /\ is_u32 c /\ SetCompact c = (t, false, false) /\
    uwf 8 t /\ uval t <= uval a /\ (uval a = 0 \/ (uval a - uval t) * 2 ^ 15 < uval a) /\
    GetCompact t false = Some c.
Proof.
  intros Ha. pose proof (uval_range 8 a Ha) as Hr. rewrite modulus_8 in Hr.
  pose proof (compact_of_value _ Hr) as Hv. pose proof (compact_of_round _ Hr) as Hi.
  pose proof (compact_of_bound _ Hr) as Hb. destruct (compact_of (uval a)) as [s m] eqn:E.
  cbn [fst snd] in Hv. destruct Hb as [Hs Hm]. pose proof (compact_pack_u32 s m Hs Hm) as Hu.
  assert (Hle : compact_round (uval a) <= uval a /\ (uval a = 0 \/ (uval a - compact_round (uval a)) * 2 ^ 15 < uval a)).
  { destruct (Z.eq_dec (uval a) 0) as [->|H0]; [split; [done|by left]|].
    destruct (compact_round_log2 (uval a) ltac:(lia)) as [H _]. split; [lia|right].
    apply compact_round_precision. lia. }
  destruct (SetCompact_cases _ Hu) as (t & Et & Ht & Evt). rewrite Hv in Et, Evt.
  specialize (Evt ltac:(lia)). destruct (compact_pack s m Hm) as (_ & _ & Eg). rewrite Eg in Et.
  rewrite (proj2 (Z.leb_gt _ _)) in Et by lia.
  exists (m + s * 2 ^ 24), t. rewrite (GetCompact_spec a), E, (GetCompact_spec t), Evt, Hi by done.
  simpl. rewrite Z.add_0_r. destruct Hle. auto 10.
Qed.

Lemma compact_roundtrip_witness :
  exists c t, GetCompact sample_b false = Some c /\ is_u32 c /\ SetCompact c = (t, false, false) /\
    uwf 8 t /\ uval t <= uval sample_b /\
    (uval sample_b = 0 \/ (uval sample_b - uval t) * 2 ^ 15 < uval sample_b) /\
    GetCompact t false = Some c.
Proof. exact (compact_roundtrip sample_b sample_b_wf). Defined.

(** A block hash passes [CheckProofOfWork] exactly when the claimed target is
    positive, within the proof-of-work limit, and not below the hash. *)
Theorem CheckProofOfWork_correct hash nBits powLimit :
  is_blob hash -> is_blob powLimit -> is_u32 nBits ->
  CheckProofOfWork hash nBits powLimit = true <->
  compact_sign nBits = false /\ 0 < compact_value nBits <= blob_value powLimit /\
  blob_value hash <= compact_value nBits.
Proof.
  intros [_ Hh] [_ Hl] Hc. apply UintToArith256_wf in Hh, Hl. unfold CheckProofOfWork, blob_value.
  pose proof (uval_range 8 _ Hh) as Rh. pose proof (uval_range 8 _ Hl) as Rl. rewrite modulus_8 in *.
  destruct (SetCompact_cases nBits Hc) as (t & -> & Ht & Hv). pose proof (compact_value_nonneg nBits Hc).
  rewrite (EqualTo_spec 8), !(CompareTo_gt 8) by (done || unfold is_u64; lia).
  destruct (Z.leb_spec (2 ^ 256) (compact_value nBits)) as [Hov|Hov].
  { rewrite orb_true_r, orb_true_l. split; [done|]. intros (_ & [_ Hle] & _). lia. }
  rewrite (Hv Hov), orb_false_r.
  destruct (compact_sign nBits), (Z.eqb_spec (compact_value nBits) 0); cbn [andb orb negb]; case_ifs; bool_to_prop;
    split; intros; try done; lia.
Qed.

Lemma CheckProofOfWork_correct_witness :
  CheckProofOfWork (replicate 32 0) 0x1d00ffff (replicate 32 255) = true <->
  compact_sign 0x1d00ffff = false /\ 0 < compact_value 0x1d00ffff <= blob_value (replicate 32 255) /\
  blob_value (replicate 32 0) <= compact_value 0x1d00ffff.
Proof.
  apply (CheckProofOfWork_correct (replicate 32 0) 0x1d00ffff (replicate 32 255)).
  - split; [done|]. apply Forall_replicate. unfold is_u8. lia.
  - split; [done|]. apply Forall_replicate. unfold is_u8. lia.
  - unfold is_u32. lia.
Defined.

(** [GetBlockProof] never throws, and is the expected number of hashes
    [2^256 / (target + 1)] for a valid target and 0 for an invalid one,
    although [2^256] itself is not representable. *)
Theorem GetBlockProof_is_work c :
  is_u32 c ->
  exists p, GetBlockProof c = Some p /\ uwf 8 p /\
    uval p = if compact_sign c || (compact_value c =? 0) || (2 ^ 256 <=? compact_value c) then 0
             else 2 ^ 256 / (compact_value c + 1).
Proof. apply GetBlockProof_spec. Qed.

Lemma GetBlockProof_is_work_witness :
  exists p, GetBlockProof 0x1d00ffff = Some p /\ uwf 8 p /\
    uval p = if compact_sign 0x1d00ffff || (compact_value 0x1d00ffff =? 0) || (2 ^ 256 <=? compact_value 0x1d00ffff) then 0
             else 2 ^ 256 / (compact_value 0x1d00ffff + 1).
Proof. apply (GetBlockProof_is_work 0x1d00ffff). unfold is_u32. lia. Defined.
