(* ===== verification/Opcodes.v ===== *)
(** * Script opcodes (script/script.h [opcodetype], script/script.cpp [GetOpName])

    The enumerators of the source are the constructors of [opcodetype].  A byte of
    a script need not be one of them, so the interpreter works on the byte and
    [opcode_of] is the enumerator a [switch] on it selects; [opcode_value] is the
    coercion the source applies when it compares an opcode with a number. *)

From Stdlib Require Import String.
From S2P Require Import Prelude.

Inductive opcodetype :=
  | OP_0 | OP_PUSHDATA1 | OP_PUSHDATA2 | OP_PUSHDATA4 | OP_1NEGATE | OP_RESERVED | OP_1 | OP_2
  | OP_3 | OP_4 | OP_5 | OP_6 | OP_7 | OP_8 | OP_9 | OP_10 | OP_11 | OP_12 | OP_13 | OP_14 | OP_15
  | OP_16
  | OP_NOP | OP_VER | OP_IF | OP_NOTIF | OP_VERIF | OP_VERNOTIF | OP_ELSE | OP_ENDIF | OP_VERIFY
  | OP_RETURN
  | OP_TOALTSTACK | OP_FROMALTSTACK | OP_2DROP | OP_2DUP | OP_3DUP | OP_2OVER | OP_2ROT | OP_2SWAP
  | OP_IFDUP | OP_DEPTH | OP_DROP | OP_DUP | OP_NIP | OP_OVER | OP_PICK | OP_ROLL | OP_ROT
  | OP_SWAP | OP_TUCK
  | OP_CAT | OP_SUBSTR | OP_LEFT | OP_RIGHT | OP_SIZE
  | OP_INVERT | OP_AND | OP_OR | OP_XOR | OP_EQUAL | OP_EQUALVERIFY | OP_RESERVED1 | OP_RESERVED2
  | OP_1ADD | OP_1SUB | OP_2MUL | OP_2DIV | OP_NEGATE | OP_ABS | OP_NOT | OP_0NOTEQUAL
  | OP_ADD | OP_SUB | OP_MUL | OP_DIV | OP_MOD | OP_LSHIFT | OP_RSHIFT
  | OP_BOOLAND | OP_BOOLOR | OP_NUMEQUAL | OP_NUMEQUALVERIFY | OP_NUMNOTEQUAL | OP_LESSTHAN
  | OP_GREATERTHAN | OP_LESSTHANOREQUAL | OP_GREATERTHANOREQUAL | OP_MIN | OP_MAX
  | OP_WITHIN
  | OP_RIPEMD160 | OP_SHA1 | OP_SHA256 | OP_HASH160 | OP_HASH256 | OP_CODESEPARATOR | OP_CHECKSIG
  | OP_CHECKSIGVERIFY | OP_CHECKMULTISIG | OP_CHECKMULTISIGVERIFY
  | OP_NOP1 | OP_CHECKLOCKTIMEVERIFY | OP_CHECKSEQUENCEVERIFY | OP_NOP4 | OP_NOP5 | OP_NOP6
  | OP_NOP7 | OP_NOP8 | OP_NOP9 | OP_NOP10
  | OP_BLKR_ASSET
  | OP_SMALLINTEGER | OP_PUBKEYS | OP_PUBKEYHASH | OP_PUBKEY
  | OP_INVALIDOPCODE.

#[global] Instance opcodetype_eq_dec : EqDecision opcodetype.
Proof. solve_decision. Defined.

(** the enumerator values *)
Definition opcode_value (op : opcodetype) : Z :=
  match op with
  | OP_0 => 0x00 | OP_PUSHDATA1 => 0x4c | OP_PUSHDATA2 => 0x4d | OP_PUSHDATA4 => 0x4e
  | OP_1NEGATE => 0x4f | OP_RESERVED => 0x50 | OP_1 => 0x51 | OP_2 => 0x52 | OP_3 => 0x53
  | OP_4 => 0x54 | OP_5 => 0x55 | OP_6 => 0x56 | OP_7 => 0x57 | OP_8 => 0x58 | OP_9 => 0x59
  | OP_10 => 0x5a | OP_11 => 0x5b | OP_12 => 0x5c | OP_13 => 0x5d | OP_14 => 0x5e | OP_15 => 0x5f
  | OP_16 => 0x60 | OP_NOP => 0x61 | OP_VER => 0x62 | OP_IF => 0x63 | OP_NOTIF => 0x64
  | OP_VERIF => 0x65 | OP_VERNOTIF => 0x66 | OP_ELSE => 0x67 | OP_ENDIF => 0x68 | OP_VERIFY => 0x69
  | OP_RETURN => 0x6a | OP_TOALTSTACK => 0x6b | OP_FROMALTSTACK => 0x6c | OP_2DROP => 0x6d
  | OP_2DUP => 0x6e | OP_3DUP => 0x6f | OP_2OVER => 0x70 | OP_2ROT => 0x71 | OP_2SWAP => 0x72
  | OP_IFDUP => 0x73 | OP_DEPTH => 0x74 | OP_DROP => 0x75 | OP_DUP => 0x76 | OP_NIP => 0x77
  | OP_OVER => 0x78 | OP_PICK => 0x79 | OP_ROLL => 0x7a | OP_ROT => 0x7b | OP_SWAP => 0x7c
  | OP_TUCK => 0x7d | OP_CAT => 0x7e | OP_SUBSTR => 0x7f | OP_LEFT => 0x80 | OP_RIGHT => 0x81
  | OP_SIZE => 0x82 | OP_INVERT => 0x83 | OP_AND => 0x84 | OP_OR => 0x85 | OP_XOR => 0x86
  | OP_EQUAL => 0x87 | OP_EQUALVERIFY => 0x88 | OP_RESERVED1 => 0x89 | OP_RESERVED2 => 0x8a
  | OP_1ADD => 0x8b | OP_1SUB => 0x8c | OP_2MUL => 0x8d | OP_2DIV => 0x8e | OP_NEGATE => 0x8f
  | OP_ABS => 0x90 | OP_NOT => 0x91 | OP_0NOTEQUAL => 0x92 | OP_ADD => 0x93 | OP_SUB => 0x94
  | OP_MUL => 0x95 | OP_DIV => 0x96 | OP_MOD => 0x97 | OP_LSHIFT => 0x98 | OP_RSHIFT => 0x99
  | OP_BOOLAND => 0x9a | OP_BOOLOR => 0x9b | OP_NUMEQUAL => 0x9c | OP_NUMEQUALVERIFY => 0x9d
  | OP_NUMNOTEQUAL => 0x9e | OP_LESSTHAN => 0x9f | OP_GREATERTHAN => 0xa0
  | OP_LESSTHANOREQUAL => 0xa1 | OP_GREATERTHANOREQUAL => 0xa2 | OP_MIN => 0xa3 | OP_MAX => 0xa4
  | OP_WITHIN => 0xa5 | OP_RIPEMD160 => 0xa6 | OP_SHA1 => 0xa7 | OP_SHA256 => 0xa8
  | OP_HASH160 => 0xa9 | OP_HASH256 => 0xaa | OP_CODESEPARATOR => 0xab | OP_CHECKSIG => 0xac
  | OP_CHECKSIGVERIFY => 0xad | OP_CHECKMULTISIG => 0xae | OP_CHECKMULTISIGVERIFY => 0xaf
  | OP_NOP1 => 0xb0 | OP_CHECKLOCKTIMEVERIFY => 0xb1 | OP_CHECKSEQUENCEVERIFY => 0xb2
  | OP_NOP4 => 0xb3 | OP_NOP5 => 0xb4 | OP_NOP6 => 0xb5 | OP_NOP7 => 0xb6 | OP_NOP8 => 0xb7
  | OP_NOP9 => 0xb8 | OP_NOP10 => 0xb9 | OP_BLKR_ASSET => 0xc0 | OP_SMALLINTEGER => 0xfa
  | OP_PUBKEYS => 0xfb | OP_PUBKEYHASH => 0xfd | OP_PUBKEY => 0xfe | OP_INVALIDOPCODE => 0xff
  end.

#[global] Coercion opcode_value : opcodetype >-> Z.
#[global] Arguments opcode_value : simpl never.

(** the enumerators that name an existing value *)
Abbreviation OP_FALSE := OP_0.
Abbreviation OP_TRUE := OP_1.
Abbreviation OP_NOP2 := OP_CHECKLOCKTIMEVERIFY.
Abbreviation OP_NOP3 := OP_CHECKSEQUENCEVERIFY.

(** the enumerator a byte is cast to, if it has one *)
Definition opcode_of (b : Z) : option opcodetype :=
  match b with
  | 0x00 => Some OP_0 | 0x4c => Some OP_PUSHDATA1 | 0x4d => Some OP_PUSHDATA2
  | 0x4e => Some OP_PUSHDATA4 | 0x4f => Some OP_1NEGATE | 0x50 => Some OP_RESERVED
  | 0x51 => Some OP_1 | 0x52 => Some OP_2 | 0x53 => Some OP_3 | 0x54 => Some OP_4
  | 0x55 => Some OP_5 | 0x56 => Some OP_6 | 0x57 => Some OP_7 | 0x58 => Some OP_8
  | 0x59 => Some OP_9 | 0x5a => Some OP_10 | 0x5b => Some OP_11 | 0x5c => Some OP_12
  | 0x5d => Some OP_13 | 0x5e => Some OP_14 | 0x5f => Some OP_15 | 0x60 => Some OP_16
  | 0x61 => Some OP_NOP | 0x62 => Some OP_VER | 0x63 => Some OP_IF | 0x64 => Some OP_NOTIF
  | 0x65 => Some OP_VERIF | 0x66 => Some OP_VERNOTIF | 0x67 => Some OP_ELSE | 0x68 => Some OP_ENDIF
  | 0x69 => Some OP_VERIFY | 0x6a => Some OP_RETURN | 0x6b => Some OP_TOALTSTACK
  | 0x6c => Some OP_FROMALTSTACK | 0x6d => Some OP_2DROP | 0x6e => Some OP_2DUP
  | 0x6f => Some OP_3DUP | 0x70 => Some OP_2OVER | 0x71 => Some OP_2ROT | 0x72 => Some OP_2SWAP
  | 0x73 => Some OP_IFDUP | 0x74 => Some OP_DEPTH | 0x75 => Some OP_DROP | 0x76 => Some OP_DUP
  | 0x77 => Some OP_NIP | 0x78 => Some OP_OVER | 0x79 => Some OP_PICK | 0x7a => Some OP_ROLL
  | 0x7b => Some OP_ROT | 0x7c => Some OP_SWAP | 0x7d => Some OP_TUCK | 0x7e => Some OP_CAT
  | 0x7f => Some OP_SUBSTR | 0x80 => Some OP_LEFT | 0x81 => Some OP_RIGHT | 0x82 => Some OP_SIZE
  | 0x83 => Some OP_INVERT | 0x84 => Some OP_AND | 0x85 => Some OP_OR | 0x86 => Some OP_XOR
  | 0x87 => Some OP_EQUAL | 0x88 => Some OP_EQUALVERIFY | 0x89 => Some OP_RESERVED1
  | 0x8a => Some OP_RESERVED2 | 0x8b => Some OP_1ADD | 0x8c => Some OP_1SUB | 0x8d => Some OP_2MUL
  | 0x8e => Some OP_2DIV | 0x8f => Some OP_NEGATE | 0x90 => Some OP_ABS | 0x91 => Some OP_NOT
  | 0x92 => Some OP_0NOTEQUAL | 0x93 => Some OP_ADD | 0x94 => Some OP_SUB | 0x95 => Some OP_MUL
  | 0x96 => Some OP_DIV | 0x97 => Some OP_MOD | 0x98 => Some OP_LSHIFT | 0x99 => Some OP_RSHIFT
  | 0x9a => Some OP_BOOLAND | 0x9b => Some OP_BOOLOR | 0x9c => Some OP_NUMEQUAL
  | 0x9d => Some OP_NUMEQUALVERIFY | 0x9e => Some OP_NUMNOTEQUAL | 0x9f => Some OP_LESSTHAN
  | 0xa0 => Some OP_GREATERTHAN | 0xa1 => Some OP_LESSTHANOREQUAL
  | 0xa2 => Some OP_GREATERTHANOREQUAL | 0xa3 => Some OP_MIN | 0xa4 => Some OP_MAX
  | 0xa5 => Some OP_WITHIN | 0xa6 => Some OP_RIPEMD160 | 0xa7 => Some OP_SHA1
  | 0xa8 => Some OP_SHA256 | 0xa9 => Some OP_HASH160 | 0xaa => Some OP_HASH256
  | 0xab => Some OP_CODESEPARATOR | 0xac => Some OP_CHECKSIG | 0xad => Some OP_CHECKSIGVERIFY
  | 0xae => Some OP_CHECKMULTISIG | 0xaf => Some OP_CHECKMULTISIGVERIFY | 0xb0 => Some OP_NOP1
  | 0xb1 => Some OP_CHECKLOCKTIMEVERIFY | 0xb2 => Some OP_CHECKSEQUENCEVERIFY
  | 0xb3 => Some OP_NOP4 | 0xb4 => Some OP_NOP5 | 0xb5 => Some OP_NOP6 | 0xb6 => Some OP_NOP7
  | 0xb7 => Some OP_NOP8 | 0xb8 => Some OP_NOP9 | 0xb9 => Some OP_NOP10
  | 0xc0 => Some OP_BLKR_ASSET | 0xfa => Some OP_SMALLINTEGER | 0xfb => Some OP_PUBKEYS
  | 0xfd => Some OP_PUBKEYHASH | 0xfe => Some OP_PUBKEY | 0xff => Some OP_INVALIDOPCODE
  | _ => None
  end.

(** [MAX_OPCODE] *)
Definition MAX_OPCODE : Z := OP_NOP10.

(** [GetOpName(opcode)] *)
Definition GetOpName (opcode : Z) : string :=
  match opcode_of opcode with
  | Some OP_0 => "0" | Some OP_PUSHDATA1 => "OP_PUSHDATA1" | Some OP_PUSHDATA2 => "OP_PUSHDATA2"
  | Some OP_PUSHDATA4 => "OP_PUSHDATA4" | Some OP_1NEGATE => "-1" | Some OP_RESERVED => "OP_RESERVED"
  | Some OP_1 => "1" | Some OP_2 => "2" | Some OP_3 => "3" | Some OP_4 => "4" | Some OP_5 => "5"
  | Some OP_6 => "6" | Some OP_7 => "7" | Some OP_8 => "8" | Some OP_9 => "9" | Some OP_10 => "10"
  | Some OP_11 => "11" | Some OP_12 => "12" | Some OP_13 => "13" | Some OP_14 => "14" | Some OP_15 => "15"
  | Some OP_16 => "16" | Some OP_NOP => "OP_NOP" | Some OP_VER => "OP_VER" | Some OP_IF => "OP_IF"
  | Some OP_NOTIF => "OP_NOTIF" | Some OP_VERIF => "OP_VERIF" | Some OP_VERNOTIF => "OP_VERNOTIF"
  | Some OP_ELSE => "OP_ELSE" | Some OP_ENDIF => "OP_ENDIF" | Some OP_VERIFY => "OP_VERIFY"
  | Some OP_RETURN => "OP_RETURN" | Some OP_TOALTSTACK => "OP_TOALTSTACK"
  | Some OP_FROMALTSTACK => "OP_FROMALTSTACK" | Some OP_2DROP => "OP_2DROP" | Some OP_2DUP => "OP_2DUP"
  | Some OP_3DUP => "OP_3DUP" | Some OP_2OVER => "OP_2OVER" | Some OP_2ROT => "OP_2ROT"
  | Some OP_2SWAP => "OP_2SWAP" | Some OP_IFDUP => "OP_IFDUP" | Some OP_DEPTH => "OP_DEPTH"
  | Some OP_DROP => "OP_DROP" | Some OP_DUP => "OP_DUP" | Some OP_NIP => "OP_NIP" | Some OP_OVER => "OP_OVER"
  | Some OP_PICK => "OP_PICK" | Some OP_ROLL => "OP_ROLL" | Some OP_ROT => "OP_ROT"
  | Some OP_SWAP => "OP_SWAP" | Some OP_TUCK => "OP_TUCK" | Some OP_CAT => "OP_CAT"
  | Some OP_SUBSTR => "OP_SUBSTR" | Some OP_LEFT => "OP_LEFT" | Some OP_RIGHT => "OP_RIGHT"
  | Some OP_SIZE => "OP_SIZE" | Some OP_INVERT => "OP_INVERT" | Some OP_AND => "OP_AND"
  | Some OP_OR => "OP_OR" | Some OP_XOR => "OP_XOR" | Some OP_EQUAL => "OP_EQUAL"
  | Some OP_EQUALVERIFY => "OP_EQUALVERIFY" | Some OP_RESERVED1 => "OP_RESERVED1"
  | Some OP_RESERVED2 => "OP_RESERVED2" | Some OP_1ADD => "OP_1ADD" | Some OP_1SUB => "OP_1SUB"
  | Some OP_2MUL => "OP_2MUL" | Some OP_2DIV => "OP_2DIV" | Some OP_NEGATE => "OP_NEGATE"
  | Some OP_ABS => "OP_ABS" | Some OP_NOT => "OP_NOT" | Some OP_0NOTEQUAL => "OP_0NOTEQUAL"
  | Some OP_ADD => "OP_ADD" | Some OP_SUB => "OP_SUB" | Some OP_MUL => "OP_MUL" | Some OP_DIV => "OP_DIV"
  | Some OP_MOD => "OP_MOD" | Some OP_LSHIFT => "OP_LSHIFT" | Some OP_RSHIFT => "OP_RSHIFT"
  | Some OP_BOOLAND => "OP_BOOLAND" | Some OP_BOOLOR => "OP_BOOLOR" | Some OP_NUMEQUAL => "OP_NUMEQUAL"
  | Some OP_NUMEQUALVERIFY => "OP_NUMEQUALVERIFY" | Some OP_NUMNOTEQUAL => "OP_NUMNOTEQUAL"
  | Some OP_LESSTHAN => "OP_LESSTHAN" | Some OP_GREATERTHAN => "OP_GREATERTHAN"
  | Some OP_LESSTHANOREQUAL => "OP_LESSTHANOREQUAL" | Some OP_GREATERTHANOREQUAL => "OP_GREATERTHANOREQUAL"
  | Some OP_MIN => "OP_MIN" | Some OP_MAX => "OP_MAX" | Some OP_WITHIN => "OP_WITHIN"
  | Some OP_RIPEMD160 => "OP_RIPEMD160" | Some OP_SHA1 => "OP_SHA1" | Some OP_SHA256 => "OP_SHA256"
  | Some OP_HASH160 => "OP_HASH160" | Some OP_HASH256 => "OP_HASH256"
  | Some OP_CODESEPARATOR => "OP_CODESEPARATOR" | Some OP_CHECKSIG => "OP_CHECKSIG"
  | Some OP_CHECKSIGVERIFY => "OP_CHECKSIGVERIFY" | Some OP_CHECKMULTISIG => "OP_CHECKMULTISIG"
  | Some OP_CHECKMULTISIGVERIFY => "OP_CHECKMULTISIGVERIFY" | Some OP_NOP1 => "OP_NOP1"
  | Some OP_CHECKLOCKTIMEVERIFY => "OP_CHECKLOCKTIMEVERIFY"
  | Some OP_CHECKSEQUENCEVERIFY => "OP_CHECKSEQUENCEVERIFY" | Some OP_NOP4 => "OP_NOP4"
  | Some OP_NOP5 => "OP_NOP5" | Some OP_NOP6 => "OP_NOP6" | Some OP_NOP7 => "OP_NOP7"
  | Some OP_NOP8 => "OP_NOP8" | Some OP_NOP9 => "OP_NOP9" | Some OP_NOP10 => "OP_NOP10"
  | Some OP_BLKR_ASSET => "OP_BLKR_ASSET" | Some OP_INVALIDOPCODE => "OP_INVALIDOPCODE"
  | _ => "OP_UNKNOWN"
  end%string.

Lemma opcode_of_value op : opcode_of (opcode_value op) = Some op.
Proof. by destruct op. Qed.

(** the byte values are checked one by one: there are 256 of them *)
Lemma opcode_of_Some b op : is_u8 b -> opcode_of b = Some op -> b = opcode_value op.
Proof.
  intros Hb H.
  assert (Hall : forallb (fun n => match opcode_of (Z.of_nat n) with
                                   | Some o => opcode_value o =? Z.of_nat n | None => true end) (seq 0 256) = true)
    by (vm_compute; reflexivity).
  rewrite forallb_forall in Hall. specialize (Hall (Z.to_nat b)). unfold is_u8 in Hb.
  rewrite Z2Nat.id, H in Hall by lia. symmetry. apply Z.eqb_eq, Hall, in_seq. lia.
Qed.

Lemma opcode_value_u8 op : is_u8 (opcode_value op).
Proof. destruct op; unfold is_u8, opcode_value; lia. Qed.

Lemma opcode_value_inj op1 op2 : opcode_value op1 = opcode_value op2 -> op1 = op2.
Proof. intros H. apply (f_equal opcode_of) in H. rewrite !opcode_of_value in H. congruence. Qed.
