(* ===== verification/ScriptNum.v ===== *)
(** * Script numbers (script/script.h [CScriptNum])

    A script number is a byte vector read as a little-endian magnitude whose top
    bit is the sign.  Arithmetic is on [int64_t]; operands are limited to four
    bytes (five for lock times), results are not. *)

From S2P Require Import Prelude.

(** ** Definitions *)

(** [vch.back()] of a vector that is not empty *)
Definition back (vch : list Z) : Z := default 0 (last vch).

Module ScriptNum.

Definition nDefaultMaxNumSize : Z := 4.

(** the loop [while(absvalue)] of [serialize]; a [uint64_t] has eight bytes *)
Fixpoint abs_bytes (n : nat) (absvalue : Z) : list Z :=
  match n with
  | O => []
  | S n => if absvalue =? 0 then [] else Z.land absvalue 0xff :: abs_bytes n (Z.shiftr absvalue 8)
  end.

(** [result.back() |= 0x80] *)
Definition set_sign (result : list Z) : list Z :=
  <[pred (length result) := Z.lor (back result) 0x80]> result.

(** [serialize(value)] *)
Definition serialize (value : Z) : list Z :=
  if value =? 0 then []
  else
    let neg := value <? 0 in
    let absvalue := u64 (if neg then - value else value) in
    let result := abs_bytes 8 absvalue in
    if negb (Z.land (back result) 0x80 =? 0) then result ++ [if neg then 0x80 else 0]
    else if neg then set_sign result
    else result.

(** [set_vch(vch)] *)
Definition set_vch (vch : list Z) : Z :=
  if zlen vch =? 0 then 0
  else
    let result := for_loop (length vch)
      (fun i result => Z.lor result (i64 (Z.shiftl (vch !!! i) (8 * Z.of_nat i)))) 0 in
    if negb (Z.land (back vch) 0x80 =? 0)
    then - (i64 (Z.land (u64 result) (u64 (Z.lnot (u64 (Z.shiftl 0x80 (8 * (zlen vch - 1))))))))
    else result.

(** [CScriptNum(vch, fRequireMinimal, nMaxNumSize)]; [None] when it throws *)
Definition CScriptNum (vch : list Z) (fRequireMinimal : bool) (nMaxNumSize : Z) : option Z :=
  if zlen vch >? nMaxNumSize then None
  else if fRequireMinimal && (zlen vch >? 0) && (Z.land (back vch) 0x7f =? 0) &&
          ((zlen vch <=? 1) || (Z.land (vch !!! (length vch - 2)%nat) 0x80 =? 0))
  then None
  else Some (set_vch vch).

(** [operator+=], [operator-=] and [operator-()]; [None] when the assertion fails *)
Definition add_assign (m_value rhs : Z) : option Z :=
  if (rhs =? 0) || ((rhs >? 0) && (m_value <=? INT64_MAX - rhs)) || ((rhs <? 0) && (m_value >=? INT64_MIN - rhs))
  then Some (i64 (m_value + rhs)) else None.

Definition sub_assign (m_value rhs : Z) : option Z :=
  if (rhs =? 0) || ((rhs >? 0) && (m_value >=? INT64_MIN + rhs)) || ((rhs <? 0) && (m_value <=? INT64_MAX + rhs))
  then Some (i64 (m_value - rhs)) else None.

Definition negate (m_value : Z) : option Z :=
  if negb (m_value =? INT64_MIN) then Some (i64 (- m_value)) else None.

(** [operator+] and [operator-], without assertion *)
Definition add (m_value rhs : Z) : Z := i64 (m_value + rhs).
Definition sub (m_value rhs : Z) : Z := i64 (m_value - rhs).

(** [getint()] *)
Definition getint (m_value : Z) : Z :=
  if m_value >? INT_MAX then INT_MAX
  else if m_value <? - INT_MAX - 1 then - INT_MAX - 1
  else m_value.

(** [getvch()] *)
Definition getvch (m_value : Z) : list Z := serialize m_value.

End ScriptNum.

Import ScriptNum.

(** ** Little-endian values *)

Fixpoint le_val (l : list Z) : Z :=
  match l with
  | [] => 0
  | x :: l => x + 256 * le_val l
  end.

Definition bytes (l : list Z) : Prop := Forall is_u8 l.

Lemma le_val_range l : bytes l -> 0 <= le_val l < 256 ^ zlen l.
Proof.
  induction 1 as [|x l Hx Hl IH]; [simpl; lia|].
  unfold is_u8 in Hx. simpl le_val. simpl length. rewrite Nat2Z.inj_succ, Z.pow_succ_r by lia. lia.
Qed.

Lemma le_val_app l k : le_val (l ++ k) = le_val l + 256 ^ zlen l * le_val k.
Proof.
  induction l as [|x l IH]; [simpl; lia|].
  simpl le_val. simpl length. rewrite IH, Nat2Z.inj_succ, Z.pow_succ_r by lia. lia.
Qed.

Lemma le_val_snoc l b : le_val (l ++ [b]) = le_val l + 256 ^ zlen l * b.
Proof. rewrite le_val_app. simpl. lia. Qed.

Lemma back_snoc l b : back (l ++ [b]) = b.
Proof. unfold back. by rewrite last_snoc. Qed.

Lemma bytes_snoc l b : bytes (l ++ [b]) <-> bytes l /\ is_u8 b.
Proof. unfold bytes. rewrite Forall_app, Forall_singleton. done. Qed.

Lemma land_80_ff b : is_u8 b ->
  (Z.land b 0x80 =? 0) = (b <? 128) /\ Z.land b 0x7f = b mod 128.
Proof.
  intros Hb. unfold is_u8 in Hb. split; [|apply (land_mask b 7); lia].
  assert (E : Z.land b 0x80 = if b <? 128 then 0 else 0x80).
  { apply Z.bits_inj'. intros j Hj. rewrite Z.land_spec.
    change 0x80 with (2 ^ 7) at 1. rewrite Z.pow2_bits_eqb by lia.
    destruct (Z.eqb_spec 7 j) as [<-|Hne].
    - rewrite andb_true_r, Z.testbit_odd, Z.shiftr_div_pow2 by lia.
      destruct (Z.ltb_spec b 128).
      + rewrite Z.div_small by lia. done.
      + replace (b / 2 ^ 7) with 1; [done|]. apply (Z.div_unique b (2 ^ 7) 1 (b - 128)); lia.
    - rewrite andb_false_r. destruct (b <? 128); [by rewrite Z.bits_0|].
      change 0x80 with (2 ^ 7). rewrite Z.pow2_bits_eqb by lia. symmetry. by apply Z.eqb_neq. }
  rewrite E. by destruct (b <? 128).
Qed.

(** the bytes of a magnitude, and that no other vector without a zero on top has it *)
Lemma abs_bytes_spec n : forall x, 0 <= x < 256 ^ Z.of_nat n ->
  le_val (abs_bytes n x) = x /\ bytes (abs_bytes n x) /\ (x <> 0 -> back (abs_bytes n x) <> 0).
Proof.
  induction n as [|n IH]; intros x Hx; [simpl in *; repeat split; [lia | constructor | lia]|].
  rewrite Nat2Z.inj_succ, Z.pow_succ_r in Hx by lia. simpl.
  destruct (Z.eqb_spec x 0) as [->|H0]; [repeat split; [constructor | done]|].
  change 0xff with (2 ^ 8 - 1). rewrite land_mask, Z.shiftr_div_pow2 by lia. change (2 ^ 8) with 256.
  pose proof (Z.div_mod x 256 ltac:(lia)) as Hdm. pose proof (Z.mod_pos_bound x 256 ltac:(lia)) as Hm.
  pose proof (Z.div_pos x 256 ltac:(lia) ltac:(lia)).
  destruct (IH (x / 256) ltac:(lia)) as (IHv & IHb & IHl).
  repeat split; [simpl; lia | constructor; [unfold is_u8; lia | done] |]. intros _.
  destruct (Z.eq_dec (x / 256) 0) as [E|E].
  - rewrite E in *. destruct n; simpl in *; unfold back; simpl; lia.
  - specialize (IHl E). unfold back in *. destruct (abs_bytes n (x / 256)); [simpl in IHl; lia|]. exact IHl.
Qed.

Lemma abs_bytes_unique n : forall l, bytes l -> (l <> [] -> back l <> 0) -> (length l <= n)%nat ->
  abs_bytes n (le_val l) = l.
Proof.
  induction n as [|n IH]; intros l Hl Hb Hn; [destruct l; [done | simpl in Hn; lia]|].
  destruct l as [|x l]; [done|]. inversion Hl as [|? ? Hx Hl']; subst. unfold is_u8 in Hx.
  pose proof (le_val_range l Hl') as Hr.
  assert (Hnz : le_val (x :: l) <> 0).
  { simpl. destruct l as [|y l] using rev_ind; [specialize (Hb ltac:(done)); unfold back in Hb; simpl in *; lia|].
    change (x :: l ++ [y]) with ((x :: l) ++ [y]) in Hb. rewrite back_snoc in Hb. specialize (Hb ltac:(by destruct l)).
    apply bytes_snoc in Hl' as [Hl1 Hy]. rewrite le_val_snoc in *. unfold is_u8 in Hy.
    pose proof (le_val_range l Hl1). assert (0 < 256 ^ zlen l) by (apply Z.pow_pos_nonneg; lia). nia. }
  cbn [abs_bytes]. rewrite (proj2 (Z.eqb_neq _ 0) Hnz). cbn [le_val].
  change 0xff with (2 ^ 8 - 1). rewrite land_mask, Z.shiftr_div_pow2 by lia. change (2 ^ 8) with 256.
  rewrite (Z.mul_comm 256), Z.mod_add, Z.div_add, (Z.mod_small x), (Z.div_small x), Z.add_0_l by lia.
  rewrite IH; [done | done | | simpl in Hn; lia].
  intros Hne. unfold back in *. destruct l; [done|]. by apply Hb.
Qed.

(** ** What a vector denotes *)

Definition signed_val (vch : list Z) : Z :=
  if 128 <=? back vch then - (le_val vch - 128 * 256 ^ (zlen vch - 1)) else le_val vch.

Lemma u64_lor a b : u64 (Z.lor a b) = Z.lor (u64 a) (u64 b).
Proof. unfold u64. rewrite <- !Z.land_ones by lia. apply Z.land_lor_distr_l. Qed.

Lemma u64_i64 x : u64 (i64 x) = u64 x.
Proof.
  unfold u64, i64, wrap_signed. rewrite Zminus_mod_idemp_l. f_equal. lia.
Qed.

Lemma i64_range x : is_i64 (i64 x).
Proof.
  unfold is_i64, i64, wrap_signed. pose proof (Z.mod_pos_bound (x + 2 ^ (64 - 1)) (2 ^ 64) ltac:(lia)).
  change (2 ^ (64 - 1)) with (2 ^ 63) in *. lia.
Qed.

Lemma i64_lor a b : is_i64 a -> is_i64 b -> is_i64 (Z.lor a b).
Proof.
  unfold is_i64. intros Ha Hb.
  assert (E : forall x, - 2 ^ 63 <= x < 2 ^ 63 <-> Z.shiftr x 63 = 0 \/ Z.shiftr x 63 = -1).
  { intros x. rewrite Z.shiftr_div_pow2 by lia. pose proof (Z.div_mod x (2 ^ 63) ltac:(lia)).
    pose proof (Z.mod_pos_bound x (2 ^ 63) ltac:(lia)). nia. }
  rewrite E in *. rewrite Z.shiftr_lor. destruct Ha as [-> | ->], Hb as [-> | ->]; auto.
Qed.

(** one byte of the loop in [set_vch] *)
Lemma set_vch_step vch i r : bytes vch -> (i < length vch <= 8)%nat ->
  is_i64 r /\ u64 r = le_val (take i vch) ->
  let r' := Z.lor r (i64 (Z.shiftl (vch !!! i) (8 * Z.of_nat i))) in
  is_i64 r' /\ u64 r' = le_val (take (S i) vch).
Proof.
  intros Hv Hi [Hr Er]. split; [apply i64_lor; [done | apply i64_range]|].
  assert (Hx : is_u8 (vch !!! i)) by (apply (Forall_lookup_total_1 is_u8); [exact Hv | apply Hi]). unfold is_u8 in Hx.
  assert (Ht : bytes (take i vch)) by (by apply Forall_take).
  pose proof (le_val_range _ Ht) as Hlt. rewrite length_take, Nat.min_l in Hlt by lia.
  rewrite (take_S_r _ _ (vch !!! i)) by (apply list_lookup_lookup_total_lt; lia).
  rewrite le_val_snoc, length_take, Nat.min_l, u64_lor, Er, u64_i64, Z.shiftl_mul_pow2 by lia.
  rewrite Z.pow_mul_r by lia. change (2 ^ 8) with 256.
  assert (256 ^ Z.of_nat i <= 256 ^ 7) by (apply Z.pow_le_mono_r; lia).
  rewrite u64_small by (unfold is_u64; nia).
  rewrite <- (Z.pow_mul_r 2 8) in * by lia. rewrite lor_disjoint_add by lia. lia.
Qed.

Lemma clear_top n x : 0 <= n -> 2 ^ n <= x < 2 ^ (n + 1) -> n < 64 ->
  Z.land x (u64 (Z.lnot (u64 (2 ^ n)))) = x - 2 ^ n.
Proof.
  intros Hn Hx H64. assert (Hp : 2 ^ n < 2 ^ 64) by (apply Z.pow_lt_mono_r; lia).
  rewrite (u64_small (2 ^ n)) by (unfold is_u64; lia). rewrite Z.pow_add_r in Hx by lia.
  assert (H0 : 0 <= x - 2 ^ n < 2 ^ n) by lia. replace x with (x - 2 ^ n + 1 * 2 ^ n) at 1 by lia.
  rewrite <- lor_disjoint_add, Z.mul_1_l by lia. unfold u64.
  apply Z.bits_inj'. intros j Hj. rewrite Z.land_spec, Z.lor_spec, Z.pow2_bits_eqb by lia.
  assert (Hhi : n <= j -> Z.testbit (x - 2 ^ n) j = false).
  { intros Hnj. rewrite <- (Z.mod_small (x - 2 ^ n) (2 ^ n)) by lia. apply Z.mod_pow2_bits_high. lia. }
  destruct (Z.lt_ge_cases j 64) as [Hj64|Hj64].
  - rewrite Z.mod_pow2_bits_low, Z.lnot_spec, Z.pow2_bits_eqb by lia.
    destruct (Z.eqb_spec n j) as [->|Hne]; [by rewrite Hhi by lia | by rewrite orb_false_r, andb_true_r].
  - rewrite Z.mod_pow2_bits_high, andb_false_r, Hhi by lia. done.
Qed.

Lemma set_vch_spec vch : bytes vch -> (length vch <= 8)%nat -> set_vch vch = signed_val vch.
Proof.
  intros Hv Hn. destruct vch as [|b l _] using rev_ind; [done|]. unfold set_vch.
  rewrite length_app in *. simpl length in *. rewrite (proj2 (Z.eqb_neq _ 0)) by lia.
  set (r := for_from _ _ _ _).
  assert (Hr : is_i64 r /\ u64 r = le_val (take (length l + 1) (l ++ [b]))).
  { apply (for_loop_inv (fun i r => is_i64 r /\ u64 r = le_val (take i (l ++ [b])))); [done|].
    intros j s Hj. apply set_vch_step; [done|]. rewrite length_app. simpl. lia. }
  clearbody r. rewrite take_ge in Hr by (rewrite length_app; simpl; lia). destruct Hr as [Hr Eu].
  apply bytes_snoc in Hv as [Hl Hb]. pose proof (le_val_range l Hl) as Hlr.
  unfold signed_val. rewrite back_snoc, length_app in *. simpl length.
  destruct (land_80_ff b Hb) as [E80 _]. rewrite E80, Z.leb_antisym. rewrite le_val_snoc in *.
  replace (Z.of_nat (length l + 1) - 1) with (zlen l) by lia. unfold is_u8 in Hb.
  assert (Hp : 0 < 256 ^ zlen l <= 256 ^ 7) by (split; [apply Z.pow_pos_nonneg | apply Z.pow_le_mono_r]; lia).
  destruct (Z.ltb_spec b 128) as [Hlt|Hge]; simpl negb; cbn match.
  - unfold is_i64, u64 in *. assert (r mod 2 ^ 64 < 2 ^ 63) by nia.
    destruct (Z.lt_ge_cases r 0) as [H0|H0]; [|rewrite Z.mod_small in Eu by lia; lia].
    rewrite <- (Z.mod_add r 1), Z.mod_small in H by lia. lia.
  - rewrite Eu, Z.shiftl_mul_pow2 by lia. change 0x80 with (2 ^ 7). rewrite <- Z.pow_add_r by lia.
    assert (E256 : 256 ^ zlen l = 2 ^ (8 * zlen l)) by (rewrite Z.pow_mul_r by lia; done).
    assert (Ep : 2 ^ (7 + 8 * zlen l) = 128 * 256 ^ zlen l) by (rewrite Z.pow_add_r, E256 by lia; lia).
    rewrite clear_top; [| lia | rewrite (Z.pow_add_r 2 _ 1), Ep by lia; nia | lia].
    rewrite Ep, i64_small by (unfold is_i64; nia). lia.
Qed.

(** ** Minimal encodings *)

Lemma set_sign_snoc l b : 0 <= b < 128 -> set_sign (l ++ [b]) = l ++ [b + 128].
Proof.
  intros Hb. unfold set_sign. rewrite back_snoc, length_app. simpl length.
  replace (pred (length l + 1)) with (length l + 0)%nat by lia. rewrite insert_app_r. simpl. repeat f_equal.
  change 128 with (1 * 2 ^ 7) at 1. rewrite lor_disjoint_add by lia. lia.
Qed.

(** [serialize] on a number given by its magnitude bytes *)
Lemma serialize_of_bytes l b (neg : bool) :
  bytes l -> 0 < b < 256 -> (length l < 8)%nat -> le_val (l ++ [b]) < 2 ^ 63 ->
  serialize (if neg then - le_val (l ++ [b]) else le_val (l ++ [b])) =
  if 128 <=? b then (l ++ [b]) ++ [if neg then 0x80 else 0] else l ++ [if neg then b + 128 else b].
Proof.
  intros Hl Hb Hn Hlt. pose proof (le_val_range l Hl) as Hr.
  assert (Hp : 0 < 256 ^ zlen l) by (apply Z.pow_pos_nonneg; lia).
  assert (Hpos : 0 < le_val (l ++ [b])) by (rewrite le_val_snoc; nia).
  set (x := le_val (l ++ [b])) in *. unfold serialize.
  rewrite (proj2 (Z.eqb_neq _ 0)) by (destruct neg; lia).
  replace ((if neg then - x else x) <? 0) with neg by (symmetry; destruct neg; [apply Z.ltb_lt | apply Z.ltb_ge]; lia).
  replace (if neg then - (if neg then - x else x) else if neg then - x else x) with x by (destruct neg; lia).
  rewrite u64_small by (unfold is_u64; lia). subst x.
  rewrite abs_bytes_unique; [| apply bytes_snoc; split; [done | unfold is_u8; lia]
                             | rewrite back_snoc; lia | rewrite length_app; simpl; lia].
  rewrite back_snoc. destruct (land_80_ff b) as [-> _]; [unfold is_u8; lia|]. rewrite Z.leb_antisym.
  destruct (Z.ltb_spec b 128); simpl negb; cbn match; [|done].
  destruct neg; [apply set_sign_snoc; lia | done].
Qed.

Lemma signed_val_snoc l b : bytes l -> is_u8 b ->
  signed_val (l ++ [b]) = if 128 <=? b then - (le_val l + 256 ^ zlen l * (b - 128)) else le_val l + 256 ^ zlen l * b.
Proof.
  intros Hl Hb. unfold signed_val. rewrite back_snoc, le_val_snoc, length_app. simpl length.
  replace (Z.of_nat (length l + 1) - 1) with (zlen l) by lia. destruct (128 <=? b); lia.
Qed.

(** the test of the constructor on a vector ending in [b] *)
Definition minimal (vch : list Z) : bool :=
  negb ((zlen vch >? 0) && (Z.land (back vch) 0x7f =? 0) &&
        ((zlen vch <=? 1) || (Z.land (vch !!! (length vch - 2)%nat) 0x80 =? 0))).

Lemma minimal_snoc l b : is_u8 b ->
  minimal (l ++ [b]) = negb ((b mod 128 =? 0) && ((zlen l =? 0) || (Z.land (back l) 0x80 =? 0))).
Proof.
  intros Hb. unfold minimal. destruct (land_80_ff b Hb) as [_ E]. rewrite back_snoc, E, length_app. simpl length.
  rewrite (proj2 (Z.gtb_lt _ _)) by lia. simpl. f_equal. f_equal.
  destruct l as [|c l _] using rev_ind; [done|]. rewrite back_snoc, !length_app. simpl length.
  rewrite (proj2 (Z.leb_gt _ _)), (proj2 (Z.eqb_neq (Z.of_nat (length l + 1)) 0)) by lia. do 2 f_equal.
  replace (length l + 1 + 1 - 2)%nat with (length l) by lia.
  rewrite <- app_assoc, lookup_total_app_r, Nat.sub_diag by lia. done.
Qed.

(** a minimal vector is the serialization of the number it denotes *)
Lemma serialize_signed_val vch : bytes vch -> (length vch <= 8)%nat -> minimal vch = true ->
  serialize (signed_val vch) = vch.
Proof.
  intros Hv Hn Hm. destruct vch as [|b l _] using rev_ind; [done|]. rewrite length_app in Hn. simpl in Hn.
  apply bytes_snoc in Hv as [Hl Hb]. rewrite minimal_snoc in Hm by done.
  rewrite signed_val_snoc by done. unfold is_u8 in Hb. pose proof (le_val_range l Hl) as Hr.
  assert (Hp : 0 < 256 ^ zlen l <= 256 ^ 7) by (split; [apply Z.pow_pos_nonneg | apply Z.pow_le_mono_r]; lia).
  pose proof (Z.div_mod b 128 ltac:(lia)) as Hdm. pose proof (Z.mod_pos_bound b 128 ltac:(lia)) as Hmb.
  destruct (Z.eqb_spec (b mod 128) 0) as [E0|E0]; simpl in Hm.
  - destruct l as [|c l _] using rev_ind; [done|]. apply bytes_snoc in Hl as [Hl Hc].
    rewrite back_snoc in Hm. destruct (land_80_ff c Hc) as [E80 _]. rewrite E80, length_app in Hm. unfold is_u8 in Hc.
    bool_to_prop. rewrite length_app in *. simpl length in *.
    assert (Hb2 : b = 0 \/ b = 128) by lia.
    assert (256 ^ Z.of_nat (length l + 1) <= 256 ^ 7) by (apply Z.pow_le_mono_r; lia).
    destruct Hb2 as [-> | ->]; cbn [Z.leb Z.compare Pos.compare Pos.compare_cont];
      [rewrite Z.mul_0_r | change (128 - 128) with 0; rewrite Z.mul_0_r]; rewrite Z.add_0_r;
      [rewrite (serialize_of_bytes l c false) | rewrite (serialize_of_bytes l c true)];
      rewrite ?(proj2 (Z.leb_le 128 c)); done || lia.
  - destruct (Z.leb_spec 128 b) as [Hge|Hlt].
    + rewrite <- le_val_snoc, (serialize_of_bytes l (b - 128) true) by (done || lia || (rewrite le_val_snoc; nia)).
      rewrite (proj2 (Z.leb_gt 128 (b - 128))) by lia. do 2 f_equal. lia.
    + rewrite <- le_val_snoc, (serialize_of_bytes l b false) by (done || lia || (rewrite le_val_snoc; nia)).
      by rewrite (proj2 (Z.leb_gt 128 b)) by lia.
Qed.

(** every number but [INT64_MIN] has a minimal vector *)
Lemma serialize_spec v : - 2 ^ 63 < v < 2 ^ 63 ->
  signed_val (serialize v) = v /\ bytes (serialize v) /\ minimal (serialize v) = true /\
  (length (serialize v) <= 8)%nat.
Proof.
  intros Hv. destruct (Z.eq_dec v 0) as [->|H0]; [repeat split; [constructor | simpl; lia]|].
  destruct (abs_bytes_spec 8 (Z.abs v) ltac:(simpl; lia)) as (Ev & Hb & Hl). specialize (Hl ltac:(lia)).
  destruct (abs_bytes 8 (Z.abs v)) as [|b l _] eqn:E using rev_ind; [simpl in Ev; lia|]. clear E.
  rewrite back_snoc in Hl. apply bytes_snoc in Hb as [Hl' Hb]. pose proof (le_val_range l Hl') as Hr.
  assert (Hp : 0 < 256 ^ zlen l) by (apply Z.pow_pos_nonneg; lia). unfold is_u8 in Hb.
  assert (Hlen : (length l < 8)%nat).
  { destruct (Nat.lt_ge_cases (length l) 8) as [|Hge]; [done|]. rewrite le_val_snoc in Ev.
    assert (256 ^ 8 <= 256 ^ zlen l) by (apply Z.pow_le_mono_r; lia). nia. }
  replace v with (if v <? 0 then - le_val (l ++ [b]) else le_val (l ++ [b])) by (destruct (Z.ltb_spec v 0); lia).
  rewrite serialize_of_bytes by (done || lia). destruct (Z.leb_spec 128 b).
  - assert (Hlen7 : (length l < 7)%nat).
    { destruct (Nat.lt_ge_cases (length l) 7) as [|Hge]; [done|]. rewrite le_val_snoc in Ev.
      assert (256 ^ 7 <= 256 ^ zlen l) by (apply Z.pow_le_mono_r; lia). nia. }
    assert (Hlb : bytes (l ++ [b])) by (apply bytes_snoc; split; [done | unfold is_u8; lia]).
    rewrite signed_val_snoc, minimal_snoc, bytes_snoc, back_snoc by (done || (unfold is_u8; destruct (v <? 0); lia)).
    destruct (land_80_ff b) as [-> _]; [unfold is_u8; lia|]. rewrite (proj2 (Z.ltb_ge b 128)) by lia.
    rewrite !length_app. simpl length. rewrite (proj2 (Z.eqb_neq (Z.of_nat (length l + 1)) 0)), andb_false_r by lia.
    destruct (Z.ltb_spec v 0); repeat split; simpl; try lia; try done; unfold is_u8; lia.
  - rewrite signed_val_snoc, minimal_snoc, bytes_snoc, le_val_snoc, length_app by (done || (unfold is_u8; destruct (v <? 0); lia)).
    assert (Em : (if v <? 0 then b + 128 else b) mod 128 = b).
    { destruct (v <? 0); [replace (b + 128) with (b + 1 * 128) by lia; rewrite Z.mod_add by lia|]; apply Z.mod_small; lia. }
    rewrite Em, (proj2 (Z.eqb_neq b 0)) by lia. simpl length.
    destruct (Z.ltb_spec v 0); [rewrite (proj2 (Z.leb_le _ _)) by lia | rewrite (proj2 (Z.leb_gt _ _)) by lia];
      repeat split; try lia; try done; unfold is_u8; lia.
Qed.

Lemma CScriptNum_eq vch fRequireMinimal n :
  CScriptNum vch fRequireMinimal n =
  if (zlen vch >? n) || (fRequireMinimal && negb (minimal vch)) then None else Some (set_vch vch).
Proof.
  unfold CScriptNum, minimal. destruct (zlen vch >? n), fRequireMinimal; simpl; try done.
  by rewrite negb_involutive.
Qed.

(** the sizes of the encodings: [n] bytes hold [8n-1] bits and the sign *)
Lemma signed_val_bound vch : bytes vch -> 0 < zlen vch -> Z.abs (signed_val vch) < 2 ^ (8 * zlen vch - 1).
Proof.
  intros Hv Hn. destruct vch as [|b l _] using rev_ind; [done|]. apply bytes_snoc in Hv as [Hl Hb].
  rewrite signed_val_snoc, length_app by done. simpl length. pose proof (le_val_range l Hl). unfold is_u8 in Hb.
  assert (E : 2 ^ (8 * Z.of_nat (length l + 1) - 1) = 128 * 256 ^ zlen l).
  { replace (8 * Z.of_nat (length l + 1) - 1) with (7 + 8 * zlen l) by lia.
    rewrite Z.pow_add_r, Z.pow_mul_r by lia. done. }
  rewrite E. assert (0 < 256 ^ zlen l) by (apply Z.pow_pos_nonneg; lia). destruct (Z.leb_spec 128 b); nia.
Qed.

Lemma signed_val_lower l b : bytes l -> is_u8 b -> minimal (l ++ [b]) = true ->
  0 < zlen l -> 2 ^ (8 * zlen l - 1) <= Z.abs (signed_val (l ++ [b])).
Proof.
  intros Hl Hb Hm Hn. rewrite signed_val_snoc by done. rewrite minimal_snoc in Hm by done.
  pose proof (le_val_range l Hl) as Hr. unfold is_u8 in Hb.
  assert (Hpn : 256 ^ zlen l = 2 * 2 ^ (8 * zlen l - 1)).
  { change 256 with (2 ^ 8). rewrite <- Z.pow_mul_r, <- Z.pow_succ_r by lia. f_equal. lia. }
  assert (0 < 2 ^ (8 * zlen l - 1)) by (apply Z.pow_pos_nonneg; lia).
  pose proof (Z.div_mod b 128 ltac:(lia)) as Hdm. pose proof (Z.mod_pos_bound b 128 ltac:(lia)) as Hmb.
  destruct (Z.eqb_spec (b mod 128) 0) as [E0|E0]; simpl in Hm.
  - destruct l as [|c l _] using rev_ind; [done|]. apply bytes_snoc in Hl as [Hl1 Hc].
    rewrite back_snoc in Hm. destruct (land_80_ff c Hc) as [E80 _]. rewrite E80 in Hm. bool_to_prop.
    assert (256 ^ zlen (l ++ [c]) = 256 * 256 ^ zlen l)
      by (rewrite length_app, Nat2Z.inj_add, Z.pow_add_r by lia; simpl; lia).
    assert (Hlow : 2 ^ (8 * zlen (l ++ [c]) - 1) <= le_val (l ++ [c])).
    { rewrite le_val_snoc. pose proof (le_val_range l Hl1). nia. }
    assert (Hb2 : b = 0 \/ b = 128) by lia. generalize dependent (le_val (l ++ [c])). intros V _ HV.
    destruct Hb2 as [-> | ->]; cbn [Z.leb Z.compare Pos.compare Pos.compare_cont]; lia.
  - generalize dependent (le_val l). intros V HV. clear Hdm.
    destruct (Z.leb_spec 128 b) as [Hge|Hlt].
    + assert (b <> 128) by (intros ->; done). assert (256 ^ zlen l * 1 <= 256 ^ zlen l * (b - 128)) by (apply Z.mul_le_mono_nonneg_l; lia). lia.
    + assert (b <> 0) by (intros ->; done). assert (256 ^ zlen l * 1 <= 256 ^ zlen l * b) by (apply Z.mul_le_mono_nonneg_l; lia). lia.
Qed.

Lemma serialize_length v n : 1 <= n <= 8 -> Z.abs v < 2 ^ (8 * n - 1) -> zlen (serialize v) <= n.
Proof.
  intros Hn Hv. assert (2 ^ (8 * n - 1) <= 2 ^ 63) by (apply Z.pow_le_mono_r; lia).
  destruct (serialize_spec v ltac:(lia)) as (Ev & Hb & Hm & Hl).
  destruct (Z.le_gt_cases (zlen (serialize v)) n) as [|Hgt]; [done|]. exfalso.
  destruct (serialize v) as [|b l _] using rev_ind; [simpl in Hgt; lia|]. rewrite length_app in *. simpl length in *.
  apply bytes_snoc in Hb as [Hlb Hb]. pose proof (signed_val_lower l b Hlb Hb Hm ltac:(lia)) as Hlow.
  assert (2 ^ (8 * n - 1) <= 2 ^ (8 * zlen l - 1)) by (apply Z.pow_le_mono_r; lia). rewrite Ev in Hlow. lia.
Qed.

(** ** Properties *)

(** The script numbers of at most [n] bytes (up to the eight an [int64_t] has)
    and the integers of magnitude below [2^(8n-1)] correspond one to one: with
    [fRequireMinimal] the constructor accepts exactly the vector [serialize]
    writes for the number it returns, and throws on every other vector. *)
Theorem CScriptNum_minimal_bijection vch n v :
  bytes vch -> 1 <= n <= 8 ->
  CScriptNum vch true n = Some v <-> vch = serialize v /\ Z.abs v < 2 ^ (8 * n - 1).
Proof.
  intros Hv Hn. assert (2 ^ (8 * n - 1) <= 2 ^ 63) by (apply Z.pow_le_mono_r; lia).
  rewrite CScriptNum_eq, Z.gtb_ltb. simpl. split.
  - destruct (Z.ltb_spec n (zlen vch)) as [|Hle], (minimal vch) eqn:Em; simpl; try done. intros [= <-].
    rewrite set_vch_spec, serialize_signed_val by (done || lia). split; [done|].
    destruct (Z.eq_dec (zlen vch) 0) as [E|E].
    + destruct vch; [simpl; apply Z.pow_pos_nonneg; lia | simpl in E; lia].
    + pose proof (signed_val_bound vch Hv ltac:(lia)).
      assert (2 ^ (8 * zlen vch - 1) <= 2 ^ (8 * n - 1)) by (apply Z.pow_le_mono_r; lia). lia.
  - intros [-> Hlt]. destruct (serialize_spec v ltac:(lia)) as (Ev & Hb & Hm & Hl).
    pose proof (serialize_length v n Hn Hlt). rewrite (proj2 (Z.ltb_ge _ _)), Hm by lia. simpl.
    rewrite set_vch_spec by done. by rewrite Ev.
Qed.

Lemma CScriptNum_minimal_bijection_witness :
  CScriptNum [0xff; 0x80] true 4 = Some (-255) <-> [0xff; 0x80] = serialize (-255) /\ Z.abs (-255) < 2 ^ (8 * 4 - 1).
Proof.
  apply (CScriptNum_minimal_bijection [0xff; 0x80] 4 (-255)); [|lia].
  repeat constructor; unfold is_u8; lia.
Defined.
