(* ===== verification/Script.v ===== *)
(** * Serialized scripts (script/script.h [CScript], script/script.cpp)

    A script is its byte string.  An iterator into a script is the part of the
    script from it to the end, so [pc == end()] is [pc = []], the bytes between
    two iterators are a prefix, and [CScript(pc, pend)] is [pc] itself. *)

From S2P Require Import Prelude ArithUint Opcodes ScriptNum.

Abbreviation valtype := (list Z).
Abbreviation script_bytes := (list Z).

Definition MAX_SCRIPT_ELEMENT_SIZE : Z := 520.
Definition MAX_OPS_PER_SCRIPT : Z := 201.
Definition MAX_PUBKEYS_PER_MULTISIG : Z := 20.
Definition MAX_SCRIPT_SIZE : Z := 10000.
Definition MAX_STACK_SIZE : Z := 1000.
Definition LOCKTIME_THRESHOLD : Z := 500000000.

(** [ReadLE16], [WriteLE16] of crypto/common.h *)
Definition ReadLE16 (p : list Z) : Z := p !!! 0%nat + 2 ^ 8 * p !!! 1%nat.
Definition WriteLE16 (x : Z) : list Z := [u8 x; u8 (Z.shiftr x 8)].

(** the enumerators of [txnouttype] (script/standard.h) *)
Inductive txnouttype :=
  | TX_NONSTANDARD | TX_PUBKEY | TX_PUBKEYHASH | TX_SCRIPTHASH | TX_MULTISIG | TX_NULL_DATA
  | TX_WITNESS_V0_SCRIPTHASH | TX_WITNESS_V0_KEYHASH
  | TX_NEW_ASSET | TX_REISSUE_ASSET | TX_TRANSFER_ASSET | TX_RESTRICTED_ASSET_DATA.

#[global] Instance txnouttype_eq_dec : EqDecision txnouttype.
Proof. solve_decision. Defined.

(** the marker bytes of asset scripts (assets/assets.h) *)
Definition BLKR_N : Z := 114.
Definition BLKR_E : Z := 118.
Definition BLKR_X : Z := 110.
Definition BLKR_Q : Z := 113.
Definition BLKR_T : Z := 116.
Definition BLKR_O : Z := 111.

Module Script.

(** ** Building scripts *)

(** [operator<<(opcodetype)], for an opcode that is a byte *)
Definition push_opcode (s : script_bytes) (op : Z) : script_bytes := s ++ [op].

(** the opcode and length bytes [operator<<(std::vector)] writes before the data *)
Definition push_prefix (b : valtype) : list Z :=
  if zlen b <? OP_PUSHDATA1 then [zlen b]
  else if zlen b <=? 0xff then [OP_PUSHDATA1 : Z; zlen b]
  else if zlen b <=? 0xffff then (OP_PUSHDATA2 : Z) :: WriteLE16 (zlen b)
  else (OP_PUSHDATA4 : Z) :: Uint.WriteLE32 (zlen b).

(** [operator<<(std::vector)] *)
Definition push_data (s : script_bytes) (b : valtype) : script_bytes := s ++ push_prefix b ++ b.

(** [push_int64(n)], which is [operator<<(int64_t)] *)
Definition push_int64 (s : script_bytes) (n : Z) : script_bytes :=
  if (n =? -1) || ((n >=? 1) && (n <=? 16)) then s ++ [n + (OP_1 - 1)]
  else if n =? 0 then s ++ [OP_0 : Z]
  else push_data s (ScriptNum.serialize n).

(** ** Reading scripts *)

(** the length operand of a push: the size and the iterator behind it *)
Definition read_size (opcode : Z) (pc : script_bytes) : option (Z * script_bytes) :=
  if opcode <? OP_PUSHDATA1 then Some (opcode, pc)
  else if opcode =? OP_PUSHDATA1 then
    if zlen pc <? 1 then None else Some (pc !!! 0%nat, drop 1 pc)
  else if opcode =? OP_PUSHDATA2 then
    if zlen pc <? 2 then None else Some (ReadLE16 pc, drop 2 pc)
  else if opcode =? OP_PUSHDATA4 then
    if zlen pc <? 4 then None else Some (Uint.ReadLE32 pc, drop 4 pc)
  else Some (0, pc).

(** [GetOp2(pc, opcodeRet, pvchRet)]: where the iterator is left, and the opcode
    and its data when it returns true *)
Definition GetOp2 (pc : script_bytes) : script_bytes * option (Z * valtype) :=
  match pc with
  | [] => ([], None)
  | opcode :: pc =>
      if opcode <=? OP_PUSHDATA4 then
        match read_size opcode pc with
        | None => (pc, None)
        | Some (nSize, pc) =>
            if zlen pc <? nSize then (pc, None)
            else (drop (Z.to_nat nSize) pc, Some (opcode, take (Z.to_nat nSize) pc))
        end
      else if opcode =? OP_BLKR_ASSET then ([], Some (opcode, pc))
      else (pc, Some (opcode, []))
  end.

(** [DecodeOP_N] and [EncodeOP_N]; [None] when the assertion fails *)
Definition DecodeOP_N (opcode : Z) : option Z :=
  if opcode =? OP_0 then Some 0
  else if (opcode >=? OP_1) && (opcode <=? OP_16) then Some (opcode - (OP_1 - 1)) else None.

Definition EncodeOP_N (n : Z) : option Z :=
  if (n >=? 0) && (n <=? 16) then Some (if n =? 0 then OP_0 : Z else OP_1 + n - 1) else None.

(** the inner loop of [FindAndDelete] *)
Fixpoint skip_matches (fuel : nat) (b pc : script_bytes) (nFound : Z) : script_bytes * Z :=
  match fuel with
  | O => (pc, nFound)
  | S fuel =>
      if (zlen pc >=? zlen b) && bool_decide (take (length b) pc = b)
      then skip_matches fuel b (drop (length b) pc) (nFound + 1)
      else (pc, nFound)
  end.

(** one turn of the [do ... while (GetOp(pc, opcode))] loop *)
Definition delete_step (b : script_bytes) (st : script_bytes * script_bytes * script_bytes * Z) :=
  let '(pc, pc2, result, nFound) := st in
  let result := result ++ take (length pc2 - length pc) pc2 in
  let '(pc, nFound) := skip_matches (length pc) b pc nFound in
  let pc2 := pc in
  match GetOp2 pc with
  | (pc, Some _) => inl (pc, pc2, result, nFound)
  | (_, None) => inr (result, pc2, nFound)
  end.

(** [FindAndDelete(b)]: the script left behind and the number of deletions *)
Definition FindAndDelete (s b : script_bytes) : script_bytes * Z :=
  match b with
  | [] => (s, 0)
  | _ =>
      match while_loop (delete_step b) (S (length s)) (s, s, [], 0) with
      | Some (result, pc2, nFound) => if nFound >? 0 then (result ++ pc2, nFound) else (s, nFound)
      | None => (s, 0)
      end
  end.

(** a loop [while (pc < end()) { if (!GetOp(pc, opcode, data)) return bad; body }];
    [body] is [inl] of the next state or [inr] of a result returned at once *)
Definition op_loop {A R : Type} (bad : A -> R) (body : Z -> valtype -> A -> A + R) (fin : A -> R)
    (st : script_bytes * A) : script_bytes * A + R :=
  let '(pc, acc) := st in
  match pc with
  | [] => inr (fin acc)
  | _ =>
      match GetOp2 pc with
      | (_, None) => inr (bad acc)
      | (pc, Some (opcode, data)) =>
          match body opcode data acc with inl acc => inl (pc, acc) | inr r => inr r end
      end
  end.

Definition run_ops {A R : Type} (bad : A -> R) (body : Z -> valtype -> A -> A + R) (fin : A -> R)
    (pc : script_bytes) (acc : A) : R :=
  default (bad acc) (while_loop (op_loop bad body fin) (S (length pc)) (pc, acc)).

(** [Find(op)] *)
Definition Find (s : script_bytes) (op : Z) : Z :=
  run_ops id (fun opcode _ n => inl (if opcode =? op then n + 1 else n)) id s 0.

(** [GetSigOpCount(fAccurate)] *)
Definition GetSigOpCount (fAccurate : bool) (s : script_bytes) : Z :=
  run_ops fst (fun opcode _ '(n, lastOpcode) =>
    let n :=
      if (opcode =? OP_CHECKSIG) || (opcode =? OP_CHECKSIGVERIFY) then n + 1
      else if (opcode =? OP_CHECKMULTISIG) || (opcode =? OP_CHECKMULTISIGVERIFY) then
        if fAccurate && (lastOpcode >=? OP_1) && (lastOpcode <=? OP_16)
        then n + default 0 (DecodeOP_N lastOpcode) else n + MAX_PUBKEYS_PER_MULTISIG
      else n in
    inl (n, opcode)) fst s (0, OP_INVALIDOPCODE : Z).

(** [IsPayToPublicKeyHash], [IsPayToScriptHash], [IsPayToWitnessScriptHash] *)
Definition IsPayToPublicKeyHash (s : script_bytes) : bool :=
  (zlen s =? 25) && (s !!! 0%nat =? OP_DUP) && (s !!! 1%nat =? OP_HASH160) && (s !!! 2%nat =? 0x14) &&
  (s !!! 23%nat =? OP_EQUALVERIFY) && (s !!! 24%nat =? OP_CHECKSIG).

Definition IsPayToScriptHash (s : script_bytes) : bool :=
  (zlen s =? 23) && (s !!! 0%nat =? OP_HASH160) && (s !!! 1%nat =? 0x14) && (s !!! 22%nat =? OP_EQUAL).

Definition IsPayToWitnessScriptHash (s : script_bytes) : bool :=
  (zlen s =? 34) && (s !!! 0%nat =? OP_0) && (s !!! 1%nat =? 0x20).

(** [GetSigOpCount(scriptSig)] of a script public key *)
Definition GetSigOpCountP2SH (s scriptSig : script_bytes) : Z :=
  if negb (IsPayToScriptHash s) then GetSigOpCount true s
  else
    run_ops (fun _ => 0) (fun opcode data _ => if opcode >? OP_16 then inr 0 else inl data)
      (fun vData => GetSigOpCount true vData) scriptSig [].

(** [IsWitnessProgram(version, program)]; the version when it returns true *)
Definition IsWitnessProgram (s : script_bytes) : option (Z * valtype) :=
  if (zlen s <? 4) || (zlen s >? 42) then None
  else if negb (s !!! 0%nat =? OP_0) && ((s !!! 0%nat <? OP_1) || (s !!! 0%nat >? OP_16)) then None
  else if s !!! 1%nat + 2 =? zlen s
  then Some (default 0 (DecodeOP_N (s !!! 0%nat)), drop 2 s)
  else None.

(** [IsPayToPublicKey] *)
Definition IsPayToPublicKey (s : script_bytes) : bool :=
  if zlen s =? 35 then ((s !!! 1%nat =? 0x02) || (s !!! 1%nat =? 0x03)) && (s !!! 34%nat =? OP_CHECKSIG)
  else if zlen s =? 67 then (s !!! 1%nat =? 0x04) && (s !!! 66%nat =? OP_CHECKSIG)
  else false.

(** [IsPushOnly(pc)] *)
Definition IsPushOnly (pc : script_bytes) : bool :=
  run_ops (fun _ => false) (fun opcode _ _ => if opcode >? OP_16 then inr false else inl tt) (fun _ => true) pc tt.

(** [HasValidOps] *)
Definition HasValidOps (s : script_bytes) : bool :=
  run_ops (fun _ => false)
    (fun opcode item _ =>
       if (opcode >? MAX_OPCODE) || (zlen item >? MAX_SCRIPT_ELEMENT_SIZE) then inr false else inl tt)
    (fun _ => true) s tt.

(** ** Asset scripts *)

(** [IsAssetScript(nType, fIsOwner, nStartingIndex)]: the three outputs when it returns true *)
Definition IsAssetScript (s : script_bytes) : option (txnouttype * bool * Z) :=
  if zlen s >? 31 then
    if s !!! 25%nat =? OP_BLKR_ASSET then
      let index : Z :=
        if s !!! 27%nat =? BLKR_N then
          if s !!! 28%nat =? BLKR_E then if s !!! 29%nat =? BLKR_X then 30 else -1 else -1
        else
          if s !!! 28%nat =? BLKR_N then
            if s !!! 29%nat =? BLKR_E then if s !!! 30%nat =? BLKR_X then 31 else -1 else -1
          else -1 in
      if index >? 0 then
        let nStartingIndex := index + 1 in
        let b := s !!! Z.to_nat index in
        if b =? BLKR_T then Some (TX_TRANSFER_ASSET, false, nStartingIndex)
        else if (b =? BLKR_Q) && (zlen s >? 39) then Some (TX_NEW_ASSET, false, nStartingIndex)
        else if b =? BLKR_O then Some (TX_NEW_ASSET, true, nStartingIndex)
        else if b =? BLKR_N then Some (TX_REISSUE_ASSET, false, nStartingIndex)
        else None
      else None
    else None
  else None.

(** [IsNewAsset], [IsOwnerAsset], [IsReissueAsset], [IsTransferAsset] *)
Definition IsNewAsset (s : script_bytes) : bool :=
  match IsAssetScript s with
  | Some (nType, fIsOwner, _) => negb fIsOwner && bool_decide (nType = TX_NEW_ASSET)
  | None => false
  end.

Definition IsOwnerAsset (s : script_bytes) : bool :=
  match IsAssetScript s with
  | Some (nType, fIsOwner, _) => fIsOwner && bool_decide (nType = TX_NEW_ASSET)
  | None => false
  end.

Definition IsReissueAsset (s : script_bytes) : bool :=
  match IsAssetScript s with
  | Some (nType, _, _) => bool_decide (nType = TX_REISSUE_ASSET)
  | None => false
  end.

Definition IsTransferAsset (s : script_bytes) : bool :=
  match IsAssetScript s with
  | Some (nType, _, _) => bool_decide (nType = TX_TRANSFER_ASSET)
  | None => false
  end.

(** [IsNullAssetTxDataScript], [IsNullGlobalRestrictionAssetTxDataScript],
    [IsNullAssetVerifierTxDataScript], [IsNullAsset] *)
Definition IsNullAssetTxDataScript (s : script_bytes) : bool :=
  (zlen s >? 23) && (s !!! 0%nat =? OP_BLKR_ASSET) && (s !!! 1%nat =? 0x14).

Definition IsNullGlobalRestrictionAssetTxDataScript (s : script_bytes) : bool :=
  (zlen s >? 6) && (s !!! 0%nat =? OP_BLKR_ASSET) && (s !!! 1%nat =? OP_RESERVED) && (s !!! 2%nat =? OP_RESERVED).

Definition IsNullAssetVerifierTxDataScript (s : script_bytes) : bool :=
  (zlen s >? 3) && (s !!! 0%nat =? OP_BLKR_ASSET) && (s !!! 1%nat =? OP_RESERVED) &&
  negb (s !!! 2%nat =? OP_RESERVED).

Definition IsNullAsset (s : script_bytes) : bool :=
  IsNullAssetTxDataScript s || IsNullGlobalRestrictionAssetTxDataScript s || IsNullAssetVerifierTxDataScript s.

End Script.

Import Script.

(** ** GetOp2 *)

Lemma read_size_suffix opcode pc n pc' :
  read_size opcode pc = Some (n, pc') -> exists h, pc = h ++ pc'.
Proof.
  unfold read_size. case_ifs; intros [= <- <-];
    solve [by exists [] | exists (take 1 pc); by rewrite take_drop
          | exists (take 2 pc); by rewrite take_drop | exists (take 4 pc); by rewrite take_drop].
Qed.

(** a successful [GetOp2] moves the iterator forward inside the script *)
Lemma GetOp2_suffix pc rest opcode data :
  GetOp2 pc = (rest, Some (opcode, data)) -> exists h, pc = opcode :: h ++ rest.
Proof.
  destruct pc as [|op pc]; [done|]. simpl. destruct (op <=? OP_PUSHDATA4).
  - destruct (read_size op pc) as [[n pc']|] eqn:E; [|done]. destruct (zlen pc' <? n); [done|].
    intros [= <- <- <-]. apply read_size_suffix in E as [h ->].
    exists (h ++ take (Z.to_nat n) pc'). by rewrite <- app_assoc, take_drop.
  - destruct (op =? OP_BLKR_ASSET); intros [= <- <- <-]; [exists pc; by rewrite app_nil_r | by exists []].
Qed.

Lemma GetOp2_shorter pc rest opcode data :
  GetOp2 pc = (rest, Some (opcode, data)) -> (length rest < length pc)%nat.
Proof. intros H. apply GetOp2_suffix in H as [h ->]. simpl. rewrite length_app. lia. Qed.

Lemma GetOp2_bytes pc rest opcode data : bytes pc ->
  GetOp2 pc = (rest, Some (opcode, data)) -> is_u8 opcode /\ bytes data /\ bytes rest.
Proof.
  intros Hpc H. pose proof (GetOp2_suffix _ _ _ _ H) as [h E]. rewrite E in Hpc. unfold bytes in *.
  apply Forall_cons in Hpc as [Hop Hr]. apply Forall_app in Hr as [Hh Hr]. split; [done|]. split; [|done].
  assert (Hp : bytes pc) by (subst pc; apply Forall_cons; split; [done | apply Forall_app; done]). clear E.
  destruct pc as [|op pc]; [done|]. apply Forall_cons in Hp as [_ Hp]. simpl in H. destruct (op <=? OP_PUSHDATA4).
  - destruct (read_size op pc) as [[n pc']|] eqn:Er; [|done]. destruct (zlen pc' <? n); [done|].
    injection H as <- <- <-. apply read_size_suffix in Er as [h' ->]. apply Forall_app in Hp as [_ Hp].
    by apply Forall_take.
  - destruct (op =? OP_BLKR_ASSET); injection H as <- <- <-; [done | constructor].
Qed.

(** ** Loops over the operations of a script *)

Section RunOps.
Context {A R : Type} (bad : A -> R) (body : Z -> valtype -> A -> A + R) (fin : A -> R).

Lemma op_loop_total pc acc :
  exists r, while_loop (op_loop bad body fin) (S (length pc)) (pc, acc) = Some r.
Proof.
  destruct (while_total (op_loop bad body fin) (fun _ => True) (fun st => length st.1) (fun _ => True)) with
    (fuel := S (length pc)) (s := (pc, acc)) as (r & Hr & _); [ | done | done | simpl; lia | by exists r].
  intros [p a] s' _ H. split; [done|]. unfold op_loop in H. destruct p as [|o p]; [done|].
  destruct (GetOp2 (o :: p)) as [p' [[op d]|]] eqn:E; [|done].
  apply GetOp2_shorter in E. destruct (body op d a); [|done]. injection H as <-. simpl in *. lia.
Qed.

(** the recursion [run_ops] computes *)
Lemma run_ops_unfold pc acc :
  run_ops bad body fin pc acc =
  match pc with
  | [] => fin acc
  | _ =>
      match GetOp2 pc with
      | (_, None) => bad acc
      | (pc', Some (opcode, data)) =>
          match body opcode data acc with
          | inl acc' => run_ops bad body fin pc' acc'
          | inr r => r
          end
      end
  end.
Proof.
  destruct pc as [|o p]; [done|].
  change (run_ops bad body fin (o :: p) acc) with
    (default (bad acc) (match op_loop bad body fin (o :: p, acc) with
                        | inl s' => while_loop (op_loop bad body fin) (length (o :: p)) s'
                        | inr r => Some r end)).
  unfold op_loop at 1. destruct (GetOp2 (o :: p)) as [p' [[op d]|]] eqn:E; [|done].
  apply GetOp2_shorter in E. destruct (body op d acc) as [acc'|r]; [|done].
  destruct (op_loop_total p' acc') as [r Hr]. unfold run_ops.
  rewrite Hr, (while_fuel _ _ (length (o :: p)) _ _ Hr) by lia. done.
Qed.
End RunOps.

(** induction along the operations of a script *)
Lemma ops_ind (P : script_bytes -> Prop) :
  P [] ->
  (forall o pc, (forall rest d op, GetOp2 (o :: pc) = (rest, Some (op, d)) -> P rest) -> P (o :: pc)) ->
  forall pc, P pc.
Proof.
  intros Hnil Hcons pc. remember (length pc) as n eqn:En. revert pc En.
  induction (lt_wf n) as [n _ IH]. intros [|o pc] En; [done|]. apply Hcons. intros rest d op H.
  apply (IH (length rest)); [|done]. apply GetOp2_shorter in H. lia.
Qed.

(** ** Writing and reading back *)

(** the opcode that [operator<<(std::vector)] chooses *)
Definition push_op (b : valtype) : Z :=
  if zlen b <? OP_PUSHDATA1 then zlen b
  else if zlen b <=? 0xff then OP_PUSHDATA1
  else if zlen b <=? 0xffff then OP_PUSHDATA2
  else OP_PUSHDATA4.

Lemma WriteLE16_read x rest : 0 <= x < 2 ^ 16 -> ReadLE16 (WriteLE16 x ++ rest) = x.
Proof.
  intros Hx. unfold ReadLE16, WriteLE16, u8. simpl. rewrite Z.shiftr_div_pow2 by lia.
  pose proof (Z.div_mod x (2 ^ 8) ltac:(lia)).
  rewrite (Z.mod_small (x / 2 ^ 8)); [lia|]. split; [apply Z.div_pos; lia | apply Z.div_lt_upper_bound; lia].
Qed.

Lemma WriteLE32_read x rest : is_u32 x -> Uint.ReadLE32 (Uint.WriteLE32 x ++ rest) = x.
Proof. intros Hx. apply (WriteLE32_spec x Hx). Qed.

Lemma read_size_push b rest : 0 < 2 ^ 32 - zlen b ->
  exists op h, push_prefix b = op :: h /\ op = push_op b /\ 0 <= op <= OP_PUSHDATA4 /\
    read_size op (h ++ rest) = Some (zlen b, rest).
Proof.
  intros Hb. unfold push_prefix, push_op, read_size. cbv [opcode_value].
  destruct (Z.ltb_spec (zlen b) 76) as [H1|H1].
  { exists (zlen b), []. rewrite (proj2 (Z.ltb_lt _ _)) by lia. repeat split; lia. }
  destruct (Z.leb_spec (zlen b) 255) as [H2|H2]; [|destruct (Z.leb_spec (zlen b) 65535) as [H3|H3]]; eexists _, _;
    (split; [reflexivity|]); (split; [reflexivity|]); (split; [lia|]); cbn [Z.ltb Z.eqb Z.compare Pos.compare Pos.compare_cont Pos.eqb].
  - rewrite (proj2 (Z.ltb_ge _ _)) by (simpl; lia). done.
  - rewrite (proj2 (Z.ltb_ge _ _)) by (simpl; lia). rewrite WriteLE16_read by lia. done.
  - rewrite (proj2 (Z.ltb_ge _ _)) by (simpl; lia). rewrite WriteLE32_read by (unfold is_u32; lia). done.
Qed.

(** reading a push back gives the data and the rest of the script *)
Lemma GetOp2_push b rest : zlen b < 2 ^ 32 ->
  GetOp2 (push_prefix b ++ b ++ rest) = (rest, Some (push_op b, b)).
Proof.
  intros Hb. destruct (read_size_push b (b ++ rest) ltac:(lia)) as (op & h & -> & Eop & Hop & Er).
  rewrite <- Eop. simpl. rewrite (proj2 (Z.leb_le _ _)), Er by lia.
  rewrite (proj2 (Z.ltb_ge _ _)) by (rewrite length_app; lia).
  rewrite Nat2Z.id, drop_app_length, take_app_length. done.
Qed.

Lemma GetOp2_op op rest : OP_PUSHDATA4 < op -> op <> OP_BLKR_ASSET ->
  GetOp2 (op :: rest) = (rest, Some (op, [])).
Proof.
  intros H1 H2. simpl. rewrite (proj2 (Z.leb_gt _ _)), (proj2 (Z.eqb_neq _ _)) by done. done.
Qed.

(** what the stream operators append, and what [GetOp] gives back for it *)
Inductive script_item := ItemOp (op : Z) | ItemData (d : valtype) | ItemInt (n : Z).

Definition push_item (s : script_bytes) (i : script_item) : script_bytes :=
  match i with
  | ItemOp op => push_opcode s op
  | ItemData d => push_data s d
  | ItemInt n => push_int64 s n
  end.

Definition item_ok (i : script_item) : Prop :=
  match i with
  | ItemOp op => OP_PUSHDATA4 < op /\ op <> OP_BLKR_ASSET
  | ItemData d => zlen d < 2 ^ 32
  | ItemInt n => - 2 ^ 63 < n < 2 ^ 63
  end.

Definition item_op (i : script_item) : Z * valtype :=
  match i with
  | ItemOp op => (op, [])
  | ItemData d => (push_op d, d)
  | ItemInt n =>
      if (n =? -1) || ((1 <=? n) && (n <=? 16)) then (n + 0x50, [])
      else (zlen (ScriptNum.serialize n), ScriptNum.serialize n)
  end.

(** [while (GetOp(pc, opcode, data))], collecting what it returns *)
Definition parse_ops (s : script_bytes) : option (list (Z * valtype)) :=
  run_ops (fun _ => None) (fun op d acc => inl (acc ++ [(op, d)])) Some s [].

Lemma push_item_app s i : push_item s i = s ++ push_item [] i.
Proof.
  destruct i as [op|d|n]; simpl; [done | done |]. unfold push_int64, push_data. by case_ifs.
Qed.

Lemma GetOp2_item i rest : item_ok i -> GetOp2 (push_item [] i ++ rest) = (rest, Some (item_op i)).
Proof.
  destruct i as [op|d|n]; intros Hok; simpl.
  - destruct Hok; by apply GetOp2_op.
  - unfold push_data. rewrite app_nil_l, <- app_assoc. by apply GetOp2_push.
  - unfold push_int64. rewrite Z.geb_leb.
    destruct ((n =? -1) || ((1 <=? n) && (n <=? 16))) eqn:E.
    + assert (-1 <= n <= 16 /\ n <> 0) by (apply orb_true_iff in E as [E|E]; bool_to_prop; lia).
      apply GetOp2_op; cbv [opcode_value]; lia.
    + destruct (Z.eqb_spec n 0) as [->|H0]; [apply (GetOp2_push [] rest); simpl; lia|]. unfold push_data. rewrite app_nil_l, <- app_assoc.
      destruct (serialize_spec n Hok) as (_ & _ & _ & Hlen). rewrite GetOp2_push by lia.
      unfold push_op. rewrite (proj2 (Z.ltb_lt _ _)) by (cbv [opcode_value]; lia). done.
Qed.

Lemma push_item_nonempty i : item_ok i -> push_item [] i <> [].
Proof. intros Hok E. pose proof (GetOp2_item i [] Hok) as H. rewrite E in H. done. Qed.

Lemma parse_ops_items items acc : Forall item_ok items ->
  run_ops (fun _ => None) (fun op d acc => inl (acc ++ [(op, d)])) Some (concat (map (push_item []) items)) acc =
  Some (acc ++ map item_op items).
Proof.
  intros H. revert acc. induction H as [|i items Hi Hs IH]; intros acc; rewrite run_ops_unfold; [by rewrite app_nil_r|].
  cbn [map concat]. pose proof (GetOp2_item i (concat (map (push_item []) items)) Hi) as E.
  pose proof (push_item_nonempty i Hi). destruct (push_item [] i) as [|o p]; [done|].
  cbn [app] in *. rewrite E. destruct (item_op i) as [op d] eqn:Ei. rewrite IH, <- app_assoc. done.
Qed.

(** ** FindAndDelete *)

(** the reference: delete the pattern wherever it stands at an operation boundary,
    keep the operations in between, and keep the rest where parsing stops *)
Inductive deletes (b : script_bytes) : script_bytes -> script_bytes -> Z -> Prop :=
  | deletes_match s r n : deletes b s r n -> deletes b (b ++ s) r (n + 1)
  | deletes_op s rest op d h r n :
      take (length b) s <> b -> GetOp2 s = (rest, Some (op, d)) -> s = h ++ rest ->
      deletes b rest r n -> deletes b s (h ++ r) n
  | deletes_stop s p : take (length b) s <> b -> GetOp2 s = (p, None) -> deletes b s s 0.

Lemma deletes_nonneg b s r n : deletes b s r n -> 0 <= n.
Proof. induction 1; lia. Qed.

Lemma deletes_zero b s r n : deletes b s r n -> n = 0 -> r = s.
Proof.
  induction 1 as [s r n H IH|s rest op d h r n _ _ -> H IH|]; intros E; [|by rewrite IH|done].
  apply deletes_nonneg in H. lia.
Qed.

Lemma skip_matches_spec b : b <> [] -> forall fuel pc n pc' n', (length pc <= fuel)%nat ->
  skip_matches fuel b pc n = (pc', n') ->
  take (length b) pc' <> b /\ (length pc' <= length pc)%nat /\
  forall r k, deletes b pc' r k -> deletes b pc r (n' - n + k).
Proof.
  intros Hb. induction fuel as [|fuel IH]; intros pc n pc' n' Hl E; simpl in E.
  - destruct pc; [|simpl in Hl; lia]. injection E as <- <-. rewrite take_nil. split; [by destruct b|].
    split; [lia|]. intros r k. by rewrite Z.sub_diag.
  - rewrite Z.geb_leb in E. destruct (Z.leb_spec (zlen b) (zlen pc)) as [Hle|Hgt]; simpl in E.
    + destruct (decide (take (length b) pc = b)) as [Ht|Ht].
      * rewrite bool_decide_true in E by done. assert (0 < length b)%nat by (destruct b; [done | simpl; lia]).
        apply IH in E as (H1 & H2 & H3); [| rewrite length_drop; lia]. split; [done|].
        rewrite length_drop in H2. split; [lia|]. intros r k Hk. apply H3 in Hk.
        rewrite <- (take_drop (length b) pc), Ht.
        replace (n' - n + k) with (n' - (n + 1) + k + 1) by lia. by constructor.
      * rewrite bool_decide_false in E by done. injection E as <- <-. split; [done|]. split; [lia|].
        intros r k. by rewrite Z.sub_diag.
    + injection E as <- <-. split; [|split; [lia | intros r k; by rewrite Z.sub_diag]].
      intros Ht. apply (f_equal length) in Ht. rewrite length_take in Ht. lia.
Qed.

Definition delete_inv (b s : script_bytes) (st : script_bytes * script_bytes * script_bytes * Z) : Prop :=
  let '(pc, pc2, result, nFound) := st in
  exists h, pc2 = h ++ pc /\
    forall r k, deletes b pc r k -> deletes b s (result ++ h ++ r) (nFound + k).

Lemma delete_loop_spec b s : b <> [] ->
  exists result pc2 nFound, while_loop (delete_step b) (S (length s)) (s, s, [], 0) = Some (result, pc2, nFound) /\
    deletes b s (result ++ pc2) nFound.
Proof.
  intros Hb.
  destruct (while_total (delete_step b) (delete_inv b s) (fun '(pc, _, _, _) => length pc)
             (fun '(result, pc2, nFound) => deletes b s (result ++ pc2) nFound)) with
    (fuel := S (length s)) (s := (s, s, @nil Z, 0)) as ([[result pc2] nFound] & Hw & Hd); [| | | lia | eauto].
  - intros [[[pc pc2] result] nFound] s' (h & -> & Hd) E. unfold delete_step in E.
    destruct (skip_matches (length pc) b pc nFound) as [pc1 n1] eqn:Es.
    apply skip_matches_spec in Es as (Hno & Hlen & Hk); [| done | lia].
    destruct (GetOp2 pc1) as [rest [[op d]|]] eqn:Eg; [|done]. injection E as <-.
    pose proof (GetOp2_shorter _ _ _ _ Eg). split; [|lia].
    pose proof (GetOp2_suffix _ _ _ _ Eg) as [h1 E1]. exists (op :: h1). split; [done|]. intros r k Hr.
    rewrite length_app, Nat.add_sub, take_app_length, <- app_assoc.
    replace (n1 + k) with (nFound + (n1 - nFound + k)) by lia. apply Hd, Hk.
    by apply (deletes_op b pc1 rest op d (op :: h1)).
  - intros [[[pc pc2] result] nFound] [[result' pc2'] n'] (h & -> & Hd) E. unfold delete_step in E.
    destruct (skip_matches (length pc) b pc nFound) as [pc1 n1] eqn:Es.
    apply skip_matches_spec in Es as (Hno & Hlen & Hk); [| done | lia].
    destruct (GetOp2 pc1) as [rest [[op d]|]] eqn:Eg; [done|]. injection E as <- <- <-.
    rewrite length_app, Nat.add_sub, take_app_length, <- app_assoc.
    replace n1 with (nFound + (n1 - nFound + 0)) by lia. apply Hd, Hk. by apply (deletes_stop b pc1 rest).
  - exists []. split; [done|]. intros r k. done.
Qed.

Lemma FindAndDelete_spec s b : b <> [] ->
  deletes b s (FindAndDelete s b).1 (FindAndDelete s b).2.
Proof.
  intros Hb. unfold FindAndDelete. destruct b as [|b0 b]; [done|].
  destruct (delete_loop_spec (b0 :: b) s Hb) as (result & pc2 & n & -> & Hd).
  rewrite Z.gtb_ltb. destruct (Z.ltb_spec 0 n); [done|]. simpl.
  pose proof (deletes_nonneg _ _ _ _ Hd). assert (n = 0) as -> by lia.
  by rewrite <- (deletes_zero _ _ _ _ Hd eq_refl) at 2.
Qed.

Lemma deletes_functional b s r n r' n' : b <> [] ->
  deletes b s r n -> deletes b s r' n' -> r' = r /\ n' = n.
Proof.
  intros Hb H. revert r' n'.
  induction H as [s r n H IH|s rest op d h r n Ht Hg Hs H IH|s p Ht Hg]; intros r' n' H'.
  - inversion H' as [s1 r1 n1 H1 E|s1 rest1 op1 d1 h1 r1 n1 Ht1|s1 p1 Ht1]; subst.
    + apply app_inv_head in E as ->. destruct (IH _ _ H1) as [-> ->]. done.
    + by rewrite take_app_length in Ht1.
    + by rewrite take_app_length in Ht1.
  - inversion H' as [s1 r1 n1 H1 E|s1 rest1 op1 d1 h1 r1 n1 Ht1 Hg1 Hs1 H1|s1 p1 Ht1 Hg1]; subst.
    + by rewrite <- E, take_app_length in Ht.
    + rewrite Hg in Hg1. injection Hg1 as <- <- <-. apply app_inv_tail in Hs1 as ->.
      destruct (IH _ _ H1) as [-> ->]. done.
    + by rewrite Hg in Hg1.
  - inversion H' as [s1 r1 n1 H1 E|s1 rest1 op1 d1 h1 r1 n1 Ht1 Hg1 Hs1 H1|s1 p1 Ht1 Hg1]; subst.
    + by rewrite take_app_length in Ht.
    + by rewrite Hg in Hg1.
    + done.
Qed.

Lemma foldl_push_item items s : foldl push_item s items = s ++ concat (map (push_item []) items).
Proof.
  revert s. induction items as [|i items IH]; intros s; simpl; [by rewrite app_nil_r|].
  rewrite IH, push_item_app, <- app_assoc. done.
Qed.

(** ** Properties *)

(** A script built with the stream operators from opcodes, data pushes and
    integers is read back by [GetOp] as exactly those operations, whatever the
    sizes of the pushes (each of the four push encodings). *)
Theorem script_build_parse items :
  Forall item_ok items ->
  parse_ops (foldl push_item [] items) = Some (map item_op items).
Proof. intros H. rewrite foldl_push_item, app_nil_l. by apply parse_ops_items. Qed.

Definition sample_items : list script_item :=
  [ItemOp OP_DUP; ItemOp OP_HASH160; ItemData (replicate 20 7); ItemOp OP_EQUALVERIFY; ItemOp OP_CHECKSIG;
   ItemInt 16; ItemInt (-255); ItemData (replicate 300 1)].

Lemma script_build_parse_witness :
  parse_ops (foldl push_item [] sample_items) = Some (map item_op sample_items).
Proof.
  apply (script_build_parse sample_items).
  repeat apply Forall_cons_2; try apply Forall_nil_2; simpl; cbv [opcode_value]; lia.
Defined.

(** [FindAndDelete] removes every occurrence of the pattern that starts at an
    operation boundary (repeated occurrences included), keeps everything else,
    returns how many it removed, and is the only result with that property. *)
Theorem FindAndDelete_correct s b :
  b <> [] ->
  deletes b s (FindAndDelete s b).1 (FindAndDelete s b).2 /\
  forall r n, deletes b s r n -> r = (FindAndDelete s b).1 /\ n = (FindAndDelete s b).2.
Proof.
  intros Hb. pose proof (FindAndDelete_spec s b Hb) as H. split; [done|].
  intros r n H'. by apply (deletes_functional b s _ _ r n Hb H).
Qed.

Lemma FindAndDelete_correct_witness :
  deletes [2; 1; 1] [2; 1; 1; 2; 1; 1; 0x51] (FindAndDelete [2; 1; 1; 2; 1; 1; 0x51] [2; 1; 1]).1
    (FindAndDelete [2; 1; 1; 2; 1; 1; 0x51] [2; 1; 1]).2 /\
  forall r n, deletes [2; 1; 1] [2; 1; 1; 2; 1; 1; 0x51] r n ->
    r = (FindAndDelete [2; 1; 1; 2; 1; 1; 0x51] [2; 1; 1]).1 /\
    n = (FindAndDelete [2; 1; 1; 2; 1; 1; 0x51] [2; 1; 1]).2.
Proof. apply (FindAndDelete_correct [2; 1; 1; 2; 1; 1; 0x51] [2; 1; 1]). discriminate. Defined.
