(* ===== verification/Interpreter.v ===== *)
(** * The script interpreter (script/interpreter.cpp, interpreter.h, script_error.h)

    A stack is a list whose head is the top, [stacktop(-i)] being the [i]-th
    element.  The hash functions, the secp256k1 test and the signature checker are
    interfaces; the interpreter is proved against them. *)

From S2P Require Import Prelude Opcodes ScriptNum Script.

(** ** Results

    [Err] is [return set_error(serror, e)], [Throw] a C++ exception, [Abort] a
    failed assertion and [Diverge] a loop that exceeded its bound. *)

Inductive ScriptError :=
  | SCRIPT_ERR_OK | SCRIPT_ERR_UNKNOWN_ERROR | SCRIPT_ERR_EVAL_FALSE | SCRIPT_ERR_OP_RETURN
  | SCRIPT_ERR_SCRIPT_SIZE | SCRIPT_ERR_PUSH_SIZE | SCRIPT_ERR_OP_COUNT | SCRIPT_ERR_STACK_SIZE
  | SCRIPT_ERR_SIG_COUNT | SCRIPT_ERR_PUBKEY_COUNT | SCRIPT_ERR_VERIFY | SCRIPT_ERR_EQUALVERIFY
  | SCRIPT_ERR_CHECKMULTISIGVERIFY | SCRIPT_ERR_CHECKSIGVERIFY | SCRIPT_ERR_NUMEQUALVERIFY
  | SCRIPT_ERR_BAD_OPCODE | SCRIPT_ERR_DISABLED_OPCODE | SCRIPT_ERR_INVALID_STACK_OPERATION
  | SCRIPT_ERR_INVALID_ALTSTACK_OPERATION | SCRIPT_ERR_UNBALANCED_CONDITIONAL
  | SCRIPT_ERR_NEGATIVE_LOCKTIME | SCRIPT_ERR_UNSATISFIED_LOCKTIME | SCRIPT_ERR_SIG_HASHTYPE
  | SCRIPT_ERR_SIG_DER | SCRIPT_ERR_MINIMALDATA | SCRIPT_ERR_SIG_PUSHONLY | SCRIPT_ERR_SIG_HIGH_S
  | SCRIPT_ERR_SIG_NULLDUMMY | SCRIPT_ERR_PUBKEYTYPE | SCRIPT_ERR_CLEANSTACK | SCRIPT_ERR_MINIMALIF
  | SCRIPT_ERR_SIG_NULLFAIL | SCRIPT_ERR_DISCOURAGE_UPGRADABLE_NOPS
  | SCRIPT_ERR_DISCOURAGE_UPGRADABLE_WITNESS_PROGRAM | SCRIPT_ERR_WITNESS_PROGRAM_WRONG_LENGTH
  | SCRIPT_ERR_WITNESS_PROGRAM_WITNESS_EMPTY | SCRIPT_ERR_WITNESS_PROGRAM_MISMATCH
  | SCRIPT_ERR_WITNESS_MALLEATED | SCRIPT_ERR_WITNESS_MALLEATED_P2SH
  | SCRIPT_ERR_WITNESS_UNEXPECTED | SCRIPT_ERR_WITNESS_PUBKEYTYPE | SCRIPT_ERR_ERROR_COUNT.

#[global] Instance ScriptError_eq_dec : EqDecision ScriptError.
Proof. solve_decision. Defined.

(** [scriptnum_error], and what [popstack] ([runtime_error]) and [vector::at]
    ([out_of_range]) throw *)
Inductive exception := scriptnum_error | stack_error.

Inductive result (A : Type) :=
  | Ok (a : A)
  | Err (e : ScriptError)
  | Throw (x : exception)
  | Abort
  | Diverge.
Arguments Ok {A} a.
Arguments Err {A} e.
Arguments Throw {A} x.
Arguments Abort {A}.
Arguments Diverge {A}.

#[global] Instance result_ret : MRet result := fun A a => Ok a.
#[global] Instance result_bind : MBind result := fun A B f r =>
  match r with Ok a => f a | Err e => Err e | Throw x => Throw x | Abort => Abort | Diverge => Diverge end.
#[global] Instance result_map : FMap result := fun A B f r =>
  match r with Ok a => Ok (f a) | Err e => Err e | Throw x => Throw x | Abort => Abort | Diverge => Diverge end.

(** a [CScriptNum] constructor may throw, the other operators assert *)
Definition or_throw {A} (x : exception) (o : option A) : result A := match o with Some a => Ok a | None => Throw x end.
Definition or_abort {A} (o : option A) : result A := match o with Some a => Ok a | None => Abort end.

(** [if (cond) return set_error(serror, e)] *)
Definition fail_if (cond : bool) (e : ScriptError) : result unit := if cond then Err e else Ok tt.

(** running a handler step by step *)
Lemma bind_Ok {A B} (r : result A) a (k : A -> result B) : r = Ok a -> r ≫= k = k a.
Proof. by intros ->. Qed.

Lemma guard_pass {B} b e (k : unit -> result B) : b = false -> fail_if b e ≫= k = k tt.
Proof. by intros ->. Qed.

(** ** Flags and interfaces *)

Definition SCRIPT_VERIFY_NONE : Z := 0.
Definition SCRIPT_VERIFY_P2SH : Z := Z.shiftl 1 0.
Definition SCRIPT_VERIFY_STRICTENC : Z := Z.shiftl 1 1.
Definition SCRIPT_VERIFY_DERSIG : Z := Z.shiftl 1 2.
Definition SCRIPT_VERIFY_LOW_S : Z := Z.shiftl 1 3.
Definition SCRIPT_VERIFY_NULLDUMMY : Z := Z.shiftl 1 4.
Definition SCRIPT_VERIFY_SIGPUSHONLY : Z := Z.shiftl 1 5.
Definition SCRIPT_VERIFY_MINIMALDATA : Z := Z.shiftl 1 6.
Definition SCRIPT_VERIFY_DISCOURAGE_UPGRADABLE_NOPS : Z := Z.shiftl 1 7.
Definition SCRIPT_VERIFY_CLEANSTACK : Z := Z.shiftl 1 8.
Definition SCRIPT_VERIFY_CHECKLOCKTIMEVERIFY : Z := Z.shiftl 1 9.
Definition SCRIPT_VERIFY_CHECKSEQUENCEVERIFY : Z := Z.shiftl 1 10.
Definition SCRIPT_VERIFY_WITNESS : Z := Z.shiftl 1 11.
Definition SCRIPT_VERIFY_DISCOURAGE_UPGRADABLE_WITNESS_PROGRAM : Z := Z.shiftl 1 12.
Definition SCRIPT_VERIFY_MINIMALIF : Z := Z.shiftl 1 13.
Definition SCRIPT_VERIFY_NULLFAIL : Z := Z.shiftl 1 14.
Definition SCRIPT_VERIFY_WITNESS_PUBKEYTYPE : Z := Z.shiftl 1 15.

Definition SIGHASH_ALL : Z := 1.
Definition SIGHASH_NONE : Z := 2.
Definition SIGHASH_SINGLE : Z := 3.
Definition SIGHASH_ANYONECANPAY : Z := 0x80.

(** [flags & f] as a condition *)
Definition has (flags f : Z) : bool := negb (Z.land flags f =? 0).

Inductive SigVersion := SIGVERSION_BASE | SIGVERSION_WITNESS_V0.

#[global] Instance SigVersion_eq_dec : EqDecision SigVersion.
Proof. solve_decision. Defined.

(** the hash functions of crypto/, with the digest sizes the interpreter relies on *)
Class ScriptHashes := {
  RIPEMD160 : valtype -> valtype;
  SHA1 : valtype -> valtype;
  SHA256 : valtype -> valtype;
  RIPEMD160_size : forall x, length (RIPEMD160 x) = 20%nat /\ bytes (RIPEMD160 x);
  SHA1_size : forall x, length (SHA1 x) = 20%nat /\ bytes (SHA1 x);
  SHA256_size : forall x, length (SHA256 x) = 32%nat /\ bytes (SHA256 x);
}.

(** [CPubKey::CheckLowS], which calls libsecp256k1 *)
Class LowSCheck := { CheckLowS : valtype -> bool }.

(** the virtual methods of [BaseSignatureChecker] *)
Class BaseSignatureChecker := {
  CheckSig : valtype -> valtype -> script_bytes -> SigVersion -> bool;
  CheckLockTime : Z -> bool;
  CheckSequence : Z -> bool;
}.

(** the default methods: every check fails *)
Definition default_checker : BaseSignatureChecker := {|
  CheckSig _ _ _ _ := false;
  CheckLockTime _ := false;
  CheckSequence _ := false;
|}.

(** [CHash160] and [CHash256] of hash.h *)
Definition Hash160 `{ScriptHashes} (x : valtype) : valtype := RIPEMD160 (SHA256 x).
Definition Hash256 `{ScriptHashes} (x : valtype) : valtype := SHA256 (SHA256 x).

Definition SEQUENCE_LOCKTIME_DISABLE_FLAG : Z := Z.shiftl 1 31.

(** ** Encoding checks *)

(** [CastToBool(vch)]: [i == vch.size()-1] is that nothing follows *)
Fixpoint CastToBool (vch : valtype) : bool :=
  match vch with
  | [] => false
  | x :: r =>
      if negb (x =? 0) then if bool_decide (r = []) && (x =? 0x80) then false else true
      else CastToBool r
  end.

Definition IsCompressedOrUncompressedPubKey (vchPubKey : valtype) : bool :=
  if zlen vchPubKey <? 33 then false
  else if vchPubKey !!! 0%nat =? 0x04 then zlen vchPubKey =? 65
  else if (vchPubKey !!! 0%nat =? 0x02) || (vchPubKey !!! 0%nat =? 0x03) then zlen vchPubKey =? 33
  else false.

Definition IsCompressedPubKey (vchPubKey : valtype) : bool :=
  if negb (zlen vchPubKey =? 33) then false
  else if negb (vchPubKey !!! 0%nat =? 0x02) && negb (vchPubKey !!! 0%nat =? 0x03) then false
  else true.

(** [IsValidSignatureEncoding(sig)], the tests in the order of the source *)
Definition IsValidSignatureEncoding (sig : valtype) : bool :=
  if zlen sig <? 9 then false
  else if zlen sig >? 73 then false
  else if negb (sig !!! 0%nat =? 0x30) then false
  else if negb (sig !!! 1%nat =? zlen sig - 3) then false
  else
    let lenR := sig !!! 3%nat in
    if 5 + lenR >=? zlen sig then false
    else
      let lenS := sig !!! Z.to_nat (5 + lenR) in
      if negb (lenR + lenS + 7 =? zlen sig) then false
      else if negb (sig !!! 2%nat =? 0x02) then false
      else if lenR =? 0 then false
      else if negb (Z.land (sig !!! 4%nat) 0x80 =? 0) then false
      else if (lenR >? 1) && (sig !!! 4%nat =? 0) && (Z.land (sig !!! 5%nat) 0x80 =? 0) then false
      else if negb (sig !!! Z.to_nat (lenR + 4) =? 0x02) then false
      else if lenS =? 0 then false
      else if negb (Z.land (sig !!! Z.to_nat (lenR + 6)) 0x80 =? 0) then false
      else if (lenS >? 1) && (sig !!! Z.to_nat (lenR + 6) =? 0) && (Z.land (sig !!! Z.to_nat (lenR + 7)) 0x80 =? 0)
      then false
      else true.

(** [IsLowDERSignature(vchSig, serror)] *)
Definition IsLowDERSignature `{LowSCheck} (vchSig : valtype) : result unit :=
  fail_if (negb (IsValidSignatureEncoding vchSig)) SCRIPT_ERR_SIG_DER;;
  fail_if (negb (CheckLowS (take (length vchSig - 1) vchSig))) SCRIPT_ERR_SIG_HIGH_S.

Definition IsDefinedHashtypeSignature (vchSig : valtype) : bool :=
  if zlen vchSig =? 0 then false
  else
    let nHashType := u8 (Z.land (back vchSig) (Z.lnot SIGHASH_ANYONECANPAY)) in
    if (nHashType <? SIGHASH_ALL) || (nHashType >? SIGHASH_SINGLE) then false else true.

Definition CheckSignatureEncoding `{LowSCheck} (vchSig : valtype) (flags : Z) : result unit :=
  if zlen vchSig =? 0 then Ok tt
  else if has flags (Z.lor (Z.lor SCRIPT_VERIFY_DERSIG SCRIPT_VERIFY_LOW_S) SCRIPT_VERIFY_STRICTENC)
          && negb (IsValidSignatureEncoding vchSig)
  then Err SCRIPT_ERR_SIG_DER
  else
    (if has flags SCRIPT_VERIFY_LOW_S then IsLowDERSignature vchSig else Ok tt);;
    fail_if (has flags SCRIPT_VERIFY_STRICTENC && negb (IsDefinedHashtypeSignature vchSig)) SCRIPT_ERR_SIG_HASHTYPE.

Definition CheckPubKeyEncoding (vchPubKey : valtype) (flags : Z) (sigversion : SigVersion) : result unit :=
  fail_if (has flags SCRIPT_VERIFY_STRICTENC && negb (IsCompressedOrUncompressedPubKey vchPubKey))
    SCRIPT_ERR_PUBKEYTYPE;;
  fail_if (has flags SCRIPT_VERIFY_WITNESS_PUBKEYTYPE && bool_decide (sigversion = SIGVERSION_WITNESS_V0) &&
           negb (IsCompressedPubKey vchPubKey)) SCRIPT_ERR_WITNESS_PUBKEYTYPE.

Definition CheckMinimalPush (data : valtype) (opcode : Z) : bool :=
  if zlen data =? 0 then opcode =? OP_0
  else if (zlen data =? 1) && (data !!! 0%nat >=? 1) && (data !!! 0%nat <=? 16)
  then opcode =? OP_1 + (data !!! 0%nat - 1)
  else if (zlen data =? 1) && (data !!! 0%nat =? 0x81) then opcode =? OP_1NEGATE
  else if zlen data <=? 75 then opcode =? zlen data
  else if zlen data <=? 255 then opcode =? OP_PUSHDATA1
  else if zlen data <=? 65535 then opcode =? OP_PUSHDATA2
  else true.

(** ** The stack machine *)

Definition vchFalse : valtype := [].
Definition vchTrue : valtype := [1].
Definition of_bool (b : bool) : valtype := if b then vchTrue else vchFalse.

(** the local variables of [EvalScript] that live across instructions *)
Record exec_state := ExecState {
  stack : list valtype;
  altstack : list valtype;
  vfExec : list bool;
  nOpCount : Z;
  pbegincodehash : script_bytes;
}.

Definition set_stack (st : exec_state) (s : list valtype) : exec_state :=
  ExecState s (altstack st) (vfExec st) (nOpCount st) (pbegincodehash st).
Definition set_stacks (st : exec_state) (s : list valtype * list valtype) : exec_state :=
  ExecState s.1 s.2 (vfExec st) (nOpCount st) (pbegincodehash st).
Definition set_exec (st : exec_state) (s : list valtype * list bool) : exec_state :=
  ExecState s.1 (altstack st) s.2 (nOpCount st) (pbegincodehash st).
Definition set_count (st : exec_state) (s : list valtype * Z) : exec_state :=
  ExecState s.1 (altstack st) (vfExec st) s.2 (pbegincodehash st).
Definition set_codehash (st : exec_state) (pc : script_bytes) : exec_state :=
  ExecState (stack st) (altstack st) (vfExec st) (nOpCount st) pc.

Abbreviation invalid_stack := (Err SCRIPT_ERR_INVALID_STACK_OPERATION).

(** [popstack(stack)] *)
Definition popstack (s : list valtype) : result (list valtype) :=
  match s with [] => Throw stack_error | _ :: s => Ok s end.

(** [stacktop(-i)]: [stack.at] throws out of range *)
Definition stacktop (s : list valtype) (i : Z) : result valtype := or_throw stack_error (s !! Z.to_nat (i - 1)).

Section Eval.
Context {hashes : ScriptHashes} {lows : LowSCheck} {checker : BaseSignatureChecker}.
Context (flags : Z) (sigversion : SigVersion).

(** [CScriptNum(vch, fRequireMinimal, nMaxNumSize)] *)
Definition num_of (vch : valtype) (nMaxNumSize : Z) : result Z :=
  let fRequireMinimal := has flags SCRIPT_VERIFY_MINIMALDATA in
  or_throw scriptnum_error (ScriptNum.CScriptNum vch fRequireMinimal nMaxNumSize).
Definition num (vch : valtype) : result Z := num_of vch ScriptNum.nDefaultMaxNumSize.

(** [OP_CHECKLOCKTIMEVERIFY] *)
Definition exec_cltv (s : list valtype) : result (list valtype) :=
  if negb (has flags SCRIPT_VERIFY_CHECKLOCKTIMEVERIFY) then
    fail_if (has flags SCRIPT_VERIFY_DISCOURAGE_UPGRADABLE_NOPS) SCRIPT_ERR_DISCOURAGE_UPGRADABLE_NOPS;;
    Ok s
  else
    match s with
    | [] => invalid_stack
    | top :: _ =>
        nLockTime ← num_of top 5;
        fail_if (nLockTime <? 0) SCRIPT_ERR_NEGATIVE_LOCKTIME;;
        fail_if (negb (CheckLockTime nLockTime)) SCRIPT_ERR_UNSATISFIED_LOCKTIME;;
        Ok s
    end.

(** [OP_CHECKSEQUENCEVERIFY] *)
Definition exec_csv (s : list valtype) : result (list valtype) :=
  if negb (has flags SCRIPT_VERIFY_CHECKSEQUENCEVERIFY) then
    fail_if (has flags SCRIPT_VERIFY_DISCOURAGE_UPGRADABLE_NOPS) SCRIPT_ERR_DISCOURAGE_UPGRADABLE_NOPS;;
    Ok s
  else
    match s with
    | [] => invalid_stack
    | top :: _ =>
        nSequence ← num_of top 5;
        fail_if (nSequence <? 0) SCRIPT_ERR_NEGATIVE_LOCKTIME;;
        if negb (Z.land nSequence SEQUENCE_LOCKTIME_DISABLE_FLAG =? 0) then Ok s
        else
          fail_if (negb (CheckSequence nSequence)) SCRIPT_ERR_UNSATISFIED_LOCKTIME;;
          Ok s
    end.

(** [OP_IF], [OP_NOTIF], [OP_ELSE], [OP_ENDIF]: the stack and [vfExec] *)
Definition exec_if (opcode : opcodetype) (fExec : bool) (s : list valtype) (vf : list bool)
    : result (list valtype * list bool) :=
  match opcode with
  | OP_IF | OP_NOTIF =>
      if fExec then
        match s with
        | [] => Err SCRIPT_ERR_UNBALANCED_CONDITIONAL
        | vch :: s =>
            fail_if (bool_decide (sigversion = SIGVERSION_WITNESS_V0) && has flags SCRIPT_VERIFY_MINIMALIF &&
                     ((zlen vch >? 1) || ((zlen vch =? 1) && negb (vch !!! 0%nat =? 1)))) SCRIPT_ERR_MINIMALIF;;
            let fValue := CastToBool vch in
            let fValue := if bool_decide (opcode = OP_NOTIF) then negb fValue else fValue in
            Ok (s, fValue :: vf)
        end
      else Ok (s, false :: vf)
  | OP_ELSE =>
      match vf with
      | [] => Err SCRIPT_ERR_UNBALANCED_CONDITIONAL
      | b :: vf => Ok (s, negb b :: vf)
      end
  | _ =>
      match vf with
      | [] => Err SCRIPT_ERR_UNBALANCED_CONDITIONAL
      | _ :: vf => Ok (s, vf)
      end
  end.

(** [OP_VERIFY] *)
Definition exec_verify (s : list valtype) : result (list valtype) :=
  match s with
  | [] => invalid_stack
  | top :: s => if CastToBool top then Ok s else Err SCRIPT_ERR_VERIFY
  end.

(** the first group of stack operations, [OP_TOALTSTACK] to [OP_2SWAP]: both stacks *)
Definition exec_stack1 (opcode : opcodetype) (s alt : list valtype) : result (list valtype * list valtype) :=
  match opcode with
  | OP_TOALTSTACK => match s with x :: s => Ok (s, x :: alt) | _ => invalid_stack end
  | OP_FROMALTSTACK =>
      match alt with x :: alt => Ok (x :: s, alt) | _ => Err SCRIPT_ERR_INVALID_ALTSTACK_OPERATION end
  | OP_2DROP => match s with _ :: _ :: s => Ok (s, alt) | _ => invalid_stack end
  | OP_2DUP => match s with x2 :: x1 :: _ => Ok (x2 :: x1 :: s, alt) | _ => invalid_stack end
  | OP_3DUP => match s with x3 :: x2 :: x1 :: _ => Ok (x3 :: x2 :: x1 :: s, alt) | _ => invalid_stack end
  | OP_2OVER => match s with _ :: _ :: x2 :: x1 :: _ => Ok (x2 :: x1 :: s, alt) | _ => invalid_stack end
  | OP_2ROT =>
      match s with
      | x6 :: x5 :: x4 :: x3 :: x2 :: x1 :: s => Ok (x2 :: x1 :: x6 :: x5 :: x4 :: x3 :: s, alt)
      | _ => invalid_stack
      end
  | _ => match s with x4 :: x3 :: x2 :: x1 :: s => Ok (x2 :: x1 :: x4 :: x3 :: s, alt) | _ => invalid_stack end
  end.

(** the second group, [OP_IFDUP] to [OP_SIZE] *)
Definition exec_stack2 (opcode : opcodetype) (s : list valtype) : result (list valtype) :=
  match opcode with
  | OP_IFDUP => match s with x :: _ => Ok (if CastToBool x then x :: s else s) | _ => invalid_stack end
  | OP_DEPTH => Ok (ScriptNum.getvch (zlen s) :: s)
  | OP_DROP => match s with _ :: s => Ok s | _ => invalid_stack end
  | OP_DUP => match s with x :: _ => Ok (x :: s) | _ => invalid_stack end
  | OP_NIP => match s with x2 :: _ :: s => Ok (x2 :: s) | _ => invalid_stack end
  | OP_OVER => match s with _ :: x1 :: _ => Ok (x1 :: s) | _ => invalid_stack end
  | OP_PICK | OP_ROLL =>
      match s with
      | top :: ((_ :: _) as s) =>
          n ← num top;
          let n := ScriptNum.getint n in
          if (n <? 0) || (n >=? zlen s) then invalid_stack
          else
            vch ← stacktop s (n + 1);
            Ok (vch :: if bool_decide (opcode = OP_ROLL) then delete (Z.to_nat n) s else s)
      | _ => invalid_stack
      end
  | OP_ROT => match s with x3 :: x2 :: x1 :: s => Ok (x1 :: x3 :: x2 :: s) | _ => invalid_stack end
  | OP_SWAP => match s with x2 :: x1 :: s => Ok (x1 :: x2 :: s) | _ => invalid_stack end
  | OP_TUCK => match s with x2 :: x1 :: s => Ok (x2 :: x1 :: x2 :: s) | _ => invalid_stack end
  | _ => match s with x :: _ => Ok (ScriptNum.getvch (zlen x) :: s) | _ => invalid_stack end
  end.

(** [OP_EQUAL], [OP_EQUALVERIFY] *)
Definition exec_equal (opcode : opcodetype) (s : list valtype) : result (list valtype) :=
  match s with
  | vch2 :: vch1 :: s =>
      let fEqual := bool_decide (vch1 = vch2) in
      if bool_decide (opcode = OP_EQUALVERIFY)
      then if fEqual then Ok s else Err SCRIPT_ERR_EQUALVERIFY
      else Ok (of_bool fEqual :: s)
  | _ => invalid_stack
  end.

(** a comparison assigned to a [CScriptNum] *)
Definition num_bool (b : bool) : Z := if b then 1 else 0.

(** the one-operand numeric operations *)
Definition exec_unary (opcode : opcodetype) (s : list valtype) : result (list valtype) :=
  match s with
  | top :: s =>
      bn ← num top;
      bn ← (match opcode with
            | OP_1ADD => or_abort (ScriptNum.add_assign bn 1)
            | OP_1SUB => or_abort (ScriptNum.sub_assign bn 1)
            | OP_NEGATE => or_abort (ScriptNum.negate bn)
            | OP_ABS => if bn <? 0 then or_abort (ScriptNum.negate bn) else Ok bn
            | OP_NOT => Ok (num_bool (bn =? 0))
            | OP_0NOTEQUAL => Ok (num_bool (negb (bn =? 0)))
            | _ => Abort
            end);
      Ok (ScriptNum.getvch bn :: s)
  | _ => invalid_stack
  end.

(** the two-operand numeric operations *)
Definition binary_result (opcode : opcodetype) (bn1 bn2 : Z) : result Z :=
  match opcode with
  | OP_ADD => Ok (ScriptNum.add bn1 bn2)
  | OP_SUB => Ok (ScriptNum.sub bn1 bn2)
  | OP_BOOLAND => Ok (num_bool (negb (bn1 =? 0) && negb (bn2 =? 0)))
  | OP_BOOLOR => Ok (num_bool (negb (bn1 =? 0) || negb (bn2 =? 0)))
  | OP_NUMEQUAL | OP_NUMEQUALVERIFY => Ok (num_bool (bn1 =? bn2))
  | OP_NUMNOTEQUAL => Ok (num_bool (negb (bn1 =? bn2)))
  | OP_LESSTHAN => Ok (num_bool (bn1 <? bn2))
  | OP_GREATERTHAN => Ok (num_bool (bn1 >? bn2))
  | OP_LESSTHANOREQUAL => Ok (num_bool (bn1 <=? bn2))
  | OP_GREATERTHANOREQUAL => Ok (num_bool (bn1 >=? bn2))
  | OP_MIN => Ok (if bn1 <? bn2 then bn1 else bn2)
  | OP_MAX => Ok (if bn1 >? bn2 then bn1 else bn2)
  | _ => Abort
  end.

Definition exec_binary (opcode : opcodetype) (s : list valtype) : result (list valtype) :=
  match s with
  | top2 :: top1 :: s =>
      bn1 ← num top1;
      bn2 ← num top2;
      bn ← binary_result opcode bn1 bn2;
      let vch := ScriptNum.getvch bn in
      if bool_decide (opcode = OP_NUMEQUALVERIFY)
      then if CastToBool vch then Ok s else Err SCRIPT_ERR_NUMEQUALVERIFY
      else Ok (vch :: s)
  | _ => invalid_stack
  end.

(** [OP_WITHIN] *)
Definition exec_within (s : list valtype) : result (list valtype) :=
  match s with
  | top3 :: top2 :: top1 :: s =>
      bn1 ← num top1;
      bn2 ← num top2;
      bn3 ← num top3;
      Ok (of_bool ((bn2 <=? bn1) && (bn1 <? bn3)) :: s)
  | _ => invalid_stack
  end.

(** the hash operations *)
Definition exec_hash (opcode : opcodetype) (s : list valtype) : result (list valtype) :=
  match s with
  | vch :: s =>
      let vchHash :=
        match opcode with
        | OP_RIPEMD160 => RIPEMD160 vch
        | OP_SHA1 => SHA1 vch
        | OP_SHA256 => SHA256 vch
        | OP_HASH160 => Hash160 vch
        | _ => Hash256 vch
        end in
      Ok (vchHash :: s)
  | _ => invalid_stack
  end.

(** [OP_CHECKSIG], [OP_CHECKSIGVERIFY]; [code] is the script from [pbegincodehash] on *)
Definition exec_checksig (opcode : opcodetype) (code : script_bytes) (s : list valtype) : result (list valtype) :=
  match s with
  | vchPubKey :: vchSig :: s =>
      let scriptCode :=
        if bool_decide (sigversion = SIGVERSION_BASE)
        then (Script.FindAndDelete code (Script.push_data [] vchSig)).1 else code in
      CheckSignatureEncoding vchSig flags;;
      CheckPubKeyEncoding vchPubKey flags sigversion;;
      let fSuccess := CheckSig vchSig vchPubKey scriptCode sigversion in
      fail_if (negb fSuccess && has flags SCRIPT_VERIFY_NULLFAIL && negb (zlen vchSig =? 0)) SCRIPT_ERR_SIG_NULLFAIL;;
      if bool_decide (opcode = OP_CHECKSIGVERIFY)
      then if fSuccess then Ok s else Err SCRIPT_ERR_CHECKSIGVERIFY
      else Ok (of_bool fSuccess :: s)
  | _ => invalid_stack
  end.

(** [for (int k = 0; k < nSigsCount; k++)]: drop the signatures from the script code *)
Definition multisig_code (s : list valtype) (isig : Z) (nSigsCount : nat) (code : script_bytes)
    : result script_bytes :=
  for_loop nSigsCount (fun k scriptCode =>
    scriptCode ← scriptCode;
    vchSig ← stacktop s (isig + Z.of_nat k);
    Ok (if bool_decide (sigversion = SIGVERSION_BASE)
        then (Script.FindAndDelete scriptCode (Script.push_data [] vchSig)).1 else scriptCode)) (Ok code).

(** the signature check of one turn: encodings first, then the signature *)
Definition multisig_check (s : list valtype) (scriptCode : script_bytes) (isig ikey : Z) : result bool :=
  vchSig ← stacktop s isig;
  vchPubKey ← stacktop s ikey;
  CheckSignatureEncoding vchSig flags;;
  CheckPubKeyEncoding vchPubKey flags sigversion;;
  Ok (CheckSig vchSig vchPubKey scriptCode sigversion).

(** one turn of [while (fSuccess && nSigsCount > 0)] *)
Definition multisig_step (s : list valtype) (scriptCode : script_bytes) (st : bool * Z * Z * Z * Z)
    : bool * Z * Z * Z * Z + result bool :=
  let '(fSuccess, isig, ikey, nSigsCount, nKeysCount) := st in
  if fSuccess && (nSigsCount >? 0) then
    match multisig_check s scriptCode isig ikey with
    | Ok fOk =>
        let '(isig, nSigsCount) := if fOk then (isig + 1, nSigsCount - 1) else (isig, nSigsCount) in
        let ikey := ikey + 1 in
        let nKeysCount := nKeysCount - 1 in
        let fSuccess := if nSigsCount >? nKeysCount then false else fSuccess in
        inl (fSuccess, isig, ikey, nSigsCount, nKeysCount)
    | Err e => inr (Err e)
    | Throw x => inr (Throw x)
    | Abort => inr Abort
    | Diverge => inr Diverge
    end
  else inr (Ok fSuccess).

(** the whole loop; every turn consumes a key *)
Definition multisig_verify (s : list valtype) (scriptCode : script_bytes) (isig ikey nSigsCount nKeysCount : Z)
    : result bool :=
  default Diverge (while_loop (multisig_step s scriptCode) (S (Z.to_nat nKeysCount))
                   (true, isig, ikey, nSigsCount, nKeysCount)).

(** [while (i-- > 1)]: remove the arguments, [n] of them *)
Fixpoint multisig_cleanup (n : nat) (fSuccess : bool) (ikey2 : Z) (s : list valtype) : result (list valtype) :=
  match n with
  | O => Ok s
  | S n =>
      top ← stacktop s 1;
      fail_if (negb fSuccess && has flags SCRIPT_VERIFY_NULLFAIL && (ikey2 =? 0) && negb (zlen top =? 0))
        SCRIPT_ERR_SIG_NULLFAIL;;
      s ← popstack s;
      multisig_cleanup n fSuccess (if ikey2 >? 0 then ikey2 - 1 else ikey2) s
  end.

(** [OP_CHECKMULTISIG], [OP_CHECKMULTISIGVERIFY]: the stack and the operation count *)
Definition exec_checkmultisig (opcode : opcodetype) (code : script_bytes) (s : list valtype) (nOpCount : Z)
    : result (list valtype * Z) :=
  if zlen s <? 1 then invalid_stack
  else
    top ← stacktop s 1;
    nKeys ← num top;
    let nKeysCount := ScriptNum.getint nKeys in
    fail_if ((nKeysCount <? 0) || (nKeysCount >? MAX_PUBKEYS_PER_MULTISIG)) SCRIPT_ERR_PUBKEY_COUNT;;
    let nOpCount := nOpCount + nKeysCount in
    fail_if (nOpCount >? MAX_OPS_PER_SCRIPT) SCRIPT_ERR_OP_COUNT;;
    let ikey := 2 in
    let ikey2 := nKeysCount + 2 in
    let i := 2 + nKeysCount in
    fail_if (zlen s <? i) SCRIPT_ERR_INVALID_STACK_OPERATION;;
    top ← stacktop s i;
    nSigs ← num top;
    let nSigsCount := ScriptNum.getint nSigs in
    fail_if ((nSigsCount <? 0) || (nSigsCount >? nKeysCount)) SCRIPT_ERR_SIG_COUNT;;
    let isig := i + 1 in
    let i := isig + nSigsCount in
    fail_if (zlen s <? i) SCRIPT_ERR_INVALID_STACK_OPERATION;;
    scriptCode ← multisig_code s isig (Z.to_nat nSigsCount) code;
    fSuccess ← multisig_verify s scriptCode isig ikey nSigsCount nKeysCount;
    s ← multisig_cleanup (Z.to_nat (i - 1)) fSuccess ikey2 s;
    match s with
    | [] => invalid_stack
    | dummy :: s =>
        fail_if (has flags SCRIPT_VERIFY_NULLDUMMY && negb (zlen dummy =? 0)) SCRIPT_ERR_SIG_NULLDUMMY;;
        if bool_decide (opcode = OP_CHECKMULTISIGVERIFY)
        then if (fSuccess : bool) then Ok (s, nOpCount) else Err SCRIPT_ERR_CHECKMULTISIGVERIFY
        else Ok (of_bool fSuccess :: s, nOpCount)
    end.

(** the [switch]; [pc] is the iterator behind the instruction *)
Definition exec_op (opcode : Z) (fExec : bool) (pc : script_bytes) (st : exec_state) : result exec_state :=
  match opcode_of opcode with
  | Some (OP_1NEGATE | OP_1 | OP_2 | OP_3 | OP_4 | OP_5 | OP_6 | OP_7 | OP_8 | OP_9 | OP_10
         | OP_11 | OP_12 | OP_13 | OP_14 | OP_15 | OP_16) =>
      Ok (set_stack st (ScriptNum.getvch (opcode - (OP_1 - 1)) :: stack st))
  | Some OP_NOP => Ok st
  | Some OP_CHECKLOCKTIMEVERIFY => set_stack st <$> exec_cltv (stack st)
  | Some OP_CHECKSEQUENCEVERIFY => set_stack st <$> exec_csv (stack st)
  | Some (OP_NOP1 | OP_NOP4 | OP_NOP5 | OP_NOP6 | OP_NOP7 | OP_NOP8 | OP_NOP9 | OP_NOP10) =>
      fail_if (has flags SCRIPT_VERIFY_DISCOURAGE_UPGRADABLE_NOPS) SCRIPT_ERR_DISCOURAGE_UPGRADABLE_NOPS;;
      Ok st
  | Some ((OP_IF | OP_NOTIF | OP_ELSE | OP_ENDIF) as op) => set_exec st <$> exec_if op fExec (stack st) (vfExec st)
  | Some OP_VERIFY => set_stack st <$> exec_verify (stack st)
  | Some OP_RETURN => Err SCRIPT_ERR_OP_RETURN
  | Some ((OP_TOALTSTACK | OP_FROMALTSTACK | OP_2DROP | OP_2DUP | OP_3DUP | OP_2OVER | OP_2ROT | OP_2SWAP) as op) =>
      set_stacks st <$> exec_stack1 op (stack st) (altstack st)
  | Some ((OP_IFDUP | OP_DEPTH | OP_DROP | OP_DUP | OP_NIP | OP_OVER | OP_PICK | OP_ROLL | OP_ROT | OP_SWAP
          | OP_TUCK | OP_SIZE) as op) => set_stack st <$> exec_stack2 op (stack st)
  | Some ((OP_EQUAL | OP_EQUALVERIFY) as op) => set_stack st <$> exec_equal op (stack st)
  | Some ((OP_1ADD | OP_1SUB | OP_NEGATE | OP_ABS | OP_NOT | OP_0NOTEQUAL) as op) =>
      set_stack st <$> exec_unary op (stack st)
  | Some ((OP_ADD | OP_SUB | OP_BOOLAND | OP_BOOLOR | OP_NUMEQUAL | OP_NUMEQUALVERIFY | OP_NUMNOTEQUAL
          | OP_LESSTHAN | OP_GREATERTHAN | OP_LESSTHANOREQUAL | OP_GREATERTHANOREQUAL | OP_MIN | OP_MAX) as op) =>
      set_stack st <$> exec_binary op (stack st)
  | Some OP_WITHIN => set_stack st <$> exec_within (stack st)
  | Some ((OP_RIPEMD160 | OP_SHA1 | OP_SHA256 | OP_HASH160 | OP_HASH256) as op) =>
      set_stack st <$> exec_hash op (stack st)
  | Some OP_CODESEPARATOR => Ok (set_codehash st pc)
  | Some ((OP_CHECKSIG | OP_CHECKSIGVERIFY) as op) =>
      set_stack st <$> exec_checksig op (pbegincodehash st) (stack st)
  | Some ((OP_CHECKMULTISIG | OP_CHECKMULTISIGVERIFY) as op) =>
      set_count st <$> exec_checkmultisig op (pbegincodehash st) (stack st) (nOpCount st)
  | Some OP_BLKR_ASSET => Ok st
  | _ => Err SCRIPT_ERR_BAD_OPCODE
  end.

Definition is_disabled (opcode : Z) : bool :=
  match opcode_of opcode with
  | Some (OP_CAT | OP_SUBSTR | OP_LEFT | OP_RIGHT | OP_INVERT | OP_AND | OP_OR | OP_XOR | OP_2MUL | OP_2DIV
         | OP_MUL | OP_DIV | OP_MOD | OP_LSHIFT | OP_RSHIFT) => true
  | _ => false
  end.

(** the body of the loop behind [GetOp]: limits, disabled opcodes, push or [switch] *)
Definition exec_instruction (opcode : Z) (vchPushValue : valtype) (pc : script_bytes) (st : exec_state)
    : result exec_state :=
  let fExec := forallb id (vfExec st) in
  fail_if (zlen vchPushValue >? MAX_SCRIPT_ELEMENT_SIZE) SCRIPT_ERR_PUSH_SIZE;;
  let nOpCount' := if opcode >? OP_16 then nOpCount st + 1 else nOpCount st in
  fail_if ((opcode >? OP_16) && (nOpCount' >? MAX_OPS_PER_SCRIPT)) SCRIPT_ERR_OP_COUNT;;
  let st := set_count st (stack st, nOpCount') in
  fail_if (is_disabled opcode) SCRIPT_ERR_DISABLED_OPCODE;;
  st ← (if fExec && (0 <=? opcode) && (opcode <=? OP_PUSHDATA4) then
          fail_if (has flags SCRIPT_VERIFY_MINIMALDATA && negb (CheckMinimalPush vchPushValue opcode))
            SCRIPT_ERR_MINIMALDATA;;
          Ok (set_stack st (vchPushValue :: stack st))
        else if fExec || ((OP_IF <=? opcode) && (opcode <=? OP_ENDIF)) then exec_op opcode fExec pc st
        else Ok st);
  fail_if (zlen (stack st) + zlen (altstack st) >? MAX_STACK_SIZE) SCRIPT_ERR_STACK_SIZE;;
  Ok st.

(** one turn of [while (pc < pend)], with the [catch (...)] around it *)
Definition eval_step (st : script_bytes * exec_state) : script_bytes * exec_state + result (list valtype) :=
  let '(pc, st) := st in
  match pc with
  | [] => inr (if bool_decide (vfExec st = []) then Ok (stack st) else Err SCRIPT_ERR_UNBALANCED_CONDITIONAL)
  | _ =>
      match Script.GetOp2 pc with
      | (_, None) => inr (Err SCRIPT_ERR_BAD_OPCODE)
      | (pc, Some (opcode, vchPushValue)) =>
          match exec_instruction opcode vchPushValue pc st with
          | Ok st => inl (pc, st)
          | Err e => inr (Err e)
          | Throw _ => inr (Err SCRIPT_ERR_UNKNOWN_ERROR)
          | Abort => inr Abort
          | Diverge => inr Diverge
          end
      end
  end.

(** [EvalScript(stack, script, flags, checker, sigversion, serror)]: the stack it
    leaves, or the error *)
Definition EvalScript (s : list valtype) (script : script_bytes) : result (list valtype) :=
  if zlen script >? MAX_SCRIPT_SIZE then Err SCRIPT_ERR_SCRIPT_SIZE
  else default Diverge (while_loop eval_step (S (length script)) (script, ExecState s [] [] 0 script)).

End Eval.

(** ** Spending an output *)

(** [stack.resize(1)] of a vector, whose first element is the last of the list *)
Definition resize1 (s : list valtype) : list valtype := [default [] (last s)].

(** the last test on a stack: not empty and true on top *)
Definition check_top (s : list valtype) : result unit :=
  match s with
  | [] => Err SCRIPT_ERR_EVAL_FALSE
  | top :: _ => fail_if (negb (CastToBool top)) SCRIPT_ERR_EVAL_FALSE
  end.

(** the elements of the initial witness stack are limited in size *)
Fixpoint check_sizes (s : list valtype) : result unit :=
  match s with
  | [] => Ok tt
  | x :: s => fail_if (zlen x >? MAX_SCRIPT_ELEMENT_SIZE) SCRIPT_ERR_PUSH_SIZE;; check_sizes s
  end.

Section Verify.
Context {hashes : ScriptHashes} {lows : LowSCheck} {checker : BaseSignatureChecker}.
Context (flags : Z).

(** the script and the initial stack of a version 0 program; a witness is its
    [stack] vector, first element first *)
Definition witness_v0 (witness : list valtype) (program : valtype) : result (script_bytes * list valtype) :=
  if zlen program =? 32 then
    if zlen witness =? 0 then Err SCRIPT_ERR_WITNESS_PROGRAM_WITNESS_EMPTY
    else
      let scriptPubKey := default [] (last witness) in
      let stack := reverse (take (length witness - 1) witness) in
      if negb (bool_decide (SHA256 scriptPubKey = program)) then Err SCRIPT_ERR_WITNESS_PROGRAM_MISMATCH
      else Ok (scriptPubKey, stack)
  else if zlen program =? 20 then
    if negb (zlen witness =? 2) then Err SCRIPT_ERR_WITNESS_PROGRAM_MISMATCH
    else
      let scriptPubKey := Script.push_opcode (Script.push_opcode [] OP_DUP) OP_HASH160 in
      let scriptPubKey := Script.push_data scriptPubKey program in
      let scriptPubKey := Script.push_opcode (Script.push_opcode scriptPubKey OP_EQUALVERIFY) OP_CHECKSIG in
      Ok (scriptPubKey, reverse witness)
  else Err SCRIPT_ERR_WITNESS_PROGRAM_WRONG_LENGTH.

(** [VerifyWitnessProgram(witness, witversion, program, flags, checker, serror)] *)
Definition VerifyWitnessProgram (witness : list valtype) (witversion : Z) (program : valtype) : result unit :=
  if witversion =? 0 then
    p ← witness_v0 witness program;
    let '(scriptPubKey, stack) := (p : script_bytes * list valtype) in
    check_sizes (reverse stack);;
    stack ← EvalScript flags SIGVERSION_WITNESS_V0 stack scriptPubKey;
    fail_if (negb (zlen stack =? 1)) SCRIPT_ERR_EVAL_FALSE;;
    check_top stack
  else fail_if (has flags SCRIPT_VERIFY_DISCOURAGE_UPGRADABLE_WITNESS_PROGRAM)
         SCRIPT_ERR_DISCOURAGE_UPGRADABLE_WITNESS_PROGRAM.

(** the bare witness program: the stack and [hadWitness] *)
Definition verify_bare_witness (scriptSig scriptPubKey : script_bytes) (witness stack : list valtype)
    : result (list valtype * bool) :=
  if has flags SCRIPT_VERIFY_WITNESS then
    match Script.IsWitnessProgram scriptPubKey with
    | Some (witnessversion, witnessprogram) =>
        fail_if (negb (zlen scriptSig =? 0)) SCRIPT_ERR_WITNESS_MALLEATED;;
        VerifyWitnessProgram witness witnessversion witnessprogram;;
        Ok (resize1 stack, true)
    | None => Ok (stack, false)
    end
  else Ok (stack, false).

(** the pay-to-script-hash part, on the stack [scriptSig] left *)
Definition verify_p2sh (scriptSig : script_bytes) (witness stackCopy : list valtype) (hadWitness : bool)
    : result (list valtype * bool) :=
  fail_if (negb (Script.IsPushOnly scriptSig)) SCRIPT_ERR_SIG_PUSHONLY;;
  match stackCopy with
  | [] => Abort
  | pubKey2 :: stack =>
      stack ← EvalScript flags SIGVERSION_BASE stack pubKey2;
      check_top stack;;
      if has flags SCRIPT_VERIFY_WITNESS then
        match Script.IsWitnessProgram pubKey2 with
        | Some (witnessversion, witnessprogram) =>
            fail_if (negb (bool_decide (scriptSig = Script.push_data [] pubKey2))) SCRIPT_ERR_WITNESS_MALLEATED_P2SH;;
            VerifyWitnessProgram witness witnessversion witnessprogram;;
            Ok (resize1 stack, true)
        | None => Ok (stack, hadWitness)
        end
      else Ok (stack, hadWitness)
  end.

(** the final [CLEANSTACK] and unexpected-witness tests, with their assertions *)
Definition verify_end (witness stack : list valtype) (hadWitness : bool) : result unit :=
  (if has flags SCRIPT_VERIFY_CLEANSTACK then
     if negb (has flags SCRIPT_VERIFY_P2SH) then Abort
     else if negb (has flags SCRIPT_VERIFY_WITNESS) then Abort
     else fail_if (negb (zlen stack =? 1)) SCRIPT_ERR_CLEANSTACK
   else Ok tt);;
  if has flags SCRIPT_VERIFY_WITNESS then
    if negb (has flags SCRIPT_VERIFY_P2SH) then Abort
    else fail_if (negb hadWitness && negb (bool_decide (witness = []))) SCRIPT_ERR_WITNESS_UNEXPECTED
  else Ok tt.

(** [VerifyScript(scriptSig, scriptPubKey, witness, flags, checker, serror)] *)
Definition VerifyScript (scriptSig scriptPubKey : script_bytes) (witness : list valtype) : result unit :=
  fail_if (has flags SCRIPT_VERIFY_SIGPUSHONLY && negb (Script.IsPushOnly scriptSig)) SCRIPT_ERR_SIG_PUSHONLY;;
  stackCopy ← EvalScript flags SIGVERSION_BASE [] scriptSig;
  stack ← EvalScript flags SIGVERSION_BASE stackCopy scriptPubKey;
  check_top stack;;
  p ← verify_bare_witness scriptSig scriptPubKey witness stack;
  let '(stack, hadWitness) := (p : list valtype * bool) in
  p ← (if has flags SCRIPT_VERIFY_P2SH && Script.IsPayToScriptHash scriptPubKey
       then verify_p2sh scriptSig witness stackCopy hadWitness
       else Ok (stack, hadWitness));
  let '(stack, hadWitness) := (p : list valtype * bool) in
  verify_end witness stack hadWitness.

(** [WitnessSigOps(witversion, witprogram, witness, flags)] *)
Definition WitnessSigOps (witversion : Z) (witprogram : valtype) (witness : list valtype) : Z :=
  if witversion =? 0 then
    if zlen witprogram =? 20 then 1
    else if (zlen witprogram =? 32) && (zlen witness >? 0)
    then Script.GetSigOpCount true (default [] (last witness))
    else 0
  else 0.

(** [while (pc < scriptSig.end()) scriptSig.GetOp(pc, opcode, data)]: the last data;
    the loop reads a push-only script, where [GetOp] does not fail *)
Definition last_push (scriptSig : script_bytes) : valtype :=
  Script.run_ops (fun _ => []) (fun _ data _ => inl data) id scriptSig [].

(** [CountWitnessSigOps(scriptSig, scriptPubKey, witness, flags)] *)
Definition CountWitnessSigOps (scriptSig scriptPubKey : script_bytes) (witness : list valtype) : result Z :=
  if negb (has flags SCRIPT_VERIFY_WITNESS) then Ok 0
  else if negb (has flags SCRIPT_VERIFY_P2SH) then Abort
  else
    match Script.IsWitnessProgram scriptPubKey with
    | Some (witnessversion, witnessprogram) => Ok (WitnessSigOps witnessversion witnessprogram witness)
    | None =>
        if Script.IsPayToScriptHash scriptPubKey && Script.IsPushOnly scriptSig then
          match Script.IsWitnessProgram (last_push scriptSig) with
          | Some (witnessversion, witnessprogram) => Ok (WitnessSigOps witnessversion witnessprogram witness)
          | None => Ok 0
          end
        else Ok 0
    end.

End Verify.

(** ** Concrete instances of the interfaces, for examples *)

Definition sample_digest (n : nat) (x : valtype) : valtype := take n (map u8 x ++ replicate n 0).

Lemma sample_digest_size n x : length (sample_digest n x) = n /\ bytes (sample_digest n x).
Proof.
  unfold sample_digest. split; [rewrite length_take, length_app, length_replicate; lia|].
  apply Forall_take, Forall_app. split; [|apply Forall_replicate; unfold is_u8; lia].
  apply Forall_map, Forall_true. intros y. unfold is_u8, u8. apply Z.mod_pos_bound. lia.
Qed.

Definition sample_hashes : ScriptHashes := {|
  RIPEMD160 := sample_digest 20;
  SHA1 := sample_digest 20;
  SHA256 := sample_digest 32;
  RIPEMD160_size := sample_digest_size 20;
  SHA1_size := sample_digest_size 20;
  SHA256_size := sample_digest_size 32;
|}.

Definition sample_lows : LowSCheck := {| CheckLowS _ := true |}.

(** a signature is good when its first byte is the first byte of the key *)
Definition sample_checker : BaseSignatureChecker := {|
  CheckSig sig key _ _ := negb (zlen sig =? 0) && (sig !!! 0%nat =? key !!! 0%nat);
  CheckLockTime n := n <=? 100;
  CheckSequence n := n <=? 100;
|}.
