(* ===== verification/InterpreterSafety.v ===== *)
(** * The interpreter is total and respects its limits

    Every instruction keeps the machine state well formed, no assertion and no
    out-of-range stack access is reachable, the loops end within their bounds, and
    the only exception the [catch (...)] of [EvalScript] ever sees is a script
    number error. *)

From stdpp Require Import relations.
From S2P Require Import Prelude Opcodes ScriptNum Script Interpreter.

(** ** Outcomes that are allowed *)

Definition safe {A} (Q : A -> Prop) (r : result A) : Prop :=
  match r with
  | Ok a => Q a
  | Err _ => True
  | Throw x => x = scriptnum_error
  | Abort | Diverge => False
  end.

Lemma safe_bind {A B} (P : A -> Prop) (Q : B -> Prop) (r : result A) (f : A -> result B) :
  safe P r -> (forall a, P a -> safe Q (f a)) -> safe Q (r ≫= f).
Proof. destruct r; simpl; auto. Qed.

Lemma safe_fmap {A B} (P : A -> Prop) (Q : B -> Prop) (r : result A) (f : A -> B) :
  safe P r -> (forall a, P a -> Q (f a)) -> safe Q (f <$> r).
Proof. destruct r; simpl; auto. Qed.

Lemma safe_mono {A} (P Q : A -> Prop) (r : result A) : safe P r -> (forall a, P a -> Q a) -> safe Q r.
Proof. destruct r; simpl; auto. Qed.

Lemma safe_fail_if b e : safe (fun _ => b = false) (fail_if b e).
Proof. by destruct b. Qed.

(** a guard in front of the rest of a handler *)
Lemma safe_guard {B} (Q : B -> Prop) b e (k : unit -> result B) :
  (b = false -> safe Q (k tt)) -> safe Q (fail_if b e ≫= k).
Proof. intros H. destruct b; simpl; [done | by apply H]. Qed.

(** ** Elements and stacks *)

Definition elem_ok (x : valtype) : Prop := bytes x /\ zlen x <= MAX_SCRIPT_ELEMENT_SIZE.
Definition stack_ok (s : list valtype) : Prop := Forall elem_ok s.

Lemma getvch_ok n : - 2 ^ 63 < n < 2 ^ 63 -> elem_ok (ScriptNum.getvch n).
Proof.
  intros Hn. destruct (serialize_spec n Hn) as (_ & Hb & _ & Hl). split; [done|].
  unfold MAX_SCRIPT_ELEMENT_SIZE, ScriptNum.getvch. lia.
Qed.

Lemma of_bool_ok b : elem_ok (of_bool b).
Proof. destruct b; split; try (simpl; unfold MAX_SCRIPT_ELEMENT_SIZE; lia); repeat constructor; unfold is_u8; lia. Qed.

Lemma digest_ok (x : valtype) n : length x = n /\ bytes x -> (n <= 520)%nat -> elem_ok x.
Proof. intros [H1 H2] Hn. split; [done|]. unfold MAX_SCRIPT_ELEMENT_SIZE. lia. Qed.

#[export] Hint Resolve getvch_ok of_bool_ok : br.

Lemma num_of_safe flags v m : bytes v -> 1 <= m <= 8 ->
  safe (fun n => Z.abs n < 2 ^ (8 * m - 1)) (num_of flags v m).
Proof.
  intros Hv Hm. unfold num_of. rewrite CScriptNum_eq, Z.gtb_ltb.
  destruct (Z.ltb_spec m (zlen v)) as [|Hle]; simpl; [done|].
  destruct (has flags SCRIPT_VERIFY_MINIMALDATA && negb (minimal v)); simpl; [done|].
  rewrite set_vch_spec by (done || lia). destruct (Z.eq_dec (zlen v) 0) as [E|E].
  - destruct v; [|done]. simpl. apply Z.pow_pos_nonneg; lia.
  - pose proof (signed_val_bound v Hv ltac:(lia)).
    assert (2 ^ (8 * zlen v - 1) <= 2 ^ (8 * m - 1)) by (apply Z.pow_le_mono_r; lia). lia.
Qed.

Lemma num_safe flags v : elem_ok v -> safe (fun n => Z.abs n < 2 ^ 31) (num flags v).
Proof. intros [Hv _]. by apply num_of_safe. Qed.

Lemma getint_small n : Z.abs n < 2 ^ 31 -> ScriptNum.getint n = n.
Proof.
  intros Hn. unfold ScriptNum.getint, INT_MAX. rewrite Z.gtb_ltb, (proj2 (Z.ltb_ge _ _)), (proj2 (Z.ltb_ge _ _)) by lia. done.
Qed.

Lemma stacktop_safe s i : stack_ok s -> 1 <= i <= zlen s -> safe elem_ok (stacktop s i).
Proof.
  intros Hs Hi. unfold stacktop. destruct (lookup_lt_is_Some_2 s (Z.to_nat (i - 1)) ltac:(lia)) as [x Hx].
  rewrite Hx. simpl. by apply (Forall_lookup_1 _ _ _ _ Hs Hx).
Qed.

Lemma CheckSignatureEncoding_safe `{LowSCheck} v flags : safe (fun _ => True) (CheckSignatureEncoding v flags).
Proof.
  unfold CheckSignatureEncoding, IsLowDERSignature, fail_if. case_ifs; simpl; try done; case_ifs; simpl; try done; by case_ifs.
Qed.

Lemma CheckPubKeyEncoding_safe v flags sv : safe (fun _ => True) (CheckPubKeyEncoding v flags sv).
Proof. unfold CheckPubKeyEncoding, fail_if. case_ifs; simpl; try done; by case_ifs. Qed.

Lemma stack_ok_cons x s : stack_ok (x :: s) <-> elem_ok x /\ stack_ok s.
Proof. apply Forall_cons. Qed.

(** case analysis on the shape of the stack, as the handlers do *)
Ltac stack_cases :=
  repeat match goal with
  | |- safe _ (match ?s with [] => _ | _ :: _ => _ end) => destruct s; [exact I|]
  | H : stack_ok (_ :: _) |- _ => apply stack_ok_cons in H as [? H]
  end.
Ltac stack_done := simpl; repeat (apply Forall_cons; split); auto with br.

Section Safety.
Context {hashes : ScriptHashes} {lows : LowSCheck} {checker : BaseSignatureChecker}.
Context (flags : Z) (sv : SigVersion).

(** ** Handlers that only touch the stacks *)

Lemma exec_cltv_safe s : stack_ok s -> safe stack_ok (exec_cltv flags s).
Proof.
  intros Hs. unfold exec_cltv. destruct (negb _); [by apply safe_guard|]. destruct s as [|x s]; [done|].
  apply (safe_bind _ _ _ _ (num_of_safe flags x 5 (proj1 (proj1 (proj1 (stack_ok_cons x s) Hs))) ltac:(lia))).
  intros n _. apply safe_guard. intros _. by apply safe_guard.
Qed.

Lemma exec_csv_safe s : stack_ok s -> safe stack_ok (exec_csv flags s).
Proof.
  intros Hs. unfold exec_csv. destruct (negb _); [by apply safe_guard|]. destruct s as [|x s]; [done|].
  apply (safe_bind _ _ _ _ (num_of_safe flags x 5 (proj1 (proj1 (proj1 (stack_ok_cons x s) Hs))) ltac:(lia))).
  intros n _. apply safe_guard. intros _. destruct (negb _); [done|]. by apply safe_guard.
Qed.

Lemma exec_if_safe op fExec s vf : stack_ok s ->
  safe (fun r => stack_ok r.1 /\ (length r.1 <= length s)%nat) (exec_if flags sv op fExec s vf).
Proof.
  intros Hs. unfold exec_if.
  destruct op; try (destruct vf; simpl; auto);
    (destruct fExec; [destruct s as [|x s]; [done|]; apply safe_guard; intros _; simpl;
       split; [by apply (Forall_cons elem_ok x s) | lia] | simpl; auto]).
Qed.

Lemma exec_verify_safe s : stack_ok s -> safe stack_ok (exec_verify s).
Proof. intros Hs. unfold exec_verify. stack_cases. by destruct (CastToBool _). Qed.

Lemma exec_stack1_safe op s alt : stack_ok s -> stack_ok alt ->
  safe (fun r => stack_ok r.1 /\ stack_ok r.2) (exec_stack1 op s alt).
Proof. intros Hs Ha. unfold exec_stack1. destruct op; stack_cases; split; stack_done. Qed.

Lemma exec_stack2_safe op s : stack_ok s -> zlen s < 2 ^ 63 -> safe stack_ok (exec_stack2 flags op s).
Proof.
  intros Hs Hlen. assert (Hd : elem_ok (ScriptNum.getvch (zlen s))).
  { apply getvch_ok. lia. }
  assert (Hz : forall x, elem_ok x -> elem_ok (ScriptNum.getvch (zlen x))).
  { intros x [_ Hx]. apply getvch_ok. unfold MAX_SCRIPT_ELEMENT_SIZE in Hx. lia. }
  assert (Hpick : forall top s' (b : bool), elem_ok top -> stack_ok s' ->
    safe stack_ok (n ← num flags top;
      if (ScriptNum.getint n <? 0) || (ScriptNum.getint n >=? zlen s') then invalid_stack
      else vch ← stacktop s' (ScriptNum.getint n + 1);
           Ok (vch :: if b then delete (Z.to_nat (ScriptNum.getint n)) s' else s'))).
  { intros top s' b Ht Hs'. apply (safe_bind _ _ _ _ (num_safe flags top Ht)). intros n Hn.
    rewrite getint_small, Z.geb_leb by done. destruct ((n <? 0) || (zlen s' <=? n)) eqn:E; [done|]. bool_to_prop.
    apply (safe_bind _ _ _ _ (stacktop_safe s' (n + 1) Hs' ltac:(lia))). intros v Hv. simpl.
    constructor; [done|]. destruct b; [by apply Forall_delete | done]. }
  unfold exec_stack2. destruct op; stack_cases;
    first [apply (Hpick _ (_ :: _) false) | apply (Hpick _ (_ :: _) true) | idtac]; stack_done;
    destruct (CastToBool _); stack_done.
Qed.

Lemma exec_equal_safe op s : stack_ok s -> safe stack_ok (exec_equal op s).
Proof. intros Hs. unfold exec_equal. stack_cases. case_ifs; stack_done. Qed.

Lemma exec_unary_safe op s : stack_ok s ->
  op ∈ [OP_1ADD; OP_1SUB; OP_NEGATE; OP_ABS; OP_NOT; OP_0NOTEQUAL] -> safe stack_ok (exec_unary flags op s).
Proof.
  intros Hs Hop. unfold exec_unary. stack_cases. apply (safe_bind _ _ _ _ (num_safe flags _ H)). intros n Hn.
  apply (safe_bind (fun m => Z.abs m < 2 ^ 63)); [|intros m Hm; stack_done; apply getvch_ok; lia].
  assert (Hi : forall z, Z.abs z < 2 ^ 32 -> i64 z = z) by (intros z Hz; apply i64_small; unfold is_i64; lia).
  repeat (apply elem_of_cons in Hop as [-> | Hop]); [.. | by apply not_elem_of_nil in Hop];
    unfold ScriptNum.add_assign, ScriptNum.sub_assign, ScriptNum.negate, num_bool, INT64_MAX, INT64_MIN, or_abort;
    case_ifs; simpl; try lia; try (rewrite Hi by lia; lia);
    repeat match goal with H : _ || _ = false |- _ => apply orb_false_iff in H as [? ?] end;
    repeat match goal with H : _ && _ = false |- _ => apply andb_false_iff in H as [?|?] end; bool_to_prop; lia.
Qed.

Definition binary_ops : list opcodetype :=
  [OP_ADD; OP_SUB; OP_BOOLAND; OP_BOOLOR; OP_NUMEQUAL; OP_NUMEQUALVERIFY; OP_NUMNOTEQUAL; OP_LESSTHAN;
   OP_GREATERTHAN; OP_LESSTHANOREQUAL; OP_GREATERTHANOREQUAL; OP_MIN; OP_MAX].

Lemma exec_binary_safe op s : stack_ok s -> op ∈ binary_ops -> safe stack_ok (exec_binary flags op s).
Proof.
  intros Hs Hop. unfold exec_binary. stack_cases.
  apply (safe_bind _ _ _ _ (num_safe flags _ H0)). intros n1 Hn1.
  apply (safe_bind _ _ _ _ (num_safe flags _ H)). intros n2 Hn2.
  apply (safe_bind (fun m => Z.abs m < 2 ^ 63)).
  - assert (Hi : forall z, Z.abs z < 2 ^ 32 -> i64 z = z) by (intros z Hz; apply i64_small; unfold is_i64; lia).
    repeat (apply elem_of_cons in Hop as [-> | Hop]); [.. | by apply not_elem_of_nil in Hop];
      unfold binary_result, ScriptNum.add, ScriptNum.sub, num_bool; simpl; rewrite ?Hi by lia; case_ifs; lia.
  - intros m Hm. assert (elem_ok (ScriptNum.getvch m)) by (apply getvch_ok; lia). case_ifs; stack_done.
Qed.

Lemma exec_within_safe s : stack_ok s -> safe stack_ok (exec_within flags s).
Proof.
  intros Hs. unfold exec_within. stack_cases.
  apply (safe_bind _ _ _ _ (num_safe flags _ H1)). intros n1 _.
  apply (safe_bind _ _ _ _ (num_safe flags _ H0)). intros n2 _.
  apply (safe_bind _ _ _ _ (num_safe flags _ H)). intros n3 _. stack_done.
Qed.

Lemma exec_hash_safe op s : stack_ok s -> safe stack_ok (exec_hash op s).
Proof.
  intros Hs. unfold exec_hash, Hash160, Hash256. stack_cases. simpl. apply Forall_cons. split; [|done].
  destruct op; eapply digest_ok; eauto using RIPEMD160_size, SHA1_size, SHA256_size; lia.
Qed.

(** ** Signature operations *)

Lemma exec_checksig_safe op code s : stack_ok s -> safe stack_ok (exec_checksig flags sv op code s).
Proof.
  intros Hs. unfold exec_checksig. stack_cases.
  apply (safe_bind _ _ _ _ (CheckSignatureEncoding_safe _ flags)). intros _ _.
  apply (safe_bind _ _ _ _ (CheckPubKeyEncoding_safe _ flags sv)). intros _ _.
  apply safe_guard. intros _. case_ifs; stack_done.
Qed.

Lemma multisig_code_safe s isig n code : stack_ok s -> 1 <= isig -> isig + Z.of_nat n - 1 <= zlen s ->
  safe (fun _ => True) (multisig_code sv s isig n code).
Proof.
  intros Hs H1 H2. unfold multisig_code.
  apply (for_loop_inv (fun _ r => safe (fun _ => True) r)); [done|]. intros j r Hj Hr.
  apply (safe_bind _ _ _ _ Hr). intros c _.
  apply (safe_bind _ _ _ _ (stacktop_safe s (isig + Z.of_nat j) Hs ltac:(lia))). by intros v _.
Qed.

Lemma multisig_check_safe s code isig ikey : stack_ok s -> 1 <= isig <= zlen s -> 1 <= ikey <= zlen s ->
  safe (fun _ => True) (multisig_check flags sv s code isig ikey).
Proof.
  intros Hs Hi Hk. unfold multisig_check.
  apply (safe_bind _ _ _ _ (stacktop_safe s isig Hs Hi)). intros v1 _.
  apply (safe_bind _ _ _ _ (stacktop_safe s ikey Hs Hk)). intros v2 _.
  apply (safe_bind _ _ _ _ (CheckSignatureEncoding_safe _ flags)). intros _ _.
  by apply (safe_bind _ _ _ _ (CheckPubKeyEncoding_safe _ flags sv)).
Qed.

Definition multisig_inv (s : list valtype) (st : bool * Z * Z * Z * Z) : Prop :=
  let '(fSuccess, isig, ikey, nSigs, nKeys) := st in
  1 <= isig /\ isig + nSigs - 1 <= zlen s /\ 1 <= ikey /\ ikey + nKeys - 1 <= zlen s /\
  0 <= nSigs /\ 0 <= nKeys /\ (fSuccess = true -> nSigs <= nKeys).

Lemma multisig_verify_safe s code isig ikey nSigs nKeys : stack_ok s ->
  multisig_inv s (true, isig, ikey, nSigs, nKeys) ->
  safe (fun _ => True) (multisig_verify flags sv s code isig ikey nSigs nKeys).
Proof.
  intros Hs Hinv. unfold multisig_verify.
  destruct (while_total (multisig_step flags sv s code) (multisig_inv s)
              (fun '(_, _, _, _, nKeys) => Z.to_nat nKeys) (safe (fun _ => True))) with
    (fuel := S (Z.to_nat nKeys)) (s := (true, isig, ikey, nSigs, nKeys)) as (r & -> & Hr); [| | done | lia | done].
  - intros [[[[f i] k] ns] nk] s' (H1 & H2 & H3 & H4 & H5 & H6 & H7) E. simpl in E. rewrite Z.gtb_ltb in E.
    destruct f; [|done]. destruct (Z.ltb_spec 0 ns); [|done]. simpl in E. specialize (H7 eq_refl).
    destruct (multisig_check flags sv s code i k) as [ok| | | |]; try done.
    destruct ok; simpl in E; rewrite Z.gtb_ltb in E; injection E as <-; unfold multisig_inv; case_ifs; bool_to_prop;
      repeat split; try lia; done.
  - intros [[[[f i] k] ns] nk] r (H1 & H2 & H3 & H4 & H5 & H6 & H7) E. simpl in E. rewrite Z.gtb_ltb in E.
    destruct f; [|simpl in E; by injection E as <-].
    destruct (Z.ltb_spec 0 ns); simpl in E; [|by injection E as <-]. specialize (H7 eq_refl).
    pose proof (multisig_check_safe s code i k Hs ltac:(lia) ltac:(lia)) as Hc.
    destruct (multisig_check flags sv s code i k) as [[]| | | |]; simpl in *; try done; injection E as <-; done.
Qed.

Lemma multisig_cleanup_safe n : forall f ikey2 s, stack_ok s -> (n <= length s)%nat ->
  safe (fun s' => s' = drop n s) (multisig_cleanup flags n f ikey2 s).
Proof.
  induction n as [|n IH]; intros f ikey2 s Hs Hn; simpl; [done|].
  apply (safe_bind _ _ _ _ (stacktop_safe s 1 Hs ltac:(lia))). intros top _.
  apply safe_guard. intros _. destruct s as [|x s]; [simpl in Hn; lia|]. simpl.
  apply stack_ok_cons in Hs as [_ Hs]. apply IH; [done | simpl in Hn; lia].
Qed.

Lemma exec_checkmultisig_safe op code s nOp : stack_ok s ->
  safe (fun r => stack_ok r.1 /\ nOp <= r.2 <= MAX_OPS_PER_SCRIPT) (exec_checkmultisig flags sv op code s nOp).
Proof.
  intros Hs. unfold exec_checkmultisig. destruct (Z.ltb_spec (zlen s) 1); [done|].
  apply (safe_bind _ _ _ _ (stacktop_safe s 1 Hs ltac:(lia))). intros top1 Ht1.
  apply (safe_bind _ _ _ _ (num_safe flags top1 Ht1)). intros nk Hnk. rewrite getint_small by done.
  apply safe_guard. intros Hnk0. bool_to_prop. apply safe_guard. intros Hcnt. bool_to_prop.
  apply safe_guard. intros Hi. bool_to_prop.
  apply (safe_bind _ _ _ _ (stacktop_safe s (2 + nk) Hs ltac:(lia))). intros top2 Ht2.
  apply (safe_bind _ _ _ _ (num_safe flags top2 Ht2)). intros ns Hns. rewrite getint_small by done.
  apply safe_guard. intros Hns0. bool_to_prop. apply safe_guard. intros Hi2. bool_to_prop.
  apply (safe_bind _ _ _ _ (multisig_code_safe s (2 + nk + 1) (Z.to_nat ns) code Hs ltac:(lia) ltac:(lia))).
  intros c _. assert (Hinv : multisig_inv s (true, 2 + nk + 1, 2, ns, nk)) by (simpl; lia).
  apply (safe_bind _ _ _ _ (multisig_verify_safe s c _ _ _ _ Hs Hinv)). intros f _.
  apply (safe_bind _ _ _ _ (multisig_cleanup_safe (Z.to_nat (2 + nk + 1 + ns - 1)) f (nk + 2) s Hs ltac:(lia))). intros s' ->.
  pose proof (Forall_drop _ (Z.to_nat (2 + nk + 1 + ns - 1)) _ Hs) as Hd.
  destruct (drop _ s) as [|d s']; [done|]. apply Forall_cons in Hd as [_ Hd].
  apply safe_guard. intros _. case_ifs; simpl; try exact I; (split; [|lia]);
    [done | apply Forall_cons; auto with br ..].
Qed.

(** ** Instructions and scripts *)

(** the limit on the stacks at an instruction: the first one may start above
    [MAX_STACK_SIZE], on the elements of a witness *)
Context (M : Z) (HM : MAX_STACK_SIZE <= M < 2 ^ 63).

(** the invariant of the loop in [EvalScript] *)
Record exec_ok (st : exec_state) : Prop := {
  exec_stack_ok : stack_ok (stack st);
  exec_altstack_ok : stack_ok (altstack st);
  exec_stack_size : zlen (stack st) + zlen (altstack st) <= M;
  exec_op_count : 0 <= nOpCount st <= MAX_OPS_PER_SCRIPT;
}.

(** what a handler guarantees before the stack limit is tested *)
Definition op_ok (st : exec_state) : Prop :=
  stack_ok (stack st) /\ stack_ok (altstack st) /\ 0 <= nOpCount st <= MAX_OPS_PER_SCRIPT.

Lemma exec_op_safe opcode fExec pc st : is_u8 opcode -> exec_ok st -> safe op_ok (exec_op flags sv opcode fExec pc st).
Proof.
  intros Hb [Hs Ha Hz Hn]. unfold exec_op. destruct (opcode_of opcode) as [op|] eqn:Eop; [|done].
  apply opcode_of_Some in Eop; [|done].
  assert (Hset : forall s, stack_ok s -> op_ok (set_stack st s)) by (intros s H; split; [done|]; by split).
  assert (Hst : op_ok st) by (by split).
  assert (Hsz : zlen (stack st) < 2 ^ 63) by lia.
  destruct op; try exact I; try exact Hst; try (apply safe_guard; intros _; exact Hst);
    try (apply Hset, Forall_cons; split; [apply getvch_ok; rewrite Eop; cbv [opcode_value]; lia | done]);
    try (by apply (safe_fmap stack_ok); [|exact Hset];
         auto using exec_cltv_safe, exec_csv_safe, exec_verify_safe, exec_stack2_safe, exec_equal_safe,
           exec_within_safe, exec_hash_safe, exec_checksig_safe);
    try (apply (safe_fmap stack_ok); [|exact Hset];
         first [apply exec_unary_safe | apply exec_binary_safe]; [done | repeat (left + right)]);
    try (apply (safe_fmap _ _ _ _ (exec_if_safe _ fExec _ (vfExec st) Hs)); intros [s vf] [H _]; by apply (Hset s));
    try (apply (safe_fmap _ _ _ _ (exec_stack1_safe _ _ _ Hs Ha)); intros [s a] [H1 H2]; by split);
    try (apply (safe_fmap _ _ _ _ (exec_checkmultisig_safe _ (pbegincodehash st) _ (nOpCount st) Hs));
         intros [s n] [H1 H2]; split; [done|]; split; [done | simpl in *; lia]).
Qed.

Lemma exec_instruction_safe opcode v pc st : is_u8 opcode -> bytes v -> exec_ok st ->
  safe exec_ok (exec_instruction flags sv opcode v pc st).
Proof.
  intros Hb Hv [Hs Ha Hz Hn]. unfold exec_instruction. apply safe_guard. intros Hsize. bool_to_prop.
  apply safe_guard. intros Hcnt. apply safe_guard. intros _.
  set (st1 := set_count st _).
  assert (Hst1 : exec_ok st1).
  { split; simpl; try done. destruct (opcode >? OP_16); simpl in Hcnt; bool_to_prop; lia. }
  apply (safe_bind op_ok).
  - destruct (_ && _ && _); [apply safe_guard; intros _; split; [|by split; apply Hst1]|].
    + apply Forall_cons. split; [by split | apply Hst1].
    + destruct (_ || _); [by apply exec_op_safe|]. destruct Hst1. by split.
  - intros st' (H1 & H2 & H3). apply safe_guard. intros Hlim. bool_to_prop. split; done || lia.
Qed.

(** [EvalScript] catches what the handlers throw *)
Definition eval_ok (r : result (list valtype)) : Prop :=
  match r with
  | Ok s => stack_ok s /\ zlen s <= M
  | Err _ => True
  | _ => False
  end.

(** the states at the head of the loop, from the one it starts in *)
Definition eval_next (st st' : script_bytes * exec_state) : Prop := eval_step flags sv st = inl st'.
Definition loop_ok (st : script_bytes * exec_state) : Prop := bytes st.1 /\ exec_ok st.2.

Lemma loop_ok_start s script : stack_ok s -> zlen s <= M -> bytes script -> loop_ok (script, ExecState s [] [] 0 script).
Proof. split; [done|]. split; simpl; unfold MAX_OPS_PER_SCRIPT; done || lia || constructor. Qed.

(** an instruction read from a state of the loop *)
Lemma loop_instruction_safe pc st pc' opcode v : loop_ok (pc, st) -> Script.GetOp2 pc = (pc', Some (opcode, v)) ->
  safe (fun st' => loop_ok (pc', st')) (exec_instruction flags sv opcode v pc' st).
Proof.
  intros [Hpc Hst] Eg. destruct (GetOp2_bytes _ _ _ _ Hpc Eg) as (Hop & Hv & Hpc').
  apply (safe_mono exec_ok); [by apply exec_instruction_safe | by split].
Qed.

Lemma eval_next_ok st st' : loop_ok st -> eval_next st st' -> loop_ok st' /\ (length st'.1 < length st.1)%nat.
Proof.
  destruct st as [pc st]. intros Hst E. unfold eval_next in E. simpl in E. destruct pc as [|o pc]; [done|].
  destruct (Script.GetOp2 (o :: pc)) as [pc' [[op v]|]] eqn:Eg; [|done].
  pose proof (loop_instruction_safe _ _ _ _ _ Hst Eg) as Hi. apply GetOp2_shorter in Eg.
  destruct (exec_instruction flags sv op v pc' st); try done. by injection E as <-.
Qed.

Lemma eval_last_ok st r : loop_ok st -> eval_step flags sv st = inr r -> eval_ok r.
Proof.
  destruct st as [pc st]. intros Hst E. simpl in E. destruct pc as [|o pc].
  - injection E as <-. destruct (bool_decide _); [|done]. destruct Hst as [_ []]. simpl in *. split; [done | lia].
  - destruct (Script.GetOp2 (o :: pc)) as [pc' [[op v]|]] eqn:Eg; [|by injection E as <-].
    pose proof (loop_instruction_safe _ _ _ _ _ Hst Eg) as Hi.
    destruct (exec_instruction flags sv op v pc' st); simpl in *; try done; by injection E as <-.
Qed.

Lemma EvalScript_ok s script : stack_ok s -> zlen s <= M -> bytes script ->
  eval_ok (EvalScript flags sv s script).
Proof.
  intros Hs Hlen Hb. unfold EvalScript. destruct (zlen script >? MAX_SCRIPT_SIZE); [done|].
  destruct (while_total (eval_step flags sv) loop_ok (fun st => length st.1) eval_ok)
    with (fuel := S (length script)) (s := (script, ExecState s [] [] 0 script)) as (r & -> & Hr);
    [exact eval_next_ok | exact eval_last_ok | by apply loop_ok_start | simpl; lia | done].
Qed.

Lemma eval_reaches_ok st st' : loop_ok st -> rtc eval_next st st' -> loop_ok st'.
Proof. intros Hst H. induction H as [|st st1 st' Hn _ IH]; [done|]. by apply IH, (eval_next_ok st). Qed.

End Safety.

(** ** Spending an output *)

Section VerifySafety.
Context {hashes : ScriptHashes} {lows : LowSCheck} {checker : BaseSignatureChecker}.
Context (flags : Z).

(** the combinations of flags the assertions of [VerifyScript] allow *)
Definition flags_ok (flags : Z) : Prop :=
  (has flags SCRIPT_VERIFY_CLEANSTACK = true -> has flags SCRIPT_VERIFY_WITNESS = true) /\
  (has flags SCRIPT_VERIFY_WITNESS = true -> has flags SCRIPT_VERIFY_P2SH = true).

(** no assertion fails, nothing is thrown and every loop ends *)
Definition ends {A} (r : result A) : Prop := match r with Ok _ | Err _ => True | _ => False end.

Lemma ends_guard {B} b e (k : unit -> result B) : (b = false -> ends (k tt)) -> ends (fail_if b e ≫= k).
Proof. intros H. destruct b; simpl; [done | by apply H]. Qed.

Lemma ends_eval {B} sv s script (k : list valtype -> result B) :
  stack_ok s -> zlen s < 2 ^ 63 -> bytes script ->
  (forall s', EvalScript flags sv s script = Ok s' -> stack_ok s' -> zlen s' < 2 ^ 63 -> ends (k s')) ->
  ends (EvalScript flags sv s script ≫= k).
Proof.
  intros H1 H2 H3 H.
  pose proof (EvalScript_ok flags sv (2 ^ 63 - 1) ltac:(unfold MAX_STACK_SIZE; lia) s script H1 ltac:(lia) H3) as He.
  destruct (EvalScript flags sv s script); simpl in *; try done. destruct He. apply H; [done | done | lia].
Qed.

Lemma ends_check_top {B} s (k : unit -> result B) : (s <> [] -> ends (k tt)) -> ends (check_top s ≫= k).
Proof. intros H. destruct s as [|x s]; [done|]. simpl. apply ends_guard. intros _. by apply H. Qed.

Lemma check_sizes_ok s u : check_sizes s = Ok u -> Forall bytes s -> stack_ok s.
Proof.
  intros H Hb. induction Hb as [|x s Hx Hb IH]; [constructor|]. simpl in H.
  unfold fail_if in H. destruct (Z.gtb_spec (zlen x) MAX_SCRIPT_ELEMENT_SIZE); [done|]. simpl in H.
  constructor; [split; [done | lia] | by apply IH].
Qed.

Lemma check_sizes_ends s : ends (check_sizes s).
Proof. induction s as [|x s IH]; [done|]. simpl. by apply ends_guard. Qed.

(** a version 0 program runs a script of bytes on the elements of the witness *)
Lemma witness_v0_ok witness program : Forall bytes witness -> bytes program ->
  match witness_v0 witness program with
  | Ok (script, s) => bytes script /\ Forall bytes s /\ (length s <= length witness)%nat
  | Err _ => True
  | _ => False
  end.
Proof.
  intros Hw Hp. unfold witness_v0.
  destruct (Z.eqb_spec (zlen program) 32) as [|_].
  - destruct (zlen witness =? 0); [done|]. destruct (negb _); [done|]. split; [|split].
    + destruct (last witness) as [x|] eqn:E; [|constructor]. simpl. apply last_Some_elem_of in E.
      rewrite Forall_forall in Hw. by apply Hw.
    + by apply Forall_reverse, Forall_take.
    + rewrite length_reverse, length_take. lia.
  - destruct (Z.eqb_spec (zlen program) 20) as [E20|_]; [|done]. destruct (negb _); [done|]. split; [|split].
    + unfold Script.push_data, Script.push_opcode, Script.push_prefix, bytes. rewrite E20. simpl.
      repeat (apply Forall_app; split) || (apply Forall_cons; split); try done;
        try apply opcode_value_u8; unfold is_u8; try lia; constructor.
    + by apply Forall_reverse.
    + by rewrite length_reverse.
Qed.

Lemma VerifyWitnessProgram_ends witness v program : Forall bytes witness -> zlen witness < 2 ^ 63 -> bytes program ->
  ends (VerifyWitnessProgram flags witness v program).
Proof.
  intros Hw Hl Hp. unfold VerifyWitnessProgram. destruct (v =? 0); [|unfold fail_if; by destruct (has _ _)].
  pose proof (witness_v0_ok witness program Hw Hp) as H0.
  destruct (witness_v0 witness program) as [[script s]| | | |]; simpl; try done. destruct H0 as (Hb & Hs & Hlen).
  pose proof (check_sizes_ends (reverse s)) as Hc. destruct (check_sizes (reverse s)) as [[]| | | |] eqn:Ec; try done. simpl.
  assert (Hok : stack_ok s).
  { rewrite <- (reverse_involutive s). apply Forall_reverse. apply (check_sizes_ok _ tt Ec). by apply Forall_reverse. }
  apply ends_eval; [done | lia | done |]. intros s' _ Hs' _. apply ends_guard. intros _.
  destruct s' as [|x s']; [done|]. unfold check_top, fail_if. by destruct (negb _).
Qed.

Lemma IsWitnessProgram_bytes s v p : bytes s -> Script.IsWitnessProgram s = Some (v, p) -> bytes p.
Proof. unfold Script.IsWitnessProgram. intros Hs. case_ifs; intros [= _ <-]. by apply Forall_drop. Qed.

(** the stack of [scriptSig] cannot be empty when a pay-to-script-hash output accepts it *)
Lemma p2sh_stack_nonempty sv script s' : Script.IsPayToScriptHash script = true ->
  EvalScript flags sv [] script <> Ok s'.
Proof.
  unfold Script.IsPayToScriptHash. intros H. bool_to_prop.
  destruct script as [|o [|n script]]; [done | simpl in *; lia |].
  change ((o :: n :: script) !!! 0%nat) with o in *. subst o. unfold EvalScript.
  destruct (_ >? _); [done|].
  assert (E : eval_step flags sv ((OP_HASH160 : Z) :: n :: script, ExecState [] [] [] 0 ((OP_HASH160 : Z) :: n :: script)) =
              inr invalid_stack) by reflexivity.
  cbn [while_loop length]. rewrite E. done.
Qed.

Lemma VerifyScript_ends scriptSig scriptPubKey witness :
  flags_ok flags -> bytes scriptSig -> bytes scriptPubKey -> Forall bytes witness -> zlen witness < 2 ^ 63 ->
  ends (VerifyScript flags scriptSig scriptPubKey witness).
Proof.
  intros [Hf1 Hf2] Hsig Hpub Hw Hwl. unfold VerifyScript. apply ends_guard. intros _.
  apply ends_eval; [constructor | simpl; lia | done |]. intros stackCopy E1 Hs1 Hl1.
  apply ends_eval; [done | done | done |]. intros s2 E2 Hs2 Hl2.
  apply ends_check_top. intros Hne.
  assert (Hend : forall s b, ends (verify_end flags witness s b)).
  { intros s b. unfold verify_end, fail_if.
    destruct (has flags SCRIPT_VERIFY_CLEANSTACK) eqn:Ec, (has flags SCRIPT_VERIFY_WITNESS) eqn:Ew,
      (has flags SCRIPT_VERIFY_P2SH) eqn:Ep; simpl; try (by specialize (Hf1 eq_refl)); try (by specialize (Hf2 eq_refl));
      case_ifs; simpl; try done; by case_ifs. }
  assert (Hbare : ends (verify_bare_witness flags scriptSig scriptPubKey witness s2)).
  { unfold verify_bare_witness. destruct (has flags SCRIPT_VERIFY_WITNESS); [|done].
    destruct (Script.IsWitnessProgram scriptPubKey) as [[v p]|] eqn:Ewp; [|done]. apply ends_guard. intros _.
    pose proof (VerifyWitnessProgram_ends witness v p Hw Hwl (IsWitnessProgram_bytes _ _ _ Hpub Ewp)) as H.
    by destruct (VerifyWitnessProgram flags witness v p). }
  destruct (verify_bare_witness _ _ _ _ _) as [[s3 had]| | | |]; try done. simpl.
  destruct (has flags SCRIPT_VERIFY_P2SH && Script.IsPayToScriptHash scriptPubKey) eqn:Ep2sh; [|apply Hend].
  bool_to_prop. unfold verify_p2sh. destruct (negb _); [done|]. simpl. destruct stackCopy as [|pubKey2 s4].
  { by apply p2sh_stack_nonempty in E2. }
  apply stack_ok_cons in Hs1 as [[Hpk _] Hs4].
  assert (H4 : ends (EvalScript flags SIGVERSION_BASE s4 pubKey2 ≫= fun s => Ok s)).
  { apply ends_eval; [done | simpl in Hl1; lia | done | done]. }
  destruct (EvalScript flags SIGVERSION_BASE s4 pubKey2) as [s5| | | |]; try done. simpl.
  destruct s5 as [|x5 s5]; [done|]. simpl. destruct (negb (CastToBool x5)); [done|]. simpl.
  destruct (has flags SCRIPT_VERIFY_WITNESS); [|apply Hend].
  destruct (Script.IsWitnessProgram pubKey2) as [[v p]|] eqn:Ewp; [|apply Hend]. destruct (negb _); [done|]. simpl.
  pose proof (VerifyWitnessProgram_ends witness v p Hw Hwl (IsWitnessProgram_bytes _ _ _ Hpk Ewp)) as Hvw.
  destruct (VerifyWitnessProgram flags witness v p); try done. apply Hend.
Qed.

End VerifySafety.

(** ** Properties *)

(** C1: [EvalScript] always returns: on any script and any stack whose elements have at
    most 520 bytes it ends within the length of the script, with success or a script
    error, and on success every element has at most 520 bytes and the stack is within
    its limit; no assertion fails.  At every instruction the loop comes to, whatever the
    [catch (...)] around it would hide, the only exception is that of a script number
    that is too long or not minimal: no stack access is out of range. *)
Theorem EvalScript_total (hashes : ScriptHashes) (lows : LowSCheck) (checker : BaseSignatureChecker) flags sv s script :
  stack_ok s -> zlen s < 2 ^ 63 -> bytes script ->
  match EvalScript flags sv s script with
  | Ok s' => stack_ok s' /\ zlen s' <= Z.max MAX_STACK_SIZE (zlen s)
  | Err _ => True
  | _ => False
  end /\
  forall pc st pc' opcode v, rtc (eval_next flags sv) (script, ExecState s [] [] 0 script) (pc, st) ->
    Script.GetOp2 pc = (pc', Some (opcode, v)) ->
    match exec_instruction flags sv opcode v pc' st with
    | Ok _ | Err _ => True
    | Throw x => x = scriptnum_error
    | Abort | Diverge => False
    end.
Proof.
  intros Hs Hl Hb. set (M := Z.max MAX_STACK_SIZE (zlen s)).
  assert (HM : MAX_STACK_SIZE <= M < 2 ^ 63) by (unfold M, MAX_STACK_SIZE; lia).
  split; [apply (EvalScript_ok flags sv M); [done | done | lia | done]|]. intros pc st pc' opcode v Hr Eg.
  pose proof (eval_reaches_ok flags sv M HM _ _ (loop_ok_start M s script Hs ltac:(lia) Hb) Hr) as Hst.
  pose proof (loop_instruction_safe flags sv M HM _ _ _ _ _ Hst Eg) as Hi. by destruct (exec_instruction flags sv opcode v pc' st).
Qed.

Definition sample_script : script_bytes := [0x51; 0x52; 0x93; 0x74; 0x7c; 0x76; 0xa9].

Lemma sample_script_bytes : bytes sample_script.
Proof. repeat constructor; unfold is_u8; lia. Qed.

(** the second instruction, [OP_2], after the first *)
Lemma EvalScript_total_witness :
  match @EvalScript sample_hashes sample_lows sample_checker 0 SIGVERSION_BASE [[1]; [2]] sample_script with
  | Ok s' => stack_ok s' /\ zlen s' <= Z.max MAX_STACK_SIZE 2
  | Err _ => True
  | _ => False
  end /\
  match @exec_instruction sample_hashes sample_lows sample_checker 0 SIGVERSION_BASE 0x52 [] (drop 2 sample_script)
          (ExecState [[1]; [1]; [2]] [] [] 0 sample_script) with
  | Ok _ | Err _ => True
  | Throw x => x = scriptnum_error
  | Abort | Diverge => False
  end.
Proof.
  destruct (EvalScript_total sample_hashes sample_lows sample_checker 0 SIGVERSION_BASE [[1]; [2]] sample_script) as [H1 H2].
  - repeat constructor; unfold is_u8, MAX_SCRIPT_ELEMENT_SIZE; simpl; lia.
  - simpl. lia.
  - exact sample_script_bytes.
  - split; [exact H1|]. apply (H2 (drop 1 sample_script)); [|reflexivity]. apply rtc_once. vm_compute. reflexivity.
Defined.

(** With a combination of flags its callers may pass, [VerifyScript] ends with
    success or a script error: none of its assertions fails, in particular the
    stack is never empty when the redeem script is taken from it. *)
Theorem VerifyScript_no_abort (hashes : ScriptHashes) (lows : LowSCheck) (checker : BaseSignatureChecker)
    flags scriptSig scriptPubKey witness :
  flags_ok flags -> bytes scriptSig -> bytes scriptPubKey -> Forall bytes witness -> zlen witness < 2 ^ 63 ->
  (exists e, VerifyScript flags scriptSig scriptPubKey witness = Err e) \/
  VerifyScript flags scriptSig scriptPubKey witness = Ok tt.
Proof.
  intros Hf H1 H2 H3 H4. pose proof (VerifyScript_ends flags scriptSig scriptPubKey witness Hf H1 H2 H3 H4) as He.
  destruct (VerifyScript flags scriptSig scriptPubKey witness) as [[]|e| | |]; try done; eauto.
Qed.

Lemma VerifyScript_no_abort_witness :
  (exists e, @VerifyScript sample_hashes sample_lows sample_checker SCRIPT_VERIFY_P2SH [0x51] sample_script [] = Err e) \/
  @VerifyScript sample_hashes sample_lows sample_checker SCRIPT_VERIFY_P2SH [0x51] sample_script [] = Ok tt.
Proof.
  apply (VerifyScript_no_abort sample_hashes sample_lows sample_checker SCRIPT_VERIFY_P2SH [0x51] sample_script []).
  - split; vm_compute; done.
  - repeat constructor; unfold is_u8; lia.
  - exact sample_script_bytes.
  - constructor.
  - simpl. lia.
Defined.
