(* ===== verification/SoftFork.v ===== *)
(** * Verification flags only restrict (interpreter.h: the flags are soft forks)

    [f] and [g] are two sets of flags with [f] contained in [g].  Whatever the
    interpreter accepts under [g] it accepts under [f], with the same stack.  The
    one flag of [f] this excludes is [DISCOURAGE_UPGRADABLE_NOPS]: it rejects
    [CHECKLOCKTIMEVERIFY] and [CHECKSEQUENCEVERIFY] while these are disabled. *)

From S2P Require Import Prelude Opcodes ScriptNum Script Interpreter InterpreterSafety.

(** a run that succeeds is matched by the other run *)
Definition leads {A} (r1 r2 : result A) : Prop := forall a, r1 = Ok a -> r2 = Ok a.

#[global] Instance leads_preorder {A} : PreOrder (@leads A).
Proof. split; [by intros r a | by intros r1 r2 r3 H1 H2 a H; apply H2, H1]. Qed.

Lemma leads_bind {A B} (r1 r2 : result A) (k1 k2 : A -> result B) :
  leads r1 r2 -> (forall a, leads (k1 a) (k2 a)) -> leads (r1 ≫= k1) (r2 ≫= k2).
Proof.
  intros Hr Hk b. destruct r1 as [a| | | |]; try done. rewrite (Hr a eq_refl). apply Hk.
Qed.

Lemma leads_fmap {A B} (r1 r2 : result A) (h : A -> B) : leads r1 r2 -> leads (h <$> r1) (h <$> r2).
Proof. intros Hr b. destruct r1 as [a| | | |]; try done. by rewrite (Hr a eq_refl). Qed.

Lemma leads_guard {B} (b1 b2 : bool) e (k1 k2 : unit -> result B) :
  (b2 = true -> b1 = true) -> leads (k1 tt) (k2 tt) -> leads (fail_if b1 e ≫= k1) (fail_if b2 e ≫= k2).
Proof. intros Hb Hk. destruct b1, b2; simpl; try done. by specialize (Hb eq_refl). Qed.

Lemma leads_fail_if (b1 b2 : bool) e : (b2 = true -> b1 = true) -> leads (fail_if b1 e) (fail_if b2 e).
Proof. intros Hb. destruct b1, b2; simpl; try done. by specialize (Hb eq_refl). Qed.

(** loops: the second follows the first as long as the first goes on *)
Lemma while_leads {S A} (step1 step2 : S -> S + result A) :
  (forall s s', step1 s = inl s' -> step2 s = inl s') ->
  (forall s a, step1 s = inr (Ok a) -> step2 s = inr (Ok a)) ->
  forall fuel s, leads (default Diverge (while_loop step1 fuel s)) (default Diverge (while_loop step2 fuel s)).
Proof.
  intros Hl Hr. induction fuel as [|fuel IH]; intros s; simpl; [done|].
  destruct (step1 s) as [s'|r] eqn:E; [rewrite (Hl _ _ E); apply IH|].
  intros a Ha. simpl in Ha. subst r. by rewrite (Hr _ _ E).
Qed.

Section SoftFork.
Context {hashes : ScriptHashes} {lows : LowSCheck} {checker : BaseSignatureChecker}.
Context (f g : Z) (Hsub : Z.land f g = f) (Hnop : has f SCRIPT_VERIFY_DISCOURAGE_UPGRADABLE_NOPS = false).

Lemma has_mono x : has f x = true -> has g x = true.
Proof.
  unfold has. rewrite <- Hsub, <- Z.land_assoc. destruct (Z.eqb_spec (Z.land g x) 0) as [->|]; [|done].
  by rewrite Z.land_0_r.
Qed.

(** a guard tests a flag together with something that does not depend on it *)
Lemma has_and x (b : bool) : has f x && b = true -> has g x && b = true.
Proof. intros H. apply andb_true_iff in H as [H ->]. by rewrite (has_mono x H). Qed.

Ltac mono :=
  match goal with
  | |- context [has f ?x] =>
      let E := fresh "E" in
      destruct (has f x) eqn:E; [rewrite (has_mono x E); auto | rewrite ?andb_false_r; intros; discriminate]
  end.

Lemma leads_num_of v m : leads (num_of g v m) (num_of f v m).
Proof.
  unfold num_of. rewrite !CScriptNum_eq. destruct (zlen v >? m); simpl; [done|].
  destruct (has f SCRIPT_VERIFY_MINIMALDATA) eqn:E.
  - rewrite (has_mono _ E). done.
  - destruct (has g _ && _); simpl; [by intros a|done].
Qed.

Lemma leads_CheckSignatureEncoding v : leads (CheckSignatureEncoding v g) (CheckSignatureEncoding v f).
Proof.
  unfold CheckSignatureEncoding. destruct (zlen v =? 0); [done|].
  set (m := Z.lor (Z.lor _ _) _).
  destruct (has f m && negb (IsValidSignatureEncoding v)) eqn:E1.
  { rewrite (has_and _ _ E1). by intros a. }
  destruct (has g m && negb (IsValidSignatureEncoding v)); [by intros a|].
  apply leads_bind; [|intros _; apply leads_fail_if, has_and].
  destruct (has f SCRIPT_VERIFY_LOW_S) eqn:E2; [by rewrite (has_mono _ E2)|].
  by intros [] _.
Qed.

Lemma leads_CheckPubKeyEncoding v sv : leads (CheckPubKeyEncoding v g sv) (CheckPubKeyEncoding v f sv).
Proof.
  unfold CheckPubKeyEncoding. apply leads_guard; [apply has_and|]. apply leads_fail_if. rewrite <- !andb_assoc. apply has_and.
Qed.

Lemma exec_cltv_same flags s s' : exec_cltv flags s = Ok s' -> s' = s.
Proof.
  unfold exec_cltv. destruct (negb _); [unfold fail_if; destruct (has flags _); simpl; congruence|].
  destruct s as [|x s]; [done|]. destruct (num_of flags x 5); simpl; try done. unfold fail_if. case_ifs; simpl; congruence.
Qed.

Lemma exec_csv_same flags s s' : exec_csv flags s = Ok s' -> s' = s.
Proof.
  unfold exec_csv. destruct (negb (has flags _)); [unfold fail_if; destruct (has flags _); simpl; congruence|].
  destruct s as [|x s]; [done|]. destruct (num_of flags x 5); simpl; try done. unfold fail_if. case_ifs; simpl; congruence.
Qed.

Lemma leads_cltv s : leads (exec_cltv g s) (exec_cltv f s).
Proof.
  intros s' H. pose proof (exec_cltv_same _ _ _ H) as ->. unfold exec_cltv in *. rewrite Hnop.
  destruct (has f SCRIPT_VERIFY_CHECKLOCKTIMEVERIFY) eqn:E; [|done]. rewrite (has_mono _ E) in H. simpl in *.
  destruct s as [|x s]; [done|]. revert H.
  apply (leads_bind _ _ _ _ (leads_num_of x 5)). done.
Qed.

Lemma leads_csv s : leads (exec_csv g s) (exec_csv f s).
Proof.
  intros s' H. pose proof (exec_csv_same _ _ _ H) as ->. unfold exec_csv in *. rewrite Hnop.
  destruct (has f SCRIPT_VERIFY_CHECKSEQUENCEVERIFY) eqn:E; [|done]. rewrite (has_mono _ E) in H. simpl in *.
  destruct s as [|x s]; [done|]. revert H.
  apply (leads_bind _ _ _ _ (leads_num_of x 5)). done.
Qed.

Lemma leads_if sv op fExec s vf : leads (exec_if g sv op fExec s vf) (exec_if f sv op fExec s vf).
Proof.
  unfold exec_if. destruct op; try done; (destruct fExec; [|done]); (destruct s as [|x s]; [done|]);
    (apply leads_guard; [|done]); mono.
Qed.

Lemma leads_stack2 op s : leads (exec_stack2 g op s) (exec_stack2 f op s).
Proof.
  unfold exec_stack2. destruct op; try done; (destruct s as [|x [|y s]]; [done | done |]);
    by apply (leads_bind _ _ _ _ (leads_num_of x _)).
Qed.

Lemma leads_unary op s : leads (exec_unary g op s) (exec_unary f op s).
Proof. unfold exec_unary. destruct s as [|x s]; [done|]. by apply (leads_bind _ _ _ _ (leads_num_of x _)). Qed.

Lemma leads_binary op s : leads (exec_binary g op s) (exec_binary f op s).
Proof.
  unfold exec_binary. destruct s as [|x [|y s]]; [done | done |].
  apply (leads_bind _ _ _ _ (leads_num_of y _)). intros n1. by apply (leads_bind _ _ _ _ (leads_num_of x _)).
Qed.

Lemma leads_within s : leads (exec_within g s) (exec_within f s).
Proof.
  unfold exec_within. destruct s as [|x [|y [|z s]]]; [done | done | done |].
  apply (leads_bind _ _ _ _ (leads_num_of z _)). intros n1. apply (leads_bind _ _ _ _ (leads_num_of y _)). intros n2.
  by apply (leads_bind _ _ _ _ (leads_num_of x _)).
Qed.

Lemma leads_checksig sv op code s : leads (exec_checksig g sv op code s) (exec_checksig f sv op code s).
Proof.
  unfold exec_checksig. destruct s as [|x [|y s]]; [done | done |].
  apply (leads_bind _ _ _ _ (leads_CheckSignatureEncoding y)). intros _.
  apply (leads_bind _ _ _ _ (leads_CheckPubKeyEncoding x sv)). intros _.
  apply leads_guard; [mono | done].
Qed.

Lemma leads_multisig_check sv s code i k : leads (multisig_check g sv s code i k) (multisig_check f sv s code i k).
Proof.
  unfold multisig_check. apply leads_bind; [done|]. intros v1. apply leads_bind; [done|]. intros v2.
  apply (leads_bind _ _ _ _ (leads_CheckSignatureEncoding v1)). intros _.
  by apply (leads_bind _ _ _ _ (leads_CheckPubKeyEncoding v2 sv)).
Qed.

Lemma leads_multisig_verify sv s code isig ikey ns nk :
  leads (multisig_verify g sv s code isig ikey ns nk) (multisig_verify f sv s code isig ikey ns nk).
Proof.
  unfold multisig_verify. apply while_leads.
  - intros [[[[b i] k] n] m] s'. simpl. destruct (b && (n >? 0)); [|done].
    pose proof (leads_multisig_check sv s code i k) as H.
    destruct (multisig_check g sv s code i k) as [ok| | | |]; try done. by rewrite (H ok eq_refl).
  - intros [[[[b i] k] n] m] a. simpl. destruct (b && (n >? 0)); [|done].
    destruct (multisig_check g sv s code i k) as [[]| | | |]; done.
Qed.

Lemma leads_multisig_cleanup n ok : forall ikey2 s, leads (multisig_cleanup g n ok ikey2 s) (multisig_cleanup f n ok ikey2 s).
Proof.
  induction n as [|n IH]; intros ikey2 s; simpl; [done|]. apply leads_bind; [done|]. intros top.
  apply leads_guard; [mono|]. apply leads_bind; [done|]. intros s'. apply IH.
Qed.

Lemma leads_checkmultisig sv op code s n :
  leads (exec_checkmultisig g sv op code s n) (exec_checkmultisig f sv op code s n).
Proof.
  unfold exec_checkmultisig. destruct (zlen s <? 1); [done|].
  apply leads_bind; [done|]. intros v1. apply (leads_bind _ _ _ _ (leads_num_of v1 _)). intros nk.
  apply leads_guard; [done|]. apply leads_guard; [done|]. apply leads_guard; [done|].
  apply leads_bind; [done|]. intros v2. apply (leads_bind _ _ _ _ (leads_num_of v2 _)). intros ns.
  apply leads_guard; [done|]. apply leads_guard; [done|]. apply leads_bind; [done|]. intros c.
  apply (leads_bind _ _ _ _ (leads_multisig_verify _ _ _ _ _ _ _)). intros ok.
  apply (leads_bind _ _ _ _ (leads_multisig_cleanup _ _ _ _)). intros [|d s']; [done|].
  apply leads_guard; [mono | done].
Qed.

Lemma leads_exec_op sv opcode fExec pc st : leads (exec_op g sv opcode fExec pc st) (exec_op f sv opcode fExec pc st).
Proof.
  unfold exec_op. destruct (opcode_of opcode) as [op|]; [|done].
  destruct op; try done;
    try (apply leads_guard; [by rewrite Hnop | done]);
    apply leads_fmap;
    auto using leads_cltv, leads_csv, leads_if, leads_stack2, leads_unary, leads_binary, leads_within, leads_checksig,
      leads_checkmultisig.
Qed.

Lemma leads_instruction sv opcode v pc st :
  leads (exec_instruction g sv opcode v pc st) (exec_instruction f sv opcode v pc st).
Proof.
  unfold exec_instruction. apply leads_guard; [done|]. apply leads_guard; [done|]. apply leads_guard; [done|].
  apply leads_bind; [|done]. destruct (_ && _ && _); [apply leads_guard; [mono | done]|].
  destruct (_ || _); [apply leads_exec_op | done].
Qed.

Lemma leads_EvalScript sv s script : leads (EvalScript g sv s script) (EvalScript f sv s script).
Proof.
  unfold EvalScript. destruct (_ >? _); [done|]. apply while_leads.
  - intros [pc st] s'. simpl. destruct pc as [|o pc]; [done|].
    destruct (Script.GetOp2 (o :: pc)) as [pc' [[op v]|]]; [|done].
    pose proof (leads_instruction sv op v pc' st) as H.
    destruct (exec_instruction g sv op v pc' st) as [st'| | | |]; try done. by rewrite (H st' eq_refl).
  - intros [pc st] s'. simpl. destruct pc as [|o pc]; [done|].
    destruct (Script.GetOp2 (o :: pc)) as [pc' [[op v]|]]; [|done].
    destruct (exec_instruction g sv op v pc' st); done.
Qed.

(** ** Spending an output *)

Lemma leads_VerifyWitnessProgram witness v program :
  leads (VerifyWitnessProgram g witness v program) (VerifyWitnessProgram f witness v program).
Proof.
  unfold VerifyWitnessProgram. destruct (v =? 0); [|apply leads_fail_if, has_mono].
  apply leads_bind; [done|]. intros [script s]. apply leads_bind; [done|]. intros _.
  by apply (leads_bind _ _ _ _ (leads_EvalScript _ _ _)).
Qed.

Lemma VerifyScript_leads scriptSig scriptPubKey witness : flags_ok f ->
  leads (VerifyScript g scriptSig scriptPubKey witness) (VerifyScript f scriptSig scriptPubKey witness).
Proof.
  intros [Hf1 Hf2]. unfold VerifyScript. apply leads_guard; [mono|].
  apply (leads_bind _ _ _ _ (leads_EvalScript _ _ _)). intros stackCopy.
  apply (leads_bind _ _ _ _ (leads_EvalScript _ _ _)). intros s2. apply leads_bind; [done|]. intros _.
  destruct (has f SCRIPT_VERIFY_WITNESS) eqn:Ew; cycle 1.
  { (* without WITNESS there is no CLEANSTACK either *)
    assert (Ec : has f SCRIPT_VERIFY_CLEANSTACK = false)
      by (destruct (has f SCRIPT_VERIFY_CLEANSTACK); [by specialize (Hf1 eq_refl) | done]).
    unfold verify_bare_witness, verify_p2sh, verify_end. rewrite Ew, Ec. simpl.
    destruct (has f SCRIPT_VERIFY_P2SH) eqn:Ep; [rewrite (has_mono _ Ep)|by intros [] _].
    destruct (Script.IsPayToScriptHash scriptPubKey); simpl; [|by intros [] _].
    intros []. destruct (if has g SCRIPT_VERIFY_WITNESS then _ else _) as [[s3 had]| | | |]; simpl; try done.
    destruct (negb (Script.IsPushOnly scriptSig)); simpl; [done|]. destruct stackCopy as [|pk s4]; [done|].
    pose proof (leads_EvalScript SIGVERSION_BASE s4 pk) as H.
    destruct (EvalScript g SIGVERSION_BASE s4 pk) as [s5| | | |]; try done. rewrite (H s5 eq_refl). simpl.
    by destruct (check_top s5). }
  specialize (Hf2 eq_refl). pose proof (has_mono _ Ew) as Ew'. pose proof (has_mono _ Hf2) as Ep'.
  apply leads_bind.
  { unfold verify_bare_witness. rewrite Ew, Ew'. destruct (Script.IsWitnessProgram _) as [[v p]|]; [|done].
    apply leads_guard; [done|]. by apply (leads_bind _ _ _ _ (leads_VerifyWitnessProgram _ _ _)). }
  intros [s3 had]. apply leads_bind.
  { rewrite Hf2, Ep'. simpl. destruct (Script.IsPayToScriptHash scriptPubKey); [|done].
    unfold verify_p2sh. rewrite Ew, Ew'. apply leads_guard; [done|]. destruct stackCopy as [|pk s4]; [done|].
    apply (leads_bind _ _ _ _ (leads_EvalScript _ _ _)). intros s5. apply leads_bind; [done|]. intros _.
    destruct (Script.IsWitnessProgram pk) as [[v p]|]; [|done].
    apply leads_guard; [done|]. by apply (leads_bind _ _ _ _ (leads_VerifyWitnessProgram _ _ _)). }
  intros [s6 had']. unfold verify_end. rewrite Hf2, Ep', Ew, Ew'. apply leads_bind; [|done].
  destruct (has f SCRIPT_VERIFY_CLEANSTACK) eqn:Ec; [by rewrite (has_mono _ Ec)|by intros [] _].
Qed.

End SoftFork.

(** ** Properties *)

(** C3: verification flags are soft forks: if an input is accepted under a set of
    flags [g], it is accepted under every subset [f] that is itself an allowed
    combination and leaves out [DISCOURAGE_UPGRADABLE_NOPS]; and each script
    leaves the same stack under both. *)
Theorem verify_flags_are_soft_forks (hashes : ScriptHashes) (lows : LowSCheck) (checker : BaseSignatureChecker) f g :
  Z.land f g = f -> has f SCRIPT_VERIFY_DISCOURAGE_UPGRADABLE_NOPS = false -> flags_ok f ->
  (forall sv s script s', EvalScript g sv s script = Ok s' -> EvalScript f sv s script = Ok s') /\
  (forall scriptSig scriptPubKey witness,
     VerifyScript g scriptSig scriptPubKey witness = Ok tt -> VerifyScript f scriptSig scriptPubKey witness = Ok tt).
Proof.
  intros Hsub Hnop Hok. split.
  - intros sv s script s'. by apply leads_EvalScript.
  - intros scriptSig scriptPubKey witness. by apply VerifyScript_leads.
Qed.

Lemma verify_flags_are_soft_forks_witness :
  (forall sv s script s',
     @EvalScript sample_hashes sample_lows sample_checker 0x3ff sv s script = Ok s' ->
     @EvalScript sample_hashes sample_lows sample_checker SCRIPT_VERIFY_P2SH sv s script = Ok s') /\
  (forall scriptSig scriptPubKey witness,
     @VerifyScript sample_hashes sample_lows sample_checker 0x3ff scriptSig scriptPubKey witness = Ok tt ->
     @VerifyScript sample_hashes sample_lows sample_checker SCRIPT_VERIFY_P2SH scriptSig scriptPubKey witness = Ok tt).
Proof.
  apply (verify_flags_are_soft_forks sample_hashes sample_lows sample_checker SCRIPT_VERIFY_P2SH 0x3ff);
    [reflexivity | reflexivity | split; vm_compute; done].
Defined.
