(* ===== verification/Multisig.v ===== *)
(** * What OP_CHECKMULTISIG decides (interpreter.cpp, the case of [EvalScript])

    The operation is given [m] signatures and [n] keys and tries the signatures
    against the keys greedily.  It succeeds exactly when the signatures can be
    assigned, in order, to distinct keys that verify them. *)

From S2P Require Import Prelude Opcodes ScriptNum Script Interpreter InterpreterSafety.

(** ** The specification *)

Section Matching.
Context (check : valtype -> valtype -> bool).

(** the signatures are made, in order, by some of the keys *)
Inductive signed_in_order : list valtype -> list valtype -> Prop :=
  | signed_none keys : signed_in_order [] keys
  | signed_by sig sigs key keys :
      check sig key = true -> signed_in_order sigs keys -> signed_in_order (sig :: sigs) (key :: keys)
  | signed_skip sigs key keys : signed_in_order sigs keys -> signed_in_order sigs (key :: keys).

(** the strategy of the loop: try the first signature on the first key *)
Fixpoint greedy (keys sigs : list valtype) : bool :=
  match sigs with
  | [] => true
  | sig :: sigs' =>
      match keys with
      | [] => false
      | key :: keys => if check sig key then greedy keys sigs' else greedy keys sigs
      end
  end.

Lemma signed_tail sig sigs keys : signed_in_order (sig :: sigs) keys -> signed_in_order sigs keys.
Proof.
  revert sig sigs. induction keys as [|key keys IH]; intros sig sigs H; inversion H; subst.
  - by apply signed_skip.
  - apply signed_skip. by apply (IH sig).
Qed.

Lemma greedy_spec keys sigs : greedy keys sigs = true <-> signed_in_order sigs keys.
Proof.
  revert sigs. induction keys as [|key keys IH]; intros [|sig sigs]; simpl.
  - split; [constructor | done].
  - split; [done | intros H; inversion H].
  - split; [constructor | done].
  - destruct (check sig key) eqn:E.
    + rewrite IH. split; [by apply signed_by|]. intros H. inversion H; subst; [done | by apply (signed_tail sig)].
    + rewrite IH. split; [by apply signed_skip|]. intros H. inversion H; subst; [congruence | done].
Qed.

Lemma greedy_short keys sigs : (length keys < length sigs)%nat -> greedy keys sigs = false.
Proof.
  revert sigs. induction keys as [|key keys IH]; intros [|sig sigs] H; simpl in *; try done; try lia.
  destruct (check sig key); apply IH; simpl; lia.
Qed.
End Matching.

(** ** The loop implements it *)

Section Multisig.
Context {hashes : ScriptHashes} {lows : LowSCheck} {checker : BaseSignatureChecker}.
Context (flags : Z) (sv : SigVersion).

(** signatures and keys whose encodings pass the checks the flags ask for *)
Definition encodings_ok (sigs keys : list valtype) : Prop :=
  Forall (fun sig => CheckSignatureEncoding sig flags = Ok tt) sigs /\
  Forall (fun key => CheckPubKeyEncoding key flags sv = Ok tt) keys.

(** [l] stands on the stack from [stacktop(-i)] down *)
Definition stands_at (s : list valtype) (i : Z) (l : list valtype) : Prop :=
  1 <= i /\ forall j x, l !! j = Some x -> stacktop s (i + Z.of_nat j) = Ok x.

Lemma stands_at_tail s i x l : stands_at s i (x :: l) -> stacktop s i = Ok x /\ stands_at s (i + 1) l.
Proof.
  intros [Hi H]. split; [|split; [lia|]].
  - specialize (H 0%nat x eq_refl). by rewrite Z.add_0_r in H.
  - intros j y Hj. specialize (H (S j) y Hj). by replace (i + 1 + Z.of_nat j) with (i + Z.of_nat (S j)) by lia.
Qed.

Lemma stands_at_app a l b : stands_at (a ++ l ++ b) (zlen a + 1) l.
Proof.
  split; [lia|]. intros j x Hj. unfold stacktop. replace (Z.to_nat _) with (length a + j)%nat by lia.
  rewrite lookup_app_r by lia. replace (length a + j - length a)%nat with j by lia.
  rewrite lookup_app_l by (by eapply lookup_lt_Some). by rewrite Hj.
Qed.

Lemma multisig_loop_greedy s code : forall keys sigs isig ikey fuel,
  stands_at s isig sigs -> stands_at s ikey keys -> encodings_ok sigs keys ->
  (length sigs <= length keys < fuel)%nat ->
  while_loop (multisig_step flags sv s code) fuel (true, isig, ikey, zlen sigs, zlen keys) =
  Some (Ok (greedy (fun sig key => CheckSig sig key code sv) keys sigs)).
Proof.
  induction keys as [|key keys IH]; intros sigs isig ikey fuel Hs Hk [Es Ek] Hlen; (destruct fuel as [|fuel]; [lia|]).
  { destruct sigs; [done | simpl in Hlen; lia]. }
  destruct sigs as [|sig sigs]; [done|]. pose proof (stands_at_tail _ _ _ _ Hs) as [Hsig Hs']. apply stands_at_tail in Hk as [Hkey Hk'].
  apply Forall_cons in Es as [Esig Es]. apply Forall_cons in Ek as [Ekey Ek].
  assert (Ec : multisig_check flags sv s code isig ikey = Ok (CheckSig sig key code sv)).
  { unfold multisig_check. rewrite Hsig, Hkey. simpl. rewrite Esig. simpl. by rewrite Ekey. }
  cbn [while_loop]. unfold multisig_step at 1.
  replace (true && (zlen (sig :: sigs) >? 0)) with true by (symmetry; simpl; apply Z.gtb_lt; lia).
  rewrite Ec. replace (zlen (key :: keys) - 1) with (zlen keys) by (simpl; lia). cbn [greedy].
  destruct (CheckSig sig key code sv).
  - replace (zlen (sig :: sigs) - 1) with (zlen sigs) by (simpl; lia). simpl in Hlen.
    rewrite Z.gtb_ltb, (proj2 (Z.ltb_ge _ _)) by lia. apply IH; done || lia.
  - rewrite Z.gtb_ltb. destruct (Z.ltb_spec (zlen keys) (zlen (sig :: sigs))).
    + rewrite greedy_short by lia. simpl in Hlen. destruct fuel as [|fuel]; [lia|]. done.
    + apply IH; done || (simpl in *; lia) || (split; [by apply Forall_cons | done]).
Qed.

Lemma cleanup_prefix f n : forall a s,
  multisig_cleanup flags (length a + n) f (zlen a) (a ++ s) = multisig_cleanup flags n f 0 s.
Proof.
  induction a as [|x a IH]; intros s; [done|]. cbn [length app]. simpl multisig_cleanup. unfold stacktop. simpl.
  rewrite andb_false_r. cbn [andb fail_if mbind result_bind].
  replace (Z.of_nat (S (length a)) - 1) with (zlen a) by lia. apply IH.
Qed.

(** a failed operation must come with empty signatures when [NULLFAIL] is set *)
Definition nullfail (f : bool) (sigs : list valtype) : bool :=
  negb f && has flags SCRIPT_VERIFY_NULLFAIL && existsb (fun sig => negb (zlen sig =? 0)) sigs.

Lemma cleanup_sigs f s : forall sigs,
  multisig_cleanup flags (length sigs) f 0 (sigs ++ s) =
  if nullfail f sigs then Err SCRIPT_ERR_SIG_NULLFAIL else Ok s.
Proof.
  unfold nullfail. induction sigs as [|sig sigs IH]; simpl; [by rewrite andb_false_r|]. unfold stacktop. simpl.
  rewrite andb_true_r. destruct (negb f && has flags SCRIPT_VERIFY_NULLFAIL) eqn:E; simpl in *; [|apply IH].
  destruct (negb (zlen sig =? 0)); simpl; [done | apply IH].
Qed.

Lemma num_getvch n : Z.abs n < 2 ^ 31 -> num flags (ScriptNum.getvch n) = Ok n.
Proof.
  intros Hn. unfold num, num_of, ScriptNum.getvch. destruct (serialize_spec n ltac:(lia)) as (Ev & Hb & Hm & Hl).
  pose proof (serialize_length n 4 ltac:(lia) ltac:(lia)). change ScriptNum.nDefaultMaxNumSize with 4.
  rewrite CScriptNum_eq, Hm, Z.gtb_ltb, (proj2 (Z.ltb_ge _ _)), andb_false_r by lia. simpl.
  by rewrite set_vch_spec, Ev.
Qed.

(** the script code the signatures are checked against *)
Definition multisig_script (sigs : list valtype) (code : script_bytes) : script_bytes :=
  if bool_decide (sv = SIGVERSION_BASE)
  then foldl (fun c sig => (Script.FindAndDelete c (Script.push_data [] sig)).1) code sigs else code.

Lemma multisig_code_spec s isig sigs code : stands_at s isig sigs ->
  multisig_code sv s isig (length sigs) code = Ok (multisig_script sigs code).
Proof.
  intros H. unfold multisig_code.
  enough (E : (fun n r => r = Ok (multisig_script (take n sigs) code)) (length sigs)
    (for_loop (length sigs) (fun k scriptCode => scriptCode ← scriptCode; vchSig ← stacktop s (isig + Z.of_nat k);
      Ok (if bool_decide (sv = SIGVERSION_BASE)
          then (Script.FindAndDelete scriptCode (Script.push_data [] vchSig)).1 else scriptCode)) (Ok code))).
  { simpl in E. by rewrite firstn_all in E. }
  apply (for_loop_inv (fun n r => r = Ok (multisig_script (take n sigs) code))).
  - unfold multisig_script. by case_ifs.
  - intros j r Hj ->. simpl. destruct (lookup_lt_is_Some_2 sigs j Hj) as [x Hx].
    rewrite (proj2 H j x Hx). simpl. rewrite (take_S_r _ _ _ Hx). unfold multisig_script.
    case_ifs; [|done]. by rewrite foldl_app.
Qed.

Lemma exec_checkmultisig_spec op code keys sigs dummy rest nOp :
  (length sigs <= length keys)%nat -> zlen keys <= MAX_PUBKEYS_PER_MULTISIG ->
  nOp + zlen keys <= MAX_OPS_PER_SCRIPT -> encodings_ok sigs keys ->
  exec_checkmultisig flags sv op code
    (ScriptNum.getvch (zlen keys) :: keys ++ ScriptNum.getvch (zlen sigs) :: sigs ++ dummy :: rest) nOp =
  let b := greedy (fun sig key => CheckSig sig key (multisig_script sigs code) sv) keys sigs in
  if nullfail b sigs then Err SCRIPT_ERR_SIG_NULLFAIL
  else if has flags SCRIPT_VERIFY_NULLDUMMY && negb (zlen dummy =? 0) then Err SCRIPT_ERR_SIG_NULLDUMMY
  else if bool_decide (op = OP_CHECKMULTISIGVERIFY)
  then if b then Ok (rest, nOp + zlen keys) else Err SCRIPT_ERR_CHECKMULTISIGVERIFY
  else Ok (of_bool b :: rest, nOp + zlen keys).
Proof.
  intros Hle Hk Hop Henc. unfold MAX_PUBKEYS_PER_MULTISIG in Hk.
  set (N := ScriptNum.getvch (zlen keys)). set (M := ScriptNum.getvch (zlen sigs)).
  set (s := N :: keys ++ M :: sigs ++ dummy :: rest).
  assert (Hlen : zlen s = zlen keys + zlen sigs + 3 + zlen rest)
    by (unfold s; repeat (simpl; rewrite length_app); simpl; lia).
  assert (HM : stacktop s (2 + zlen keys) = Ok M).
  { destruct (stands_at_app (N :: keys) [M] (sigs ++ dummy :: rest)) as [_ H]. specialize (H 0%nat M eq_refl).
    replace (zlen (N :: keys) + 1 + Z.of_nat 0) with (2 + zlen keys) in H by (simpl; lia). exact H. }
  assert (Hkeys : stands_at s 2 keys) by apply (stands_at_app [N] keys (M :: sigs ++ dummy :: rest)).
  assert (Hsigs : stands_at s (2 + zlen keys + 1) sigs).
  { pose proof (stands_at_app (N :: keys ++ [M]) sigs (dummy :: rest)) as H. simpl in H.
    rewrite <- app_assoc, length_app in H. simpl in H.
    by replace (2 + zlen keys + 1) with (Z.pos (Pos.of_succ_nat (length keys + 1)) + 1) by lia. }
  unfold exec_checkmultisig. rewrite (proj2 (Z.ltb_ge (zlen s) 1)) by lia.
  rewrite (bind_Ok _ N) by done. rewrite (bind_Ok _ (zlen keys)) by (apply num_getvch; lia).
  rewrite getint_small, !Z.gtb_ltb by lia. cbv zeta.
  rewrite guard_pass by (apply orb_false_iff; split; apply Z.ltb_ge; unfold MAX_PUBKEYS_PER_MULTISIG; lia).
  rewrite guard_pass by (apply Z.ltb_ge; lia). rewrite guard_pass by (apply Z.ltb_ge; lia).
  rewrite (bind_Ok _ M) by done. rewrite (bind_Ok _ (zlen sigs)) by (apply num_getvch; lia).
  rewrite getint_small, !Z.gtb_ltb by lia.
  rewrite guard_pass by (apply orb_false_iff; split; apply Z.ltb_ge; lia). rewrite guard_pass by (apply Z.ltb_ge; lia).
  rewrite Nat2Z.id, (bind_Ok _ _ _ (multisig_code_spec s _ sigs code Hsigs)).
  set (b := greedy _ keys sigs). rewrite (bind_Ok _ b)
    by (unfold multisig_verify; by rewrite (multisig_loop_greedy s _ keys sigs) by (done || lia)).
  replace (Z.to_nat (2 + zlen keys + 1 + zlen sigs - 1)) with (length (N :: keys ++ [M]) + length sigs)%nat
    by (simpl; rewrite length_app; simpl; lia).
  replace (zlen keys + 2) with (zlen (N :: keys ++ [M])) by (simpl; rewrite length_app; simpl; lia).
  replace s with ((N :: keys ++ [M]) ++ sigs ++ dummy :: rest) by (simpl; by rewrite <- app_assoc).
  rewrite cleanup_prefix, cleanup_sigs. destruct (nullfail b sigs); [done|]. cbn [mbind result_bind].
  unfold fail_if. by destruct (_ && _).
Qed.

End Multisig.

(** ** Properties *)

(** C2: on a stack with [n] keys and [m] signatures (encodings acceptable),
    [OP_CHECKMULTISIG] succeeds exactly when the signatures verify, in order, under
    distinct keys of the list; it removes its arguments and the extra element,
    adds [n] to the operation count, and reports [NULLFAIL] and [NULLDUMMY]
    violations when those flags are set. *)
Theorem checkmultisig_correct (hashes : ScriptHashes) (lows : LowSCheck) (checker : BaseSignatureChecker)
    flags sv op code keys sigs dummy rest nOp :
  (length sigs <= length keys)%nat -> zlen keys <= MAX_PUBKEYS_PER_MULTISIG ->
  nOp + zlen keys <= MAX_OPS_PER_SCRIPT -> encodings_ok flags sv sigs keys ->
  exists b : bool,
    (b = true <-> signed_in_order (fun sig key => CheckSig sig key (multisig_script sv sigs code) sv) sigs keys) /\
    exec_checkmultisig flags sv op code
      (ScriptNum.getvch (zlen keys) :: keys ++ ScriptNum.getvch (zlen sigs) :: sigs ++ dummy :: rest) nOp =
    if nullfail flags b sigs then Err SCRIPT_ERR_SIG_NULLFAIL
    else if has flags SCRIPT_VERIFY_NULLDUMMY && negb (zlen dummy =? 0) then Err SCRIPT_ERR_SIG_NULLDUMMY
    else if bool_decide (op = OP_CHECKMULTISIGVERIFY)
    then if b then Ok (rest, nOp + zlen keys) else Err SCRIPT_ERR_CHECKMULTISIGVERIFY
    else Ok (of_bool b :: rest, nOp + zlen keys).
Proof.
  intros H1 H2 H3 H4. eexists. split; [apply greedy_spec|]. by apply exec_checkmultisig_spec.
Qed.

Lemma checkmultisig_correct_witness :
  exists b : bool,
    (b = true <-> signed_in_order (fun sig key => @CheckSig sample_checker sig key
                    (multisig_script SIGVERSION_BASE [[2; 1]; [3; 1]] []) SIGVERSION_BASE) [[2; 1]; [3; 1]] [[1]; [2]; [3]]) /\
    @exec_checkmultisig sample_lows sample_checker 0 SIGVERSION_BASE OP_CHECKMULTISIG []
      [[3]; [1]; [2]; [3]; [2]; [2; 1]; [3; 1]; []; [9]] 0 =
    if nullfail 0 b [[2; 1]; [3; 1]] then Err SCRIPT_ERR_SIG_NULLFAIL
    else if has 0 SCRIPT_VERIFY_NULLDUMMY && negb (zlen (@nil Z) =? 0) then Err SCRIPT_ERR_SIG_NULLDUMMY
    else if bool_decide (OP_CHECKMULTISIG = OP_CHECKMULTISIGVERIFY)
    then if b then Ok ([[9]], 3) else Err SCRIPT_ERR_CHECKMULTISIGVERIFY
    else Ok (of_bool b :: [[9]], 3).
Proof.
  apply (checkmultisig_correct sample_hashes sample_lows sample_checker 0 SIGVERSION_BASE OP_CHECKMULTISIG []
           [[1]; [2]; [3]] [[2; 1]; [3; 1]] [] [[9]] 0).
  - simpl. lia.
  - vm_compute. discriminate.
  - vm_compute. discriminate.
  - split; repeat constructor.
Defined.
