(* ===== verification/Serialize.v ===== *)
(** * Serialization (serialize.h)

    Writing to a stream is the list of bytes written.  Reading is a parser: it
    takes the bytes left in the stream and returns a value and what remains, or
    [None] where the source throws [std::ios_base::failure]. *)

From S2P Require Import Prelude ScriptNum.

(** ** Parsers *)

Definition parser (A : Type) : Type := list Z -> option (A * list Z).

#[global] Instance parser_ret : MRet parser := fun A a s => Some (a, s).
#[global] Instance parser_bind : MBind parser := fun A B f p s =>
  match p s with Some (a, s') => f a s' | None => None end.

Definition failure {A} : parser A := fun _ => None.

(** [if (cond) throw std::ios_base::failure(...)] *)
Definition throw_if (cond : bool) : parser unit := if cond then failure else mret tt.

(** [s.read(p, n)] *)
Definition read (n : Z) : parser (list Z) := fun s =>
  if zlen s <? n then None else Some (take (Z.to_nat n) s, drop (Z.to_nat n) s).

(** ** Definitions *)

Definition MAX_SIZE : Z := 0x02000000.

(** the [n] low bytes of a number, lowest first *)
Fixpoint le_bytes (n : nat) (x : Z) : list Z :=
  match n with
  | O => []
  | S n => Z.land x 0xff :: le_bytes n (Z.shiftr x 8)
  end.

Definition ser_writedata8 (obj : Z) : list Z := le_bytes 1 obj.
Definition ser_writedata16 (obj : Z) : list Z := le_bytes 2 obj.
Definition ser_writedata32 (obj : Z) : list Z := le_bytes 4 obj.
Definition ser_writedata64 (obj : Z) : list Z := le_bytes 8 obj.

Definition ser_readdata8 : parser Z := b ← read 1; mret (le_val b).
Definition ser_readdata16 : parser Z := b ← read 2; mret (le_val b).
Definition ser_readdata32 : parser Z := b ← read 4; mret (le_val b).
Definition ser_readdata64 : parser Z := b ← read 8; mret (le_val b).

(** [GetSizeOfCompactSize], [WriteCompactSize], [ReadCompactSize] *)
Definition GetSizeOfCompactSize (nSize : Z) : Z :=
  if nSize <? 253 then 1 else if nSize <=? 0xffff then 3 else if nSize <=? 0xffffffff then 5 else 9.

Definition WriteCompactSize (nSize : Z) : list Z :=
  if nSize <? 253 then ser_writedata8 nSize
  else if nSize <=? 0xffff then ser_writedata8 253 ++ ser_writedata16 nSize
  else if nSize <=? 0xffffffff then ser_writedata8 254 ++ ser_writedata32 nSize
  else ser_writedata8 255 ++ ser_writedata64 nSize.

Definition ReadCompactSize : parser Z :=
  chSize ← ser_readdata8;
  nSizeRet ← (if chSize <? 253 then mret chSize
              else if chSize =? 253 then
                n ← ser_readdata16; throw_if (n <? 253);; mret n
              else if chSize =? 254 then
                n ← ser_readdata32; throw_if (n <? 0x10000);; mret n
              else
                n ← ser_readdata64; throw_if (n <? 0x100000000);; mret n);
  throw_if (nSizeRet >? MAX_SIZE);;
  mret nSizeRet.

(** the digits [WriteVarInt] puts into [tmp], the last one first; a [uint64_t]
    has at most ten of them *)
Fixpoint varint_digits (fuel : nat) (first : bool) (n : Z) : list Z :=
  match fuel with
  | O => []
  | S fuel =>
      let tmp := Z.lor (Z.land n 0x7f) (if first then 0 else 0x80) in
      if n <=? 0x7f then [tmp] else tmp :: varint_digits fuel false (Z.shiftr n 7 - 1)
  end.

Definition WriteVarInt (n : Z) : list Z := rev (varint_digits 10 true n).

(** [GetSizeOfVarInt] *)
Fixpoint GetSizeOfVarInt (fuel : nat) (n : Z) : Z :=
  match fuel with
  | O => 0
  | S fuel => if n <=? 0x7f then 1 else 1 + GetSizeOfVarInt fuel (Z.shiftr n 7 - 1)
  end.

(** the loop of [ReadVarInt]; [max] is [std::numeric_limits<I>::max()] *)
Fixpoint read_varint (fuel : nat) (max n : Z) : parser Z :=
  match fuel with
  | O => failure
  | S fuel =>
      chData ← ser_readdata8;
      throw_if (n >? Z.shiftr max 7);;
      let n := Z.lor (Z.shiftl n 7) (Z.land chData 0x7f) in
      if negb (Z.land chData 0x80 =? 0) then
        throw_if (n =? max);; read_varint fuel max (n + 1)
      else mret n
  end.

(** every turn of the loop consumes a byte *)
Definition ReadVarInt (max : Z) : parser Z := fun s => read_varint (S (length s)) max 0 s.

(** vectors and strings of bytes are one blob, read in blocks of five million bytes *)
Definition Serialize_bytes (v : list Z) : list Z := WriteCompactSize (zlen v) ++ v.

Fixpoint read_blocks (fuel : nat) (n : Z) : parser (list Z) :=
  match fuel with
  | O => failure
  | S fuel =>
      if n <=? 0 then mret []
      else
        let blk := Z.min n 5000000 in
        b ← read blk; r ← read_blocks fuel (n - blk); mret (b ++ r)
  end.

Definition Unserialize_bytes : parser (list Z) :=
  nSize ← ReadCompactSize;
  read_blocks 8 nSize.

(** other vectors are the number of elements and the elements *)
Fixpoint read_elements {A} (n : nat) (p : parser A) : parser (list A) :=
  match n with
  | O => mret []
  | S n => a ← p; l ← read_elements n p; mret (a :: l)
  end.

Definition Serialize_vector {A} (ser : A -> list Z) (v : list A) : list Z :=
  WriteCompactSize (zlen v) ++ concat (map ser v).

Definition Unserialize_vector {A} (p : parser A) : parser (list A) :=
  nSize ← ReadCompactSize;
  read_elements (Z.to_nat nSize) p.

(** [LimitedString<Limit>::Unserialize] *)
Definition Unserialize_limited (Limit : Z) : parser (list Z) :=
  size ← ReadCompactSize;
  throw_if (size >? Limit);;
  if negb (size =? 0) then read size else mret [].

(** ** Fixed-width integers *)

Lemma le_bytes_length n : forall x, length (le_bytes n x) = n.
Proof. induction n as [|n IH]; intros x; simpl; [done|]. by rewrite IH. Qed.

Lemma byte_split x : Z.land x 0xff = x mod 256 /\ Z.shiftr x 8 = x / 256.
Proof. split; [apply (land_mask x 8); lia | by rewrite Z.shiftr_div_pow2 by lia]. Qed.

Lemma le_bytes_bytes n : forall x, bytes (le_bytes n x).
Proof.
  induction n as [|n IH]; intros x; simpl; constructor; [|apply IH].
  destruct (byte_split x) as [-> _]. unfold is_u8. apply Z.mod_pos_bound. lia.
Qed.

Lemma le_val_le_bytes n : forall x, le_val (le_bytes n x) = x mod 256 ^ Z.of_nat n.
Proof.
  induction n as [|n IH]; intros x; simpl le_bytes; [by rewrite Z.mod_1_r|].
  destruct (byte_split x) as [-> ->]. simpl le_val. rewrite IH, Nat2Z.inj_succ, Z.pow_succ_r by lia.
  rewrite Z.rem_mul_r by (try lia; apply Z.pow_pos_nonneg; lia). lia.
Qed.

Lemma le_bytes_le_val l : bytes l -> le_bytes (length l) (le_val l) = l.
Proof.
  induction 1 as [|x l Hx Hl IH]; [done|]. simpl. unfold is_u8 in Hx.
  destruct (byte_split (x + 256 * le_val l)) as [-> ->]. rewrite (Z.mul_comm 256), Z.mod_add, Z.div_add by lia.
  rewrite Z.mod_small, Z.div_small, Z.add_0_l, IH by lia. done.
Qed.

Lemma read_app a s : read (zlen a) (a ++ s) = Some (a, s).
Proof.
  unfold read. rewrite (proj2 (Z.ltb_ge _ _)) by (rewrite length_app; lia).
  by rewrite Nat2Z.id, take_app_length, drop_app_length.
Qed.

Lemma read_inv n s a s' : 0 <= n -> read n s = Some (a, s') -> s = a ++ s' /\ zlen a = n.
Proof.
  unfold read. intros Hn. destruct (Z.ltb_spec (zlen s) n); [done|]. intros [= <- <-].
  rewrite take_drop, length_take. split; [done | lia].
Qed.

(** reading what was written, and nothing else is read as that number *)
Lemma read_le_mod n x s :
  (b ← read (Z.of_nat n); mret (le_val b)) (le_bytes n x ++ s) = Some (x mod 256 ^ Z.of_nat n, s).
Proof.
  unfold mbind, parser_bind. rewrite <- (le_bytes_length n x) at 1. rewrite read_app.
  by rewrite le_val_le_bytes.
Qed.

Lemma read_le_write n x s : 0 <= x < 256 ^ Z.of_nat n ->
  (b ← read (Z.of_nat n); mret (le_val b)) (le_bytes n x ++ s) = Some (x, s).
Proof. intros Hx. by rewrite read_le_mod, Z.mod_small. Qed.

Lemma read_le_inv n x s s' : bytes s -> (b ← read (Z.of_nat n); mret (le_val b)) s = Some (x, s') ->
  s = le_bytes n x ++ s' /\ 0 <= x < 256 ^ Z.of_nat n /\ bytes s'.
Proof.
  intros Hs. unfold mbind, parser_bind. destruct (read (Z.of_nat n) s) as [[a s1]|] eqn:E; [|done].
  apply read_inv in E as [-> Ha]; [|lia]. intros [= <- <-]. apply Forall_app in Hs as [Hb Hs'].
  assert (En : n = length a) by lia. subst n. rewrite le_bytes_le_val by done. split; [done|].
  split; [by apply le_val_range | done].
Qed.

Lemma throw_if_pass {B} b (k : unit -> parser B) s : b = false -> (throw_if b ≫= k) s = k tt s.
Proof. by intros ->. Qed.

Lemma throw_if_inv {B} b (k : unit -> parser B) s r : (throw_if b ≫= k) s = Some r -> b = false /\ k tt s = Some r.
Proof. by destruct b. Qed.

Lemma parser_bind_Some {A B} (p : parser A) (k : A -> parser B) s r :
  (p ≫= k) s = Some r -> exists a s', p s = Some (a, s') /\ k a s' = Some r.
Proof. unfold mbind, parser_bind. destruct (p s) as [[a s']|]; [eauto | done]. Qed.

Lemma parser_bind_eq {A B} (p : parser A) (k : A -> parser B) s a s' :
  p s = Some (a, s') -> (p ≫= k) s = k a s'.
Proof. unfold mbind, parser_bind. by intros ->. Qed.

(** ** Compact sizes *)

Lemma WriteCompactSize_length n : 0 <= n -> zlen (WriteCompactSize n) = GetSizeOfCompactSize n.
Proof. intros Hn. unfold WriteCompactSize, GetSizeOfCompactSize. by case_ifs. Qed.

Lemma ReadCompactSize_write n s : 0 <= n <= MAX_SIZE -> ReadCompactSize (WriteCompactSize n ++ s) = Some (n, s).
Proof.
  unfold MAX_SIZE. intros Hn. unfold ReadCompactSize, WriteCompactSize.
  assert (Hmax : (n >? MAX_SIZE) = false) by (rewrite Z.gtb_ltb; apply Z.ltb_ge; unfold MAX_SIZE; lia).
  destruct (Z.ltb_spec n 253) as [H1|H1]; [|destruct (Z.leb_spec n 0xffff) as [H2|H2]; [|destruct (Z.leb_spec n 0xffffffff) as [H3|H3]]].
  - erewrite parser_bind_eq; [|apply (read_le_write 1 n s); simpl; lia].
    rewrite (proj2 (Z.ltb_lt _ _)) by lia. erewrite parser_bind_eq by done. by rewrite throw_if_pass.
  - rewrite <- app_assoc. erewrite parser_bind_eq; [|apply (read_le_write 1 253); simpl; lia]. cbn [Z.ltb Z.eqb Z.compare Pos.compare Pos.compare_cont Pos.eqb].
    erewrite parser_bind_eq; cycle 1.
    { erewrite parser_bind_eq; [|apply (read_le_write 2 n s); simpl; lia]. rewrite throw_if_pass by (apply Z.ltb_ge; lia). reflexivity. }
    by rewrite throw_if_pass.
  - rewrite <- app_assoc. erewrite parser_bind_eq; [|apply (read_le_write 1 254); simpl; lia]. cbn [Z.ltb Z.eqb Z.compare Pos.compare Pos.compare_cont Pos.eqb].
    erewrite parser_bind_eq; cycle 1.
    { erewrite parser_bind_eq; [|apply (read_le_write 4 n s); simpl; lia]. rewrite throw_if_pass by (apply Z.ltb_ge; lia). reflexivity. }
    by rewrite throw_if_pass.
  - lia.
Qed.

(** one alternative of [ReadCompactSize] *)
Lemma read_size_inv n lo s x s' : bytes s ->
  (m ← (b ← read (Z.of_nat n); mret (le_val b)); throw_if (m <? lo);; mret m) s = Some (x, s') ->
  s = le_bytes n x ++ s' /\ lo <= x < 256 ^ Z.of_nat n /\ 0 <= x.
Proof.
  intros Hs H. apply parser_bind_Some in H as (m & s1 & H1 & H). apply throw_if_inv in H as [Hlt H].
  injection H as -> ->. apply read_le_inv in H1 as (-> & Hr & _); [|done]. bool_to_prop. split; [done | lia].
Qed.

Lemma ReadCompactSize_inv s n rest : bytes s -> ReadCompactSize s = Some (n, rest) ->
  0 <= n <= MAX_SIZE /\ s = WriteCompactSize n ++ rest.
Proof.
  intros Hs H. unfold ReadCompactSize in H. apply parser_bind_Some in H as (c & s1 & H1 & H).
  apply (read_le_inv 1) in H1 as (-> & Hc & Hs1); [|done]. apply parser_bind_Some in H as (m & s2 & H2 & H).
  apply throw_if_inv in H as [Hmax H]. injection H as -> ->. bool_to_prop. unfold WriteCompactSize. simpl in Hc.
  destruct (Z.ltb_spec c 253); [|destruct (Z.eqb_spec c 253) as [->|]; [|destruct (Z.eqb_spec c 254) as [->|]]].
  - injection H2 as -> ->. rewrite (proj2 (Z.ltb_lt _ _)) by lia. split; [lia | done].
  - apply (read_size_inv 2) in H2 as (-> & Hr & H0); [|done]. simpl in Hr.
    rewrite (proj2 (Z.ltb_ge _ _)), (proj2 (Z.leb_le _ _)) by lia. rewrite <- app_assoc. split; [lia | done].
  - apply (read_size_inv 4) in H2 as (-> & Hr & H0); [|done]. simpl in Hr.
    rewrite (proj2 (Z.ltb_ge _ _)), (proj2 (Z.leb_gt _ _)), (proj2 (Z.leb_le _ _)) by lia. rewrite <- app_assoc. split; [lia | done].
  - apply (read_size_inv 8) in H2 as (-> & Hr & H0); [|done]. unfold MAX_SIZE in Hmax. lia.
Qed.

(** ** Variable-length integers *)

Lemma septet_split n : Z.land n 0x7f = n mod 128 /\ Z.shiftr n 7 = n / 128.
Proof. split; [apply (land_mask n 7); lia | by rewrite Z.shiftr_div_pow2 by lia]. Qed.

Lemma lor_80 x : 0 <= x < 128 -> Z.lor x 0x80 = x + 128.
Proof. intros Hx. change 0x80 with (1 * 2 ^ 7). rewrite lor_disjoint_add by lia. lia. Qed.

Lemma septet_join n c : 0 <= n -> 0 <= c < 128 -> Z.lor (Z.shiftl n 7) c = n * 128 + c.
Proof.
  intros Hn Hc. rewrite Z.shiftl_mul_pow2, Z.lor_comm by lia. rewrite lor_disjoint_add by lia. lia.
Qed.

(** the digits that announce another one, the first one first *)
Definition varint_high (fuel : nat) (m : Z) : list Z := rev (varint_digits fuel false m).

Lemma varint_high_unfold fuel m : 0 <= m ->
  varint_high (S fuel) m =
  (if m <=? 0x7f then [] else varint_high fuel (m / 128 - 1)) ++ [m mod 128 + 128].
Proof.
  intros Hm. unfold varint_high. simpl. destruct (septet_split m) as [-> ->].
  rewrite lor_80 by (apply Z.mod_pos_bound; lia). by destruct (m <=? 127).
Qed.

Lemma WriteVarInt_unfold n : 0 <= n ->
  WriteVarInt n = (if n <=? 0x7f then [] else varint_high 9 (n / 128 - 1)) ++ [n mod 128].
Proof.
  intros Hn. unfold WriteVarInt, varint_high. cbn [varint_digits]. destruct (septet_split n) as [-> ->].
  rewrite Z.lor_0_r. by destruct (n <=? 127).
Qed.

(** [fuel] digits are enough below [128 ^ fuel] *)
Lemma varint_high_fuel f : forall f' m, 0 <= m < 128 ^ Z.of_nat f -> 0 <= m < 128 ^ Z.of_nat f' ->
  (0 < f)%nat -> (0 < f')%nat -> varint_high f m = varint_high f' m.
Proof.
  induction f as [|f IH]; intros [|f'] m H H' Hf Hf'; [done | lia | lia |].
  rewrite !Nat2Z.inj_succ, !Z.pow_succ_r in * by lia. rewrite !varint_high_unfold by lia.
  destruct (Z.leb_spec m 127) as [|Hm]; [done|].
  pose proof (Z.div_mod m 128 ltac:(lia)). pose proof (Z.mod_pos_bound m 128 ltac:(lia)).
  assert (0 < f)%nat by (destruct f; [simpl in H; lia | lia]).
  assert (0 < f')%nat by (destruct f'; [simpl in H'; lia | lia]).
  rewrite (IH f'); [done | lia | lia | done | done].
Qed.

Lemma varint_high_length f m : (length (varint_high f m) <= f)%nat.
Proof.
  unfold varint_high. rewrite length_rev. generalize false as b. revert m.
  induction f as [|f IH]; intros m b; simpl; [lia|]. destruct (m <=? 127); simpl; [lia|].
  specialize (IH (Z.shiftr m 7 - 1) false). lia.
Qed.

Lemma ser_readdata8_cons c s : is_u8 c -> ser_readdata8 (c :: s) = Some (c, s).
Proof.
  intros Hc. unfold is_u8 in Hc. pose proof (read_le_write 1 c s) as H. cbn [le_bytes app] in H.
  destruct (byte_split c) as [E _]. rewrite E, Z.mod_small in H by lia. apply H. change (256 ^ Z.of_nat 1) with 256. lia.
Qed.

(** one turn of the reading loop on a byte [c] *)
Lemma read_varint_step fuel max n c s : is_u8 c -> 0 <= n <= max / 128 ->
  read_varint (S fuel) max n (c :: s) =
  if c <? 128 then Some (n * 128 + c, s)
  else if n * 128 + (c - 128) =? max then None
  else read_varint fuel max (n * 128 + (c - 128) + 1) s.
Proof.
  intros Hc Hn. cbn [read_varint]. rewrite (parser_bind_eq _ _ _ c s) by (by apply ser_readdata8_cons).
  destruct (septet_split max) as [_ ->]. rewrite throw_if_pass by (rewrite Z.gtb_ltb; apply Z.ltb_ge; lia).
  destruct (land_80_ff c Hc) as [-> ->]. rewrite septet_join by (try lia; apply Z.mod_pos_bound; lia). unfold is_u8 in Hc.
  destruct (Z.ltb_spec c 128); cbn [negb].
  - rewrite Z.mod_small by lia. done.
  - replace (c mod 128) with (c - 128)
      by (replace c with (c - 128 + 1 * 128) at 2 by lia; rewrite Z.mod_add, Z.mod_small by lia; done).
    by destruct (_ =? max).
Qed.

Lemma read_varint_high f : forall fuel max m s, 0 <= m < max -> m < 128 ^ Z.of_nat f -> (0 < f)%nat ->
  (length (varint_high f m) <= fuel)%nat ->
  read_varint fuel max 0 (varint_high f m ++ s) = read_varint (fuel - length (varint_high f m)) max (m + 1) s.
Proof.
  induction f as [|f IH]; intros fuel max m s Hm Hf Hf0 Hfuel; [lia|].
  rewrite Nat2Z.inj_succ, Z.pow_succ_r in Hf by lia.
  pose proof (Z.div_mod m 128 ltac:(lia)) as Hdm. pose proof (Z.mod_pos_bound m 128 ltac:(lia)) as Hb.
  pose proof (Z.div_le_mono m max 128 ltac:(lia) ltac:(lia)) as Hq. pose proof (Z.div_pos m 128 ltac:(lia) ltac:(lia)).
  rewrite varint_high_unfold in * by lia. rewrite <- app_assoc. rewrite length_app in *. simpl length in *.
  assert (Hc : is_u8 (m mod 128 + 128)) by (unfold is_u8; lia).
  destruct (Z.leb_spec m 127) as [Hs|Hs]; cbn [app length] in *.
  - rewrite (Z.div_small m 128) in * by lia. destruct fuel as [|fuel]; [lia|]. rewrite read_varint_step by (done || lia).
    rewrite (proj2 (Z.ltb_ge _ _)), (proj2 (Z.eqb_neq _ _)) by lia. f_equal; lia.
  - assert (0 < f)%nat by (destruct f; [simpl in Hf; lia | lia]). rewrite IH by lia.
    set (L := length _) in *. replace (fuel - L)%nat with (S (fuel - (L + 1))) by lia.
    replace (m / 128 - 1 + 1) with (m / 128) by lia. rewrite read_varint_step by (done || lia).
    rewrite (proj2 (Z.ltb_ge _ _)), (proj2 (Z.eqb_neq _ _)) by lia. f_equal; lia.
Qed.

Lemma ReadVarInt_write max n s : 0 <= n <= max -> max < 2 ^ 64 -> ReadVarInt max (WriteVarInt n ++ s) = Some (n, s).
Proof.
  intros Hn Hmax. unfold ReadVarInt. rewrite WriteVarInt_unfold, <- app_assoc by lia.
  pose proof (Z.div_mod n 128 ltac:(lia)) as Hdm. pose proof (Z.mod_pos_bound n 128 ltac:(lia)) as Hb.
  pose proof (Z.div_le_mono n max 128 ltac:(lia) ltac:(lia)) as Hq.
  assert (Hc : is_u8 (n mod 128)) by (unfold is_u8; lia).
  destruct (Z.leb_spec n 127) as [Hs|Hs]; cbn [app].
  - rewrite (Z.div_small n 128) in * by lia. rewrite read_varint_step by (done || lia).
    rewrite (proj2 (Z.ltb_lt _ _)) by lia. f_equal. f_equal. lia.
  - rewrite read_varint_high; [| lia | simpl; lia | lia | rewrite length_app; lia].
    rewrite length_app. simpl length. set (L := length _).
    replace (S (L + S (length s)) - L)%nat with (S (S (length s))) by lia.
    replace (n / 128 - 1 + 1) with (n / 128) by lia. rewrite read_varint_step by (done || lia).
    rewrite (proj2 (Z.ltb_lt _ _)) by lia. f_equal. f_equal. lia.
Qed.

(** the digits already read when the loop is at [n] *)
Definition varint_prefix (n : Z) : list Z := if n =? 0 then [] else varint_high 10 (n - 1).

Lemma varint_prefix_next n c : 0 <= n < 2 ^ 60 -> 128 <= c < 256 ->
  varint_prefix (n * 128 + (c - 128) + 1) = varint_prefix n ++ [c].
Proof.
  intros Hn Hc. unfold varint_prefix. rewrite (proj2 (Z.eqb_neq (n * 128 + (c - 128) + 1) 0)), Z.add_simpl_r by lia.
  rewrite varint_high_unfold by lia. rewrite Z.add_comm, Z.mod_add, Z.div_add, Z.mod_small, Z.div_small by lia.
  replace (c - 128 + 128) with c by lia. f_equal. destruct (Z.eqb_spec n 0) as [->|H0].
  - rewrite (proj2 (Z.leb_le _ _)) by lia. done.
  - rewrite (proj2 (Z.leb_gt _ _)) by lia. apply varint_high_fuel; simpl; lia.
Qed.

Lemma WriteVarInt_last n c : 0 <= n < 2 ^ 60 -> 0 <= c < 128 -> WriteVarInt (n * 128 + c) = varint_prefix n ++ [c].
Proof.
  intros Hn Hc. rewrite WriteVarInt_unfold by lia. rewrite Z.add_comm, Z.mod_add, Z.div_add, Z.mod_small, Z.div_small by lia.
  f_equal. unfold varint_prefix. destruct (Z.eqb_spec n 0) as [->|H0].
  - rewrite (proj2 (Z.leb_le _ _)) by lia. done.
  - rewrite (proj2 (Z.leb_gt _ _)) by lia. apply varint_high_fuel; simpl; lia.
Qed.

Lemma read_varint_inv max fuel : max < 2 ^ 64 -> max mod 128 = 127 -> forall acc s n rest, bytes s -> 0 <= acc <= max ->
  read_varint fuel max acc s = Some (n, rest) ->
  exists l, s = l ++ rest /\ WriteVarInt n = varint_prefix acc ++ l /\ 0 <= n <= max.
Proof.
  intros Hmax Hlow. pose proof (Z.div_mod max 128 ltac:(lia)) as Hd.
  induction fuel as [|fuel IH]; intros acc s n rest Hs Hacc H; [done|].
  destruct s as [|c s]; [done|]. apply Forall_cons in Hs as [Hc Hs].
  destruct (Z.le_gt_cases acc (max / 128)) as [Hle|Hgt].
  - rewrite read_varint_step in H by (done || lia). unfold is_u8 in Hc.
    destruct (Z.ltb_spec c 128) as [Hlt|Hge].
    + injection H as <- <-. exists [c]. split; [done|]. split; [apply WriteVarInt_last; lia | lia].
    + destruct (Z.eqb_spec (acc * 128 + (c - 128)) max) as [|Hne]; [done|].
      apply IH in H as (l & -> & Hw & Hr); [| done | lia]. exists (c :: l). split; [done|]. split; [|done].
      rewrite varint_prefix_next in Hw by lia. by rewrite Hw, <- app_assoc.
  - cbn [read_varint] in H. apply parser_bind_Some in H as (c' & s' & _ & H). apply throw_if_inv in H as [H _].
    destruct (septet_split max) as [_ E]. rewrite E in H. bool_to_prop. lia.
Qed.

(** ** Vectors *)

(** reading in blocks is reading at once *)
Lemma read_blocks_app fuel : forall a s, zlen a <= 5000000 * (Z.of_nat fuel - 1) ->
  read_blocks fuel (zlen a) (a ++ s) = Some (a, s).
Proof.
  induction fuel as [|fuel IH]; intros a s Hf; [lia|]. cbn [read_blocks].
  destruct (Z.leb_spec (zlen a) 0) as [H0|H0]; [destruct a; [done | simpl in H0; lia]|].
  set (b := take (Z.to_nat (Z.min (zlen a) 5000000)) a). set (r := drop (Z.to_nat (Z.min (zlen a) 5000000)) a).
  assert (Ea : a = b ++ r) by (unfold b, r; by rewrite take_drop).
  assert (Eb : Z.min (zlen a) 5000000 = zlen b) by (unfold b; rewrite length_take; lia).
  assert (Er : zlen a - zlen b = zlen r) by (rewrite Ea, length_app; lia).
  rewrite Eb, Er. replace (a ++ s) with (b ++ r ++ s) by (by rewrite app_assoc, <- Ea).
  rewrite (parser_bind_eq _ _ _ b (r ++ s)) by apply read_app.
  rewrite (parser_bind_eq _ _ _ r s) by (apply IH; lia). rewrite <- Ea. done.
Qed.

Lemma Unserialize_bytes_app v s : zlen v <= MAX_SIZE -> Unserialize_bytes (Serialize_bytes v ++ s) = Some (v, s).
Proof.
  intros Hv. unfold Unserialize_bytes, Serialize_bytes. rewrite <- app_assoc.
  rewrite (parser_bind_eq _ _ _ (zlen v) (v ++ s)) by (apply ReadCompactSize_write; lia).
  apply read_blocks_app. unfold MAX_SIZE in Hv. lia.
Qed.

(** a reader that gives back [view a] of a value [a] satisfying [ok] *)
Definition reads {A B} (ok : A -> Prop) (view : A -> B) (ser : A -> list Z) (p : parser B) : Prop :=
  forall a s, ok a -> p (ser a ++ s) = Some (view a, s).

Lemma read_elements_app {A B} (ok : A -> Prop) (view : A -> B) ser p v s : reads ok view ser p -> Forall ok v ->
  read_elements (length v) p (concat (map ser v) ++ s) = Some (map view v, s).
Proof.
  intros Hp H. induction H as [|a v Ha Hv IH]; simpl; [done|]. rewrite <- app_assoc.
  rewrite (parser_bind_eq _ _ _ (view a) (concat (map ser v) ++ s)) by (by apply Hp).
  rewrite (parser_bind_eq _ _ _ (map view v) s) by done. done.
Qed.

Lemma vector_reads {A B} (ok : A -> Prop) (view : A -> B) ser p : reads ok view ser p ->
  reads (fun v => Forall ok v /\ zlen v <= MAX_SIZE) (map view) (Serialize_vector ser) (Unserialize_vector p).
Proof.
  intros Hp v s [Hv Hl]. unfold Unserialize_vector, Serialize_vector. rewrite <- app_assoc.
  rewrite (parser_bind_eq _ _ _ (zlen v) (concat (map ser v) ++ s)) by (apply ReadCompactSize_write; lia).
  rewrite Nat2Z.id. by apply (read_elements_app ok).
Qed.

Lemma bytes_reads : reads (fun v => zlen v <= MAX_SIZE) id Serialize_bytes Unserialize_bytes.
Proof. intros v s. apply Unserialize_bytes_app. Qed.

(** ** Properties *)

(** Compact sizes are canonical: for every byte stream, [ReadCompactSize]
    returns [n] exactly when the stream starts with what [WriteCompactSize] writes
    for [n] and [n] is at most [MAX_SIZE]; every other stream is rejected. *)
Theorem CompactSize_canonical s n rest :
  bytes s ->
  ReadCompactSize s = Some (n, rest) <-> 0 <= n <= MAX_SIZE /\ s = WriteCompactSize n ++ rest.
Proof.
  intros Hs. split; [by apply ReadCompactSize_inv|]. intros [Hn ->]. by apply ReadCompactSize_write.
Qed.

Lemma CompactSize_canonical_witness :
  ReadCompactSize [253; 0x34; 0x12; 7] = Some (0x1234, [7]) <->
  0 <= 0x1234 <= MAX_SIZE /\ [253; 0x34; 0x12; 7] = WriteCompactSize 0x1234 ++ [7].
Proof.
  apply (CompactSize_canonical [253; 0x34; 0x12; 7] 0x1234 [7]). repeat constructor; unfold is_u8; lia.
Defined.

(** Every integer has exactly one variable-length encoding: for an unsigned
    type with maximum [max], [ReadVarInt] returns [n] exactly when the stream
    starts with what [WriteVarInt] writes for [n] and [n] is in range, so overlong
    and overflowing encodings are rejected. *)
Theorem VarInt_canonical max s n rest :
  max < 2 ^ 64 -> max mod 128 = 127 -> bytes s -> 0 <= max ->
  ReadVarInt max s = Some (n, rest) <-> 0 <= n <= max /\ s = WriteVarInt n ++ rest.
Proof.
  intros Hmax Hlow Hs H0. split.
  - intros H. apply read_varint_inv in H as (l & -> & -> & Hn); [| done | done | done | lia]. split; [done|]. done.
  - intros [Hn ->]. by apply ReadVarInt_write.
Qed.

Lemma VarInt_canonical_witness :
  ReadVarInt (2 ^ 32 - 1) [0x82; 0xfe; 0x7f; 5] = Some (65535, [5]) <->
  0 <= 65535 <= 2 ^ 32 - 1 /\ [0x82; 0xfe; 0x7f; 5] = WriteVarInt 65535 ++ [5].
Proof.
  apply (VarInt_canonical (2 ^ 32 - 1) [0x82; 0xfe; 0x7f; 5] 65535 [5]); try (vm_compute; reflexivity).
  - repeat constructor; unfold is_u8; lia.
  - vm_compute. discriminate.
Defined.
