(* ===== verification/Hashing.v ===== *)
(** * Iterated hash functions

    The parts the four hash classes of [src/crypto] share: reading and writing
    words in either byte order ([crypto/common.h]) and the buffered interface of
    [CSHA1], [CRIPEMD160] and [CSHA512], whose [Write], [Finalize] and [Reset] are
    the same text up to the block size and the byte order of the length.  [CSHA256]
    hands its whole blocks to [Transform] at once; it has definitions of its own in
    [Sha256.v].

    [BlockHash] is what such a class has of its own; [merkle_damgard] is the
    reference: pad the whole message, cut it into blocks and fold the compression
    function.  [streaming_correct] says that the buffered object computes it, for
    every way the message is cut into calls of [Write] and whatever the buffer held
    before. *)

From S2P Require Import Prelude ScriptNum Serialize.
Open Scope Z_scope.

(** ** Statements

    The compression functions are straight-line code that assigns to the same
    few variables.  An assignment is a binding that shadows the earlier one. *)

Definition assign {A B : Type} (x : A) (f : A -> B) : B := f x.
Definition assign2 {A1 A2 B : Type} (x : A1 * A2) (f : A1 -> A2 -> B) : B := f x.1 x.2.

Declare Scope stmt_scope.
Delimit Scope stmt_scope with stmt.
Notation "x ⇐ e ; b" := (assign e (fun x => b))
  (at level 20, e at level 100, b at level 200, only parsing) : stmt_scope.
Notation "⟨ x , y ⟩ ⇐ e ; b" := (assign2 e (fun x y => b))
  (at level 20, x name, y name, e at level 100, b at level 200, only parsing) : stmt_scope.

Lemma assign_cong {A B} (x y : A) (f g : A -> B) : x = y -> (forall z, f z = g z) -> assign x f = assign y g.
Proof. intros -> H. apply H. Qed.

Lemma assign2_cong {A1 A2 B} (x y : A1 * A2) (f g : A1 -> A2 -> B) : x = y -> (forall a b, f a b = g a b) ->
  assign2 x f = assign2 y g.
Proof. intros -> H. apply H. Qed.

(** ** Words in memory *)

Definition be_val (l : list Z) : Z := le_val (rev l).
Definition be_bytes (n : nat) (x : Z) : list Z := rev (le_bytes n x).

Definition ReadLE32 (p : list Z) : Z := le_val (take 4 p).
Definition ReadLE64 (p : list Z) : Z := le_val (take 8 p).
Definition ReadBE32 (p : list Z) : Z := be_val (take 4 p).
Definition ReadBE64 (p : list Z) : Z := be_val (take 8 p).
Definition WriteLE32 (x : Z) : list Z := le_bytes 4 x.
Definition WriteLE64 (x : Z) : list Z := le_bytes 8 x.
Definition WriteBE32 (x : Z) : list Z := be_bytes 4 x.
Definition WriteBE64 (x : Z) : list Z := be_bytes 8 x.

(** [memcpy(buf + off, src, size)] on an array of a fixed size *)
Definition memcpy (buf : list Z) (off : nat) (src : list Z) : list Z :=
  take off buf ++ src ++ drop (off + length src) buf.

(** the sixteen 32-bit words of a block *)
Definition be_words (chunk : list Z) : list Z := map (fun i => ReadBE32 (drop (4 * i) chunk)) (seq 0 16).
Definition le_words (chunk : list Z) : list Z := map (fun i => ReadLE32 (drop (4 * i) chunk)) (seq 0 16).

(** the state of the 160-bit functions *)
Inductive regs5 := Regs5 (a b c d e : Z).

Definition add_regs5 (x y : regs5) : regs5 :=
  let '(Regs5 a b c d e) := x in
  let '(Regs5 a' b' c' d' e') := y in
  Regs5 (u32 (a + a')) (u32 (b + b')) (u32 (c + c')) (u32 (d + d')) (u32 (e + e')).

Definition regs5_bytes (write : Z -> list Z) (r : regs5) : list Z :=
  let '(Regs5 a b c d e) := r in write a ++ write b ++ write c ++ write d ++ write e.

(** ** What a hash function brings *)

Class BlockHash := {
  chain : Type;                        (* the array s *)
  block_size : nat;                    (* 64, or 128 for SHA-512 *)
  Initialize : chain;
  Transform : chain -> list Z -> chain;
  size_field : nat;                    (* length of the length field *)
  pad_base : nat;                      (* 119, or 239 for SHA-512 *)
  sizedesc : Z -> list Z;
  digest : chain -> list Z;
}.

Class BlockHashLaws (BH : BlockHash) := {
  block_size_pow : exists k : nat, (k <= 64)%nat /\ block_size = (2 ^ k)%nat;
  size_field_fits : (size_field < block_size)%nat;
  pad_base_eq : pad_base = (2 * block_size - 1 - size_field)%nat;
  sizedesc_length : forall n, length (sizedesc n) = size_field;
}.

Section Streaming.
Context {BH : BlockHash}.

(** the object: [s], [buf] and [bytes] *)
Record hasher := Hasher { h_s : chain; h_buf : list Z; h_bytes : Z }.

(** the constructor; the buffer is not initialised, [junk] is what it holds *)
Definition construct (junk : list Z) : hasher := Hasher Initialize junk 0.

(** [Reset] leaves the buffer as it is *)
Definition Reset (h : hasher) : hasher := Hasher Initialize (h_buf h) 0.

(** [while (end >= data + 64) { Transform(s, data); bytes += 64; data += 64; }] *)
Fixpoint write_chunks (fuel : nat) (s : chain) (bytes : Z) (data : list Z) : chain * Z * list Z :=
  match fuel with
  | O => (s, bytes, data)
  | S fuel =>
      if bool_decide (block_size <= length data)%nat then
        write_chunks fuel (Transform s (take block_size data)) (u64 (bytes + Z.of_nat block_size)) (drop block_size data)
      else (s, bytes, data)
  end.

Definition Write (h : hasher) (data : list Z) : hasher :=
  let bufsize := Z.to_nat (h_bytes h mod Z.of_nat block_size) in
  let '(s, buf, bytes, data, bufsize) :=
    if bool_decide (bufsize <> 0)%nat && bool_decide (block_size <= bufsize + length data)%nat then
      let n := (block_size - bufsize)%nat in
      let buf := memcpy (h_buf h) bufsize (take n data) in
      (Transform (h_s h) buf, buf, u64 (h_bytes h + Z.of_nat n), drop n data, O)
    else (h_s h, h_buf h, h_bytes h, data, bufsize) in
  let '(s, bytes, data) := write_chunks (length data) s bytes data in
  if bool_decide (0 < length data)%nat then
    Hasher s (memcpy buf bufsize data) (u64 (bytes + zlen data))
  else Hasher s buf bytes.

(** the pad array [{0x80}] of [Finalize] *)
Definition pad_bytes : list Z := 0x80 :: replicate (block_size - 1) 0.

Definition Finalize_state (h : hasher) : hasher :=
  let desc := sizedesc (u64 (Z.shiftl (h_bytes h) 3)) in
  let n := Z.to_nat (1 + (Z.of_nat pad_base - h_bytes h mod Z.of_nat block_size) mod Z.of_nat block_size) in
  Write (Write h (take n pad_bytes)) desc.

Definition Finalize (h : hasher) : list Z := digest (h_s (Finalize_state h)).

(** ** The reference *)

(** the chaining value after the first [n] blocks of [l] *)
Fixpoint absorb (n : nat) (s : chain) (l : list Z) : chain :=
  match n with
  | O => s
  | S n => absorb n (Transform s (take block_size l)) (drop block_size l)
  end.

(** the least number of zeros after the mark that leaves room for the length *)
Definition pad_zeros (len : nat) : nat :=
  ((block_size - (len + 1 + size_field) mod block_size) mod block_size)%nat.

Definition padded (m : list Z) : list Z :=
  m ++ [0x80] ++ replicate (pad_zeros (length m)) 0 ++ sizedesc (u64 (8 * zlen m)).

Definition merkle_damgard (m : list Z) : list Z :=
  digest (absorb (length (padded m) / block_size) Initialize (padded m)).

(** ** Proofs *)

Context {BL : BlockHashLaws BH}.

(** the block size stays a variable in arithmetic goals *)
Lemma block_size_pos : (0 < block_size)%nat.
Proof. destruct block_size_pow as (k & _ & ->). pose proof (Nat.pow_nonzero 2 k). lia. Qed.

Lemma absorb_app s l1 l2 n k : length l1 = (n * block_size)%nat ->
  absorb (n + k) s (l1 ++ l2) = absorb k (absorb n s l1) l2.
Proof.
  revert s l1. induction n as [|n IH]; intros s l1 Hl.
  { destruct l1; [done | simpl in Hl; lia]. }
  cbn [Nat.add absorb]. rewrite take_app_le, drop_app_le by lia. apply IH. rewrite length_drop. lia.
Qed.

Lemma absorb_prefix s l1 l2 n : (n * block_size <= length l1)%nat -> absorb n s (l1 ++ l2) = absorb n s l1.
Proof.
  revert s l1. induction n as [|n IH]; intros s l1 Hl; [done|].
  cbn [absorb]. rewrite take_app_le, drop_app_le by lia. apply IH. rewrite length_drop. lia.
Qed.

(** the chaining value and the bytes left over after a message *)
Definition whole (m : list Z) : nat := (length m / block_size)%nat.
Definition rest (m : list Z) : list Z := drop (whole m * block_size) m.

Lemma rest_length m : length (rest m) = (length m mod block_size)%nat.
Proof.
  unfold rest, whole. rewrite length_drop. pose proof block_size_pos.
  pose proof (Nat.div_mod_eq (length m) block_size). nia.
Qed.

Lemma split_whole m : exists m1, m = m1 ++ rest m /\ length m1 = (whole m * block_size)%nat.
Proof.
  exists (take (whole m * block_size) m). unfold rest. rewrite take_drop. split; [done|].
  rewrite length_take. unfold whole. pose proof block_size_pos.
  pose proof (Nat.Div0.mul_div_le (length m) block_size). lia.
Qed.

(** appending to a message appends to its left-over bytes *)
Lemma whole_rest_app m d : whole (m ++ d) = (whole m + whole (rest m ++ d))%nat /\ rest (m ++ d) = rest (rest m ++ d).
Proof.
  destruct (split_whole m) as (m1 & E & Hm1). pose proof block_size_pos as Hb.
  assert (E' : m ++ d = m1 ++ (rest m ++ d)) by (rewrite app_assoc, <- E; done).
  assert (Hw : whole (m ++ d) = (whole m + whole (rest m ++ d))%nat).
  { unfold whole at 1. replace (length (m ++ d)) with (length (rest m ++ d) + whole m * block_size)%nat
      by (rewrite E', !length_app, Hm1; lia).
    rewrite Nat.div_add by lia. fold (whole (rest m ++ d)). lia. }
  split; [exact Hw|]. unfold rest at 1. rewrite Hw, E'.
  rewrite drop_app_ge by lia. change (rest (rest m ++ d)) with (drop (whole (rest m ++ d) * block_size) (rest m ++ d)). rewrite Hm1. f_equal. lia.
Qed.

Lemma absorb_whole_app s m d :
  absorb (whole (m ++ d)) s (m ++ d) = absorb (whole (rest m ++ d)) (absorb (whole m) s m) (rest m ++ d).
Proof.
  destruct (whole_rest_app m d) as [-> _]. destruct (split_whole m) as (m1 & E & Hm1).
  assert (E' : m ++ d = m1 ++ (rest m ++ d)) by (rewrite app_assoc, <- E; done).
  rewrite E', absorb_app by done. f_equal.
  transitivity (absorb (whole m) s (m1 ++ rest m)); [symmetry; apply absorb_prefix; lia | by rewrite <- E].
Qed.

Lemma whole_lt m : (length m < block_size)%nat -> whole m = O /\ rest m = m.
Proof. intros H. unfold rest, whole. rewrite Nat.div_small by lia. done. Qed.

Lemma whole_cons blk d : length blk = block_size -> whole (blk ++ d) = S (whole d) /\ rest (blk ++ d) = rest d.
Proof.
  intros Hl. pose proof block_size_pos. unfold rest.
  assert (Hw : whole (blk ++ d) = S (whole d)).
  { unfold whole. rewrite length_app, Hl. replace (block_size + length d)%nat with (length d + 1 * block_size)%nat by lia.
    rewrite Nat.div_add by lia. lia. }
  rewrite Hw. split; [done|]. rewrite drop_app_ge by lia. f_equal. lia.
Qed.

(** what the object holds after the bytes [m] have been written *)
Definition holds (h : hasher) (m : list Z) : Prop :=
  h_s h = absorb (whole m) Initialize m /\
  length (h_buf h) = block_size /\
  take (length (rest m)) (h_buf h) = rest m /\
  h_bytes h = u64 (zlen m).

(** the number of bytes may wrap, its remainder does not *)
Lemma u64_mod_block x : u64 x mod Z.of_nat block_size = x mod Z.of_nat block_size.
Proof.
  destruct block_size_pow as (k & Hk & ->). unfold u64. rewrite Nat2Z.inj_pow. change (Z.of_nat 2) with 2.
  assert (Hp : 0 < 2 ^ Z.of_nat k) by (apply Z.pow_pos_nonneg; lia).
  replace 64 with ((64 - Z.of_nat k) + Z.of_nat k) by lia. rewrite Z.pow_add_r by lia.
  rewrite (Z.mul_comm (2 ^ (64 - Z.of_nat k))), Z.rem_mul_r by lia.
  rewrite Z.add_mod, Z.mul_comm, Z.mod_mul, Z.add_0_r, !Z.mod_mod by lia. done.
Qed.

Lemma u64_add_l x y : u64 (u64 x + y) = u64 (x + y).
Proof. unfold u64. rewrite Z.add_mod_idemp_l; lia. Qed.

Lemma write_chunks_absorb fuel : forall s bytes data, (length data <= fuel)%nat ->
  write_chunks fuel s (u64 bytes) data =
    (absorb (whole data) s data, u64 (bytes + Z.of_nat (whole data * block_size)), rest data).
Proof.
  pose proof block_size_pos as Hb. induction fuel as [|fuel IH]; intros s b data Hf; cbn [write_chunks].
  { destruct (whole_lt data) as [-> ->]; [lia|]. simpl. by rewrite Z.add_0_r. }
  case_bool_decide as E.
  - rewrite u64_add_l, IH by (rewrite length_drop; lia).
    destruct (whole_cons (take block_size data) (drop block_size data)) as [Hw Hr]; [rewrite length_take; lia|].
    rewrite take_drop in Hw, Hr. rewrite Hw, Hr. cbn [absorb]. f_equal. f_equal. f_equal. lia.
  - destruct (whole_lt data) as [-> ->]; [lia|]. simpl. by rewrite Z.add_0_r.
Qed.

Lemma memcpy_length buf off src : (off + length src <= length buf)%nat -> length (memcpy buf off src) = length buf.
Proof. intros H. unfold memcpy. rewrite !length_app, length_take, length_drop. lia. Qed.

Lemma memcpy_take buf off src : (off + length src <= length buf)%nat ->
  take (off + length src) (memcpy buf off src) = take off buf ++ src.
Proof.
  intros H. unfold memcpy. rewrite app_assoc. apply take_app_length'. rewrite length_app, length_take. lia.
Qed.

(** the second half of [Write]: whole blocks from the source, then the buffer *)
Definition write_rest (s : chain) (buf : list Z) (bytes : Z) (data : list Z) (bufsize : nat) : hasher :=
  let '(s, bytes, data) := write_chunks (length data) s bytes data in
  if bool_decide (0 < length data)%nat then
    Hasher s (memcpy buf bufsize data) (u64 (bytes + zlen data))
  else Hasher s buf bytes.

Lemma write_rest_spec s buf b data bufsize : length buf = block_size ->
  (bufsize = 0 \/ bufsize + length data < block_size)%nat ->
  let l := take bufsize buf ++ data in
  exists buf', write_rest s buf (u64 b) data bufsize = Hasher (absorb (whole l) s l) buf' (u64 (b + zlen data)) /\
    length buf' = block_size /\ take (length (rest l)) buf' = rest l.
Proof.
  intros Hbuf Hc l. pose proof block_size_pos as Hb. unfold write_rest.
  rewrite write_chunks_absorb by lia.
  assert (Hlen : zlen data = Z.of_nat (whole data * block_size) + zlen (rest data)).
  { rewrite rest_length. unfold whole. pose proof (Nat.div_mod_eq (length data) block_size). lia. }
  assert (Hl : whole l = whole data /\ absorb (whole l) s l = absorb (whole data) s data /\ rest l = take bufsize buf ++ rest data
     /\ (bufsize + length (rest data) < block_size)%nat).
  { pose proof (Nat.mod_upper_bound (length data) block_size). rewrite rest_length. destruct Hc as [-> | Hc].
    - subst l. rewrite take_0. simpl. repeat split; lia.
    - destruct (whole_lt data) as [E1 E2]; [lia|]. assert (length l = bufsize + length data)%nat
        by (subst l; rewrite length_app, length_take; lia).
      destruct (whole_lt l) as [E3 E4]; [lia|]. rewrite E1, E2, E3, E4. cbn. rewrite Nat.mod_small; [done | lia]. }
  destruct Hl as (Hw & -> & Hr & Hlt). rewrite u64_add_l, <- Z.add_assoc, <- Hlen.
  case_bool_decide as E; eexists; (split; [f_equal; f_equal; lia|]); rewrite Hr, length_app, length_take.
  - rewrite memcpy_length by lia. rewrite Nat.min_l by lia. split; [done|]. apply memcpy_take. lia.
  - assert (rest data = []) as -> by (destruct (rest data); [done | simpl in E; lia]).
    split; [done|]. rewrite app_nil_r. f_equal. simpl. lia.
Qed.

Lemma write_holds h m d : holds h m -> holds (Write h d) (m ++ d).
Proof.
  intros (Hs & Hbuf & Htake & Hbytes). pose proof block_size_pos as Hb.
  assert (Hbs : Z.to_nat (h_bytes h mod Z.of_nat block_size) = length (rest m)).
  { rewrite Hbytes, u64_mod_block, rest_length, <- Nat2Z.inj_mod. lia. }
  pose proof (Nat.mod_upper_bound (length m) block_size). pose proof (rest_length m).
  unfold holds. rewrite absorb_whole_app, <- Hs. destruct (whole_rest_app m d) as [_ ->].
  unfold Write. rewrite Hbs, Hbytes. destruct (bool_decide _ && bool_decide _) eqn:E.
  - apply andb_true_iff in E as [E1 E2]. apply bool_decide_eq_true in E1, E2.
    set (n := (block_size - length (rest m))%nat). set (blk := memcpy (h_buf h) (length (rest m)) (take n d)).
    assert (Hblk : blk = rest m ++ take n d).
    { subst blk. unfold memcpy. rewrite Htake, length_take. rewrite drop_ge by lia. by rewrite app_nil_r. }
    assert (Hlb : length blk = block_size) by (rewrite Hblk, length_app, length_take; lia).
    rewrite u64_add_l. fold (write_rest (Transform (h_s h) blk) blk (u64 (zlen m + Z.of_nat n)) (drop n d) 0).
    destruct (write_rest_spec (Transform (h_s h) blk) blk (zlen m + Z.of_nat n) (drop n d) 0 Hlb) as (buf' & -> & Hl & Ht); [lia|].
    rewrite take_0 in *. cbn [app h_s h_buf h_bytes] in *.
    assert (Er : rest m ++ d = blk ++ drop n d) by (rewrite Hblk, <- app_assoc, take_drop; done).
    rewrite Er. destruct (whole_cons blk (drop n d) Hlb) as [-> ->]. cbn [absorb].
    rewrite take_app_length', drop_app_length' by done. split_and!; [done.. |]. f_equal. rewrite length_app, length_drop. lia.
  - fold (write_rest (h_s h) (h_buf h) (u64 (zlen m)) d (length (rest m))).
    destruct (write_rest_spec (h_s h) (h_buf h) (zlen m) d (length (rest m)) Hbuf) as (buf' & -> & Hl & Ht).
    { apply andb_false_iff in E as [E|E]; apply bool_decide_eq_false in E; lia. }
    rewrite Htake in *. cbn [h_s h_buf h_bytes]. split_and!; [done.. |]. f_equal. rewrite length_app. lia.
Qed.

Lemma construct_holds junk : length junk = block_size -> holds (construct junk) [].
Proof.
  intros H. unfold holds, rest, whole. cbn [length]. rewrite Nat.Div0.div_0_l. cbn. rewrite take_0. done.
Qed.

Lemma reset_holds h m : holds h m -> holds (Reset h) [].
Proof. intros (_ & H & _). by apply (construct_holds (h_buf h)). Qed.

Lemma pad_count len :
  Z.to_nat (1 + (Z.of_nat pad_base - Z.of_nat len mod Z.of_nat block_size) mod Z.of_nat block_size) = S (pad_zeros len).
Proof.
  pose proof block_size_pos as Hb. pose proof size_field_fits as Hf. unfold pad_zeros. rewrite pad_base_eq.
  set (B := Z.of_nat block_size). assert (HB : 0 < B) by lia.
  assert (E : (Z.of_nat (2 * block_size - 1 - size_field) - Z.of_nat len mod B) mod B
    = Z.of_nat ((block_size - (len + 1 + size_field) mod block_size) mod block_size)); [|lia].
  replace (Z.of_nat (2 * block_size - 1 - size_field)) with (2 * B - 1 - Z.of_nat size_field) by lia.
  rewrite Nat2Z.inj_mod, Nat2Z.inj_sub, Nat2Z.inj_mod
    by (pose proof (Nat.mod_upper_bound (len + 1 + size_field) block_size); lia). fold B.
  rewrite Zminus_mod_idemp_r, (Zminus_mod_idemp_r B).
  replace (2 * B - 1 - Z.of_nat size_field - Z.of_nat len) with (B - Z.of_nat (len + 1 + size_field) + 1 * B) by lia.
  by rewrite Z.mod_add by lia.
Qed.

Lemma pad_bytes_take n : (n < block_size)%nat -> take (S n) pad_bytes = [0x80] ++ replicate n 0.
Proof. intros H. unfold pad_bytes. cbn [take app]. rewrite take_replicate. do 2 f_equal. lia. Qed.

Lemma finalize_state_holds h m : holds h m -> holds (Finalize_state h) (padded m).
Proof.
  intros Hh. pose proof Hh as (_ & _ & _ & Hb). unfold Finalize_state, padded.
  rewrite Hb, u64_mod_block, pad_count.
  rewrite pad_bytes_take by (unfold pad_zeros; apply Nat.mod_upper_bound; pose proof block_size_pos; lia).
  replace (u64 (Z.shiftl (u64 (zlen m)) 3)) with (u64 (8 * zlen m)).
  2:{ rewrite Z.shiftl_mul_pow2 by lia. unfold u64. rewrite Z.mul_mod_idemp_l by lia. f_equal. lia. }
  rewrite app_assoc, (app_assoc _ (replicate _ _)), <- (app_assoc m). by do 2 apply write_holds.
Qed.

Lemma finalize_correct h m : holds h m -> Finalize h = merkle_damgard m.
Proof. intros H. unfold Finalize, merkle_damgard. by destruct (finalize_state_holds h m H) as [-> _]. Qed.

(** the object after a sequence of calls of [Write] *)
Definition write_all (h : hasher) (parts : list (list Z)) : hasher := fold_left Write parts h.

Lemma write_all_holds parts : forall h m, holds h m -> holds (write_all h parts) (m ++ concat parts).
Proof.
  induction parts as [|d parts IH]; intros h m H; cbn; [by rewrite app_nil_r|].
  rewrite app_assoc. by apply IH, write_holds.
Qed.

Lemma streaming_correct junk parts : length junk = block_size ->
  Finalize (write_all (construct junk) parts) = merkle_damgard (concat parts).
Proof. intros H. by apply finalize_correct, (write_all_holds parts _ []), construct_holds. Qed.

(** the padded message is a whole number of blocks *)
Lemma padded_blocks m : (length (padded m) mod block_size)%nat = 0%nat.
Proof.
  pose proof block_size_pos as Hb. unfold padded, pad_zeros.
  rewrite !length_app, length_replicate, sizedesc_length. cbn [length].
  set (x := (length m + 1 + size_field)%nat).
  replace (length m + (1 + ((block_size - x mod block_size) mod block_size + size_field)))%nat
    with (x + (block_size - x mod block_size) mod block_size)%nat by lia.
  rewrite Nat.Div0.add_mod_idemp_r. pose proof (Nat.mod_upper_bound x block_size).
  replace (x + (block_size - x mod block_size))%nat with (S (x / block_size) * block_size)%nat
    by (pose proof (Nat.div_mod_eq x block_size); nia).
  apply Nat.Div0.mod_mul.
Qed.

End Streaming.

(** ** A code and a reference

    Two functions that differ only in how the compression function and the initial
    value are written compute the same hash. *)

Section Reference.
Context {C : Type} (bs sf pb : nat) (sd : Z -> list Z) (dg : C -> list Z).

Definition block_hash (I : C) (T : C -> list Z -> C) : BlockHash :=
  {| chain := C; block_size := bs; Initialize := I; Transform := T;
     size_field := sf; pad_base := pb; sizedesc := sd; digest := dg |}.

Lemma block_hash_laws I T : (exists k : nat, (k <= 64)%nat /\ bs = (2 ^ k)%nat) -> (sf < bs)%nat ->
  pb = (2 * bs - 1 - sf)%nat -> (forall n, length (sd n) = sf) -> BlockHashLaws (block_hash I T).
Proof. intros H1 H2 H3 H4. by split. Qed.

Lemma absorb_ext I I' T T' n : (forall s c, T s c = T' s c) -> forall (s : C) l,
  @absorb (block_hash I T) n s l = @absorb (block_hash I' T') n s l :> C.
Proof.
  intros H. induction n as [|n IH]; intros s l; [done|]. cbn. by rewrite H, IH.
Qed.

Lemma merkle_damgard_ext I I' T T' m : I = I' -> (forall s c, T s c = T' s c) ->
  @merkle_damgard (block_hash I T) m = @merkle_damgard (block_hash I' T') m.
Proof.
  intros -> H. unfold merkle_damgard. change (@digest (block_hash I' T)) with dg.
  rewrite (absorb_ext I' I' T T' _ H). reflexivity.
Qed.

Lemma streaming_ref I I' T T' junk parts : BlockHashLaws (block_hash I T) -> I = I' -> (forall s c, T s c = T' s c) ->
  length junk = bs ->
  @Finalize (block_hash I T) (write_all (@construct (block_hash I T) junk) parts)
  = @merkle_damgard (block_hash I' T') (concat parts).
Proof.
  intros HL HI HT Hj. rewrite (@streaming_correct (block_hash I T) HL junk parts Hj). by apply merkle_damgard_ext.
Qed.

End Reference.
