(* ===== verification/Sha2Spec.v ===== *)
(** * The secure hash standard

    A reference for [crypto/sha256.cpp], [crypto/sha512.cpp] and, in part,
    [crypto/sha1.cpp], in the words of FIPS 180-4 and independent of the code: the
    message schedule is a list that grows by one word at a time, a round moves the
    eight working variables along, and the constants are computed, not copied: the
    first bits of the fractional parts of the square and cube roots of the first
    primes.  The second part puts the rounds in the shape the code has them (a window
    of sixteen words that are overwritten in turn). *)

From S2P Require Import Prelude Hashing.
Open Scope Z_scope.

(** ** Constants *)

(** the first [n] primes from [p] on; [fuel] numbers are tried *)
Definition is_prime (p : nat) : bool :=
  forallb (fun d => negb (Nat.eqb (p mod d) 0)%nat) (seq 2 (p - 2)).

Fixpoint primes_from (fuel n p : nat) : list Z :=
  match fuel, n with
  | S fuel, S n' => if is_prime p then Z.of_nat p :: primes_from fuel n' (S p) else primes_from fuel n (S p)
  | _, _ => []
  end.

Definition first_primes (n : nat) : list Z := primes_from 500 n 2.

(** the largest [r < 2 ^ bits] with [r ^ e <= x], bit by bit *)
Fixpoint root_bits (e : Z) (x : Z) (bits : nat) (r : Z) : Z :=
  match bits with
  | O => r
  | S bits => let r' := r + 2 ^ Z.of_nat bits in root_bits e x bits (if r' ^ e <=? x then r' else r)
  end.

(** the first [w] bits of the fractional part of the [e]-th root of [p] *)
Definition root_fraction (e w : Z) (p : Z) : Z := root_bits e (p * 2 ^ (e * w)) (Z.to_nat w + 6) 0 mod 2 ^ w.

(** ** The functions *)

Definition ROTR (w n x : Z) : Z := Z.lor (Z.shiftr x n) (Z.shiftl x (w - n) mod 2 ^ w).
Definition SHR (n x : Z) : Z := Z.shiftr x n.
Definition Ch_ref (x y z : Z) : Z := Z.lxor (Z.land x y) (Z.land (Z.lnot x) z).
Definition Maj_ref (x y z : Z) : Z := Z.lxor (Z.lxor (Z.land x y) (Z.land x z)) (Z.land y z).
Definition rot3 (w i j k x : Z) : Z := Z.lxor (Z.lxor (ROTR w i x) (ROTR w j x)) (ROTR w k x).
Definition rot2 (w i j k x : Z) : Z := Z.lxor (Z.lxor (ROTR w i x) (ROTR w j x)) (SHR k x).

(** the eight words of the hash value, or the working variables [a] to [h] *)
Inductive regs := Regs (a b c d e f g h : Z).

Definition add_regs (w : Z) (x y : regs) : regs :=
  let '(Regs a b c d e f g h) := x in
  let '(Regs a' b' c' d' e' f' g' h') := y in
  Regs ((a + a') mod 2 ^ w) ((b + b') mod 2 ^ w) ((c + c') mod 2 ^ w) ((d + d') mod 2 ^ w)
       ((e + e') mod 2 ^ w) ((f + f') mod 2 ^ w) ((g + g') mod 2 ^ w) ((h + h') mod 2 ^ w).

(** the forms the code has them in *)
Lemma Ch_ref_xor x y z : Ch_ref x y z = Z.lxor z (Z.land x (Z.lxor y z)).
Proof.
  apply Z.bits_inj'. intros n Hn. unfold Ch_ref.
  rewrite !Z.lxor_spec, !Z.land_spec, Z.lnot_spec, Z.lxor_spec by lia.
  destruct (Z.testbit x n), (Z.testbit y n), (Z.testbit z n); done.
Qed.

Lemma Maj_ref_or x y z : Maj_ref x y z = Z.lor (Z.land x y) (Z.land z (Z.lor x y)).
Proof.
  apply Z.bits_inj'. intros n Hn. unfold Maj_ref.
  rewrite !Z.lxor_spec, !Z.lor_spec, !Z.land_spec, Z.lor_spec by lia.
  destruct (Z.testbit x n), (Z.testbit y n), (Z.testbit z n); done.
Qed.

(** eight words as bytes, or as a list *)
Definition regs_of (l : list Z) : regs :=
  Regs (l !!! 0%nat) (l !!! 1%nat) (l !!! 2%nat) (l !!! 3%nat) (l !!! 4%nat) (l !!! 5%nat) (l !!! 6%nat) (l !!! 7%nat).

Definition regs_list (r : regs) : list Z :=
  let '(Regs a b c d e f g h) := r in [a; b; c; d; e; f; g; h].

Definition regs_bytes (write : Z -> list Z) (r : regs) : list Z :=
  let '(Regs a b c d e f g h) := r in
  write a ++ write b ++ write c ++ write d ++ write e ++ write f ++ write g ++ write h.

Lemma add_regs_comm w x y : add_regs w x y = add_regs w y x.
Proof. destruct x, y. cbn. f_equal; f_equal; lia. Qed.

(** ** The rounds over a window of sixteen words

    [next W] is the word that follows the list [W], [round] one round with a
    constant and a word. *)

Section Schedule.
Context {St Kt : Type} (next : list Z -> Z) (round : St -> Kt * Z -> St).

Fixpoint schedule (n : nat) (W : list Z) : list Z :=
  match n with
  | O => W
  | S n => schedule n (W ++ [next W])
  end.

(** the rounds from the sixteenth on; [win] is the last sixteen words *)
Fixpoint run (ks : list Kt) (win : list Z) (st : St) : St :=
  match ks with
  | [] => st
  | k :: ks => let wt := next win in run ks (tail win ++ [wt]) (round st (k, wt))
  end.

(** the words the schedule appends *)
Fixpoint new_words (n : nat) (W : list Z) : list Z :=
  match n with
  | O => []
  | S n => next W :: new_words n (W ++ [next W])
  end.

Lemma schedule_new_words n : forall W, schedule n W = W ++ new_words n W.
Proof.
  induction n as [|n IH]; intros W; cbn [schedule new_words]; [by rewrite app_nil_r|].
  by rewrite IH, <- app_assoc.
Qed.

(** only the last sixteen words matter *)
Hypothesis next_suffix : forall W0 win, length win = 16%nat -> next (W0 ++ win) = next win.

Lemma new_words_window n : forall W0 win, length win = 16%nat -> new_words n (W0 ++ win) = new_words n win.
Proof.
  induction n as [|n IH]; intros W0 win Hw; [done|]. cbn [new_words]. rewrite next_suffix by done. f_equal.
  set (y := next win). destruct win as [|x win]; [done|].
  assert (Hl : length (win ++ [y]) = 16%nat) by (rewrite length_app; cbn in *; lia).
  rewrite <- app_assoc. cbn [app]. rewrite (cons_middle x W0), app_assoc, (IH (W0 ++ [x])) by done.
  symmetry. apply (IH [x]). done.
Qed.

Lemma run_new_words ks : forall win st, length win = 16%nat ->
  run ks win st = foldl round st (zip ks (new_words (length ks) win)).
Proof.
  induction ks as [|k ks IH]; intros win st Hw; [done|]. cbn [run length new_words].
  set (y := next win). destruct win as [|x win]; [done|]. cbn [tail].
  assert (Hl : length (win ++ [y]) = 16%nat) by (rewrite length_app; cbn in *; lia).
  rewrite IH by done. change ((x :: win) ++ [y]) with ([x] ++ (win ++ [y])).
  by rewrite (new_words_window (length ks) [x]) by done.
Qed.

(** a block is sixteen rounds on the message and the others on the window *)
Lemma rounds_split K st M : length M = 16%nat -> (16 <= length K)%nat ->
  foldl round st (zip K (schedule (length K - 16) M)) =
  run (drop 16 K) M (foldl round st (zip (take 16 K) M)).
Proof.
  intros HM HK. rewrite run_new_words, <- foldl_app, schedule_new_words by done. f_equal.
  rewrite length_drop. rewrite <- (take_drop 16 K) at 1. apply zip_with_app. rewrite length_take. lia.
Qed.

End Schedule.

Lemma lookup_suffix (W0 win : list Z) i : length win = 16%nat -> (i <= 16)%nat ->
  (W0 ++ win) !!! (length (W0 ++ win) - i)%nat = win !!! (length win - i)%nat.
Proof. intros H Hi. rewrite length_app, lookup_total_app_r by lia. f_equal. lia. Qed.

(** ** The family *)

Section SHA2.
(** the word size, the four functions of the algorithm and its constants *)
Variables (w : Z) (S0 S1 s0 s1 : Z -> Z) (K : list Z).

(** the next word of the schedule *)
Definition next_word (W : list Z) : Z :=
  let t := length W in
  (s1 (W !!! (t - 2)%nat) + W !!! (t - 7)%nat + s0 (W !!! (t - 15)%nat) + W !!! (t - 16)%nat) mod 2 ^ w.

Definition round_ref (st : regs) (kw : Z * Z) : regs :=
  let '(Regs a b c d e f g h) := st in
  let T1 := (h + S1 e + Ch_ref e f g + kw.1 + kw.2) mod 2 ^ w in
  let T2 := (S0 a + Maj_ref a b c) mod 2 ^ w in
  Regs ((T1 + T2) mod 2 ^ w) a b c ((d + T1) mod 2 ^ w) e f g.

(** one block [M] of sixteen words *)
Definition compress_ref (H : regs) (M : list Z) : regs :=
  add_regs w H (foldl round_ref H (zip K (schedule next_word (length K - 16) M))).

Lemma next_word_suffix W0 win : length win = 16%nat -> next_word (W0 ++ win) = next_word win.
Proof. intros H. unfold next_word. by rewrite !lookup_suffix by (done || lia). Qed.

Lemma compress_split H M : length M = 16%nat -> (16 <= length K)%nat ->
  compress_ref H M = add_regs w H (run next_word round_ref (drop 16 K) M (foldl round_ref H (zip (take 16 K) M))).
Proof.
  intros HM HK. unfold compress_ref. f_equal. apply rounds_split; [apply next_word_suffix | done | done].
Qed.

End SHA2.
