(* ===== verification/Sha1.v ===== *)
(** * SHA-1

    [crypto/sha1.cpp]: the unrolled [Transform] and the buffered object [CSHA1].
    [SHA1_ref] is FIPS 180-4, section 6.1; its constants are the integer parts of
    [2^30] times the square roots of 2, 3, 5 and 10.  [SHA1_streaming] says that the
    object computes it, however the message is cut up. *)

From S2P Require Import Prelude ScriptNum Serialize Hashing Sha2Spec.
Open Scope Z_scope.

Local Infix ".^" := Z.lxor (at level 46, left associativity).
Local Infix ".&" := Z.land (at level 44, left associativity).
Local Infix ".|" := Z.lor (at level 47, left associativity).
Local Infix ".>>" := Z.shiftr (at level 42).
Local Notation "x .<< n" := (u32 (Z.shiftl x n)) (at level 42).

(** [b] and [e] after the round *)
Definition Round (a b c d e f k w : Z) : Z * Z :=
  let e := u32 (e + ((a .<< 5 .| a .>> 27) + f + k + w)) in
  let b := b .<< 30 .| b .>> 2 in
  (b, e).

Definition f1 (b c d : Z) : Z := d .^ (b .& (c .^ d)).
Definition f2 (b c d : Z) : Z := b .^ c .^ d.
Definition f3 (b c d : Z) : Z := (b .& c) .| (d .& (b .| c)).

Definition left (x : Z) : Z := x .<< 1 .| x .>> 31.

Definition Initialize : regs5 := Regs5 0x67452301 0xEFCDAB89 0x98BADCFE 0x10325476 0xC3D2E1F0.

Definition k1 : Z := 0x5A827999.
Definition k2 : Z := 0x6ED9EBA1.
Definition k3 : Z := 0x8F1BBCDC.
Definition k4 : Z := 0xCA62C1D6.

Open Scope stmt_scope.

Definition Transform (s : regs5) (chunk : list Z) : regs5 :=
  let '(Regs5 a b c d e) := s in
  w0 ⇐ ReadBE32 (drop 0 chunk); ⟨b, e⟩ ⇐ Round a b c d e (f1 b c d) k1 w0;
  w1 ⇐ ReadBE32 (drop 4 chunk); ⟨a, d⟩ ⇐ Round e a b c d (f1 a b c) k1 w1;
  w2 ⇐ ReadBE32 (drop 8 chunk); ⟨e, c⟩ ⇐ Round d e a b c (f1 e a b) k1 w2;
  w3 ⇐ ReadBE32 (drop 12 chunk); ⟨d, b⟩ ⇐ Round c d e a b (f1 d e a) k1 w3;
  w4 ⇐ ReadBE32 (drop 16 chunk); ⟨c, a⟩ ⇐ Round b c d e a (f1 c d e) k1 w4;
  w5 ⇐ ReadBE32 (drop 20 chunk); ⟨b, e⟩ ⇐ Round a b c d e (f1 b c d) k1 w5;
  w6 ⇐ ReadBE32 (drop 24 chunk); ⟨a, d⟩ ⇐ Round e a b c d (f1 a b c) k1 w6;
  w7 ⇐ ReadBE32 (drop 28 chunk); ⟨e, c⟩ ⇐ Round d e a b c (f1 e a b) k1 w7;
  w8 ⇐ ReadBE32 (drop 32 chunk); ⟨d, b⟩ ⇐ Round c d e a b (f1 d e a) k1 w8;
  w9 ⇐ ReadBE32 (drop 36 chunk); ⟨c, a⟩ ⇐ Round b c d e a (f1 c d e) k1 w9;
  w10 ⇐ ReadBE32 (drop 40 chunk); ⟨b, e⟩ ⇐ Round a b c d e (f1 b c d) k1 w10;
  w11 ⇐ ReadBE32 (drop 44 chunk); ⟨a, d⟩ ⇐ Round e a b c d (f1 a b c) k1 w11;
  w12 ⇐ ReadBE32 (drop 48 chunk); ⟨e, c⟩ ⇐ Round d e a b c (f1 e a b) k1 w12;
  w13 ⇐ ReadBE32 (drop 52 chunk); ⟨d, b⟩ ⇐ Round c d e a b (f1 d e a) k1 w13;
  w14 ⇐ ReadBE32 (drop 56 chunk); ⟨c, a⟩ ⇐ Round b c d e a (f1 c d e) k1 w14;
  w15 ⇐ ReadBE32 (drop 60 chunk); ⟨b, e⟩ ⇐ Round a b c d e (f1 b c d) k1 w15;
  w0 ⇐ left (w0 .^ w13 .^ w8 .^ w2); ⟨a, d⟩ ⇐ Round e a b c d (f1 a b c) k1 w0;
  w1 ⇐ left (w1 .^ w14 .^ w9 .^ w3); ⟨e, c⟩ ⇐ Round d e a b c (f1 e a b) k1 w1;
  w2 ⇐ left (w2 .^ w15 .^ w10 .^ w4); ⟨d, b⟩ ⇐ Round c d e a b (f1 d e a) k1 w2;
  w3 ⇐ left (w3 .^ w0 .^ w11 .^ w5); ⟨c, a⟩ ⇐ Round b c d e a (f1 c d e) k1 w3;
  w4 ⇐ left (w4 .^ w1 .^ w12 .^ w6); ⟨b, e⟩ ⇐ Round a b c d e (f2 b c d) k2 w4;
  w5 ⇐ left (w5 .^ w2 .^ w13 .^ w7); ⟨a, d⟩ ⇐ Round e a b c d (f2 a b c) k2 w5;
  w6 ⇐ left (w6 .^ w3 .^ w14 .^ w8); ⟨e, c⟩ ⇐ Round d e a b c (f2 e a b) k2 w6;
  w7 ⇐ left (w7 .^ w4 .^ w15 .^ w9); ⟨d, b⟩ ⇐ Round c d e a b (f2 d e a) k2 w7;
  w8 ⇐ left (w8 .^ w5 .^ w0 .^ w10); ⟨c, a⟩ ⇐ Round b c d e a (f2 c d e) k2 w8;
  w9 ⇐ left (w9 .^ w6 .^ w1 .^ w11); ⟨b, e⟩ ⇐ Round a b c d e (f2 b c d) k2 w9;
  w10 ⇐ left (w10 .^ w7 .^ w2 .^ w12); ⟨a, d⟩ ⇐ Round e a b c d (f2 a b c) k2 w10;
  w11 ⇐ left (w11 .^ w8 .^ w3 .^ w13); ⟨e, c⟩ ⇐ Round d e a b c (f2 e a b) k2 w11;
  w12 ⇐ left (w12 .^ w9 .^ w4 .^ w14); ⟨d, b⟩ ⇐ Round c d e a b (f2 d e a) k2 w12;
  w13 ⇐ left (w13 .^ w10 .^ w5 .^ w15); ⟨c, a⟩ ⇐ Round b c d e a (f2 c d e) k2 w13;
  w14 ⇐ left (w14 .^ w11 .^ w6 .^ w0); ⟨b, e⟩ ⇐ Round a b c d e (f2 b c d) k2 w14;
  w15 ⇐ left (w15 .^ w12 .^ w7 .^ w1); ⟨a, d⟩ ⇐ Round e a b c d (f2 a b c) k2 w15;
  w0 ⇐ left (w0 .^ w13 .^ w8 .^ w2); ⟨e, c⟩ ⇐ Round d e a b c (f2 e a b) k2 w0;
  w1 ⇐ left (w1 .^ w14 .^ w9 .^ w3); ⟨d, b⟩ ⇐ Round c d e a b (f2 d e a) k2 w1;
  w2 ⇐ left (w2 .^ w15 .^ w10 .^ w4); ⟨c, a⟩ ⇐ Round b c d e a (f2 c d e) k2 w2;
  w3 ⇐ left (w3 .^ w0 .^ w11 .^ w5); ⟨b, e⟩ ⇐ Round a b c d e (f2 b c d) k2 w3;
  w4 ⇐ left (w4 .^ w1 .^ w12 .^ w6); ⟨a, d⟩ ⇐ Round e a b c d (f2 a b c) k2 w4;
  w5 ⇐ left (w5 .^ w2 .^ w13 .^ w7); ⟨e, c⟩ ⇐ Round d e a b c (f2 e a b) k2 w5;
  w6 ⇐ left (w6 .^ w3 .^ w14 .^ w8); ⟨d, b⟩ ⇐ Round c d e a b (f2 d e a) k2 w6;
  w7 ⇐ left (w7 .^ w4 .^ w15 .^ w9); ⟨c, a⟩ ⇐ Round b c d e a (f2 c d e) k2 w7;
  w8 ⇐ left (w8 .^ w5 .^ w0 .^ w10); ⟨b, e⟩ ⇐ Round a b c d e (f3 b c d) k3 w8;
  w9 ⇐ left (w9 .^ w6 .^ w1 .^ w11); ⟨a, d⟩ ⇐ Round e a b c d (f3 a b c) k3 w9;
  w10 ⇐ left (w10 .^ w7 .^ w2 .^ w12); ⟨e, c⟩ ⇐ Round d e a b c (f3 e a b) k3 w10;
  w11 ⇐ left (w11 .^ w8 .^ w3 .^ w13); ⟨d, b⟩ ⇐ Round c d e a b (f3 d e a) k3 w11;
  w12 ⇐ left (w12 .^ w9 .^ w4 .^ w14); ⟨c, a⟩ ⇐ Round b c d e a (f3 c d e) k3 w12;
  w13 ⇐ left (w13 .^ w10 .^ w5 .^ w15); ⟨b, e⟩ ⇐ Round a b c d e (f3 b c d) k3 w13;
  w14 ⇐ left (w14 .^ w11 .^ w6 .^ w0); ⟨a, d⟩ ⇐ Round e a b c d (f3 a b c) k3 w14;
  w15 ⇐ left (w15 .^ w12 .^ w7 .^ w1); ⟨e, c⟩ ⇐ Round d e a b c (f3 e a b) k3 w15;
  w0 ⇐ left (w0 .^ w13 .^ w8 .^ w2); ⟨d, b⟩ ⇐ Round c d e a b (f3 d e a) k3 w0;
  w1 ⇐ left (w1 .^ w14 .^ w9 .^ w3); ⟨c, a⟩ ⇐ Round b c d e a (f3 c d e) k3 w1;
  w2 ⇐ left (w2 .^ w15 .^ w10 .^ w4); ⟨b, e⟩ ⇐ Round a b c d e (f3 b c d) k3 w2;
  w3 ⇐ left (w3 .^ w0 .^ w11 .^ w5); ⟨a, d⟩ ⇐ Round e a b c d (f3 a b c) k3 w3;
  w4 ⇐ left (w4 .^ w1 .^ w12 .^ w6); ⟨e, c⟩ ⇐ Round d e a b c (f3 e a b) k3 w4;
  w5 ⇐ left (w5 .^ w2 .^ w13 .^ w7); ⟨d, b⟩ ⇐ Round c d e a b (f3 d e a) k3 w5;
  w6 ⇐ left (w6 .^ w3 .^ w14 .^ w8); ⟨c, a⟩ ⇐ Round b c d e a (f3 c d e) k3 w6;
  w7 ⇐ left (w7 .^ w4 .^ w15 .^ w9); ⟨b, e⟩ ⇐ Round a b c d e (f3 b c d) k3 w7;
  w8 ⇐ left (w8 .^ w5 .^ w0 .^ w10); ⟨a, d⟩ ⇐ Round e a b c d (f3 a b c) k3 w8;
  w9 ⇐ left (w9 .^ w6 .^ w1 .^ w11); ⟨e, c⟩ ⇐ Round d e a b c (f3 e a b) k3 w9;
  w10 ⇐ left (w10 .^ w7 .^ w2 .^ w12); ⟨d, b⟩ ⇐ Round c d e a b (f3 d e a) k3 w10;
  w11 ⇐ left (w11 .^ w8 .^ w3 .^ w13); ⟨c, a⟩ ⇐ Round b c d e a (f3 c d e) k3 w11;
  w12 ⇐ left (w12 .^ w9 .^ w4 .^ w14); ⟨b, e⟩ ⇐ Round a b c d e (f2 b c d) k4 w12;
  w13 ⇐ left (w13 .^ w10 .^ w5 .^ w15); ⟨a, d⟩ ⇐ Round e a b c d (f2 a b c) k4 w13;
  w14 ⇐ left (w14 .^ w11 .^ w6 .^ w0); ⟨e, c⟩ ⇐ Round d e a b c (f2 e a b) k4 w14;
  w15 ⇐ left (w15 .^ w12 .^ w7 .^ w1); ⟨d, b⟩ ⇐ Round c d e a b (f2 d e a) k4 w15;
  w0 ⇐ left (w0 .^ w13 .^ w8 .^ w2); ⟨c, a⟩ ⇐ Round b c d e a (f2 c d e) k4 w0;
  w1 ⇐ left (w1 .^ w14 .^ w9 .^ w3); ⟨b, e⟩ ⇐ Round a b c d e (f2 b c d) k4 w1;
  w2 ⇐ left (w2 .^ w15 .^ w10 .^ w4); ⟨a, d⟩ ⇐ Round e a b c d (f2 a b c) k4 w2;
  w3 ⇐ left (w3 .^ w0 .^ w11 .^ w5); ⟨e, c⟩ ⇐ Round d e a b c (f2 e a b) k4 w3;
  w4 ⇐ left (w4 .^ w1 .^ w12 .^ w6); ⟨d, b⟩ ⇐ Round c d e a b (f2 d e a) k4 w4;
  w5 ⇐ left (w5 .^ w2 .^ w13 .^ w7); ⟨c, a⟩ ⇐ Round b c d e a (f2 c d e) k4 w5;
  w6 ⇐ left (w6 .^ w3 .^ w14 .^ w8); ⟨b, e⟩ ⇐ Round a b c d e (f2 b c d) k4 w6;
  w7 ⇐ left (w7 .^ w4 .^ w15 .^ w9); ⟨a, d⟩ ⇐ Round e a b c d (f2 a b c) k4 w7;
  w8 ⇐ left (w8 .^ w5 .^ w0 .^ w10); ⟨e, c⟩ ⇐ Round d e a b c (f2 e a b) k4 w8;
  w9 ⇐ left (w9 .^ w6 .^ w1 .^ w11); ⟨d, b⟩ ⇐ Round c d e a b (f2 d e a) k4 w9;
  w10 ⇐ left (w10 .^ w7 .^ w2 .^ w12); ⟨c, a⟩ ⇐ Round b c d e a (f2 c d e) k4 w10;
  w11 ⇐ left (w11 .^ w8 .^ w3 .^ w13); ⟨b, e⟩ ⇐ Round a b c d e (f2 b c d) k4 w11;
  w12 ⇐ left (w12 .^ w9 .^ w4 .^ w14); ⟨a, d⟩ ⇐ Round e a b c d (f2 a b c) k4 w12;
  ⟨e, c⟩ ⇐ Round d e a b c (f2 e a b) k4 (left (w13 .^ w10 .^ w5 .^ w15));
  ⟨d, b⟩ ⇐ Round c d e a b (f2 d e a) k4 (left (w14 .^ w11 .^ w6 .^ w0));
  ⟨c, a⟩ ⇐ Round b c d e a (f2 c d e) k4 (left (w15 .^ w12 .^ w7 .^ w1));
  add_regs5 s (Regs5 a b c d e).

Close Scope stmt_scope.

Definition SHA1_code : BlockHash := block_hash 64 8 119 WriteBE64 (regs5_bytes WriteBE32) Initialize Transform.

Definition CSHA1_new (junk : list Z) : @hasher SHA1_code := @construct SHA1_code junk.
Definition CSHA1_Write : @hasher SHA1_code -> list Z -> @hasher SHA1_code := @Write SHA1_code.
Definition CSHA1_Finalize : @hasher SHA1_code -> list Z := @Finalize SHA1_code.
Definition CSHA1_Reset : @hasher SHA1_code -> @hasher SHA1_code := @Reset SHA1_code.

(** ** The reference *)

Definition ROTL (n x : Z) : Z := Z.lor (Z.shiftl x n mod 2 ^ 32) (Z.shiftr x (32 - n)).
Definition Parity (x y z : Z) : Z := Z.lxor (Z.lxor x y) z.

Definition f_ref (t : nat) : Z -> Z -> Z -> Z :=
  if (t <? 20)%nat then Ch_ref else if (t <? 40)%nat then Parity else if (t <? 60)%nat then Maj_ref else Parity.

(** [2^30] times a square root *)
Definition K_ref (t : nat) : Z :=
  Z.sqrt ((if (t <? 20)%nat then 2 else if (t <? 40)%nat then 3 else if (t <? 60)%nat then 5 else 10) * 2 ^ 60).

Definition next_word1 (W : list Z) : Z :=
  let t := length W in
  ROTL 1 (Z.lxor (Z.lxor (Z.lxor (W !!! (t - 3)%nat) (W !!! (t - 8)%nat)) (W !!! (t - 14)%nat)) (W !!! (t - 16)%nat)).

Definition round1_ref (st : regs5) (tw : nat * Z) : regs5 :=
  let '(Regs5 a b c d e) := st in
  Regs5 ((ROTL 5 a + f_ref tw.1 b c d + e + K_ref tw.1 + tw.2) mod 2 ^ 32) a (ROTL 30 b) c d.

Definition SHA1_compress (H : regs5) (M : list Z) : regs5 :=
  add_regs5 H (foldl round1_ref H (zip (seq 0 80) (schedule next_word1 64 M))).

Definition SHA1_spec : BlockHash := block_hash 64 8 119 WriteBE64 (regs5_bytes WriteBE32) Initialize
  (fun s chunk => SHA1_compress s (be_words chunk)).

Definition SHA1_ref (m : list Z) : list Z := @merkle_damgard SHA1_spec m.

(** ** Proofs *)

Abbreviation run1 := (run next_word1 round1_ref).

Lemma next_word1_suffix W0 win : length win = 16%nat -> next_word1 (W0 ++ win) = next_word1 win.
Proof. intros H. unfold next_word1. by rewrite !lookup_suffix by (done || lia). Qed.

Lemma ROTL5_eq x : ROTL 5 x = x .<< 5 .| x .>> 27.
Proof. reflexivity. Qed.
Lemma ROTL30_eq x : ROTL 30 x = x .<< 30 .| x .>> 2.
Proof. reflexivity. Qed.
Lemma ROTL1_eq x : ROTL 1 x = left x.
Proof. reflexivity. Qed.

(** the four constants *)
Lemma K_ref_table : K_ref 0 = k1 /\ K_ref 20 = k2 /\ K_ref 40 = k3 /\ K_ref 60 = k4.
Proof. split_and!; vm_compute; reflexivity. Qed.

Lemma round1_code t a b c d e f k x : f = f_ref t b c d -> k = K_ref t ->
  round1_ref (Regs5 a b c d e) (t, x) = assign2 (Round a b c d e f k x) (fun b e => Regs5 e a b c d).
Proof.
  intros -> ->. unfold round1_ref, assign2, Round. cbn [fst snd]. rewrite ROTL5_eq, ROTL30_eq.
  f_equal. unfold u32. f_equal. lia.
Qed.

Lemma sha1_load_line {A} (F : regs5 -> A) t a b c d e f k x l C : f = f_ref t b c d -> k = K_ref t ->
  (forall b' e', C x b' e' = F (foldl round1_ref (Regs5 e' a b' c d) l)) ->
  assign x (fun x => assign2 (Round a b c d e f k x) (C x)) = F (foldl round1_ref (Regs5 a b c d e) ((t, x) :: l)).
Proof. intros Hf Hk H. cbn [foldl]. rewrite (round1_code t a b c d e f k x Hf Hk). apply H. Qed.

Lemma sha1_run_line {A} (F : regs5 -> A) t ts a b c d e f k v0 v1 v2 v3 v4 v5 v6 v7 v8 v9 v10 v11 v12 v13 v14 v15 C :
  f = f_ref t b c d -> k = K_ref t ->
  (forall x b' e', C x b' e' =
    F (run1 ts [v1; v2; v3; v4; v5; v6; v7; v8; v9; v10; v11; v12; v13; v14; v15; x] (Regs5 e' a b' c d))) ->
  assign (left (v0 .^ v13 .^ v8 .^ v2)) (fun x => assign2 (Round a b c d e f k x) (C x)) =
  F (run1 (t :: ts) [v0; v1; v2; v3; v4; v5; v6; v7; v8; v9; v10; v11; v12; v13; v14; v15] (Regs5 a b c d e)).
Proof.
  intros Hf Hk H. cbn [run tail app]. unfold assign. rewrite (round1_code t a b c d e f k _ Hf Hk).
  replace (next_word1 _) with (left (v0 .^ v13 .^ v8 .^ v2)); [apply H|].
  rewrite <- ROTL1_eq. unfold next_word1. f_equal. cbn. rewrite (Z.lxor_comm v0), !Z.lxor_assoc.
  f_equal. rewrite (Z.lxor_comm v0), Z.lxor_assoc. done.
Qed.

(** the last words are not kept *)
Lemma sha1_last_line {A} (F : regs5 -> A) t ts a b c d e f k v0 v1 v2 v3 v4 v5 v6 v7 v8 v9 v10 v11 v12 v13 v14 v15 C :
  f = f_ref t b c d -> k = K_ref t ->
  (forall x b' e', C b' e' =
    F (run1 ts [v1; v2; v3; v4; v5; v6; v7; v8; v9; v10; v11; v12; v13; v14; v15; x] (Regs5 e' a b' c d))) ->
  assign2 (Round a b c d e f k (left (v0 .^ v13 .^ v8 .^ v2))) C =
  F (run1 (t :: ts) [v0; v1; v2; v3; v4; v5; v6; v7; v8; v9; v10; v11; v12; v13; v14; v15] (Regs5 a b c d e)).
Proof. intros Hf Hk H. exact (sha1_run_line F t ts a b c d e f k _ _ _ _ _ _ _ _ _ _ _ _ _ _ _ _ (fun _ => C) Hf Hk H). Qed.

(** the function and the constant of a line are those of its round *)
Lemma f1_eq b c d : f1 b c d = Ch_ref b c d.
Proof. symmetry. apply Ch_ref_xor. Qed.
Lemma f3_eq b c d : f3 b c d = Maj_ref b c d.
Proof. symmetry. apply Maj_ref_or. Qed.

Ltac round_fn := solve [apply f1_eq | apply f3_eq | reflexivity].
Ltac round_const := destruct K_ref_table as (E1 & E2 & E3 & E4); solve [symmetry; exact E1 | symmetry; exact E2 | symmetry; exact E3 | symmetry; exact E4].

Lemma sha1_Transform_correct s chunk : Transform s chunk = SHA1_compress s (be_words chunk).
Proof.
  unfold SHA1_compress. rewrite (rounds_split next_word1 round1_ref next_word1_suffix (seq 0 80)) by (done || (cbn; lia)).
  unfold be_words. cbn [map seq Nat.mul Nat.add]. cbn [take drop zip zip_with].
  unfold Transform. cbn [take drop]. set (F := add_regs5 s). destruct s as [a b c d e].
  repeat match goal with |- context [ReadBE32 (drop ?n chunk)] => generalize (ReadBE32 (drop n chunk)); intros ? end.
  match goal with |- _ = F (run _ _ ?ks ?ws (foldl _ ?st ?l)) =>
    set (G := fun r => F (run1 ks ws r));
    change (F (run1 ks ws (foldl round1_ref st l))) with (G (foldl round1_ref st l))
  end.
  do 16 (apply (sha1_load_line G); [round_fn | round_const | intros ? ?]). subst G. cbn [foldl]. cbv beta.
  do 61 (apply (sha1_run_line F); [round_fn | round_const | intros ? ? ?]).
  do 3 (apply (sha1_last_line F); [round_fn | round_const | intros ? ? ?]).
  reflexivity.
Qed.

#[global] Instance SHA1_code_laws : BlockHashLaws SHA1_code.
Proof. apply block_hash_laws; [exists 6%nat; split; [lia | done] | lia | done | reflexivity]. Qed.

Lemma CSHA1_Finalize_correct h m : @holds SHA1_code h m -> CSHA1_Finalize h = SHA1_ref m.
Proof.
  intros H. unfold CSHA1_Finalize. rewrite (@finalize_correct SHA1_code _ h m H).
  apply merkle_damgard_ext; [done | apply sha1_Transform_correct].
Qed.

Lemma SHA1_streaming junk parts : length junk = 64%nat ->
  CSHA1_Finalize (fold_left CSHA1_Write parts (CSHA1_new junk)) = SHA1_ref (concat parts).
Proof.
  intros H. apply CSHA1_Finalize_correct, (write_all_holds parts _ []). by apply construct_holds.
Qed.

(** the vector "abc" of the standard *)
Example SHA1_abc : SHA1_ref [0x61; 0x62; 0x63] =
  concat (map WriteBE32 [0xa9993e36; 0x4706816a; 0xba3e2571; 0x7850c26c; 0x9cd0d89d]).
Proof. vm_cast_no_check (eq_refl (SHA1_ref [0x61; 0x62; 0x63])). Qed.
