(* ===== verification/Ripemd160.v ===== *)
(** * RIPEMD-160

    [crypto/ripemd160.cpp]: the unrolled [Transform], whose two lines of eighty
    steps are interleaved, and the buffered object [CRIPEMD160].  [RIPEMD160_ref]
    follows the definition of Dobbertin, Bosselaers and Preneel: the order of the
    message words is given by the permutations rho and pi, the amounts of the
    rotations by a table over rounds and words, and the constants are the integer
    parts of [2^30] times square and cube roots of 2, 3, 5 and 7. *)

From S2P Require Import Prelude ScriptNum Serialize Hashing Sha2Spec.
Open Scope Z_scope.

Local Infix ".^" := Z.lxor (at level 46, left associativity).
Local Infix ".&" := Z.land (at level 44, left associativity).
Local Infix ".|" := Z.lor (at level 47, left associativity).
Local Infix ".>>" := Z.shiftr (at level 42).
Local Notation "x .<< n" := (u32 (Z.shiftl x n)) (at level 42).
Local Notation "'.~' x" := (u32 (Z.lnot x)) (at level 30).

Definition f1 (x y z : Z) : Z := x .^ y .^ z.
Definition f2 (x y z : Z) : Z := (x .& y) .| (.~ x .& z).
Definition f3 (x y z : Z) : Z := (x .| .~ y) .^ z.
Definition f4 (x y z : Z) : Z := (x .& z) .| (y .& .~ z).
Definition f5 (x y z : Z) : Z := x .^ (y .| .~ z).

Definition Initialize : regs5 := Regs5 0x67452301 0xEFCDAB89 0x98BADCFE 0x10325476 0xC3D2E1F0.

Definition rol (x i : Z) : Z := x .<< i .| x .>> (32 - i).

(** [a] and [c] after the round *)
Definition Round (a b c d e f x k r : Z) : Z * Z :=
  let a := u32 (rol (u32 (a + f + x + k)) r + e) in
  let c := rol c 10 in
  (a, c).

Definition R11 (a b c d e x r : Z) : Z * Z := Round a b c d e (f1 b c d) x 0 r.
Definition R21 (a b c d e x r : Z) : Z * Z := Round a b c d e (f2 b c d) x 0x5A827999 r.
Definition R31 (a b c d e x r : Z) : Z * Z := Round a b c d e (f3 b c d) x 0x6ED9EBA1 r.
Definition R41 (a b c d e x r : Z) : Z * Z := Round a b c d e (f4 b c d) x 0x8F1BBCDC r.
Definition R51 (a b c d e x r : Z) : Z * Z := Round a b c d e (f5 b c d) x 0xA953FD4E r.
Definition R12 (a b c d e x r : Z) : Z * Z := Round a b c d e (f5 b c d) x 0x50A28BE6 r.
Definition R22 (a b c d e x r : Z) : Z * Z := Round a b c d e (f4 b c d) x 0x5C4DD124 r.
Definition R32 (a b c d e x r : Z) : Z * Z := Round a b c d e (f3 b c d) x 0x6D703EF3 r.
Definition R42 (a b c d e x r : Z) : Z * Z := Round a b c d e (f2 b c d) x 0x7A6D76E9 r.
Definition R52 (a b c d e x r : Z) : Z * Z := Round a b c d e (f1 b c d) x 0 r.

Open Scope stmt_scope.

Definition Transform (s : regs5) (chunk : list Z) : regs5 :=
  let '(Regs5 a1 b1 c1 d1 e1) := s in
  let '(Regs5 a2 b2 c2 d2 e2) := s in
  w0 ⇐ ReadLE32 (drop 0 chunk);
  w1 ⇐ ReadLE32 (drop 4 chunk);
  w2 ⇐ ReadLE32 (drop 8 chunk);
  w3 ⇐ ReadLE32 (drop 12 chunk);
  w4 ⇐ ReadLE32 (drop 16 chunk);
  w5 ⇐ ReadLE32 (drop 20 chunk);
  w6 ⇐ ReadLE32 (drop 24 chunk);
  w7 ⇐ ReadLE32 (drop 28 chunk);
  w8 ⇐ ReadLE32 (drop 32 chunk);
  w9 ⇐ ReadLE32 (drop 36 chunk);
  w10 ⇐ ReadLE32 (drop 40 chunk);
  w11 ⇐ ReadLE32 (drop 44 chunk);
  w12 ⇐ ReadLE32 (drop 48 chunk);
  w13 ⇐ ReadLE32 (drop 52 chunk);
  w14 ⇐ ReadLE32 (drop 56 chunk);
  w15 ⇐ ReadLE32 (drop 60 chunk);
  ⟨a1, c1⟩ ⇐ R11 a1 b1 c1 d1 e1 w0 11; ⟨a2, c2⟩ ⇐ R12 a2 b2 c2 d2 e2 w5 8;
  ⟨e1, b1⟩ ⇐ R11 e1 a1 b1 c1 d1 w1 14; ⟨e2, b2⟩ ⇐ R12 e2 a2 b2 c2 d2 w14 9;
  ⟨d1, a1⟩ ⇐ R11 d1 e1 a1 b1 c1 w2 15; ⟨d2, a2⟩ ⇐ R12 d2 e2 a2 b2 c2 w7 9;
  ⟨c1, e1⟩ ⇐ R11 c1 d1 e1 a1 b1 w3 12; ⟨c2, e2⟩ ⇐ R12 c2 d2 e2 a2 b2 w0 11;
  ⟨b1, d1⟩ ⇐ R11 b1 c1 d1 e1 a1 w4 5; ⟨b2, d2⟩ ⇐ R12 b2 c2 d2 e2 a2 w9 13;
  ⟨a1, c1⟩ ⇐ R11 a1 b1 c1 d1 e1 w5 8; ⟨a2, c2⟩ ⇐ R12 a2 b2 c2 d2 e2 w2 15;
  ⟨e1, b1⟩ ⇐ R11 e1 a1 b1 c1 d1 w6 7; ⟨e2, b2⟩ ⇐ R12 e2 a2 b2 c2 d2 w11 15;
  ⟨d1, a1⟩ ⇐ R11 d1 e1 a1 b1 c1 w7 9; ⟨d2, a2⟩ ⇐ R12 d2 e2 a2 b2 c2 w4 5;
  ⟨c1, e1⟩ ⇐ R11 c1 d1 e1 a1 b1 w8 11; ⟨c2, e2⟩ ⇐ R12 c2 d2 e2 a2 b2 w13 7;
  ⟨b1, d1⟩ ⇐ R11 b1 c1 d1 e1 a1 w9 13; ⟨b2, d2⟩ ⇐ R12 b2 c2 d2 e2 a2 w6 7;
  ⟨a1, c1⟩ ⇐ R11 a1 b1 c1 d1 e1 w10 14; ⟨a2, c2⟩ ⇐ R12 a2 b2 c2 d2 e2 w15 8;
  ⟨e1, b1⟩ ⇐ R11 e1 a1 b1 c1 d1 w11 15; ⟨e2, b2⟩ ⇐ R12 e2 a2 b2 c2 d2 w8 11;
  ⟨d1, a1⟩ ⇐ R11 d1 e1 a1 b1 c1 w12 6; ⟨d2, a2⟩ ⇐ R12 d2 e2 a2 b2 c2 w1 14;
  ⟨c1, e1⟩ ⇐ R11 c1 d1 e1 a1 b1 w13 7; ⟨c2, e2⟩ ⇐ R12 c2 d2 e2 a2 b2 w10 14;
  ⟨b1, d1⟩ ⇐ R11 b1 c1 d1 e1 a1 w14 9; ⟨b2, d2⟩ ⇐ R12 b2 c2 d2 e2 a2 w3 12;
  ⟨a1, c1⟩ ⇐ R11 a1 b1 c1 d1 e1 w15 8; ⟨a2, c2⟩ ⇐ R12 a2 b2 c2 d2 e2 w12 6;
  ⟨e1, b1⟩ ⇐ R21 e1 a1 b1 c1 d1 w7 7; ⟨e2, b2⟩ ⇐ R22 e2 a2 b2 c2 d2 w6 9;
  ⟨d1, a1⟩ ⇐ R21 d1 e1 a1 b1 c1 w4 6; ⟨d2, a2⟩ ⇐ R22 d2 e2 a2 b2 c2 w11 13;
  ⟨c1, e1⟩ ⇐ R21 c1 d1 e1 a1 b1 w13 8; ⟨c2, e2⟩ ⇐ R22 c2 d2 e2 a2 b2 w3 15;
  ⟨b1, d1⟩ ⇐ R21 b1 c1 d1 e1 a1 w1 13; ⟨b2, d2⟩ ⇐ R22 b2 c2 d2 e2 a2 w7 7;
  ⟨a1, c1⟩ ⇐ R21 a1 b1 c1 d1 e1 w10 11; ⟨a2, c2⟩ ⇐ R22 a2 b2 c2 d2 e2 w0 12;
  ⟨e1, b1⟩ ⇐ R21 e1 a1 b1 c1 d1 w6 9; ⟨e2, b2⟩ ⇐ R22 e2 a2 b2 c2 d2 w13 8;
  ⟨d1, a1⟩ ⇐ R21 d1 e1 a1 b1 c1 w15 7; ⟨d2, a2⟩ ⇐ R22 d2 e2 a2 b2 c2 w5 9;
  ⟨c1, e1⟩ ⇐ R21 c1 d1 e1 a1 b1 w3 15; ⟨c2, e2⟩ ⇐ R22 c2 d2 e2 a2 b2 w10 11;
  ⟨b1, d1⟩ ⇐ R21 b1 c1 d1 e1 a1 w12 7; ⟨b2, d2⟩ ⇐ R22 b2 c2 d2 e2 a2 w14 7;
  ⟨a1, c1⟩ ⇐ R21 a1 b1 c1 d1 e1 w0 12; ⟨a2, c2⟩ ⇐ R22 a2 b2 c2 d2 e2 w15 7;
  ⟨e1, b1⟩ ⇐ R21 e1 a1 b1 c1 d1 w9 15; ⟨e2, b2⟩ ⇐ R22 e2 a2 b2 c2 d2 w8 12;
  ⟨d1, a1⟩ ⇐ R21 d1 e1 a1 b1 c1 w5 9; ⟨d2, a2⟩ ⇐ R22 d2 e2 a2 b2 c2 w12 7;
  ⟨c1, e1⟩ ⇐ R21 c1 d1 e1 a1 b1 w2 11; ⟨c2, e2⟩ ⇐ R22 c2 d2 e2 a2 b2 w4 6;
  ⟨b1, d1⟩ ⇐ R21 b1 c1 d1 e1 a1 w14 7; ⟨b2, d2⟩ ⇐ R22 b2 c2 d2 e2 a2 w9 15;
  ⟨a1, c1⟩ ⇐ R21 a1 b1 c1 d1 e1 w11 13; ⟨a2, c2⟩ ⇐ R22 a2 b2 c2 d2 e2 w1 13;
  ⟨e1, b1⟩ ⇐ R21 e1 a1 b1 c1 d1 w8 12; ⟨e2, b2⟩ ⇐ R22 e2 a2 b2 c2 d2 w2 11;
  ⟨d1, a1⟩ ⇐ R31 d1 e1 a1 b1 c1 w3 11; ⟨d2, a2⟩ ⇐ R32 d2 e2 a2 b2 c2 w15 9;
  ⟨c1, e1⟩ ⇐ R31 c1 d1 e1 a1 b1 w10 13; ⟨c2, e2⟩ ⇐ R32 c2 d2 e2 a2 b2 w5 7;
  ⟨b1, d1⟩ ⇐ R31 b1 c1 d1 e1 a1 w14 6; ⟨b2, d2⟩ ⇐ R32 b2 c2 d2 e2 a2 w1 15;
  ⟨a1, c1⟩ ⇐ R31 a1 b1 c1 d1 e1 w4 7; ⟨a2, c2⟩ ⇐ R32 a2 b2 c2 d2 e2 w3 11;
  ⟨e1, b1⟩ ⇐ R31 e1 a1 b1 c1 d1 w9 14; ⟨e2, b2⟩ ⇐ R32 e2 a2 b2 c2 d2 w7 8;
  ⟨d1, a1⟩ ⇐ R31 d1 e1 a1 b1 c1 w15 9; ⟨d2, a2⟩ ⇐ R32 d2 e2 a2 b2 c2 w14 6;
  ⟨c1, e1⟩ ⇐ R31 c1 d1 e1 a1 b1 w8 13; ⟨c2, e2⟩ ⇐ R32 c2 d2 e2 a2 b2 w6 6;
  ⟨b1, d1⟩ ⇐ R31 b1 c1 d1 e1 a1 w1 15; ⟨b2, d2⟩ ⇐ R32 b2 c2 d2 e2 a2 w9 14;
  ⟨a1, c1⟩ ⇐ R31 a1 b1 c1 d1 e1 w2 14; ⟨a2, c2⟩ ⇐ R32 a2 b2 c2 d2 e2 w11 12;
  ⟨e1, b1⟩ ⇐ R31 e1 a1 b1 c1 d1 w7 8; ⟨e2, b2⟩ ⇐ R32 e2 a2 b2 c2 d2 w8 13;
  ⟨d1, a1⟩ ⇐ R31 d1 e1 a1 b1 c1 w0 13; ⟨d2, a2⟩ ⇐ R32 d2 e2 a2 b2 c2 w12 5;
  ⟨c1, e1⟩ ⇐ R31 c1 d1 e1 a1 b1 w6 6; ⟨c2, e2⟩ ⇐ R32 c2 d2 e2 a2 b2 w2 14;
  ⟨b1, d1⟩ ⇐ R31 b1 c1 d1 e1 a1 w13 5; ⟨b2, d2⟩ ⇐ R32 b2 c2 d2 e2 a2 w10 13;
  ⟨a1, c1⟩ ⇐ R31 a1 b1 c1 d1 e1 w11 12; ⟨a2, c2⟩ ⇐ R32 a2 b2 c2 d2 e2 w0 13;
  ⟨e1, b1⟩ ⇐ R31 e1 a1 b1 c1 d1 w5 7; ⟨e2, b2⟩ ⇐ R32 e2 a2 b2 c2 d2 w4 7;
  ⟨d1, a1⟩ ⇐ R31 d1 e1 a1 b1 c1 w12 5; ⟨d2, a2⟩ ⇐ R32 d2 e2 a2 b2 c2 w13 5;
  ⟨c1, e1⟩ ⇐ R41 c1 d1 e1 a1 b1 w1 11; ⟨c2, e2⟩ ⇐ R42 c2 d2 e2 a2 b2 w8 15;
  ⟨b1, d1⟩ ⇐ R41 b1 c1 d1 e1 a1 w9 12; ⟨b2, d2⟩ ⇐ R42 b2 c2 d2 e2 a2 w6 5;
  ⟨a1, c1⟩ ⇐ R41 a1 b1 c1 d1 e1 w11 14; ⟨a2, c2⟩ ⇐ R42 a2 b2 c2 d2 e2 w4 8;
  ⟨e1, b1⟩ ⇐ R41 e1 a1 b1 c1 d1 w10 15; ⟨e2, b2⟩ ⇐ R42 e2 a2 b2 c2 d2 w1 11;
  ⟨d1, a1⟩ ⇐ R41 d1 e1 a1 b1 c1 w0 14; ⟨d2, a2⟩ ⇐ R42 d2 e2 a2 b2 c2 w3 14;
  ⟨c1, e1⟩ ⇐ R41 c1 d1 e1 a1 b1 w8 15; ⟨c2, e2⟩ ⇐ R42 c2 d2 e2 a2 b2 w11 14;
  ⟨b1, d1⟩ ⇐ R41 b1 c1 d1 e1 a1 w12 9; ⟨b2, d2⟩ ⇐ R42 b2 c2 d2 e2 a2 w15 6;
  ⟨a1, c1⟩ ⇐ R41 a1 b1 c1 d1 e1 w4 8; ⟨a2, c2⟩ ⇐ R42 a2 b2 c2 d2 e2 w0 14;
  ⟨e1, b1⟩ ⇐ R41 e1 a1 b1 c1 d1 w13 9; ⟨e2, b2⟩ ⇐ R42 e2 a2 b2 c2 d2 w5 6;
  ⟨d1, a1⟩ ⇐ R41 d1 e1 a1 b1 c1 w3 14; ⟨d2, a2⟩ ⇐ R42 d2 e2 a2 b2 c2 w12 9;
  ⟨c1, e1⟩ ⇐ R41 c1 d1 e1 a1 b1 w7 5; ⟨c2, e2⟩ ⇐ R42 c2 d2 e2 a2 b2 w2 12;
  ⟨b1, d1⟩ ⇐ R41 b1 c1 d1 e1 a1 w15 6; ⟨b2, d2⟩ ⇐ R42 b2 c2 d2 e2 a2 w13 9;
  ⟨a1, c1⟩ ⇐ R41 a1 b1 c1 d1 e1 w14 8; ⟨a2, c2⟩ ⇐ R42 a2 b2 c2 d2 e2 w9 12;
  ⟨e1, b1⟩ ⇐ R41 e1 a1 b1 c1 d1 w5 6; ⟨e2, b2⟩ ⇐ R42 e2 a2 b2 c2 d2 w7 5;
  ⟨d1, a1⟩ ⇐ R41 d1 e1 a1 b1 c1 w6 5; ⟨d2, a2⟩ ⇐ R42 d2 e2 a2 b2 c2 w10 15;
  ⟨c1, e1⟩ ⇐ R41 c1 d1 e1 a1 b1 w2 12; ⟨c2, e2⟩ ⇐ R42 c2 d2 e2 a2 b2 w14 8;
  ⟨b1, d1⟩ ⇐ R51 b1 c1 d1 e1 a1 w4 9; ⟨b2, d2⟩ ⇐ R52 b2 c2 d2 e2 a2 w12 8;
  ⟨a1, c1⟩ ⇐ R51 a1 b1 c1 d1 e1 w0 15; ⟨a2, c2⟩ ⇐ R52 a2 b2 c2 d2 e2 w15 5;
  ⟨e1, b1⟩ ⇐ R51 e1 a1 b1 c1 d1 w5 5; ⟨e2, b2⟩ ⇐ R52 e2 a2 b2 c2 d2 w10 12;
  ⟨d1, a1⟩ ⇐ R51 d1 e1 a1 b1 c1 w9 11; ⟨d2, a2⟩ ⇐ R52 d2 e2 a2 b2 c2 w4 9;
  ⟨c1, e1⟩ ⇐ R51 c1 d1 e1 a1 b1 w7 6; ⟨c2, e2⟩ ⇐ R52 c2 d2 e2 a2 b2 w1 12;
  ⟨b1, d1⟩ ⇐ R51 b1 c1 d1 e1 a1 w12 8; ⟨b2, d2⟩ ⇐ R52 b2 c2 d2 e2 a2 w5 5;
  ⟨a1, c1⟩ ⇐ R51 a1 b1 c1 d1 e1 w2 13; ⟨a2, c2⟩ ⇐ R52 a2 b2 c2 d2 e2 w8 14;
  ⟨e1, b1⟩ ⇐ R51 e1 a1 b1 c1 d1 w10 12; ⟨e2, b2⟩ ⇐ R52 e2 a2 b2 c2 d2 w7 6;
  ⟨d1, a1⟩ ⇐ R51 d1 e1 a1 b1 c1 w14 5; ⟨d2, a2⟩ ⇐ R52 d2 e2 a2 b2 c2 w6 8;
  ⟨c1, e1⟩ ⇐ R51 c1 d1 e1 a1 b1 w1 12; ⟨c2, e2⟩ ⇐ R52 c2 d2 e2 a2 b2 w2 13;
  ⟨b1, d1⟩ ⇐ R51 b1 c1 d1 e1 a1 w3 13; ⟨b2, d2⟩ ⇐ R52 b2 c2 d2 e2 a2 w13 6;
  ⟨a1, c1⟩ ⇐ R51 a1 b1 c1 d1 e1 w8 14; ⟨a2, c2⟩ ⇐ R52 a2 b2 c2 d2 e2 w14 5;
  ⟨e1, b1⟩ ⇐ R51 e1 a1 b1 c1 d1 w11 11; ⟨e2, b2⟩ ⇐ R52 e2 a2 b2 c2 d2 w0 15;
  ⟨d1, a1⟩ ⇐ R51 d1 e1 a1 b1 c1 w6 8; ⟨d2, a2⟩ ⇐ R52 d2 e2 a2 b2 c2 w3 13;
  ⟨c1, e1⟩ ⇐ R51 c1 d1 e1 a1 b1 w15 5; ⟨c2, e2⟩ ⇐ R52 c2 d2 e2 a2 b2 w9 11;
  ⟨b1, d1⟩ ⇐ R51 b1 c1 d1 e1 a1 w13 6; ⟨b2, d2⟩ ⇐ R52 b2 c2 d2 e2 a2 w11 11;
  let '(Regs5 s0 s1 s2 s3 s4) := s in
  Regs5 (u32 (s1 + c1 + d2)) (u32 (s2 + d1 + e2)) (u32 (s3 + e1 + a2)) (u32 (s4 + a1 + b2)) (u32 (s0 + b1 + c2)).

Close Scope stmt_scope.

Definition RIPEMD160_code : BlockHash :=
  block_hash 64 8 119 WriteLE64 (regs5_bytes WriteLE32) Initialize Transform.

Definition CRIPEMD160_new (junk : list Z) : @hasher RIPEMD160_code := @construct RIPEMD160_code junk.
Definition CRIPEMD160_Write : @hasher RIPEMD160_code -> list Z -> @hasher RIPEMD160_code := @Write RIPEMD160_code.
Definition CRIPEMD160_Finalize : @hasher RIPEMD160_code -> list Z := @Finalize RIPEMD160_code.
Definition CRIPEMD160_Reset : @hasher RIPEMD160_code -> @hasher RIPEMD160_code := @Reset RIPEMD160_code.

(** ** The reference *)

Definition NOT (x : Z) : Z := (- x - 1) mod 2 ^ 32.
Definition ROL (s x : Z) : Z := Z.lor (Z.shiftl x s mod 2 ^ 32) (Z.shiftr x (32 - s)).

(** the functions of the five rounds *)
Definition f_ref (round : nat) (x y z : Z) : Z :=
  match round with
  | 0%nat => Z.lxor (Z.lxor x y) z
  | 1%nat => Z.lor (Z.land x y) (Z.land (NOT x) z)
  | 2%nat => Z.lxor (Z.lor x (NOT y)) z
  | 3%nat => Z.lor (Z.land x z) (Z.land y (NOT z))
  | _ => Z.lxor x (Z.lor y (NOT z))
  end.

(** the integer part of [2^30] times the square or cube root of [p] *)
Definition sqrt30 (p : Z) : Z := Z.sqrt (p * 2 ^ 60).
Definition cbrt30 (p : Z) : Z := root_bits 3 (p * 2 ^ 90) 32 0.

Definition K_left (round : nat) : Z := nth round [0; sqrt30 2; sqrt30 3; sqrt30 5; sqrt30 7] 0.
Definition K_right (round : nat) : Z := nth round [cbrt30 2; cbrt30 3; cbrt30 5; cbrt30 7; 0] 0.

(** the permutations of the message words *)
Definition rho (i : nat) : nat := nth i [7; 4; 13; 1; 10; 6; 15; 3; 12; 0; 9; 5; 2; 14; 11; 8]%nat 0%nat.
Definition pi (i : nat) : nat := ((9 * i + 5) mod 16)%nat.

Definition word_left (round i : nat) : nat := Nat.iter round rho i.
Definition word_right (round i : nat) : nat := Nat.iter round rho (pi i).

(** the rotation of a round for a word *)
Definition shifts : list (list Z) :=
  [[11; 14; 15; 12; 5; 8; 7; 9; 11; 13; 14; 15; 6; 7; 9; 8];
   [12; 13; 11; 15; 6; 9; 9; 7; 12; 15; 11; 13; 7; 8; 7; 7];
   [13; 15; 14; 11; 7; 7; 6; 8; 13; 14; 13; 12; 5; 5; 6; 9];
   [14; 11; 12; 14; 8; 6; 5; 5; 15; 12; 15; 14; 9; 9; 8; 6];
   [15; 12; 13; 13; 9; 5; 8; 6; 14; 11; 12; 11; 8; 6; 5; 5]].
Definition shift (round word : nat) : Z := nth word (nth round shifts []) 0.

(** one step with function [f], constant [k], word [x] and rotation [s] *)
Definition step_ref (st : regs5) (f : Z -> Z -> Z -> Z) (k x s : Z) : regs5 :=
  let '(Regs5 A B C D E) := st in
  Regs5 E ((ROL s ((A + f B C D + x + k) mod 2 ^ 32) + E) mod 2 ^ 32) B (ROL 10 C) D.

Definition left_ref (M : list Z) (st : regs5) (j : nat) : regs5 :=
  let round := (j / 16)%nat in
  let word := word_left round (j mod 16) in
  step_ref st (f_ref round) (K_left round) (M !!! word) (shift round word).

Definition right_ref (M : list Z) (st : regs5) (j : nat) : regs5 :=
  let round := (j / 16)%nat in
  let word := word_right round (j mod 16) in
  step_ref st (f_ref (4 - round)) (K_right round) (M !!! word) (shift round word).

Definition combine_ref (h l r : regs5) : regs5 :=
  let '(Regs5 h0 h1 h2 h3 h4) := h in
  let '(Regs5 A B C D E) := l in
  let '(Regs5 A' B' C' D' E') := r in
  Regs5 ((h1 + C + D') mod 2 ^ 32) ((h2 + D + E') mod 2 ^ 32) ((h3 + E + A') mod 2 ^ 32)
        ((h4 + A + B') mod 2 ^ 32) ((h0 + B + C') mod 2 ^ 32).

Definition RIPEMD160_compress (h : regs5) (M : list Z) : regs5 :=
  combine_ref h (foldl (left_ref M) h (seq 0 80)) (foldl (right_ref M) h (seq 0 80)).

Definition RIPEMD160_spec : BlockHash :=
  block_hash 64 8 119 WriteLE64 (regs5_bytes WriteLE32) Initialize (fun s chunk => RIPEMD160_compress s (le_words chunk)).

Definition RIPEMD160_ref (m : list Z) : list Z := @merkle_damgard RIPEMD160_spec m.

(** ** Proofs *)

(** a line of the code against a step of the left line of the reference *)
Lemma left_line {A} (F : regs5 -> regs5 -> A) (step : regs5 -> nat -> regs5) j l r a b c d e g k x s fn C :
  (forall st, step st j = step_ref st g k x s) -> fn = Round a b c d e (g b c d) x k s ->
  (forall a' c', C a' c' = F (foldl step (Regs5 e a' b c' d) l) r) ->
  assign2 fn C = F (foldl step (Regs5 a b c d e) (j :: l)) r.
Proof. intros Hs -> H. cbn [foldl]. rewrite Hs. apply H. Qed.

(** and of the right line *)
Lemma right_line {A} (F : regs5 -> regs5 -> A) (step : regs5 -> nat -> regs5) j l r a b c d e g k x s fn C :
  (forall st, step st j = step_ref st g k x s) -> fn = Round a b c d e (g b c d) x k s ->
  (forall a' c', C a' c' = F r (foldl step (Regs5 e a' b c' d) l)) ->
  assign2 fn C = F r (foldl step (Regs5 a b c d e) (j :: l)).
Proof. intros Hs -> H. cbn [foldl]. rewrite Hs. apply H. Qed.

(** the constants of the code *)
Definition K1 (round : nat) : Z := nth round [0; 0x5A827999; 0x6ED9EBA1; 0x8F1BBCDC; 0xA953FD4E] 0.
Definition K2 (round : nat) : Z := nth round [0x50A28BE6; 0x5C4DD124; 0x6D703EF3; 0x7A6D76E9; 0] 0.

Lemma K_left_table round : K_left round = K1 round.
Proof. unfold K_left, K1. f_equal. Qed.
Lemma K_right_table round : K_right round = K2 round.
Proof. unfold K_right, K2. f_equal. Qed.

Lemma left_ref_code M st j : left_ref M st j = let round := (j / 16)%nat in
  let word := word_left round (j mod 16) in
  step_ref st (f_ref round) (K1 round) (M !!! word) (shift round word).
Proof. unfold left_ref. by rewrite K_left_table. Qed.

Lemma right_ref_code M st j : right_ref M st j = let round := (j / 16)%nat in
  let word := word_right round (j mod 16) in
  step_ref st (f_ref (4 - round)) (K2 round) (M !!! word) (shift round word).
Proof. unfold right_ref. by rewrite K_right_table. Qed.

(** a pair of lines of the code *)
Ltac line_pair F :=
  eapply (left_line F); [intros st; rewrite left_ref_code; reflexivity | reflexivity | intros ? ?];
  eapply (right_line F); [intros st; rewrite right_ref_code; reflexivity | reflexivity | intros ? ?].

Lemma rmd_Transform_correct s chunk : Transform s chunk = RIPEMD160_compress s (le_words chunk).
Proof.
  unfold RIPEMD160_compress, le_words. cbn [map seq Nat.mul Nat.add].
  unfold Transform. set (F := combine_ref s). destruct s as [a b c d e].
  repeat match goal with |- context [ReadLE32 (drop ?n chunk)] => generalize (ReadLE32 (drop n chunk)); intros ? end.
  unfold assign.
  do 80 line_pair F. reflexivity.
Qed.

#[global] Instance RIPEMD160_code_laws : BlockHashLaws RIPEMD160_code.
Proof. apply block_hash_laws; [exists 6%nat; split; [lia | done] | lia | done | reflexivity]. Qed.

Lemma CRIPEMD160_Finalize_correct h m : @holds RIPEMD160_code h m -> CRIPEMD160_Finalize h = RIPEMD160_ref m.
Proof.
  intros H. unfold CRIPEMD160_Finalize. rewrite (@finalize_correct RIPEMD160_code _ h m H).
  apply merkle_damgard_ext; [done | apply rmd_Transform_correct].
Qed.

Lemma RIPEMD160_streaming junk parts : length junk = 64%nat ->
  CRIPEMD160_Finalize (fold_left CRIPEMD160_Write parts (CRIPEMD160_new junk)) = RIPEMD160_ref (concat parts).
Proof.
  intros H. apply CRIPEMD160_Finalize_correct, (write_all_holds parts _ []). by apply construct_holds.
Qed.

(** the vector "abc" of its authors *)
Example RIPEMD160_abc : RIPEMD160_ref [0x61; 0x62; 0x63] =
  concat (map WriteBE32 [0x8eb208f7; 0xe05d987a; 0x9b044a8e; 0x98c6b087; 0xf15a0bfc]).
Proof. vm_cast_no_check (eq_refl (RIPEMD160_ref [0x61; 0x62; 0x63])). Qed.
