(* ===== verification/Sha512.v ===== *)
(** * SHA-512

    [crypto/sha512.cpp]: the unrolled [Transform] and the buffered object
    [CSHA512], whose [Write], [Finalize] and [Reset] are those of [Hashing.v] with
    blocks of 128 bytes.  [SHA512_ref] is the reference of [Sha2Spec.v] at 64 bits, with
    the upper half of the length field zero as the code has it;
    [SHA512_streaming] says that the object computes it, however the message is cut
    up. *)

From S2P Require Import Prelude ScriptNum Serialize Hashing Sha2Spec.
Open Scope Z_scope.

Local Infix ".^" := Z.lxor (at level 46, left associativity).
Local Infix ".&" := Z.land (at level 44, left associativity).
Local Infix ".|" := Z.lor (at level 47, left associativity).
Local Infix ".>>" := Z.shiftr (at level 42).
Local Notation "x .<< n" := (u64 (Z.shiftl x n)) (at level 42).

Definition Ch (x y z : Z) : Z := z .^ (x .& (y .^ z)).
Definition Maj (x y z : Z) : Z := (x .& y) .| (z .& (x .| y)).
Definition Sigma0 (x : Z) : Z := (x .>> 28 .| x .<< 36) .^ (x .>> 34 .| x .<< 30) .^ (x .>> 39 .| x .<< 25).
Definition Sigma1 (x : Z) : Z := (x .>> 14 .| x .<< 50) .^ (x .>> 18 .| x .<< 46) .^ (x .>> 41 .| x .<< 23).
Definition sigma0 (x : Z) : Z := (x .>> 1 .| x .<< 63) .^ (x .>> 8 .| x .<< 56) .^ (x .>> 7).
Definition sigma1 (x : Z) : Z := (x .>> 19 .| x .<< 45) .^ (x .>> 61 .| x .<< 3) .^ (x .>> 6).

(** [d] and [h] after the round *)
Definition Round (a b c d e f g h k w : Z) : Z * Z :=
  let t1 := u64 (h + Sigma1 e + Ch e f g + k + w) in
  let t2 := u64 (Sigma0 a + Maj a b c) in
  (u64 (d + t1), u64 (t1 + t2)).

Definition Initialize : regs :=
  Regs 0x6a09e667f3bcc908 0xbb67ae8584caa73b 0x3c6ef372fe94f82b 0xa54ff53a5f1d36f1
       0x510e527fade682d1 0x9b05688c2b3e6c1f 0x1f83d9abfb41bd6b 0x5be0cd19137e2179.

Open Scope stmt_scope.

Definition Transform (s : regs) (chunk : list Z) : regs :=
  let '(Regs a b c d e f g h) := s in
  w0 ⇐ ReadBE64 (drop 0 chunk); ⟨d, h⟩ ⇐ Round a b c d e f g h 0x428a2f98d728ae22 w0;
  w1 ⇐ ReadBE64 (drop 8 chunk); ⟨c, g⟩ ⇐ Round h a b c d e f g 0x7137449123ef65cd w1;
  w2 ⇐ ReadBE64 (drop 16 chunk); ⟨b, f⟩ ⇐ Round g h a b c d e f 0xb5c0fbcfec4d3b2f w2;
  w3 ⇐ ReadBE64 (drop 24 chunk); ⟨a, e⟩ ⇐ Round f g h a b c d e 0xe9b5dba58189dbbc w3;
  w4 ⇐ ReadBE64 (drop 32 chunk); ⟨h, d⟩ ⇐ Round e f g h a b c d 0x3956c25bf348b538 w4;
  w5 ⇐ ReadBE64 (drop 40 chunk); ⟨g, c⟩ ⇐ Round d e f g h a b c 0x59f111f1b605d019 w5;
  w6 ⇐ ReadBE64 (drop 48 chunk); ⟨f, b⟩ ⇐ Round c d e f g h a b 0x923f82a4af194f9b w6;
  w7 ⇐ ReadBE64 (drop 56 chunk); ⟨e, a⟩ ⇐ Round b c d e f g h a 0xab1c5ed5da6d8118 w7;
  w8 ⇐ ReadBE64 (drop 64 chunk); ⟨d, h⟩ ⇐ Round a b c d e f g h 0xd807aa98a3030242 w8;
  w9 ⇐ ReadBE64 (drop 72 chunk); ⟨c, g⟩ ⇐ Round h a b c d e f g 0x12835b0145706fbe w9;
  w10 ⇐ ReadBE64 (drop 80 chunk); ⟨b, f⟩ ⇐ Round g h a b c d e f 0x243185be4ee4b28c w10;
  w11 ⇐ ReadBE64 (drop 88 chunk); ⟨a, e⟩ ⇐ Round f g h a b c d e 0x550c7dc3d5ffb4e2 w11;
  w12 ⇐ ReadBE64 (drop 96 chunk); ⟨h, d⟩ ⇐ Round e f g h a b c d 0x72be5d74f27b896f w12;
  w13 ⇐ ReadBE64 (drop 104 chunk); ⟨g, c⟩ ⇐ Round d e f g h a b c 0x80deb1fe3b1696b1 w13;
  w14 ⇐ ReadBE64 (drop 112 chunk); ⟨f, b⟩ ⇐ Round c d e f g h a b 0x9bdc06a725c71235 w14;
  w15 ⇐ ReadBE64 (drop 120 chunk); ⟨e, a⟩ ⇐ Round b c d e f g h a 0xc19bf174cf692694 w15;
  w0 ⇐ u64 (w0 + (sigma1 w14 + w9 + sigma0 w1)); ⟨d, h⟩ ⇐ Round a b c d e f g h 0xe49b69c19ef14ad2 w0;
  w1 ⇐ u64 (w1 + (sigma1 w15 + w10 + sigma0 w2)); ⟨c, g⟩ ⇐ Round h a b c d e f g 0xefbe4786384f25e3 w1;
  w2 ⇐ u64 (w2 + (sigma1 w0 + w11 + sigma0 w3)); ⟨b, f⟩ ⇐ Round g h a b c d e f 0x0fc19dc68b8cd5b5 w2;
  w3 ⇐ u64 (w3 + (sigma1 w1 + w12 + sigma0 w4)); ⟨a, e⟩ ⇐ Round f g h a b c d e 0x240ca1cc77ac9c65 w3;
  w4 ⇐ u64 (w4 + (sigma1 w2 + w13 + sigma0 w5)); ⟨h, d⟩ ⇐ Round e f g h a b c d 0x2de92c6f592b0275 w4;
  w5 ⇐ u64 (w5 + (sigma1 w3 + w14 + sigma0 w6)); ⟨g, c⟩ ⇐ Round d e f g h a b c 0x4a7484aa6ea6e483 w5;
  w6 ⇐ u64 (w6 + (sigma1 w4 + w15 + sigma0 w7)); ⟨f, b⟩ ⇐ Round c d e f g h a b 0x5cb0a9dcbd41fbd4 w6;
  w7 ⇐ u64 (w7 + (sigma1 w5 + w0 + sigma0 w8)); ⟨e, a⟩ ⇐ Round b c d e f g h a 0x76f988da831153b5 w7;
  w8 ⇐ u64 (w8 + (sigma1 w6 + w1 + sigma0 w9)); ⟨d, h⟩ ⇐ Round a b c d e f g h 0x983e5152ee66dfab w8;
  w9 ⇐ u64 (w9 + (sigma1 w7 + w2 + sigma0 w10)); ⟨c, g⟩ ⇐ Round h a b c d e f g 0xa831c66d2db43210 w9;
  w10 ⇐ u64 (w10 + (sigma1 w8 + w3 + sigma0 w11)); ⟨b, f⟩ ⇐ Round g h a b c d e f 0xb00327c898fb213f w10;
  w11 ⇐ u64 (w11 + (sigma1 w9 + w4 + sigma0 w12)); ⟨a, e⟩ ⇐ Round f g h a b c d e 0xbf597fc7beef0ee4 w11;
  w12 ⇐ u64 (w12 + (sigma1 w10 + w5 + sigma0 w13)); ⟨h, d⟩ ⇐ Round e f g h a b c d 0xc6e00bf33da88fc2 w12;
  w13 ⇐ u64 (w13 + (sigma1 w11 + w6 + sigma0 w14)); ⟨g, c⟩ ⇐ Round d e f g h a b c 0xd5a79147930aa725 w13;
  w14 ⇐ u64 (w14 + (sigma1 w12 + w7 + sigma0 w15)); ⟨f, b⟩ ⇐ Round c d e f g h a b 0x06ca6351e003826f w14;
  w15 ⇐ u64 (w15 + (sigma1 w13 + w8 + sigma0 w0)); ⟨e, a⟩ ⇐ Round b c d e f g h a 0x142929670a0e6e70 w15;
  w0 ⇐ u64 (w0 + (sigma1 w14 + w9 + sigma0 w1)); ⟨d, h⟩ ⇐ Round a b c d e f g h 0x27b70a8546d22ffc w0;
  w1 ⇐ u64 (w1 + (sigma1 w15 + w10 + sigma0 w2)); ⟨c, g⟩ ⇐ Round h a b c d e f g 0x2e1b21385c26c926 w1;
  w2 ⇐ u64 (w2 + (sigma1 w0 + w11 + sigma0 w3)); ⟨b, f⟩ ⇐ Round g h a b c d e f 0x4d2c6dfc5ac42aed w2;
  w3 ⇐ u64 (w3 + (sigma1 w1 + w12 + sigma0 w4)); ⟨a, e⟩ ⇐ Round f g h a b c d e 0x53380d139d95b3df w3;
  w4 ⇐ u64 (w4 + (sigma1 w2 + w13 + sigma0 w5)); ⟨h, d⟩ ⇐ Round e f g h a b c d 0x650a73548baf63de w4;
  w5 ⇐ u64 (w5 + (sigma1 w3 + w14 + sigma0 w6)); ⟨g, c⟩ ⇐ Round d e f g h a b c 0x766a0abb3c77b2a8 w5;
  w6 ⇐ u64 (w6 + (sigma1 w4 + w15 + sigma0 w7)); ⟨f, b⟩ ⇐ Round c d e f g h a b 0x81c2c92e47edaee6 w6;
  w7 ⇐ u64 (w7 + (sigma1 w5 + w0 + sigma0 w8)); ⟨e, a⟩ ⇐ Round b c d e f g h a 0x92722c851482353b w7;
  w8 ⇐ u64 (w8 + (sigma1 w6 + w1 + sigma0 w9)); ⟨d, h⟩ ⇐ Round a b c d e f g h 0xa2bfe8a14cf10364 w8;
  w9 ⇐ u64 (w9 + (sigma1 w7 + w2 + sigma0 w10)); ⟨c, g⟩ ⇐ Round h a b c d e f g 0xa81a664bbc423001 w9;
  w10 ⇐ u64 (w10 + (sigma1 w8 + w3 + sigma0 w11)); ⟨b, f⟩ ⇐ Round g h a b c d e f 0xc24b8b70d0f89791 w10;
  w11 ⇐ u64 (w11 + (sigma1 w9 + w4 + sigma0 w12)); ⟨a, e⟩ ⇐ Round f g h a b c d e 0xc76c51a30654be30 w11;
  w12 ⇐ u64 (w12 + (sigma1 w10 + w5 + sigma0 w13)); ⟨h, d⟩ ⇐ Round e f g h a b c d 0xd192e819d6ef5218 w12;
  w13 ⇐ u64 (w13 + (sigma1 w11 + w6 + sigma0 w14)); ⟨g, c⟩ ⇐ Round d e f g h a b c 0xd69906245565a910 w13;
  w14 ⇐ u64 (w14 + (sigma1 w12 + w7 + sigma0 w15)); ⟨f, b⟩ ⇐ Round c d e f g h a b 0xf40e35855771202a w14;
  w15 ⇐ u64 (w15 + (sigma1 w13 + w8 + sigma0 w0)); ⟨e, a⟩ ⇐ Round b c d e f g h a 0x106aa07032bbd1b8 w15;
  w0 ⇐ u64 (w0 + (sigma1 w14 + w9 + sigma0 w1)); ⟨d, h⟩ ⇐ Round a b c d e f g h 0x19a4c116b8d2d0c8 w0;
  w1 ⇐ u64 (w1 + (sigma1 w15 + w10 + sigma0 w2)); ⟨c, g⟩ ⇐ Round h a b c d e f g 0x1e376c085141ab53 w1;
  w2 ⇐ u64 (w2 + (sigma1 w0 + w11 + sigma0 w3)); ⟨b, f⟩ ⇐ Round g h a b c d e f 0x2748774cdf8eeb99 w2;
  w3 ⇐ u64 (w3 + (sigma1 w1 + w12 + sigma0 w4)); ⟨a, e⟩ ⇐ Round f g h a b c d e 0x34b0bcb5e19b48a8 w3;
  w4 ⇐ u64 (w4 + (sigma1 w2 + w13 + sigma0 w5)); ⟨h, d⟩ ⇐ Round e f g h a b c d 0x391c0cb3c5c95a63 w4;
  w5 ⇐ u64 (w5 + (sigma1 w3 + w14 + sigma0 w6)); ⟨g, c⟩ ⇐ Round d e f g h a b c 0x4ed8aa4ae3418acb w5;
  w6 ⇐ u64 (w6 + (sigma1 w4 + w15 + sigma0 w7)); ⟨f, b⟩ ⇐ Round c d e f g h a b 0x5b9cca4f7763e373 w6;
  w7 ⇐ u64 (w7 + (sigma1 w5 + w0 + sigma0 w8)); ⟨e, a⟩ ⇐ Round b c d e f g h a 0x682e6ff3d6b2b8a3 w7;
  w8 ⇐ u64 (w8 + (sigma1 w6 + w1 + sigma0 w9)); ⟨d, h⟩ ⇐ Round a b c d e f g h 0x748f82ee5defb2fc w8;
  w9 ⇐ u64 (w9 + (sigma1 w7 + w2 + sigma0 w10)); ⟨c, g⟩ ⇐ Round h a b c d e f g 0x78a5636f43172f60 w9;
  w10 ⇐ u64 (w10 + (sigma1 w8 + w3 + sigma0 w11)); ⟨b, f⟩ ⇐ Round g h a b c d e f 0x84c87814a1f0ab72 w10;
  w11 ⇐ u64 (w11 + (sigma1 w9 + w4 + sigma0 w12)); ⟨a, e⟩ ⇐ Round f g h a b c d e 0x8cc702081a6439ec w11;
  w12 ⇐ u64 (w12 + (sigma1 w10 + w5 + sigma0 w13)); ⟨h, d⟩ ⇐ Round e f g h a b c d 0x90befffa23631e28 w12;
  w13 ⇐ u64 (w13 + (sigma1 w11 + w6 + sigma0 w14)); ⟨g, c⟩ ⇐ Round d e f g h a b c 0xa4506cebde82bde9 w13;
  w14 ⇐ u64 (w14 + (sigma1 w12 + w7 + sigma0 w15)); ⟨f, b⟩ ⇐ Round c d e f g h a b 0xbef9a3f7b2c67915 w14;
  w15 ⇐ u64 (w15 + (sigma1 w13 + w8 + sigma0 w0)); ⟨e, a⟩ ⇐ Round b c d e f g h a 0xc67178f2e372532b w15;
  w0 ⇐ u64 (w0 + (sigma1 w14 + w9 + sigma0 w1)); ⟨d, h⟩ ⇐ Round a b c d e f g h 0xca273eceea26619c w0;
  w1 ⇐ u64 (w1 + (sigma1 w15 + w10 + sigma0 w2)); ⟨c, g⟩ ⇐ Round h a b c d e f g 0xd186b8c721c0c207 w1;
  w2 ⇐ u64 (w2 + (sigma1 w0 + w11 + sigma0 w3)); ⟨b, f⟩ ⇐ Round g h a b c d e f 0xeada7dd6cde0eb1e w2;
  w3 ⇐ u64 (w3 + (sigma1 w1 + w12 + sigma0 w4)); ⟨a, e⟩ ⇐ Round f g h a b c d e 0xf57d4f7fee6ed178 w3;
  w4 ⇐ u64 (w4 + (sigma1 w2 + w13 + sigma0 w5)); ⟨h, d⟩ ⇐ Round e f g h a b c d 0x06f067aa72176fba w4;
  w5 ⇐ u64 (w5 + (sigma1 w3 + w14 + sigma0 w6)); ⟨g, c⟩ ⇐ Round d e f g h a b c 0x0a637dc5a2c898a6 w5;
  w6 ⇐ u64 (w6 + (sigma1 w4 + w15 + sigma0 w7)); ⟨f, b⟩ ⇐ Round c d e f g h a b 0x113f9804bef90dae w6;
  w7 ⇐ u64 (w7 + (sigma1 w5 + w0 + sigma0 w8)); ⟨e, a⟩ ⇐ Round b c d e f g h a 0x1b710b35131c471b w7;
  w8 ⇐ u64 (w8 + (sigma1 w6 + w1 + sigma0 w9)); ⟨d, h⟩ ⇐ Round a b c d e f g h 0x28db77f523047d84 w8;
  w9 ⇐ u64 (w9 + (sigma1 w7 + w2 + sigma0 w10)); ⟨c, g⟩ ⇐ Round h a b c d e f g 0x32caab7b40c72493 w9;
  w10 ⇐ u64 (w10 + (sigma1 w8 + w3 + sigma0 w11)); ⟨b, f⟩ ⇐ Round g h a b c d e f 0x3c9ebe0a15c9bebc w10;
  w11 ⇐ u64 (w11 + (sigma1 w9 + w4 + sigma0 w12)); ⟨a, e⟩ ⇐ Round f g h a b c d e 0x431d67c49c100d4c w11;
  w12 ⇐ u64 (w12 + (sigma1 w10 + w5 + sigma0 w13)); ⟨h, d⟩ ⇐ Round e f g h a b c d 0x4cc5d4becb3e42b6 w12;
  w13 ⇐ u64 (w13 + (sigma1 w11 + w6 + sigma0 w14)); ⟨g, c⟩ ⇐ Round d e f g h a b c 0x597f299cfc657e2a w13;
  ⟨f, b⟩ ⇐ Round c d e f g h a b 0x5fcb6fab3ad6faec (u64 (w14 + sigma1 w12 + w7 + sigma0 w15));
  ⟨e, a⟩ ⇐ Round b c d e f g h a 0x6c44198c4a475817 (u64 (w15 + sigma1 w13 + w8 + sigma0 w0));
  add_regs 64 s (Regs a b c d e f g h).

Close Scope stmt_scope.

(** [unsigned char sizedesc[16] = {0x00}; WriteBE64(sizedesc + 8, bytes << 3)] *)
Definition sizedesc (bits : Z) : list Z := replicate 8 0 ++ WriteBE64 bits.

Definition SHA512_code : BlockHash := block_hash 128 16 239 sizedesc (regs_bytes WriteBE64) Initialize Transform.

Definition CSHA512_new (junk : list Z) : @hasher SHA512_code := @construct SHA512_code junk.
Definition CSHA512_Write : @hasher SHA512_code -> list Z -> @hasher SHA512_code := @Write SHA512_code.
Definition CSHA512_Finalize : @hasher SHA512_code -> list Z := @Finalize SHA512_code.
Definition CSHA512_Reset : @hasher SHA512_code -> @hasher SHA512_code := @Reset SHA512_code.

(** ** The reference at 64 bits *)

Definition SHA512_K : list Z := map (root_fraction 3 64) (first_primes 80).
Definition SHA512_H0 : regs := regs_of (map (root_fraction 2 64) (first_primes 8)).

Definition be_words64 (chunk : list Z) : list Z := map (fun i => ReadBE64 (drop (8 * i) chunk)) (seq 0 16).

Definition SHA512_compress : regs -> list Z -> regs :=
  compress_ref 64 (rot3 64 28 34 39) (rot3 64 14 18 41) (rot2 64 1 8 7) (rot2 64 19 61 6) SHA512_K.

(** FIPS 180-4, section 6.4 *)
Definition SHA512_spec : BlockHash := block_hash 128 16 239 sizedesc (regs_bytes WriteBE64) SHA512_H0
  (fun s chunk => SHA512_compress s (be_words64 chunk)).

Definition SHA512_ref (m : list Z) : list Z := @merkle_damgard SHA512_spec m.

(** ** Proofs *)

Lemma Sigma0_eq_512 x : rot3 64 28 34 39 x = Sigma0 x.
Proof. reflexivity. Qed.
Lemma Sigma1_eq_512 x : rot3 64 14 18 41 x = Sigma1 x.
Proof. reflexivity. Qed.

Abbreviation round512 := (round_ref 64 (rot3 64 28 34 39) (rot3 64 14 18 41)).
Abbreviation run512 := (run (next_word 64 (rot2 64 1 8 7) (rot2 64 19 61 6)) (round_ref 64 (rot3 64 28 34 39) (rot3 64 14 18 41))).

Lemma round_code_512 a b c d e f g h k x : round512 (Regs a b c d e f g h) (k, x) =
  assign2 (Round a b c d e f g h k x) (fun d h => Regs h a b c d e f g).
Proof.
  unfold round_ref, assign2, Round. cbn [fst snd]. by rewrite Ch_ref_xor, Maj_ref_or, Sigma0_eq_512, Sigma1_eq_512.
Qed.

(** the lines of the code against the rounds of the reference, as for SHA-256 *)
Lemma load_line_512 {A} (F : regs -> A) a b c d e f g h k x l C :
  (forall d' h', C x d' h' = F (foldl round512 (Regs h' a b c d' e f g) l)) ->
  assign x (fun x => assign2 (Round a b c d e f g h k x) (C x)) =
  F (foldl round512 (Regs a b c d e f g h) ((k, x) :: l)).
Proof. intros H. cbn [foldl]. rewrite round_code_512. apply H. Qed.

Lemma run_line_512 {A} (F : regs -> A) k ks a b c d e f g h v0 v1 v2 v3 v4 v5 v6 v7 v8 v9 v10 v11 v12 v13 v14 v15 y C :
  y = u64 (v0 + (sigma1 v14 + v9 + sigma0 v1)) ->
  (forall x d' h', C x d' h' =
    F (run512 ks [v1; v2; v3; v4; v5; v6; v7; v8; v9; v10; v11; v12; v13; v14; v15; x] (Regs h' a b c d' e f g))) ->
  assign y (fun x => assign2 (Round a b c d e f g h k x) (C x)) =
  F (run512 (k :: ks) [v0; v1; v2; v3; v4; v5; v6; v7; v8; v9; v10; v11; v12; v13; v14; v15] (Regs a b c d e f g h)).
Proof.
  intros -> H. cbn [run tail app]. unfold assign. rewrite round_code_512.
  replace (next_word _ _ _ _) with (u64 (v0 + (sigma1 v14 + v9 + sigma0 v1))); [apply H|].
  rewrite Z.add_comm. reflexivity.
Qed.

Lemma last_line_512 {A} (F : regs -> A) k ks a b c d e f g h v0 v1 v2 v3 v4 v5 v6 v7 v8 v9 v10 v11 v12 v13 v14 v15 y C :
  y = u64 (v0 + (sigma1 v14 + v9 + sigma0 v1)) ->
  (forall x d' h', C d' h' =
    F (run512 ks [v1; v2; v3; v4; v5; v6; v7; v8; v9; v10; v11; v12; v13; v14; v15; x] (Regs h' a b c d' e f g))) ->
  assign2 (Round a b c d e f g h k y) C =
  F (run512 (k :: ks) [v0; v1; v2; v3; v4; v5; v6; v7; v8; v9; v10; v11; v12; v13; v14; v15] (Regs a b c d e f g h)).
Proof. intros E H. exact (run_line_512 F k ks a b c d e f g h _ _ _ _ _ _ _ _ _ _ _ _ _ _ _ _ y (fun _ => C) E H). Qed.

(** the constants, computed once *)
Definition SHA512_K_values : list Z := Eval vm_compute in SHA512_K.

Lemma SHA512_K_table : SHA512_K = SHA512_K_values.
Proof. vm_cast_no_check (eq_refl SHA512_K). Qed.

Lemma SHA512_H0_table : SHA512_H0 = Initialize.
Proof. vm_cast_no_check (eq_refl Initialize). Qed.

Lemma Transform_correct_512 s chunk : Transform s chunk = SHA512_compress s (be_words64 chunk).
Proof.
  unfold SHA512_compress. rewrite compress_split by (done || (rewrite SHA512_K_table; cbn; lia)).
  rewrite SHA512_K_table. unfold SHA512_K_values, be_words64. cbn [map seq Nat.mul Nat.add]. cbn [take drop zip zip_with].
  unfold Transform. cbn [take drop]. set (F := add_regs 64 s). destruct s as [a b c d e f g h].
  repeat match goal with |- context [ReadBE64 (drop ?n chunk)] => generalize (ReadBE64 (drop n chunk)); intros ? end.
  match goal with |- _ = F (run _ _ ?ks ?ws (foldl _ ?st ?l)) =>
    set (G := fun r => F (run512 ks ws r));
    change (F (run512 ks ws (foldl round512 st l))) with (G (foldl round512 st l))
  end.
  do 16 (apply (load_line_512 G); intros ? ?). subst G. cbn [foldl]. cbv beta.
  do 62 (apply (run_line_512 F); [reflexivity | intros ? ? ?]).
  do 2 (apply (last_line_512 F); [f_equal; lia | intros ? ? ?]).
  reflexivity.
Qed.

#[global] Instance SHA512_code_laws : BlockHashLaws SHA512_code.
Proof.
  apply block_hash_laws; [exists 7%nat; split; [lia | done] | lia | done | reflexivity].
Qed.

Lemma CSHA512_Finalize_correct h m : @holds SHA512_code h m -> CSHA512_Finalize h = SHA512_ref m.
Proof.
  intros H. unfold CSHA512_Finalize. rewrite (@finalize_correct SHA512_code _ h m H).
  apply merkle_damgard_ext; [symmetry; apply SHA512_H0_table | apply Transform_correct_512].
Qed.

Lemma SHA512_streaming junk parts : length junk = 128%nat ->
  CSHA512_Finalize (fold_left CSHA512_Write parts (CSHA512_new junk)) = SHA512_ref (concat parts).
Proof.
  intros H. apply CSHA512_Finalize_correct, (write_all_holds parts _ []). by apply construct_holds.
Qed.

(** the vector "abc" of the standard *)
Example SHA512_abc : SHA512_ref [0x61; 0x62; 0x63] = concat (map WriteBE64
  [0xddaf35a193617aba; 0xcc417349ae204131; 0x12e6fa4e89a97ea2; 0x0a9eeee64b55d39a;
   0x2192992a274fc1a8; 0x36ba3c23a3feebbd; 0x454d4423643ce80e; 0x2a9ac94fa54ca49f]).
Proof. vm_cast_no_check (eq_refl (SHA512_ref [0x61; 0x62; 0x63])). Qed.
