(* ===== verification/Sha256.v ===== *)
(** * SHA-256

    [crypto/sha256.cpp]: the portable [Transform] (64 unrolled rounds over
    variables that are overwritten), [TransformD64], the unrolled double hash of 64
    bytes with the rounds on the fixed padding blocks folded into constants, and the
    buffered object [CSHA256].  The assembly and vector versions that
    [SHA256AutoDetect] may select are other files; the model is of the selection
    "standard", and of [TransformD64Wrapper] for any one-block function.

    [SHA256_ref] is the reference of [Sha2Spec.v] at 32 bits.  The theorems say that
    [Transform] is its compression function, that [CSHA256] computes it however the
    message is cut up, and that [TransformD64] is the reference applied twice. *)

From stdpp Require Import strings.
From S2P Require Import Prelude ScriptNum Serialize Hashing Sha2Spec.
Open Scope Z_scope.

Local Infix ".^" := Z.lxor (at level 46, left associativity).
Local Infix ".&" := Z.land (at level 44, left associativity).
Local Infix ".|" := Z.lor (at level 47, left associativity).
Local Infix ".>>" := Z.shiftr (at level 42).
Local Notation "x .<< n" := (u32 (Z.shiftl x n)) (at level 42).

Definition Ch (x y z : Z) : Z := z .^ (x .& (y .^ z)).
Definition Maj (x y z : Z) : Z := (x .& y) .| (z .& (x .| y)).
Definition Sigma0 (x : Z) : Z := (x .>> 2 .| x .<< 30) .^ (x .>> 13 .| x .<< 19) .^ (x .>> 22 .| x .<< 10).
Definition Sigma1 (x : Z) : Z := (x .>> 6 .| x .<< 26) .^ (x .>> 11 .| x .<< 21) .^ (x .>> 25 .| x .<< 7).
Definition sigma0 (x : Z) : Z := (x .>> 7 .| x .<< 25) .^ (x .>> 18 .| x .<< 14) .^ (x .>> 3).
Definition sigma1 (x : Z) : Z := (x .>> 17 .| x .<< 15) .^ (x .>> 19 .| x .<< 13) .^ (x .>> 10).

(** [d] and [h] after the round *)
Definition Round (a b c d e f g h k : Z) : Z * Z :=
  let t1 := u32 (h + Sigma1 e + Ch e f g + k) in
  let t2 := u32 (Sigma0 a + Maj a b c) in
  (u32 (d + t1), u32 (t1 + t2)).

(** the array [s] after [Initialize] *)
Definition Initialize : regs :=
  Regs 0x6a09e667 0xbb67ae85 0x3c6ef372 0xa54ff53a 0x510e527f 0x9b05688c 0x1f83d9ab 0x5be0cd19.

Open Scope stmt_scope.

(** one turn of the loop of [Transform] *)
Definition Transform_block (s : regs) (chunk : list Z) : regs :=
  let '(Regs a b c d e f g h) := s in
  w0 ⇐ ReadBE32 (drop 0 chunk); ⟨d, h⟩ ⇐ Round a b c d e f g h (u32 (0x428a2f98 + w0));
  w1 ⇐ ReadBE32 (drop 4 chunk); ⟨c, g⟩ ⇐ Round h a b c d e f g (u32 (0x71374491 + w1));
  w2 ⇐ ReadBE32 (drop 8 chunk); ⟨b, f⟩ ⇐ Round g h a b c d e f (u32 (0xb5c0fbcf + w2));
  w3 ⇐ ReadBE32 (drop 12 chunk); ⟨a, e⟩ ⇐ Round f g h a b c d e (u32 (0xe9b5dba5 + w3));
  w4 ⇐ ReadBE32 (drop 16 chunk); ⟨h, d⟩ ⇐ Round e f g h a b c d (u32 (0x3956c25b + w4));
  w5 ⇐ ReadBE32 (drop 20 chunk); ⟨g, c⟩ ⇐ Round d e f g h a b c (u32 (0x59f111f1 + w5));
  w6 ⇐ ReadBE32 (drop 24 chunk); ⟨f, b⟩ ⇐ Round c d e f g h a b (u32 (0x923f82a4 + w6));
  w7 ⇐ ReadBE32 (drop 28 chunk); ⟨e, a⟩ ⇐ Round b c d e f g h a (u32 (0xab1c5ed5 + w7));
  w8 ⇐ ReadBE32 (drop 32 chunk); ⟨d, h⟩ ⇐ Round a b c d e f g h (u32 (0xd807aa98 + w8));
  w9 ⇐ ReadBE32 (drop 36 chunk); ⟨c, g⟩ ⇐ Round h a b c d e f g (u32 (0x12835b01 + w9));
  w10 ⇐ ReadBE32 (drop 40 chunk); ⟨b, f⟩ ⇐ Round g h a b c d e f (u32 (0x243185be + w10));
  w11 ⇐ ReadBE32 (drop 44 chunk); ⟨a, e⟩ ⇐ Round f g h a b c d e (u32 (0x550c7dc3 + w11));
  w12 ⇐ ReadBE32 (drop 48 chunk); ⟨h, d⟩ ⇐ Round e f g h a b c d (u32 (0x72be5d74 + w12));
  w13 ⇐ ReadBE32 (drop 52 chunk); ⟨g, c⟩ ⇐ Round d e f g h a b c (u32 (0x80deb1fe + w13));
  w14 ⇐ ReadBE32 (drop 56 chunk); ⟨f, b⟩ ⇐ Round c d e f g h a b (u32 (0x9bdc06a7 + w14));
  w15 ⇐ ReadBE32 (drop 60 chunk); ⟨e, a⟩ ⇐ Round b c d e f g h a (u32 (0xc19bf174 + w15));
  w0 ⇐ u32 (w0 + (sigma1 w14 + w9 + sigma0 w1)); ⟨d, h⟩ ⇐ Round a b c d e f g h (u32 (0xe49b69c1 + w0));
  w1 ⇐ u32 (w1 + (sigma1 w15 + w10 + sigma0 w2)); ⟨c, g⟩ ⇐ Round h a b c d e f g (u32 (0xefbe4786 + w1));
  w2 ⇐ u32 (w2 + (sigma1 w0 + w11 + sigma0 w3)); ⟨b, f⟩ ⇐ Round g h a b c d e f (u32 (0x0fc19dc6 + w2));
  w3 ⇐ u32 (w3 + (sigma1 w1 + w12 + sigma0 w4)); ⟨a, e⟩ ⇐ Round f g h a b c d e (u32 (0x240ca1cc + w3));
  w4 ⇐ u32 (w4 + (sigma1 w2 + w13 + sigma0 w5)); ⟨h, d⟩ ⇐ Round e f g h a b c d (u32 (0x2de92c6f + w4));
  w5 ⇐ u32 (w5 + (sigma1 w3 + w14 + sigma0 w6)); ⟨g, c⟩ ⇐ Round d e f g h a b c (u32 (0x4a7484aa + w5));
  w6 ⇐ u32 (w6 + (sigma1 w4 + w15 + sigma0 w7)); ⟨f, b⟩ ⇐ Round c d e f g h a b (u32 (0x5cb0a9dc + w6));
  w7 ⇐ u32 (w7 + (sigma1 w5 + w0 + sigma0 w8)); ⟨e, a⟩ ⇐ Round b c d e f g h a (u32 (0x76f988da + w7));
  w8 ⇐ u32 (w8 + (sigma1 w6 + w1 + sigma0 w9)); ⟨d, h⟩ ⇐ Round a b c d e f g h (u32 (0x983e5152 + w8));
  w9 ⇐ u32 (w9 + (sigma1 w7 + w2 + sigma0 w10)); ⟨c, g⟩ ⇐ Round h a b c d e f g (u32 (0xa831c66d + w9));
  w10 ⇐ u32 (w10 + (sigma1 w8 + w3 + sigma0 w11)); ⟨b, f⟩ ⇐ Round g h a b c d e f (u32 (0xb00327c8 + w10));
  w11 ⇐ u32 (w11 + (sigma1 w9 + w4 + sigma0 w12)); ⟨a, e⟩ ⇐ Round f g h a b c d e (u32 (0xbf597fc7 + w11));
  w12 ⇐ u32 (w12 + (sigma1 w10 + w5 + sigma0 w13)); ⟨h, d⟩ ⇐ Round e f g h a b c d (u32 (0xc6e00bf3 + w12));
  w13 ⇐ u32 (w13 + (sigma1 w11 + w6 + sigma0 w14)); ⟨g, c⟩ ⇐ Round d e f g h a b c (u32 (0xd5a79147 + w13));
  w14 ⇐ u32 (w14 + (sigma1 w12 + w7 + sigma0 w15)); ⟨f, b⟩ ⇐ Round c d e f g h a b (u32 (0x06ca6351 + w14));
  w15 ⇐ u32 (w15 + (sigma1 w13 + w8 + sigma0 w0)); ⟨e, a⟩ ⇐ Round b c d e f g h a (u32 (0x14292967 + w15));
  w0 ⇐ u32 (w0 + (sigma1 w14 + w9 + sigma0 w1)); ⟨d, h⟩ ⇐ Round a b c d e f g h (u32 (0x27b70a85 + w0));
  w1 ⇐ u32 (w1 + (sigma1 w15 + w10 + sigma0 w2)); ⟨c, g⟩ ⇐ Round h a b c d e f g (u32 (0x2e1b2138 + w1));
  w2 ⇐ u32 (w2 + (sigma1 w0 + w11 + sigma0 w3)); ⟨b, f⟩ ⇐ Round g h a b c d e f (u32 (0x4d2c6dfc + w2));
  w3 ⇐ u32 (w3 + (sigma1 w1 + w12 + sigma0 w4)); ⟨a, e⟩ ⇐ Round f g h a b c d e (u32 (0x53380d13 + w3));
  w4 ⇐ u32 (w4 + (sigma1 w2 + w13 + sigma0 w5)); ⟨h, d⟩ ⇐ Round e f g h a b c d (u32 (0x650a7354 + w4));
  w5 ⇐ u32 (w5 + (sigma1 w3 + w14 + sigma0 w6)); ⟨g, c⟩ ⇐ Round d e f g h a b c (u32 (0x766a0abb + w5));
  w6 ⇐ u32 (w6 + (sigma1 w4 + w15 + sigma0 w7)); ⟨f, b⟩ ⇐ Round c d e f g h a b (u32 (0x81c2c92e + w6));
  w7 ⇐ u32 (w7 + (sigma1 w5 + w0 + sigma0 w8)); ⟨e, a⟩ ⇐ Round b c d e f g h a (u32 (0x92722c85 + w7));
  w8 ⇐ u32 (w8 + (sigma1 w6 + w1 + sigma0 w9)); ⟨d, h⟩ ⇐ Round a b c d e f g h (u32 (0xa2bfe8a1 + w8));
  w9 ⇐ u32 (w9 + (sigma1 w7 + w2 + sigma0 w10)); ⟨c, g⟩ ⇐ Round h a b c d e f g (u32 (0xa81a664b + w9));
  w10 ⇐ u32 (w10 + (sigma1 w8 + w3 + sigma0 w11)); ⟨b, f⟩ ⇐ Round g h a b c d e f (u32 (0xc24b8b70 + w10));
  w11 ⇐ u32 (w11 + (sigma1 w9 + w4 + sigma0 w12)); ⟨a, e⟩ ⇐ Round f g h a b c d e (u32 (0xc76c51a3 + w11));
  w12 ⇐ u32 (w12 + (sigma1 w10 + w5 + sigma0 w13)); ⟨h, d⟩ ⇐ Round e f g h a b c d (u32 (0xd192e819 + w12));
  w13 ⇐ u32 (w13 + (sigma1 w11 + w6 + sigma0 w14)); ⟨g, c⟩ ⇐ Round d e f g h a b c (u32 (0xd6990624 + w13));
  w14 ⇐ u32 (w14 + (sigma1 w12 + w7 + sigma0 w15)); ⟨f, b⟩ ⇐ Round c d e f g h a b (u32 (0xf40e3585 + w14));
  w15 ⇐ u32 (w15 + (sigma1 w13 + w8 + sigma0 w0)); ⟨e, a⟩ ⇐ Round b c d e f g h a (u32 (0x106aa070 + w15));
  w0 ⇐ u32 (w0 + (sigma1 w14 + w9 + sigma0 w1)); ⟨d, h⟩ ⇐ Round a b c d e f g h (u32 (0x19a4c116 + w0));
  w1 ⇐ u32 (w1 + (sigma1 w15 + w10 + sigma0 w2)); ⟨c, g⟩ ⇐ Round h a b c d e f g (u32 (0x1e376c08 + w1));
  w2 ⇐ u32 (w2 + (sigma1 w0 + w11 + sigma0 w3)); ⟨b, f⟩ ⇐ Round g h a b c d e f (u32 (0x2748774c + w2));
  w3 ⇐ u32 (w3 + (sigma1 w1 + w12 + sigma0 w4)); ⟨a, e⟩ ⇐ Round f g h a b c d e (u32 (0x34b0bcb5 + w3));
  w4 ⇐ u32 (w4 + (sigma1 w2 + w13 + sigma0 w5)); ⟨h, d⟩ ⇐ Round e f g h a b c d (u32 (0x391c0cb3 + w4));
  w5 ⇐ u32 (w5 + (sigma1 w3 + w14 + sigma0 w6)); ⟨g, c⟩ ⇐ Round d e f g h a b c (u32 (0x4ed8aa4a + w5));
  w6 ⇐ u32 (w6 + (sigma1 w4 + w15 + sigma0 w7)); ⟨f, b⟩ ⇐ Round c d e f g h a b (u32 (0x5b9cca4f + w6));
  w7 ⇐ u32 (w7 + (sigma1 w5 + w0 + sigma0 w8)); ⟨e, a⟩ ⇐ Round b c d e f g h a (u32 (0x682e6ff3 + w7));
  w8 ⇐ u32 (w8 + (sigma1 w6 + w1 + sigma0 w9)); ⟨d, h⟩ ⇐ Round a b c d e f g h (u32 (0x748f82ee + w8));
  w9 ⇐ u32 (w9 + (sigma1 w7 + w2 + sigma0 w10)); ⟨c, g⟩ ⇐ Round h a b c d e f g (u32 (0x78a5636f + w9));
  w10 ⇐ u32 (w10 + (sigma1 w8 + w3 + sigma0 w11)); ⟨b, f⟩ ⇐ Round g h a b c d e f (u32 (0x84c87814 + w10));
  w11 ⇐ u32 (w11 + (sigma1 w9 + w4 + sigma0 w12)); ⟨a, e⟩ ⇐ Round f g h a b c d e (u32 (0x8cc70208 + w11));
  w12 ⇐ u32 (w12 + (sigma1 w10 + w5 + sigma0 w13)); ⟨h, d⟩ ⇐ Round e f g h a b c d (u32 (0x90befffa + w12));
  w13 ⇐ u32 (w13 + (sigma1 w11 + w6 + sigma0 w14)); ⟨g, c⟩ ⇐ Round d e f g h a b c (u32 (0xa4506ceb + w13));
  ⟨f, b⟩ ⇐ Round c d e f g h a b (u32 (0xbef9a3f7 + u32 (w14 + sigma1 w12 + w7 + sigma0 w15)));
  ⟨e, a⟩ ⇐ Round b c d e f g h a (u32 (0xc67178f2 + u32 (w15 + sigma1 w13 + w8 + sigma0 w0)));
  add_regs 32 s (Regs a b c d e f g h).

Fixpoint Transform (s : regs) (chunk : list Z) (blocks : nat) {struct blocks} : regs :=
  match blocks with
  | O => s
  | S blocks => Transform (Transform_block s chunk) (drop 64 chunk) blocks
  end.

(** [TransformD64]: the first hash of the 64 bytes [p] ... *)
Definition TransformD64_1 (p : list Z) : regs :=
  let '(Regs a b c d e f g h) := Initialize in
  w0 ⇐ ReadBE32 (drop 0 p); ⟨d, h⟩ ⇐ Round a b c d e f g h (u32 (0x428a2f98 + w0));
  w1 ⇐ ReadBE32 (drop 4 p); ⟨c, g⟩ ⇐ Round h a b c d e f g (u32 (0x71374491 + w1));
  w2 ⇐ ReadBE32 (drop 8 p); ⟨b, f⟩ ⇐ Round g h a b c d e f (u32 (0xb5c0fbcf + w2));
  w3 ⇐ ReadBE32 (drop 12 p); ⟨a, e⟩ ⇐ Round f g h a b c d e (u32 (0xe9b5dba5 + w3));
  w4 ⇐ ReadBE32 (drop 16 p); ⟨h, d⟩ ⇐ Round e f g h a b c d (u32 (0x3956c25b + w4));
  w5 ⇐ ReadBE32 (drop 20 p); ⟨g, c⟩ ⇐ Round d e f g h a b c (u32 (0x59f111f1 + w5));
  w6 ⇐ ReadBE32 (drop 24 p); ⟨f, b⟩ ⇐ Round c d e f g h a b (u32 (0x923f82a4 + w6));
  w7 ⇐ ReadBE32 (drop 28 p); ⟨e, a⟩ ⇐ Round b c d e f g h a (u32 (0xab1c5ed5 + w7));
  w8 ⇐ ReadBE32 (drop 32 p); ⟨d, h⟩ ⇐ Round a b c d e f g h (u32 (0xd807aa98 + w8));
  w9 ⇐ ReadBE32 (drop 36 p); ⟨c, g⟩ ⇐ Round h a b c d e f g (u32 (0x12835b01 + w9));
  w10 ⇐ ReadBE32 (drop 40 p); ⟨b, f⟩ ⇐ Round g h a b c d e f (u32 (0x243185be + w10));
  w11 ⇐ ReadBE32 (drop 44 p); ⟨a, e⟩ ⇐ Round f g h a b c d e (u32 (0x550c7dc3 + w11));
  w12 ⇐ ReadBE32 (drop 48 p); ⟨h, d⟩ ⇐ Round e f g h a b c d (u32 (0x72be5d74 + w12));
  w13 ⇐ ReadBE32 (drop 52 p); ⟨g, c⟩ ⇐ Round d e f g h a b c (u32 (0x80deb1fe + w13));
  w14 ⇐ ReadBE32 (drop 56 p); ⟨f, b⟩ ⇐ Round c d e f g h a b (u32 (0x9bdc06a7 + w14));
  w15 ⇐ ReadBE32 (drop 60 p); ⟨e, a⟩ ⇐ Round b c d e f g h a (u32 (0xc19bf174 + w15));
  w0 ⇐ u32 (w0 + (sigma1 w14 + w9 + sigma0 w1)); ⟨d, h⟩ ⇐ Round a b c d e f g h (u32 (0xe49b69c1 + w0));
  w1 ⇐ u32 (w1 + (sigma1 w15 + w10 + sigma0 w2)); ⟨c, g⟩ ⇐ Round h a b c d e f g (u32 (0xefbe4786 + w1));
  w2 ⇐ u32 (w2 + (sigma1 w0 + w11 + sigma0 w3)); ⟨b, f⟩ ⇐ Round g h a b c d e f (u32 (0x0fc19dc6 + w2));
  w3 ⇐ u32 (w3 + (sigma1 w1 + w12 + sigma0 w4)); ⟨a, e⟩ ⇐ Round f g h a b c d e (u32 (0x240ca1cc + w3));
  w4 ⇐ u32 (w4 + (sigma1 w2 + w13 + sigma0 w5)); ⟨h, d⟩ ⇐ Round e f g h a b c d (u32 (0x2de92c6f + w4));
  w5 ⇐ u32 (w5 + (sigma1 w3 + w14 + sigma0 w6)); ⟨g, c⟩ ⇐ Round d e f g h a b c (u32 (0x4a7484aa + w5));
  w6 ⇐ u32 (w6 + (sigma1 w4 + w15 + sigma0 w7)); ⟨f, b⟩ ⇐ Round c d e f g h a b (u32 (0x5cb0a9dc + w6));
  w7 ⇐ u32 (w7 + (sigma1 w5 + w0 + sigma0 w8)); ⟨e, a⟩ ⇐ Round b c d e f g h a (u32 (0x76f988da + w7));
  w8 ⇐ u32 (w8 + (sigma1 w6 + w1 + sigma0 w9)); ⟨d, h⟩ ⇐ Round a b c d e f g h (u32 (0x983e5152 + w8));
  w9 ⇐ u32 (w9 + (sigma1 w7 + w2 + sigma0 w10)); ⟨c, g⟩ ⇐ Round h a b c d e f g (u32 (0xa831c66d + w9));
  w10 ⇐ u32 (w10 + (sigma1 w8 + w3 + sigma0 w11)); ⟨b, f⟩ ⇐ Round g h a b c d e f (u32 (0xb00327c8 + w10));
  w11 ⇐ u32 (w11 + (sigma1 w9 + w4 + sigma0 w12)); ⟨a, e⟩ ⇐ Round f g h a b c d e (u32 (0xbf597fc7 + w11));
  w12 ⇐ u32 (w12 + (sigma1 w10 + w5 + sigma0 w13)); ⟨h, d⟩ ⇐ Round e f g h a b c d (u32 (0xc6e00bf3 + w12));
  w13 ⇐ u32 (w13 + (sigma1 w11 + w6 + sigma0 w14)); ⟨g, c⟩ ⇐ Round d e f g h a b c (u32 (0xd5a79147 + w13));
  w14 ⇐ u32 (w14 + (sigma1 w12 + w7 + sigma0 w15)); ⟨f, b⟩ ⇐ Round c d e f g h a b (u32 (0x06ca6351 + w14));
  w15 ⇐ u32 (w15 + (sigma1 w13 + w8 + sigma0 w0)); ⟨e, a⟩ ⇐ Round b c d e f g h a (u32 (0x14292967 + w15));
  w0 ⇐ u32 (w0 + (sigma1 w14 + w9 + sigma0 w1)); ⟨d, h⟩ ⇐ Round a b c d e f g h (u32 (0x27b70a85 + w0));
  w1 ⇐ u32 (w1 + (sigma1 w15 + w10 + sigma0 w2)); ⟨c, g⟩ ⇐ Round h a b c d e f g (u32 (0x2e1b2138 + w1));
  w2 ⇐ u32 (w2 + (sigma1 w0 + w11 + sigma0 w3)); ⟨b, f⟩ ⇐ Round g h a b c d e f (u32 (0x4d2c6dfc + w2));
  w3 ⇐ u32 (w3 + (sigma1 w1 + w12 + sigma0 w4)); ⟨a, e⟩ ⇐ Round f g h a b c d e (u32 (0x53380d13 + w3));
  w4 ⇐ u32 (w4 + (sigma1 w2 + w13 + sigma0 w5)); ⟨h, d⟩ ⇐ Round e f g h a b c d (u32 (0x650a7354 + w4));
  w5 ⇐ u32 (w5 + (sigma1 w3 + w14 + sigma0 w6)); ⟨g, c⟩ ⇐ Round d e f g h a b c (u32 (0x766a0abb + w5));
  w6 ⇐ u32 (w6 + (sigma1 w4 + w15 + sigma0 w7)); ⟨f, b⟩ ⇐ Round c d e f g h a b (u32 (0x81c2c92e + w6));
  w7 ⇐ u32 (w7 + (sigma1 w5 + w0 + sigma0 w8)); ⟨e, a⟩ ⇐ Round b c d e f g h a (u32 (0x92722c85 + w7));
  w8 ⇐ u32 (w8 + (sigma1 w6 + w1 + sigma0 w9)); ⟨d, h⟩ ⇐ Round a b c d e f g h (u32 (0xa2bfe8a1 + w8));
  w9 ⇐ u32 (w9 + (sigma1 w7 + w2 + sigma0 w10)); ⟨c, g⟩ ⇐ Round h a b c d e f g (u32 (0xa81a664b + w9));
  w10 ⇐ u32 (w10 + (sigma1 w8 + w3 + sigma0 w11)); ⟨b, f⟩ ⇐ Round g h a b c d e f (u32 (0xc24b8b70 + w10));
  w11 ⇐ u32 (w11 + (sigma1 w9 + w4 + sigma0 w12)); ⟨a, e⟩ ⇐ Round f g h a b c d e (u32 (0xc76c51a3 + w11));
  w12 ⇐ u32 (w12 + (sigma1 w10 + w5 + sigma0 w13)); ⟨h, d⟩ ⇐ Round e f g h a b c d (u32 (0xd192e819 + w12));
  w13 ⇐ u32 (w13 + (sigma1 w11 + w6 + sigma0 w14)); ⟨g, c⟩ ⇐ Round d e f g h a b c (u32 (0xd6990624 + w13));
  w14 ⇐ u32 (w14 + (sigma1 w12 + w7 + sigma0 w15)); ⟨f, b⟩ ⇐ Round c d e f g h a b (u32 (0xf40e3585 + w14));
  w15 ⇐ u32 (w15 + (sigma1 w13 + w8 + sigma0 w0)); ⟨e, a⟩ ⇐ Round b c d e f g h a (u32 (0x106aa070 + w15));
  w0 ⇐ u32 (w0 + (sigma1 w14 + w9 + sigma0 w1)); ⟨d, h⟩ ⇐ Round a b c d e f g h (u32 (0x19a4c116 + w0));
  w1 ⇐ u32 (w1 + (sigma1 w15 + w10 + sigma0 w2)); ⟨c, g⟩ ⇐ Round h a b c d e f g (u32 (0x1e376c08 + w1));
  w2 ⇐ u32 (w2 + (sigma1 w0 + w11 + sigma0 w3)); ⟨b, f⟩ ⇐ Round g h a b c d e f (u32 (0x2748774c + w2));
  w3 ⇐ u32 (w3 + (sigma1 w1 + w12 + sigma0 w4)); ⟨a, e⟩ ⇐ Round f g h a b c d e (u32 (0x34b0bcb5 + w3));
  w4 ⇐ u32 (w4 + (sigma1 w2 + w13 + sigma0 w5)); ⟨h, d⟩ ⇐ Round e f g h a b c d (u32 (0x391c0cb3 + w4));
  w5 ⇐ u32 (w5 + (sigma1 w3 + w14 + sigma0 w6)); ⟨g, c⟩ ⇐ Round d e f g h a b c (u32 (0x4ed8aa4a + w5));
  w6 ⇐ u32 (w6 + (sigma1 w4 + w15 + sigma0 w7)); ⟨f, b⟩ ⇐ Round c d e f g h a b (u32 (0x5b9cca4f + w6));
  w7 ⇐ u32 (w7 + (sigma1 w5 + w0 + sigma0 w8)); ⟨e, a⟩ ⇐ Round b c d e f g h a (u32 (0x682e6ff3 + w7));
  w8 ⇐ u32 (w8 + (sigma1 w6 + w1 + sigma0 w9)); ⟨d, h⟩ ⇐ Round a b c d e f g h (u32 (0x748f82ee + w8));
  w9 ⇐ u32 (w9 + (sigma1 w7 + w2 + sigma0 w10)); ⟨c, g⟩ ⇐ Round h a b c d e f g (u32 (0x78a5636f + w9));
  w10 ⇐ u32 (w10 + (sigma1 w8 + w3 + sigma0 w11)); ⟨b, f⟩ ⇐ Round g h a b c d e f (u32 (0x84c87814 + w10));
  w11 ⇐ u32 (w11 + (sigma1 w9 + w4 + sigma0 w12)); ⟨a, e⟩ ⇐ Round f g h a b c d e (u32 (0x8cc70208 + w11));
  w12 ⇐ u32 (w12 + (sigma1 w10 + w5 + sigma0 w13)); ⟨h, d⟩ ⇐ Round e f g h a b c d (u32 (0x90befffa + w12));
  w13 ⇐ u32 (w13 + (sigma1 w11 + w6 + sigma0 w14)); ⟨g, c⟩ ⇐ Round d e f g h a b c (u32 (0xa4506ceb + w13));
  ⟨f, b⟩ ⇐ Round c d e f g h a b (u32 (0xbef9a3f7 + u32 (w14 + sigma1 w12 + w7 + sigma0 w15)));
  ⟨e, a⟩ ⇐ Round b c d e f g h a (u32 (0xc67178f2 + u32 (w15 + sigma1 w13 + w8 + sigma0 w0)));
  add_regs 32 (Regs a b c d e f g h) Initialize.

(** ... its padding block ... *)
Definition TransformD64_2 (t : regs) : regs :=
  let '(Regs a b c d e f g h) := t in
  ⟨d, h⟩ ⇐ Round a b c d e f g h 0xc28a2f98;
  ⟨c, g⟩ ⇐ Round h a b c d e f g 0x71374491;
  ⟨b, f⟩ ⇐ Round g h a b c d e f 0xb5c0fbcf;
  ⟨a, e⟩ ⇐ Round f g h a b c d e 0xe9b5dba5;
  ⟨h, d⟩ ⇐ Round e f g h a b c d 0x3956c25b;
  ⟨g, c⟩ ⇐ Round d e f g h a b c 0x59f111f1;
  ⟨f, b⟩ ⇐ Round c d e f g h a b 0x923f82a4;
  ⟨e, a⟩ ⇐ Round b c d e f g h a 0xab1c5ed5;
  ⟨d, h⟩ ⇐ Round a b c d e f g h 0xd807aa98;
  ⟨c, g⟩ ⇐ Round h a b c d e f g 0x12835b01;
  ⟨b, f⟩ ⇐ Round g h a b c d e f 0x243185be;
  ⟨a, e⟩ ⇐ Round f g h a b c d e 0x550c7dc3;
  ⟨h, d⟩ ⇐ Round e f g h a b c d 0x72be5d74;
  ⟨g, c⟩ ⇐ Round d e f g h a b c 0x80deb1fe;
  ⟨f, b⟩ ⇐ Round c d e f g h a b 0x9bdc06a7;
  ⟨e, a⟩ ⇐ Round b c d e f g h a 0xc19bf374;
  ⟨d, h⟩ ⇐ Round a b c d e f g h 0x649b69c1;
  ⟨c, g⟩ ⇐ Round h a b c d e f g 0xf0fe4786;
  ⟨b, f⟩ ⇐ Round g h a b c d e f 0x0fe1edc6;
  ⟨a, e⟩ ⇐ Round f g h a b c d e 0x240cf254;
  ⟨h, d⟩ ⇐ Round e f g h a b c d 0x4fe9346f;
  ⟨g, c⟩ ⇐ Round d e f g h a b c 0x6cc984be;
  ⟨f, b⟩ ⇐ Round c d e f g h a b 0x61b9411e;
  ⟨e, a⟩ ⇐ Round b c d e f g h a 0x16f988fa;
  ⟨d, h⟩ ⇐ Round a b c d e f g h 0xf2c65152;
  ⟨c, g⟩ ⇐ Round h a b c d e f g 0xa88e5a6d;
  ⟨b, f⟩ ⇐ Round g h a b c d e f 0xb019fc65;
  ⟨a, e⟩ ⇐ Round f g h a b c d e 0xb9d99ec7;
  ⟨h, d⟩ ⇐ Round e f g h a b c d 0x9a1231c3;
  ⟨g, c⟩ ⇐ Round d e f g h a b c 0xe70eeaa0;
  ⟨f, b⟩ ⇐ Round c d e f g h a b 0xfdb1232b;
  ⟨e, a⟩ ⇐ Round b c d e f g h a 0xc7353eb0;
  ⟨d, h⟩ ⇐ Round a b c d e f g h 0x3069bad5;
  ⟨c, g⟩ ⇐ Round h a b c d e f g 0xcb976d5f;
  ⟨b, f⟩ ⇐ Round g h a b c d e f 0x5a0f118f;
  ⟨a, e⟩ ⇐ Round f g h a b c d e 0xdc1eeefd;
  ⟨h, d⟩ ⇐ Round e f g h a b c d 0x0a35b689;
  ⟨g, c⟩ ⇐ Round d e f g h a b c 0xde0b7a04;
  ⟨f, b⟩ ⇐ Round c d e f g h a b 0x58f4ca9d;
  ⟨e, a⟩ ⇐ Round b c d e f g h a 0xe15d5b16;
  ⟨d, h⟩ ⇐ Round a b c d e f g h 0x007f3e86;
  ⟨c, g⟩ ⇐ Round h a b c d e f g 0x37088980;
  ⟨b, f⟩ ⇐ Round g h a b c d e f 0xa507ea32;
  ⟨a, e⟩ ⇐ Round f g h a b c d e 0x6fab9537;
  ⟨h, d⟩ ⇐ Round e f g h a b c d 0x17406110;
  ⟨g, c⟩ ⇐ Round d e f g h a b c 0x0d8cd6f1;
  ⟨f, b⟩ ⇐ Round c d e f g h a b 0xcdaa3b6d;
  ⟨e, a⟩ ⇐ Round b c d e f g h a 0xc0bbbe37;
  ⟨d, h⟩ ⇐ Round a b c d e f g h 0x83613bda;
  ⟨c, g⟩ ⇐ Round h a b c d e f g 0xdb48a363;
  ⟨b, f⟩ ⇐ Round g h a b c d e f 0x0b02e931;
  ⟨a, e⟩ ⇐ Round f g h a b c d e 0x6fd15ca7;
  ⟨h, d⟩ ⇐ Round e f g h a b c d 0x521afaca;
  ⟨g, c⟩ ⇐ Round d e f g h a b c 0x31338431;
  ⟨f, b⟩ ⇐ Round c d e f g h a b 0x6ed41a95;
  ⟨e, a⟩ ⇐ Round b c d e f g h a 0x6d437890;
  ⟨d, h⟩ ⇐ Round a b c d e f g h 0xc39c91f2;
  ⟨c, g⟩ ⇐ Round h a b c d e f g 0x9eccabbd;
  ⟨b, f⟩ ⇐ Round g h a b c d e f 0xb5c9a0e6;
  ⟨a, e⟩ ⇐ Round f g h a b c d e 0x532fb63c;
  ⟨h, d⟩ ⇐ Round e f g h a b c d 0xd2c741c6;
  ⟨g, c⟩ ⇐ Round d e f g h a b c 0x07237ea3;
  ⟨f, b⟩ ⇐ Round c d e f g h a b 0xa4954b68;
  ⟨e, a⟩ ⇐ Round b c d e f g h a 0x4c191d76;
  add_regs 32 t (Regs a b c d e f g h).

(** ... and the second hash *)
Definition TransformD64_3 (w : regs) : list Z :=
  let '(Regs w0 w1 w2 w3 w4 w5 w6 w7) := w in
  let '(Regs a b c d e f g h) := Initialize in
  ⟨d, h⟩ ⇐ Round a b c d e f g h (u32 (0x428a2f98 + w0));
  ⟨c, g⟩ ⇐ Round h a b c d e f g (u32 (0x71374491 + w1));
  ⟨b, f⟩ ⇐ Round g h a b c d e f (u32 (0xb5c0fbcf + w2));
  ⟨a, e⟩ ⇐ Round f g h a b c d e (u32 (0xe9b5dba5 + w3));
  ⟨h, d⟩ ⇐ Round e f g h a b c d (u32 (0x3956c25b + w4));
  ⟨g, c⟩ ⇐ Round d e f g h a b c (u32 (0x59f111f1 + w5));
  ⟨f, b⟩ ⇐ Round c d e f g h a b (u32 (0x923f82a4 + w6));
  ⟨e, a⟩ ⇐ Round b c d e f g h a (u32 (0xab1c5ed5 + w7));
  ⟨d, h⟩ ⇐ Round a b c d e f g h 0x5807aa98;
  ⟨c, g⟩ ⇐ Round h a b c d e f g 0x12835b01;
  ⟨b, f⟩ ⇐ Round g h a b c d e f 0x243185be;
  ⟨a, e⟩ ⇐ Round f g h a b c d e 0x550c7dc3;
  ⟨h, d⟩ ⇐ Round e f g h a b c d 0x72be5d74;
  ⟨g, c⟩ ⇐ Round d e f g h a b c 0x80deb1fe;
  ⟨f, b⟩ ⇐ Round c d e f g h a b 0x9bdc06a7;
  ⟨e, a⟩ ⇐ Round b c d e f g h a 0xc19bf274;
  w0 ⇐ u32 (w0 + (sigma0 w1)); ⟨d, h⟩ ⇐ Round a b c d e f g h (u32 (0xe49b69c1 + w0));
  w1 ⇐ u32 (w1 + (0xa00000 + sigma0 w2)); ⟨c, g⟩ ⇐ Round h a b c d e f g (u32 (0xefbe4786 + w1));
  w2 ⇐ u32 (w2 + (sigma1 w0 + sigma0 w3)); ⟨b, f⟩ ⇐ Round g h a b c d e f (u32 (0x0fc19dc6 + w2));
  w3 ⇐ u32 (w3 + (sigma1 w1 + sigma0 w4)); ⟨a, e⟩ ⇐ Round f g h a b c d e (u32 (0x240ca1cc + w3));
  w4 ⇐ u32 (w4 + (sigma1 w2 + sigma0 w5)); ⟨h, d⟩ ⇐ Round e f g h a b c d (u32 (0x2de92c6f + w4));
  w5 ⇐ u32 (w5 + (sigma1 w3 + sigma0 w6)); ⟨g, c⟩ ⇐ Round d e f g h a b c (u32 (0x4a7484aa + w5));
  w6 ⇐ u32 (w6 + (sigma1 w4 + 0x100 + sigma0 w7)); ⟨f, b⟩ ⇐ Round c d e f g h a b (u32 (0x5cb0a9dc + w6));
  w7 ⇐ u32 (w7 + (sigma1 w5 + w0 + 0x11002000)); ⟨e, a⟩ ⇐ Round b c d e f g h a (u32 (0x76f988da + w7));
  w8 ⇐ u32 (0x80000000 + sigma1 w6 + w1); ⟨d, h⟩ ⇐ Round a b c d e f g h (u32 (0x983e5152 + w8));
  w9 ⇐ u32 (sigma1 w7 + w2); ⟨c, g⟩ ⇐ Round h a b c d e f g (u32 (0xa831c66d + w9));
  w10 ⇐ u32 (sigma1 w8 + w3); ⟨b, f⟩ ⇐ Round g h a b c d e f (u32 (0xb00327c8 + w10));
  w11 ⇐ u32 (sigma1 w9 + w4); ⟨a, e⟩ ⇐ Round f g h a b c d e (u32 (0xbf597fc7 + w11));
  w12 ⇐ u32 (sigma1 w10 + w5); ⟨h, d⟩ ⇐ Round e f g h a b c d (u32 (0xc6e00bf3 + w12));
  w13 ⇐ u32 (sigma1 w11 + w6); ⟨g, c⟩ ⇐ Round d e f g h a b c (u32 (0xd5a79147 + w13));
  w14 ⇐ u32 (sigma1 w12 + w7 + 0x400022); ⟨f, b⟩ ⇐ Round c d e f g h a b (u32 (0x06ca6351 + w14));
  w15 ⇐ u32 (0x100 + sigma1 w13 + w8 + sigma0 w0); ⟨e, a⟩ ⇐ Round b c d e f g h a (u32 (0x14292967 + w15));
  w0 ⇐ u32 (w0 + (sigma1 w14 + w9 + sigma0 w1)); ⟨d, h⟩ ⇐ Round a b c d e f g h (u32 (0x27b70a85 + w0));
  w1 ⇐ u32 (w1 + (sigma1 w15 + w10 + sigma0 w2)); ⟨c, g⟩ ⇐ Round h a b c d e f g (u32 (0x2e1b2138 + w1));
  w2 ⇐ u32 (w2 + (sigma1 w0 + w11 + sigma0 w3)); ⟨b, f⟩ ⇐ Round g h a b c d e f (u32 (0x4d2c6dfc + w2));
  w3 ⇐ u32 (w3 + (sigma1 w1 + w12 + sigma0 w4)); ⟨a, e⟩ ⇐ Round f g h a b c d e (u32 (0x53380d13 + w3));
  w4 ⇐ u32 (w4 + (sigma1 w2 + w13 + sigma0 w5)); ⟨h, d⟩ ⇐ Round e f g h a b c d (u32 (0x650a7354 + w4));
  w5 ⇐ u32 (w5 + (sigma1 w3 + w14 + sigma0 w6)); ⟨g, c⟩ ⇐ Round d e f g h a b c (u32 (0x766a0abb + w5));
  w6 ⇐ u32 (w6 + (sigma1 w4 + w15 + sigma0 w7)); ⟨f, b⟩ ⇐ Round c d e f g h a b (u32 (0x81c2c92e + w6));
  w7 ⇐ u32 (w7 + (sigma1 w5 + w0 + sigma0 w8)); ⟨e, a⟩ ⇐ Round b c d e f g h a (u32 (0x92722c85 + w7));
  w8 ⇐ u32 (w8 + (sigma1 w6 + w1 + sigma0 w9)); ⟨d, h⟩ ⇐ Round a b c d e f g h (u32 (0xa2bfe8a1 + w8));
  w9 ⇐ u32 (w9 + (sigma1 w7 + w2 + sigma0 w10)); ⟨c, g⟩ ⇐ Round h a b c d e f g (u32 (0xa81a664b + w9));
  w10 ⇐ u32 (w10 + (sigma1 w8 + w3 + sigma0 w11)); ⟨b, f⟩ ⇐ Round g h a b c d e f (u32 (0xc24b8b70 + w10));
  w11 ⇐ u32 (w11 + (sigma1 w9 + w4 + sigma0 w12)); ⟨a, e⟩ ⇐ Round f g h a b c d e (u32 (0xc76c51a3 + w11));
  w12 ⇐ u32 (w12 + (sigma1 w10 + w5 + sigma0 w13)); ⟨h, d⟩ ⇐ Round e f g h a b c d (u32 (0xd192e819 + w12));
  w13 ⇐ u32 (w13 + (sigma1 w11 + w6 + sigma0 w14)); ⟨g, c⟩ ⇐ Round d e f g h a b c (u32 (0xd6990624 + w13));
  w14 ⇐ u32 (w14 + (sigma1 w12 + w7 + sigma0 w15)); ⟨f, b⟩ ⇐ Round c d e f g h a b (u32 (0xf40e3585 + w14));
  w15 ⇐ u32 (w15 + (sigma1 w13 + w8 + sigma0 w0)); ⟨e, a⟩ ⇐ Round b c d e f g h a (u32 (0x106aa070 + w15));
  w0 ⇐ u32 (w0 + (sigma1 w14 + w9 + sigma0 w1)); ⟨d, h⟩ ⇐ Round a b c d e f g h (u32 (0x19a4c116 + w0));
  w1 ⇐ u32 (w1 + (sigma1 w15 + w10 + sigma0 w2)); ⟨c, g⟩ ⇐ Round h a b c d e f g (u32 (0x1e376c08 + w1));
  w2 ⇐ u32 (w2 + (sigma1 w0 + w11 + sigma0 w3)); ⟨b, f⟩ ⇐ Round g h a b c d e f (u32 (0x2748774c + w2));
  w3 ⇐ u32 (w3 + (sigma1 w1 + w12 + sigma0 w4)); ⟨a, e⟩ ⇐ Round f g h a b c d e (u32 (0x34b0bcb5 + w3));
  w4 ⇐ u32 (w4 + (sigma1 w2 + w13 + sigma0 w5)); ⟨h, d⟩ ⇐ Round e f g h a b c d (u32 (0x391c0cb3 + w4));
  w5 ⇐ u32 (w5 + (sigma1 w3 + w14 + sigma0 w6)); ⟨g, c⟩ ⇐ Round d e f g h a b c (u32 (0x4ed8aa4a + w5));
  w6 ⇐ u32 (w6 + (sigma1 w4 + w15 + sigma0 w7)); ⟨f, b⟩ ⇐ Round c d e f g h a b (u32 (0x5b9cca4f + w6));
  w7 ⇐ u32 (w7 + (sigma1 w5 + w0 + sigma0 w8)); ⟨e, a⟩ ⇐ Round b c d e f g h a (u32 (0x682e6ff3 + w7));
  w8 ⇐ u32 (w8 + (sigma1 w6 + w1 + sigma0 w9)); ⟨d, h⟩ ⇐ Round a b c d e f g h (u32 (0x748f82ee + w8));
  w9 ⇐ u32 (w9 + (sigma1 w7 + w2 + sigma0 w10)); ⟨c, g⟩ ⇐ Round h a b c d e f g (u32 (0x78a5636f + w9));
  w10 ⇐ u32 (w10 + (sigma1 w8 + w3 + sigma0 w11)); ⟨b, f⟩ ⇐ Round g h a b c d e f (u32 (0x84c87814 + w10));
  w11 ⇐ u32 (w11 + (sigma1 w9 + w4 + sigma0 w12)); ⟨a, e⟩ ⇐ Round f g h a b c d e (u32 (0x8cc70208 + w11));
  w12 ⇐ u32 (w12 + (sigma1 w10 + w5 + sigma0 w13)); ⟨h, d⟩ ⇐ Round e f g h a b c d (u32 (0x90befffa + w12));
  w13 ⇐ u32 (w13 + (sigma1 w11 + w6 + sigma0 w14)); ⟨g, c⟩ ⇐ Round d e f g h a b c (u32 (0xa4506ceb + w13));
  ⟨f, b⟩ ⇐ Round c d e f g h a b (u32 (0xbef9a3f7 + u32 (w14 + sigma1 w12 + w7 + sigma0 w15)));
  ⟨e, a⟩ ⇐ Round b c d e f g h a (u32 (0xc67178f2 + u32 (w15 + sigma1 w13 + w8 + sigma0 w0)));
  WriteBE32 (u32 (a + 0x6a09e667)) ++ WriteBE32 (u32 (b + 0xbb67ae85)) ++ WriteBE32 (u32 (c + 0x3c6ef372)) ++
  WriteBE32 (u32 (d + 0xa54ff53a)) ++ WriteBE32 (u32 (e + 0x510e527f)) ++ WriteBE32 (u32 (f + 0x9b05688c)) ++
  WriteBE32 (u32 (g + 0x1f83d9ab)) ++ WriteBE32 (u32 (h + 0x5be0cd19)).

Close Scope stmt_scope.

Definition TransformD64 (p : list Z) : list Z := TransformD64_3 (TransformD64_2 (TransformD64_1 p)).

(** [TransformD64Wrapper]: the same from any one-block function [tr] *)
Definition padding1 : list Z := [0x80] ++ replicate 61 0 ++ [2; 0].
Definition buffer2_tail : list Z := [0x80] ++ replicate 29 0 ++ [1; 0].

Definition TransformD64Wrapper (tr : regs -> list Z -> nat -> regs) (p : list Z) : list Z :=
  let s := tr Initialize p 1%nat in
  let s := tr s padding1 1%nat in
  let buffer2 := regs_bytes WriteBE32 s ++ buffer2_tail in
  let s := tr Initialize buffer2 1%nat in
  regs_bytes WriteBE32 s.

(** ** The buffered object *)

Definition SHA256_code : BlockHash := block_hash 64 8 119 WriteBE64 (regs_bytes WriteBE32) Initialize Transform_block.

(** [s], [buf] and [bytes] *)
Abbreviation CSHA256 := (@hasher SHA256_code).

Definition CSHA256_new (junk : list Z) : CSHA256 := @Hasher SHA256_code Initialize junk 0.
Definition CSHA256_Reset (h : CSHA256) : CSHA256 := @Hasher SHA256_code Initialize (h_buf h) 0.

Definition CSHA256_Write (h : CSHA256) (data : list Z) : CSHA256 :=
  let bufsize := Z.to_nat (h_bytes h mod 64) in
  let '(s, buf, bytes, data, bufsize) :=
    if bool_decide (bufsize <> 0)%nat && bool_decide (64 <= bufsize + length data)%nat then
      let n := (64 - bufsize)%nat in
      let buf := memcpy (h_buf h) bufsize (take n data) in
      (Transform (h_s h) buf 1, buf, u64 (h_bytes h + Z.of_nat n), drop n data, O)
    else (h_s h : regs, h_buf h, h_bytes h, data, bufsize) in
  let '(s, bytes, data) :=
    if bool_decide (64 <= length data)%nat then
      let blocks := (length data / 64)%nat in
      (Transform s data blocks, u64 (bytes + 64 * Z.of_nat blocks), drop (64 * blocks) data)
    else (s, bytes, data) in
  if bool_decide (0 < length data)%nat then
    @Hasher SHA256_code s (memcpy buf bufsize data) (u64 (bytes + zlen data))
  else @Hasher SHA256_code s buf bytes.

(** [Finalize]: the object it leaves, and the hash *)
Definition CSHA256_finish (h : CSHA256) : CSHA256 :=
  let pad := [0x80] ++ replicate 63 0 in
  let sizedesc := WriteBE64 (u64 (Z.shiftl (h_bytes h) 3)) in
  let h := CSHA256_Write h (take (Z.to_nat (1 + (119 - h_bytes h mod 64) mod 64)) pad) in
  CSHA256_Write h sizedesc.

Definition CSHA256_Finalize (h : CSHA256) : list Z := regs_bytes WriteBE32 (h_s (CSHA256_finish h) : regs).

(** ** Many double hashes at once

    A vector version takes the pointer to its input and writes 32 bytes for each of
    the 64-byte blocks it reads; [None] is a null function pointer. *)

(** [while (blocks >= n) { way(out, in); out += 32 * n; in += 64 * n; blocks -= n; }] *)
Fixpoint way_loop (fuel n : nat) (way : list Z -> list Z) (out inp : list Z) (blocks : nat) : list Z * list Z * nat :=
  match fuel with
  | O => (out, inp, blocks)
  | S fuel =>
      if bool_decide (n <= blocks)%nat then
        way_loop fuel n way (out ++ way inp) (drop (64 * n) inp) (blocks - n)
      else (out, inp, blocks)
  end.

Definition SHA256D64 (way8 way4 way2 : option (list Z -> list Z)) (inp : list Z) (blocks : nat) : list Z :=
  let run n (way : option (list Z -> list Z)) '(out, inp, blocks) :=
    match way with
    | Some way => way_loop (S blocks) n way out inp blocks
    | None => (out, inp, blocks)
    end in
  (run 1%nat (Some TransformD64) (run 2%nat way2 (run 4%nat way4 (run 8%nat way8 ([], inp, blocks))))).1.1.

(** ** The self test *)

Definition str_bytes (s : string) : list Z :=
  map (fun c => Z.of_nat (Ascii.nat_of_ascii c)) (String.list_ascii_of_string s).

(** the test data, 513 bytes of the array of 641 *)
Definition selftest_data : list Z :=
  str_bytes "-" ++
   str_bytes "Lorem ipsum dolor sit amet, consectetur adipiscing elit, sed do " ++
   str_bytes "eiusmod tempor incididunt ut labore et dolore magna aliqua. Et m" ++
   str_bytes "olestie ac feugiat sed lectus vestibulum mattis ullamcorper. Mor" ++
   str_bytes "bi blandit cursus risus at ultrices mi tempus imperdiet nulla. N" ++
   str_bytes "unc congue nisi vita suscipit tellus mauris. Imperdiet proin fer" ++
   str_bytes "mentum leo vel orci. Massa tempor nec feugiat nisl pretium fusce" ++
   str_bytes " id velit. Telus in metus vulputate eu scelerisque felis. Mi tem" ++
   str_bytes "pus imperdiet nulla malesuada pellentesque. Tristique magna sit.".

Definition selftest_result : list regs :=
  [
   Regs 0x6a09e667 0xbb67ae85 0x3c6ef372 0xa54ff53a 0x510e527f 0x9b05688c 0x1f83d9ab 0x5be0cd19; 
   Regs 0x91f8ec6b 0x4da10fe3 0x1c9c292c 0x45e18185 0x435cc111 0x3ca26f09 0xeb954cae 0x402a7069; 
   Regs 0xcabea5ac 0x374fb97c 0x182ad996 0x7bd69cbf 0x450ff900 0xc1d2be8a 0x6a41d505 0xe6212dc3; 
   Regs 0xbcff09d6 0x3e76f36e 0x3ecb2501 0x78866e97 0xe1c1e2fd 0x32f4eaff 0x8aa6c4e5 0xdfc024bc; 
   Regs 0xa08c5d94 0x0a862f93 0x6b7f2f40 0x8f9fae76 0x6d40439f 0x79dcee0c 0x3e39ff3a 0xdc3bdbb1; 
   Regs 0x216a0895 0x9f1a3662 0xe99946f9 0x87ba4364 0x0fb5db2c 0x12bed3d3 0x6689c0c7 0x292f1b04; 
   Regs 0xca3067f8 0xbc8c2656 0x37cb7e0d 0x9b6b8b0f 0x46dc380b 0xf1287f57 0xc42e4b23 0x3fefe94d; 
   Regs 0x3e4c4039 0xbb6fca8c 0x6f27d2f7 0x301e44a4 0x8352ba14 0x5769ce37 0x48a1155f 0xc0e1c4c6; 
   Regs 0xfe2fa9dd 0x69d0862b 0x1ae0db23 0x471f9244 0xf55c0145 0xc30f9c3b 0x40a84ea0 0x5b8a266c].

Definition selftest_d64 : list Z :=
  [
   0x09; 0x3a; 0xc4; 0xd0; 0x0f; 0xf7; 0x57; 0xe1; 0x72; 0x85; 0x79; 0x42; 0xfe; 0xe7; 0xe0; 0xa0; 
   0xfc; 0x52; 0xd7; 0xdb; 0x07; 0x63; 0x45; 0xfb; 0x53; 0x14; 0x7d; 0x17; 0x22; 0x86; 0xf0; 0x52; 
   0x48; 0xb6; 0x11; 0x9e; 0x6e; 0x48; 0x81; 0x6d; 0xcc; 0x57; 0x1f; 0xb2; 0x97; 0xa8; 0xd5; 0x25; 
   0x9b; 0x82; 0xaa; 0x89; 0xe2; 0xfd; 0x2d; 0x56; 0xe8; 0x28; 0x83; 0x0b; 0xe2; 0xfa; 0x53; 0xb7; 
   0xd6; 0x6b; 0x07; 0x85; 0x83; 0xb0; 0x10; 0xa2; 0xf5; 0x51; 0x3c; 0xf9; 0x60; 0x03; 0xab; 0x45; 
   0x6c; 0x15; 0x6e; 0xef; 0xb5; 0xac; 0x3e; 0x6c; 0xdf; 0xb4; 0x92; 0x22; 0x2d; 0xce; 0xbf; 0x3e; 
   0xe9; 0xe5; 0xf6; 0x29; 0x0e; 0x01; 0x4f; 0xd2; 0xd4; 0x45; 0x65; 0xb3; 0xbb; 0xf2; 0x4c; 0x16; 
   0x37; 0x50; 0x3c; 0x6e; 0x49; 0x8c; 0x5a; 0x89; 0x2b; 0x1b; 0xab; 0xc4; 0x37; 0xd1; 0x46; 0xe9; 
   0x3d; 0x0e; 0x85; 0xa2; 0x50; 0x73; 0xa1; 0x5e; 0x54; 0x37; 0xd7; 0x94; 0x17; 0x56; 0xc2; 0xd8; 
   0xe5; 0x9f; 0xed; 0x4e; 0xae; 0x15; 0x42; 0x06; 0x0d; 0x74; 0x74; 0x5e; 0x24; 0x30; 0xce; 0xd1; 
   0x9e; 0x50; 0xa3; 0x9a; 0xb8; 0xf0; 0x4a; 0x57; 0x69; 0x78; 0x67; 0x12; 0x84; 0x58; 0xbe; 0xc7; 
   0x36; 0xaa; 0xee; 0x7c; 0x64; 0xa3; 0x76; 0xec; 0xff; 0x55; 0x41; 0x00; 0x2a; 0x44; 0x68; 0x4d; 
   0xb6; 0x53; 0x9e; 0x1c; 0x95; 0xb7; 0xca; 0xdc; 0x7f; 0x7d; 0x74; 0x27; 0x5c; 0x8e; 0xa6; 0x84; 
   0xb5; 0xac; 0x87; 0xa9; 0xf3; 0xff; 0x75; 0xf2; 0x34; 0xcd; 0x1a; 0x3b; 0x82; 0x2c; 0x2b; 0x4e; 
   0x6a; 0x46; 0x30; 0xa6; 0x89; 0x86; 0x23; 0xac; 0xf8; 0xa5; 0x15; 0xe9; 0x0a; 0xaa; 0x1e; 0x9a; 
   0xd7; 0x93; 0x6b; 0x28; 0xe4; 0x3b; 0xfd; 0x59; 0xc6; 0xed; 0x7c; 0x5f; 0xa5; 0x41; 0xcb; 0x51].

Definition regs_eqb (x y : regs) : bool :=
  let '(Regs a b c d e f g h) := x in
  let '(Regs a' b' c' d' e' f' g' h') := y in
  (a =? a') && (b =? b') && (c =? c') && (d =? d') && (e =? e') && (f =? f') && (g =? g') && (h =? h').

Definition SelfTest (way8 way4 way2 : option (list Z -> list Z)) : bool :=
  let data1 := drop 1 selftest_data in
  let test n (way : option (list Z -> list Z)) :=
    match way with
    | Some way => bool_decide (way data1 = take (32 * n) selftest_d64)
    | None => true
    end in
  forallb (fun i => regs_eqb (Transform Initialize data1 i) (nth i selftest_result Initialize)) (seq 0 9) &&
  test 1%nat (Some TransformD64) && test 2%nat way2 && test 4%nat way4 && test 8%nat way8.

(** ** The reference at 32 bits *)

Definition SHA256_K : list Z := map (root_fraction 3 32) (first_primes 64).
Definition SHA256_H0 : regs := regs_of (map (root_fraction 2 32) (first_primes 8)).

Definition SHA256_compress : regs -> list Z -> regs :=
  compress_ref 32 (rot3 32 2 13 22) (rot3 32 6 11 25) (rot2 32 7 18 3) (rot2 32 17 19 10) SHA256_K.

(** FIPS 180-4, section 6.2: pad, and fold the compression function over the blocks *)
Definition SHA256_spec : BlockHash :=
  block_hash 64 8 119 WriteBE64 (regs_bytes WriteBE32) SHA256_H0 (fun s chunk => SHA256_compress s (be_words chunk)).

Definition SHA256_ref (m : list Z) : list Z := @merkle_damgard SHA256_spec m.

#[local] Existing Instance SHA256_spec.

(** ** [Transform] *)

Lemma Ch_eq x y z : Ch_ref x y z = Ch x y z.
Proof. apply Ch_ref_xor. Qed.
Lemma Maj_eq x y z : Maj_ref x y z = Maj x y z.
Proof. apply Maj_ref_or. Qed.

Abbreviation round256 := (round_ref 32 (rot3 32 2 13 22) (rot3 32 6 11 25)).
Abbreviation run256 := (run (next_word 32 (rot2 32 7 18 3) (rot2 32 17 19 10)) (round_ref 32 (rot3 32 2 13 22) (rot3 32 6 11 25))).

Lemma u32_add_r x y : u32 (x + u32 y) = u32 (x + y).
Proof. unfold u32. rewrite Z.add_mod_idemp_r; lia. Qed.

Lemma Sigma0_eq x : rot3 32 2 13 22 x = Sigma0 x.
Proof. reflexivity. Qed.
Lemma Sigma1_eq x : rot3 32 6 11 25 x = Sigma1 x.
Proof. reflexivity. Qed.
Lemma sigma0_eq x : rot2 32 7 18 3 x = sigma0 x.
Proof. reflexivity. Qed.
Lemma sigma1_eq x : rot2 32 17 19 10 x = sigma1 x.
Proof. reflexivity. Qed.

Lemma round_code a b c d e f g h k x : round256 (Regs a b c d e f g h) (k, x) =
  assign2 (Round a b c d e f g h (u32 (k + x))) (fun d h => Regs h a b c d e f g).
Proof.
  unfold round_ref, assign2, Round. cbn [fst snd].
  by rewrite Ch_eq, Maj_eq, Sigma0_eq, Sigma1_eq, (u32_add_r _ (k + x)), Z.add_assoc.
Qed.

(** Each line of the unrolled code against one round of the reference; [F] is
    what comes after the rounds, [C] the lines that follow.  First a round on a word
    that is given, *)
Lemma load_line {A} (F : regs -> A) a b c d e f g h k x l C :
  (forall d' h', C x d' h' = F (foldl round256 (Regs h' a b c d' e f g) l)) ->
  assign x (fun x => assign2 (Round a b c d e f g h (u32 (k + x))) (C x)) =
  F (foldl round256 (Regs a b c d e f g h) ((k, x) :: l)).
Proof. intros H. cbn [foldl]. rewrite round_code. apply H. Qed.

(** one whose sum with the constant the code has at hand, *)
Lemma const_line {A} (F : regs -> A) a b c d e f g h k x kx l C : kx = u32 (k + x) ->
  (forall d' h', C d' h' = F (foldl round256 (Regs h' a b c d' e f g) l)) ->
  assign2 (Round a b c d e f g h kx) C = F (foldl round256 (Regs a b c d e f g h) ((k, x) :: l)).
Proof. intros -> H. cbn [foldl]. rewrite round_code. apply H. Qed.

(** and one on a word of the schedule, which replaces the oldest *)
Lemma run_line {A} (F : regs -> A) k ks a b c d e f g h v0 v1 v2 v3 v4 v5 v6 v7 v8 v9 v10 v11 v12 v13 v14 v15 y C :
  y = u32 (v0 + (sigma1 v14 + v9 + sigma0 v1)) ->
  (forall x d' h', C x d' h' =
    F (run256 ks [v1; v2; v3; v4; v5; v6; v7; v8; v9; v10; v11; v12; v13; v14; v15; x] (Regs h' a b c d' e f g))) ->
  assign y (fun x => assign2 (Round a b c d e f g h (u32 (k + x))) (C x)) =
  F (run256 (k :: ks) [v0; v1; v2; v3; v4; v5; v6; v7; v8; v9; v10; v11; v12; v13; v14; v15] (Regs a b c d e f g h)).
Proof.
  intros -> H. cbn [run tail app]. unfold assign. rewrite round_code.
  replace (next_word _ _ _ _) with (u32 (v0 + (sigma1 v14 + v9 + sigma0 v1))); [apply H|].
  rewrite Z.add_comm. reflexivity.
Qed.

(** the last words are not kept *)
Lemma last_line {A} (F : regs -> A) k ks a b c d e f g h v0 v1 v2 v3 v4 v5 v6 v7 v8 v9 v10 v11 v12 v13 v14 v15 y C :
  y = u32 (v0 + (sigma1 v14 + v9 + sigma0 v1)) ->
  (forall x d' h', C d' h' =
    F (run256 ks [v1; v2; v3; v4; v5; v6; v7; v8; v9; v10; v11; v12; v13; v14; v15; x] (Regs h' a b c d' e f g))) ->
  assign2 (Round a b c d e f g h (u32 (k + y))) C =
  F (run256 (k :: ks) [v0; v1; v2; v3; v4; v5; v6; v7; v8; v9; v10; v11; v12; v13; v14; v15] (Regs a b c d e f g h)).
Proof. intros E H. exact (run_line F k ks a b c d e f g h _ _ _ _ _ _ _ _ _ _ _ _ _ _ _ _ y (fun _ => C) E H). Qed.

(** the constants, computed once *)
Definition SHA256_K_values : list Z := Eval vm_compute in SHA256_K.

Lemma SHA256_K_table : SHA256_K = SHA256_K_values.
Proof. vm_cast_no_check (eq_refl SHA256_K). Qed.

Lemma SHA256_H0_table : SHA256_H0 = Initialize.
Proof. vm_cast_no_check (eq_refl Initialize). Qed.

(** the rounds of a block, as the code has them *)
Lemma SHA256_compress_split s chunk : SHA256_compress s (be_words chunk) =
  add_regs 32 s (run256 (drop 16 SHA256_K) (be_words chunk) (foldl round256 s (zip (take 16 SHA256_K) (be_words chunk)))).
Proof. apply compress_split; [done|]. rewrite SHA256_K_table. cbn. lia. Qed.

(** the words of the block become variables *)
Ltac name_words chunk := repeat match goal with
  |- context [ReadBE32 (drop ?n chunk)] => generalize (ReadBE32 (drop n chunk)); intros ? end.

(** the lines of a block whose sixteen words are variables *)
Ltac block_lines F :=
  match goal with |- _ = F (run _ _ ?ks ?ws (foldl _ ?st ?l)) =>
    let G := fresh "G" in set (G := fun r => F (run256 ks ws r));
    change (F (run256 ks ws (foldl round256 st l))) with (G (foldl round256 st l));
    do 16 (apply (load_line G); intros ? ?); subst G; cbn [foldl]; cbv beta
  end;
  do 46 (apply (run_line F); [reflexivity | intros ? ? ?]);
  do 2 (apply (last_line F); [f_equal; lia | intros ? ? ?]);
  reflexivity.

Lemma Transform_block_correct s chunk : Transform_block s chunk = SHA256_compress s (be_words chunk).
Proof.
  rewrite SHA256_compress_split, SHA256_K_table. unfold SHA256_K_values, be_words. cbn [map seq Nat.mul Nat.add].
  cbn [take drop zip zip_with]. unfold Transform_block. cbn [take drop].
  set (F := add_regs 32 s). destruct s as [a b c d e f g h]. name_words chunk. block_lines F.
Qed.

Lemma TransformD64_1_correct p : TransformD64_1 p = SHA256_compress Initialize (be_words p).
Proof.
  rewrite SHA256_compress_split, SHA256_K_table. unfold SHA256_K_values, be_words. cbn [map seq Nat.mul Nat.add].
  cbn [take drop zip zip_with]. unfold TransformD64_1. rewrite add_regs_comm.
  set (F := fun r => add_regs 32 r Initialize). change (add_regs 32 ?r Initialize) with (F r).
  unfold Initialize. name_words p. block_lines F.
Qed.

(** ** [TransformD64] *)

(** the block that pads a message of 64 bytes, and the words that pad a digest *)
Definition pad_block64 : list Z := [0x80000000; 0; 0; 0; 0; 0; 0; 0; 0; 0; 0; 0; 0; 0; 0; 0x200].
Definition pad_words32 : list Z := [0x80000000; 0; 0; 0; 0; 0; 0; 0x100].

(** the constants of the middle part are [K_t + W_t] for the padding block *)
Lemma TransformD64_2_correct t : TransformD64_2 t = SHA256_compress t pad_block64.
Proof.
  unfold SHA256_compress, compress_ref.
  replace (zip SHA256_K _) with (zip SHA256_K (schedule (next_word 32 (rot2 32 7 18 3) (rot2 32 17 19 10)) 48 pad_block64))
    by (by rewrite SHA256_K_table).
  let l := eval vm_compute in (zip SHA256_K (schedule (next_word 32 (rot2 32 7 18 3) (rot2 32 17 19 10)) 48 pad_block64)) in
    replace (zip SHA256_K _) with l by (vm_cast_no_check (eq_refl l)).
  unfold TransformD64_2. set (F := add_regs 32 t). destruct t as [a b c d e f g h].
  do 64 (apply (const_line F); [reflexivity | intros ? ?]). reflexivity.
Qed.

(** the schedule functions at the words of the padding *)
Ltac fixed_words := change (sigma0 0) with 0; change (sigma1 0) with 0; change (sigma0 0x80000000) with 0x11002000;
  change (sigma1 0x100) with 0xa00000; change (sigma0 0x100) with 0x400022.

Lemma TransformD64_3_correct t : TransformD64_3 t =
  regs_bytes WriteBE32 (SHA256_compress Initialize (regs_list t ++ pad_words32)).
Proof.
  destruct t as [w0 w1 w2 w3 w4 w5 w6 w7]. unfold SHA256_compress.
  rewrite compress_split by (done || (rewrite SHA256_K_table; cbn; lia)). rewrite SHA256_K_table, add_regs_comm. unfold SHA256_K_values.
  cbn [regs_list app pad_words32 take drop zip zip_with]. unfold TransformD64_3.
  set (F := fun r => regs_bytes WriteBE32 (add_regs 32 r Initialize)).
  change (regs_bytes WriteBE32 (add_regs 32 ?r Initialize)) with (F r). unfold Initialize.
  match goal with |- _ = F (run _ _ ?ks ?ws (foldl _ ?st ?l)) =>
    set (G := fun r => F (run256 ks ws r));
    change (F (run256 ks ws (foldl round256 st l))) with (G (foldl round256 st l))
  end.
  do 16 (apply (const_line G); [reflexivity | intros ? ?]). subst G. cbn [foldl]. cbv beta.
  do 16 (apply (run_line F); [f_equal; fixed_words; lia | intros ? ? ?]).
  do 30 (apply (run_line F); [reflexivity | intros ? ? ?]).
  do 2 (apply (last_line F); [f_equal; lia | intros ? ? ?]). reflexivity.
Qed.

(** ** The whole hash *)

Lemma padded_64 p : length p = 64%nat -> padded p = p ++ [0x80] ++ replicate 55 0 ++ WriteBE64 512.
Proof. intros H. unfold padded. by rewrite H. Qed.

Lemma padded_32 d : length d = 32%nat -> padded d = d ++ [0x80] ++ replicate 23 0 ++ WriteBE64 256.
Proof. intros H. unfold padded. by rewrite H. Qed.

Lemma be_words_app p l : length p = 64%nat -> be_words (p ++ l) = be_words p.
Proof.
  intros H. unfold be_words. apply map_ext_in. intros i Hi. apply in_seq in Hi. unfold ReadBE32. f_equal.
  rewrite drop_app_le, take_app_le by (rewrite ?length_drop; lia). done.
Qed.

Lemma SHA256_ref_64 p : length p = 64%nat ->
  SHA256_ref p = regs_bytes WriteBE32 (SHA256_compress (SHA256_compress Initialize (be_words p)) pad_block64).
Proof.
  intros H. unfold SHA256_ref, merkle_damgard. rewrite padded_64 by done.
  replace (length _ / block_size)%nat with 2%nat.
  2:{ rewrite !length_app, H. reflexivity. }
  cbn [absorb Hashing.Initialize Hashing.Transform SHA256_spec block_hash block_size digest]. rewrite SHA256_H0_table.
  rewrite take_app_length', drop_app_length' by done. reflexivity.
Qed.

Lemma read_write_BE32 x : is_u32 x -> be_val (be_bytes 4 x) = x.
Proof.
  intros H. unfold be_val, be_bytes. rewrite rev_involutive, le_val_le_bytes. apply Z.mod_small. exact H.
Qed.

Definition regs_u32 (r : regs) : Prop := Forall is_u32 (regs_list r).

Lemma add_regs_u32 x y : regs_u32 (add_regs 32 x y).
Proof. destruct x, y. unfold regs_u32. cbn [add_regs regs_list]. repeat constructor; apply u32_range. Qed.

Lemma SHA256_compress_u32 s M : regs_u32 (SHA256_compress s M).
Proof. apply add_regs_u32. Qed.

Lemma be_words_digest r l : regs_u32 r -> length l = 32%nat ->
  be_words (regs_bytes WriteBE32 r ++ l) = regs_list r ++ map (fun i => ReadBE32 (drop (4 * i) l)) (seq 0 8).
Proof.
  intros Hr Hl. destruct r as [a b c d e f g h]. unfold regs_u32 in Hr. cbn [regs_list] in Hr.
  unfold be_words. rewrite (seq_app 8 8), map_app. f_equal.
  repeat (apply Forall_cons in Hr as [? Hr]).
  transitivity (map (fun x => be_val (be_bytes 4 x)) [a; b; c; d; e; f; g; h]); [reflexivity|].
  cbn [map]. by rewrite !read_write_BE32 by done.
Qed.

Lemma SHA256_ref_digest r : regs_u32 r ->
  SHA256_ref (regs_bytes WriteBE32 r) = regs_bytes WriteBE32 (SHA256_compress Initialize (regs_list r ++ pad_words32)).
Proof.
  intros Hr. assert (Hl : length (regs_bytes WriteBE32 r) = 32%nat) by (by destruct r).
  unfold SHA256_ref, merkle_damgard. rewrite padded_32 by done.
  replace (length _ / block_size)%nat with 1%nat by (rewrite !length_app, Hl; reflexivity).
  cbn [absorb Hashing.Initialize Hashing.Transform SHA256_spec block_hash block_size digest].
  rewrite SHA256_H0_table, take_ge by (rewrite !length_app, Hl; cbn; lia).
  rewrite be_words_digest by done. reflexivity.
Qed.

(** the unrolled double hash is the hash of the hash *)
Lemma TransformD64_correct p : length p = 64%nat -> TransformD64 p = SHA256_ref (SHA256_ref p).
Proof.
  intros H. rewrite (SHA256_ref_64 p H), SHA256_ref_digest by apply SHA256_compress_u32.
  unfold TransformD64. rewrite TransformD64_3_correct, TransformD64_2_correct, TransformD64_1_correct. reflexivity.
Qed.

(** ** The buffered object *)

#[local] Opaque Transform_block SHA256_compress SHA256_H0.

#[global] Instance SHA256_code_laws : BlockHashLaws SHA256_code.
Proof.
  apply block_hash_laws; [exists 6%nat; split; [lia | done] | lia | done | reflexivity].
Qed.

Lemma be_words_take l : (64 <= length l)%nat -> be_words (take 64 l) = be_words l.
Proof. intros H. rewrite <- (take_drop 64 l) at 2. rewrite be_words_app; [done | rewrite length_take; lia]. Qed.

Lemma Transform_absorb n : forall s l, (64 * n <= length l)%nat -> Transform s l n = @absorb SHA256_code n s l.
Proof.
  induction n as [|n IH]; intros s l H; [done|]. cbn [Transform absorb Hashing.Transform SHA256_code block_hash block_size].
  rewrite (Transform_block_correct s l), (Transform_block_correct s (take 64 l)), be_words_take by lia. apply IH. rewrite length_drop. lia.
Qed.

Lemma blocks_at_once s b data :
  (if bool_decide (64 <= length data)%nat then
     (Transform s data (length data / 64), u64 (u64 b + 64 * Z.of_nat (length data / 64)), drop (64 * (length data / 64)) data)
   else (s, u64 b, data)) = @write_chunks SHA256_code (length data) s (u64 b) data.
Proof.
  rewrite (@write_chunks_absorb SHA256_code _ (length data) s b data) by lia. case_bool_decide as E.
  - rewrite Transform_absorb by (pose proof (Nat.Div0.mul_div_le (length data) 64); lia).
    rewrite u64_add_l. unfold rest, whole. cbn [block_size SHA256_code block_hash].
    rewrite (Nat.mul_comm (_ / 64)). f_equal. f_equal. f_equal. lia.
  - destruct (@whole_lt SHA256_code data) as [-> ->]; [cbn; lia|]. cbn [Nat.mul absorb]. by rewrite Z.add_0_r.
Qed.

Ltac rewrite_blocks := match goal with |- match ?X with _ => _ end = match ?Y with _ => _ end =>
  assert (X = Y) as -> by apply blocks_at_once end.

(** handing all whole blocks to [Transform] at once is the loop of the other classes *)
Lemma CSHA256_Write_eq h m d : @holds SHA256_code h m -> CSHA256_Write h d = @Write SHA256_code h d.
Proof.
  intros (_ & Hbuf & _ & Hb). unfold CSHA256_Write, Write. cbn [block_size SHA256_code block_hash] in *. change (Z.of_nat 64) with 64.
  rewrite Hb. set (k := Z.to_nat _). assert (Hk : (k < 64)%nat).
  { subst k. pose proof (Z.mod_pos_bound (u64 (zlen m)) 64). lia. }
  destruct (bool_decide _ && bool_decide _) eqn:E.
  - apply andb_true_iff in E as [_ E]. apply bool_decide_eq_true in E.
    rewrite (Transform_absorb 1) by (rewrite memcpy_length, Hbuf by (rewrite length_take, Hbuf; lia); lia).
    cbn [absorb Hashing.Transform SHA256_code block_hash block_size].
    rewrite take_ge by (rewrite memcpy_length, Hbuf by (rewrite length_take, Hbuf; lia); lia).
    cbv zeta. by rewrite_blocks.
  - cbv zeta. by rewrite_blocks.
Qed.

Lemma CSHA256_Write_holds h m d : @holds SHA256_code h m -> @holds SHA256_code (CSHA256_Write h d) (m ++ d).
Proof. intros H. rewrite (CSHA256_Write_eq h m d H). by apply write_holds. Qed.

Lemma CSHA256_finish_eq h m : @holds SHA256_code h m -> CSHA256_finish h = @Finalize_state SHA256_code h.
Proof.
  intros H. unfold CSHA256_finish, Finalize_state. cbn [block_size SHA256_code block_hash pad_base sizedesc digest].
  change (Z.of_nat 64) with 64. change (Z.of_nat 119) with 119.
  rewrite (CSHA256_Write_eq _ _ _ (CSHA256_Write_holds _ _ _ H)). by rewrite (CSHA256_Write_eq _ _ _ H).
Qed.

Lemma CSHA256_Finalize_correct h m : @holds SHA256_code h m -> CSHA256_Finalize h = SHA256_ref m.
Proof.
  intros H. transitivity (@Finalize SHA256_code h).
  - unfold CSHA256_Finalize, Finalize. by rewrite (CSHA256_finish_eq h m H).
  - rewrite (@finalize_correct SHA256_code _ h m H). apply merkle_damgard_ext; [|apply Transform_block_correct].
    symmetry. apply SHA256_H0_table.
Qed.

(** [Reset] after [Finalize] starts afresh *)
Lemma CSHA256_reset_holds h m : @holds SHA256_code h m -> @holds SHA256_code (CSHA256_Reset (CSHA256_finish h)) [].
Proof.
  intros H. rewrite (CSHA256_finish_eq h m H).
  apply (@reset_holds SHA256_code (@Finalize_state SHA256_code h) (@padded SHA256_code m)).
  exact (@finalize_state_holds SHA256_code SHA256_code_laws h m H).
Qed.

Lemma CSHA256_writes_hold parts : forall h m, @holds SHA256_code h m ->
  @holds SHA256_code (fold_left CSHA256_Write parts h) (m ++ concat parts).
Proof.
  induction parts as [|d parts IH]; intros h m H; cbn; [by rewrite app_nil_r|].
  rewrite app_assoc. by apply IH, CSHA256_Write_holds.
Qed.

Lemma SHA256_streaming junk parts : length junk = 64%nat ->
  CSHA256_Finalize (fold_left CSHA256_Write parts (CSHA256_new junk)) = SHA256_ref (concat parts).
Proof.
  intros H. apply CSHA256_Finalize_correct, (CSHA256_writes_hold parts _ []). by apply (@construct_holds SHA256_code).
Qed.

(** ** Many double hashes at once *)

Lemma TransformD64_ref p : (64 <= length p)%nat -> TransformD64 p = SHA256_ref (SHA256_ref (take 64 p)).
Proof.
  intros H. rewrite <- TransformD64_correct by (rewrite length_take; lia).
  unfold TransformD64. rewrite (TransformD64_1_correct p), (TransformD64_1_correct (take 64 p)), be_words_take by done. reflexivity.
Qed.

(** the double hashes of the first [n] blocks *)
Fixpoint d64_ref (n : nat) (inp : list Z) : list Z :=
  match n with
  | O => []
  | S n => SHA256_ref (SHA256_ref (take 64 inp)) ++ d64_ref n (drop 64 inp)
  end.

(** what a vector version of width [n] promises *)
Definition way_ok (n : nat) (way : list Z -> list Z) : Prop :=
  forall inp, (64 * n <= length inp)%nat -> way inp = d64_ref n inp.
Definition opt_way_ok (n : nat) (way : option (list Z -> list Z)) : Prop :=
  match way with Some way => way_ok n way | None => True end.

Lemma d64_ref_app n : forall k inp, d64_ref (n + k) inp = d64_ref n inp ++ d64_ref k (drop (64 * n) inp).
Proof.
  induction n as [|n IH]; intros k inp; [done|]. cbn [Nat.add d64_ref]. rewrite IH, <- app_assoc, drop_drop.
  do 4 f_equal. lia.
Qed.

Lemma TransformD64_way : way_ok 1 TransformD64.
Proof. intros inp H. cbn [d64_ref]. rewrite app_nil_r. apply TransformD64_ref. lia. Qed.

(** the state of the loops: what is written, what is left to read *)
Definition d64_done (inp : list Z) (blocks : nat) (st : list Z * list Z * nat) : Prop :=
  exists k, (k <= blocks)%nat /\ st = (d64_ref k inp, drop (64 * k) inp, (blocks - k)%nat).

Lemma way_loop_done n way inp blocks : (0 < n)%nat -> way_ok n way -> (64 * blocks <= length inp)%nat ->
  forall fuel out inp' b, d64_done inp blocks (out, inp', b) -> (b < fuel)%nat ->
  d64_done inp blocks (way_loop fuel n way out inp' b) /\ ((way_loop fuel n way out inp' b).2 < n)%nat.
Proof.
  intros Hn Hway Hl. induction fuel as [|fuel IH]; intros out inp' b (k & Hk & E) Hf; [lia|].
  injection E as -> -> ->. cbn [way_loop]. case_bool_decide as Hc.
  - apply IH; [|lia]. exists (k + n)%nat. split; [lia|].
    rewrite Hway by (rewrite length_drop; lia). rewrite d64_ref_app, drop_drop.
    f_equal; [f_equal; f_equal; lia | lia].
  - split; [by exists k | cbn; lia].
Qed.

Lemma opt_way_done n way inp blocks st : (0 < n)%nat -> opt_way_ok n way -> (64 * blocks <= length inp)%nat ->
  d64_done inp blocks st -> d64_done inp blocks
    (let '(out, inp, blocks) := st in
     match way with Some way => way_loop (S blocks) n way out inp blocks | None => (out, inp, blocks) end).
Proof.
  intros Hn Hw Hl Hd. destruct st as [[out inp'] b]. destruct way as [way|]; [|done].
  by apply (way_loop_done n way inp blocks Hn Hw Hl); [|lia].
Qed.

Lemma d64_batch way8 way4 way2 inp blocks :
  opt_way_ok 8 way8 -> opt_way_ok 4 way4 -> opt_way_ok 2 way2 -> (64 * blocks <= length inp)%nat ->
  SHA256D64 way8 way4 way2 inp blocks = d64_ref blocks inp.
Proof.
  intros H8 H4 H2 Hl. unfold SHA256D64.
  assert (H : d64_done inp blocks ([], inp, blocks)) by (exists O; split; [lia|]; f_equal; lia).
  apply (opt_way_done 8 way8 inp blocks _ ltac:(lia) H8 Hl) in H.
  apply (opt_way_done 4 way4 inp blocks _ ltac:(lia) H4 Hl) in H.
  apply (opt_way_done 2 way2 inp blocks _ ltac:(lia) H2 Hl) in H.
  match goal with |- ((match ?X with _ => _ end).1).1 = _ => change (d64_done inp blocks X) in H; destruct X as [[out inp'] b] end.
  destruct (way_loop_done 1 TransformD64 inp blocks ltac:(lia) TransformD64_way Hl (S b) out inp' b H ltac:(lia))
    as ((k & Hk & E) & Hlt). rewrite E in *. cbn [fst snd] in *. f_equal. lia.
Qed.

(** [TransformD64Wrapper] computes the same from any correct one-block function *)
Lemma TransformD64Wrapper_correct tr p : (forall s chunk, (64 <= length chunk)%nat -> tr s chunk 1%nat = Transform_block s chunk) ->
  length p = 64%nat -> TransformD64Wrapper tr p = TransformD64 p.
Proof.
  intros Htr Hp. rewrite TransformD64_correct, (SHA256_ref_64 p), SHA256_ref_digest by (done || apply SHA256_compress_u32).
  unfold TransformD64Wrapper. rewrite (Htr Initialize p), (Htr _ padding1) by (rewrite ?Hp; cbn; lia).
  rewrite Htr.
  2:{ rewrite length_app. destruct (Transform_block _ _). cbn. lia. }
  do 3 rewrite Transform_block_correct. change (be_words padding1) with pad_block64.
  rewrite be_words_digest by (done || apply SHA256_compress_u32). reflexivity.
Qed.

(** the assertion of [SHA256AutoDetect] holds when no vector version is selected *)
Lemma SelfTest_passes : SelfTest None None None = true.
Proof. vm_cast_no_check (eq_refl true). Qed.

(** the vector "abc" of the standard *)
Example SHA256_abc : SHA256_ref (str_bytes "abc") =
  [0xba; 0x78; 0x16; 0xbf; 0x8f; 0x01; 0xcf; 0xea; 0x41; 0x41; 0x40; 0xde; 0x5d; 0xae; 0x22; 0x23;
   0xb0; 0x03; 0x61; 0xa3; 0x96; 0x17; 0x7a; 0x9c; 0xb4; 0x10; 0xff; 0x61; 0xf2; 0x00; 0x15; 0xad].
Proof. vm_cast_no_check (eq_refl (SHA256_ref (str_bytes "abc"))). Qed.
