(* ===== verification/Siphash.v ===== *)
(** * Keyed and seeded hashes

    [MurmurHash3] and SipHash-2-4 of [hash.cpp], with the two specialised versions
    [SipHashUint256] and [SipHashUint256Extra] that hash tables and compact blocks
    use.  [siphash_ref] is the definition of its authors: the message cut into
    64-bit words, the last of which carries the length.  The object computes it one
    byte or one word at a time, and the specialised versions compute it without an
    object. *)

From S2P Require Import Prelude ScriptNum Serialize Hashing.
Open Scope Z_scope.

Local Infix ".^" := Z.lxor (at level 46, left associativity).
Local Infix ".|" := Z.lor (at level 47, left associativity).
Local Infix ".>>" := Z.shiftr (at level 42).

(** ** [MurmurHash3] *)

Definition ROTL32 (x r : Z) : Z := u32 (Z.shiftl x r) .| x .>> (32 - r).

Definition murmur_c1 : Z := 0xcc9e2d51.
Definition murmur_c2 : Z := 0x1b873593.

Definition murmur_block (blocks : list Z) (i : nat) (h1 : Z) : Z :=
  let k1 := ReadLE32 (drop (i * 4) blocks) in
  let k1 := u32 (k1 * murmur_c1) in
  let k1 := ROTL32 k1 15 in
  let k1 := u32 (k1 * murmur_c2) in
  let h1 := h1 .^ k1 in
  let h1 := ROTL32 h1 13 in
  u32 (h1 * 5 + 0xe6546b64).

(** the [switch] falls through from 3 to 2 to 1 *)
Definition murmur_tail (size : nat) (tail : list Z) (h1 : Z) : Z :=
  let c := Z.land (Z.of_nat size) 3 in
  let k1 := 0 in
  let k1 := if 3 <=? c then k1 .^ Z.shiftl (tail !!! 2%nat) 16 else k1 in
  let k1 := if 2 <=? c then k1 .^ Z.shiftl (tail !!! 1%nat) 8 else k1 in
  if 1 <=? c then
    let k1 := k1 .^ (tail !!! 0%nat) in
    let k1 := u32 (k1 * murmur_c1) in
    let k1 := ROTL32 k1 15 in
    let k1 := u32 (k1 * murmur_c2) in
    h1 .^ k1
  else h1.

Definition MurmurHash3 (nHashSeed : Z) (vDataToHash : list Z) : Z :=
  let size := length vDataToHash in
  let nblocks := (size / 4)%nat in
  let h1 := for_loop nblocks (murmur_block vDataToHash) nHashSeed in
  let h1 := murmur_tail size (drop (nblocks * 4) vDataToHash) h1 in
  let h1 := h1 .^ u32 (Z.of_nat size) in
  let h1 := h1 .^ (h1 .>> 16) in
  let h1 := u32 (h1 * 0x85ebca6b) in
  let h1 := h1 .^ (h1 .>> 13) in
  let h1 := u32 (h1 * 0xc2b2ae35) in
  h1 .^ (h1 .>> 16).

(** ** SipHash *)

Definition ROTL64 (x b : Z) : Z := u64 (Z.shiftl x b) .| x .>> (64 - b).

(** the four words of the state *)
Inductive sipv := V (v0 v1 v2 v3 : Z).

Definition SIPROUND (v : sipv) : sipv :=
  let '(V v0 v1 v2 v3) := v in
  let v0 := u64 (v0 + v1) in let v1 := ROTL64 v1 13 in let v1 := v1 .^ v0 in
  let v0 := ROTL64 v0 32 in
  let v2 := u64 (v2 + v3) in let v3 := ROTL64 v3 16 in let v3 := v3 .^ v2 in
  let v0 := u64 (v0 + v3) in let v3 := ROTL64 v3 21 in let v3 := v3 .^ v0 in
  let v2 := u64 (v2 + v1) in let v1 := ROTL64 v1 17 in let v1 := v1 .^ v2 in
  let v2 := ROTL64 v2 32 in
  V v0 v1 v2 v3.

Record CSipHasher := { sip_v : sipv; sip_tmp : Z; sip_count : Z }.

Definition sip_init (k0 k1 : Z) : sipv :=
  V (0x736f6d6570736575 .^ k0) (0x646f72616e646f6d .^ k1) (0x6c7967656e657261 .^ k0) (0x7465646279746573 .^ k1).

Definition CSipHasher_new (k0 k1 : Z) : CSipHasher := {| sip_v := sip_init k0 k1; sip_tmp := 0; sip_count := 0 |}.

(** [v3 ^= t; SIPROUND; SIPROUND; v0 ^= t;] *)
Definition sip_compress (v : sipv) (t : Z) : sipv :=
  let '(V v0 v1 v2 v3) := v in
  let v3 := v3 .^ t in
  let '(V v0 v1 v2 v3) := SIPROUND (SIPROUND (V v0 v1 v2 v3)) in
  V (v0 .^ t) v1 v2 v3.

(** [Write(uint64_t)]; the assertion fails in the middle of a word *)
Definition CSipHasher_WriteU64 (h : CSipHasher) (data : Z) : option CSipHasher :=
  if sip_count h mod 8 =? 0 then
    Some {| sip_v := sip_compress (sip_v h) data; sip_tmp := sip_tmp h; sip_count := sip_count h + 8 |}
  else None.

(** one turn of the loop of [Write(data, size)] *)
Definition sip_byte (h : CSipHasher) (b : Z) : CSipHasher :=
  let t := sip_tmp h .| u64 (Z.shiftl b (8 * (sip_count h mod 8))) in
  let c := sip_count h + 1 in
  if Z.land c 7 =? 0 then {| sip_v := sip_compress (sip_v h) t; sip_tmp := 0; sip_count := c |}
  else {| sip_v := sip_v h; sip_tmp := t; sip_count := c |}.

Definition CSipHasher_Write (h : CSipHasher) (data : list Z) : CSipHasher := fold_left sip_byte data h.

(** [v2 ^= 0xFF], four rounds, and the sum of the words *)
Definition sip_finish (v : sipv) : Z :=
  let '(V v0 v1 v2 v3) := v in
  let '(V v0 v1 v2 v3) := SIPROUND (SIPROUND (SIPROUND (SIPROUND (V v0 v1 (v2 .^ 0xFF) v3)))) in
  v0 .^ v1 .^ v2 .^ v3.

Definition CSipHasher_Finalize (h : CSipHasher) : Z :=
  let t := sip_tmp h .| u64 (Z.shiftl (sip_count h) 56) in
  sip_finish (sip_compress (sip_v h) t).

(** [uint256::GetUint64] *)
Definition GetUint64 (val : list Z) (pos : nat) : Z := ReadLE64 (drop (pos * 8) val).

Definition SipHashUint256 (k0 k1 : Z) (val : list Z) : Z :=
  let d := GetUint64 val 0 in
  let v0 := 0x736f6d6570736575 .^ k0 in
  let v1 := 0x646f72616e646f6d .^ k1 in
  let v2 := 0x6c7967656e657261 .^ k0 in
  let v3 := 0x7465646279746573 .^ k1 .^ d in
  let '(V v0 v1 v2 v3) := SIPROUND (SIPROUND (V v0 v1 v2 v3)) in
  let v0 := v0 .^ d in
  let d := GetUint64 val 1 in
  let v3 := v3 .^ d in
  let '(V v0 v1 v2 v3) := SIPROUND (SIPROUND (V v0 v1 v2 v3)) in
  let v0 := v0 .^ d in
  let d := GetUint64 val 2 in
  let v3 := v3 .^ d in
  let '(V v0 v1 v2 v3) := SIPROUND (SIPROUND (V v0 v1 v2 v3)) in
  let v0 := v0 .^ d in
  let d := GetUint64 val 3 in
  let v3 := v3 .^ d in
  let '(V v0 v1 v2 v3) := SIPROUND (SIPROUND (V v0 v1 v2 v3)) in
  let v0 := v0 .^ d in
  let v3 := v3 .^ Z.shiftl 4 59 in
  let '(V v0 v1 v2 v3) := SIPROUND (SIPROUND (V v0 v1 v2 v3)) in
  let v0 := v0 .^ Z.shiftl 4 59 in
  let v2 := v2 .^ 0xFF in
  let '(V v0 v1 v2 v3) := SIPROUND (SIPROUND (SIPROUND (SIPROUND (V v0 v1 v2 v3)))) in
  v0 .^ v1 .^ v2 .^ v3.

Definition SipHashUint256Extra (k0 k1 : Z) (val : list Z) (extra : Z) : Z :=
  let d := GetUint64 val 0 in
  let v0 := 0x736f6d6570736575 .^ k0 in
  let v1 := 0x646f72616e646f6d .^ k1 in
  let v2 := 0x6c7967656e657261 .^ k0 in
  let v3 := 0x7465646279746573 .^ k1 .^ d in
  let '(V v0 v1 v2 v3) := SIPROUND (SIPROUND (V v0 v1 v2 v3)) in
  let v0 := v0 .^ d in
  let d := GetUint64 val 1 in
  let v3 := v3 .^ d in
  let '(V v0 v1 v2 v3) := SIPROUND (SIPROUND (V v0 v1 v2 v3)) in
  let v0 := v0 .^ d in
  let d := GetUint64 val 2 in
  let v3 := v3 .^ d in
  let '(V v0 v1 v2 v3) := SIPROUND (SIPROUND (V v0 v1 v2 v3)) in
  let v0 := v0 .^ d in
  let d := GetUint64 val 3 in
  let v3 := v3 .^ d in
  let '(V v0 v1 v2 v3) := SIPROUND (SIPROUND (V v0 v1 v2 v3)) in
  let v0 := v0 .^ d in
  let d := Z.shiftl 36 56 .| extra in
  let v3 := v3 .^ d in
  let '(V v0 v1 v2 v3) := SIPROUND (SIPROUND (V v0 v1 v2 v3)) in
  let v0 := v0 .^ d in
  let v2 := v2 .^ 0xFF in
  let '(V v0 v1 v2 v3) := SIPROUND (SIPROUND (SIPROUND (SIPROUND (V v0 v1 v2 v3)))) in
  v0 .^ v1 .^ v2 .^ v3.

(** ** The reference *)

(** words of eight bytes absorbed by [sip_compress] *)
#[local] Instance sip_blocks : BlockHash :=
  block_hash 8 0 15 (fun _ => []) (fun _ => []) (V 0 0 0 0) (fun v blk => sip_compress v (le_val blk)).

#[local] Instance sip_blocks_laws : BlockHashLaws sip_blocks.
Proof. apply block_hash_laws; [exists 3%nat; split; [lia | done] | lia | done | done]. Qed.

(** whole words, then a word of the remaining bytes with the length on top *)
Definition siphash_ref (k0 k1 : Z) (m : list Z) : Z :=
  let v := absorb (whole m) (sip_init k0 k1 : chain) m in
  sip_finish (sip_compress v (le_val (rest m) + 2 ^ 56 * (zlen m mod 256))).

(** ** Proofs *)

Definition sip_holds (k0 k1 : Z) (h : CSipHasher) (m : list Z) : Prop :=
  sip_v h = absorb (whole m) (sip_init k0 k1 : chain) m /\ sip_tmp h = le_val (rest m) /\ sip_count h = zlen m /\ bytes m.

Lemma sip_new_holds k0 k1 : sip_holds k0 k1 (CSipHasher_new k0 k1) [].
Proof. split_and!; done || constructor. Qed.

Lemma rest_bytes m : bytes m -> bytes (rest m).
Proof. intros H. by apply Forall_drop. Qed.

Lemma join_byte l b : bytes l -> is_u8 b -> (length l < 8)%nat ->
  Z.lor (le_val l) (u64 (Z.shiftl b (8 * zlen l))) = le_val (l ++ [b]).
Proof.
  intros Hl Hb Hlen. pose proof (le_val_range l Hl) as Hr. unfold is_u8 in Hb.
  assert (Hp : 256 ^ zlen l = 2 ^ (8 * zlen l)) by (change 256 with (2 ^ 8); rewrite <- Z.pow_mul_r by lia; done).
  assert (Hq : 2 ^ (8 * zlen l) <= 2 ^ 56) by (apply Z.pow_le_mono_r; lia).
  rewrite Z.shiftl_mul_pow2 by lia. rewrite u64_small by (unfold is_u64; nia).
  rewrite lor_disjoint_add by (rewrite <- ?Hp; lia). rewrite le_val_snoc, Hp. lia.
Qed.

Lemma sip_byte_holds k0 k1 h m b : sip_holds k0 k1 h m -> is_u8 b -> sip_holds k0 k1 (sip_byte h b) (m ++ [b]).
Proof.
  intros (Hv & Ht & Hc & Hm) Hb. assert (Hr : length (rest m) = (length m mod 8)%nat) by exact (rest_length m).
  assert (Hr8 : (length (rest m) < 8)%nat) by (rewrite Hr; apply Nat.mod_upper_bound; lia).
  assert (Hcm : sip_count h mod 8 = zlen (rest m)) by (rewrite Hc, Hr, Nat2Z.inj_mod; done).
  assert (Hbytes : bytes (m ++ [b])) by (apply bytes_snoc; done).
  unfold sip_byte. rewrite Hcm, Ht, join_byte by (done || by apply rest_bytes).
  change (Z.land ?x 7) with (Z.land x (2 ^ 3 - 1)). rewrite land_mask by lia.
  unfold sip_holds. rewrite absorb_whole_app, <- Hv. destruct (whole_rest_app m [b]) as [_ ->].
  assert (Hl : length (rest m ++ [b]) = S (length (rest m))) by (rewrite length_app; cbn; lia).
  assert (Hlen : zlen (m ++ [b]) = sip_count h + 1) by (rewrite length_app, Hc; cbn; lia).
  rewrite Hlen, <- Z.add_mod_idemp_l by lia. change (2 ^ 3) with 8. rewrite Hcm.
  destruct (decide (length (rest m) = 7%nat)) as [E7 | E7].
  - replace ((zlen (rest m) + 1) mod 8) with 0 by (rewrite E7; done). rewrite Z.eqb_refl. cbn [sip_v sip_tmp sip_count].
    destruct (whole_cons (rest m ++ [b]) []) as [Hw Hrr]; [rewrite Hl, E7; done|]. rewrite app_nil_r in Hw, Hrr. rewrite Hw, Hrr.
    split_and!; [|done | done | done]. cbn [absorb]. change (whole []) with O. cbn [absorb].
    rewrite take_ge by (rewrite Hl, E7; done). done.
  - rewrite Z.mod_small by lia. rewrite (proj2 (Z.eqb_neq _ 0)) by lia. cbn [sip_v sip_tmp sip_count].
    destruct (whole_lt (rest m ++ [b])) as [-> ->]; [change block_size with 8%nat; lia|]. done.
Qed.

Lemma sip_write_holds k0 k1 data : forall h m, sip_holds k0 k1 h m -> bytes data ->
  sip_holds k0 k1 (CSipHasher_Write h data) (m ++ data).
Proof.
  induction data as [|b data IH]; intros h m H Hb; cbn; [by rewrite app_nil_r|].
  apply Forall_cons in Hb as [Hb Hd]. rewrite cons_middle, app_assoc. apply IH; [|done]. by apply sip_byte_holds.
Qed.

(** a word is its eight bytes *)
Lemma sip_word_holds k0 k1 h m w : sip_holds k0 k1 h m -> (length m mod 8 = 0)%nat -> length w = 8%nat -> bytes w ->
  exists h', CSipHasher_WriteU64 h (le_val w) = Some h' /\ sip_holds k0 k1 h' (m ++ w).
Proof.
  intros (Hv & Ht & Hc & Hm) Hl Hw Hb. assert (Hr : length (rest m) = (length m mod 8)%nat) by exact (rest_length m). rewrite Hl in Hr.
  assert (Hrm : rest m = []) by (by apply nil_length_inv).
  unfold CSipHasher_WriteU64. replace (sip_count h mod 8) with 0
    by (rewrite Hc; change 8 with (Z.of_nat 8); rewrite <- Nat2Z.inj_mod, Hl; done). rewrite Z.eqb_refl.
  eexists. split; [done|]. unfold sip_holds. cbn [sip_v sip_tmp sip_count].
  rewrite absorb_whole_app, <- Hv. destruct (whole_rest_app m w) as [_ ->]. rewrite Hrm. cbn [app].
  destruct (whole_cons w []) as [Hw1 Hw2]; [done|]. rewrite app_nil_r in Hw1, Hw2. rewrite Hw1, Hw2.
  split_and!; [|by rewrite Ht, Hrm | rewrite length_app; lia | by apply Forall_app].
  cbn [absorb]. change (whole []) with O. cbn [absorb]. rewrite take_ge by (rewrite Hw; done). done.
Qed.

Lemma sip_finalize_ref k0 k1 h m : sip_holds k0 k1 h m -> CSipHasher_Finalize h = siphash_ref k0 k1 m.
Proof.
  intros (Hv & Ht & Hc & Hm). unfold CSipHasher_Finalize, siphash_ref. rewrite Hv, Ht, Hc. do 2 f_equal.
  assert (Hr : length (rest m) = (length m mod 8)%nat) by exact (rest_length m). pose proof (Nat.mod_upper_bound (length m) 8).
  pose proof (le_val_range (rest m) (rest_bytes m Hm)) as Hl.
  assert (256 ^ zlen (rest m) <= 256 ^ 7) by (apply Z.pow_le_mono_r; lia).
  replace (u64 (Z.shiftl (zlen m) 56)) with ((zlen m mod 256) * 2 ^ 56).
  - rewrite lor_disjoint_add by (change (256 ^ 7) with (2 ^ 56) in *; lia). lia.
  - rewrite Z.shiftl_mul_pow2 by lia. unfold u64. change (2 ^ 64) with (256 * 2 ^ 56).
    rewrite Z.mul_mod_distr_r by lia. done.
Qed.

(** the object, for every way the message is cut into calls *)
Lemma sip_writes_hold k0 k1 parts : Forall bytes parts ->
  sip_holds k0 k1 (fold_left CSipHasher_Write parts (CSipHasher_new k0 k1)) (concat parts).
Proof.
  intros Hp. change (concat parts) with ([] ++ concat parts).
  pose proof (sip_new_holds k0 k1) as H. revert H. generalize (CSipHasher_new k0 k1) ([] : list Z).
  induction parts as [|d parts IH]; intros h m H; cbn; [by rewrite app_nil_r|].
  apply Forall_cons in Hp as [Hd Hp]. rewrite app_assoc. apply IH; [done|]. by apply sip_write_holds.
Qed.

(** the specialised versions, as a chain of [sip_compress] *)
Ltac sip_rounds := repeat match goal with
  |- context [SIPROUND (SIPROUND (V ?a ?b ?c ?d))] => destruct (SIPROUND (SIPROUND (V a b c d))) as [] end.

Lemma SipHashUint256_chain k0 k1 val : SipHashUint256 k0 k1 val =
  sip_finish (sip_compress (foldl sip_compress (sip_init k0 k1)
    [GetUint64 val 0; GetUint64 val 1; GetUint64 val 2; GetUint64 val 3]) (Z.shiftl 4 59)).
Proof.
  cbn [foldl]. unfold SipHashUint256, sip_init. generalize (Z.shiftl 4 59). intros last.
  generalize (GetUint64 val 0) (GetUint64 val 1) (GetUint64 val 2) (GetUint64 val 3). intros d0 d1 d2 d3.
  unfold sip_compress, sip_finish. sip_rounds. reflexivity.
Qed.

Lemma SipHashUint256Extra_chain k0 k1 val extra : SipHashUint256Extra k0 k1 val extra =
  sip_finish (sip_compress (foldl sip_compress (sip_init k0 k1)
    [GetUint64 val 0; GetUint64 val 1; GetUint64 val 2; GetUint64 val 3]) (Z.lor (Z.shiftl 36 56) extra)).
Proof.
  cbn [foldl]. unfold SipHashUint256Extra, sip_init. generalize (Z.lor (Z.shiftl 36 56) extra). intros last.
  generalize (GetUint64 val 0) (GetUint64 val 1) (GetUint64 val 2) (GetUint64 val 3). intros d0 d1 d2 d3.
  unfold sip_compress, sip_finish. sip_rounds. reflexivity.
Qed.

(** a message of four words and fewer than eight bytes *)
Lemma siphash_ref_chain k0 k1 val tl : length val = 32%nat -> (length tl < 8)%nat ->
  siphash_ref k0 k1 (val ++ tl) =
  sip_finish (sip_compress (foldl sip_compress (sip_init k0 k1)
    [GetUint64 val 0; GetUint64 val 1; GetUint64 val 2; GetUint64 val 3])
    (le_val tl + 2 ^ 56 * ((32 + zlen tl) mod 256))).
Proof.
  intros Hv Ht. unfold siphash_ref.
  assert (Hw : whole (val ++ tl) = 4%nat).
  { unfold whole. rewrite length_app, Hv. change block_size with 8%nat.
    replace (32 + length tl)%nat with (length tl + 4 * 8)%nat by lia. rewrite Nat.div_add, Nat.div_small by lia. done. }
  assert (Hr : rest (val ++ tl) = tl).
  { unfold rest. rewrite Hw. apply drop_app_length'. done. }
  rewrite Hw, Hr, length_app, Hv, Nat2Z.inj_add. change (Z.of_nat 32) with 32. do 2 f_equal.
  rewrite absorb_prefix by (rewrite Hv; cbn; lia). cbn [absorb foldl Transform sip_blocks block_hash block_size].
  rewrite !drop_drop. unfold GetUint64, ReadLE64. cbn [Nat.mul Nat.add]. rewrite drop_0. reflexivity.
Qed.

Lemma SipHashUint256_ref k0 k1 val : length val = 32%nat -> SipHashUint256 k0 k1 val = siphash_ref k0 k1 val.
Proof.
  intros H. pose proof (siphash_ref_chain k0 k1 val [] H ltac:(cbn; lia)) as E. rewrite app_nil_r in E.
  rewrite E, SipHashUint256_chain. change (le_val [] + 2 ^ 56 * ((32 + zlen (@nil Z)) mod 256)) with (Z.shiftl 4 59).
  reflexivity.
Qed.

Lemma SipHashUint256Extra_ref k0 k1 val extra : length val = 32%nat -> is_u32 extra ->
  SipHashUint256Extra k0 k1 val extra = siphash_ref k0 k1 (val ++ WriteLE32 extra).
Proof.
  intros H He.
  assert (E : Z.lor (Z.shiftl 36 56) extra = le_val (WriteLE32 extra) + 2 ^ 56 * ((32 + zlen (WriteLE32 extra)) mod 256)).
  { unfold WriteLE32. rewrite le_bytes_length, le_val_le_bytes, Z.mod_small by exact He.
    rewrite Z.lor_comm, Z.shiftl_mul_pow2, lor_disjoint_add by (unfold is_u32 in He; lia).
    change ((32 + Z.of_nat 4) mod 256) with 36. lia. }
  rewrite SipHashUint256Extra_chain, siphash_ref_chain, E by (done || (cbn; lia)). reflexivity.
Qed.

(** the vectors of [test/hash_tests.cpp] *)
Example siphash_vectors :
  let k0 := 0x0706050403020100 in let k1 := 0x0F0E0D0C0B0A0908 in let m := map Z.of_nat (seq 0 32) in
  siphash_ref k0 k1 [] = 0x726fdb47dd0e0e31 /\ siphash_ref k0 k1 [0] = 0x74f839c593dc67fd /\
  SipHashUint256 k0 k1 m = 0x7127512f72f27cce.
Proof. vm_compute. done. Qed.

Example murmur_vectors : MurmurHash3 0xFBA4C795 [] = 0x6a396f08 /\ MurmurHash3 0 [0xff] = 0xfd6cf10d /\
  MurmurHash3 0 [0; 0x11] = 0x16c6b7ab /\ MurmurHash3 0 [0; 0x11; 0x22] = 0x8eb51c3d /\
  MurmurHash3 0 [0; 0x11; 0x22; 0x33; 0x44; 0x55; 0x66; 0x77; 0x88] = 0xb4698def.
Proof. vm_compute. done. Qed.

(** The SipHash code agrees with itself and with SipHash-2-4: whatever pieces a
    message is written in, [CSipHasher] gives the reference value of the whole
    message; a word written with [WriteU64] after a multiple of eight bytes is its
    eight bytes in little-endian order; and the unrolled [SipHashUint256] and
    [SipHashUint256Extra], which key the table of unspent outputs, give what the
    hasher gives for the 32 bytes and for the 36 bytes. *)
Theorem siphash_correct (k0 k1 : Z) (parts : list (list Z)) (w val : list Z) (extra : Z)
    (Hp : Forall bytes parts) (Hw : length w = 8%nat /\ bytes w) (Ha : (length (concat parts) mod 8 = 0)%nat)
    (Hv : length val = 32%nat /\ bytes val) (He : is_u32 extra) :
  let new := CSipHasher_new k0 k1 in
  let h := fold_left CSipHasher_Write parts new in
  CSipHasher_Finalize h = siphash_ref k0 k1 (concat parts) /\
  option_map CSipHasher_Finalize (CSipHasher_WriteU64 h (le_val w)) = Some (CSipHasher_Finalize (CSipHasher_Write h w)) /\
  SipHashUint256 k0 k1 val = CSipHasher_Finalize (CSipHasher_Write new val) /\
  SipHashUint256Extra k0 k1 val extra =
    CSipHasher_Finalize (CSipHasher_Write (CSipHasher_Write new val) (WriteLE32 extra)).
Proof.
  intros new h. pose proof (sip_writes_hold k0 k1 parts Hp) as H.
  pose proof (sip_write_holds k0 k1 val _ _ (sip_new_holds k0 k1) (proj2 Hv)) as Hval. split_and!.
  - by apply sip_finalize_ref.
  - destruct (sip_word_holds k0 k1 h _ w H Ha) as (h' & -> & Hh'); [apply Hw..|]. cbn [option_map]. f_equal.
    rewrite (sip_finalize_ref k0 k1 h' _ Hh'). symmetry. apply sip_finalize_ref, sip_write_holds; [done | apply Hw].
  - rewrite SipHashUint256_ref by apply Hv. symmetry. by apply (sip_finalize_ref k0 k1 _ ([] ++ val)).
  - rewrite SipHashUint256Extra_ref by (apply Hv || done). symmetry.
    apply (sip_finalize_ref k0 k1 _ (([] ++ val) ++ WriteLE32 extra)), sip_write_holds; [done | apply le_bytes_bytes].
Qed.

Lemma siphash_correct_witness :
  let val := replicate 32 5 in
  SipHashUint256Extra 1 2 val 77 =
    CSipHasher_Finalize (CSipHasher_Write (CSipHasher_Write (CSipHasher_new 1 2) val) (WriteLE32 77)).
Proof.
  intros val. refine (proj2 (proj2 (proj2 (siphash_correct 1 2 [] (replicate 8 0) val 77 _ _ _ _ _)))).
  - constructor.
  - split; [done|]. apply (bool_decide_unpack _). vm_compute. exact I.
  - done.
  - split; [done|]. apply (bool_decide_unpack _). vm_compute. exact I.
  - unfold is_u32. lia.
Defined.
