(* ===== verification/Hash.v ===== *)
(** * Hash objects built from the primitives

    [hash.h], [hash.cpp], [crypto/hmac_sha256.cpp] and [crypto/hmac_sha512.cpp]:
    [CHash256] and [CHash160], the message authentication codes and [BIP32Hash].

    [StreamHash] is what the clients of a hash class rely on: an object stands for
    the bytes written so far, and [Finalize] gives the reference function of them.
    The four classes of [src/crypto] are instances; [CHash256], [CHash160] and HMAC
    are proved against the interface.  [script_hashes] discharges the parameter of
    the script interpreter with the code of these classes. *)

From S2P Require Import Prelude ScriptNum Serialize Interpreter.
From S2P Require Import Hashing Sha2Spec Sha1 Ripemd160 Sha512 Sha256.
Open Scope Z_scope.

Local Infix ".^" := Z.lxor (at level 46, left associativity).
Local Infix ".|" := Z.lor (at level 47, left associativity).
Local Infix ".>>" := Z.shiftr (at level 42).

(** ** What a hash class promises *)

Class StreamHash := {
  obj : Type;
  hash_block : nat;
  hash_size : nat;
  hash_new : list Z -> obj;                (* with what the buffer happens to hold *)
  hash_write : obj -> list Z -> obj;
  hash_finalize : obj -> list Z;
}.

Class StreamHashLaws (SH : StreamHash) := {
  hash_ref : list Z -> list Z;
  hash_holds : obj -> list Z -> Prop;
  hash_new_holds : forall junk, length junk = hash_block -> hash_holds (hash_new junk) [];
  hash_write_holds : forall h m d, hash_holds h m -> hash_holds (hash_write h d) (m ++ d);
  hash_finalize_ref : forall h m, hash_holds h m -> hash_finalize h = hash_ref m;
  hash_ref_size : forall m, length (hash_ref m) = hash_size;
  hash_size_block : (hash_size <= hash_block)%nat;
}.

#[global] Instance CSHA256_stream : StreamHash := {|
  obj := CSHA256; hash_block := 64; hash_size := 32; hash_new := CSHA256_new; hash_write := CSHA256_Write;
  hash_finalize := CSHA256_Finalize |}.

Definition CSHA512_stream : StreamHash := {|
  obj := @hasher SHA512_code; hash_block := 128; hash_size := 64; hash_new := CSHA512_new; hash_write := CSHA512_Write;
  hash_finalize := CSHA512_Finalize |}.

(** ** [CHash256] and [CHash160], which hold a [CSHA256] *)

Definition CHash256_Write (sha : CSHA256) (data : list Z) : CSHA256 := CSHA256_Write sha data.
Definition CHash256_Reset (sha : CSHA256) : CSHA256 := CSHA256_Reset sha.
Definition CHash256_Finalize (sha : CSHA256) : list Z :=
  let buf := CSHA256_Finalize sha in
  CSHA256_Finalize (CSHA256_Write (CSHA256_Reset (CSHA256_finish sha)) buf).

Definition CHash160_Write (sha : CSHA256) (data : list Z) : CSHA256 := CSHA256_Write sha data.
Definition CHash160_Reset (sha : CSHA256) : CSHA256 := CSHA256_Reset sha.
Definition CHash160_Finalize (junk : list Z) (sha : CSHA256) : list Z :=
  let buf := CSHA256_Finalize sha in
  CRIPEMD160_Finalize (CRIPEMD160_Write (CRIPEMD160_new junk) buf).

(** the wrappers unfold before the functions they wrap *)
Strategy expand [CHash256_Write CHash256_Reset CHash160_Write CHash160_Reset].
Strategy 100 [CSHA256_Finalize CSHA256_Write SHA256_ref SHA512_ref SHA1_ref RIPEMD160_ref].

(** the templates [Hash(begin, end, ...)] of up to six ranges, and [Hash160] *)
Definition Hash (junk : list Z) (ranges : list (list Z)) : list Z :=
  CHash256_Finalize (fold_left CHash256_Write ranges (CSHA256_new junk)).
Definition Hash160 (junk junk' : list Z) (range : list Z) : list Z :=
  CHash160_Finalize junk' (CHash160_Write (CSHA256_new junk) range).

(** ** Message authentication codes

    [CHMAC_SHA256] and [CHMAC_SHA512] are the same text for the two classes. *)

Section HMAC.
Context {SH : StreamHash}.

Record CHMAC := { outer : obj; inner : obj }.

(** [for (n = 0; n < 64; n++) rkey[n] ^= x] *)
Definition xor_bytes (x : Z) (l : list Z) : list Z := map (fun b => b .^ x) l.

(** [rkey]: the key, or its hash, filled with zeros *)
Definition hmac_rkey (junk key : list Z) : list Z :=
  if bool_decide (length key <= hash_block)%nat then key ++ replicate (hash_block - length key) 0
  else hash_finalize (hash_write (hash_new junk) key) ++ replicate (hash_block - hash_size) 0.

(** the constructor; the three buffers hold [j1], [j2] and [j3] *)
Definition CHMAC_new (j1 j2 j3 : list Z) (key : list Z) : CHMAC :=
  let rkey := hmac_rkey j3 key in
  let rkey := xor_bytes 0x5c rkey in
  let outer := hash_write (hash_new j1) rkey in
  let rkey := xor_bytes (0x5c .^ 0x36) rkey in
  let inner := hash_write (hash_new j2) rkey in
  {| outer := outer; inner := inner |}.

Definition CHMAC_Write (h : CHMAC) (data : list Z) : CHMAC :=
  {| outer := outer h; inner := hash_write (inner h) data |}.

Definition CHMAC_Finalize (h : CHMAC) : list Z :=
  let temp := hash_finalize (inner h) in
  hash_finalize (hash_write (outer h) temp).

End HMAC.
Arguments CHMAC : clear implicits.

Definition CHMAC_SHA256_new : list Z -> list Z -> list Z -> list Z -> CHMAC CSHA256_stream := @CHMAC_new CSHA256_stream.
Definition CHMAC_SHA512_new : list Z -> list Z -> list Z -> list Z -> CHMAC CSHA512_stream := @CHMAC_new CSHA512_stream.

Definition BIP32Hash (j1 j2 j3 : list Z) (chainCode : list Z) (nChild header : Z) (data : list Z) : list Z :=
  let num := [Z.land (nChild .>> 24) 0xFF; Z.land (nChild .>> 16) 0xFF; Z.land (nChild .>> 8) 0xFF; Z.land (nChild .>> 0) 0xFF] in
  let h := CHMAC_SHA512_new j1 j2 j3 chainCode in
  let h := CHMAC_Write h [header] in
  let h := CHMAC_Write h data in
  let h := CHMAC_Write h num in
  CHMAC_Finalize h.

(** ** The hash classes keep their promise *)

Lemma be_bytes_length n x : length (be_bytes n x) = n.
Proof. unfold be_bytes. by rewrite length_rev, le_bytes_length. Qed.

Lemma be_bytes_bytes n x : bytes (be_bytes n x).
Proof. unfold be_bytes. apply Forall_rev, le_bytes_bytes. Qed.

Lemma SHA256_ref_size m : length (SHA256_ref m) = 32%nat /\ bytes (SHA256_ref m).
Proof.
  unfold SHA256_ref, merkle_damgard. cbn [digest SHA256_spec block_hash]. destruct (absorb _ _ _) as [a b c d e f g h].
  split; [done|]. unfold bytes. cbn [regs_bytes]. rewrite !Forall_app. split_and!; apply be_bytes_bytes.
Qed.

Lemma SHA512_ref_size m : length (SHA512_ref m) = 64%nat.
Proof.
  unfold SHA512_ref, merkle_damgard. cbn [digest SHA512_spec block_hash]. by destruct (absorb _ _ _) as [a b c d e f g h].
Qed.

Lemma SHA1_ref_size m : length (SHA1_ref m) = 20%nat /\ bytes (SHA1_ref m).
Proof.
  unfold SHA1_ref, merkle_damgard. cbn [digest SHA1_spec block_hash]. destruct (absorb _ _ _) as [a b c d e].
  split; [done|]. unfold bytes. cbn [regs5_bytes]. rewrite !Forall_app. split_and!; apply be_bytes_bytes.
Qed.

Lemma RIPEMD160_ref_size m : length (RIPEMD160_ref m) = 20%nat /\ bytes (RIPEMD160_ref m).
Proof.
  unfold RIPEMD160_ref, merkle_damgard. cbn [digest RIPEMD160_spec block_hash]. destruct (absorb _ _ _) as [a b c d e].
  split; [done|]. unfold bytes. cbn [regs5_bytes]. rewrite !Forall_app. split_and!; apply le_bytes_bytes.
Qed.

#[global] Instance CSHA256_stream_laws : StreamHashLaws CSHA256_stream.
Proof.
  refine {| hash_ref := SHA256_ref; hash_holds := @holds SHA256_code : @obj CSHA256_stream -> _ |}.
  - exact (@construct_holds SHA256_code).
  - exact CSHA256_Write_holds.
  - exact CSHA256_Finalize_correct.
  - intros m. apply SHA256_ref_size.
  - cbn. lia.
Defined.

#[global] Instance CSHA512_stream_laws : StreamHashLaws CSHA512_stream.
Proof.
  refine {| hash_ref := SHA512_ref; hash_holds := @holds SHA512_code : @obj CSHA512_stream -> _ |}.
  - exact (@construct_holds SHA512_code).
  - exact (@write_holds SHA512_code SHA512_code_laws).
  - exact CSHA512_Finalize_correct.
  - exact SHA512_ref_size.
  - cbn. lia.
Defined.

(** ** Double and 160-bit hashes *)

Lemma CHash256_Finalize_correct sha m : @holds SHA256_code sha m -> CHash256_Finalize sha = SHA256_ref (SHA256_ref m).
Proof.
  intros H. unfold CHash256_Finalize. rewrite (CSHA256_Finalize_correct sha m H).
  apply CSHA256_Finalize_correct. change (SHA256_ref m) with ([] ++ SHA256_ref m) at 2.
  by apply CSHA256_Write_holds, CSHA256_reset_holds with m.
Qed.

Lemma CHash160_Finalize_correct junk sha m : length junk = 64%nat -> @holds SHA256_code sha m ->
  CHash160_Finalize junk sha = RIPEMD160_ref (SHA256_ref m).
Proof.
  intros Hj H. unfold CHash160_Finalize. rewrite (CSHA256_Finalize_correct sha m H).
  apply CRIPEMD160_Finalize_correct. change (SHA256_ref m) with ([] ++ SHA256_ref m) at 2.
  by apply (@write_holds RIPEMD160_code RIPEMD160_code_laws), (@construct_holds RIPEMD160_code).
Qed.

Lemma Hash_correct junk ranges : length junk = 64%nat -> Hash junk ranges = SHA256_ref (SHA256_ref (concat ranges)).
Proof.
  intros H. apply CHash256_Finalize_correct, (CSHA256_writes_hold ranges _ []). by apply (@construct_holds SHA256_code).
Qed.

Lemma Hash160_correct junk junk' range : length junk = 64%nat -> length junk' = 64%nat ->
  Hash160 junk junk' range = RIPEMD160_ref (SHA256_ref range).
Proof.
  intros H H'. apply CHash160_Finalize_correct; [done|].
  by apply (CSHA256_Write_holds _ [] range), (@construct_holds SHA256_code).
Qed.

(** ** HMAC against RFC 2104 *)

Section HMACCorrect.
Context {SH : StreamHash} {SL : StreamHashLaws SH}.

(** the key of the length of a block *)
Definition hmac_key (key : list Z) : list Z :=
  let k := if (length key <=? hash_block)%nat then key else hash_ref key in
  k ++ replicate (hash_block - length k) 0.

(** [H(K ^ opad, H(K ^ ipad, text))] *)
Definition HMAC_ref (key text : list Z) : list Z :=
  hash_ref (map (Z.lxor 0x5c) (hmac_key key) ++ hash_ref (map (Z.lxor 0x36) (hmac_key key) ++ text)).

Lemma hash_write_new junk d : length junk = hash_block -> hash_holds (hash_write (hash_new junk) d) d.
Proof. intros H. apply (hash_write_holds _ [] d). by apply hash_new_holds. Qed.

Lemma hmac_rkey_ref junk key : length junk = hash_block -> hmac_rkey junk key = hmac_key key.
Proof.
  intros H. unfold hmac_rkey, hmac_key. case_bool_decide as E.
  - by rewrite (proj2 (Nat.leb_le _ _) E).
  - rewrite (proj2 (Nat.leb_gt _ _)) by lia. by rewrite (hash_finalize_ref _ key), hash_ref_size by (by apply hash_write_new).
Qed.

Definition hmac_holds (key : list Z) (h : CHMAC SH) (text : list Z) : Prop :=
  hash_holds (outer h) (map (Z.lxor 0x5c) (hmac_key key)) /\
  hash_holds (inner h) (map (Z.lxor 0x36) (hmac_key key) ++ text).

Lemma hmac_new_holds j1 j2 j3 key : length j1 = hash_block -> length j2 = hash_block -> length j3 = hash_block ->
  hmac_holds key (CHMAC_new j1 j2 j3 key) [].
Proof.
  intros H1 H2 H3. unfold hmac_holds, CHMAC_new. cbn [outer inner]. rewrite hmac_rkey_ref by done.
  assert (E1 : xor_bytes 0x5c (hmac_key key) = map (Z.lxor 0x5c) (hmac_key key)).
  { apply map_ext. intros b. apply Z.lxor_comm. }
  assert (E2 : xor_bytes (0x5c .^ 0x36) (xor_bytes 0x5c (hmac_key key)) = map (Z.lxor 0x36) (hmac_key key)).
  { unfold xor_bytes. rewrite map_map. apply map_ext. intros b.
    by rewrite Z.lxor_assoc, <- (Z.lxor_assoc 0x5c 0x5c), Z.lxor_nilpotent, Z.lxor_0_l, Z.lxor_comm. }
  rewrite E2, E1, app_nil_r. split; by apply hash_write_new.
Qed.

Lemma hmac_write_holds key h text d : hmac_holds key h text -> hmac_holds key (CHMAC_Write h d) (text ++ d).
Proof. intros [Ho Hi]. split; [done|]. cbn [CHMAC_Write inner]. rewrite app_assoc. by apply hash_write_holds. Qed.

Lemma hmac_finalize_ref key h text : hmac_holds key h text -> CHMAC_Finalize h = HMAC_ref key text.
Proof.
  intros [Ho Hi]. unfold CHMAC_Finalize, HMAC_ref. rewrite (hash_finalize_ref _ _ Hi).
  by apply hash_finalize_ref, hash_write_holds.
Qed.

Lemma hmac_streaming j1 j2 j3 key parts : length j1 = hash_block -> length j2 = hash_block -> length j3 = hash_block ->
  CHMAC_Finalize (fold_left CHMAC_Write parts (CHMAC_new j1 j2 j3 key)) = HMAC_ref key (concat parts).
Proof.
  intros H1 H2 H3. apply hmac_finalize_ref. change (concat parts) with ([] ++ concat parts).
  generalize (hmac_new_holds j1 j2 j3 key H1 H2 H3). generalize (CHMAC_new j1 j2 j3 key) ([] : list Z).
  induction parts as [|d parts IH]; intros h m H; cbn; [by rewrite app_nil_r|].
  rewrite app_assoc. by apply IH, hmac_write_holds.
Qed.

End HMACCorrect.

(** the child number of BIP 32 is written most significant byte first *)
Lemma child_bytes n : [Z.land (n .>> 24) 0xFF; Z.land (n .>> 16) 0xFF; Z.land (n .>> 8) 0xFF; Z.land (n .>> 0) 0xFF] = WriteBE32 n.
Proof.
  unfold WriteBE32, be_bytes. cbn [le_bytes rev app]. rewrite !Z.shiftr_shiftr, Z.shiftr_0_r by lia. done.
Qed.

Lemma BIP32Hash_correct j1 j2 j3 chainCode nChild header data :
  length j1 = 128%nat -> length j2 = 128%nat -> length j3 = 128%nat ->
  BIP32Hash j1 j2 j3 chainCode nChild header data
  = @HMAC_ref CSHA512_stream _ chainCode (header :: data ++ WriteBE32 nChild).
Proof.
  intros H1 H2 H3. unfold BIP32Hash. rewrite child_bytes.
  rewrite (@hmac_streaming CSHA512_stream _ j1 j2 j3 chainCode [[header]; data; WriteBE32 nChild] H1 H2 H3 :
    CHMAC_Finalize (CHMAC_Write (CHMAC_Write (CHMAC_Write (CHMAC_SHA512_new j1 j2 j3 chainCode) [header]) data) (WriteBE32 nChild)) = _).
  cbn [concat app]. by rewrite app_nil_r.
Qed.

(** ** The hashes of the script interpreter

    [OP_SHA256] and its siblings run a fresh object over the element. *)

Definition fresh_buffer : list Z := replicate 64 0.

Definition run_SHA256 (x : list Z) : list Z := CSHA256_Finalize (CSHA256_Write (CSHA256_new fresh_buffer) x).
Definition run_SHA1 (x : list Z) : list Z := CSHA1_Finalize (CSHA1_Write (CSHA1_new fresh_buffer) x).
Definition run_RIPEMD160 (x : list Z) : list Z := CRIPEMD160_Finalize (CRIPEMD160_Write (CRIPEMD160_new fresh_buffer) x).

Lemma run_SHA256_ref x : run_SHA256 x = SHA256_ref x.
Proof. apply CSHA256_Finalize_correct, (CSHA256_Write_holds _ [] x). by apply (@construct_holds SHA256_code). Qed.

Lemma run_SHA1_ref x : run_SHA1 x = SHA1_ref x.
Proof. apply CSHA1_Finalize_correct, (@write_holds SHA1_code SHA1_code_laws _ [] x). by apply (@construct_holds SHA1_code). Qed.

Lemma run_RIPEMD160_ref x : run_RIPEMD160 x = RIPEMD160_ref x.
Proof.
  apply CRIPEMD160_Finalize_correct, (@write_holds RIPEMD160_code RIPEMD160_code_laws _ [] x).
  by apply (@construct_holds RIPEMD160_code).
Qed.

#[global] Instance script_hashes : ScriptHashes := {|
  RIPEMD160 := run_RIPEMD160; SHA1 := run_SHA1; SHA256 := run_SHA256;
  RIPEMD160_size x := eq_ind_r (fun y => length y = 20%nat /\ bytes y) (RIPEMD160_ref_size x) (run_RIPEMD160_ref x);
  SHA1_size x := eq_ind_r (fun y => length y = 20%nat /\ bytes y) (SHA1_ref_size x) (run_SHA1_ref x);
  SHA256_size x := eq_ind_r (fun y => length y = 32%nat /\ bytes y) (SHA256_ref_size x) (run_SHA256_ref x);
|}.

(** ** Properties *)

(** C22: the four hash classes compute their standards.  However a message is cut
    into calls of [Write], and whatever the uninitialised buffer held, [Finalize]
    of [CSHA256], [CSHA512], [CSHA1] and [CRIPEMD160] returns the SHA-256, SHA-512,
    SHA-1 or RIPEMD-160 hash of the whole message; [CHash256] and [CHash160] return
    the hashes of the hash. *)
Theorem hash_classes_correct junk64 junk64' junk128 parts :
  length junk64 = 64%nat -> length junk64' = 64%nat -> length junk128 = 128%nat ->
  CSHA256_Finalize (fold_left CSHA256_Write parts (CSHA256_new junk64)) = SHA256_ref (concat parts) /\
  CSHA512_Finalize (fold_left CSHA512_Write parts (CSHA512_new junk128)) = SHA512_ref (concat parts) /\
  CSHA1_Finalize (fold_left CSHA1_Write parts (CSHA1_new junk64)) = SHA1_ref (concat parts) /\
  CRIPEMD160_Finalize (fold_left CRIPEMD160_Write parts (CRIPEMD160_new junk64)) = RIPEMD160_ref (concat parts) /\
  CHash256_Finalize (fold_left CHash256_Write parts (CSHA256_new junk64)) = SHA256_ref (SHA256_ref (concat parts)) /\
  CHash160_Finalize junk64' (fold_left CHash160_Write parts (CSHA256_new junk64)) = RIPEMD160_ref (SHA256_ref (concat parts)).
Proof.
  intros H64 H64' H128. split_and!.
  - by apply SHA256_streaming.
  - by apply SHA512_streaming.
  - by apply SHA1_streaming.
  - by apply RIPEMD160_streaming.
  - exact (Hash_correct junk64 parts H64).
  - apply CHash160_Finalize_correct; [done|]. apply (CSHA256_writes_hold parts _ []). by apply (@construct_holds SHA256_code).
Qed.

Lemma hash_classes_correct_witness :
  CSHA256_Finalize (fold_left CSHA256_Write [[0x61]; [0x62; 0x63]] (CSHA256_new (replicate 64 7)))
  = SHA256_ref (concat [[0x61]; [0x62; 0x63]]).
Proof.
  exact (proj1 (hash_classes_correct (replicate 64 7) (replicate 64 7) (replicate 128 7) [[0x61]; [0x62; 0x63]]
    eq_refl eq_refl eq_refl)).
Defined.

(** C23: [SHA256D64] computes the double hash of each 64-byte block, with the
    unrolled [TransformD64] and its folded constants, and with any vector versions
    that do what they promise for 8, 4 and 2 blocks. *)
Theorem SHA256D64_correct way8 way4 way2 inp blocks :
  opt_way_ok 8 way8 -> opt_way_ok 4 way4 -> opt_way_ok 2 way2 -> (64 * blocks <= length inp)%nat ->
  SHA256D64 way8 way4 way2 inp blocks = d64_ref blocks inp.
Proof. apply d64_batch. Qed.

Lemma SHA256D64_correct_witness :
  SHA256D64 None None (Some (d64_ref 2)) (replicate 192 0) 3 = d64_ref 3 (replicate 192 0).
Proof. apply (SHA256D64_correct None None (Some (d64_ref 2)) (replicate 192 0) 3); [done | done | by intros ? | cbn; lia]. Defined.

(** [CHMAC_SHA256] and [CHMAC_SHA512] compute HMAC of RFC 2104 over their
    hash, for keys of every length and messages cut up in every way, and
    [BIP32Hash] is HMAC-SHA-512 under the chain code of the header, the data and the
    child number. *)
Theorem hmac_correct j1 j2 j3 k1 k2 k3 key parts chainCode nChild header data :
  length j1 = 64%nat -> length j2 = 64%nat -> length j3 = 64%nat ->
  length k1 = 128%nat -> length k2 = 128%nat -> length k3 = 128%nat ->
  CHMAC_Finalize (fold_left CHMAC_Write parts (CHMAC_SHA256_new j1 j2 j3 key))
    = @HMAC_ref CSHA256_stream _ key (concat parts) /\
  CHMAC_Finalize (fold_left CHMAC_Write parts (CHMAC_SHA512_new k1 k2 k3 key))
    = @HMAC_ref CSHA512_stream _ key (concat parts) /\
  BIP32Hash k1 k2 k3 chainCode nChild header data
    = @HMAC_ref CSHA512_stream _ chainCode (header :: data ++ WriteBE32 nChild).
Proof.
  intros. split_and!; [by apply (@hmac_streaming CSHA256_stream) | by apply (@hmac_streaming CSHA512_stream) | by apply BIP32Hash_correct].
Qed.

Lemma hmac_correct_witness :
  CHMAC_Finalize (fold_left CHMAC_Write [[1]; [2; 3]] (CHMAC_SHA256_new (replicate 64 7) (replicate 64 8) (replicate 64 9) [1; 2]))
    = @HMAC_ref CSHA256_stream _ [1; 2] (concat [[1]; [2; 3]]).
Proof.
  exact (proj1 (hmac_correct (replicate 64 7) (replicate 64 8) (replicate 64 9) (replicate 128 7) (replicate 128 8)
    (replicate 128 9) [1; 2] [[1]; [2; 3]] [] 0 0 [] eq_refl eq_refl eq_refl eq_refl eq_refl eq_refl)).
Defined.
