(* ===== verification/Transaction.v ===== *)
(** * Transactions and their serialization (primitives/transaction.h)

    Hashes are 32-byte lists.  [nVersion] and [nType] are [int16_t] and share the
    32-bit version field of the stream. *)

From S2P Require Import Prelude ScriptNum Script Serialize Interpreter.

(** ** Data *)

(** the bytes of a [uint256] *)
Abbreviation uint256 := (list Z).

(** amount.h *)
Definition COIN : Z := 100000000.
Definition MAX_MONEY : Z := 21000000000 * COIN.
Definition MoneyRange (nValue : Z) : bool := (nValue >=? 0) && (nValue <=? MAX_MONEY).

(** [MAX_BLOCK_WEIGHT_RIP2], [MIN_TRANSACTION_WEIGHT], [GetMaxBlockWeight()] *)
Definition MAX_BLOCK_WEIGHT_RIP2 : Z := 8000000.
Definition WITNESS_SCALE_FACTOR : Z := 4.
Definition MIN_TRANSACTION_WEIGHT : Z := WITNESS_SCALE_FACTOR * 60.
Definition GetMaxBlockWeight : Z := MAX_BLOCK_WEIGHT_RIP2.

Record COutPoint := MkCOutPoint { op_hash : list Z; op_n : Z }.

Record CTxIn := MkCTxIn {
  prevout : COutPoint;
  scriptSig : script_bytes;
  nSequence : Z;
  scriptWitness : list valtype;
}.

(** [nRounds] is kept in memory only *)
Record CTxOut := MkCTxOut { nValue : Z; scriptPubKey : script_bytes; nRounds : Z }.

Record CTransaction := MkCTransaction {
  nVersion : Z;
  nType : Z;
  vin : list CTxIn;
  vout : list CTxOut;
  nLockTime : Z;
  vExtraPayload : list Z;
}.

Definition SEQUENCE_FINAL : Z := 0xffffffff.
Definition SEQUENCE_LOCKTIME_TYPE_FLAG : Z := Z.shiftl 1 22.
Definition SEQUENCE_LOCKTIME_MASK : Z := 0x0000ffff.
Definition TRANSACTION_NORMAL : Z := 0.

#[global] Instance COutPoint_eq_dec : EqDecision COutPoint.
Proof. solve_decision. Defined.
#[global] Instance CTxIn_eq_dec : EqDecision CTxIn.
Proof. solve_decision. Defined.
#[global] Instance CTxOut_eq_dec : EqDecision CTxOut.
Proof. solve_decision. Defined.
#[global] Instance CTransaction_eq_dec : EqDecision CTransaction.
Proof. solve_decision. Defined.

Definition i16 (x : Z) : Z := wrap_signed 16 x.

(** [COutPoint::SetNull], [IsNull]; [CTxOut::SetNull] *)
Definition null_outpoint : COutPoint := MkCOutPoint (replicate 32 0) (2 ^ 32 - 1).
Definition outpoint_IsNull (o : COutPoint) : bool :=
  bool_decide (op_hash o = replicate 32 0) && (op_n o =? 2 ^ 32 - 1).
Definition null_txout : CTxOut := MkCTxOut (-1) [] (-10).

(** [IsCoinBase], [HasWitness] *)
Definition IsCoinBase (tx : CTransaction) : bool :=
  match vin tx with [i] => outpoint_IsNull (prevout i) | _ => false end.
Definition HasWitness (tx : CTransaction) : bool :=
  existsb (fun i => negb (bool_decide (scriptWitness i = []))) (vin tx).

(** ** Serialization *)

(** [ADD_SERIALIZE_METHODS] of the three classes, writing and reading *)
Definition Serialize_COutPoint (o : COutPoint) : list Z := op_hash o ++ ser_writedata32 (op_n o).
Definition Unserialize_COutPoint : parser COutPoint :=
  h ← read 32; n ← ser_readdata32; mret (MkCOutPoint h n).

Definition Serialize_CTxIn (i : CTxIn) : list Z :=
  Serialize_COutPoint (prevout i) ++ Serialize_bytes (scriptSig i) ++ ser_writedata32 (nSequence i).
Definition Unserialize_CTxIn : parser CTxIn :=
  p ← Unserialize_COutPoint; s ← Unserialize_bytes; q ← ser_readdata32; mret (MkCTxIn p s q []).

Definition Serialize_CTxOut (o : CTxOut) : list Z :=
  ser_writedata64 (nValue o) ++ Serialize_bytes (scriptPubKey o).
Definition Unserialize_CTxOut : parser CTxOut :=
  v ← ser_readdata64; s ← Unserialize_bytes; mret (MkCTxOut (i64 v) s (-10)).

(** [tx.nVersion | (tx.nType << 16)], an [int32_t] *)
Definition n32bitVersion (tx : CTransaction) : Z := i32 (Z.lor (nVersion tx) (Z.shiftl (nType tx) 16)).

(** the part behind [vout] when the type has a payload *)
Definition has_payload (version type : Z) : bool := (version =? 3) && negb (type =? TRANSACTION_NORMAL).

(** [SerializeTransaction(tx, s)]; [fAllowWitness] is read off the stream version *)
Definition SerializeTransaction (fAllowWitness : bool) (tx : CTransaction) : list Z :=
  let flags := if fAllowWitness && HasWitness tx then 1 else 0 in
  ser_writedata32 (n32bitVersion tx) ++
  (if negb (flags =? 0) then Serialize_vector Serialize_CTxIn [] ++ ser_writedata8 flags else []) ++
  Serialize_vector Serialize_CTxIn (vin tx) ++
  Serialize_vector Serialize_CTxOut (vout tx) ++
  (if negb (Z.land flags 1 =? 0)
   then concat (map (fun i => Serialize_vector Serialize_bytes (scriptWitness i)) (vin tx)) else []) ++
  ser_writedata32 (nLockTime tx) ++
  (if has_payload (nVersion tx) (nType tx) then Serialize_bytes (vExtraPayload tx) else []).

(** [for (i = 0; i < tx.vin.size(); i++) s >> tx.vin[i].scriptWitness.stack] *)
Fixpoint read_witnesses (l : list CTxIn) : parser (list CTxIn) :=
  match l with
  | [] => mret []
  | i :: l =>
      w ← Unserialize_vector Unserialize_bytes;
      l ← read_witnesses l;
      mret (MkCTxIn (prevout i) (scriptSig i) (nSequence i) w :: l)
  end.

(** the inputs, outputs and flags up to the witness *)
Definition read_inputs_outputs (fAllowWitness : bool) : parser (list CTxIn * list CTxOut * Z) :=
  ins ← Unserialize_vector Unserialize_CTxIn;
  if (zlen ins =? 0) && fAllowWitness then
    flags ← ser_readdata8;
    if negb (flags =? 0) then
      ins ← Unserialize_vector Unserialize_CTxIn;
      outs ← Unserialize_vector Unserialize_CTxOut;
      mret (ins, outs, flags)
    else mret ([], [], flags)
  else
    outs ← Unserialize_vector Unserialize_CTxOut;
    mret (ins, outs, 0).

(** [UnserializeTransaction(tx, s)] *)
Definition UnserializeTransaction (fAllowWitness : bool) : parser CTransaction :=
  v ← ser_readdata32;
  let version := i16 (Z.land (i32 v) 0xffff) in
  let type := i16 (Z.land (Z.shiftr (i32 v) 16) 0xffff) in
  p ← read_inputs_outputs fAllowWitness;
  let '(ins, outs, flags) := (p : list CTxIn * list CTxOut * Z) in
  p ← (if negb (Z.land flags 1 =? 0) && fAllowWitness
       then ins ← read_witnesses ins; mret (ins, Z.lxor flags 1)
       else mret (ins, flags));
  let '(ins, flags) := (p : list CTxIn * Z) in
  throw_if (negb (flags =? 0));;
  lock ← ser_readdata32;
  payload ← (if has_payload version type then Unserialize_bytes else mret []);
  mret (MkCTransaction version type ins outs lock payload).

(** [CTransaction::ComputeHash], [GetWitnessHash] *)
Definition GetHash `{ScriptHashes} (tx : CTransaction) : list Z := Hash256 (SerializeTransaction false tx).
Definition GetWitnessHash `{ScriptHashes} (tx : CTransaction) : list Z :=
  if negb (HasWitness tx) then GetHash tx else Hash256 (SerializeTransaction true tx).

(** ** Round trip *)

Definition outpoint_ok (o : COutPoint) : Prop := length (op_hash o) = 32%nat /\ is_u32 (op_n o).
Definition txin_ok (i : CTxIn) : Prop :=
  outpoint_ok (prevout i) /\ zlen (scriptSig i) <= MAX_SIZE /\ is_u32 (nSequence i).
Definition txout_ok (o : CTxOut) : Prop := is_i64 (nValue o) /\ zlen (scriptPubKey o) <= MAX_SIZE /\ nRounds o = -10.
Definition witness_ok (w : list valtype) : Prop := Forall (fun x => zlen x <= MAX_SIZE) w /\ zlen w <= MAX_SIZE.

(** values the fields of a transaction can have in the stream; a negative
    [nVersion] is left out, see [negative_version_collides] *)
Record tx_ok (tx : CTransaction) : Prop := {
  tx_version_ok : 0 <= nVersion tx < 2 ^ 15;
  tx_type_ok : - 2 ^ 15 <= nType tx < 2 ^ 15;
  tx_vin_ok : Forall txin_ok (vin tx) /\ zlen (vin tx) <= MAX_SIZE;
  tx_witness_ok : Forall (fun i => witness_ok (scriptWitness i)) (vin tx);
  tx_vout_ok : Forall txout_ok (vout tx) /\ zlen (vout tx) <= MAX_SIZE;
  tx_lock_ok : is_u32 (nLockTime tx);
  tx_payload_ok : if has_payload (nVersion tx) (nType tx) then zlen (vExtraPayload tx) <= MAX_SIZE else vExtraPayload tx = [];
}.

(** what a reader that does not see witnesses gets *)
Definition strip_in (i : CTxIn) : CTxIn := MkCTxIn (prevout i) (scriptSig i) (nSequence i) [].
Definition strip (tx : CTransaction) : CTransaction :=
  MkCTransaction (nVersion tx) (nType tx) (map strip_in (vin tx)) (vout tx) (nLockTime tx) (vExtraPayload tx).

Lemma readdata32_write x s : is_u32 x -> ser_readdata32 (ser_writedata32 x ++ s) = Some (x, s).
Proof. intros Hx. apply (read_le_write 4). exact Hx. Qed.

Lemma readdata8_write x s : is_u8 x -> ser_readdata8 (ser_writedata8 x ++ s) = Some (x, s).
Proof. intros Hx. apply (read_le_write 1). exact Hx. Qed.

Lemma COutPoint_reads : reads outpoint_ok id Serialize_COutPoint Unserialize_COutPoint.
Proof.
  intros [h n] s [Hh Hn]. simpl in *. unfold Serialize_COutPoint, Unserialize_COutPoint. rewrite <- app_assoc. simpl.
  rewrite (parser_bind_eq _ _ _ h (ser_writedata32 n ++ s)) by (change 32 with (Z.of_nat 32); rewrite <- Hh; apply read_app).
  by rewrite (parser_bind_eq _ _ _ n s) by (by apply readdata32_write).
Qed.

Lemma CTxIn_reads : reads txin_ok strip_in Serialize_CTxIn Unserialize_CTxIn.
Proof.
  intros i s (Ho & Hs & Hn). unfold Serialize_CTxIn, Unserialize_CTxIn. rewrite <- !app_assoc.
  rewrite (parser_bind_eq _ _ _ _ _ (COutPoint_reads _ _ Ho)). rewrite (parser_bind_eq _ _ _ _ _ (bytes_reads _ _ Hs)).
  by rewrite (parser_bind_eq _ _ _ _ _ (readdata32_write _ _ Hn)).
Qed.

Lemma i64_mod x : is_i64 x -> i64 (x mod 2 ^ 64) = x.
Proof.
  unfold is_i64. intros Hx. unfold i64, wrap_signed. change (64 - 1) with 63.
  rewrite Zplus_mod_idemp_l, Z.mod_small by lia. lia.
Qed.

Lemma CTxOut_reads : reads txout_ok id Serialize_CTxOut Unserialize_CTxOut.
Proof.
  intros [v sc r] s (Hv & Hs & Hr). cbn [nValue scriptPubKey nRounds] in *. subst r.
  unfold Serialize_CTxOut, Unserialize_CTxOut. rewrite <- !app_assoc. cbn [nValue scriptPubKey]. rewrite (parser_bind_eq _ _ _ _ _ (read_le_mod 8 v (Serialize_bytes sc ++ s))).
  rewrite (parser_bind_eq _ _ _ _ _ (bytes_reads sc s Hs)). change (256 ^ Z.of_nat 8) with (2 ^ 64).
  by rewrite i64_mod.
Qed.

Lemma i32_mod x : is_i32 x -> i32 (x mod 2 ^ 32) = x.
Proof.
  unfold is_i32. intros Hx. unfold i32, wrap_signed. change (32 - 1) with 31.
  rewrite Zplus_mod_idemp_l, Z.mod_small by lia. lia.
Qed.

Lemma i16_mod x : - 2 ^ 15 <= x < 2 ^ 15 -> i16 (x mod 2 ^ 16) = x.
Proof.
  intros Hx. unfold i16, wrap_signed. change (16 - 1) with 15.
  rewrite Zplus_mod_idemp_l, Z.mod_small by lia. lia.
Qed.

(** the version field holds both halves when the version is not negative *)
Lemma version_split v t : 0 <= v < 2 ^ 15 -> - 2 ^ 15 <= t < 2 ^ 15 ->
  let x := i32 (Z.lor v (Z.shiftl t 16)) in
  is_i32 x /\ i16 (Z.land x 0xffff) = v /\ i16 (Z.land (Z.shiftr x 16) 0xffff) = t.
Proof.
  intros Hv Ht x.
  assert (Ex : x = v + t * 2 ^ 16).
  { unfold x. rewrite Z.shiftl_mul_pow2, lor_disjoint_add by lia. apply i32_small. unfold is_i32. lia. }
  rewrite Ex. split; [unfold is_i32; lia|]. change 0xffff with (2 ^ 16 - 1).
  rewrite !land_mask, Z.shiftr_div_pow2 by lia. rewrite Z.mod_add, Z.div_add, Z.div_small by lia. split.
  - apply i16_mod. lia.
  - rewrite Z.add_0_l. by apply i16_mod.
Qed.

Lemma read_witnesses_app l s : Forall (fun i => witness_ok (scriptWitness i)) l ->
  read_witnesses (map strip_in l) (concat (map (fun i => Serialize_vector Serialize_bytes (scriptWitness i)) l) ++ s) = Some (l, s).
Proof.
  intros H. induction H as [|i l Hi Hl IH]; [done|]. cbn [map concat read_witnesses]. rewrite <- app_assoc.
  rewrite (parser_bind_eq _ _ _ _ _ (vector_reads _ _ _ _ bytes_reads _ _ Hi)). rewrite (parser_bind_eq _ _ _ _ _ IH).
  rewrite map_id. by destruct i.
Qed.

(** the reader behind the version field, when no witness is written *)
Lemma read_plain fAllow tx s : tx_ok tx -> (fAllow = true -> vin tx <> [] /\ HasWitness tx = false) ->
  read_inputs_outputs fAllow
    (Serialize_vector Serialize_CTxIn (vin tx) ++ Serialize_vector Serialize_CTxOut (vout tx) ++ s) =
  Some ((map strip_in (vin tx), vout tx, 0), s).
Proof.
  intros [_ _ Hin _ Hout _ _] Hw. unfold read_inputs_outputs.
  rewrite (parser_bind_eq _ _ _ _ _ (vector_reads _ _ _ _ CTxIn_reads _ _ Hin)). rewrite length_map.
  assert (E : (zlen (vin tx) =? 0) && fAllow = false).
  { destruct fAllow; [|apply andb_false_r]. destruct (Hw eq_refl) as [Hne _]. rewrite andb_true_r. apply Z.eqb_neq.
    destruct (vin tx); [done | simpl; lia]. }
  rewrite E, (parser_bind_eq _ _ _ _ _ (vector_reads _ _ _ _ CTxOut_reads _ _ Hout)). by rewrite map_id.
Qed.

(** the end of the stream: lock time and payload *)
Lemma read_tail tx s : tx_ok tx -> forall ins outs,
  (lock ← ser_readdata32;
   payload ← (if has_payload (nVersion tx) (nType tx) then Unserialize_bytes else mret []);
   mret (MkCTransaction (nVersion tx) (nType tx) ins outs lock payload))
    ((ser_writedata32 (nLockTime tx) ++
      (if has_payload (nVersion tx) (nType tx) then Serialize_bytes (vExtraPayload tx) else [])) ++ s) =
  Some (MkCTransaction (nVersion tx) (nType tx) ins outs (nLockTime tx) (vExtraPayload tx), s).
Proof.
  intros [_ _ _ _ _ Hl Hp] ins outs. rewrite <- app_assoc. rewrite (parser_bind_eq _ _ _ _ _ (readdata32_write _ _ Hl)).
  destruct (has_payload _ _).
  - by rewrite (parser_bind_eq _ _ _ _ _ (bytes_reads _ _ Hp)).
  - by rewrite Hp.
Qed.

Lemma read_version tx s : tx_ok tx ->
  exists v, ser_readdata32 (ser_writedata32 (n32bitVersion tx) ++ s) = Some (v, s) /\
    i16 (Z.land (i32 v) 0xffff) = nVersion tx /\ i16 (Z.land (Z.shiftr (i32 v) 16) 0xffff) = nType tx.
Proof.
  intros [Hv Ht _ _ _ _ _]. destruct (version_split _ _ Hv Ht) as (Hx & E1 & E2).
  exists (n32bitVersion tx mod 2 ^ 32). split; [exact (read_le_mod 4 (n32bitVersion tx) s)|].
  unfold n32bitVersion. by rewrite i32_mod.
Qed.

Lemma strip_no_witness tx : HasWitness tx = false -> strip tx = tx.
Proof.
  intros H. destruct tx as [ver ty ins outs lock pay]. unfold strip, HasWitness in *. simpl in *. f_equal.
  induction ins as [|[p sc q w] ins IH]; [done|]. simpl in *. apply orb_false_iff in H as [Hw H].
  rewrite IH by done. f_equal. unfold strip_in. simpl. bool_to_prop. by subst w.
Qed.

Lemma Unserialize_Serialize_plain fAllow tx s : tx_ok tx -> (fAllow = true -> vin tx <> [] /\ HasWitness tx = false) ->
  UnserializeTransaction fAllow (SerializeTransaction fAllow tx ++ s) = Some (strip tx, s).
Proof.
  intros Hok Hw. unfold UnserializeTransaction, SerializeTransaction.
  assert (E : fAllow && HasWitness tx = false) by (destruct fAllow; [by apply Hw | done]). rewrite E.
  cbn [negb Z.eqb Z.land app]. rewrite <- !app_assoc.
  destruct (read_version tx (Serialize_vector Serialize_CTxIn (vin tx) ++ Serialize_vector Serialize_CTxOut (vout tx) ++
    ser_writedata32 (nLockTime tx) ++
    (if has_payload (nVersion tx) (nType tx) then Serialize_bytes (vExtraPayload tx) else []) ++ s) Hok) as (v & Ev & E1 & E2).
  rewrite (parser_bind_eq _ _ _ _ _ Ev). cbv zeta. rewrite E1, E2.
  rewrite (parser_bind_eq _ _ _ _ _ (read_plain fAllow tx _ Hok Hw)). cbn [negb Z.eqb Z.land andb].
  rewrite (parser_bind_eq _ _ _ (map strip_in (vin tx), 0) _) by done. rewrite throw_if_pass by done.
  rewrite app_assoc. by rewrite read_tail.
Qed.

Lemma Unserialize_Serialize_witness tx s : tx_ok tx -> HasWitness tx = true ->
  UnserializeTransaction true (SerializeTransaction true tx ++ s) = Some (tx, s).
Proof.
  intros Hok Hw. unfold UnserializeTransaction, SerializeTransaction. rewrite Hw.
  change (negb (Z.land 1 1 =? 0)) with true. cbn [negb Z.eqb andb]. rewrite <- !app_assoc.
  match goal with |- context [ser_writedata32 (n32bitVersion tx) ++ ?r] =>
    destruct (read_version tx r Hok) as (v & Ev & E1 & E2) end.
  rewrite (parser_bind_eq _ _ _ _ _ Ev). cbv zeta. rewrite E1, E2. pose proof Hok as [_ _ Hin Hwit Hout _ _].
  match goal with |- context [ser_writedata8 1 ++ ?r] => set (rest := r) end.
  assert (Er : read_inputs_outputs true (Serialize_vector Serialize_CTxIn [] ++ ser_writedata8 1 ++ rest) =
    Some ((map strip_in (vin tx), vout tx, 1),
      concat (map (fun i => Serialize_vector Serialize_bytes (scriptWitness i)) (vin tx)) ++
      ser_writedata32 (nLockTime tx) ++
      (if has_payload (nVersion tx) (nType tx) then Serialize_bytes (vExtraPayload tx) else []) ++ s)).
  { unfold read_inputs_outputs, rest.
    assert (Hnil : Forall txin_ok [] /\ zlen (@nil CTxIn) <= MAX_SIZE) by (split; [constructor | unfold MAX_SIZE; simpl; lia]).
    rewrite (parser_bind_eq _ _ _ _ _ (vector_reads _ _ _ _ CTxIn_reads _ _ Hnil)). change ((zlen (map strip_in []) =? 0) && true) with true. cbv iota.
    rewrite (parser_bind_eq _ _ _ _ _ (readdata8_write 1 _ ltac:(unfold is_u8; lia))). cbn [negb Z.eqb].
    rewrite (parser_bind_eq _ _ _ _ _ (vector_reads _ _ _ _ CTxIn_reads _ _ Hin)).
    rewrite (parser_bind_eq _ _ _ _ _ (vector_reads _ _ _ _ CTxOut_reads _ _ Hout)). by rewrite map_id. }
  rewrite (parser_bind_eq _ _ _ _ _ Er). change (negb (Z.land 1 1 =? 0) && true) with true. cbv iota.
  rewrite (parser_bind_eq _ _ _ (vin tx, 0) (ser_writedata32 (nLockTime tx) ++
      (if has_payload (nVersion tx) (nType tx) then Serialize_bytes (vExtraPayload tx) else []) ++ s)).
  - rewrite throw_if_pass by done. rewrite app_assoc, read_tail by done. by destruct tx.
  - by rewrite (parser_bind_eq _ _ _ _ _ (read_witnesses_app _ _ Hwit)).
Qed.

(** ** Properties *)

(** C32: reading back a serialized transaction that has an input, a version that is not
    negative and fields within their limits gives the transaction, in the format with
    witnesses; in the format without, it gives the transaction stripped of its
    witnesses; whatever follows in the stream. *)
Theorem transaction_roundtrip tx s :
  tx_ok tx -> vin tx <> [] ->
  UnserializeTransaction true (SerializeTransaction true tx ++ s) = Some (tx, s) /\
  UnserializeTransaction false (SerializeTransaction false tx ++ s) = Some (strip tx, s).
Proof.
  intros Hok Hne. split; [|by apply Unserialize_Serialize_plain].
  destruct (HasWitness tx) eqn:Hw; [by apply Unserialize_Serialize_witness|].
  rewrite Unserialize_Serialize_plain by auto. by rewrite strip_no_witness.
Qed.

Definition sample_tx : CTransaction :=
  MkCTransaction 3 1 [MkCTxIn (MkCOutPoint (replicate 32 7) 1) [0x51] 0xfffffffe [[1; 2]; []]]
    [MkCTxOut 5000 [0x76; 0xa9] (-10)] 17 [1; 2; 3].

Lemma sample_tx_ok : tx_ok sample_tx.
Proof.
  split; simpl; unfold is_u32, MAX_SIZE; try lia; repeat (constructor || split); simpl; unfold is_u32, is_i64, MAX_SIZE; lia.
Qed.

Lemma transaction_roundtrip_witness :
  UnserializeTransaction true (SerializeTransaction true sample_tx ++ [9]) = Some (sample_tx, [9]) /\
  UnserializeTransaction false (SerializeTransaction false sample_tx ++ [9]) = Some (strip sample_tx, [9]).
Proof. apply (transaction_roundtrip sample_tx [9] sample_tx_ok). discriminate. Defined.

(** A negative [nVersion] is sign-extended over [nType]: two transactions that
    agree but for their type and payload have the same serialization, hence the
    same transaction hash. *)
Theorem negative_version_collides (hashes : ScriptHashes) tx tx' :
  - 2 ^ 15 <= nVersion tx < 0 -> - 2 ^ 15 <= nType tx < 2 ^ 15 -> - 2 ^ 15 <= nType tx' < 2 ^ 15 ->
  nVersion tx' = nVersion tx -> vin tx' = vin tx -> vout tx' = vout tx -> nLockTime tx' = nLockTime tx ->
  GetHash tx' = GetHash tx.
Proof.
  intros Hv Ht Ht' Ev Ei Eo El. unfold GetHash, SerializeTransaction. f_equal.
  assert (Hall : forall t, n32bitVersion (MkCTransaction (nVersion tx) t [] [] 0 []) = nVersion tx).
  { intros t. unfold n32bitVersion. simpl. transitivity (i32 (nVersion tx)); [f_equal | apply i32_small; unfold is_i32; lia].
    apply Z.bits_inj'. intros j Hj. rewrite Z.lor_spec. destruct (Z.lt_ge_cases j 16).
    - rewrite Z.shiftl_spec_low by lia. apply orb_false_r.
    - replace (Z.testbit (nVersion tx) j) with true; [done|]. symmetry.
      apply Z.bits_above_log2_neg; [lia|].
      assert (Z.log2 (Z.pred (- nVersion tx)) <= Z.log2 (2 ^ 15)) by (apply Z.log2_le_mono; lia).
      rewrite Z.log2_pow2 in H0 by lia. lia. }
  unfold n32bitVersion in *. rewrite Ev.
  pose proof (Hall (nType tx)) as H1. pose proof (Hall (nType tx')) as H2. simpl in H1, H2. rewrite H1, H2, Ei, Eo, El.
  unfold has_payload. by rewrite (proj2 (Z.eqb_neq (nVersion tx) 3)) by lia.
Qed.

Definition negative_tx (type : Z) : CTransaction := MkCTransaction (-1) type [] [] 0 [].

Lemma negative_version_collides_witness : nType (negative_tx 5) <> nType (negative_tx 6) /\
  @GetHash sample_hashes (negative_tx 5) = @GetHash sample_hashes (negative_tx 6).
Proof. split; [done|]. apply (negative_version_collides sample_hashes (negative_tx 6) (negative_tx 5)); simpl; lia || done. Defined.
