(* ===== verification/Sighash.v ===== *)
(** * Signature hashes and the transaction signature checker
    (script/interpreter.cpp, [CTransactionSignatureSerializer], [SignatureHash],
    [TransactionSignatureChecker])

    A hash writer is the byte list written to it, hashed by [Hash256] at the end.
    An index outside [vin] or [vout], and the assertion [nIn < txTo.vin.size()],
    are [None]. *)

From S2P Require Import Prelude Opcodes ScriptNum Script Serialize Interpreter Transaction.
Import Script.

(** ** The serializer *)

Record signature_serializer := SignatureSerializer {
  txTo : CTransaction;
  scriptCode : script_bytes;
  nIn : Z;
  fAnyoneCanPay : bool;
  fHashSingle : bool;
  fHashNone : bool;
}.

(** the constructor *)
Definition CTransactionSignatureSerializer (tx : CTransaction) (code : script_bytes) (n nHashType : Z) :
    signature_serializer :=
  SignatureSerializer tx code n (has nHashType SIGHASH_ANYONECANPAY)
    (Z.land nHashType 0x1f =? SIGHASH_SINGLE) (Z.land nHashType 0x1f =? SIGHASH_NONE).

(** the second loop of [SerializeScriptCode], with the iterators [it] and [itBegin] *)
Definition script_code_step (st : script_bytes * script_bytes * list Z) :
    script_bytes * script_bytes * list Z + script_bytes * script_bytes * list Z :=
  let '(it, itBegin, out) := st in
  match GetOp2 it with
  | (it, None) => inr (it, itBegin, out)
  | (it, Some (opcode, _)) =>
      if opcode =? OP_CODESEPARATOR
      then inl (it, it, out ++ take (length itBegin - length it - 1) itBegin)
      else inl (it, itBegin, out)
  end.

(** [SerializeScriptCode]; its first loop is the one of [CScript::Find] *)
Definition SerializeScriptCode (code : script_bytes) : list Z :=
  let nCodeSeparators := Find code OP_CODESEPARATOR in
  WriteCompactSize (zlen code - nCodeSeparators) ++
  match while_loop script_code_step (S (length code)) (code, code, []) with
  | Some (it, itBegin, out) =>
      if bool_decide (itBegin <> []) then out ++ take (length itBegin - length it) itBegin else out
  | None => []
  end.

Definition SerializeInput (t : signature_serializer) (nInput : Z) : option (list Z) :=
  let nInput := if fAnyoneCanPay t then nIn t else nInput in
  txin ← vin (txTo t) !! Z.to_nat nInput;
  Some (Serialize_COutPoint (prevout txin) ++
    (if negb (nInput =? nIn t) then Serialize_bytes [] else SerializeScriptCode (scriptCode t)) ++
    (if negb (nInput =? nIn t) && (fHashSingle t || fHashNone t) then ser_writedata32 0
     else ser_writedata32 (nSequence txin))).

Definition SerializeOutput (t : signature_serializer) (nOutput : Z) : option (list Z) :=
  if fHashSingle t && negb (nOutput =? nIn t) then Some (Serialize_CTxOut null_txout)
  else Serialize_CTxOut <$> vout (txTo t) !! Z.to_nat nOutput.

(** [Serialize] *)
Definition SerializeSignatureTransaction (t : signature_serializer) : option (list Z) :=
  let tx := txTo t in
  let nInputs := if fAnyoneCanPay t then 1 else u32 (zlen (vin tx)) in
  let nOutputs := if fHashNone t then 0 else if fHashSingle t then u32 (nIn t + 1) else u32 (zlen (vout tx)) in
  ins ← mapM (SerializeInput t) (seqZ 0 nInputs);
  outs ← mapM (SerializeOutput t) (seqZ 0 nOutputs);
  Some (ser_writedata32 (n32bitVersion tx) ++
    WriteCompactSize nInputs ++ concat ins ++
    WriteCompactSize nOutputs ++ concat outs ++
    ser_writedata32 (nLockTime tx) ++
    (if has_payload (nVersion tx) (nType tx) then Serialize_bytes (vExtraPayload tx) else [])).

(** ** SignatureHash *)

Section SignatureHash.
Context `{ScriptHashes}.

Definition GetPrevoutHash (tx : CTransaction) : list Z :=
  Hash256 (concat (map (fun i => Serialize_COutPoint (prevout i)) (vin tx))).
Definition GetSequenceHash (tx : CTransaction) : list Z :=
  Hash256 (concat (map (fun i => ser_writedata32 (nSequence i)) (vin tx))).
Definition GetOutputsHash (tx : CTransaction) : list Z :=
  Hash256 (concat (map Serialize_CTxOut (vout tx))).

(** [PrecomputedTransactionData] and its constructor *)
Record precomputed := Precomputed {
  hashPrevouts : list Z;
  hashSequence : list Z;
  hashOutputs : list Z;
  ready : bool;
}.

Definition uint256_zero : list Z := replicate 32 0.
Definition uint256_one : list Z := 1 :: replicate 31 0.

Definition PrecomputedTransactionData (tx : CTransaction) : precomputed :=
  if HasWitness tx
  then Precomputed (GetPrevoutHash tx) (GetSequenceHash tx) (GetOutputsHash tx) true
  else Precomputed uint256_zero uint256_zero uint256_zero false.

(** the bytes hashed for [SIGVERSION_WITNESS_V0] *)
Definition witness_preimage (code : script_bytes) (tx : CTransaction) (txin : CTxIn) (n nHashType amount : Z)
    (cache : option precomputed) : list Z :=
  let anyone := has nHashType SIGHASH_ANYONECANPAY in
  let single := Z.land nHashType 0x1f =? SIGHASH_SINGLE in
  let none := Z.land nHashType 0x1f =? SIGHASH_NONE in
  let cached (field : precomputed -> list Z) (h : list Z) :=
    match cache with Some c => if ready c then field c else h | None => h end in
  let prevouts := if negb anyone then cached hashPrevouts (GetPrevoutHash tx) else uint256_zero in
  let sequence :=
    if negb anyone && negb single && negb none then cached hashSequence (GetSequenceHash tx) else uint256_zero in
  let outputs :=
    if negb single && negb none then cached hashOutputs (GetOutputsHash tx)
    else if single then
      match vout tx !! Z.to_nat n with
      | Some o => Hash256 (Serialize_CTxOut o)
      | None => uint256_zero
      end
    else uint256_zero in
  ser_writedata16 (nVersion tx) ++ prevouts ++ sequence ++
  Serialize_COutPoint (prevout txin) ++ Serialize_bytes code ++ ser_writedata64 amount ++
  ser_writedata32 (nSequence txin) ++ outputs ++ ser_writedata32 (nLockTime tx) ++ ser_writedata32 nHashType.

(** the bytes hashed for [SIGVERSION_BASE] *)
Definition base_preimage (code : script_bytes) (tx : CTransaction) (n nHashType : Z) : option (list Z) :=
  ser ← SerializeSignatureTransaction (CTransactionSignatureSerializer tx code n nHashType);
  Some (ser ++ ser_writedata32 nHashType).

Definition SignatureHash (code : script_bytes) (tx : CTransaction) (n nHashType amount : Z) (v : SigVersion)
    (cache : option precomputed) : option (list Z) :=
  txin ← vin tx !! Z.to_nat n;
  match v with
  | SIGVERSION_WITNESS_V0 => Some (Hash256 (witness_preimage code tx txin n nHashType amount cache))
  | SIGVERSION_BASE =>
      if (Z.land nHashType 0x1f =? SIGHASH_SINGLE) && (n >=? zlen (vout tx)) then Some uint256_one
      else Hash256 <$> base_preimage code tx n nHashType
  end.
End SignatureHash.

(** ** The reference: edit the transaction, then serialize it

    [SignatureHashOld] of test/sighash_tests.cpp, for a transaction copied without
    its witnesses. *)

(** [txTmp] up to the inputs' sequence numbers *)
Definition blank_inputs (code : script_bytes) (n : nat) (others : bool) (l : list CTxIn) : list CTxIn :=
  imap (fun i x => MkCTxIn (prevout x) (if decide (i = n) then code else [])
                     (if others && negb (bool_decide (i = n)) then 0 else nSequence x) []) l.

(** [txTmp.vout.resize(nOut + 1)], every output before [nOut] null *)
Definition blank_outputs (n : nat) (l : list CTxOut) : list CTxOut :=
  replicate n null_txout ++ take 1 (drop n l).

(** the edited transaction *)
Definition txTmp (code : script_bytes) (tx : CTransaction) (n : nat) (nHashType : Z) : CTransaction :=
  let none := Z.land nHashType 0x1f =? SIGHASH_NONE in
  let single := Z.land nHashType 0x1f =? SIGHASH_SINGLE in
  let ins := blank_inputs (FindAndDelete code [opcode_value OP_CODESEPARATOR]).1 n (none || single) (vin tx) in
  MkCTransaction (nVersion tx) (nType tx)
    (if has nHashType SIGHASH_ANYONECANPAY then take 1 (drop n ins) else ins)
    (if none then [] else if single then blank_outputs n (vout tx) else vout tx)
    (nLockTime tx) (vExtraPayload tx).

Definition SignatureHashOld `{ScriptHashes} (code : script_bytes) (tx : CTransaction) (n nHashType : Z) : list Z :=
  if n >=? zlen (vin tx) then uint256_one
  else if (Z.land nHashType 0x1f =? SIGHASH_SINGLE) && (n >=? zlen (vout tx)) then uint256_one
  else Hash256 (SerializeTransaction false (txTmp code tx (Z.to_nat n) nHashType) ++ ser_writedata32 nHashType).

(** *** The script code *)

(** every operation of the script can be read *)
Definition parses (s : script_bytes) : Prop := parse_ops s <> None.

Definition parse_all : Z -> valtype -> list (Z * valtype) -> list (Z * valtype) + option (list (Z * valtype)) :=
  fun op d acc => inl (acc ++ [(op, d)]).

Lemma parses_acc s acc acc' :
  run_ops (fun _ => None) parse_all Some s acc <> None -> run_ops (fun _ => None) parse_all Some s acc' <> None.
Proof.
  revert acc acc'. induction s as [|o s IH] using ops_ind; intros acc acc'; rewrite !run_ops_unfold; [done|].
  destruct (GetOp2 (o :: s)) as [rest [[op d]|]] eqn:E; [|done]. unfold parse_all at 1 3. by eapply IH.
Qed.

Lemma parses_cons o s : parses (o :: s) <->
  exists rest op d, GetOp2 (o :: s) = (rest, Some (op, d)) /\ parses rest.
Proof.
  unfold parses, parse_ops. fold parse_all. rewrite run_ops_unfold. fold parse_all.
  destruct (GetOp2 (o :: s)) as [rest [[op d]|]] eqn:E.
  - unfold parse_all at 1. split.
    + intros Hp. exists rest, op, d. split; [done|]. by eapply parses_acc.
    + intros (rest' & op' & d' & [= <- <- <-] & Hp). by eapply parses_acc.
  - split; [done|]. intros (? & ? & ? & [=] & _).
Qed.

Abbreviation sep := (opcode_value OP_CODESEPARATOR).

Lemma GetOp2_sep s : GetOp2 (sep :: s) = (s, Some (sep, [])).
Proof. apply GetOp2_op; cbv [opcode_value]; lia. Qed.

Lemma GetOp2_head o s rest op d : GetOp2 (o :: s) = (rest, Some (op, d)) -> op = o.
Proof. intros H. apply GetOp2_suffix in H as [h [= -> _]]. done. Qed.

(** what deleting the separators does, along the operations *)
Lemma deletes_sep_spec s : parses s ->
  exists r n, deletes [sep] s r n /\ zlen s = zlen r + n /\
    (forall acc, run_ops id (fun opcode _ n => inl (if opcode =? sep then n + 1 else n)) id s acc = acc + n) /\
    forall h out, (exists it itBegin out', while_loop script_code_step (S (length s)) (s, h ++ s, out) = Some (it, itBegin, out') /\
      it = [] /\ out' ++ itBegin = out ++ h ++ r).
Proof.
  induction s as [|o s IH] using ops_ind.
  { intros _. exists [], 0. split; [by apply (deletes_stop [sep] [] [])|]. split; [done|]. split; [intros acc; rewrite run_ops_unfold; unfold id; lia|].
    intros h out. exists [], (h ++ []), out. split; [done|]. done. }
  intros (rest & op & d & Eg & Hp)%parses_cons. destruct (IH _ _ _ Eg Hp) as (r & n & Hd & Hl & Hf & Hw).
  pose proof (GetOp2_head _ _ _ _ _ Eg) as ->. pose proof (GetOp2_suffix _ _ _ _ Eg) as [h1 E1].
  pose proof (GetOp2_shorter _ _ _ _ Eg) as Hsh.
  assert (Hstep : forall x out r', while_loop script_code_step (S (length rest)) (rest, x, out) = Some r' ->
            while_loop script_code_step (length (o :: s)) (rest, x, out) = Some r')
    by (intros x out r' Hr; eapply while_fuel; [exact Hr | simpl in *; lia]).
  destruct (Z.eqb_spec o sep) as [->|Ho].
  - rewrite GetOp2_sep in Eg. injection Eg as <- <-. exists r, (n + 1).
    split; [by apply (deletes_match [sep] s)|]. split; [simpl; lia|]. split.
    + intros acc. rewrite run_ops_unfold, GetOp2_sep, Z.eqb_refl, Hf. lia.
    + intros h out. destruct (Hw [] (out ++ h)) as (it & ib & out' & Hr & -> & E).
      exists [], ib, out'. split; [|split; [done|]; by rewrite E, <- app_assoc].
      change (while_loop ?f (S ?k) ?x) with (match f x with inl s' => while_loop f k s' | inr r => Some r end).
      unfold script_code_step at 1. rewrite GetOp2_sep, Z.eqb_refl.
      replace (take _ (h ++ sep :: s)) with h; [by apply Hstep|].
      rewrite length_app. replace (length h + length (sep :: s) - length s - 1)%nat with (length h) by (simpl; lia).
      by rewrite take_app_length.
  - exists (o :: h1 ++ r), n. split.
    { apply (deletes_op [sep] (o :: s) rest o d (o :: h1)); [|done|done|done]. simpl. congruence. }
    split; [rewrite E1; simpl; rewrite !length_app; lia|]. split.
    + intros acc. rewrite run_ops_unfold, Eg, (proj2 (Z.eqb_neq _ _) Ho). by rewrite Hf.
    + intros h out. destruct (Hw (h ++ o :: h1) out) as (it & ib & out' & Hr & -> & E).
      exists [], ib, out'. split; [|split; [done|]; by rewrite E, <- !app_assoc].
      change (while_loop ?f (S ?k) ?x) with (match f x with inl s' => while_loop f k s' | inr r => Some r end).
      unfold script_code_step at 1. rewrite Eg, (proj2 (Z.eqb_neq _ _) Ho).
      rewrite E1 at 2. change (o :: h1 ++ rest) with ((o :: h1) ++ rest). rewrite app_assoc. by apply Hstep.
Qed.

Lemma SerializeScriptCode_spec code : parses code ->
  SerializeScriptCode code = Serialize_bytes (FindAndDelete code [sep]).1.
Proof.
  intros Hp. destruct (deletes_sep_spec code Hp) as (r & n & Hd & Hl & Hf & Hw).
  pose proof (FindAndDelete_spec code [sep] ltac:(done)) as Hs.
  destruct (deletes_functional [sep] code _ _ _ _ ltac:(done) Hs Hd) as [-> ->].
  unfold SerializeScriptCode, Serialize_bytes. pose proof (Hf 0) as E0. unfold Find. rewrite E0.
  f_equal; [f_equal; lia|]. destruct (Hw [] []) as (it & ib & out & Hr & -> & E).
  cbn [app] in *. rewrite Hr. cbn [length]. rewrite Nat.sub_0_r, firstn_all, <- E.
  destruct (decide (ib = [])) as [->|Hib]; [by rewrite bool_decide_false, app_nil_r by naive_solver | by rewrite bool_decide_true].
Qed.

(** *** Inputs and outputs *)

(** a loop over the indices of a list is a map over the list *)
Lemma mapM_seqZ {A B C} (f : Z -> option C) (g : B -> C) (h : nat -> A -> B) (l : list A) m :
  m = zlen l -> (forall i x, l !! i = Some x -> f (Z.of_nat i) = Some (g (h i x))) ->
  mapM f (seqZ 0 m) = Some (map g (imap h l)).
Proof.
  intros -> Hf. apply mapM_Some_2, Forall2_same_length_lookup.
  split; [by rewrite length_seqZ, length_map, length_imap, Nat2Z.id|].
  intros i z y Hz Hy. apply lookup_seqZ in Hz as [-> Hi]. rewrite list_lookup_fmap, list_lookup_imap in Hy.
  destruct (l !! i) as [x|] eqn:E; [|done]. injection Hy as <-. by rewrite Z.add_0_l, (Hf i x).
Qed.

Lemma mapM_seqZ_map {A B} (f : Z -> option B) (g : A -> B) (l : list A) m :
  m = zlen l -> (forall i x, l !! i = Some x -> f (Z.of_nat i) = Some (g x)) ->
  mapM f (seqZ 0 m) = Some (map g l).
Proof. intros Hm Hf. rewrite (mapM_seqZ f id (fun _ => g) l m Hm Hf). rewrite map_id. f_equal. apply imap_const. Qed.

Section Reference.
Context `{ScriptHashes}.
Variables (code : script_bytes) (tx : CTransaction) (n : nat) (txin : CTxIn) (nHashType : Z).
Hypothesis Hcode : parses code.
Hypothesis Hn : vin tx !! n = Some txin.
Hypothesis Hvin : zlen (vin tx) < 2 ^ 32.
Hypothesis Hvout : zlen (vout tx) < 2 ^ 32.

Definition ser : signature_serializer := CTransactionSignatureSerializer tx code (Z.of_nat n) nHashType.

Lemma ser_inputs :
  mapM (SerializeInput ser) (seqZ 0 (if fAnyoneCanPay ser then 1 else u32 (zlen (vin tx)))) =
  Some (map Serialize_CTxIn (vin (txTmp code tx n nHashType))) /\
  (if fAnyoneCanPay ser then 1 else u32 (zlen (vin tx))) = zlen (vin (txTmp code tx n nHashType)).
Proof.
  unfold ser, txTmp, CTransactionSignatureSerializer. cbn [fAnyoneCanPay vin].
  set (others := (Z.land nHashType 31 =? SIGHASH_NONE) || (Z.land nHashType 31 =? SIGHASH_SINGLE)).
  set (ins := blank_inputs _ n others _).
  assert (Hx : ins !! n = Some (MkCTxIn (prevout txin) (FindAndDelete code [sep]).1 (nSequence txin) [])).
  { unfold ins, blank_inputs. rewrite list_lookup_imap, Hn. simpl. rewrite decide_True by done.
    by rewrite bool_decide_true, andb_false_r by done. }
  destruct (has nHashType SIGHASH_ANYONECANPAY).
  - rewrite (drop_S _ _ _ Hx). split; [|done]. change (seqZ 0 1) with [0]. cbn [mapM take map].
    unfold SerializeInput, Serialize_CTxIn.
    cbn [fAnyoneCanPay nIn txTo scriptCode fHashSingle fHashNone prevout scriptSig nSequence].
    rewrite Nat2Z.id, Hn, Z.eqb_refl. by rewrite SerializeScriptCode_spec.
  - rewrite u32_small by (unfold is_u32; lia). unfold ins at 2, blank_inputs at 1. rewrite length_imap. split; [|done].
    apply mapM_seqZ; [done|]. intros i x Hx'. unfold SerializeInput, Serialize_CTxIn.
    cbn [fAnyoneCanPay nIn txTo scriptCode fHashSingle fHashNone prevout scriptSig nSequence].
    rewrite Nat2Z.id, Hx'. cbn [mbind option_bind]. rewrite (orb_comm (_ =? SIGHASH_SINGLE)). fold others.
    destruct (Z.eqb_spec (Z.of_nat i) (Z.of_nat n)) as [E|E].
    + rewrite decide_True, bool_decide_true by lia. cbn [negb andb]. by rewrite andb_false_r, SerializeScriptCode_spec.
    + rewrite decide_False, bool_decide_false by lia. cbn [negb andb]. rewrite andb_true_r. by destruct others.
Qed.

Definition single : bool := Z.land nHashType 0x1f =? SIGHASH_SINGLE.

Lemma ser_outputs : (single = true -> Z.of_nat n < zlen (vout tx)) ->
  let nOutputs := if fHashNone ser then 0 else if fHashSingle ser then u32 (nIn ser + 1) else u32 (zlen (vout tx)) in
  mapM (SerializeOutput ser) (seqZ 0 nOutputs) = Some (map Serialize_CTxOut (vout (txTmp code tx n nHashType))) /\
  nOutputs = zlen (vout (txTmp code tx n nHashType)).
Proof.
  intros Hs. unfold ser, txTmp, CTransactionSignatureSerializer. cbn [fHashNone fHashSingle nIn vout]. fold single.
  destruct (_ =? SIGHASH_NONE); [done|]. destruct single eqn:Esingle.
  - specialize (Hs eq_refl). destruct (lookup_lt_is_Some_2 (vout tx) n) as [o Ho]; [lia|].
    rewrite u32_small by (unfold is_u32; lia).
    assert (Hlen : Z.of_nat n + 1 = zlen (blank_outputs n (vout tx))).
    { unfold blank_outputs. rewrite (drop_S _ _ _ Ho), length_app, length_replicate. simpl. lia. }
    split; [|done]. apply mapM_seqZ_map; [done|].
    intros i x Hx. unfold SerializeOutput. cbn [fHashSingle nIn txTo].
    unfold blank_outputs in Hx. rewrite (drop_S _ _ _ Ho) in Hx. cbn [take] in Hx.
    apply lookup_app_Some in Hx as [Hx|[Hge Hx]].
    + apply lookup_replicate in Hx as [-> Hlt]. by rewrite (proj2 (Z.eqb_neq (Z.of_nat i) (Z.of_nat n))) by lia.
    + rewrite length_replicate in *. apply list_lookup_singleton_Some in Hx as [Hi ->].
      rewrite (proj2 (Z.eqb_eq (Z.of_nat i) (Z.of_nat n))) by lia. cbn [andb negb]. rewrite Nat2Z.id.
      by replace i with n by lia; rewrite Ho.
  - rewrite u32_small by (unfold is_u32; lia). split; [|done]. apply mapM_seqZ_map; [done|].
    intros i x Hx. unfold SerializeOutput. cbn [fHashSingle txTo andb]. by rewrite Nat2Z.id, Hx.
Qed.

Lemma SerializeSignatureTransaction_spec : (single = true -> Z.of_nat n < zlen (vout tx)) ->
  SerializeSignatureTransaction ser = Some (SerializeTransaction false (txTmp code tx n nHashType)).
Proof.
  intros Hs. destruct ser_inputs as [Ei Li]. destruct (ser_outputs Hs) as [Eo Lo].
  unfold SerializeSignatureTransaction. cbv zeta. change (txTo ser) with tx. rewrite Ei. cbn [mbind option_bind].
  rewrite Eo. cbn [mbind option_bind]. rewrite Li, Lo. unfold SerializeTransaction, Serialize_vector. simpl.
  by rewrite <- !app_assoc.
Qed.
End Reference.

(** ** Public keys (pubkey.h) *)

(** [CPubKey::GetLen]; a [CPubKey] is its bytes, [None] when [Set] invalidates it *)
Definition GetLen (chHeader : Z) : Z :=
  if (chHeader =? 2) || (chHeader =? 3) then 33
  else if (chHeader =? 4) || (chHeader =? 6) || (chHeader =? 7) then 65 else 0.

Definition CPubKey_Set (vch : valtype) : option valtype :=
  let len := match vch with [] => 0 | chHeader :: _ => GetLen chHeader end in
  if negb (len =? 0) && (len =? zlen vch) then Some vch else None.

(** [CPubKey::Verify], which calls libsecp256k1: key, hash, signature *)
Class PubKeyVerify := { Verify : valtype -> list Z -> valtype -> bool }.

(** ** TransactionSignatureChecker *)

Section Checker.
Context `{ScriptHashes, PubKeyVerify}.
Variables (tx : CTransaction) (n amount : Z) (txdata : option precomputed).

Definition TransactionCheckSig (vchSigIn vchPubKey : valtype) (code : script_bytes) (v : SigVersion) : option bool :=
  match CPubKey_Set vchPubKey with
  | None => Some false
  | Some pubkey =>
      match last vchSigIn with
      | None => Some false
      | Some nHashType =>
          sighash ← SignatureHash code tx n nHashType amount v txdata;
          Some (Verify pubkey sighash (removelast vchSigIn))
      end
  end.

Definition TransactionCheckLockTime (lock : Z) : bool :=
  if negb (((nLockTime tx <? LOCKTIME_THRESHOLD) && (lock <? LOCKTIME_THRESHOLD)) ||
           ((nLockTime tx >=? LOCKTIME_THRESHOLD) && (lock >=? LOCKTIME_THRESHOLD))) then false
  else if lock >? nLockTime tx then false
  else match vin tx !! Z.to_nat n with
       | Some txin => negb (SEQUENCE_FINAL =? nSequence txin)
       | None => false
       end.

Definition TransactionCheckSequence (sequence : Z) : bool :=
  match vin tx !! Z.to_nat n with
  | None => false
  | Some txin =>
      let txToSequence := nSequence txin in
      if u32 (nVersion tx) <? 2 then false
      else if has txToSequence SEQUENCE_LOCKTIME_DISABLE_FLAG then false
      else
        let nLockTimeMask := Z.lor SEQUENCE_LOCKTIME_TYPE_FLAG SEQUENCE_LOCKTIME_MASK in
        let txToSequenceMasked := Z.land txToSequence nLockTimeMask in
        let nSequenceMasked := Z.land sequence nLockTimeMask in
        if negb (((txToSequenceMasked <? SEQUENCE_LOCKTIME_TYPE_FLAG) && (nSequenceMasked <? SEQUENCE_LOCKTIME_TYPE_FLAG)) ||
                 ((txToSequenceMasked >=? SEQUENCE_LOCKTIME_TYPE_FLAG) && (nSequenceMasked >=? SEQUENCE_LOCKTIME_TYPE_FLAG)))
        then false
        else negb (nSequenceMasked >? txToSequenceMasked)
  end.

(** the checker of one input of a transaction; [CheckSig] has a value when the
    input exists, see [TransactionCheckSig_total] *)
Definition TransactionSignatureChecker : BaseSignatureChecker := {|
  CheckSig sig key code v := default false (TransactionCheckSig sig key code v);
  CheckLockTime := TransactionCheckLockTime;
  CheckSequence := TransactionCheckSequence;
|}.
End Checker.

Lemma CPubKey_Set_Some vch key : CPubKey_Set vch = Some key -> key = vch /\ (zlen vch = 33 \/ zlen vch = 65).
Proof.
  unfold CPubKey_Set. destruct vch as [|c vch]; [done|]. destruct (negb _ && _) eqn:E; [|done]. intros [= <-].
  split; [done|]. bool_to_prop. revert H H0. unfold GetLen. case_ifs; intros; lia.
Qed.

(** ** Properties *)

Lemma input_index (tx : CTransaction) n : 0 <= n < zlen (vin tx) ->
  exists m txin, n = Z.of_nat m /\ vin tx !! m = Some txin.
Proof.
  intros Hn. destruct (lookup_lt_is_Some_2 (vin tx) (Z.to_nat n)) as [txin E]; [lia|].
  exists (Z.to_nat n), txin. split; [lia | done].
Qed.

Lemma SignatureHash_base `{ScriptHashes} code tx n txin nHashType amount cache : vin tx !! n = Some txin ->
  SignatureHash code tx (Z.of_nat n) nHashType amount SIGVERSION_BASE cache =
  if (Z.land nHashType 0x1f =? SIGHASH_SINGLE) && (Z.of_nat n >=? zlen (vout tx)) then Some uint256_one
  else Hash256 <$> base_preimage code tx (Z.of_nat n) nHashType.
Proof. intros E. unfold SignatureHash. by rewrite Nat2Z.id, E. Qed.

Lemma single_in_range tx n nHashType :
  (Z.land nHashType 0x1f =? SIGHASH_SINGLE) && (n >=? zlen (vout tx)) = false ->
  single nHashType = true -> n < zlen (vout tx).
Proof. unfold single. intros E Hs. rewrite Hs, Z.geb_leb in E. simpl in E. bool_to_prop. lia. Qed.

Lemma base_preimage_spec code tx n nHashType : parses code -> 0 <= n < zlen (vin tx) ->
  zlen (vin tx) < 2 ^ 32 -> zlen (vout tx) < 2 ^ 32 -> (single nHashType = true -> n < zlen (vout tx)) ->
  base_preimage code tx n nHashType =
  Some (SerializeTransaction false (txTmp code tx (Z.to_nat n) nHashType) ++ ser_writedata32 nHashType).
Proof.
  intros Hp Hn Hi Ho Hs. destruct (input_index tx n Hn) as (m & txin & -> & E). unfold base_preimage.
  change (CTransactionSignatureSerializer tx code (Z.of_nat m) nHashType) with (ser code tx m nHashType).
  by rewrite (SerializeSignatureTransaction_spec code tx m txin nHashType Hp E Hi Ho Hs), Nat2Z.id.
Qed.

Lemma deletes_length b s r n : deletes b s r n -> (length r <= length s)%nat.
Proof.
  induction 1 as [s r n _ IH|s rest op d h r n _ _ -> _ IH|]; rewrite ?length_app in *; lia.
Qed.

Lemma blank_inputs_ok code n others l : zlen code <= MAX_SIZE -> Forall txin_ok l -> Forall txin_ok (blank_inputs code n others l).
Proof.
  intros Hc Hl. apply Forall_lookup. intros i x Hx. unfold blank_inputs in Hx. rewrite list_lookup_imap in Hx.
  destruct (l !! i) as [y|] eqn:E; [|done]. injection Hx as <-. rewrite Forall_lookup in Hl.
  destruct (Hl i y E) as (H1 & H2 & H3). unfold txin_ok. simpl. split; [done|]. split.
  - destruct (decide _); [done | unfold MAX_SIZE; simpl; lia].
  - case_ifs; [unfold is_u32; lia | done].
Qed.

Lemma txTmp_witnesses code tx n nHashType : Forall (fun i => scriptWitness i = []) (vin (txTmp code tx n nHashType)).
Proof.
  assert (Hnil : forall l c b, Forall (fun i => scriptWitness i = []) (blank_inputs c n b l)).
  { intros l c b. apply Forall_lookup. intros i x Hx. unfold blank_inputs in Hx. rewrite list_lookup_imap in Hx.
    destruct (l !! i); [|done]. by injection Hx as <-. }
  unfold txTmp. cbn [vin]. case_ifs; [by apply Forall_take, Forall_drop | done].
Qed.

Lemma txTmp_ok code tx n nHashType : tx_ok tx -> zlen code <= MAX_SIZE -> (n < length (vin tx))%nat ->
  (single nHashType = true -> (n < length (vout tx))%nat) -> tx_ok (txTmp code tx n nHashType).
Proof.
  intros [Hv Ht [Hi Hil] Hw [Ho Hol] Hl Hp] Hc Hn Hs. unfold txTmp.
  pose proof (FindAndDelete_spec code [opcode_value OP_CODESEPARATOR] ltac:(done)) as Hd. apply deletes_length in Hd.
  match goal with |- context [blank_inputs ?c n ?b (vin tx)] => pose proof (blank_inputs_ok c n b (vin tx) ltac:(lia) Hi) as Hb end.
  fold (single nHashType). split; cbn [nVersion nType vin vout nLockTime vExtraPayload]; [done | done | | | | done | done].
  - case_ifs; [split; [by apply Forall_take, Forall_drop|] | split; [done|]]; unfold blank_inputs;
      rewrite ?length_take, ?length_drop, length_imap; lia.
  - apply (Forall_impl _ _ _ (txTmp_witnesses code tx n nHashType)). intros i ->. split; [done | unfold MAX_SIZE; simpl; lia].
  - case_ifs; [split; [done | unfold MAX_SIZE; simpl; lia] | | split; [done|lia]].
    unfold blank_outputs. specialize (Hs ltac:(done)). split.
    + apply Forall_app. split; [apply Forall_replicate | by apply Forall_take, Forall_drop].
      unfold txout_ok, is_i64, MAX_SIZE. simpl. lia.
    + rewrite length_app, length_replicate, length_take, length_drop. lia.
Qed.

Lemma strip_txTmp code tx n nHashType : strip (txTmp code tx n nHashType) = txTmp code tx n nHashType.
Proof.
  apply strip_no_witness. unfold HasWitness. induction (txTmp_witnesses code tx n nHashType) as [|i l E _ IH]; [done|].
  simpl. by rewrite IH, bool_decide_true.
Qed.

(** C17: the in-place serializer computes the reference signature hash, which edits
    a copy of the transaction (removing the code separators, blanking the other
    inputs' scripts, zeroing sequences and dropping outputs as the hash type says)
    and serializes that: for every hash type and every script whose operations can
    be read. *)
Theorem SignatureHash_reference (hashes : ScriptHashes) code tx n nHashType amount cache :
  parses code -> 0 <= n < zlen (vin tx) -> zlen (vin tx) < 2 ^ 32 -> zlen (vout tx) < 2 ^ 32 ->
  SignatureHash code tx n nHashType amount SIGVERSION_BASE cache = Some (SignatureHashOld code tx n nHashType).
Proof.
  intros Hp Hn Hi Ho. destruct (input_index tx n Hn) as (m & txin & -> & E).
  rewrite (SignatureHash_base _ _ _ _ _ _ _ E). unfold SignatureHashOld.
  assert (Hge : (Z.of_nat m >=? zlen (vin tx)) = false) by (rewrite Z.geb_leb; apply Z.leb_gt; lia). rewrite Hge.
  destruct (_ && _) eqn:Es; [done|]. pose proof (single_in_range tx _ _ Es) as Hs.
  by rewrite base_preimage_spec by done.
Qed.

Lemma SignatureHash_reference_witness :
  @SignatureHash sample_hashes [0x51; 0xab; 0xac] sample_tx 0 0x83 5 SIGVERSION_BASE None =
  Some (@SignatureHashOld sample_hashes [0x51; 0xab; 0xac] sample_tx 0 0x83).
Proof. apply (SignatureHash_reference sample_hashes); done || (simpl; lia). Defined.

Definition separators_removed (code : script_bytes) : script_bytes := (FindAndDelete code [opcode_value OP_CODESEPARATOR]).1.

Definition signs_all (nHashType : Z) : bool :=
  negb (Z.land nHashType 0x1f =? SIGHASH_NONE) && negb (Z.land nHashType 0x1f =? SIGHASH_SINGLE) &&
  negb (has nHashType SIGHASH_ANYONECANPAY).

(** a signing context: the script, the transaction, the input and the hash type *)
Record signing_ok (code : script_bytes) (tx : CTransaction) (n nHashType : Z) : Prop := {
  signing_parses : parses code;
  signing_code : zlen code <= MAX_SIZE;
  signing_tx : tx_ok tx;
  signing_n : 0 <= n < zlen (vin tx);
  signing_type : is_u32 nHashType;
  signing_single : single nHashType = true -> n < zlen (vout tx);
}.

Lemma signing_preimage code tx n nHashType : signing_ok code tx n nHashType ->
  base_preimage code tx n nHashType =
    Some (SerializeTransaction false (txTmp code tx (Z.to_nat n) nHashType) ++ ser_writedata32 nHashType) /\
  tx_ok (txTmp code tx (Z.to_nat n) nHashType).
Proof.
  intros [Hp Hc Ht Hn Hy Hs]. pose proof Ht as [_ _ [_ Hi] _ [_ Ho] _ _]. unfold MAX_SIZE in *. split.
  - apply base_preimage_spec; [done | done | lia | lia | done].
  - apply txTmp_ok; [done | done | lia | intros E; specialize (Hs E); lia].
Qed.

Lemma blank_inputs_inj c n c' n' l l' : (n < length l)%nat -> (n' < length l')%nat ->
  blank_inputs c n false l = blank_inputs c' n' false l' ->
  map prevout l = map prevout l' /\ map nSequence l = map nSequence l' /\ (c <> [] -> n = n' /\ c = c').
Proof.
  intros Hn Hn' E. assert (Hi : forall i, blank_inputs c n false l !! i = blank_inputs c' n' false l' !! i) by (by rewrite E).
  unfold blank_inputs in Hi. setoid_rewrite list_lookup_imap in Hi. split; [|split].
  - apply list_eq. intros i. specialize (Hi i). rewrite !list_lookup_fmap. destruct (l !! i), (l' !! i); simpl in *; congruence.
  - apply list_eq. intros i. specialize (Hi i). rewrite !list_lookup_fmap. destruct (l !! i), (l' !! i); simpl in *; congruence.
  - intros Hc. specialize (Hi n). destruct (lookup_lt_is_Some_2 l n Hn) as [x Ex]. rewrite Ex in Hi.
    destruct (l' !! n); [|done]. simpl in Hi. rewrite decide_True in Hi by done. destruct (decide (n = n')) as [->|]; [|congruence].
    split; congruence.
Qed.

Lemma base_preimage_inj code tx n nHashType code' tx' n' nHashType' :
  signing_ok code tx n nHashType -> signing_ok code' tx' n' nHashType' ->
  base_preimage code tx n nHashType = base_preimage code' tx' n' nHashType' ->
  nHashType = nHashType' /\ txTmp code tx (Z.to_nat n) nHashType = txTmp code' tx' (Z.to_nat n') nHashType'.
Proof.
  intros H H' E. destruct (signing_preimage _ _ _ _ H) as [P Hok]. destruct (signing_preimage _ _ _ _ H') as [P' Hok'].
  rewrite P, P' in E. apply (inj Some) in E.
  pose proof (Unserialize_Serialize_plain false _ (ser_writedata32 nHashType) Hok ltac:(done)) as R.
  rewrite E, (Unserialize_Serialize_plain false _ _ Hok' ltac:(done)), !strip_txTmp in R.
  apply (inj Some), pair_equal_spec in R as [R Rh]. split; [|done].
  pose proof (readdata32_write nHashType [] (signing_type _ _ _ _ H)) as Q. rewrite <- Rh in Q.
  rewrite (readdata32_write nHashType' [] (signing_type _ _ _ _ H')) in Q. congruence.
Qed.

(** C18: for the hash of scripts without witness: what is hashed determines the hash type and
    the edited transaction, so a signature commits to every part the hash type does not
    blank; with a type that signs everything, to the version, the type, the outpoints and
    sequences of all inputs, the outputs, the lock time and the payload, and to the
    script and the position of the signed input.  This is for transactions that can be
    serialized, code that parses, and an input that is there; [SIGHASH_SINGLE] without an
    output at the position of the input, where the constant 1 is signed, is excluded. *)
Theorem SignatureHash_commits code tx n nHashType code' tx' n' nHashType' :
  signing_ok code tx n nHashType -> signing_ok code' tx' n' nHashType' ->
  base_preimage code tx n nHashType = base_preimage code' tx' n' nHashType' ->
  nHashType = nHashType' /\
  txTmp code tx (Z.to_nat n) nHashType = txTmp code' tx' (Z.to_nat n') nHashType /\
  (signs_all nHashType = true ->
   nVersion tx = nVersion tx' /\ nType tx = nType tx' /\ vout tx = vout tx' /\ nLockTime tx = nLockTime tx' /\
   vExtraPayload tx = vExtraPayload tx' /\ map prevout (vin tx) = map prevout (vin tx') /\
   map nSequence (vin tx) = map nSequence (vin tx') /\
   (separators_removed code <> [] -> n = n' /\ separators_removed code = separators_removed code')).
Proof.
  intros H H' E. destruct (base_preimage_inj _ _ _ _ _ _ _ _ H H' E) as [Eh R].
  subst nHashType'. split; [done|]. split; [done|]. intros Ha. unfold signs_all in Ha.
  apply andb_true_iff in Ha as [[Hno Hsi]%andb_true_iff Han]. apply negb_true_iff in Hno, Hsi, Han.
  unfold txTmp in R. rewrite Hno, Hsi, Han in R. fold (separators_removed code) (separators_removed code') in R.
  injection R as R1 R2 R3 R4 R5 R6.
  pose proof (signing_n _ _ _ _ H). pose proof (signing_n _ _ _ _ H').
  apply blank_inputs_inj in R3 as (R3 & R7 & R8); [|lia|lia]. split_and!; try done.
  intros Hc. destruct (R8 Hc). split; [lia | done].
Qed.

(** the same transaction with the scriptSig and the witness of its input changed *)
Definition resigned_tx : CTransaction :=
  MkCTransaction 3 1 [MkCTxIn (MkCOutPoint (replicate 32 7) 1) [] 0xfffffffe []]
    [MkCTxOut 5000 [0x76; 0xa9] (-10)] 17 [1; 2; 3].

Lemma resigned_tx_ok : tx_ok resigned_tx.
Proof.
  split; simpl; unfold is_u32, MAX_SIZE; try lia; repeat (constructor || split); simpl; unfold is_u32, is_i64, MAX_SIZE; lia.
Qed.

Lemma SignatureHash_commits_witness :
  1 = 1 /\
  txTmp [0x51; 0xab; 0xac] sample_tx 0 1 = txTmp [0xab; 0x51; 0xac] resigned_tx 0 1 /\
  (signs_all 1 = true ->
   nVersion sample_tx = nVersion resigned_tx /\ nType sample_tx = nType resigned_tx /\
   vout sample_tx = vout resigned_tx /\ nLockTime sample_tx = nLockTime resigned_tx /\
   vExtraPayload sample_tx = vExtraPayload resigned_tx /\
   map prevout (vin sample_tx) = map prevout (vin resigned_tx) /\
   map nSequence (vin sample_tx) = map nSequence (vin resigned_tx) /\
   (separators_removed [0x51; 0xab; 0xac] <> [] ->
    0 = 0 /\ separators_removed [0x51; 0xab; 0xac] = separators_removed [0xab; 0x51; 0xac])).
Proof.
  apply (SignatureHash_commits [0x51; 0xab; 0xac] sample_tx 0 1 [0xab; 0x51; 0xac] resigned_tx 0 1); [| |vm_compute; reflexivity];
    split; try (vm_compute; discriminate); try apply sample_tx_ok; try apply resigned_tx_ok;
    unfold MAX_SIZE, is_u32; simpl; lia.
Defined.

(** Hashing with the data precomputed once for the transaction gives the hash
    computed from scratch, for every input, hash type and script version. *)
Theorem SignatureHash_cache (hashes : ScriptHashes) code tx n nHashType amount v :
  SignatureHash code tx n nHashType amount v (Some (PrecomputedTransactionData tx)) =
  SignatureHash code tx n nHashType amount v None.
Proof.
  unfold SignatureHash, witness_preimage, PrecomputedTransactionData. destruct (vin tx !! Z.to_nat n); [|done].
  by destruct (HasWitness tx).
Qed.

Definition retyped (tx : CTransaction) (t : Z) (payload : list Z) : CTransaction :=
  MkCTransaction (nVersion tx) t (vin tx) (vout tx) (nLockTime tx) payload.

(** The witness signature hash does not cover the type and the extra payload of
    a transaction: changing them keeps every witness signature valid, while it
    changes the bytes the legacy hash covers. *)
Theorem witness_sighash_ignores_type (hashes : ScriptHashes) (verify : PubKeyVerify) code tx n nHashType amount t payload :
  signing_ok code tx n nHashType -> signing_ok code (retyped tx t payload) n nHashType -> t <> nType tx ->
  (forall sig key, TransactionCheckSig (retyped tx t payload) n amount None sig key code SIGVERSION_WITNESS_V0 =
    TransactionCheckSig tx n amount None sig key code SIGVERSION_WITNESS_V0) /\
  base_preimage code (retyped tx t payload) n nHashType <> base_preimage code tx n nHashType.
Proof.
  intros H H' Ht. split; [done|]. intros E. destruct (base_preimage_inj _ _ _ _ _ _ _ _ H' H E) as [_ R].
  by apply (f_equal nType) in R.
Qed.

Definition sample_verify : PubKeyVerify := {| Verify key hash sig := bool_decide (sig = hash) |}.

Lemma witness_sighash_ignores_type_witness :
  (forall sig key, @TransactionCheckSig sample_hashes sample_verify (retyped sample_tx 2 [5]) 0 9 None sig key [0xac] SIGVERSION_WITNESS_V0 =
    @TransactionCheckSig sample_hashes sample_verify sample_tx 0 9 None sig key [0xac] SIGVERSION_WITNESS_V0) /\
  base_preimage [0xac] (retyped sample_tx 2 [5]) 0 1 <> base_preimage [0xac] sample_tx 0 1.
Proof.
  apply (witness_sighash_ignores_type sample_hashes sample_verify [0xac] sample_tx 0 1 9 2 [5]); [| | done];
    split; try (vm_compute; discriminate); try apply sample_tx_ok; unfold MAX_SIZE, is_u32; simpl; try lia.
  split; simpl; unfold is_u32, MAX_SIZE; try lia; repeat (constructor || split); simpl; unfold is_u32, is_i64, MAX_SIZE; lia.
Defined.

(** the checker has an answer for every signature of an existing input *)
Lemma TransactionCheckSig_total `{ScriptHashes, PubKeyVerify} tx n amount txdata sig key code v :
  parses code -> 0 <= n < zlen (vin tx) -> zlen (vin tx) < 2 ^ 32 -> zlen (vout tx) < 2 ^ 32 ->
  exists b, TransactionCheckSig tx n amount txdata sig key code v = Some b.
Proof.
  intros Hp Hn Hi Ho. unfold TransactionCheckSig. destruct (CPubKey_Set key); [|eauto]. destruct (last sig) as [t|]; [|eauto].
  destruct (input_index tx n Hn) as (m & txin & -> & E). destruct v.
  - rewrite (SignatureHash_base _ _ _ _ _ _ _ E). destruct (_ && _) eqn:Es; [cbn; eauto|].
    rewrite base_preimage_spec; [cbn; eauto | done..|]. by apply single_in_range.
  - unfold SignatureHash. rewrite Nat2Z.id, E. cbn; eauto.
Qed.
