(* ===== verification/Chain.v ===== *)
(** * The block index (chain.h, chain.cpp, [AddToBlockIndex] of validation.cpp)

    [CBlockIndex] objects live in a store and point to each other with [pprev] and
    the skip list pointer [pskip]; [block_tree] is the store with the globals that
    index it.  An operation is [None] when an assertion fails or a null pointer is
    followed.  The invariant [tree_ok] says that the objects form a tree rooted in
    blocks of height 0, that every skip pointer is the ancestor at
    [GetSkipHeight], and that the cumulative fields are those of the parent plus
    the block's own. *)

From stdpp Require Export gmap.
From S2P Require Import Prelude ArithUint Compact.

Abbreviation ptr := positive.

(** ** Data *)

Record CBlockHeader := MkCBlockHeader {
  hdr_nVersion : Z;
  hdr_hashPrevBlock : list Z;
  hdr_hashMerkleRoot : list Z;
  hdr_nTime : Z;
  hdr_nBits : Z;
  hdr_nNonce : Z;
  hdr_nHeight : Z;
  hdr_nNonce64 : Z;
  hdr_mix_hash : list Z;
}.

(** the header fields a [CBlockIndex] keeps *)
Record header_fields := MkHeaderFields {
  idx_nVersion : Z;
  hashMerkleRoot : list Z;
  idx_nTime : Z;
  idx_nBits : Z;
  nNonce : Z;
  nNonce64 : Z;
  mix_hash : list Z;
}.

Record CBlockIndex := MkCBlockIndex {
  phashBlock : option (list Z);
  pprev : option ptr;
  pskip : option ptr;
  nHeight : Z;
  nFile : Z;
  nDataPos : Z;
  nUndoPos : Z;
  nChainWork : arith_uint256;
  nTx : Z;
  nChainTx : Z;
  nStatus : Z;
  header : header_fields;
  nSequenceId : Z;
  nTimeMax : Z;
}.

Definition nTime (b : CBlockIndex) : Z := idx_nTime (header b).
Definition nBits (b : CBlockIndex) : Z := idx_nBits (header b).

Abbreviation store := (gmap ptr CBlockIndex).

(** [CBlockIndex(const CBlockHeader&)] *)
Definition CBlockIndex_of (b : CBlockHeader) : CBlockIndex :=
  MkCBlockIndex None None None (i32 (hdr_nHeight b)) 0 0 0 (Uint.zero 8) 0 0 0
    (MkHeaderFields (hdr_nVersion b) (hdr_hashMerkleRoot b) (hdr_nTime b) (hdr_nBits b) (hdr_nNonce b)
       (hdr_nNonce64 b) (hdr_mix_hash b)) 0 0.

(** assignments to the fields *)
Definition set_hash (h : list Z) (b : CBlockIndex) : CBlockIndex :=
  MkCBlockIndex (Some h) (pprev b) (pskip b) (nHeight b) (nFile b) (nDataPos b) (nUndoPos b) (nChainWork b)
    (nTx b) (nChainTx b) (nStatus b) (header b) (nSequenceId b) (nTimeMax b).
Definition set_prev (p : ptr) (h : Z) (b : CBlockIndex) : CBlockIndex :=
  MkCBlockIndex (phashBlock b) (Some p) (pskip b) h (nFile b) (nDataPos b) (nUndoPos b) (nChainWork b)
    (nTx b) (nChainTx b) (nStatus b) (header b) (nSequenceId b) (nTimeMax b).
Definition set_skip (p : option ptr) (b : CBlockIndex) : CBlockIndex :=
  MkCBlockIndex (phashBlock b) (pprev b) p (nHeight b) (nFile b) (nDataPos b) (nUndoPos b) (nChainWork b)
    (nTx b) (nChainTx b) (nStatus b) (header b) (nSequenceId b) (nTimeMax b).
Definition set_time_work (timeMax : Z) (work : arith_uint256) (b : CBlockIndex) : CBlockIndex :=
  MkCBlockIndex (phashBlock b) (pprev b) (pskip b) (nHeight b) (nFile b) (nDataPos b) (nUndoPos b) work
    (nTx b) (nChainTx b) (nStatus b) (header b) (nSequenceId b) timeMax.
Definition set_status (s : Z) (b : CBlockIndex) : CBlockIndex :=
  MkCBlockIndex (phashBlock b) (pprev b) (pskip b) (nHeight b) (nFile b) (nDataPos b) (nUndoPos b) (nChainWork b)
    (nTx b) (nChainTx b) s (header b) (nSequenceId b) (nTimeMax b).

(** [BlockStatus] *)
Definition BLOCK_VALID_TREE : Z := 2.
Definition BLOCK_VALID_MASK : Z := Z.lor (Z.lor (Z.lor (Z.lor 1 2) 3) 4) 5.
Definition BLOCK_HAVE_DATA : Z := 8.
Definition BLOCK_HAVE_UNDO : Z := 16.
Definition BLOCK_FAILED_VALID : Z := 32.
Definition BLOCK_FAILED_CHILD : Z := 64.
Definition BLOCK_FAILED_MASK : Z := Z.lor BLOCK_FAILED_VALID BLOCK_FAILED_CHILD.
Definition BLOCK_CONFLICT_CHAINLOCK : Z := 256.

(** [IsValid(nUpTo)] and [RaiseValidity(nUpTo)], of [nStatus]; [None] when the
    assertion that only validity bits are given fails *)
Definition IsValid (status nUpTo : Z) : option bool :=
  if negb (Z.land nUpTo (Z.lnot BLOCK_VALID_MASK) =? 0) then None
  else if negb (Z.land status BLOCK_FAILED_MASK =? 0) then Some false
  else Some (Z.land status BLOCK_VALID_MASK >=? nUpTo).

Definition RaiseValidity (status nUpTo : Z) : option (bool * Z) :=
  if negb (Z.land nUpTo (Z.lnot BLOCK_VALID_MASK) =? 0) then None
  else if negb (Z.land status BLOCK_FAILED_MASK =? 0) then Some (false, status)
  else if Z.land status BLOCK_VALID_MASK <? nUpTo
  then Some (true, Z.lor (Z.land status (Z.lnot BLOCK_VALID_MASK)) nUpTo)
  else Some (false, status).

(** ** The skip list *)

(** [InvertLowestOne(n)], [GetSkipHeight(height)] *)
Definition InvertLowestOne (n : Z) : Z := Z.land n (n - 1).
Definition GetSkipHeight (height : Z) : Z :=
  if height <? 2 then 0
  else if negb (Z.land height 1 =? 0) then InvertLowestOne (InvertLowestOne (height - 1)) + 1
  else InvertLowestOne height.

(** one turn of the loop of [GetAncestor]; the result is [None] when [pprev] is null *)
Definition ancestor_step (s : store) (height : Z) (st : ptr * Z) : ptr * Z + option ptr :=
  let '(pindexWalk, heightWalk) := st in
  if negb (heightWalk >? height) then inr (Some pindexWalk)
  else
    match s !! pindexWalk with
    | None => inr None
    | Some b =>
        let heightSkip := GetSkipHeight heightWalk in
        let heightSkipPrev := GetSkipHeight (heightWalk - 1) in
        match pskip b with
        | Some q =>
            if (heightSkip =? height) ||
               ((heightSkip >? height) && negb ((heightSkipPrev <? heightSkip - 2) && (heightSkipPrev >=? height)))
            then inl (q, heightSkip)
            else match pprev b with Some q => inl (q, heightWalk - 1) | None => inr None end
        | None => match pprev b with Some q => inl (q, heightWalk - 1) | None => inr None end
        end
    end.

(** [GetAncestor(height)]: the outer [None] is a failed assertion, the inner one the
    null pointer *)
Definition GetAncestor (s : store) (p : ptr) (height : Z) : option (option ptr) :=
  b ← s !! p;
  if (height >? nHeight b) || (height <? 0) then Some None
  else
    r ← while_loop (ancestor_step s height) (S (Z.to_nat (nHeight b))) (p, nHeight b);
    q ← (r : option ptr);
    Some (Some q).

(** [BuildSkip()] of the object [p] *)
Definition BuildSkip (s : store) (p : ptr) : option store :=
  b ← s !! p;
  match pprev b with
  | None => Some s
  | Some q =>
      skip ← GetAncestor s q (GetSkipHeight (nHeight b));
      Some (<[p := set_skip skip b]> s)
  end.

(** ** AddToBlockIndex *)

(** the globals of validation.cpp that [AddToBlockIndex] changes; the multimap
    [mapPrevBlockIndex] is its list of pairs *)
Record block_tree := BlockTree {
  index : store;
  mapBlockIndex : gmap (list Z) ptr;
  pindexBestHeader : option ptr;
  setDirtyBlockIndex : gset ptr;
  mapPrevBlockIndex : list (list Z * ptr);
}.

(** [CBlockHeader::GetHash()] *)
Class HeaderHash := { GetHeaderHash : CBlockHeader -> list Z }.

(** [GetBlockHash()] *)
Definition GetBlockHash (b : CBlockIndex) : list Z := default (replicate 32 0) (phashBlock b).

(** the pointer part: [pprev], [nHeight] and [BuildSkip]; the height is not wrapped
    around: no chain of headers gets near [2^31] *)
Definition link_prev (s : store) (m : gmap (list Z) ptr) (pnew : ptr) (block : CBlockHeader) : option store :=
  match m !! hdr_hashPrevBlock block with
  | None => Some s
  | Some q =>
      c ← s !! q;
      BuildSkip (alter (set_prev q (nHeight c + 1)) pnew s) pnew
  end.

(** [nTimeMax] and [nChainWork] *)
Definition accumulate (s : store) (pnew : ptr) : option store :=
  b ← s !! pnew;
  proof ← GetBlockProof (nBits b);
  match pprev b with
  | None => Some (<[pnew := set_time_work (nTime b) (Uint.add (Uint.of_u64 8 0) proof) b]> s)
  | Some q =>
      c ← s !! q;
      Some (<[pnew := set_time_work (Z.max (nTimeMax c) (nTime b)) (Uint.add (nChainWork c) proof) b]> s)
  end.

(** the status, and the best header *)
Definition raise_new (s : store) (best : option ptr) (pnew : ptr) (status : Z) : option (store * option ptr) :=
  b ← s !! pnew;
  if negb (Z.land status BLOCK_VALID_MASK =? 0) then
    r ← RaiseValidity (nStatus b) status;
    better ← match best with
             | None => Some true
             | Some p => c ← s !! p; Some (Uint.CompareTo (nChainWork c) (nChainWork b) <? 0)
             end;
    Some (<[pnew := set_status (snd (r : bool * Z)) b]> s, if (better : bool) then Some pnew else best)
  else
    r ← RaiseValidity (nStatus b) BLOCK_VALID_TREE;
    Some (<[pnew := set_status (Z.lor (snd (r : bool * Z)) status) b]> s, best).

Definition AddToBlockIndex `{HeaderHash} (t : block_tree) (block : CBlockHeader) (status : Z) :
    option (ptr * block_tree) :=
  let hash := GetHeaderHash block in
  match mapBlockIndex t !! hash with
  | Some p => Some (p, t)
  | None =>
      let pnew := fresh (dom (index t)) in
      let m := <[hash := pnew]> (mapBlockIndex t) in
      let s := <[pnew := set_hash hash (CBlockIndex_of block)]> (index t) in
      s ← link_prev s m pnew block;
      s ← accumulate s pnew;
      r ← raise_new s (pindexBestHeader t) pnew status;
      let '(s, best) := (r : store * option ptr) in
      b ← s !! pnew;
      prev ← match pprev b with
             | None => Some (mapPrevBlockIndex t)
             | Some q => c ← s !! q; Some (mapPrevBlockIndex t ++ [(GetBlockHash c, pnew)])
             end;
      Some (pnew, BlockTree s m best ({[pnew]} ∪ setDirtyBlockIndex t) prev)
  end.

(** ** The invariant *)

(** the reference: follow [pprev] [n] times *)
Fixpoint up (s : store) (p : ptr) (n : nat) : option ptr :=
  match n with
  | O => Some p
  | S n => b ← s !! p; q ← pprev b; up s q n
  end.

(** the cumulative fields and the pointers of one object *)
Record node_ok (s : store) (b : CBlockIndex) : Prop := {
  node_height : 0 <= nHeight b;
  node_bits : is_u32 (nBits b);
  node_work : uwf 8 (nChainWork b);
  node_prev : match pprev b with
    | None => nHeight b = 0 /\ pskip b = None /\ nTimeMax b = nTime b /\
        exists proof, GetBlockProof (nBits b) = Some proof /\ nChainWork b = Uint.add (Uint.of_u64 8 0) proof
    | Some q => exists c proof, s !! q = Some c /\ nHeight b = nHeight c + 1 /\
        pskip b = up s q (Z.to_nat (nHeight c - GetSkipHeight (nHeight b))) /\
        nTimeMax b = Z.max (nTimeMax c) (nTime b) /\
        GetBlockProof (nBits b) = Some proof /\ nChainWork b = Uint.add (nChainWork c) proof
    end;
}.

Definition store_ok (s : store) : Prop := map_Forall (fun _ => node_ok s) s.

(** blocks that are not held back by a chain lock compete for the best header *)
Definition competes (b : CBlockIndex) : Prop := Z.land (nStatus b) BLOCK_CONFLICT_CHAINLOCK = 0.

(** the objects and the maps that lead to them *)
Record index_ok (t : block_tree) : Prop := {
  index_store : store_ok (index t);
  index_map : forall h p, mapBlockIndex t !! h = Some p <->
    exists b, index t !! p = Some b /\ phashBlock b = Some h;
  index_hash : forall p b, index t !! p = Some b -> is_Some (phashBlock b);
  index_best_in : forall q, pindexBestHeader t = Some q -> is_Some (index t !! q);
  index_children : forall h p, (h, p) ∈ mapPrevBlockIndex t <->
    exists b q c, index t !! p = Some b /\ pprev b = Some q /\ index t !! q = Some c /\ phashBlock c = Some h;
}.

(** ... and the best header, until blocks are found invalid *)
Record tree_ok (t : block_tree) : Prop := {
  tree_index : index_ok t;
  tree_best : forall p b, index t !! p = Some b -> competes b ->
    exists q c, pindexBestHeader t = Some q /\ index t !! q = Some c /\ uval (nChainWork b) <= uval (nChainWork c);
}.

Lemma tree_store t : tree_ok t -> store_ok (index t).
Proof. intros [H _]. apply H. Qed.

(** ** Ancestors *)

Lemma land_le_r a b : 0 <= b -> Z.land a b <= b.
Proof.
  intros Hb. apply Z.ldiff_le; [done|]. apply Z.bits_inj'. intros j Hj.
  rewrite Z.ldiff_spec, Z.land_spec, Z.bits_0. by destruct (Z.testbit a j), (Z.testbit b j).
Qed.

Lemma InvertLowestOne_range n : 0 < n -> 0 <= InvertLowestOne n < n.
Proof.
  intros Hn. unfold InvertLowestOne. split; [apply Z.land_nonneg; lia|].
  pose proof (land_le_r n (n - 1)). lia.
Qed.

Lemma GetSkipHeight_range h : 0 < h -> 0 <= GetSkipHeight h < h.
Proof.
  intros Hh. unfold GetSkipHeight. destruct (Z.ltb_spec h 2); [lia|].
  destruct (negb _).
  - pose proof (InvertLowestOne_range (h - 1) ltac:(lia)) as H1.
    destruct (Z.eq_dec (InvertLowestOne (h - 1)) 0) as [E|].
    + rewrite E. change (InvertLowestOne 0) with 0. lia.
    + pose proof (InvertLowestOne_range (InvertLowestOne (h - 1)) ltac:(lia)). lia.
  - apply InvertLowestOne_range. lia.
Qed.

Lemma up_add s p m n : up s p (m + n) = q ← up s p m; up s q n.
Proof.
  revert p. induction m as [|m IH]; intros p; [done|]. simpl.
  destruct (s !! p) as [b|]; [|done]. simpl. destruct (pprev b); [|done]. simpl. apply IH.
Qed.

(** walking up a well-formed store *)
Lemma up_height s p b n : store_ok s -> s !! p = Some b -> Z.of_nat n <= nHeight b ->
  exists q c, up s p n = Some q /\ s !! q = Some c /\ nHeight c = nHeight b - Z.of_nat n.
Proof.
  intros Hs. revert p b. induction n as [|n IH]; intros p b Hp Hn.
  { exists p, b. split; [done|]. split; [done|]. lia. }
  pose proof (Hs p b Hp) as [_ _ _ Hprev]. simpl. rewrite Hp. simpl.
  destruct (pprev b) as [q|]; [|lia]. destruct Hprev as (c & _ & Hq & Hh & _).
  destruct (IH q c Hq ltac:(lia)) as (r & d & Hr & Hd & E). exists r, d. split; [done|]. split; [done|]. lia.
Qed.

(** where the loop of [GetAncestor] is: at the ancestor of the height it counts *)
Definition walk_inv (s : store) (p : ptr) (b : CBlockIndex) (height : Z) (st : ptr * Z) : Prop :=
  height <= st.2 <= nHeight b /\ up s p (Z.to_nat (nHeight b - st.2)) = Some st.1.

Lemma walk_at s p b height st : store_ok s -> s !! p = Some b -> 0 <= height -> walk_inv s p b height st ->
  exists c, s !! st.1 = Some c /\ nHeight c = st.2.
Proof.
  intros Hs Hp Hh [Hr Hu]. pose proof (node_height _ _ (Hs p b Hp)).
  destruct (up_height s p b (Z.to_nat (nHeight b - st.2)) Hs Hp ltac:(lia)) as (q & c & Hq & Hc & E).
  rewrite Hu in Hq. injection Hq as <-. exists c. split; [done | lia].
Qed.

(** moving from the ancestor at [h] up to the one at [h'] *)
Lemma walk_move s p b height st q h' : walk_inv s p b height st -> height <= h' <= st.2 ->
  up s st.1 (Z.to_nat (st.2 - h')) = Some q -> walk_inv s p b height (q, h').
Proof.
  intros [Hr Hu] Hh Hq. split; [simpl; lia|]. simpl.
  replace (Z.to_nat (nHeight b - h')) with (Z.to_nat (nHeight b - st.2) + Z.to_nat (st.2 - h'))%nat by lia.
  rewrite up_add, Hu. exact Hq.
Qed.

Lemma ancestor_step_spec s s' p b height st : s ⊆ s' -> store_ok s -> s !! p = Some b -> 0 <= height -> walk_inv s p b height st ->
  match ancestor_step s' height st with
  | inl st' => walk_inv s p b height st' /\ st'.2 < st.2
  | inr r => st.2 = height /\ r = Some st.1
  end.
Proof.
  intros Hsub Hs Hp Hh Hi. destruct (walk_at _ _ _ _ _ Hs Hp Hh Hi) as (c & Hc & Ec). pose proof Hi as [Hr _].
  destruct st as [w hw]. simpl in *. rewrite Z.gtb_ltb. destruct (Z.ltb_spec height hw) as [Hlt|Hge]; [|simpl; split; [lia|done]].
  simpl. rewrite (lookup_weaken _ _ _ _ Hc Hsub). pose proof (Hs w c Hc) as [_ _ _ Hprev]. destruct (pprev c) as [q|] eqn:Eprev; [|lia].
  destruct Hprev as (d & _ & Hq & Hd & Hskip & _).
  assert (Hdown : walk_inv s p b height (q, hw - 1) /\ hw - 1 < hw).
  { split; [|lia]. apply (walk_move _ _ _ _ (w, hw)); [done | simpl; lia|]. simpl.
    replace (Z.to_nat (hw - (hw - 1))) with 1%nat by lia. simpl. by rewrite Hc; simpl; rewrite Eprev. }
  destruct (pskip c) as [k|] eqn:Ek; [|done]. pose proof (GetSkipHeight_range hw ltac:(lia)) as Hsk.
  destruct (_ || _) eqn:E; [|done]. split; [|simpl; lia].
  assert (height <= GetSkipHeight hw).
  { apply orb_true_iff in E as [E|E]; [|apply andb_true_iff in E as [E _]]; rewrite ?Z.gtb_ltb in E; bool_to_prop; lia. }
  apply (walk_move _ _ _ _ (w, hw)); [done | simpl; lia|]. simpl.
  replace (Z.to_nat (hw - GetSkipHeight hw)) with (S (Z.to_nat (nHeight d - GetSkipHeight hw))) by lia.
  simpl. rewrite Hc. simpl. rewrite Eprev. simpl. by rewrite Hskip, Ec.
Qed.

(** the skip list finds the block the parents lead to, also in a store that holds
    further objects *)
Lemma GetAncestor_spec s s' p b height : s ⊆ s' -> store_ok s -> s !! p = Some b ->
  GetAncestor s' p height =
  Some (if (height >? nHeight b) || (height <? 0) then None else up s p (Z.to_nat (nHeight b - height))).
Proof.
  intros Hsub Hs Hp. unfold GetAncestor. rewrite (lookup_weaken _ _ _ _ Hp Hsub). cbn [mbind option_bind]. destruct (_ || _) eqn:E; [done|].
  apply orb_false_iff in E as [E1 E2]. rewrite Z.gtb_ltb in E1. bool_to_prop.
  destruct (while_total (ancestor_step s' height) (walk_inv s p b height) (fun st => Z.to_nat (st.2 - height))
    (fun r => r = up s p (Z.to_nat (nHeight b - height)))) with (fuel := S (Z.to_nat (nHeight b))) (s := (p, nHeight b))
    as (r & -> & ->).
  - intros st st' Hi Es. pose proof (ancestor_step_spec s s' p b height st Hsub Hs Hp ltac:(lia) Hi) as H'. rewrite Es in H'.
    destruct H' as [[Hr ?] ?]. split; [done|]. lia.
  - intros st r Hi Es. pose proof (ancestor_step_spec s s' p b height st Hsub Hs Hp ltac:(lia) Hi) as H'. rewrite Es in H'.
    destruct H' as [<- ->]. by destruct Hi as [_ ->].
  - split; [simpl; lia|]. simpl. by rewrite Z.sub_diag.
  - simpl. lia.
  - simpl. pose proof (node_height _ _ (Hs p b Hp)).
    destruct (up_height s p b (Z.to_nat (nHeight b - height)) Hs Hp ltac:(lia)) as (q & c & -> & _). done.
Qed.

(** ** AddToBlockIndex preserves the invariant *)

Lemma up_mono s s' p n q : s ⊆ s' -> up s p n = Some q -> up s' p n = Some q.
Proof.
  intros Hsub. revert p. induction n as [|n IH]; intros p; [done|]. simpl.
  destruct (s !! p) as [b|] eqn:E; [|done]. rewrite (lookup_weaken _ _ _ _ E Hsub). simpl.
  destruct (pprev b); [|done]. simpl. apply IH.
Qed.

Lemma skip_exists s q c : store_ok s -> s !! q = Some c ->
  is_Some (up s q (Z.to_nat (nHeight c - GetSkipHeight (nHeight c + 1)))).
Proof.
  intros Hs Hq. pose proof (node_height _ _ (Hs q c Hq)). pose proof (GetSkipHeight_range (nHeight c + 1) ltac:(lia)).
  destruct (up_height s q c (Z.to_nat (nHeight c - GetSkipHeight (nHeight c + 1))) Hs Hq ltac:(lia)) as (r & _ & -> & _). done.
Qed.

Lemma node_ok_mono s s' b : s ⊆ s' -> store_ok s -> node_ok s b -> node_ok s' b.
Proof.
  intros Hsub Hs [Hh Hb Hw Hp]. split; [done..|]. destruct (pprev b) as [q|]; [|done].
  destruct Hp as (c & proof & Hq & E & Hk & Hrest). exists c, proof. split; [by eapply lookup_weaken|]. split; [done|].
  split; [|done]. rewrite E in *. destruct (skip_exists s q c Hs Hq) as [r Hr]. rewrite Hk, Hr. symmetry. by eapply up_mono.
Qed.

(** what the new object is linked to *)
Lemma link_prev_spec s m pnew block b0 q c : store_ok s -> s !! pnew = None -> s !! q = Some c ->
  m !! hdr_hashPrevBlock block = Some q ->
  link_prev (<[pnew := b0]> s) m pnew block =
  Some (<[pnew := set_skip (up s q (Z.to_nat (nHeight c - GetSkipHeight (nHeight c + 1)))) (set_prev q (nHeight c + 1) b0)]> s).
Proof.
  intros Hs Hnew Hq Hm. assert (pnew <> q) by congruence. unfold link_prev. rewrite Hm, lookup_insert_ne by done.
  rewrite Hq. cbn [mbind option_bind]. rewrite alter_insert_eq. unfold BuildSkip. rewrite lookup_insert_eq.
  cbn [mbind option_bind pprev set_prev nHeight].
  rewrite (GetAncestor_spec s _ q c _ (insert_subseteq _ _ _ Hnew) Hs Hq). cbn [mbind option_bind].
  pose proof (node_height _ _ (Hs q c Hq)). pose proof (GetSkipHeight_range (nHeight c + 1) ltac:(lia)).
  rewrite Z.gtb_ltb, (proj2 (Z.ltb_ge _ _)), (proj2 (Z.ltb_ge _ _)) by lia. cbn [orb]. f_equal.
  by rewrite insert_insert_eq.
Qed.

(** the conditions under which a header is added: its bits are a 32-bit number, it
    does not name itself as its parent, and without a parent it claims height 0 *)
Record header_ok `{HeaderHash} (t : block_tree) (block : CBlockHeader) : Prop := {
  header_bits : is_u32 (hdr_nBits block);
  header_not_self : hdr_hashPrevBlock block <> GetHeaderHash block;
  header_genesis : mapBlockIndex t !! hdr_hashPrevBlock block = None -> i32 (hdr_nHeight block) = 0;
}.

Section AddToBlockIndex.
Context `{HeaderHash}.
Variables (t : block_tree) (block : CBlockHeader) (status : Z).
Hypothesis Ht : index_ok t.
Hypothesis Hblock : header_ok t block.

(** a new object has no block data *)
Definition fresh_object (b : CBlockIndex) : Prop := nTx b = 0 /\ nChainTx b = 0 /\ nSequenceId b = 0.

(** the object before its cumulative fields are set *)
Lemma linked_new m pnew : index t !! pnew = None -> m = <[GetHeaderHash block := pnew]> (mapBlockIndex t) ->
  exists b1, link_prev (<[pnew := set_hash (GetHeaderHash block) (CBlockIndex_of block)]> (index t)) m pnew block =
      Some (<[pnew := b1]> (index t)) /\
    phashBlock b1 = Some (GetHeaderHash block) /\ pprev b1 = mapBlockIndex t !! hdr_hashPrevBlock block /\
    nBits b1 = hdr_nBits block /\ nTime b1 = hdr_nTime block /\ nStatus b1 = 0 /\ fresh_object b1 /\ 0 <= nHeight b1 /\
    match pprev b1 with
    | None => nHeight b1 = 0 /\ pskip b1 = None
    | Some q => exists c, index t !! q = Some c /\ nHeight b1 = nHeight c + 1 /\
        pskip b1 = up (index t) q (Z.to_nat (nHeight c - GetSkipHeight (nHeight b1)))
    end.
Proof.
  intros Hnew ->. destruct (mapBlockIndex t !! hdr_hashPrevBlock block) as [q|] eqn:Eq.
  - destruct (proj1 (index_map t Ht _ _) Eq) as (c & Hc & _). pose proof (node_height _ _ (index_store t Ht q c Hc)).
    eexists. split; [apply (link_prev_spec _ _ _ _ _ q c); [apply (index_store t Ht) | done | done|]|].
    { rewrite lookup_insert_ne; [done|]. intros E. by apply (header_not_self t block Hblock). }
    simpl. repeat split; [lia|]. exists c. done.
  - eexists. split; [unfold link_prev; rewrite lookup_insert_ne, Eq; [done|]|].
    { intros E. by apply (header_not_self t block Hblock). }
    pose proof (header_genesis t block Hblock Eq) as E. simpl. rewrite E. done.
Qed.

Lemma accumulate_new pnew b1 : index t !! pnew = None -> is_u32 (nBits b1) -> 0 <= nHeight b1 ->
  match pprev b1 with
  | None => nHeight b1 = 0 /\ pskip b1 = None
  | Some q => exists c, index t !! q = Some c /\ nHeight b1 = nHeight c + 1 /\
      pskip b1 = up (index t) q (Z.to_nat (nHeight c - GetSkipHeight (nHeight b1)))
  end ->
  exists b2, accumulate (<[pnew := b1]> (index t)) pnew = Some (<[pnew := b2]> (index t)) /\
    node_ok (index t) b2 /\ phashBlock b2 = phashBlock b1 /\ pprev b2 = pprev b1 /\ nBits b2 = nBits b1 /\
    nTime b2 = nTime b1 /\ nStatus b2 = nStatus b1 /\ (fresh_object b1 -> fresh_object b2).
Proof.
  intros Hnew Hb Hh Hprev. unfold accumulate. rewrite lookup_insert_eq. cbn [mbind option_bind].
  destruct (GetBlockProof_spec (nBits b1) Hb) as (proof & Ep & Hp & _). rewrite Ep. cbn [mbind option_bind].
  destruct (uval_of_u64 8 0 ltac:(lia) ltac:(unfold is_u64; lia)) as [Hz _].
  destruct (pprev b1) as [q|] eqn:Eprev.
  - destruct Hprev as (c & Hc & E & Hk). assert (pnew <> q) by congruence. rewrite lookup_insert_ne, Hc by done.
    cbn [mbind option_bind]. rewrite insert_insert_eq. eexists. split; [done|]. split; [|by rewrite <- Eprev].
    pose proof (node_work _ _ (index_store t Ht q c Hc)) as Hw.
    split; [done | done | simpl; by apply uval_add |]. simpl. rewrite Eprev. exists c, proof. done.
  - rewrite insert_insert_eq. eexists. split; [done|]. split; [|by rewrite <- Eprev].
    split; [done | done | simpl; by apply uval_add |]. simpl. rewrite Eprev. destruct Hprev. eauto 10.
Qed.

Lemma node_ok_status s x b : node_ok s b -> node_ok s (set_status x b).
Proof. intros [Hh Hb Hw Hp]. by split. Qed.

Lemma CompareTo_lt W a b : uwf W a -> uwf W b -> (Uint.CompareTo a b <? 0) = (uval a <? uval b).
Proof.
  intros Ha Hb. rewrite (CompareTo_spec W) by done. unfold Z.ltb at 2. by destruct (uval a ?= uval b).
Qed.

Hypothesis Hstatus : status = BLOCK_VALID_TREE \/ status = BLOCK_CONFLICT_CHAINLOCK.

(** the best header after a block with the final fields of [b2] has come in *)
Lemma raise_new_spec pnew b2 : index t !! pnew = None -> node_ok (index t) b2 -> nStatus b2 = 0 ->
  exists st best, raise_new (<[pnew := b2]> (index t)) (pindexBestHeader t) pnew status =
      Some (<[pnew := set_status st b2]> (index t), best) /\
    (best = Some pnew \/ best = pindexBestHeader t) /\
    (competes (set_status st b2) -> exists q c, best = Some q /\
       <[pnew := set_status st b2]> (index t) !! q = Some c /\ uval (nChainWork b2) <= uval (nChainWork c)) /\
    (forall q c, pindexBestHeader t = Some q -> index t !! q = Some c -> best = Some pnew ->
       uval (nChainWork c) <= uval (nChainWork b2)) /\
    Z.land st BLOCK_FAILED_MASK = 0.
Proof.
  intros Hnew Hb2 Hs. unfold raise_new. rewrite lookup_insert_eq. cbn [mbind option_bind]. rewrite Hs.
  destruct Hstatus as [->| ->].
  - change (negb (Z.land BLOCK_VALID_TREE BLOCK_VALID_MASK =? 0)) with true. cbv iota.
    change (RaiseValidity 0 BLOCK_VALID_TREE) with (Some (true, 2)). cbn [mbind option_bind snd].
    destruct (pindexBestHeader t) as [p|] eqn:Ebest.
    + destruct (index_best_in t Ht p Ebest) as [c Hc]. assert (pnew <> p) by congruence.
      rewrite lookup_insert_ne, Hc by done. cbn [mbind option_bind]. rewrite insert_insert_eq.
      pose proof (node_work _ _ (index_store t Ht p c Hc)) as Hw. pose proof (node_work _ _ Hb2) as Hw2.
      rewrite (CompareTo_lt 8) by done. eexists _, _. split; [done|].
      destruct (Z.ltb_spec (uval (nChainWork c)) (uval (nChainWork b2))).
      * split; [by left|]. split; [|split; [intros q c' [= <-] Hc' _; rewrite Hc in Hc'; injection Hc' as <-; lia | done]].
        intros _. exists pnew, (set_status 2 b2). rewrite lookup_insert_eq. split; [done|]. split; [done|]. simpl. lia.
      * split; [by right|]. split; [|split; [intros q c' _ _ [= E]; congruence | done]].
        intros _. exists p, c. rewrite lookup_insert_ne by done. done.
    + cbn [mbind option_bind]. rewrite insert_insert_eq. eexists _, _. split; [done|]. split; [by left|]. split; [|done].
      intros _. exists pnew, (set_status 2 b2). rewrite lookup_insert_eq. split; [done|]. split; [done|]. simpl. lia.
  - change (RaiseValidity 0 BLOCK_VALID_TREE) with (Some (true, 2)). cbn [mbind option_bind snd].
    change (negb (Z.land BLOCK_CONFLICT_CHAINLOCK BLOCK_VALID_MASK =? 0)) with false. cbv iota.
    rewrite insert_insert_eq. eexists _, _. split; [done|]. split; [by right|]. split; [done|].
    split; [|done]. intros q c Hq Hc E. rewrite Hq in E. injection E as ->. congruence.
Qed.

(** the whole operation for a hash that is not in the index *)
Lemma AddToBlockIndex_new : mapBlockIndex t !! GetHeaderHash block = None ->
  exists p b t', AddToBlockIndex t block status = Some (p, t') /\
    index t !! p = None /\ index t' = <[p := b]> (index t) /\ node_ok (index t) b /\
    phashBlock b = Some (GetHeaderHash block) /\ pprev b = mapBlockIndex t !! hdr_hashPrevBlock block /\
    nBits b = hdr_nBits block /\ nTime b = hdr_nTime block /\
    fresh_object b /\ Z.land (nStatus b) BLOCK_FAILED_MASK = 0 /\
    mapBlockIndex t' = <[GetHeaderHash block := p]> (mapBlockIndex t) /\
    setDirtyBlockIndex t' = {[p]} ∪ setDirtyBlockIndex t /\
    mapPrevBlockIndex t' = mapPrevBlockIndex t ++
      match pprev b with Some _ => [(hdr_hashPrevBlock block, p)] | None => [] end /\
    (pindexBestHeader t' = Some p \/ pindexBestHeader t' = pindexBestHeader t) /\
    (competes b -> exists q c, pindexBestHeader t' = Some q /\ index t' !! q = Some c /\
       uval (nChainWork b) <= uval (nChainWork c)) /\
    (forall q c, pindexBestHeader t = Some q -> index t !! q = Some c -> pindexBestHeader t' = Some p ->
       uval (nChainWork c) <= uval (nChainWork b)).
Proof.
  intros Enew. unfold AddToBlockIndex. rewrite Enew. set (p := fresh (dom (index t))).
  assert (Hp : index t !! p = None) by (apply not_elem_of_dom, is_fresh).
  destruct (linked_new _ p Hp eq_refl) as (b1 & E1 & Eh & Eprev & Eb & Et & Es & Hfresh & Hh & Hlink).
  rewrite E1. cbn [mbind option_bind].
  destruct (accumulate_new p b1 Hp ltac:(rewrite Eb; apply (header_bits t block Hblock)) Hh Hlink)
    as (b2 & E2 & Hok & Eh2 & Eprev2 & Eb2 & Et2 & Es2 & Hfresh2). rewrite E2. cbn [mbind option_bind].
  destruct (raise_new_spec p b2 Hp Hok ltac:(congruence)) as (st & best & E3 & Hb & Hc & Hbest & Hst). rewrite E3. cbn [mbind option_bind].
  rewrite lookup_insert_eq. cbn [mbind option_bind]. change (pprev (set_status st b2)) with (pprev b2).
  rewrite Eprev2, Eprev. exists p, (set_status st b2).
  assert (Hfin : exists prev, match mapBlockIndex t !! hdr_hashPrevBlock block with
      | Some q => c ← <[p := set_status st b2]> (index t) !! q; Some (mapPrevBlockIndex t ++ [(GetBlockHash c, p)])
      | None => Some (mapPrevBlockIndex t) end = Some prev /\
      prev = mapPrevBlockIndex t ++ match mapBlockIndex t !! hdr_hashPrevBlock block with
        Some _ => [(hdr_hashPrevBlock block, p)] | None => [] end).
  { destruct (mapBlockIndex t !! hdr_hashPrevBlock block) as [q|] eqn:Eq; [|by rewrite app_nil_r; eauto].
    destruct (proj1 (index_map t Ht _ _) Eq) as (c & Hcq & Ehash). assert (p <> q) by congruence.
    rewrite lookup_insert_ne, Hcq by done. cbn [mbind option_bind]. unfold GetBlockHash. rewrite Ehash. eauto. }
  destruct Hfin as (prev & -> & ->). cbn [mbind option_bind]. eexists. split; [done|].
  split; [done|]. split; [done|]. split; [by apply node_ok_status|].
  change (phashBlock (set_status st b2)) with (phashBlock b2). change (pprev (set_status st b2)) with (pprev b2).
  rewrite Eh2, Eprev2, Eprev. change (nBits (set_status st b2)) with (nBits b2). change (nTime (set_status st b2)) with (nTime b2).
  split_and!; try done; [congruence.. | by apply Hfresh2].
Qed.

(** the fields of the invariant that the pointers and the maps carry *)
Lemma index_ok_insert p b t' : index t !! p = None -> index t' = <[p := b]> (index t) -> node_ok (index t) b ->
  phashBlock b = Some (GetHeaderHash block) -> mapBlockIndex t !! GetHeaderHash block = None ->
  mapBlockIndex t' = <[GetHeaderHash block := p]> (mapBlockIndex t) ->
  store_ok (index t') /\
  (forall h q, mapBlockIndex t' !! h = Some q <-> exists c, index t' !! q = Some c /\ phashBlock c = Some h) /\
  (forall q c, index t' !! q = Some c -> is_Some (phashBlock c)).
Proof.
  intros Hp Ei Hb Eh Enew Em. pose proof (insert_subseteq (index t) p b Hp) as Hsub. split; [|split].
  - rewrite Ei. apply map_Forall_insert_2; [by apply (node_ok_mono (index t)); try apply (index_store t Ht)|].
    intros q c Hq. apply (node_ok_mono (index t)); [done | apply (index_store t Ht) | by apply (index_store t Ht q)].
  - intros h q. rewrite Em, Ei. destruct (decide (h = GetHeaderHash block)) as [->|Hne].
    + rewrite lookup_insert_eq. split; [intros [= <-]; exists b; by rewrite lookup_insert_eq|].
      intros (c & Hc & Ec). destruct (decide (q = p)) as [->|]; [done|]. rewrite lookup_insert_ne in Hc by done.
      enough (mapBlockIndex t !! GetHeaderHash block = Some q) by congruence. apply (index_map t Ht). eauto.
    + rewrite lookup_insert_ne by done. rewrite (index_map t Ht). split; intros (c & Hc & Ec); exists c; split; try done.
      * rewrite lookup_insert_ne; [done|]. congruence.
      * rewrite lookup_insert_ne in Hc; [done|]. intros <-. rewrite lookup_insert_eq in Hc. congruence.
  - intros q c. rewrite Ei. intros [[<- <-]|[_ Hc]]%lookup_insert_Some; [by rewrite Eh | by apply (index_hash t Ht q)].
Qed.

Lemma best_ok_insert p b t' : index t !! p = None -> index t' = <[p := b]> (index t) ->
  (pindexBestHeader t' = Some p \/ pindexBestHeader t' = pindexBestHeader t) ->
  (competes b -> exists q c, pindexBestHeader t' = Some q /\ index t' !! q = Some c /\
     uval (nChainWork b) <= uval (nChainWork c)) ->
  (forall q c, pindexBestHeader t = Some q -> index t !! q = Some c -> pindexBestHeader t' = Some p ->
     uval (nChainWork c) <= uval (nChainWork b)) ->
  ((forall q c, index t !! q = Some c -> competes c ->
     exists r d, pindexBestHeader t = Some r /\ index t !! r = Some d /\ uval (nChainWork c) <= uval (nChainWork d)) ->
   forall q c, index t' !! q = Some c -> competes c ->
    exists r d, pindexBestHeader t' = Some r /\ index t' !! r = Some d /\ uval (nChainWork c) <= uval (nChainWork d)) /\
  (forall q, pindexBestHeader t' = Some q -> is_Some (index t' !! q)).
Proof.
  intros Hp Ei Hbest Hc Hle. split.
  - intros Hold q c Hq Hcomp. rewrite Ei in Hq. apply lookup_insert_Some in Hq as [[<- <-]|[Hne Hq]]; [by apply Hc|].
    destruct (Hold q c Hq Hcomp) as (r & d & Er & Hd & Hw). destruct Hbest as [Hb|Hb].
    + exists p, b. rewrite Ei, lookup_insert_eq. split; [done|]. split; [done|]. pose proof (Hle r d Er Hd Hb). lia.
    + exists r, d. rewrite Hb, Ei, lookup_insert_ne by congruence. done.
  - intros q Hq. rewrite Ei. destruct (decide (q = p)) as [->|]; [rewrite lookup_insert_eq; eauto|].
    rewrite lookup_insert_ne by done. destruct Hbest as [Hb|Hb]; [congruence|]. apply (index_best_in t Ht). congruence.
Qed.

Lemma children_ok_insert p b t' : index t !! p = None -> index t' = <[p := b]> (index t) -> node_ok (index t) b ->
  pprev b = mapBlockIndex t !! hdr_hashPrevBlock block ->
  mapPrevBlockIndex t' = mapPrevBlockIndex t ++ match pprev b with Some _ => [(hdr_hashPrevBlock block, p)] | None => [] end ->
  forall h q, (h, q) ∈ mapPrevBlockIndex t' <->
    exists c r d, index t' !! q = Some c /\ pprev c = Some r /\ index t' !! r = Some d /\ phashBlock d = Some h.
Proof.
  intros Hp Ei Hb Eprev Em h q. rewrite Em, elem_of_app, (index_children t Ht), Ei. split.
  - intros [(c & r & d & Hc & Hr & Hd & Eh)|Hin].
    + exists c, r, d. rewrite !lookup_insert_ne by congruence. done.
    + destruct (pprev b) as [r|] eqn:Er; [|by apply not_elem_of_nil in Hin]. apply list_elem_of_singleton in Hin as [= -> ->].
      symmetry in Eprev. apply (index_map t Ht) in Eprev as (d & Hd & Eh). exists b, r, d.
      rewrite lookup_insert_eq, lookup_insert_ne by congruence. done.
  - intros (c & r & d & Hc & Hr & Hd & Eh). apply lookup_insert_Some in Hc as [[<- <-]|[Hne Hc]].
    + right. pose proof (node_prev _ _ Hb) as Hprev. rewrite Hr in Hprev |- *. destruct Hprev as (d' & _ & Hd' & _).
      rewrite lookup_insert_ne in Hd by congruence. apply list_elem_of_singleton. f_equal.
      symmetry in Eprev. rewrite Hr in Eprev. apply (index_map t Ht) in Eprev as (d'' & Hd'' & Eh''). congruence.
    + left. exists c, r, d. pose proof (node_prev _ _ (index_store t Ht q c Hc)) as Hprev. rewrite Hr in Hprev.
      destruct Hprev as (d' & _ & Hd' & _). rewrite lookup_insert_ne in Hd by congruence. done.
Qed.
End AddToBlockIndex.

(** one more object, and the maps stay right *)
Lemma AddToBlockIndex_index `{HeaderHash} t block status :
  index_ok t -> header_ok t block -> status = BLOCK_VALID_TREE \/ status = BLOCK_CONFLICT_CHAINLOCK ->
  mapBlockIndex t !! GetHeaderHash block = None ->
  exists p b t', AddToBlockIndex t block status = Some (p, t') /\ index_ok t' /\
    index t !! p = None /\ index t' = <[p := b]> (index t) /\
    mapBlockIndex t' = <[GetHeaderHash block := p]> (mapBlockIndex t) /\
    phashBlock b = Some (GetHeaderHash block) /\ pprev b = mapBlockIndex t !! hdr_hashPrevBlock block /\
    nBits b = hdr_nBits block /\ nTime b = hdr_nTime block /\
    fresh_object b /\ Z.land (nStatus b) BLOCK_FAILED_MASK = 0.
Proof.
  intros Ht Hb Hst E. destruct (AddToBlockIndex_new t block status Ht Hb Hst E) as
    (p & b & t' & -> & Hp & Ei & Hok & Eh & Eprev & Eb & Et & Hfresh & Hs & Em & _ & Ec & Hbest & Hcomp & Hle).
  destruct (index_ok_insert t block Ht p b t' Hp Ei Hok Eh E Em) as (H1 & H2 & H3).
  destruct (best_ok_insert t Ht p b t' Hp Ei Hbest Hcomp Hle) as (_ & H5).
  exists p, b, t'. split; [done|]. split; [split; try done; by apply (children_ok_insert t block Ht p b)|]. done.
Qed.

Lemma AddToBlockIndex_ok `{HeaderHash} t block status :
  tree_ok t -> header_ok t block -> status = BLOCK_VALID_TREE \/ status = BLOCK_CONFLICT_CHAINLOCK ->
  exists p t', AddToBlockIndex t block status = Some (p, t') /\ tree_ok t' /\ index t ⊆ index t' /\
    mapBlockIndex t' !! GetHeaderHash block = Some p /\
    (mapBlockIndex t !! GetHeaderHash block = None -> exists b, index t' !! p = Some b /\
       pprev b = mapBlockIndex t !! hdr_hashPrevBlock block /\ nBits b = hdr_nBits block /\ nTime b = hdr_nTime block).
Proof.
  intros [Ht Hbest] Hb Hst. destruct (mapBlockIndex t !! GetHeaderHash block) as [p|] eqn:E.
  { exists p, t. unfold AddToBlockIndex. rewrite E. done. }
  destruct (AddToBlockIndex_index t block status Ht Hb Hst E) as (p & b & t' & Ea & Ht' & Hp & Ei & Em & _ & Eprev & Eb & Et & _).
  destruct (AddToBlockIndex_new t block status Ht Hb Hst E) as
    (p2 & b2 & t2 & Ea2 & Hp2 & Ei2 & _ & _ & _ & _ & _ & _ & _ & _ & _ & _ & Hn & Hcomp & Hle).
  rewrite Ea in Ea2. injection Ea2 as <- <-.
  exists p, t'. split; [done|]. split; [split; [done|]; by apply (best_ok_insert t Ht p b2 t' Hp2 Ei2 Hn Hcomp Hle)|].
  split; [rewrite Ei; by apply insert_subseteq|]. split; [by rewrite Em, lookup_insert_eq|].
  intros _. exists b. by rewrite Ei, lookup_insert_eq.
Qed.

(** the block indexes the program builds, from the empty one *)
Definition empty_tree : block_tree := BlockTree ∅ ∅ None ∅ [].

Inductive reachable `{HeaderHash} : block_tree -> Prop :=
  | reachable_init : reachable empty_tree
  | reachable_add t block status p t' : reachable t -> header_ok t block ->
      status = BLOCK_VALID_TREE \/ status = BLOCK_CONFLICT_CHAINLOCK ->
      AddToBlockIndex t block status = Some (p, t') -> reachable t'.

Lemma reachable_ok `{HeaderHash} t : reachable t -> tree_ok t.
Proof.
  induction 1 as [|t block status p t' _ IH Hb Hst E].
  - split; [split; simpl; [apply map_Forall_empty | | | done |]|].
    + intros h p. rewrite lookup_empty. split; [done|]. by intros (b & [=] & _).
    + intros p b. by rewrite lookup_empty.
    + intros h p. split; [intros Hin; by apply not_elem_of_nil in Hin|]. by intros (b & q & c & [=] & _).
    + intros p b. simpl. by rewrite lookup_empty.
  - destruct (AddToBlockIndex_ok t block status IH Hb Hst) as (q & t2 & E2 & Ht & _). congruence.
Qed.

(** a chain of [n] blocks, and a fork of it, built by the operation *)
Definition sample_header_hash : HeaderHash := {| GetHeaderHash b := [hdr_nNonce b] |}.
#[local] Existing Instance sample_header_hash.

Definition sample_header (n prev : Z) : CBlockHeader :=
  MkCBlockHeader 1 [prev] [] (1600000000 + 60 * n) 0x207fffff n 0 0 [].

Definition add_sample (t : block_tree) (np : Z * Z) : block_tree :=
  match AddToBlockIndex t (sample_header np.1 np.2) BLOCK_VALID_TREE with Some (_, t') => t' | None => t end.

Definition sample_tree : block_tree :=
  foldl add_sample empty_tree [(0, -1); (1, 0); (2, 1); (3, 2); (4, 3); (5, 4); (6, 5); (17, 3); (18, 17)].

Lemma add_sample_reachable t np : reachable t -> np.1 <> np.2 -> mapBlockIndex t !! [np.2] <> None \/ np.1 = 0 ->
  reachable (add_sample t np).
Proof.
  intros Ht Hne Hp. assert (Hok : header_ok t (sample_header np.1 np.2)).
  { split; simpl; [unfold is_u32; lia | congruence | done]. }
  destruct (AddToBlockIndex_ok t _ BLOCK_VALID_TREE (reachable_ok t Ht) Hok ltac:(by left)) as (p & t' & E & _).
  unfold add_sample. rewrite E. eapply reachable_add; [exact Ht | exact Hok | by left | exact E].
Qed.

Lemma sample_tree_reachable : reachable sample_tree.
Proof.
  unfold sample_tree. simpl foldl.
  repeat (apply add_sample_reachable; [| simpl; lia | first [by right | left; vm_compute; discriminate]]).
  constructor.
Qed.

(** ** Properties *)

(** C31: the skip-list walk returns the ancestor that following the parent pointers
    leads to, and the null pointer exactly for a height outside the chain; no
    assertion of the walk fails. *)
Theorem GetAncestor_correct t p b height :
  tree_ok t -> index t !! p = Some b ->
  if (height >? nHeight b) || (height <? 0) then GetAncestor (index t) p height = Some None
  else exists q c, GetAncestor (index t) p height = Some (Some q) /\
    up (index t) p (Z.to_nat (nHeight b - height)) = Some q /\ index t !! q = Some c /\ nHeight c = height.
Proof.
  intros Ht Hp. rewrite (GetAncestor_spec (index t) (index t) p b height) by (done || apply (tree_store t Ht)).
  destruct (_ || _) eqn:E; [done|]. apply orb_false_iff in E as [E1 E2]. rewrite Z.gtb_ltb in E1. bool_to_prop.
  destruct (up_height (index t) p b (Z.to_nat (nHeight b - height)) (tree_store t Ht) Hp ltac:(lia)) as (q & c & -> & Hc & Eh).
  exists q, c. split; [done|]. split; [done|]. split; [done|]. lia.
Qed.

Lemma GetAncestor_correct_witness :
  if (2 >? 6) || (2 <? 0) then GetAncestor (index sample_tree) 7 2 = Some None
  else exists q c, GetAncestor (index sample_tree) 7 2 = Some (Some q) /\
    up (index sample_tree) 7 4 = Some q /\ index sample_tree !! q = Some c /\ nHeight c = 2.
Proof.
  assert (E : exists b, index sample_tree !! 7%positive = Some b /\ nHeight b = 6) by (vm_compute; eauto).
  destruct E as (b & E & Eh). pose proof (GetAncestor_correct sample_tree 7%positive b 2 (reachable_ok _ sample_tree_reachable) E) as H.
  by rewrite Eh in H.
Defined.

(** C13: every block index the program can build from the empty one is well formed:
    heights, skip pointers, cumulative work and time, the hash index, the child
    index and the best header agree; adding a further header never fails and links
    it to the block its previous hash names. *)
Theorem reachable_tree_ok (hh : HeaderHash) t :
  reachable t ->
  tree_ok t /\
  forall block status, header_ok t block -> status = BLOCK_VALID_TREE \/ status = BLOCK_CONFLICT_CHAINLOCK ->
    exists p t', AddToBlockIndex t block status = Some (p, t') /\ tree_ok t' /\ index t ⊆ index t' /\
      mapBlockIndex t' !! GetHeaderHash block = Some p /\
      (mapBlockIndex t !! GetHeaderHash block = None -> exists b, index t' !! p = Some b /\
         pprev b = mapBlockIndex t !! hdr_hashPrevBlock block /\ nBits b = hdr_nBits block /\ nTime b = hdr_nTime block).
Proof.
  intros Ht. pose proof (reachable_ok t Ht) as Hok. split; [done|]. intros block status Hb Hst. by apply AddToBlockIndex_ok.
Qed.

Lemma reachable_tree_ok_witness : tree_ok sample_tree.
Proof. exact (proj1 (reachable_tree_ok sample_header_hash sample_tree sample_tree_reachable)). Defined.
