(* ===== verification/ActiveChain.v ===== *)
(** * The active chain ([CChain] of chain.h and chain.cpp, [LastCommonAncestor])

    [vChain] is a list of pointers into the store of Chain.v, null entries included.
    [chain_ok] says that entry [i] is a block of height [i] whose parent is entry
    [i - 1]; the operations that use the vector as an index are shown to agree with
    the parent pointers. *)

From stdpp Require Import sorting.
From S2P Require Import Chain.
From S2P Require Import Prelude ArithUint Compact.
#[local] Open Scope Z_scope.

Abbreviation vchain := (list (option ptr)).

(** ** Operations *)

Definition Genesis (v : vchain) : option ptr := match v with [] => None | x :: _ => x end.
Definition Tip (v : vchain) : option ptr := default None (last v).
(** [operator[](int nHeight)] *)
Definition at_height (v : vchain) (h : Z) : option ptr :=
  if (h <? 0) || (h >=? zlen v) then None else default None (v !! Z.to_nat h).
(** [operator==]: of two non-empty chains *)
Definition chain_eqb (a b : vchain) : bool :=
  (zlen a =? zlen b) && bool_decide (last a = last b).
Definition Contains (s : store) (v : vchain) (p : ptr) : option bool :=
  b ← s !! p; Some (bool_decide (at_height v (nHeight b) = Some p)).
Definition Next (s : store) (v : vchain) (p : ptr) : option (option ptr) :=
  b ← s !! p;
  c ← Contains s v p;
  Some (if (c : bool) then at_height v (nHeight b + 1) else None).
Definition Height (v : vchain) : Z := zlen v - 1.

(** [vChain.resize(n)] *)
Definition resize (v : vchain) (n : nat) : vchain := take n v ++ replicate (n - length v) None.

(** [while (pindex && vChain[pindex->nHeight] != pindex)]; an index outside the
    vector is [None] *)
Definition set_tip_step (s : store) (st : option ptr * vchain) : option ptr * vchain + option vchain :=
  let '(pindex, v) := st in
  match pindex with
  | None => inr (Some v)
  | Some p =>
      match s !! p with
      | None => inr None
      | Some b =>
          match v !! Z.to_nat (nHeight b) with
          | None => inr None
          | Some x =>
              if bool_decide (x = Some p) then inr (Some v)
              else inl (pprev b, <[Z.to_nat (nHeight b) := Some p]> v)
          end
      end
  end.

(** [SetTip(pindex)] *)
Definition SetTip (s : store) (v : vchain) (pindex : option ptr) : option vchain :=
  match pindex with
  | None => Some []
  | Some p =>
      b ← s !! p;
      let n := S (Z.to_nat (nHeight b)) in
      r ← while_loop (set_tip_step s) (S n) (Some p, resize v n);
      r
  end.

(** [while (pindex && !Contains(pindex)) pindex = pindex->pprev] *)
Definition fork_step (s : store) (v : vchain) (pindex : option ptr) : option ptr + option (option ptr) :=
  match pindex with
  | None => inr (Some None)
  | Some p =>
      match s !! p with
      | None => inr None
      | Some b => if bool_decide (at_height v (nHeight b) = Some p) then inr (Some (Some p)) else inl (pprev b)
      end
  end.

(** [FindFork(pindex)] *)
Definition FindFork (s : store) (v : vchain) (pindex : option ptr) : option (option ptr) :=
  match pindex with
  | None => Some None
  | Some p =>
      b ← s !! p;
      pindex ← (if nHeight b >? Height v then GetAncestor s p (Height v) else Some (Some p));
      r ← while_loop (fork_step s v) (S (S (Z.to_nat (nHeight b)))) pindex;
      r
  end.

(** one turn of the loop of [GetLocator]: [pindex], [nStep] and [vHave] *)
Definition locator_step (s : store) (v : vchain) (st : option ptr * Z * list (list Z)) :
    option ptr * Z * list (list Z) + option (list (list Z)) :=
  let '(pindex, nStep, vHave) := st in
  match pindex with
  | None => inr (Some vHave)
  | Some p =>
      match s !! p with
      | None => inr None
      | Some b =>
          let vHave := vHave ++ [GetBlockHash b] in
          if nHeight b =? 0 then inr (Some vHave)
          else
            let h := Z.max (nHeight b - nStep) 0 in
            match (if bool_decide (at_height v (nHeight b) = Some p) then Some (at_height v h) else GetAncestor s p h) with
            | None => inr None
            | Some pindex => inl (pindex, if zlen vHave >? 10 then nStep * 2 else nStep, vHave)
            end
      end
  end.

Definition GetLocator (s : store) (v : vchain) (pindex : option ptr) : option (list (list Z)) :=
  let pindex := match pindex with None => Tip v | Some p => Some p end in
  match pindex with
  | None => Some []
  | Some p =>
      b ← s !! p;
      r ← while_loop (locator_step s v) (S (S (Z.to_nat (nHeight b)))) (Some p, 1, []);
      r
  end.

(** [std::lower_bound] over [vChain], as the standard library searches: [len] and
    [first]; the comparison follows the pointers *)
Fixpoint lower_bound (fuel : nat) (less : option ptr -> option bool) (v : vchain) (first len : nat) : option nat :=
  match fuel with
  | O => None
  | S fuel =>
      match len with
      | O => Some first
      | _ =>
          let half := (len / 2)%nat in
          x ← v !! (first + half)%nat;
          l ← less x;
          if (l : bool) then lower_bound fuel less v (first + half + 1) (len - half - 1)
          else lower_bound fuel less v first half
      end
  end.

(** [FindEarliestAtLeast(nTime)] *)
Definition FindEarliestAtLeast (s : store) (v : vchain) (time : Z) : option (option ptr) :=
  lower ← lower_bound (S (length v)) (fun x => p ← x; b ← s !! p; Some (nTimeMax b <? time)) v 0 (length v);
  Some (default None (v !! (lower : nat))).

(** one turn of the loop of [LastCommonAncestor] *)
Definition common_step (s : store) (st : option ptr * option ptr) :
    option ptr * option ptr + option (option ptr * option ptr) :=
  let '(pa, pb) := st in
  if bool_decide (pa = pb) then inr (Some (pa, pb))
  else
    match pa, pb with
    | Some p, Some q =>
        match s !! p, s !! q with Some a, Some b => inl (pprev a, pprev b) | _, _ => inr None end
    | _, _ => inr (Some (pa, pb))
    end.

(** [LastCommonAncestor(pa, pb)], with the assertion that both ended together *)
Definition LastCommonAncestor (s : store) (p q : ptr) : option (option ptr) :=
  a ← s !! p;
  b ← s !! q;
  pa ← (if nHeight a >? nHeight b then GetAncestor s p (nHeight b) else Some (Some p));
  pb ← (if negb (nHeight a >? nHeight b) && (nHeight b >? nHeight a) then GetAncestor s q (nHeight a) else Some (Some q));
  r ← while_loop (common_step s) (S (S (Z.to_nat (nHeight a)))) (pa, pb);
  r ← r;
  if bool_decide (fst (r : option ptr * option ptr) = snd r) then Some (fst r) else None.

(** ** The invariant *)

(** entry [i] is a block of height [i] whose parent is the entry before *)
Definition link_ok (s : store) (v : vchain) (i : nat) : Prop :=
  exists p b, v !! i = Some (Some p) /\ s !! p = Some b /\ nHeight b = Z.of_nat i /\
    match i with O => pprev b = None | S j => exists q, pprev b = Some q /\ v !! j = Some (Some q) end.

Definition chain_ok (s : store) (v : vchain) : Prop := forall i, (i < length v)%nat -> link_ok s v i.

(** the parent of a block in a well-formed store *)
Lemma parent_height s p b : store_ok s -> s !! p = Some b ->
  match pprev b with
  | None => nHeight b = 0
  | Some q => exists c, s !! q = Some c /\ nHeight b = nHeight c + 1 /\ 0 <= nHeight c
  end.
Proof.
  intros Hs Hp. pose proof (node_prev _ _ (Hs p b Hp)) as H. destruct (pprev b) as [q|]; [|by destruct H].
  destruct H as (c & _ & Hc & E & _). exists c. pose proof (node_height _ _ (Hs q c Hc)). done.
Qed.

Lemma link_ok_ext s v v' i : link_ok s v i -> (forall j, (j <= i)%nat -> v' !! j = v !! j) -> link_ok s v' i.
Proof.
  intros (p & b & Hv & Hp & Hh & Hl) Hext. exists p, b. rewrite (Hext i) by lia. split; [done|]. split; [done|].
  split; [done|]. destruct i as [|j]; [done|]. by rewrite (Hext j) by lia.
Qed.

(** an entry determines the ones below it *)
Lemma chain_up s v i j p : chain_ok s v -> v !! i = Some (Some p) -> (j <= i)%nat ->
  v !! j = Some (up s p (i - j)) /\ is_Some (up s p (i - j)).
Proof.
  intros Hv. revert p. induction i as [|i IH]; intros p Hi Hj.
  - replace j with 0%nat by lia. rewrite Hi. simpl. eauto.
  - destruct (decide (j = S i)) as [->|]; [rewrite Nat.sub_diag, Hi; simpl; eauto|].
    destruct (Hv (S i)) as (p' & b & Hp' & Hb & _ & q & Eq & Hq); [by eapply lookup_lt_Some|].
    rewrite Hi in Hp'. injection Hp' as <-. replace (S i - j)%nat with (S (i - j)) by lia.
    simpl. rewrite Hb. simpl. rewrite Eq. simpl. apply IH; [done|lia].
Qed.

(** ** SetTip *)

Section SetTip.
Variables (s : store) (v0 : vchain) (tip : ptr) (btip : CBlockIndex).
Hypothesis Hs : store_ok s.
Hypothesis Hv0 : chain_ok s v0.
Hypothesis Htip : s !! tip = Some btip.

Definition len : nat := S (Z.to_nat (nHeight btip)).

(** the blocks above the current one are in place, those below still the old ones *)
Definition set_tip_inv (st : option ptr * vchain) : Prop :=
  let '(pindex, v) := st in
  length v = len /\
  match pindex with
  | None => chain_ok s v /\ last v = Some (Some tip)
  | Some p => exists b, s !! p = Some b /\ nHeight b <= nHeight btip /\
      (forall i, (Z.to_nat (nHeight b) + 1 < i < len)%nat -> link_ok s v i) /\
      (forall i, (i <= Z.to_nat (nHeight b))%nat -> v !! i = resize v0 len !! i) /\
      (if decide (nHeight b = nHeight btip) then p = tip
       else last v = Some (Some tip) /\ exists q c, v !! S (Z.to_nat (nHeight b)) = Some (Some q) /\ s !! q = Some c /\
              nHeight c = nHeight b + 1 /\ pprev c = Some p)
  end.

Lemma resize_length v n : length (resize v n) = n.
Proof. unfold resize. rewrite length_app, length_take, length_replicate. lia. Qed.

Lemma resize_lookup v n i p : resize v n !! i = Some (Some p) -> v !! i = Some (Some p).
Proof.
  unfold resize. intros [H|[_ H]]%lookup_app_Some; [by apply lookup_take_Some in H as [H _]|].
  by apply lookup_replicate in H as [[=] _].
Qed.

Lemma resize_old v n i p j : chain_ok s v -> resize v n !! i = Some (Some p) -> (j <= i)%nat -> resize v n !! j = v !! j.
Proof.
  intros Hv H Hj. pose proof (resize_lookup _ _ _ _ H) as H'. apply lookup_lt_Some in H, H'. rewrite resize_length in H.
  unfold resize. rewrite lookup_app_l by (rewrite length_take; lia). by rewrite lookup_take_lt by lia.
Qed.

Lemma last_lookup (v : vchain) n : length v = S n -> last v = v !! n.
Proof. intros E. rewrite last_lookup, E. done. Qed.

Lemma set_tip_exit p v b : set_tip_inv (Some p, v) -> s !! p = Some b -> v !! Z.to_nat (nHeight b) = Some (Some p) ->
  chain_ok s v /\ last v = Some (Some tip).
Proof.
  intros (Hlen & b' & Hb' & Hle & Habove & Hold & Htop) Hb Hp. rewrite Hb in Hb'. injection Hb' as <-.
  pose proof (node_height _ _ (Hs p b Hb)) as Hnn. set (h := Z.to_nat (nHeight b)) in *.
  assert (Hlow : forall i, (i <= h)%nat -> link_ok s v i).
  { intros i Hi. rewrite (Hold h) in Hp by lia. pose proof (resize_lookup _ _ _ _ Hp) as Hp0.
    assert (Hi0 : (i < length v0)%nat) by (apply lookup_lt_Some in Hp0; lia).
    apply (link_ok_ext s v0); [by apply Hv0|]. intros j Hj. rewrite Hold by lia. apply (resize_old _ _ h p); [done | done | lia]. }
  destruct (decide (nHeight b = nHeight btip)) as [E|E].
  - subst p. split; [|rewrite (last_lookup v h); [done | unfold len in Hlen; lia]].
    intros i Hi. apply Hlow. unfold len in Hlen. lia.
  - destruct Htop as (Hlast & q & c & Hq & Hc & Ec & Eprev). split; [|done]. intros i Hi.
    destruct (decide (i <= h)%nat); [by apply Hlow|]. destruct (decide (i = S h)) as [->|]; [|apply Habove; lia].
    exists q, c. split; [done|]. split; [done|]. split; [lia|]. exists p. done.
Qed.

Lemma set_tip_step_spec st : set_tip_inv st ->
  match set_tip_step s st with
  | inl st' => set_tip_inv st' /\
      match st.1, st'.1 with
      | Some p, Some q => exists b c, s !! p = Some b /\ s !! q = Some c /\ nHeight c < nHeight b
      | Some _, None => True
      | None, _ => False
      end
  | inr r => exists v, r = Some v /\ chain_ok s v /\ last v = Some (Some tip)
  end.
Proof.
  destruct st as [[p|] v]; intros Hinv; [|destruct Hinv as [_ [? ?]]; simpl; eauto].
  pose proof Hinv as (Hlen & b & Hb & Hle & Habove & Hold & Htop). simpl. rewrite Hb.
  pose proof (node_height _ _ (Hs p b Hb)) as Hnn. pose proof (node_height _ _ (Hs tip btip Htip)).
  destruct (lookup_lt_is_Some_2 v (Z.to_nat (nHeight b))) as [x Hx]; [unfold len in Hlen; lia|]. rewrite Hx.
  destruct (decide (x = Some p)) as [->|Hne].
  { rewrite bool_decide_true by done. exists v. split; [done|]. by apply (set_tip_exit p v b). }
  rewrite bool_decide_false by done. pose proof (parent_height s p b Hs Hb) as Hpar.
  set (h := Z.to_nat (nHeight b)) in *. set (v' := <[h := Some p]> v).
  assert (Hlen' : length v' = len) by (unfold v'; by rewrite length_insert).
  assert (Hp' : v' !! h = Some (Some p)) by (apply list_lookup_insert_eq; apply lookup_lt_Some in Hx; done).
  assert (Hup : forall i, (h < i)%nat -> v' !! i = v !! i) by (intros i Hi; apply list_lookup_insert_ne; lia).
  assert (Hlast : last v' = Some (Some tip)).
  { rewrite (last_lookup v' (Z.to_nat (nHeight btip))) by done. destruct (decide (nHeight b = nHeight btip)) as [E|E].
    - subst p. rewrite <- E. done.
    - destruct Htop as [Hl _]. rewrite (last_lookup v (Z.to_nat (nHeight btip))) in Hl by done. rewrite Hup by lia. done. }
  assert (Habove' : forall i, (h < i < len)%nat -> link_ok s v' i).
  { intros i Hi. destruct (decide (i = S h)) as [->|Hi1].
    - destruct (decide (nHeight b = nHeight btip)) as [E|E]; [unfold len in Hi; lia|].
      destruct Htop as (_ & q & c & Hq & Hc & Ec & Eprev). exists q, c. rewrite Hup by lia.
      split; [done|]. split; [done|]. split; [lia|]. exists p. done.
    - destruct (Habove i ltac:(lia)) as (q & c & Hq & Hc & Ec & Hl). exists q, c. rewrite Hup by lia.
      split; [done|]. split; [done|]. split; [done|]. destruct i as [|j]; [lia|]. rewrite Hup by lia. done. }
  destruct (pprev b) as [q|] eqn:Eprev.
  - destruct Hpar as (c & Hc & Ec & Hcn). split; [|simpl; exists b, c; split; [done|]; split; [done|lia]].
    split; [done|]. exists c. split; [done|]. split; [lia|]. split; [intros i Hi; apply Habove'; lia|].
    split; [intros i Hi; unfold v'; rewrite list_lookup_insert_ne by lia; apply Hold; lia|].
    rewrite decide_False by lia. split; [done|]. exists p, b. replace (S (Z.to_nat (nHeight c))) with h by lia. done.
  - split; [|done]. split; [done|]. split; [|done]. intros i Hi. destruct (decide (i = 0)%nat) as [->|]; [|apply Habove'; lia].
    exists p, b. replace 0%nat with h by lia. split; [done|]. split; [done|]. split; [lia|]. by replace h with 0%nat by lia.
Qed.

Lemma SetTip_spec : exists v, SetTip s v0 (Some tip) = Some v /\ chain_ok s v /\ last v = Some (Some tip).
Proof.
  unfold SetTip. rewrite Htip. cbn [mbind option_bind]. fold len. pose proof (node_height _ _ (Hs tip btip Htip)).
  destruct (while_total (set_tip_step s) set_tip_inv
    (fun st => match st.1 with Some p => match s !! p with Some b => S (Z.to_nat (nHeight b)) | None => 0 end | None => 0 end)%nat
    (fun r => exists v, r = Some v /\ chain_ok s v /\ last v = Some (Some tip))) with
    (fuel := S len) (s := (Some tip, resize v0 len)) as (r & -> & v & -> & Hv).
  - intros st st' Hi E. pose proof (set_tip_step_spec st Hi) as Hstep. rewrite E in Hstep. destruct Hstep as [Hi' Hm].
    split; [done|]. destruct st as [[p|] v], st' as [[q|] v']; simpl in *; try done.
    + destruct Hm as (b & c & -> & Hc & Hlt). rewrite Hc. pose proof (node_height _ _ (Hs q c Hc)). lia.
    + destruct Hi as (_ & b & -> & _). lia.
  - intros st r Hi E. pose proof (set_tip_step_spec st Hi) as Hstep. by rewrite E in Hstep.
  - split; [apply resize_length|]. exists btip. split; [done|]. split; [lia|]. split; [unfold len; intros; lia|].
    split; [done|]. by rewrite decide_True.
  - simpl. rewrite Htip. unfold len. lia.
  - exists v. done.
Qed.
End SetTip.

(** ** Ancestors *)

(** [g] is [p] or an ancestor of it, of height [h] *)
Definition ancestor (s : store) (p : ptr) (h : Z) (g : ptr) : Prop :=
  exists b, s !! p = Some b /\ 0 <= h <= nHeight b /\ up s p (Z.to_nat (nHeight b - h)) = Some g.

Section Ancestors.
Variable s : store.
Hypothesis Hs : store_ok s.

Lemma ancestor_refl p b : s !! p = Some b -> ancestor s p (nHeight b) p.
Proof. intros Hp. pose proof (node_height _ _ (Hs p b Hp)). exists b. rewrite Z.sub_diag. split; [done|]. split; [lia|done]. Qed.

Lemma ancestor_node p h g : ancestor s p h g -> exists c, s !! g = Some c /\ nHeight c = h.
Proof.
  intros (b & Hp & Hh & Hu). destruct (up_height s p b (Z.to_nat (nHeight b - h)) Hs Hp ltac:(lia)) as (q & c & Hq & Hc & E).
  rewrite Hu in Hq. injection Hq as <-. exists c. split; [done|lia].
Qed.

Lemma ancestor_fun p h g g' : ancestor s p h g -> ancestor s p h g' -> g = g'.
Proof. intros (b & Hp & _ & Hu) (b' & Hp' & _ & Hu'). congruence. Qed.

(** one ancestor is the ancestor of the other *)
Lemma ancestor_between p h g h' g' : ancestor s p h g -> ancestor s p h' g' -> h' <= h -> ancestor s g h' g'.
Proof.
  intros H (b & Hp & Hh' & Hu') Hle. destruct (ancestor_node _ _ _ H) as (c & Hc & Ec). destruct H as (b' & Hp' & Hh & Hu).
  rewrite Hp in Hp'. injection Hp' as <-. exists c. split; [done|]. split; [lia|]. rewrite Ec.
  replace (Z.to_nat (nHeight b - h')) with (Z.to_nat (nHeight b - h) + Z.to_nat (h - h'))%nat in Hu' by lia.
  by rewrite up_add, Hu in Hu'.
Qed.

Lemma ancestor_trans p h g h' g' : ancestor s p h g -> ancestor s g h' g' -> ancestor s p h' g'.
Proof.
  intros H H'. destruct (ancestor_node _ _ _ H) as (c & Hc & Ec). destruct H as (b & Hp & Hh & Hu).
  destruct H' as (c' & Hc' & Hh' & Hu'). rewrite Hc in Hc'. injection Hc' as <-. exists b. split; [done|]. split; [lia|].
  replace (Z.to_nat (nHeight b - h')) with (Z.to_nat (nHeight b - h) + Z.to_nat (h - h'))%nat by lia.
  rewrite up_add, Hu. simpl. by rewrite Ec in Hu'.
Qed.

Lemma ancestor_parent p b q c : s !! p = Some b -> pprev b = Some q -> s !! q = Some c -> ancestor s p (nHeight c) q.
Proof.
  intros Hp Eq Hc. pose proof (parent_height s p b Hs Hp) as H. rewrite Eq in H. destruct H as (c' & Hc' & E & Hn).
  rewrite Hc in Hc'. injection Hc' as <-. exists b. split; [done|]. split; [lia|].
  replace (Z.to_nat (nHeight b - nHeight c)) with 1%nat by lia. simpl. rewrite Hp. simpl. by rewrite Eq.
Qed.

(** the result of [GetAncestor] inside the range *)
Lemma GetAncestor_ancestor p b h : s !! p = Some b -> 0 <= h <= nHeight b ->
  exists g, GetAncestor s p h = Some (Some g) /\ ancestor s p h g.
Proof.
  intros Hp Hh. rewrite (GetAncestor_spec s s p b h) by done.
  rewrite Z.gtb_ltb, (proj2 (Z.ltb_ge _ _)), (proj2 (Z.ltb_ge _ _)) by lia. simpl.
  destruct (up_height s p b (Z.to_nat (nHeight b - h)) Hs Hp ltac:(lia)) as (q & c & E & _). rewrite E.
  exists q. split; [done|]. exists b. done.
Qed.

(** the step from a block to its parent, for a property of the common ancestors *)
Lemma ancestor_below p h q b h' g : ancestor s p h q -> s !! q = Some b -> ancestor s p h' g -> h' <= h -> g <> q ->
  exists r c, pprev b = Some r /\ s !! r = Some c /\ nHeight c = h - 1 /\ ancestor s p (h - 1) r /\ h' <= h - 1.
Proof.
  intros Hq Hb Hg Hle Hne. destruct (ancestor_node _ _ _ Hq) as (b' & Hb' & Eh). rewrite Hb in Hb'. injection Hb' as <-.
  assert (h' <> h) by (intros ->; by pose proof (ancestor_fun _ _ _ _ Hq Hg)).
  assert (0 <= h') by (destruct Hg as (? & _ & ? & _); lia).
  pose proof (parent_height s q b Hs Hb) as Hpar. destruct (pprev b) as [r|] eqn:Er; [|lia].
  destruct Hpar as (c & Hc & E & _). exists r, c. split; [done|]. split; [done|]. split; [lia|]. split; [|lia].
  replace (h - 1) with (nHeight c) by lia. apply (ancestor_trans p h q); [done|]. by apply (ancestor_parent q b).
Qed.
End Ancestors.

(** ** FindFork *)

Section FindFork.
Variables (s : store) (v : vchain) (p : ptr) (b : CBlockIndex).
Hypothesis Hs : store_ok s.
Hypothesis Hp : s !! p = Some b.

Definition on_chain (h : Z) (g : ptr) : Prop := ancestor s p h g /\ at_height v h = Some g.

(** every ancestor of [p] that is on the chain is at or below the current block *)
Definition fork_inv (pindex : option ptr) : Prop :=
  match pindex with
  | None => forall h g, ~ on_chain h g
  | Some q => exists hq, ancestor s p hq q /\ forall h g, on_chain h g -> h <= hq
  end.

Definition fork_result (r : option (option ptr)) : Prop :=
  exists x, r = Some x /\
  match x with
  | None => forall h g, ~ on_chain h g
  | Some f => exists hf, on_chain hf f /\ forall h g, on_chain h g -> h <= hf
  end.

Lemma fork_step_spec pindex : fork_inv pindex ->
  match fork_step s v pindex with
  | inl x => fork_inv x /\ match pindex, x with
      | Some q, Some r => exists c d, s !! q = Some c /\ s !! r = Some d /\ nHeight d < nHeight c
      | Some _, None => True
      | None, _ => False end
  | inr r => fork_result r
  end.
Proof.
  destruct pindex as [q|]; [|intros H; by exists None]. intros (hq & Hq & Hmax).
  destruct (ancestor_node s Hs _ _ _ Hq) as (c & Hc & Ec). simpl. rewrite Hc, Ec.
  destruct (decide (at_height v hq = Some q)) as [E|E].
  { rewrite bool_decide_true by done. exists (Some q). split; [done|]. exists hq. done. }
  rewrite bool_decide_false by done.
  assert (Hlow : forall h g, on_chain h g -> exists r d, pprev c = Some r /\ s !! r = Some d /\ nHeight d = hq - 1 /\
            ancestor s p (hq - 1) r /\ h <= hq - 1).
  { intros h g [Hg Hat]. apply (ancestor_below s Hs p hq q c h g); [done | done | done | by apply (Hmax h g)|].
    intros ->. destruct (ancestor_node s Hs _ _ _ Hg) as (c' & Hc' & E'). congruence. }
  pose proof (parent_height s q c Hs Hc) as Hpar. destruct (pprev c) as [r|] eqn:Er.
  - destruct Hpar as (d & Hd & E' & _). split; [|simpl; exists c, d; split; [done|]; split; [done|lia]].
    exists (nHeight d). split; [apply (ancestor_trans s Hs p hq q); [done | by apply (ancestor_parent s Hs q c)]|].
    intros h g Hon. destruct (Hlow h g Hon) as (_ & _ & _ & _ & _ & _ & Hle). lia.
  - split; [|done]. intros h g Hon. by destruct (Hlow h g Hon) as (r & _ & [=] & _).
Qed.

Lemma FindFork_spec : fork_result (FindFork s v (Some p)).
Proof.
  unfold FindFork. rewrite Hp. cbn [mbind option_bind]. pose proof (node_height _ _ (Hs p b Hp)) as Hn.
  assert (Hstart : exists pindex, (if nHeight b >? Height v then GetAncestor s p (Height v) else Some (Some p)) = Some pindex /\
    fork_inv pindex /\ match pindex with Some q => exists c, s !! q = Some c /\ nHeight c <= nHeight b | None => True end).
  { rewrite Z.gtb_ltb. destruct (Z.ltb_spec (Height v) (nHeight b)) as [Hlt|Hge].
    - assert (Hon : forall h g, on_chain h g -> 0 <= h <= Height v).
      { intros h g [(? & _ & ? & _) Hat]. unfold at_height in Hat. unfold Height. destruct (_ || _) eqn:E; [done|].
        apply orb_false_iff in E as [_ E]. rewrite Z.geb_leb in E. bool_to_prop. lia. }
      destruct (decide (0 <= Height v)) as [Hh|Hh].
      + destruct (GetAncestor_ancestor s Hs p b (Height v) Hp ltac:(lia)) as (g & E & Hg). exists (Some g). split; [done|].
        destruct (ancestor_node s Hs _ _ _ Hg) as (c & Hc & Ec). split; [|exists c; split; [done|lia]].
        exists (Height v). split; [done|]. intros h g' Hon'. by apply (Hon h g').
      + exists None. rewrite (GetAncestor_spec s s p b (Height v)) by done.
        rewrite (proj2 (Z.ltb_lt (Height v) 0)), orb_true_r by lia. split; [done|]. split; [|done].
        intros h g Hon'. apply Hon in Hon'. lia.
    - exists (Some p). split; [done|]. split; [|exists b; split; [done|lia]]. exists (nHeight b).
      split; [by apply ancestor_refl|]. intros h g [(b' & Hb' & ? & _) _]. rewrite Hp in Hb'. injection Hb' as <-. lia. }
  destruct Hstart as (pindex & -> & Hinv & Hbound). cbn [mbind option_bind].
  destruct (while_total (fork_step s v) fork_inv
    (fun x => match x with Some q => match s !! q with Some c => S (Z.to_nat (nHeight c)) | None => 0 end | None => 0 end)%nat
    fork_result) with (fuel := S (S (Z.to_nat (nHeight b)))) (s := pindex) as (r & -> & Hr); [| | done | | exact Hr].
  - intros x x' Hi E. pose proof (fork_step_spec x Hi) as H. rewrite E in H. destruct H as [Hi' Hm]. split; [done|].
    destruct x as [q|], x' as [q'|]; try done.
    + destruct Hm as (c & d & -> & Hd & Hlt). rewrite Hd. pose proof (node_height _ _ (Hs q' d Hd)). lia.
    + destruct Hi as (hq & Hq & _). destruct (ancestor_node s Hs _ _ _ Hq) as (c & -> & _). lia.
  - intros x r Hi E. pose proof (fork_step_spec x Hi) as H. by rewrite E in H.
  - destruct pindex as [q|]; [|lia]. destruct Hbound as (c & -> & Hle). lia.
Qed.
End FindFork.

(** ** LastCommonAncestor *)

Section LastCommonAncestor.
Variables (s : store) (p q : ptr) (bp bq : CBlockIndex).
Hypothesis Hs : store_ok s.
Hypothesis Hp : s !! p = Some bp.
Hypothesis Hq : s !! q = Some bq.

Definition common (h : Z) (g : ptr) : Prop := ancestor s p h g /\ ancestor s q h g.

Definition common_inv (st : option ptr * option ptr) : Prop :=
  match st with
  | (Some x, Some y) => exists h, ancestor s p h x /\ ancestor s q h y /\ forall h' g, common h' g -> h' <= h
  | (None, None) => forall h g, ~ common h g
  | _ => False
  end.

Definition common_result (r : option (option ptr * option ptr)) : Prop :=
  exists x, r = Some (x, x) /\
  match x with
  | None => forall h g, ~ common h g
  | Some f => exists hf, common hf f /\ forall h g, common h g -> h <= hf
  end.

Lemma common_step_spec st : common_inv st ->
  match common_step s st with
  | inl st' => common_inv st' /\ match st.1, st'.1 with
      | Some x, Some y => exists c d, s !! x = Some c /\ s !! y = Some d /\ nHeight d < nHeight c
      | Some _, None => True
      | None, _ => False end
  | inr r => common_result r
  end.
Proof.
  destruct st as [[x|] [y|]]; [| done | done | intros H; exists None; done].
  intros (h & Hx & Hy & Hmax). simpl. destruct (decide (x = y)) as [->|Hne].
  { rewrite bool_decide_true by done. exists (Some y). split; [done|]. exists h. done. }
  rewrite bool_decide_false by congruence.
  destruct (ancestor_node s Hs _ _ _ Hx) as (a & Ha & Ea). destruct (ancestor_node s Hs _ _ _ Hy) as (b & Hb & Eb).
  rewrite Ha, Hb. pose proof (parent_height s x a Hs Ha) as Pa. pose proof (parent_height s y b Hs Hb) as Pb.
  assert (Hlow : forall h' g, common h' g -> h' <= h - 1).
  { intros h' g [Gx Gy]. pose proof (Hmax h' g (conj Gx Gy)). destruct (decide (h' = h)) as [->|]; [|lia].
    pose proof (ancestor_fun s _ _ _ _ Hx Gx). pose proof (ancestor_fun s _ _ _ _ Hy Gy). congruence. }
  destruct (pprev a) as [x'|] eqn:Ex, (pprev b) as [y'|] eqn:Ey.
  - destruct Pa as (a' & Ha' & Ea' & _). destruct Pb as (b' & Hb' & Eb' & _).
    split; [|simpl; exists a, a'; split; [done|]; split; [done|lia]]. exists (nHeight a').
    split; [apply (ancestor_trans s Hs p h x); [done | by apply (ancestor_parent s Hs x a)]|].
    split; [|intros h' g Hg; apply Hlow in Hg; lia].
    replace (nHeight a') with (nHeight b') by lia.
    apply (ancestor_trans s Hs q h y); [done | by apply (ancestor_parent s Hs y b)].
  - destruct Pa as (a' & Ha' & Ea' & Hn). lia.
  - destruct Pb as (b' & Hb' & Eb' & Hn). lia.
  - split; [|done]. intros h' g Hg. pose proof (Hlow h' g Hg). destruct Hg as [(? & _ & ? & _) _]. lia.
Qed.

(** the two blocks the loop starts from *)
Lemma common_start : exists pa pb,
  (if nHeight bp >? nHeight bq then GetAncestor s p (nHeight bq) else Some (Some p)) = Some (Some pa) /\
  (if negb (nHeight bp >? nHeight bq) && (nHeight bq >? nHeight bp) then GetAncestor s q (nHeight bp) else Some (Some q)) =
    Some (Some pb) /\
  common_inv (Some pa, Some pb) /\ exists c, s !! pa = Some c /\ nHeight c <= nHeight bp.
Proof.
  pose proof (node_height _ _ (Hs p bp Hp)). pose proof (node_height _ _ (Hs q bq Hq)).
  assert (Hbound : forall h g, common h g -> h <= nHeight bp /\ h <= nHeight bq).
  { intros h g [(b1 & E1 & ? & _) (b2 & E2 & ? & _)]. rewrite Hp in E1. rewrite Hq in E2. injection E1 as <-. injection E2 as <-. lia. }
  pose proof (ancestor_refl s Hs p bp Hp) as Rp. pose proof (ancestor_refl s Hs q bq Hq) as Rq.
  rewrite !Z.gtb_ltb. destruct (Z.ltb_spec (nHeight bq) (nHeight bp)) as [Hlt|Hge]; simpl.
  - destruct (GetAncestor_ancestor s Hs p bp (nHeight bq) Hp ltac:(lia)) as (g & -> & Hg). exists g, q.
    split; [done|]. split; [done|]. destruct (ancestor_node s Hs _ _ _ Hg) as (c & Hc & Ec). split; [|exists c; split; [done|lia]].
    exists (nHeight bq). split; [done|]. split; [done|]. intros h' g' Hg'. by apply Hbound in Hg' as [_ ?].
  - destruct (Z.ltb_spec (nHeight bp) (nHeight bq)) as [Hlt|Hge'].
    + destruct (GetAncestor_ancestor s Hs q bq (nHeight bp) Hq ltac:(lia)) as (g & -> & Hg). exists p, g.
      split; [done|]. split; [done|]. split; [|exists bp; split; [done|lia]].
      exists (nHeight bp). split; [done|]. split; [done|]. intros h' g' Hg'. by apply Hbound in Hg' as [? _].
    + exists p, q. split; [done|]. split; [done|]. split; [|exists bp; split; [done|lia]]. exists (nHeight bp).
      split; [done|]. split; [by replace (nHeight bp) with (nHeight bq) by lia|]. intros h' g' Hg'. by apply Hbound in Hg' as [? _].
Qed.

Lemma LastCommonAncestor_spec : exists r, LastCommonAncestor s p q = Some r /\
  match r with
  | None => forall h g, ~ common h g
  | Some f => exists hf, common hf f /\ forall h g, common h g -> h <= hf
  end.
Proof.
  unfold LastCommonAncestor. rewrite Hp, Hq. cbn [mbind option_bind].
  destruct common_start as (pa & pb & -> & -> & Hinv & c & Hc & Hle). cbn [mbind option_bind].
  destruct (while_total (common_step s) common_inv
    (fun st => match st.1 with Some x => match s !! x with Some c => S (Z.to_nat (nHeight c)) | None => 0 end | None => 0 end)%nat
    common_result) with (fuel := S (S (Z.to_nat (nHeight bp)))) (s := (Some pa, Some pb)) as (r & -> & x & -> & Hx); [| | done | |].
  - intros st st' Hi E. pose proof (common_step_spec st Hi) as H. rewrite E in H. destruct H as [Hi' Hm]. split; [done|].
    destruct st as [[x|] [y|]]; try done; destruct st' as [[x'|] y']; simpl in *; try done.
    + destruct Hm as (c' & d & -> & Hd & Hlt). rewrite Hd. pose proof (node_height _ _ (Hs x' d Hd)). lia.
    + destruct Hi as (h & Hx & _). destruct (ancestor_node s Hs _ _ _ Hx) as (c' & -> & _). lia.
  - intros st r Hi E. pose proof (common_step_spec st Hi) as H. by rewrite E in H.
  - simpl. rewrite Hc. lia.
  - cbn [mbind option_bind fst snd]. rewrite bool_decide_true by done. eauto.
Qed.
End LastCommonAncestor.

(** ** GetLocator *)

Lemma chain_at v h p : at_height v h = Some p -> 0 <= h < zlen v /\ v !! Z.to_nat h = Some (Some p).
Proof.
  unfold at_height. destruct (_ || _) eqn:E; [done|]. apply orb_false_iff in E as [E1 E2]. rewrite Z.geb_leb in E2.
  bool_to_prop. intros H. split; [lia|]. by destruct (v !! Z.to_nat h) as [x|]; simpl in H; subst.
Qed.

(** the vector is an index of the ancestors of the blocks it holds *)
Lemma chain_ancestor s v h p h' : chain_ok s v -> at_height v h = Some p -> 0 <= h' <= h ->
  exists g, at_height v h' = Some g /\ ancestor s p h' g.
Proof.
  intros Hv [Hh Hp]%chain_at Hle. destruct (chain_up s v _ (Z.to_nat h') p Hv Hp ltac:(lia)) as [E [g Hg]].
  destruct (Hv (Z.to_nat h) ltac:(lia)) as (p' & b & Hp' & Hb & Eh & _). rewrite Hp in Hp'. injection Hp' as <-.
  exists g. split.
  - unfold at_height. rewrite Z.geb_leb, (proj2 (Z.ltb_ge _ _)), (proj2 (Z.leb_gt _ _)) by lia. simpl. by rewrite E, Hg.
  - exists b. split; [done|]. split; [lia|]. rewrite <- Hg. f_equal. lia.
Qed.

Section GetLocator.
Variables (s : store) (v : vchain) (p : ptr) (b : CBlockIndex).
Hypothesis Hs : store_ok s.
Hypothesis Hv : chain_ok s v.
Hypothesis Hp : s !! p = Some b.

(** the hash of the ancestor of [p] at a height *)
Definition hash_at (h : Z) (x : list Z) : Prop := exists g c, ancestor s p h g /\ s !! g = Some c /\ x = GetBlockHash c.

(** [hs] are the heights already listed; the steps back add up *)
Definition locator_inv (st : option ptr * Z * list (list Z)) : Prop :=
  let '(pindex, nStep, vHave) := st in
  exists q hq hs, pindex = Some q /\ ancestor s p hq q /\ Forall2 hash_at hs vHave /\
    StronglySorted Z.gt (hs ++ [hq]) /\ head (hs ++ [hq]) = Some (nHeight b) /\
    nStep = 2 ^ (Z.max 0 (zlen vHave - 10)) /\ (hq = 0 \/ nStep + hq <= nHeight b + 1) /\
    (0 < nHeight b -> zlen vHave <= 11 + Z.log2 (nHeight b)) /\ (nHeight b = 0 -> vHave = []).

Definition locator_result (r : option (list (list Z))) : Prop :=
  exists l hs, r = Some l /\ Forall2 hash_at hs l /\ StronglySorted Z.gt hs /\
    head hs = Some (nHeight b) /\ last hs = Some 0 /\ zlen l <= 12 + Z.log2 (nHeight b).

Lemma sorted_snoc hs hq h : StronglySorted Z.gt (hs ++ [hq]) -> hq > h -> StronglySorted Z.gt ((hs ++ [hq]) ++ [h]).
Proof.
  intros H Hh. apply StronglySorted_app_2; [| done | repeat constructor].
  intros x y Hx ->%list_elem_of_singleton. apply elem_of_app in Hx as [Hx| ->%list_elem_of_singleton]; [|done].
  pose proof (StronglySorted_app_1_elem_of _ _ _ x hq H Hx ltac:(by apply list_elem_of_singleton)). lia.
Qed.

Lemma head_snoc {A} (l : list A) x y : head ((l ++ [x]) ++ [y]) = head (l ++ [x]).
Proof. by destruct l. Qed.

(** how the step grows *)
Lemma step_double n : (if zlen (n : list (list Z)) + 1 >? 10 then 2 ^ (Z.max 0 (zlen n - 10)) * 2 else 2 ^ (Z.max 0 (zlen n - 10))) =
  2 ^ (Z.max 0 (zlen n + 1 - 10)).
Proof.
  rewrite Z.gtb_ltb. destruct (Z.ltb_spec 10 (zlen n + 1)).
  - rewrite !Z.max_r by lia. replace (zlen n + 1 - 10) with (Z.succ (zlen n - 10)) by lia. rewrite Z.pow_succ_r by lia. lia.
  - by rewrite !Z.max_l by lia.
Qed.

Lemma locator_step_spec st : locator_inv st ->
  match locator_step s v st with
  | inl st' => locator_inv st' /\ exists q q' c c', st.1.1 = Some q /\ st'.1.1 = Some q' /\ s !! q = Some c /\
      s !! q' = Some c' /\ nHeight c' < nHeight c
  | inr r => locator_result r
  end.
Proof.
  destruct st as [[pindex nStep] vHave]. intros (q & hq & hs & -> & Hq & Hhs & Hsort & Hhead & Hstep & Hsum & Hlen & H0).
  destruct (ancestor_node s Hs _ _ _ Hq) as (c & Hc & Ec). unfold locator_step. rewrite Hc, Ec.
  assert (Hr : 0 <= hq <= nHeight b) by (destruct Hq as (b' & Hb' & ? & _); rewrite Hp in Hb'; injection Hb' as <-; lia).
  assert (Hhs' : Forall2 hash_at (hs ++ [hq]) (vHave ++ [GetBlockHash c])).
  { apply Forall2_app; [done|]. constructor; [|constructor]. exists q, c. done. }
  destruct (Z.eqb_spec hq 0) as [->|Hne].
  - exists (vHave ++ [GetBlockHash c]), (hs ++ [0]). split; [done|]. split; [done|]. split; [done|]. split; [done|].
    split; [apply last_snoc|]. rewrite length_app. simpl.
    destruct (decide (nHeight b = 0)) as [E|E]; [rewrite (H0 E), E; simpl; lia | specialize (Hlen ltac:(lia)); lia].
  - destruct Hsum as [|Hsum]; [done|]. assert (Hpos : 0 < nStep) by (rewrite Hstep; apply Z.pow_pos_nonneg; lia).
    set (h := Z.max (hq - nStep) 0). assert (Hh : 0 <= h < hq) by lia.
    assert (Hnext : exists g, (if bool_decide (at_height v hq = Some q) then Some (at_height v h) else GetAncestor s q h) = Some (Some g) /\
      ancestor s q h g).
    { destruct (decide (at_height v hq = Some q)) as [E|E].
      - rewrite bool_decide_true by done. destruct (chain_ancestor s v hq q h Hv E ltac:(lia)) as (g & -> & Hg). eauto.
      - rewrite bool_decide_false by done. apply (GetAncestor_ancestor s Hs q c); [done|lia]. }
    destruct Hnext as (g & -> & Hg). destruct (ancestor_node s Hs _ _ _ Hg) as (d & Hd & Ed).
    split; [|exists q, g, c, d; do 4 (split; [done|]); lia].
    exists g, h, (hs ++ [hq]). split; [done|]. split; [by apply (ancestor_trans s Hs p hq q)|]. split; [done|].
    split; [apply sorted_snoc; [done|lia]|]. split; [by rewrite head_snoc|]. rewrite length_app, Nat2Z.inj_add. simpl length.
    change (Z.of_nat 1) with 1. split; [rewrite Hstep; apply step_double|].
    split; [destruct (_ >? 10); lia|]. split; [|lia]. intros Hpb.
    assert (Hlog : Z.max 0 (zlen vHave - 10) <= Z.log2 (nHeight b)) by (apply Z.log2_le_pow2; lia). lia.
Qed.

Lemma GetLocator_spec : locator_result (GetLocator s v (Some p)).
Proof.
  unfold GetLocator. rewrite Hp. cbn [mbind option_bind]. pose proof (node_height _ _ (Hs p b Hp)) as Hn.
  destruct (while_total (locator_step s v) locator_inv
    (fun st => match st.1.1 with Some q => match s !! q with Some c => Z.to_nat (nHeight c) | None => 0 end | None => 0 end)%nat
    locator_result) with (fuel := S (S (Z.to_nat (nHeight b)))) (s := (Some p, 1, @nil (list Z))) as (r & -> & Hr); [| | | | exact Hr].
  - intros st st' Hi E. pose proof (locator_step_spec st Hi) as H. rewrite E in H.
    destruct H as [Hi' (q & q' & c & c' & -> & -> & -> & Hc' & Hlt)]. split; [done|]. rewrite Hc'.
    pose proof (node_height _ _ (Hs q' c' Hc')). lia.
  - intros st r Hi E. pose proof (locator_step_spec st Hi) as H. by rewrite E in H.
  - exists p, (nHeight b), []. split; [done|]. split; [by apply ancestor_refl|]. split; [constructor|].
    split; [repeat constructor|]. split; [done|]. split; [done|]. split; [right; lia|]. split; [|done].
    simpl. pose proof (Z.log2_nonneg (nHeight b)). lia.
  - simpl. rewrite Hp. lia.
Qed.
End GetLocator.

(** ** FindEarliestAtLeast *)

(** the binary search finds the border of a predicate that is true up to some index *)
Lemma lower_bound_spec (less : option ptr -> option bool) (v : vchain) (f : nat -> bool) :
  (forall i x, v !! i = Some x -> less x = Some (f i)) ->
  (forall i j, (i <= j)%nat -> f j = true -> f i = true) ->
  forall fuel first len, (len < fuel)%nat -> (first + len <= length v)%nat ->
  (forall i, (i < first)%nat -> f i = true) -> (forall i, (first + len <= i < length v)%nat -> f i = false) ->
  exists r, lower_bound fuel less v first len = Some r /\ (r <= length v)%nat /\
    (forall i, (i < r)%nat -> f i = true) /\ (forall i, (r <= i < length v)%nat -> f i = false).
Proof.
  intros Hless Hmono. induction fuel as [|fuel IH]; intros first len Hf Hle Hlo Hhi; [lia|].
  destruct len as [|len']; [exists first; simpl; split; [done|]; split; [lia|]; split; [done|]; intros i Hi; apply Hhi; lia|].
  cbn [lower_bound]. set (n := S len') in *. set (half := (n / 2)%nat).
  assert (Hhalf : (half < n)%nat) by (apply Nat.div_lt; lia).
  destruct (lookup_lt_is_Some_2 v (first + half)) as [x Hx]; [lia|]. rewrite Hx. cbn [mbind option_bind].
  rewrite (Hless _ _ Hx). cbn [mbind option_bind]. destruct (f (first + half)%nat) eqn:E.
  - apply IH; [lia | lia | intros i Hi; apply (Hmono i (first + half)%nat); [lia|done] | intros i Hi; apply Hhi; lia].
  - apply IH; [lia | lia | done|]. intros i Hi. destruct (f i) eqn:Ei; [|done].
    rewrite (Hmono (first + half)%nat i) in E; [done | lia | done].
Qed.

(** the largest timestamp does not fall along the chain *)
Lemma chain_time_mono s v i j p b q c : store_ok s -> chain_ok s v -> (i <= j)%nat ->
  v !! i = Some (Some p) -> s !! p = Some b -> v !! j = Some (Some q) -> s !! q = Some c -> nTimeMax b <= nTimeMax c.
Proof.
  intros Hs Hv Hij Hp Hb. revert q c. induction Hij as [|j Hij IH]; intros q c Hq Hc; [replace c with b by congruence; lia|].
  destruct (Hv (S j)) as (q' & c' & Hq' & Hc' & _ & r & Er & Hr); [by eapply lookup_lt_Some|].
  rewrite Hq in Hq'. injection Hq' as <-. rewrite Hc in Hc'. injection Hc' as <-.
  pose proof (node_prev _ _ (Hs q c Hc)) as Hn. rewrite Er in Hn. destruct Hn as (d & _ & Hd & _ & _ & Et & _).
  pose proof (IH r d Hr Hd). lia.
Qed.

Lemma FindEarliestAtLeast_spec s v time : store_ok s -> chain_ok s v ->
  exists r, FindEarliestAtLeast s v time = Some r /\
  match r with
  | None => forall i p b, v !! i = Some (Some p) -> s !! p = Some b -> nTimeMax b < time
  | Some p => exists b, s !! p = Some b /\ at_height v (nHeight b) = Some p /\ time <= nTimeMax b /\
      forall i q c, v !! i = Some (Some q) -> s !! q = Some c -> time <= nTimeMax c -> nHeight b <= Z.of_nat i
  end.
Proof.
  intros Hs Hv. set (f i := match v !! i with Some (Some p) => match s !! p with Some b => nTimeMax b <? time | None => false end | _ => false end).
  assert (Hf : forall i p b, v !! i = Some (Some p) -> s !! p = Some b -> f i = (nTimeMax b <? time)) by (intros i p b Ei Eb; unfold f; by rewrite Ei, Eb).
  unfold FindEarliestAtLeast.
  destruct (lower_bound_spec (fun x => p ← x; b ← s !! p; Some (nTimeMax b <? time)) v f) with
    (fuel := S (length v)) (first := 0%nat) (len := length v) as (r & Er & Hle & Hlo & Hhi); [| | lia | lia | lia | lia |].
  - intros i x Hx. destruct (Hv i) as (p & b & Hp & Hb & _); [by eapply lookup_lt_Some|]. rewrite Hx in Hp. injection Hp as ->.
    simpl. rewrite Hb. simpl. by rewrite (Hf i p b).
  - intros i j Hij Hj. destruct (v !! j) as [x|] eqn:Ex; [|by unfold f in Hj; rewrite Ex in Hj].
    destruct (Hv j) as (q & c & Hq & Hc & _); [by eapply lookup_lt_Some|].
    destruct (Hv i) as (p & b & Hp & Hb & _); [apply lookup_lt_Some in Ex; lia|].
    rewrite (Hf i p b) by done. rewrite (Hf j q c) in Hj by done. bool_to_prop.
    pose proof (chain_time_mono s v i j p b q c Hs Hv Hij Hp Hb Hq Hc). lia.
  - rewrite Er. cbn [mbind option_bind]. destruct (decide (r < length v)%nat) as [Hr|Hr].
    + destruct (Hv r Hr) as (p & b & Hp & Hb & Eh & _). rewrite Hp. eexists. split; [done|]. simpl. exists b. split; [done|].
      split; [|split].
      * unfold at_height. rewrite Z.geb_leb, Eh, (proj2 (Z.ltb_ge _ _)), (proj2 (Z.leb_gt _ _)) by lia.
        rewrite Nat2Z.id. by simpl; rewrite Hp.
      * pose proof (Hhi r ltac:(lia)) as E. rewrite (Hf r p b) in E by done. bool_to_prop. lia.
      * intros i q c Hq Hc Ht. destruct (decide (i < r)%nat) as [Hi|]; [|lia]. apply Hlo in Hi. rewrite (Hf i q c) in Hi by done.
        bool_to_prop. lia.
    + rewrite (lookup_ge_None_2 v r) by lia. eexists. split; [done|]. simpl. intros i p b Hp Hb.
      pose proof (lookup_lt_Some _ _ _ Hp). specialize (Hlo i ltac:(lia)). rewrite (Hf i p b) in Hlo by done. bool_to_prop. lia.
Qed.

(** ** Properties *)

(** [SetTip] makes the vector the index of the new tip's ancestors, whatever
    chain it held before and although it stops at the first entry that is already
    right: the block at every height is the ancestor at that height, and a block is
    contained exactly when it is the tip or an ancestor of it. *)
Theorem SetTip_correct s v tip b :
  store_ok s -> chain_ok s v -> s !! tip = Some b ->
  exists v', SetTip s v (Some tip) = Some v' /\ chain_ok s v' /\ Tip v' = Some tip /\ Height v' = nHeight b /\
    (forall h, 0 <= h <= nHeight b -> exists g, at_height v' h = Some g /\ ancestor s tip h g) /\
    (forall p c, s !! p = Some c -> Contains s v' p = Some (bool_decide (at_height v' (nHeight c) = Some p)) /\
       (at_height v' (nHeight c) = Some p <-> ancestor s tip (nHeight c) p)).
Proof.
  intros Hs Hv Htip. destruct (SetTip_spec s v tip b Hs Hv Htip) as (v' & -> & Hv' & Hlast). exists v'.
  assert (Hne : exists n, length v' = S n /\ v' !! n = Some (Some tip)).
  { destruct (length v') as [|n] eqn:E; [by destruct v'|]. exists n. split; [done|]. by rewrite <- (last_lookup v' n E). }
  destruct Hne as (n & En & Hn). destruct (Hv' n ltac:(lia)) as (p & c & Hp & Hc & Eh & _).
  rewrite Hn in Hp. injection Hp as <-. rewrite Htip in Hc. injection Hc as <-.
  assert (Hat : at_height v' (nHeight b) = Some tip).
  { unfold at_height. rewrite Z.geb_leb, Eh, (proj2 (Z.ltb_ge _ _)), (proj2 (Z.leb_gt _ _)) by lia. rewrite Nat2Z.id. by simpl; rewrite Hn. }
  assert (Hall : forall h, 0 <= h <= nHeight b -> exists g, at_height v' h = Some g /\ ancestor s tip h g)
    by (intros h Hh; by apply (chain_ancestor s v' (nHeight b) tip h)).
  split; [done|]. split; [done|]. split; [unfold Tip; by rewrite Hlast|]. split; [unfold Height; lia|]. split; [done|].
  intros p c Hp. split; [unfold Contains; by rewrite Hp|]. pose proof (node_height _ _ (Hs p c Hp)). split.
  - intros Hpc. assert (nHeight c <= nHeight b) by (apply chain_at in Hpc as [? _]; lia).
    destruct (Hall (nHeight c) ltac:(lia)) as (g & Hg & Ha). by replace p with g by congruence.
  - intros Ha. assert (nHeight c <= nHeight b) by (destruct Ha as (b' & Hb' & ? & _); rewrite Htip in Hb'; injection Hb' as <-; lia).
    destruct (Hall (nHeight c) ltac:(lia)) as (g & Hg & Ha'). by rewrite (ancestor_fun s _ _ _ _ Ha Ha').
Qed.

(** the sample tree's store: blocks 1 to 7 in a chain, blocks 8 and 9 a branch from block 4 *)
Definition sample_store : store := index sample_tree.

Lemma sample_store_ok : store_ok sample_store.
Proof. apply tree_store. exact (reachable_ok _ sample_tree_reachable). Qed.

Definition sample_chain : vchain := [Some 1; Some 2; Some 3; Some 4; Some 5; Some 6; Some 7]%positive.

Lemma sample_chain_ok : chain_ok sample_store sample_chain.
Proof.
  intros i Hi. do 7 (destruct i as [|i]; [eexists _, _; split; [reflexivity|]; split; [vm_compute; reflexivity|]; vm_compute; eauto|]).
  simpl in Hi. lia.
Qed.

Definition sample_block (p : ptr) : CBlockIndex := default (CBlockIndex_of (sample_header 0 0)) (sample_store !! p).

Lemma SetTip_correct_witness :
  exists v', SetTip sample_store sample_chain (Some 9%positive) = Some v' /\ chain_ok sample_store v' /\ Tip v' = Some 9%positive /\
    Height v' = nHeight (sample_block 9) /\
    (forall h, 0 <= h <= nHeight (sample_block 9) -> exists g, at_height v' h = Some g /\ ancestor sample_store 9 h g) /\
    (forall p c, sample_store !! p = Some c -> Contains sample_store v' p = Some (bool_decide (at_height v' (nHeight c) = Some p)) /\
       (at_height v' (nHeight c) = Some p <-> ancestor sample_store 9 (nHeight c) p)).
Proof.
  apply (SetTip_correct sample_store sample_chain 9%positive (sample_block 9) sample_store_ok sample_chain_ok). by vm_compute.
Defined.

(** [FindFork] and [LastCommonAncestor] return the highest block both arguments
    descend from (with the chain, the highest ancestor the chain contains), and the
    null pointer exactly when there is none. *)
Theorem fork_points s v p bp q bq :
  store_ok s -> s !! p = Some bp -> s !! q = Some bq ->
  (exists r, FindFork s v (Some p) = Some r /\
   match r with
   | None => forall h g, ~ on_chain s v p h g
   | Some f => exists hf, on_chain s v p hf f /\ forall h g, on_chain s v p h g -> h <= hf
   end) /\
  (exists r, LastCommonAncestor s p q = Some r /\
   match r with
   | None => forall h g, ~ common s p q h g
   | Some f => exists hf, common s p q hf f /\ forall h g, common s p q h g -> h <= hf
   end).
Proof.
  intros Hs Hp Hq. split; [by apply (FindFork_spec s v p bp) | by apply (LastCommonAncestor_spec s p q bp bq)].
Qed.

Lemma fork_points_witness :
  (exists r, FindFork sample_store sample_chain (Some 9%positive) = Some r /\
   match r with
   | None => forall h g, ~ on_chain sample_store sample_chain 9 h g
   | Some f => exists hf, on_chain sample_store sample_chain 9 hf f /\
       forall h g, on_chain sample_store sample_chain 9 h g -> h <= hf
   end) /\
  (exists r, LastCommonAncestor sample_store 9 7 = Some r /\
   match r with
   | None => forall h g, ~ common sample_store 9 7 h g
   | Some f => exists hf, common sample_store 9 7 hf f /\ forall h g, common sample_store 9 7 h g -> h <= hf
   end).
Proof.
  apply (fork_points sample_store sample_chain 9%positive (sample_block 9) 7%positive (sample_block 7) sample_store_ok); by vm_compute.
Defined.

(** A locator lists the hashes of ancestors of the block, starting at the block,
    at strictly falling heights, and ends at the block of height 0; it has at most
    [12 + log2] of the height entries.  The answer is the same whether the ancestors
    are looked up in the chain or found by the skip list. *)
Theorem GetLocator_correct s v p b :
  store_ok s -> chain_ok s v -> s !! p = Some b ->
  exists l hs, GetLocator s v (Some p) = Some l /\
    Forall2 (hash_at s p) hs l /\ StronglySorted Z.gt hs /\ head hs = Some (nHeight b) /\ last hs = Some 0 /\
    zlen l <= 12 + Z.log2 (nHeight b).
Proof. intros Hs Hv Hp. by apply (GetLocator_spec s v p b). Qed.

Lemma GetLocator_correct_witness :
  exists l hs, GetLocator sample_store sample_chain (Some 9%positive) = Some l /\
    Forall2 (hash_at sample_store 9) hs l /\ StronglySorted Z.gt hs /\ head hs = Some (nHeight (sample_block 9)) /\
    last hs = Some 0 /\ zlen l <= 12 + Z.log2 (nHeight (sample_block 9)).
Proof.
  apply (GetLocator_correct sample_store sample_chain 9%positive (sample_block 9) sample_store_ok sample_chain_ok). by vm_compute.
Defined.

(** The binary search of [FindEarliestAtLeast] returns the lowest block of the
    chain whose largest timestamp so far reaches the time, and the null pointer
    exactly when no block does. *)
Theorem FindEarliestAtLeast_correct s v time :
  store_ok s -> chain_ok s v ->
  exists r, FindEarliestAtLeast s v time = Some r /\
  match r with
  | None => forall i p b, v !! i = Some (Some p) -> s !! p = Some b -> nTimeMax b < time
  | Some p => exists b, s !! p = Some b /\ at_height v (nHeight b) = Some p /\ time <= nTimeMax b /\
      forall i q c, v !! i = Some (Some q) -> s !! q = Some c -> time <= nTimeMax c -> nHeight b <= Z.of_nat i
  end.
Proof. apply FindEarliestAtLeast_spec. Qed.

Lemma FindEarliestAtLeast_correct_witness :
  exists r, FindEarliestAtLeast sample_store sample_chain 1600000100 = Some r /\
  match r with
  | None => forall i p b, sample_chain !! i = Some (Some p) -> sample_store !! p = Some b -> nTimeMax b < 1600000100
  | Some p => exists b, sample_store !! p = Some b /\ at_height sample_chain (nHeight b) = Some p /\ 1600000100 <= nTimeMax b /\
      forall i q c, sample_chain !! i = Some (Some q) -> sample_store !! q = Some c -> 1600000100 <= nTimeMax c -> nHeight b <= Z.of_nat i
  end.
Proof. apply (FindEarliestAtLeast_correct sample_store sample_chain 1600000100 sample_store_ok sample_chain_ok). Defined.
