(* ===== verification/LockTime.v ===== *)
(** * Median time and lock times (chain.h [GetMedianTimePast]; consensus/tx_verify.cpp
    [IsFinalTx], [CalculateSequenceLocks], [EvaluateSequenceLocks])

    The theorems tie the lock-time opcodes of the interpreter to the consensus rules
    on the transaction: a script that passes them can only be spent in a block that
    is late enough. *)

From stdpp Require Import sorting.
From S2P Require Import Chain ActiveChain.
From S2P Require Import Prelude Opcodes ScriptNum Script Interpreter Transaction Sighash.
#[local] Open Scope Z_scope.

(** ** Median time past *)

Definition nMedianTimeSpan : nat := 11.

(** the times of the last [n] blocks, the newest at the end; [None] for a dangling pointer *)
Fixpoint past_times (s : store) (n : nat) (pindex : option ptr) : option (list Z) :=
  match n, pindex with
  | S n, Some p =>
      b ← s !! p;
      l ← past_times s n (pprev b);
      Some (l ++ [nTime b])
  | _, _ => Some []
  end.

(** [GetMedianTimePast()] *)
Definition GetMedianTimePast (s : store) (p : ptr) : option Z :=
  l ← past_times s nMedianTimeSpan (Some p);
  merge_sort Z.le l !! (length l / 2)%nat.

(** the two timestamp rules of [ContextualCheckBlockHeader] *)
Definition MAX_FUTURE_BLOCK_TIME : Z := 15 * 60.
Definition CheckBlockTime (s : store) (pindexPrev : ptr) (time nAdjustedTime : Z) : option bool :=
  m ← GetMedianTimePast s pindexPrev;
  Some (negb (time <=? m) && negb (time >? nAdjustedTime + MAX_FUTURE_BLOCK_TIME)).

(** ** Lock times *)

Definition LOCKTIME_VERIFY_SEQUENCE : Z := Z.shiftl 1 0.
Definition SEQUENCE_LOCKTIME_GRANULARITY : Z := 9.

(** [IsFinalTx(tx, nBlockHeight, nBlockTime)] *)
Definition IsFinalTx (tx : CTransaction) (nBlockHeight nBlockTime : Z) : bool :=
  if nLockTime tx =? 0 then true
  else if nLockTime tx <? (if nLockTime tx <? LOCKTIME_THRESHOLD then nBlockHeight else nBlockTime) then true
  else forallb (fun txin => nSequence txin =? SEQUENCE_FINAL) (vin tx).

(** the loop of [CalculateSequenceLocks]: inputs with their coin heights, and the
    heights it leaves in [prevHeights] *)
Fixpoint sequence_locks (s : store) (block : ptr) (ins : list (CTxIn * Z)) (nMinHeight nMinTime : Z) :
    option (Z * Z * list Z) :=
  match ins with
  | [] => Some (nMinHeight, nMinTime, [])
  | (txin, nCoinHeight) :: ins =>
      if has (nSequence txin) SEQUENCE_LOCKTIME_DISABLE_FLAG then
        r ← sequence_locks s block ins nMinHeight nMinTime;
        let '(h, t, heights) := (r : Z * Z * list Z) in Some (h, t, 0 :: heights)
      else if has (nSequence txin) SEQUENCE_LOCKTIME_TYPE_FLAG then
        p ← GetAncestor s block (Z.max (nCoinHeight - 1) 0);
        p ← (p : option ptr);
        nCoinTime ← GetMedianTimePast s p;
        let lock := Z.shiftl (Z.land (nSequence txin) SEQUENCE_LOCKTIME_MASK) SEQUENCE_LOCKTIME_GRANULARITY in
        r ← sequence_locks s block ins nMinHeight (Z.max nMinTime (nCoinTime + lock - 1));
        let '(h, t, heights) := (r : Z * Z * list Z) in Some (h, t, nCoinHeight :: heights)
      else
        let lock := Z.land (nSequence txin) SEQUENCE_LOCKTIME_MASK in
        r ← sequence_locks s block ins (Z.max nMinHeight (nCoinHeight + lock - 1)) nMinTime;
        let '(h, t, heights) := (r : Z * Z * list Z) in Some (h, t, nCoinHeight :: heights)
  end.

(** [CalculateSequenceLocks(tx, flags, prevHeights, block)]; [None] when the assertion
    on the sizes fails or an ancestor is missing *)
Definition CalculateSequenceLocks (s : store) (tx : CTransaction) (flags : Z) (prevHeights : list Z) (block : ptr) :
    option (Z * Z * list Z) :=
  if negb (zlen prevHeights =? zlen (vin tx)) then None
  else if negb ((u32 (nVersion tx) >=? 2) && has flags LOCKTIME_VERIFY_SEQUENCE) then Some (-1, -1, prevHeights)
  else sequence_locks s block (zip (vin tx) prevHeights) (-1) (-1).

(** [EvaluateSequenceLocks(block, lockPair)] *)
Definition EvaluateSequenceLocks (s : store) (block : ptr) (minHeight minTime : Z) : option bool :=
  b ← s !! block;
  prev ← pprev b;
  nBlockTime ← GetMedianTimePast s prev;
  Some (negb ((minHeight >=? nHeight b) || (minTime >=? nBlockTime))).

(** [SequenceLocks(tx, flags, prevHeights, block)] *)
Definition SequenceLocks (s : store) (tx : CTransaction) (flags : Z) (prevHeights : list Z) (block : ptr) : option bool :=
  r ← CalculateSequenceLocks s tx flags prevHeights block;
  let '(h, t, _) := (r : Z * Z * list Z) in EvaluateSequenceLocks s block h t.

(** ** The median does not fall *)

Definition below (m : Z) (l : list Z) : nat := length (filter (fun x => x < m) l).

Lemma below_app m l k : below m (l ++ k) = (below m l + below m k)%nat.
Proof. unfold below. by rewrite filter_app, length_app. Qed.

Lemma below_perm m l k : l ≡ₚ k -> below m l = below m k.
Proof. intros H. unfold below. by rewrite H. Qed.

Lemma below_none m l : Forall (fun x => m <= x) l -> below m l = 0%nat.
Proof. intros H. unfold below. induction H as [|x l Hx H IH]; [done|]. rewrite filter_cons_False by lia. done. Qed.

Lemma below_all m l : Forall (fun x => x < m) l -> below m l = length l.
Proof. intros H. unfold below. induction H as [|x l Hx H IH]; [done|]. rewrite filter_cons_True by lia. simpl. by rewrite IH. Qed.

(** in a sorted list, the elements below the one at index [k] *)
Lemma sorted_below l k m : StronglySorted Z.le l -> l !! k = Some m -> (below m l <= k)%nat.
Proof.
  intros Hs Hk. rewrite <- (take_drop_middle l k m Hk) in Hs |- *. rewrite below_app.
  assert (below m (m :: drop (S k) l) = 0)%nat as ->.
  { apply below_none. apply StronglySorted_app in Hs as (_ & _ & Hs). inversion Hs; subst. by constructor; [lia|]. }
  pose proof (length_filter (fun x => x < m) (take k l)). unfold below. rewrite length_take in H. lia.
Qed.

Lemma sorted_below_ge l k x m : StronglySorted Z.le l -> l !! k = Some x -> x < m -> (k < below m l)%nat.
Proof.
  intros Hs Hk Hx. pose proof (lookup_lt_Some _ _ _ Hk) as Hlt.
  rewrite <- (take_drop_middle l k x Hk) in Hs |- *. change (x :: drop (S k) l) with ([x] ++ drop (S k) l) in *.
  rewrite app_assoc, below_app. rewrite (below_all m (take k l ++ [x])).
  - rewrite length_app, length_take. simpl. lia.
  - apply Forall_app. split; [|by repeat constructor]. apply Forall_forall. intros y Hy.
    apply StronglySorted_app in Hs as (Hs & _). specialize (Hs y x Hy ltac:(by apply elem_of_app; left; apply list_elem_of_singleton)). lia.
Qed.

(** the median of a list: what the sort and the index give *)
Definition median (l : list Z) : option Z := merge_sort Z.le l !! (length l / 2)%nat.

Lemma median_Some l : l <> [] -> is_Some (median l).
Proof.
  intros Hl. apply lookup_lt_is_Some_2. rewrite (Permutation_length (merge_sort_Permutation Z.le l)).
  destruct l as [|x l]; [done|]. apply Nat.div_lt; simpl; lia.
Qed.

(** a window that loses some old entries and gains one that is not smaller than the median *)
Lemma median_slide old l x m m' : (length old <= 1)%nat -> median (old ++ l) = Some m -> m <= x ->
  median (l ++ [x]) = Some m' -> m <= m'.
Proof.
  intros Hold Hm Hx Hm'. destruct (decide (m' < m)) as [Hlt|]; [|lia]. exfalso. unfold median in Hm, Hm'.
  apply sorted_below in Hm; [|apply (StronglySorted_merge_sort Z.le)].
  apply (sorted_below_ge _ _ _ m) in Hm'; [|apply (StronglySorted_merge_sort Z.le) | done].
  rewrite (below_perm m _ _ (merge_sort_Permutation Z.le (old ++ l))) in Hm.
  rewrite (below_perm m _ _ (merge_sort_Permutation Z.le (l ++ [x]))) in Hm'.
  rewrite below_app in Hm, Hm'. rewrite (below_none m [x]) in Hm' by (repeat constructor; done).
  assert (length (old ++ l) / 2 <= length (l ++ [x]) / 2)%nat by (apply Nat.Div0.div_le_mono; rewrite !length_app; simpl; lia).
  lia.
Qed.

Section MedianTime.
Variable s : store.
Hypothesis Hs : store_ok s.

Lemma past_times_Some n pindex : (forall p, pindex = Some p -> is_Some (s !! p)) -> is_Some (past_times s n pindex).
Proof.
  revert pindex. induction n as [|n IH]; intros [p|] Hp; [simpl; eauto..| |simpl; eauto]. simpl.
  destruct (Hp p eq_refl) as [b Hb]. rewrite Hb. simpl. destruct (IH (pprev b)) as [l El].
  { intros q Hq. pose proof (node_prev _ _ (Hs p b Hb)) as H. rewrite Hq in H. destruct H as (c & _ & Hc & _). eauto. }
  rewrite El. simpl. eauto.
Qed.

(** one more turn adds at most one older time *)
Lemma past_times_S n pindex l : past_times s (S n) pindex = Some l ->
  exists old k, past_times s n pindex = Some k /\ l = old ++ k /\ (length old <= 1)%nat.
Proof.
  revert pindex l. induction n as [|n IH]; intros [p|] l H.
  - simpl in H. destruct (s !! p) as [b|]; [|done]. simpl in H. exists [nTime b], [].
    destruct (pprev b); injection H as <-; simpl; auto.
  - injection H as <-. exists [], []. simpl. auto.
  - change (past_times s (S (S n)) (Some p)) with (b ← s !! p; l ← past_times s (S n) (pprev b); Some (l ++ [nTime b])) in H.
    change (past_times s (S n) (Some p)) with (b ← s !! p; l ← past_times s n (pprev b); Some (l ++ [nTime b])).
    destruct (s !! p) as [b|]; [|done]. cbn [mbind option_bind] in *. destruct (past_times s (S n) (pprev b)) as [l'|] eqn:E; [|done].
    cbn [mbind option_bind] in H. injection H as <-. destruct (IH _ _ E) as (old & k & -> & -> & Hold). cbn [mbind option_bind].
    exists old, (k ++ [nTime b]). split; [done|]. split; [by rewrite app_assoc | done].
  - injection H as <-. exists [], []. simpl. auto.
Qed.

Lemma GetMedianTimePast_Some p b : s !! p = Some b -> is_Some (GetMedianTimePast s p).
Proof.
  intros Hp. unfold GetMedianTimePast. destruct (past_times_Some nMedianTimeSpan (Some p)) as [l El].
  { intros q [= <-]. eauto. }
  rewrite El. cbn [mbind option_bind]. apply median_Some. intros ->.
  change (past_times s nMedianTimeSpan (Some p)) with (b ← s !! p; l ← past_times s 10 (pprev b); Some (l ++ [nTime b])) in El.
  rewrite Hp in El. cbn [mbind option_bind] in El. destruct (past_times s 10 (pprev b)) as [k|]; [|done].
  injection El as El. by destruct k.
Qed.

Lemma GetMedianTimePast_step p b q m m' : s !! p = Some b -> pprev b = Some q ->
  GetMedianTimePast s q = Some m -> m <= nTime b -> GetMedianTimePast s p = Some m' -> m <= m'.
Proof.
  intros Hp Hq Hm Ht Hm'. unfold GetMedianTimePast in Hm, Hm'.
  destruct (past_times s nMedianTimeSpan (Some q)) as [l|] eqn:E; [|done]. cbn [mbind option_bind] in Hm.
  destruct (past_times_S 10 (Some q) l E) as (old & k & Ek & -> & Hold).
  change (past_times s nMedianTimeSpan (Some p)) with (b ← s !! p; l ← past_times s 10 (pprev b); Some (l ++ [nTime b])) in Hm'.
  rewrite Hp in Hm'. cbn [mbind option_bind] in Hm'. rewrite Hq, Ek in Hm'. cbn [mbind option_bind] in Hm'.
  by apply (median_slide old k (nTime b) m m').
Qed.
End MedianTime.

(** every block with a parent passed the timestamp rules when it came in *)
Definition times_checked (s : store) : Prop :=
  forall p b q, s !! p = Some b -> pprev b = Some q -> exists now, CheckBlockTime s q (nTime b) now = Some true.

Lemma times_checked_step s p b q m : times_checked s -> s !! p = Some b -> pprev b = Some q ->
  GetMedianTimePast s q = Some m -> m < nTime b.
Proof.
  intros Hc Hp Hq Hm. destruct (Hc p b q Hp Hq) as [now E]. unfold CheckBlockTime in E. rewrite Hm in E.
  cbn [mbind option_bind] in E. injection E as E. apply andb_true_iff in E as [E _]. bool_to_prop. lia.
Qed.

Definition times_checkedb (s : store) : bool :=
  forallb (fun '(_, b) => match pprev b with
    | None => true
    | Some q => match CheckBlockTime s q (nTime b) (nTime b) with Some c => c | None => false end
    end) (map_to_list s).

Lemma times_checkedb_sound s : times_checkedb s = true -> times_checked s.
Proof.
  intros H p b q Hp Hq. unfold times_checkedb in H. rewrite forallb_forall in H.
  apply elem_of_map_to_list, list_elem_of_In, H in Hp. rewrite Hq in Hp. exists (nTime b).
  destruct (CheckBlockTime s q (nTime b) (nTime b)) as [[]|]; done.
Qed.

(** ** The rules of the interpreter and of the transaction *)

Lemma bind_Ok_inv {A B} (r : result A) (k : A -> result B) b : r ≫= k = Ok b -> exists a, r = Ok a /\ k a = Ok b.
Proof. destruct r; try done. simpl. eauto. Qed.

Lemma fail_if_inv c e x : fail_if c e = Ok x -> c = false.
Proof. unfold fail_if. by destruct c. Qed.

(** what a lock-time opcode has checked when it passes *)
Lemma exec_cltv_inv {checker : BaseSignatureChecker} flags top s s' :
  has flags SCRIPT_VERIFY_CHECKLOCKTIMEVERIFY = true -> exec_cltv flags (top :: s) = Ok s' ->
  s' = top :: s /\ exists lock, num_of flags top 5 = Ok lock /\ 0 <= lock /\ CheckLockTime lock = true.
Proof.
  unfold exec_cltv. intros ->. cbn [negb]. intros (lock & E & H)%bind_Ok_inv. apply bind_Ok_inv in H as (u & E1 & H).
  apply bind_Ok_inv in H as (u' & E2 & H). injection H as <-. apply fail_if_inv in E1, E2. split; [done|].
  exists lock. apply Z.ltb_ge in E1. apply negb_false_iff in E2. done.
Qed.

Lemma exec_csv_inv {checker : BaseSignatureChecker} flags top s s' :
  has flags SCRIPT_VERIFY_CHECKSEQUENCEVERIFY = true -> exec_csv flags (top :: s) = Ok s' ->
  s' = top :: s /\ exists k, num_of flags top 5 = Ok k /\ 0 <= k /\
    (has k SEQUENCE_LOCKTIME_DISABLE_FLAG = true \/ CheckSequence k = true).
Proof.
  unfold exec_csv. intros ->. cbn [negb]. intros (k & E & H)%bind_Ok_inv. apply bind_Ok_inv in H as (u & E1 & H).
  apply fail_if_inv in E1. fold (has k SEQUENCE_LOCKTIME_DISABLE_FLAG) in H.
  destruct (has k SEQUENCE_LOCKTIME_DISABLE_FLAG) eqn:Ed.
  - injection H as <-. split; [done|]. exists k. apply Z.ltb_ge in E1. auto.
  - apply bind_Ok_inv in H as (u' & E2 & H). injection H as <-. apply fail_if_inv, negb_false_iff in E2.
    split; [done|]. exists k. apply Z.ltb_ge in E1. auto.
Qed.

(** the mask that keeps the type bit and the value *)
Lemma land_locktime_mask x :
  Z.land x (Z.lor SEQUENCE_LOCKTIME_TYPE_FLAG SEQUENCE_LOCKTIME_MASK) =
    Z.land x SEQUENCE_LOCKTIME_TYPE_FLAG + Z.land x SEQUENCE_LOCKTIME_MASK /\
  (Z.land x SEQUENCE_LOCKTIME_TYPE_FLAG = 0 \/ Z.land x SEQUENCE_LOCKTIME_TYPE_FLAG = 2 ^ 22) /\
  0 <= Z.land x SEQUENCE_LOCKTIME_MASK <= 0xffff.
Proof.
  unfold SEQUENCE_LOCKTIME_TYPE_FLAG, SEQUENCE_LOCKTIME_MASK. change (Z.shiftl 1 22) with (2 ^ 22).
  assert (Ht : Z.land x (2 ^ 22) = 0 \/ Z.land x (2 ^ 22) = 2 ^ 22).
  { destruct (Z.testbit x 22) eqn:E; [right|left]; apply Z.bits_inj'; intros j Hj; rewrite Z.land_spec, ?Z.bits_0, ?Z.pow2_bits_eqb by lia;
      destruct (Z.eqb_spec 22 j) as [<-|]; by rewrite ?E, ?andb_false_r. }
  split; [|split; [done|]].
  - rewrite Z.land_lor_distr_r. rewrite <- Z.lxor_lor, <- Z.add_nocarry_lxor; [done|..];
      rewrite <- Z.land_assoc, (Z.land_assoc (2 ^ 22)), (Z.land_comm (2 ^ 22) x), <- (Z.land_assoc x);
      change (Z.land (2 ^ 22) 65535) with 0; by rewrite !Z.land_0_r.
  - change 65535 with (2 ^ 16 - 1). rewrite land_mask by lia. pose proof (Z.mod_pos_bound x (2 ^ 16) ltac:(lia)). lia.
Qed.

(** the locks of the loop bound those of each input *)
Lemma sequence_locks_bound s block ins nMinHeight nMinTime h t heights :
  sequence_locks s block ins nMinHeight nMinTime = Some (h, t, heights) ->
  nMinHeight <= h /\ nMinTime <= t /\
  forall i txin nCoinHeight, ins !! i = Some (txin, nCoinHeight) ->
    has (nSequence txin) SEQUENCE_LOCKTIME_DISABLE_FLAG = false ->
    let v := Z.land (nSequence txin) SEQUENCE_LOCKTIME_MASK in
    if has (nSequence txin) SEQUENCE_LOCKTIME_TYPE_FLAG then
      exists p coinTime, GetAncestor s block (Z.max (nCoinHeight - 1) 0) = Some (Some p) /\
        GetMedianTimePast s p = Some coinTime /\ coinTime + v * 512 - 1 <= t
    else nCoinHeight + v - 1 <= h.
Proof.
  revert nMinHeight nMinTime h t heights. induction ins as [|[txin ch] ins IH]; intros mh mt h t heights E.
  { injection E as <- <- <-. split; [lia|]. split; [lia|]. intros i ? ? H. by rewrite lookup_nil in H. }
  cbn [sequence_locks] in E. destruct (has (nSequence txin) SEQUENCE_LOCKTIME_DISABLE_FLAG) eqn:Ed.
  - destruct (sequence_locks s block ins mh mt) as [[[h' t'] hs]|] eqn:E'; [|done]. injection E as <- <- <-.
    destruct (IH _ _ _ _ _ E') as (H1 & H2 & H3). split; [done|]. split; [done|].
    intros [|i] x c Hx Hd; [injection Hx as <- <-; congruence | by apply (H3 i)].
  - destruct (has (nSequence txin) SEQUENCE_LOCKTIME_TYPE_FLAG) eqn:Et.
    + destruct (GetAncestor s block _) as [[p|]|] eqn:Ep; [|done..]. cbn [mbind option_bind] in E.
      destruct (GetMedianTimePast s p) as [ct|] eqn:Em; [|done]. cbn [mbind option_bind] in E. cbv zeta in E.
      match type of E with context [sequence_locks s block ins mh ?x] => set (mt' := x) in * end.
      destruct (sequence_locks s block ins mh mt') as [[[h' t'] hs]|] eqn:E'; [|done]. injection E as <- <- <-.
      destruct (IH _ _ _ _ _ E') as (H1 & H2 & H3). unfold mt' in H2. rewrite Z.shiftl_mul_pow2 in H2 by (unfold SEQUENCE_LOCKTIME_GRANULARITY; lia).
      change (2 ^ SEQUENCE_LOCKTIME_GRANULARITY) with 512 in H2. split; [done|]. split; [lia|].
      intros [|i] x c Hx Hd; [|by apply (H3 i)]. injection Hx as <- <-. cbv zeta. rewrite Et. exists p, ct. split; [done|]. split; [done|lia].
    + cbv zeta in E. match type of E with context [sequence_locks s block ins ?x mt] => set (mh' := x) in * end.
      destruct (sequence_locks s block ins mh' mt) as [[[h' t'] hs]|] eqn:E'; [|done]. injection E as <- <- <-.
      destruct (IH _ _ _ _ _ E') as (H1 & H2 & H3). unfold mh' in H1. split; [lia|]. split; [done|].
      intros [|i] x c Hx Hd; [|by apply (H3 i)]. injection Hx as <- <-. cbv zeta. rewrite Et. lia.
Qed.

(** what [CheckSequence] has compared when it passes *)
Lemma CheckSequence_inv tx n k : TransactionCheckSequence tx n k = true ->
  exists txin, vin tx !! Z.to_nat n = Some txin /\ 2 <= u32 (nVersion tx) /\
    has (nSequence txin) SEQUENCE_LOCKTIME_DISABLE_FLAG = false /\
    has (nSequence txin) SEQUENCE_LOCKTIME_TYPE_FLAG = has k SEQUENCE_LOCKTIME_TYPE_FLAG /\
    Z.land k SEQUENCE_LOCKTIME_MASK <= Z.land (nSequence txin) SEQUENCE_LOCKTIME_MASK.
Proof.
  unfold TransactionCheckSequence. destruct (vin tx !! Z.to_nat n) as [txin|]; [|done].
  destruct (Z.ltb_spec (u32 (nVersion tx)) 2); [done|]. destruct (has (nSequence txin) _) eqn:Ed; [done|]. cbv zeta.
  destruct (land_locktime_mask (nSequence txin)) as (Ea & Ta & Va). destruct (land_locktime_mask k) as (Eb & Tb & Vb).
  rewrite Ea, Eb. destruct (negb (_ || _)) eqn:Ek; [done|]. intros E. apply negb_false_iff, orb_true_iff in Ek.
  rewrite Z.gtb_ltb in E. apply negb_true_iff, Z.ltb_ge in E. exists txin. split; [done|]. split; [done|]. split; [done|].
  unfold has. change SEQUENCE_LOCKTIME_TYPE_FLAG with (2 ^ 22) in *.
  destruct Ek as [[E1 E2]%andb_true_iff|[E1 E2]%andb_true_iff]; rewrite ?Z.geb_leb in *; bool_to_prop;
    destruct Ta as [Ta|Ta], Tb as [Tb|Tb]; rewrite Ta, Tb in *; lia || (split; [done|lia]).
Qed.

(** when every block passed the timestamp rules, the median time past does not fall
    on the way to a block from its [k]-th ancestor *)
Lemma median_time_up s p b k g : store_ok s -> times_checked s -> s !! p = Some b -> up s p k = Some g ->
  exists m m', GetMedianTimePast s g = Some m /\ GetMedianTimePast s p = Some m' /\ m <= m'.
Proof.
  intros Hs Hc. revert p b. induction k as [|k IH]; intros p b Hp Hu; destruct (GetMedianTimePast_Some s Hs p b Hp) as [m' Em'].
  - injection Hu as <-. exists m', m'. split; [done|]. split; [done|lia].
  - simpl in Hu. rewrite Hp in Hu. simpl in Hu. destruct (pprev b) as [q|] eqn:Eq; [|done]. simpl in Hu.
    pose proof (node_prev _ _ (Hs p b Hp)) as Hn. rewrite Eq in Hn. destruct Hn as (c & _ & Hq & _).
    destruct (IH q c Hq Hu) as (m & mq & Hm & Hmq & Hle). exists m, m'. split; [done|]. split; [done|].
    pose proof (times_checked_step s p b q mq Hc Hp Eq Hmq).
    pose proof (GetMedianTimePast_step s p b q mq m' Hp Eq Hmq ltac:(lia) Em'). lia.
Qed.

(** ** Properties *)

(** When every block passed the timestamp rules, the median time past never
    falls from a block to its descendants. *)
Theorem median_time_monotone s p h g :
  store_ok s -> times_checked s -> ancestor s p h g ->
  exists m m', GetMedianTimePast s g = Some m /\ GetMedianTimePast s p = Some m' /\ m <= m'.
Proof. intros Hs Hc (b & Hp & Hh & Hu). by apply (median_time_up s p b (Z.to_nat (nHeight b - h)) g). Qed.

Lemma median_time_monotone_witness :
  exists m m', GetMedianTimePast sample_store 3 = Some m /\ GetMedianTimePast sample_store 9 = Some m' /\ m <= m'.
Proof.
  apply (median_time_monotone sample_store 9%positive 2 3%positive sample_store_ok).
  - apply times_checkedb_sound. vm_compute. reflexivity.
  - exists (sample_block 9). split; [by vm_compute|]. vm_compute. split; [split; discriminate | reflexivity].
Defined.

(** C37: an output whose script passes [OP_CHECKLOCKTIMEVERIFY] is spent only in a
    block after the lock: with the transaction final for the block, the number the
    opcode read is below the block's height, or below its time when it is a time. *)
Theorem cltv_enforces_lock (hashes : ScriptHashes) (verify : PubKeyVerify) flags tx n amount txdata top s s' height time :
  has flags SCRIPT_VERIFY_CHECKLOCKTIMEVERIFY = true -> 0 < height -> 0 < time ->
  exec_cltv (checker := TransactionSignatureChecker tx n amount txdata) flags (top :: s) = Ok s' ->
  IsFinalTx tx height time = true ->
  s' = top :: s /\ exists lock, num_of flags top 5 = Ok lock /\ 0 <= lock /\
    if lock <? LOCKTIME_THRESHOLD then lock < height else lock < time.
Proof.
  intros Hf Hh Ht E Hfin. apply exec_cltv_inv in E as (-> & lock & En & Hl & Hc); [|done]. split; [done|].
  exists lock. split; [done|]. split; [done|]. cbn [CheckLockTime TransactionSignatureChecker] in Hc.
  unfold TransactionCheckLockTime in Hc. destruct (negb _) eqn:Ek; [done|]. apply negb_false_iff, orb_true_iff in Ek.
  rewrite Z.gtb_ltb in Hc. destruct (Z.ltb_spec (nLockTime tx) lock); [done|].
  destruct (vin tx !! Z.to_nat n) as [txin|] eqn:Ein; [|done]. apply negb_true_iff, Z.eqb_neq in Hc.
  unfold IsFinalTx in Hfin. destruct (Z.eqb_spec (nLockTime tx) 0) as [E0|E0].
  { replace lock with 0 by lia. simpl. lia. }
  assert (Hnf : forallb (fun txin => nSequence txin =? SEQUENCE_FINAL) (vin tx) = false).
  { apply not_true_iff_false. rewrite forallb_forall. intros Hall. apply list_elem_of_lookup_2, list_elem_of_In, Hall in Ein.
    bool_to_prop. congruence. }
  rewrite Hnf in Hfin. destruct Ek as [[E1 E2]%andb_true_iff|[E1 E2]%andb_true_iff]; rewrite ?Z.geb_leb in *.
  - rewrite E1 in Hfin. rewrite E2. destruct (Z.ltb_spec (nLockTime tx) height); [lia|done].
  - apply Z.leb_le in E1, E2. rewrite (proj2 (Z.ltb_ge (nLockTime tx) LOCKTIME_THRESHOLD)) in Hfin by lia. rewrite (proj2 (Z.ltb_ge lock LOCKTIME_THRESHOLD)) by lia.
    destruct (Z.ltb_spec (nLockTime tx) time); [lia|done].
Qed.

Lemma cltv_enforces_lock_witness :
  [[10]] = [[10]] /\ exists lock, num_of SCRIPT_VERIFY_CHECKLOCKTIMEVERIFY [10] 5 = Ok lock /\ 0 <= lock /\
    if lock <? LOCKTIME_THRESHOLD then lock < 20 else lock < 1600000000.
Proof.
  apply (cltv_enforces_lock sample_hashes sample_verify SCRIPT_VERIFY_CHECKLOCKTIMEVERIFY sample_tx 0 5 None [10] [] [[10]] 20 1600000000);
    lia || (vm_compute; reflexivity).
Defined.

(** An output whose script passes [OP_CHECKSEQUENCEVERIFY] is spent only when it
    is old enough: with the transaction's sequence locks met in the block, the coin
    is at least the number of blocks the opcode read below it, or the block's median
    time at least that many units of 512 seconds after the coin's. *)
Theorem csv_enforces_age (hashes : ScriptHashes) (verify : PubKeyVerify) flags tx n amount txdata top s s'
    st prevHeights block nCoinHeight :
  has flags SCRIPT_VERIFY_CHECKSEQUENCEVERIFY = true ->
  exec_csv (checker := TransactionSignatureChecker tx n amount txdata) flags (top :: s) = Ok s' ->
  SequenceLocks st tx LOCKTIME_VERIFY_SEQUENCE prevHeights block = Some true -> prevHeights !! Z.to_nat n = Some nCoinHeight ->
  s' = top :: s /\ exists k, num_of flags top 5 = Ok k /\ 0 <= k /\
    (has k SEQUENCE_LOCKTIME_DISABLE_FLAG = true \/
     exists b, st !! block = Some b /\
       let v := Z.land k SEQUENCE_LOCKTIME_MASK in
       if has k SEQUENCE_LOCKTIME_TYPE_FLAG then
         exists p q coinTime blockTime, GetAncestor st block (Z.max (nCoinHeight - 1) 0) = Some (Some p) /\
           GetMedianTimePast st p = Some coinTime /\ pprev b = Some q /\ GetMedianTimePast st q = Some blockTime /\
           coinTime + v * 512 <= blockTime
       else nCoinHeight + v <= nHeight b).
Proof.
  intros Hf E Hlocks Hcoin. apply exec_csv_inv in E as (-> & k & En & Hk & Hc); [|done]. split; [done|].
  exists k. split; [done|]. split; [done|]. destruct Hc as [Hc|Hc]; [by left|right].
  apply CheckSequence_inv in Hc as (txin & Hin & Hv & Hd & Ht & Hle).
  unfold SequenceLocks in Hlocks. destruct (CalculateSequenceLocks _ _ _ _ _) as [[[h t] hs]|] eqn:Ecalc; [|done].
  cbn [mbind option_bind] in Hlocks. unfold EvaluateSequenceLocks in Hlocks.
  destruct (st !! block) as [b|] eqn:Eb; [|done]. cbn [mbind option_bind] in Hlocks.
  destruct (pprev b) as [q|] eqn:Eq; [|done]. cbn [mbind option_bind] in Hlocks.
  destruct (GetMedianTimePast st q) as [bt|] eqn:Ebt; [|done]. cbn [mbind option_bind] in Hlocks. injection Hlocks as Hlocks.
  apply negb_true_iff, orb_false_iff in Hlocks as [H1 H2]. rewrite Z.geb_leb in H1, H2. apply Z.leb_gt in H1, H2.
  unfold CalculateSequenceLocks in Ecalc. destruct (negb (zlen prevHeights =? _)); [done|].
  rewrite Z.geb_leb, (proj2 (Z.leb_le _ _) Hv) in Ecalc. cbn in Ecalc.
  destruct (sequence_locks_bound _ _ _ _ _ _ _ _ Ecalc) as (_ & _ & Hb).
  specialize (Hb (Z.to_nat n) txin nCoinHeight). rewrite lookup_zip_with, Hin, Hcoin in Hb. specialize (Hb eq_refl Hd).
  cbv zeta in Hb. rewrite Ht in Hb. exists b. split; [done|]. cbv zeta. destruct (has k SEQUENCE_LOCKTIME_TYPE_FLAG).
  - destruct Hb as (p & ct & Hp & Hm & Hb). exists p, q, ct, bt. do 4 (split; [done|]). lia.
  - lia.
Qed.

Definition aged_tx : CTransaction :=
  MkCTransaction 2 0 [MkCTxIn (MkCOutPoint (replicate 32 7) 1) [] 3 []] [MkCTxOut 5000 [0x51] (-10)] 0 [].

Lemma csv_enforces_age_witness :
  [[3]] = [[3]] /\ exists k, num_of SCRIPT_VERIFY_CHECKSEQUENCEVERIFY [3] 5 = Ok k /\ 0 <= k /\
    (has k SEQUENCE_LOCKTIME_DISABLE_FLAG = true \/
     exists b, sample_store !! 7%positive = Some b /\
       let v := Z.land k SEQUENCE_LOCKTIME_MASK in
       if has k SEQUENCE_LOCKTIME_TYPE_FLAG then
         exists p q coinTime blockTime, GetAncestor sample_store 7 (Z.max (2 - 1) 0) = Some (Some p) /\
           GetMedianTimePast sample_store p = Some coinTime /\ pprev b = Some q /\
           GetMedianTimePast sample_store q = Some blockTime /\ coinTime + v * 512 <= blockTime
       else 2 + v <= nHeight b).
Proof.
  apply (csv_enforces_age sample_hashes sample_verify SCRIPT_VERIFY_CHECKSEQUENCEVERIFY aged_tx 0 5 None [3] [] [[3]]
    sample_store [2] 7%positive 2); vm_compute; reflexivity.
Defined.
