(* ===== verification/Pow.v ===== *)
(** * Difficulty adjustment (pow.cpp)

    The targets are 256-bit integers of ArithUint.v, with their wrap-around; the
    block index is the store of Chain.v.  [None] is a failed assertion, a null
    pointer or a division by zero. *)

From S2P Require Import Chain.
From S2P Require Import Prelude ArithUint Compact.
#[local] Open Scope Z_scope.

(** ** The parameters of consensus/params.h the functions read *)

Record Params := MkParams {
  powLimit : list Z;
  fPowAllowMinDifficultyBlocks : bool;
  fPowNoRetargeting : bool;
  nPowTargetSpacing : Z;
  nPowTargetTimespan : Z;
  nPowDGWHeight : Z;
  nMinimumDifficultyBlocks : Z;
}.

Definition DifficultyAdjustmentInterval (params : Params) : Z :=
  Z.quot (nPowTargetTimespan params) (nPowTargetSpacing params).

Definition bnPowLimit (params : Params) : arith_uint256 := Uint.UintToArith256 8 (powLimit params).

(** when blocks of the second algorithm are recognised *)
Definition KAWPOW_TIME : Z := 1651444217.

(** ** Operations *)

(** [while (pindex->pprev && pindex->nHeight % interval != 0 && pindex->nBits == limit)] *)
Definition min_difficulty_step (s : store) (interval nProofOfWorkLimit : Z) (p : ptr) : ptr + option Z :=
  match s !! p with
  | None => inr None
  | Some b =>
      match pprev b with
      | Some q =>
          if negb (Z.rem (nHeight b) interval =? 0) && (nBits b =? nProofOfWorkLimit) then inl q
          else inr (Some (nBits b))
      | None => inr (Some (nBits b))
      end
  end.

(** the special rule for networks with minimum-difficulty blocks *)
Definition min_difficulty_bits (s : store) (params : Params) (p : ptr) (blockTime nProofOfWorkLimit : Z) : option Z :=
  b ← s !! p;
  if blockTime >? nTime b + nPowTargetSpacing params * 2 then Some nProofOfWorkLimit
  else
    r ← while_loop (min_difficulty_step s (DifficultyAdjustmentInterval params) nProofOfWorkLimit)
          (S (Z.to_nat (nHeight b))) p;
    r.

(** clamp, multiply, divide, limit: shared by both algorithms, [lo] and [hi] being the
    bounds of the timespan.  The timespan is converted to [uint32_t] by [operator*=] *)
Definition retarget (bn : arith_uint256) (nActualTimespan lo hi nTargetTimespan : Z) (limit : arith_uint256) : option Z :=
  let nActualTimespan := if nActualTimespan <? lo then lo else nActualTimespan in
  let nActualTimespan := if nActualTimespan >? hi then hi else nActualTimespan in
  let bnNew := Uint.mul_u32 bn nActualTimespan in
  bnNew ← Uint.div bnNew (Uint.of_u64 8 (u64 nTargetTimespan));
  let bnNew := if Uint.CompareTo bnNew limit >? 0 then limit else bnNew in
  GetCompact bnNew false.

Definition nPastBlocks : Z := 180.

(** the loop over the last blocks: [k] turns are left, [nCountBlocks] counts up to
    [nPastBlocks]; the block reached, the average and the count of KAWPOW blocks *)
Fixpoint dgw_loop (s : store) (k : nat) (nCountBlocks : Z) (pindex : ptr) (bnPastTargetAvg : arith_uint256)
    (nKAWPOWBlocksFound : Z) : option (ptr * arith_uint256 * Z) :=
  match k with
  | O => Some (pindex, bnPastTargetAvg, nKAWPOWBlocksFound)
  | S k =>
      b ← s !! pindex;
      let bnTarget := (SetCompact (nBits b)).1.1 in
      avg ← (if nCountBlocks =? 1 then Some bnTarget
             else Uint.div (Uint.add (Uint.mul_u32 bnPastTargetAvg nCountBlocks) bnTarget)
                    (Uint.of_u64 8 (u32 (nCountBlocks + 1))));
      let found := if nTime b >=? KAWPOW_TIME then nKAWPOWBlocksFound + 1 else nKAWPOWBlocksFound in
      next ← (if negb (nCountBlocks =? nPastBlocks) then pprev b else Some pindex);
      dgw_loop s k (nCountBlocks + 1) next avg found
  end.

(** [DarkGravityWave(pindexLast, pblock, params)]; of [pblock] only the time is read *)
Definition DarkGravityWave (s : store) (pindexLast : ptr) (blockTime : Z) (params : Params) : option Z :=
  nProofOfWorkLimit ← GetCompact (bnPowLimit params) false;
  b ← s !! pindexLast;
  if nHeight b <? nPastBlocks then GetCompact (bnPowLimit params) false
  else if fPowAllowMinDifficultyBlocks params && fPowNoRetargeting params then
    min_difficulty_bits s params pindexLast blockTime nProofOfWorkLimit
  else
    r ← dgw_loop s (Z.to_nat nPastBlocks) 1 pindexLast (Uint.zero 8) 0;
    let '(pindex, avg, found) := (r : ptr * arith_uint256 * Z) in
    if (blockTime >=? KAWPOW_TIME) && negb (found =? nPastBlocks) then GetCompact (bnPowLimit params) false
    else
      first ← s !! pindex;
      let nActualTimespan := nTime b - nTime first in
      let nTargetTimespan := nPastBlocks * nPowTargetSpacing params in
      retarget avg nActualTimespan (Z.quot nTargetTimespan 3) (nTargetTimespan * 3) nTargetTimespan (bnPowLimit params).

(** [CalculateNextWorkRequired(pindexLast, nFirstBlockTime, params)] *)
Definition CalculateNextWorkRequired (s : store) (pindexLast : ptr) (nFirstBlockTime : Z) (params : Params) : option Z :=
  b ← s !! pindexLast;
  if fPowNoRetargeting params then Some (nBits b)
  else
    let T := nPowTargetTimespan params in
    retarget (SetCompact (nBits b)).1.1 (nTime b - nFirstBlockTime) (Z.quot T 4) (T * 4) T (bnPowLimit params).

(** [GetNextWorkRequiredBTC(pindexLast, pblock, params)] *)
Definition GetNextWorkRequiredBTC (s : store) (pindexLast : ptr) (blockTime : Z) (params : Params) : option Z :=
  nProofOfWorkLimit ← GetCompact (bnPowLimit params) false;
  b ← s !! pindexLast;
  if negb (Z.rem (nHeight b + 1) (DifficultyAdjustmentInterval params) =? 0) then
    if fPowAllowMinDifficultyBlocks params then min_difficulty_bits s params pindexLast blockTime nProofOfWorkLimit
    else Some (nBits b)
  else
    let nHeightFirst := nHeight b - (DifficultyAdjustmentInterval params - 1) in
    if negb (nHeightFirst >=? 0) then None
    else
      pindexFirst ← GetAncestor s pindexLast nHeightFirst;
      pindexFirst ← (pindexFirst : option ptr);
      first ← s !! pindexFirst;
      CalculateNextWorkRequired s pindexLast (nTime first) params.

(** [GetNextWorkRequired(pindexLast, pblock, params)] *)
Definition GetNextWorkRequired (s : store) (pindexLast : ptr) (blockTime : Z) (params : Params) : option Z :=
  b ← s !! pindexLast;
  if nHeight b <? nMinimumDifficultyBlocks params then GetCompact (bnPowLimit params) false
  else if nHeight b + 1 <? nPowDGWHeight params then GetNextWorkRequiredBTC s pindexLast blockTime params
  else DarkGravityWave s pindexLast blockTime params.

(** ** The adjustment in exact arithmetic *)

Definition compact_word (N : Z) : Z := let '(s, m) := compact_of N in m + s * 2 ^ 24.
Definition clamp (lo hi x : Z) : Z := Z.min hi (Z.max lo x).

Lemma GetCompact_word_spec a : uwf 8 a -> GetCompact a false = Some (compact_word (uval a)).
Proof.
  intros Ha. rewrite GetCompact_spec by done. unfold compact_word. destruct (compact_of (uval a)). simpl. by rewrite Z.add_0_r.
Qed.

(** multiplying and dividing, with the wrap-around of the product *)
Lemma retarget_spec bn ts lo hi T limit : uwf 8 bn -> uwf 8 limit -> 0 < T < 2 ^ 64 -> 0 <= lo <= hi -> hi < 2 ^ 32 ->
  retarget bn ts lo hi T limit =
  Some (compact_word (Z.min (uval limit) ((uval bn * clamp lo hi ts) mod 2 ^ 256 / T))).
Proof.
  intros Hbn Hlim HT Hlo Hhi. unfold retarget. assert (HT' : is_u64 T) by (unfold is_u64; lia). rewrite Z.gtb_ltb, (u64_small T HT').
  set (c := if hi <? (if ts <? lo then lo else ts) then hi else (if ts <? lo then lo else ts)).
  assert (Ec : c = clamp lo hi ts) by (unfold c, clamp; destruct (Z.ltb_spec ts lo); [destruct (Z.ltb_spec hi lo) | destruct (Z.ltb_spec hi ts)]; lia).
  assert (Hc : is_u32 c) by (unfold is_u32; rewrite Ec; unfold clamp; lia).
  destruct (uval_mul_u32 8 bn c Hbn) as [Hm Em]. rewrite modulus_8, (u32_small c Hc) in Em.
  destruct (uval_of_u64 8 T ltac:(lia) HT') as [Hd Ed].
  pose proof (uval_div 8 _ _ Hm Hd) as Hq. rewrite Ed, Em in Hq. cbv zeta.
  destruct (Uint.div _ _) as [q|]; [|lia]. destruct Hq as (_ & Hq & Eq). cbn [mbind option_bind].
  rewrite (CompareTo_gt 8), Eq by done.
  destruct (Z.ltb_spec (uval limit) ((uval bn * c) mod 2 ^ 256 / T)); rewrite GetCompact_word_spec by done; do 2 f_equal; rewrite <- Ec;
    [lia | rewrite Eq; lia].
Qed.

(** the last [n] blocks, the newest first *)
Fixpoint past_blocks (s : store) (n : nat) (p : ptr) : option (list CBlockIndex) :=
  match n with
  | O => Some []
  | S O => b ← s !! p; Some [b]
  | S n => b ← s !! p; q ← pprev b; l ← past_blocks s n q; Some (b :: l)
  end.

(** the running average in [Z]: [acc] is that of [k - 1] targets *)
Fixpoint average_from (acc k : Z) (l : list Z) : Z :=
  match l with
  | [] => acc
  | t :: l => average_from ((acc * k + t) / (k + 1)) (k + 1) l
  end.

Definition dgw_average (l : list Z) : Z := match l with [] => 0 | t :: l => average_from t 2 l end.

Definition target_of (b : CBlockIndex) : Z := compact_value (nBits b).
Definition kawpow (b : CBlockIndex) : bool := nTime b >=? KAWPOW_TIME.

(** bits that decode to a target within the limit *)
Definition bits_ok (limit : Z) (b : CBlockIndex) : Prop :=
  is_u32 (nBits b) /\ compact_sign (nBits b) = false /\ 0 < target_of b <= limit.

Lemma average_bound limit l : forall acc k, 0 < k -> 0 < acc <= limit -> Forall (fun t => 0 < t <= limit) l ->
  0 <= average_from acc k l <= limit.
Proof.
  enough (H : forall acc k, 0 < k -> 0 <= acc <= limit -> Forall (fun t => 0 < t <= limit) l -> 0 <= average_from acc k l <= limit)
    by (intros acc k Hk Ha Hl; apply H; [done|lia|done]).
  induction l as [|t l IH]; intros acc k Hk Ha Hl; [simpl; lia|]. inversion Hl; subst. simpl. apply IH; [lia| |done].
  split; [apply Z.div_pos; nia|]. apply Z.div_le_upper_bound; nia.
Qed.

(** one step of the average does not wrap *)
Lemma average_step avg t k limit : uwf 8 avg -> uwf 8 t -> 0 < k <= 180 -> uval avg <= limit -> uval t <= limit ->
  181 * limit < 2 ^ 256 ->
  exists a, Uint.div (Uint.add (Uint.mul_u32 avg k) t) (Uint.of_u64 8 (u32 (k + 1))) = Some a /\ uwf 8 a /\
    uval a = (uval avg * k + uval t) / (k + 1).
Proof.
  intros Ha Ht Hk Hal Htl Hlim. pose proof (uval_range 8 _ Ha). pose proof (uval_range 8 _ Ht).
  destruct (uval_mul_u32 8 avg k Ha) as [Hm Em]. rewrite modulus_8, u32_small in Em by (unfold is_u32; lia).
  destruct (uval_add 8 _ _ Hm Ht) as [Hs Es]. rewrite modulus_8, Em in Es.
  rewrite (u32_small (k + 1)) by (unfold is_u32; lia).
  destruct (uval_of_u64 8 (k + 1) ltac:(lia)) as [Hd Ed]; [unfold is_u64; lia|].
  pose proof (uval_div 8 _ _ Hs Hd) as Hq. rewrite Ed, Es in Hq.
  destruct (Uint.div _ _) as [q|]; [|lia]. destruct Hq as (_ & Hq & Eq). exists q. split; [done|]. split; [done|].
  rewrite Eq. f_equal. rewrite (Z.mod_small (uval avg * k)) by nia. apply Z.mod_small. nia.
Qed.

Lemma bits_ok_target limit b : limit < 2 ^ 256 -> bits_ok limit b ->
  uwf 8 (SetCompact (nBits b)).1.1 /\ uval (SetCompact (nBits b)).1.1 = target_of b.
Proof.
  intros Hl (Hb & _ & Ht). destruct (SetCompact_cases (nBits b) Hb) as (t & -> & Hw & Hv). unfold target_of in *. simpl. auto with lia.
Qed.

Definition count_kawpow (l : list CBlockIndex) : Z := zlen (filter (fun b => kawpow b = true) l).

Lemma count_kawpow_cons b l : count_kawpow (b :: l) = (if kawpow b then 1 else 0) + count_kawpow l.
Proof.
  unfold count_kawpow. destruct (kawpow b) eqn:E; [rewrite filter_cons_True by done; simpl; lia | rewrite filter_cons_False by congruence; lia].
Qed.

Lemma past_blocks_cons s k p l : past_blocks s (S (S k)) p = Some l ->
  exists b q l', s !! p = Some b /\ pprev b = Some q /\ past_blocks s (S k) q = Some l' /\ l = b :: l'.
Proof.
  change (past_blocks s (S (S k)) p) with (b ← s !! p; q ← pprev b; l ← past_blocks s (S k) q; Some (b :: l)).
  destruct (s !! p) as [b|]; [|done]. cbn [mbind option_bind]. destruct (pprev b) as [q|] eqn:Eq; [|done]. cbn [mbind option_bind].
  destruct (past_blocks s (S k) q) as [l'|] eqn:E; [|done]. cbn [mbind option_bind]. intros [= <-]. exists b, q, l'. done.
Qed.

Lemma dgw_loop_S s k n p avg found : dgw_loop s (S k) n p avg found =
  b ← s !! p; avg' ← (if n =? 1 then Some (SetCompact (nBits b)).1.1
       else Uint.div (Uint.add (Uint.mul_u32 avg n) (SetCompact (nBits b)).1.1) (Uint.of_u64 8 (u32 (n + 1))));
  next ← (if negb (n =? nPastBlocks) then pprev b else Some p);
  dgw_loop s k (n + 1) next avg' (if nTime b >=? KAWPOW_TIME then found + 1 else found).
Proof. done. Qed.

Section DGW.
Variables (s : store) (limit : Z).
Hypothesis Hlimit : 181 * limit < 2 ^ 256.

(** the loop from its second turn on *)
Lemma dgw_loop_spec k : forall n p l avg found, past_blocks s (S k) p = Some l -> n + Z.of_nat k = 180 -> 2 <= n ->
  uwf 8 avg -> uval avg <= limit -> Forall (bits_ok limit) l ->
  exists plast a b, dgw_loop s (S k) n p avg found = Some (plast, a, found + count_kawpow l) /\
    uwf 8 a /\ uval a = average_from (uval avg) n (map target_of l) /\ last l = Some b /\ s !! plast = Some b.
Proof.
  induction k as [|k IH]; intros n p l avg found Hp Hn Hn2 Ha Hal Hl.
  - simpl in Hp. destruct (s !! p) as [b|] eqn:Eb; [|done]. injection Hp as <-. inversion Hl as [|? ? Hb _]; subst.
    destruct (bits_ok_target limit b ltac:(lia) Hb) as [Ht Et]. destruct Hb as (_ & _ & Hb).
    destruct (average_step avg _ n limit Ha Ht ltac:(lia) Hal ltac:(lia) Hlimit) as (a & Ea & Hwa & Va).
    rewrite dgw_loop_S, Eb. cbn [mbind option_bind]. rewrite (proj2 (Z.eqb_neq n 1)), Ea by lia. cbn [mbind option_bind].
    rewrite (proj2 (Z.eqb_eq n nPastBlocks)) by (unfold nPastBlocks; lia). cbn [negb mbind option_bind dgw_loop].
    exists p, a, b. rewrite count_kawpow_cons. unfold kawpow.
    split; [destruct (_ >=? _); do 2 f_equal; unfold count_kawpow; simpl; lia|].
    split; [done|]. split; [simpl; by rewrite Va, Et|]. done.
  - destruct (past_blocks_cons _ _ _ _ Hp) as (b & q & l' & Eb & Eq & Hq & ->). inversion Hl as [|? ? Hb Hl']; subst.
    destruct (bits_ok_target limit b ltac:(lia) Hb) as [Ht Et]. destruct Hb as (_ & _ & Hb). pose proof (uval_range 8 _ Ha).
    destruct (average_step avg _ n limit Ha Ht ltac:(lia) Hal ltac:(lia) Hlimit) as (a & Ea & Hwa & Va).
    assert (Hab : uval a <= limit) by (rewrite Va, Et; apply Z.div_le_upper_bound; nia).
    rewrite dgw_loop_S.
    rewrite Eb. cbn [mbind option_bind]. rewrite (proj2 (Z.eqb_neq n 1)), Ea by lia. cbn [mbind option_bind].
    rewrite (proj2 (Z.eqb_neq n nPastBlocks)), Eq by (unfold nPastBlocks; lia). cbn [negb mbind option_bind].
    destruct (IH (n + 1) q l' a (if nTime b >=? KAWPOW_TIME then found + 1 else found) Hq ltac:(lia) ltac:(lia) Hwa Hab Hl')
      as (plast & a' & bl & -> & Hwa' & Va' & Hlast & Hbl).
    exists plast, a', bl. rewrite count_kawpow_cons. unfold kawpow. split; [destruct (_ >=? _); do 2 f_equal; lia|].
    split; [done|]. split; [by rewrite Va', Va, Et|]. split; [|done]. destruct l'; [done|]. done.
Qed.

(** the whole loop *)
Lemma dgw_loop_total k p l : Z.of_nat k = 178 -> past_blocks s (S (S k)) p = Some l -> Forall (bits_ok limit) l ->
  exists plast a b, dgw_loop s (S (S k)) 1 p (Uint.zero 8) 0 = Some (plast, a, count_kawpow l) /\
    uwf 8 a /\ uval a = dgw_average (map target_of l) /\ last l = Some b /\ s !! plast = Some b.
Proof.
  intros Hk Hp Hl. destruct (past_blocks_cons _ k _ _ Hp) as (b & q & l' & Eb & Eq & Hq & ->). inversion Hl as [|? ? Hb Hl']; subst.
  destruct (bits_ok_target limit b ltac:(lia) Hb) as [Ht Et]. destruct Hb as (_ & _ & Hb).
  rewrite dgw_loop_S, Eb. cbn [mbind option_bind]. change (1 =? 1) with true. change (1 =? nPastBlocks) with false.
  cbn [negb mbind option_bind]. rewrite Eq. cbn [mbind option_bind]. change (1 + 1) with 2.
  destruct (dgw_loop_spec k 2 q l' _ (if nTime b >=? KAWPOW_TIME then 0 + 1 else 0) Hq ltac:(lia) ltac:(lia) Ht ltac:(lia) Hl')
    as (plast & a & bl & -> & Hwa & Va & Hlast & Hbl).
  exists plast, a, bl. rewrite count_kawpow_cons. unfold kawpow. split; [by destruct (_ >=? _)|]. split; [done|].
  split; [by rewrite Va, Et|]. split; [|done]. by destruct l'.
Qed.
End DGW.

(** ** Properties *)

(** mainnet (chainparams.cpp) *)
Definition mainnet : Params :=
  MkParams (replicate 31 0xff ++ [0x00]) false false 60 (2016 * 60) 1 0.

Section Refinement.
Variables (s : store) (p : ptr) (b first : CBlockIndex) (l : list CBlockIndex) (blockTime : Z) (params : Params).
Hypothesis Hp : s !! p = Some b.
Hypothesis Hheight : nPastBlocks <= nHeight b.
Hypothesis Hl : past_blocks s (Z.to_nat nPastBlocks) p = Some l.
Hypothesis Hfirst : last l = Some first.
Hypothesis Hblob : is_blob (powLimit params).
Hypothesis Hlimit : 181 * blob_value (powLimit params) < 2 ^ 256.
Hypothesis Hbits : Forall (bits_ok (blob_value (powLimit params))) l.
Hypothesis Hrule : fPowAllowMinDifficultyBlocks params && fPowNoRetargeting params = false.
Hypothesis Hspacing : 0 < nPowTargetSpacing params.
Hypothesis Htimespan : nPastBlocks * nPowTargetSpacing params * 3 < 2 ^ 32.

(** the rule with the wrap-around of the product still in it *)
Lemma DarkGravityWave_spec :
  let limit := blob_value (powLimit params) in
  let T := nPastBlocks * nPowTargetSpacing params in
  DarkGravityWave s p blockTime params =
  Some (compact_word (if (blockTime >=? KAWPOW_TIME) && negb (count_kawpow l =? nPastBlocks) then limit
        else Z.min limit ((dgw_average (map target_of l) * clamp (T / 3) (T * 3) (nTime b - nTime first)) mod 2 ^ 256 / T))).
Proof.
  destruct Hblob as [_ Hu]. apply UintToArith256_wf in Hu. cbv zeta. unfold DarkGravityWave, bnPowLimit.
  rewrite (GetCompact_word_spec _ Hu), Hp. cbn [mbind option_bind]. rewrite (proj2 (Z.ltb_ge _ _)) by lia. rewrite Hrule.
  destruct (dgw_loop_total s (blob_value (powLimit params)) Hlimit 178 p l ltac:(lia) Hl Hbits) as (plast & a & bl & Ed & Hwa & Va & Hlast & Hbl).
  change (Z.to_nat nPastBlocks) with (S (S 178)). rewrite Ed. cbn [mbind option_bind].
  rewrite Hbl. cbn [mbind option_bind]. rewrite Hfirst in Hlast. injection Hlast as <-.
  set (T := nPastBlocks * nPowTargetSpacing params) in *. assert (0 < T) by (unfold T, nPastBlocks; lia).
  pose proof (Z.div_pos T 3 ltac:(lia) ltac:(lia)). pose proof (Z.div_lt T 3 ltac:(lia) ltac:(lia)).
  rewrite Z.quot_div_nonneg, retarget_spec by (done || lia). rewrite Va. by destruct ((blockTime >=? KAWPOW_TIME) && _).
Qed.
End Refinement.

(** C16: Dark Gravity Wave computes, with 256-bit integers, the next target of the
    rule in exact arithmetic: the running average of the last 180 targets, times the
    time they took (clamped to a third and three times the intended time) over the
    intended time, at most the limit; before 180 blocks of the second algorithm are
    found it returns the limit.  This needs the product to fit in 256 bits. *)
Theorem DarkGravityWave_exact s p b first l blockTime params :
  s !! p = Some b -> nPastBlocks <= nHeight b ->
  past_blocks s (Z.to_nat nPastBlocks) p = Some l -> last l = Some first ->
  is_blob (powLimit params) -> 181 * blob_value (powLimit params) < 2 ^ 256 ->
  Forall (bits_ok (blob_value (powLimit params))) l ->
  fPowAllowMinDifficultyBlocks params && fPowNoRetargeting params = false ->
  0 < nPowTargetSpacing params -> nPastBlocks * nPowTargetSpacing params * 3 < 2 ^ 32 ->
  dgw_average (map target_of l) * (nPastBlocks * nPowTargetSpacing params * 3) < 2 ^ 256 ->
  let limit := blob_value (powLimit params) in
  let T := nPastBlocks * nPowTargetSpacing params in
  DarkGravityWave s p blockTime params =
  Some (compact_word (if (blockTime >=? KAWPOW_TIME) && negb (count_kawpow l =? nPastBlocks) then limit
        else Z.min limit (dgw_average (map target_of l) * clamp (T / 3) (T * 3) (nTime b - nTime first) / T))).
Proof.
  intros Hp Hh Hl Hf Hblob Hlim Hbits Hrule Hsp Hts Hfit. cbv zeta.
  rewrite (DarkGravityWave_spec s p b first l blockTime params Hp Hh Hl Hf Hblob Hlim Hbits Hrule Hsp Hts). cbv zeta.
  do 2 f_equal. destruct ((blockTime >=? KAWPOW_TIME) && negb (count_kawpow l =? nPastBlocks)); [done|]. do 2 f_equal. apply Z.mod_small.
  assert (Ha : 0 <= dgw_average (map target_of l)).
  { destruct l as [|x l]; [done|]. inversion Hbits as [|? ? (_ & _ & Hx) Hr]; subst. simpl. apply (average_bound (blob_value (powLimit params))); [lia|done|].
    apply Forall_map. apply (Forall_impl _ _ _ Hr). by intros y (_ & _ & Hy). }
  set (T := nPastBlocks * nPowTargetSpacing params) in *. assert (0 < T) by (unfold T, nPastBlocks; lia).
  pose proof (Z.div_pos T 3 ltac:(lia) ltac:(lia)). unfold clamp. nia.
Qed.

(** a line of blocks: block [i] at height [i], [gap] seconds apart, all with the same bits *)
Definition line_block (bits gap : Z) (i : nat) : CBlockIndex :=
  MkCBlockIndex None (match i with O => None | S j => Some (Pos.of_succ_nat j) end) None (Z.of_nat i) 0 0 0 [] 0 0 0
    (MkHeaderFields 1 [] (1600000000 + gap * Z.of_nat i) bits 0 0 []) 0 0.
Definition line_store (bits gap : Z) (n : nat) : store :=
  list_to_map (map (fun i => (Pos.of_succ_nat i, line_block bits gap i)) (seq 0 n)).

Definition line_past (bits gap : Z) : list CBlockIndex := map (line_block bits gap) (rev (seq 1 180)).

Definition bits_okb (limit : Z) (b : CBlockIndex) : bool :=
  (0 <=? nBits b) && (nBits b <? 2 ^ 32) && negb (compact_sign (nBits b)) && (0 <? target_of b) && (target_of b <=? limit).

Lemma bits_okb_sound limit l : forallb (bits_okb limit) l = true -> Forall (bits_ok limit) l.
Proof.
  intros H. apply Forall_forall. intros b Hb. rewrite forallb_forall in H. apply list_elem_of_In, H in Hb. unfold bits_okb in Hb.
  unfold bits_ok, is_u32. repeat (apply andb_true_iff in Hb as [Hb ?]). apply negb_true_iff in H2. bool_to_prop. repeat split; done || lia.
Qed.

Definition steady_store : store := line_store 0x1d00ffff 60 181.
Definition steady_past : list CBlockIndex := line_past 0x1d00ffff 60.

Lemma steady_past_ok : past_blocks steady_store (Z.to_nat nPastBlocks) 181 = Some steady_past.
Proof. vm_compute. reflexivity. Qed.

Lemma steady_bits_ok : Forall (bits_ok (blob_value (powLimit mainnet))) steady_past.
Proof. apply bits_okb_sound. vm_compute. reflexivity. Qed.

Lemma mainnet_blob : is_blob (powLimit mainnet).
Proof. split; [done|]. apply Forall_app. split; [apply Forall_replicate|repeat constructor]; unfold is_u8; lia. Qed.

Lemma DarkGravityWave_exact_witness :
  let limit := blob_value (powLimit mainnet) in
  let T := nPastBlocks * nPowTargetSpacing mainnet in
  DarkGravityWave steady_store 181 1600020000 mainnet =
  Some (compact_word (if (1600020000 >=? KAWPOW_TIME) && negb (count_kawpow steady_past =? nPastBlocks) then limit
        else Z.min limit (dgw_average (map target_of steady_past) *
          clamp (T / 3) (T * 3) (nTime (line_block 0x1d00ffff 60 180) - nTime (line_block 0x1d00ffff 60 1)) / T))).
Proof.
  refine (DarkGravityWave_exact steady_store 181%positive (line_block 0x1d00ffff 60 180) (line_block 0x1d00ffff 60 1)
    steady_past 1600020000 mainnet _ _ steady_past_ok _ mainnet_blob _ steady_bits_ok _ _ _ _); vm_compute; reflexivity || discriminate.
Defined.

Lemma average_const t l : forall k, 0 < k -> Forall (fun x => x = t) l -> average_from t k l = t.
Proof.
  induction l as [|x l IH]; intros k Hk Hl; [done|]. inversion Hl; subst. simpl.
  replace (t * k + t) with (t * (k + 1)) by lia. rewrite Z.div_mul by lia. apply IH; [lia|done].
Qed.

Definition easiest_bits : Z := 0x2000ffff.

(** With the limit of the main network ([2^248 - 1], although its comment says the
    hash space shifted by 20) the product wraps: when the last 180 blocks had the
    easiest difficulty and took three times the intended time or longer, the next
    target is less than a sixty-fourth of theirs, where the rule says it stays at the
    limit. *)
Theorem mainnet_retarget_wraps s p b first l blockTime :
  s !! p = Some b -> nPastBlocks <= nHeight b ->
  past_blocks s (Z.to_nat nPastBlocks) p = Some l -> last l = Some first ->
  Forall (fun x => nBits x = easiest_bits) l ->
  nPastBlocks * nPowTargetSpacing mainnet * 3 <= nTime b - nTime first ->
  blockTime < KAWPOW_TIME \/ count_kawpow l = nPastBlocks ->
  exists c, DarkGravityWave s p blockTime mainnet = Some c /\ 64 * compact_value c < compact_value easiest_bits.
Proof.
  intros Hp Hh Hl Hf Hbits Htime Hkaw. eexists.
  assert (Hok : Forall (bits_ok (blob_value (powLimit mainnet))) l).
  { apply (Forall_impl _ _ _ Hbits). intros x Hx. unfold bits_ok, target_of. rewrite Hx. vm_compute. repeat split; discriminate. }
  rewrite (DarkGravityWave_spec s p b first l blockTime mainnet Hp Hh Hl Hf mainnet_blob) by (done || vm_compute; reflexivity).
  cbv zeta. split; [reflexivity|].
  assert (Ek : (blockTime >=? KAWPOW_TIME) && negb (count_kawpow l =? nPastBlocks) = false).
  { destruct Hkaw as [Hk|Hk]; [|rewrite (proj2 (Z.eqb_eq _ _) Hk); apply andb_false_r].
    rewrite Z.geb_leb, (proj2 (Z.leb_gt _ _)) by lia. done. }
  rewrite Ek. set (T := nPastBlocks * nPowTargetSpacing mainnet) in *.
  assert (Ea : dgw_average (map target_of l) = compact_value easiest_bits).
  { assert (Ht : Forall (fun x => x = compact_value easiest_bits) (map target_of l)).
    { apply Forall_map. apply (Forall_impl _ _ _ Hbits). intros x Hx. unfold target_of. by rewrite Hx. }
    destruct l as [|x l]; [done|]. inversion Ht as [|? ? Ex Hr]; subst. simpl. rewrite Ex. by apply average_const. }
  assert (Ec : clamp (T / 3) (T * 3) (nTime b - nTime first) = T * 3) by (unfold clamp; lia).
  rewrite Ea, Ec. vm_compute. reflexivity.
Qed.

Definition slow_store : store := line_store easiest_bits 300 181.
Definition slow_past : list CBlockIndex := line_past easiest_bits 300.

Lemma mainnet_retarget_wraps_witness :
  exists c, DarkGravityWave slow_store 181 1600060000 mainnet = Some c /\ 64 * compact_value c < compact_value easiest_bits.
Proof.
  refine (mainnet_retarget_wraps slow_store 181%positive (line_block easiest_bits 300 180) (line_block easiest_bits 300 1) slow_past 1600060000
    _ _ _ _ _ _ (or_introl _)); try (vm_compute; reflexivity || discriminate).
  apply Forall_map. apply Forall_forall. done.
Defined.
