(* ===== verification/Standard.v ===== *)
(** * Standard scripts (script/standard.h, script/standard.cpp)

    [Solver] classifies an output script and returns its solutions; the visitors
    build the script of a destination.  Hashes are 20-byte lists. *)

From S2P Require Import Prelude Opcodes ScriptNum Script Interpreter Transaction Sighash.
Import Script.

(** [CTxDestination] *)
Inductive CTxDestination := CNoDestination | CKeyID (h : list Z) | CScriptID (h : list Z).

#[global] Instance CTxDestination_eq_dec : EqDecision CTxDestination.
Proof. solve_decision. Defined.

(** ** Solver *)

(** the templates, in the order of the multimap *)
Definition mTemplates : list (txnouttype * script_bytes) :=
  [(TX_PUBKEY, [opcode_value OP_PUBKEY; opcode_value OP_CHECKSIG]);
   (TX_PUBKEYHASH, map opcode_value [OP_DUP; OP_HASH160; OP_PUBKEYHASH; OP_EQUALVERIFY; OP_CHECKSIG]);
   (TX_MULTISIG, map opcode_value [OP_SMALLINTEGER; OP_PUBKEYS; OP_SMALLINTEGER; OP_CHECKMULTISIG])].

(** [while (vch1.size() >= 33 && vch1.size() <= 65)]: the iterator, the opcode and data
    read last, and the solutions *)
Fixpoint pubkeys_loop (fuel : nat) (pc1 : script_bytes) (opcode1 : Z) (vch1 : valtype) (sols : list valtype) :
    script_bytes * Z * valtype * list valtype :=
  match fuel with
  | O => (pc1, opcode1, vch1, sols)
  | S fuel =>
      if (zlen vch1 >=? 33) && (zlen vch1 <=? 65) then
        let sols := sols ++ [vch1] in
        match GetOp2 pc1 with
        | (pc1, None) => (pc1, opcode_value OP_INVALIDOPCODE, [], sols)
        | (pc1, Some (opcode1, vch1)) => pubkeys_loop fuel pc1 opcode1 vch1 sols
        end
      else (pc1, opcode1, vch1, sols)
  end.

(** the [if] chain on the template's opcode: the solutions, or [None] for [break] *)
Definition match_op (opcode1 : Z) (vch1 : valtype) (opcode2 : Z) (vch2 : valtype) (sols : list valtype) :
    option (list valtype) :=
  if opcode2 =? OP_PUBKEY then
    if (zlen vch1 <? 33) || (zlen vch1 >? 65) then None else Some (sols ++ [vch1])
  else if opcode2 =? OP_PUBKEYHASH then
    if negb (zlen vch1 =? 20) then None else Some (sols ++ [vch1])
  else if opcode2 =? OP_SMALLINTEGER then
    if (opcode1 =? OP_0) || ((opcode1 >=? OP_1) && (opcode1 <=? OP_16))
    then Some (sols ++ [[default 0 (DecodeOP_N opcode1)]])
    else None
  else if negb (opcode1 =? opcode2) || negb (bool_decide (vch1 = vch2)) then None
  else Some sols.

(** one turn of [while (true)]: [inr (Some sols)] is a match, [inr None] a mismatch *)
Definition template_step (st : script_bytes * script_bytes * list valtype) :
    script_bytes * script_bytes * list valtype + option (list valtype) :=
  let '(pc1, pc2, sols) := st in
  if bool_decide (pc1 = []) && bool_decide (pc2 = []) then inr (Some sols)
  else
    match GetOp2 pc1 with
    | (_, None) => inr None
    | (pc1, Some (opcode1, vch1)) =>
        match GetOp2 pc2 with
        | (_, None) => inr None
        | (pc2, Some (opcode2, vch2)) =>
            if opcode2 =? OP_PUBKEYS then
              let '(pc1, opcode1, vch1, sols) := pubkeys_loop (S (length pc1)) pc1 opcode1 vch1 sols in
              match GetOp2 pc2 with
              | (_, None) => inr None
              | (pc2, Some (opcode2, vch2)) =>
                  match match_op opcode1 vch1 opcode2 vch2 sols with
                  | Some sols => inl (pc1, pc2, sols)
                  | None => inr None
                  end
              end
            else
              match match_op opcode1 vch1 opcode2 vch2 sols with
              | Some sols => inl (pc1, pc2, sols)
              | None => inr None
              end
        end
    end.

Definition match_template (script1 script2 : script_bytes) : option (list valtype) :=
  default None (while_loop template_step (S (length script2)) (script1, script2, [])).

(** the outputs of [Solver]: the return value, [typeRet] when it is assigned, and
    [vSolutionsRet] *)
Record solution := Solution { solved : bool; typeRet : option txnouttype; vSolutionsRet : list valtype }.

(** [for (tplate : mTemplates)] *)
Fixpoint scan_templates (script1 : script_bytes) (l : list (txnouttype * script_bytes)) : solution :=
  match l with
  | [] => Solution false (Some TX_NONSTANDARD) []
  | (t, script2) :: l =>
      match match_template script1 script2 with
      | None => scan_templates script1 l
      | Some sols =>
          if bool_decide (t = TX_MULTISIG) then
            let m := default [] (head sols) !!! 0%nat in
            let n := default [] (last sols) !!! 0%nat in
            if (m <? 1) || (n <? 1) || (m >? n) || negb (zlen sols - 2 =? n)
            then Solution false (Some t) sols
            else Solution true (Some t) sols
          else Solution true (Some t) sols
      end
  end.

(** the bytes from [first] up to [last], as the iterator constructor copies them *)
Definition subrange (s : script_bytes) (first last : nat) : list Z := take (last - first) (drop first s).

(** [Solver(scriptPubKey, typeRet, vSolutionsRet)] *)
Definition Solver (s : script_bytes) : solution :=
  if IsPayToScriptHash s then Solution true (Some TX_SCRIPTHASH) [subrange s 2 22]
  else
    match IsAssetScript s with
    | Some (nType, _, _) => Solution true (Some nType) [subrange s 3 23]
    | None =>
        match IsWitnessProgram s with
        | Some (witnessversion, witnessprogram) =>
            if (witnessversion =? 0) && (zlen witnessprogram =? 20) then Solution true (Some TX_WITNESS_V0_KEYHASH) [witnessprogram]
            else if (witnessversion =? 0) && (zlen witnessprogram =? 32) then Solution true (Some TX_WITNESS_V0_SCRIPTHASH) [witnessprogram]
            else Solution false None []
        | None =>
            if (zlen s >=? 1) && (s !!! 0%nat =? OP_RETURN) && IsPushOnly (drop 1 s) then Solution true (Some TX_NULL_DATA) []
            else if (zlen s >=? 1) && (s !!! 0%nat =? OP_BLKR_ASSET) && IsPushOnly (drop 1 s) then
              Solution true (Some TX_RESTRICTED_ASSET_DATA)
                (if (zlen s >=? 23) && negb (s !!! 1%nat =? OP_RESERVED) then [subrange s 2 22] else [])
            else scan_templates s mTemplates
        end
    end.

(** ** Destinations *)

Section Destinations.
Context `{ScriptHashes}.

(** [uint160(vch)], with its assertion *)
Definition uint160 (vch : valtype) : option (list Z) := if zlen vch =? 20 then Some vch else None.

(** [ExtractDestination(scriptPubKey, addressRet)]: the destination when it returns
    true; the outer [None] is a failed assertion or an index out of range *)
Definition ExtractDestination (s : script_bytes) : option (option CTxDestination) :=
  let r := Solver s in
  if negb (solved r) then Some None
  else
    match typeRet r with
    | Some TX_PUBKEY =>
        v ← vSolutionsRet r !! 0%nat;
        match CPubKey_Set v with
        | Some key => Some (Some (CKeyID (Hash160 key)))
        | None => Some None
        end
    | Some (TX_PUBKEYHASH | TX_NEW_ASSET | TX_REISSUE_ASSET | TX_TRANSFER_ASSET) =>
        v ← vSolutionsRet r !! 0%nat; h ← uint160 v; Some (Some (CKeyID h))
    | Some TX_SCRIPTHASH => v ← vSolutionsRet r !! 0%nat; h ← uint160 v; Some (Some (CScriptID h))
    | Some TX_RESTRICTED_ASSET_DATA =>
        match vSolutionsRet r with
        | v :: _ => h ← uint160 v; Some (Some (CKeyID h))
        | [] => Some None
        end
    | _ => Some None
    end.

(** [ExtractDestinations(scriptPubKey, typeRet, addressRet, nRequiredRet)]: the type, the
    addresses and the number of signatures when it returns true *)
Definition ExtractDestinations (s : script_bytes) : option (option (txnouttype * list CTxDestination * Z)) :=
  let r := Solver s in
  if negb (solved r) then Some None
  else
    match typeRet r with
    | Some TX_NULL_DATA => Some None
    | Some TX_MULTISIG =>
        let sols := vSolutionsRet r in
        let nRequired := default [] (head sols) !!! 0%nat in
        let addresses := omap (fun v => (fun key => CKeyID (Hash160 key)) <$> CPubKey_Set v)
                           (take (length sols - 2) (drop 1 sols)) in
        if bool_decide (addresses = []) then Some None else Some (Some (TX_MULTISIG, addresses, nRequired))
    | Some t =>
        d ← ExtractDestination s;
        Some ((fun dest => (t, [dest], 1)) <$> (d : option CTxDestination))
    | None => Some None
    end.

(** ** Scripts of destinations *)

(** [CScriptVisitor], [GetScriptForDestination(dest)] *)
Definition GetScriptForDestination (dest : CTxDestination) : script_bytes :=
  match dest with
  | CNoDestination => []
  | CKeyID h => push_opcode (push_opcode (push_data (push_opcode (push_opcode [] OP_DUP) OP_HASH160) h) OP_EQUALVERIFY) OP_CHECKSIG
  | CScriptID h => push_opcode (push_data (push_opcode [] OP_HASH160) h) OP_EQUAL
  end.

(** [CScriptFutureVisitor], [GetFutureScriptForDestination(dest, height)]; the visitor
    has no case for script hashes, which convert to key hashes *)
Definition GetFutureScriptForDestination (dest : CTxDestination) (height : Z) : script_bytes :=
  match dest with
  | CNoDestination => []
  | CKeyID h | CScriptID h =>
      push_opcode (push_data (push_opcode (push_opcode (push_int64 [] height) OP_CHECKSEQUENCEVERIFY) OP_DROP) h) OP_CHECKSIG
  end.

(** [CNullAssetScriptVisitor], [GetScriptForNullAssetDataDestination(dest)] *)
Definition GetScriptForNullAssetDataDestination (dest : CTxDestination) : script_bytes :=
  match dest with
  | CNoDestination => []
  | CKeyID h | CScriptID h => push_data (push_opcode [] OP_BLKR_ASSET) h
  end.

(** [GetScriptForRawPubKey(pubKey)] *)
Definition GetScriptForRawPubKey (pubKey : valtype) : script_bytes := push_opcode (push_data [] pubKey) OP_CHECKSIG.

(** [GetScriptForMultisig(nRequired, keys)]; [None] when [EncodeOP_N] asserts *)
Definition GetScriptForMultisig (nRequired : Z) (keys : list valtype) : option script_bytes :=
  m ← EncodeOP_N nRequired;
  let script := foldl push_data (push_opcode [] m) keys in
  n ← EncodeOP_N (zlen keys);
  Some (push_opcode (push_opcode script n) OP_CHECKMULTISIG).

(** [GetScriptForWitness(redeemscript)] *)
Definition GetScriptForWitness (redeemscript : script_bytes) : option script_bytes :=
  let r := Solver redeemscript in
  match solved r, typeRet r with
  | true, Some TX_PUBKEY => v ← vSolutionsRet r !! 0%nat; Some (push_data (push_opcode [] OP_0) (Hash160 v))
  | true, Some TX_PUBKEYHASH => v ← vSolutionsRet r !! 0%nat; Some (push_data (push_opcode [] OP_0) v)
  | _, _ => Some (push_data (push_opcode [] OP_0) (SHA256 redeemscript))
  end.

(** [IsValidDestination(dest)] *)
Definition IsValidDestination (dest : CTxDestination) : bool :=
  match dest with CNoDestination => false | _ => true end.
End Destinations.

(** ** Matching a template *)

Lemma template_next fuel pc1 pc1' op1 v1 pc2 pc2' op2 sols sols' :
  GetOp2 pc1 = (pc1', Some (op1, v1)) -> GetOp2 pc2 = (pc2', Some (op2, [])) -> op2 <> OP_PUBKEYS ->
  match_op op1 v1 op2 [] sols = Some sols' ->
  while_loop template_step (S fuel) (pc1, pc2, sols) = while_loop template_step fuel (pc1', pc2', sols').
Proof.
  intros E1 E2 Hne Hm. cbn [while_loop]. unfold template_step at 1.
  assert (Hnil : bool_decide (pc1 = []) = false) by (apply bool_decide_eq_false; by intros ->).
  rewrite Hnil, E1, E2, (proj2 (Z.eqb_neq _ _) Hne), Hm. done.
Qed.

Lemma template_break fuel pc1 pc1' op1 v1 pc2 pc2' op2 sols :
  GetOp2 pc1 = (pc1', Some (op1, v1)) -> GetOp2 pc2 = (pc2', Some (op2, [])) -> op2 <> OP_PUBKEYS ->
  match_op op1 v1 op2 [] sols = None ->
  while_loop template_step (S fuel) (pc1, pc2, sols) = Some None.
Proof.
  intros E1 E2 Hne Hm. cbn [while_loop]. unfold template_step at 1.
  assert (Hnil : bool_decide (pc1 = []) = false) by (apply bool_decide_eq_false; by intros ->).
  rewrite Hnil, E1, E2, (proj2 (Z.eqb_neq _ _) Hne), Hm. done.
Qed.

Lemma template_pubkeys fuel pc1 pc1' op1 v1 pc2 pc2' pc2'' op2 sols pcx opx vx solsx sols' :
  GetOp2 pc1 = (pc1', Some (op1, v1)) -> GetOp2 pc2 = (pc2', Some (opcode_value OP_PUBKEYS, [])) ->
  pubkeys_loop (S (length pc1')) pc1' op1 v1 sols = (pcx, opx, vx, solsx) ->
  GetOp2 pc2' = (pc2'', Some (op2, [])) -> match_op opx vx op2 [] solsx = Some sols' ->
  while_loop template_step (S fuel) (pc1, pc2, sols) = while_loop template_step fuel (pcx, pc2'', sols').
Proof.
  intros E1 E2 E3 E4 Hm. cbn [while_loop]. unfold template_step at 1.
  assert (Hnil : bool_decide (pc1 = []) = false) by (apply bool_decide_eq_false; by intros ->).
  rewrite Hnil, E1, E2, Z.eqb_refl, E3, E4, Hm. done.
Qed.

(** an opcode of the template that stands for itself *)
Lemma match_op_same (op : Z) sols : op <> OP_PUBKEY -> op <> OP_PUBKEYHASH -> op <> OP_SMALLINTEGER ->
  match_op op [] op [] sols = Some sols.
Proof.
  intros H1 H2 H3. apply Z.eqb_neq in H1, H2, H3. unfold match_op. by rewrite H1, H2, H3, Z.eqb_refl, bool_decide_true.
Qed.

Ltac op_range := cbv [opcode_value]; lia.

Lemma GetOp2_push20 h rest : length h = 20%nat -> GetOp2 (20 :: h ++ rest) = (rest, Some (20, h)).
Proof.
  intros Hh. pose proof (GetOp2_push h rest ltac:(rewrite Hh; lia)) as H. unfold push_prefix, push_op in H. rewrite Hh in H. exact H.
Qed.

(** the two scripts, byte by byte *)
Lemma p2pkh_bytes h : length h = 20%nat ->
  GetScriptForDestination (CKeyID h) = 0x76 :: 0xa9 :: 20 :: h ++ [0x88; 0xac].
Proof.
  intros Hh. unfold GetScriptForDestination, push_opcode, push_data, push_prefix. rewrite Hh. simpl. rewrite <- ?app_assoc. done.
Qed.

Lemma p2sh_bytes h : length h = 20%nat -> GetScriptForDestination (CScriptID h) = 0xa9 :: 20 :: h ++ [0x87].
Proof.
  intros Hh. unfold GetScriptForDestination, push_opcode, push_data, push_prefix. rewrite Hh. simpl. rewrite <- ?app_assoc. done.
Qed.

Lemma match_p2pkh h : length h = 20%nat ->
  match_template (0x76 :: 0xa9 :: 20 :: h ++ [0x88; 0xac]) (map opcode_value [OP_DUP; OP_HASH160; OP_PUBKEYHASH; OP_EQUALVERIFY; OP_CHECKSIG]) =
  Some [h].
Proof.
  intros Hh. unfold match_template. cbn [map length].
  erewrite template_next; [| apply GetOp2_op; op_range | apply GetOp2_op; op_range | op_range | apply match_op_same; op_range].
  erewrite template_next; [| apply GetOp2_op; op_range | apply GetOp2_op; op_range | op_range | apply match_op_same; op_range].
  erewrite template_next; [| by apply GetOp2_push20 | apply GetOp2_op; op_range | op_range | unfold match_op; rewrite Hh; reflexivity].
  erewrite template_next; [| apply GetOp2_op; op_range | apply GetOp2_op; op_range | op_range | apply match_op_same; op_range].
  erewrite template_next; [| apply GetOp2_op; op_range | apply GetOp2_op; op_range | op_range | apply match_op_same; op_range].
  done.
Qed.

(** a script whose first operation pushes nothing does not match the public key template *)
Lemma match_pubkey_none (op : Z) pc : OP_PUSHDATA4 < op -> op <> OP_BLKR_ASSET ->
  match_template (op :: pc) [opcode_value OP_PUBKEY; opcode_value OP_CHECKSIG] = None.
Proof.
  intros H1 H2. unfold match_template. cbn [length].
  erewrite template_break; [done | by apply GetOp2_op | apply GetOp2_op; op_range | op_range | done].
Qed.

Lemma Solver_p2pkh h : length h = 20%nat -> Solver (GetScriptForDestination (CKeyID h)) = Solution true (Some TX_PUBKEYHASH) [h].
Proof.
  intros Hh. rewrite p2pkh_bytes by done. set (s := 0x76 :: _).
  assert (Hlen : zlen s = 25) by (unfold s; cbn [length]; rewrite length_app, Hh; done).
  assert (E1 : IsPayToScriptHash s = false) by (unfold IsPayToScriptHash; by rewrite Hlen).
  assert (E2 : IsAssetScript s = None) by (unfold IsAssetScript; by rewrite Hlen).
  assert (E3 : IsWitnessProgram s = None) by (unfold IsWitnessProgram; by rewrite Hlen).
  assert (E4 : s !!! 0%nat = 0x76) by done.
  unfold Solver. rewrite E1, E2, E3, E4, Hlen. change (0x76 =? OP_RETURN) with false. change (0x76 =? OP_BLKR_ASSET) with false.
  cbn [andb Z.geb]. unfold mTemplates. cbn [scan_templates]. unfold s. rewrite match_pubkey_none by op_range. by rewrite match_p2pkh.
Qed.

Lemma subrange_app (a b c : list Z) n m : length a = n -> (m = n + length b)%nat -> subrange (a ++ b ++ c) n m = b.
Proof.
  intros <- ->. unfold subrange. rewrite drop_app_length. replace (length a + length b - length a)%nat with (length b) by lia.
  by rewrite take_app_length.
Qed.

Lemma p2sh_recognised h : length h = 20%nat -> IsPayToScriptHash (GetScriptForDestination (CScriptID h)) = true.
Proof.
  intros Hh. rewrite p2sh_bytes by done. unfold IsPayToScriptHash. cbn [length]. rewrite length_app, Hh.
  change ((0xa9 :: 20 :: h ++ [0x87]) !!! 22%nat) with ((h ++ [0x87]) !!! 20%nat).
  by rewrite lookup_total_app_r, Hh by lia.
Qed.

Lemma Solver_p2sh h : length h = 20%nat -> Solver (GetScriptForDestination (CScriptID h)) = Solution true (Some TX_SCRIPTHASH) [h].
Proof.
  intros Hh. unfold Solver. rewrite p2sh_recognised, p2sh_bytes by done.
  f_equal. f_equal. apply (subrange_app [0xa9; 20] h [0x87]); [done|]. by rewrite Hh.
Qed.

(** ** Public keys and multisignatures *)

Definition key_ok (key : valtype) : Prop := CPubKey_Set key = Some key.

Lemma key_ok_size key : key_ok key -> zlen key = 33 \/ zlen key = 65.
Proof. intros H. by apply CPubKey_Set_Some in H as [_ ?]. Qed.

Lemma push_prefix_key key : key_ok key -> push_prefix key = [zlen key] /\ push_op key = zlen key.
Proof.
  intros [H|H]%key_ok_size; unfold push_prefix, push_op; rewrite H; done.
Qed.

Lemma GetOp2_key key rest : key_ok key -> GetOp2 (zlen key :: key ++ rest) = (rest, Some (zlen key, key)).
Proof.
  intros Hk. destruct (push_prefix_key key Hk) as [E1 E2]. pose proof (key_ok_size key Hk).
  pose proof (GetOp2_push key rest ltac:(lia)) as H1. by rewrite E1, E2 in H1.
Qed.

Lemma raw_key_bytes key : key_ok key -> GetScriptForRawPubKey key = zlen key :: key ++ [0xac].
Proof.
  intros Hk. unfold GetScriptForRawPubKey, push_opcode, push_data. destruct (push_prefix_key key Hk) as [-> _]. simpl.
  by rewrite <- ?app_assoc.
Qed.

Lemma match_op_key key sols : key_ok key -> match_op (zlen key) key OP_PUBKEY [] sols = Some (sols ++ [key]).
Proof. intros [H|H]%key_ok_size; unfold match_op; rewrite H; done. Qed.

Lemma Solver_raw_key key : key_ok key -> IsAssetScript (GetScriptForRawPubKey key) = None ->
  Solver (GetScriptForRawPubKey key) = Solution true (Some TX_PUBKEY) [key].
Proof.
  intros Hk Ha. rewrite raw_key_bytes in * by done. set (s := zlen key :: _) in *.
  assert (Hlen : zlen s = zlen key + 2) by (unfold s; cbn [length]; rewrite length_app; simpl; lia).
  pose proof (key_ok_size key Hk) as Hsz.
  assert (E1 : IsPayToScriptHash s = false).
  { unfold IsPayToScriptHash. rewrite Hlen. by destruct Hsz as [-> | ->]. }
  assert (E4 : s !!! 0%nat = zlen key) by done.
  assert (E3 : IsWitnessProgram s = None).
  { unfold IsWitnessProgram. rewrite Hlen, E4. by destruct Hsz as [-> | ->]. }
  unfold Solver. rewrite E1, Ha, E3, E4, Hlen. replace (zlen key =? OP_RETURN) with false by (by destruct Hsz as [-> | ->]).
  replace (zlen key =? OP_BLKR_ASSET) with false by (by destruct Hsz as [-> | ->]). rewrite !andb_false_r. cbn [andb].
  unfold mTemplates. cbn [scan_templates]. unfold match_template. cbn [length].
  erewrite template_next; [| by apply GetOp2_key | apply GetOp2_op; op_range | op_range | by apply match_op_key].
  erewrite template_next; [| apply GetOp2_op; op_range | apply GetOp2_op; op_range | op_range | apply match_op_same; op_range].
  done.
Qed.

(** the keys of a multisignature script, each with its length *)
Definition key_pushes (keys : list valtype) : script_bytes := concat (map (fun k => zlen k :: k) keys).

Lemma foldl_push_keys keys s : Forall key_ok keys -> foldl push_data s keys = s ++ key_pushes keys.
Proof.
  intros H. revert s. induction H as [|k keys Hk _ IH]; intros s; simpl; [by rewrite app_nil_r|].
  rewrite IH. unfold push_data. destruct (push_prefix_key k Hk) as [-> _]. unfold key_pushes. simpl. by rewrite <- !app_assoc.
Qed.

Lemma EncodeOP_N_small n : 1 <= n <= 16 -> EncodeOP_N n = Some (80 + n).
Proof. intros Hn. unfold EncodeOP_N. rewrite Z.geb_leb, (proj2 (Z.leb_le 0 n)), (proj2 (Z.leb_le n 16)), (proj2 (Z.eqb_neq n 0)) by lia. cbn [andb negb]. f_equal. cbv [opcode_value]. lia. Qed.

Lemma multisig_bytes m keys : 1 <= m <= 16 -> 1 <= zlen keys <= 16 -> Forall key_ok keys ->
  GetScriptForMultisig m keys = Some ((80 + m) :: key_pushes keys ++ [80 + zlen keys; 0xae]).
Proof.
  intros Hm Hn Hk. unfold GetScriptForMultisig. rewrite !EncodeOP_N_small by done. cbn [mbind option_bind].
  rewrite foldl_push_keys by done. unfold push_opcode. simpl. by rewrite <- ?app_assoc.
Qed.

Lemma pubkeys_loop_spec keys : Forall key_ok keys -> forall fuel key op rest sols, key_ok key -> (length keys + 1 < fuel)%nat ->
  OP_PUSHDATA4 < op -> op <> OP_BLKR_ASSET ->
  pubkeys_loop fuel (key_pushes keys ++ op :: rest) (zlen key) key sols = (rest, op, [], sols ++ key :: keys).
Proof.
  intros H. induction H as [|k keys Hk _ IH]; intros fuel key op rest sols Hkey Hf Hop1 Hop2; (destruct fuel as [|fuel]; [lia|]);
    cbn [pubkeys_loop]; pose proof (key_ok_size key Hkey) as Hsz;
    replace ((zlen key >=? 33) && (zlen key <=? 65)) with true by (by destruct Hsz as [-> | ->]).
  - cbn [key_pushes map concat app]. rewrite GetOp2_op by done. destruct fuel as [|fuel]; [simpl in Hf; lia|]. done.
  - unfold key_pushes. cbn [map concat]. rewrite <- !app_assoc. cbn [app]. rewrite GetOp2_key by done.
    rewrite IH; [by rewrite <- app_assoc | done | simpl in Hf; lia | done | done].
Qed.

Lemma key_pushes_length keys : Forall key_ok keys -> 34 * zlen keys <= zlen (key_pushes keys).
Proof.
  induction 1 as [|k keys Hk _ IH]; [done|]. apply key_ok_size in Hk. unfold key_pushes in *. cbn [map concat length app].
  rewrite length_app. lia.
Qed.

Lemma multisig_not_witness m keys : 1 <= m <= 16 -> 1 <= zlen keys -> Forall key_ok keys ->
  IsWitnessProgram ((80 + m) :: key_pushes keys ++ [80 + zlen keys; 0xae]) = None.
Proof.
  intros Hm Hn Hk. destruct keys as [|k [|k' keys]]; [simpl in Hn; lia| |].
  - inversion Hk as [|? ? H1 _]; subst. apply key_ok_size in H1. unfold IsWitnessProgram, key_pushes. cbn [map concat].
    rewrite app_nil_r. cbn [length app]. rewrite length_app. cbn [length]. cbn [lookup_total list_lookup_total].
    destruct H1 as [H1|H1].
    + rewrite H1. replace (Z.of_nat (S (S (length k + 2)))) with 37 by lia. by case_ifs.
    + replace (Z.of_nat (S (S (length k + 2)))) with 69 by lia. done.
  - pose proof (key_pushes_length _ Hk) as Hl. set (ks := k :: k' :: keys) in *. assert (2 <= zlen ks) by (unfold ks; simpl; lia).
    unfold IsWitnessProgram. assert (Hlen : 42 < zlen ((80 + m) :: key_pushes ks ++ [80 + zlen ks; 0xae])).
    { clearbody ks. cbn [length]. rewrite length_app. cbn [length]. lia. }
    rewrite Z.gtb_ltb, (proj2 (Z.ltb_lt _ _) Hlen), orb_true_r. done.
Qed.

Lemma match_small n sols : 1 <= n <= 16 -> match_op (80 + n) [] OP_SMALLINTEGER [] sols = Some (sols ++ [[n]]).
Proof.
  intros Hn. unfold match_op. cbv [opcode_value]. cbn [Z.eqb Pos.eqb]. rewrite Z.geb_leb, (proj2 (Z.leb_le 81 (80 + n))), (proj2 (Z.leb_le (80 + n) 96)) by lia.
  rewrite andb_true_r, orb_true_r. unfold DecodeOP_N. cbv [opcode_value]. rewrite (proj2 (Z.eqb_neq (80 + n) 0)) by lia.
  rewrite Z.geb_leb, (proj2 (Z.leb_le 81 (80 + n))), (proj2 (Z.leb_le (80 + n) 96)) by lia. cbn [andb default]. by replace (80 + n - (81 - 1)) with n by lia.
Qed.

Lemma match_multisig m keys : 1 <= m <= 16 -> 1 <= zlen keys <= 16 -> Forall key_ok keys ->
  match_template ((80 + m) :: key_pushes keys ++ [80 + zlen keys; 0xae])
    (map opcode_value [OP_SMALLINTEGER; OP_PUBKEYS; OP_SMALLINTEGER; OP_CHECKMULTISIG]) =
  Some ([m] :: keys ++ [[zlen keys]]).
Proof.
  intros Hm Hn Hk. unfold match_template. cbn [map length].
  erewrite template_next; [| apply GetOp2_op; op_range | apply GetOp2_op; op_range | op_range | by apply match_small].
  destruct keys as [|k keys]; [simpl in Hn; lia|]. inversion Hk as [|? ? H1 Hk']; subst.
  replace (key_pushes (k :: keys) ++ [80 + zlen (k :: keys); 0xae]) with
    (zlen k :: k ++ key_pushes keys ++ [80 + zlen (k :: keys); 0xae]) by (unfold key_pushes; cbn [map concat app]; by rewrite <- app_assoc).
  erewrite template_pubkeys; [| by apply GetOp2_key | apply GetOp2_op; op_range | apply pubkeys_loop_spec | apply GetOp2_op; op_range | by apply match_small];
    [| done | done | | op_range | op_range].
  2:{ rewrite length_app. pose proof (key_pushes_length keys Hk'). simpl. lia. }
  erewrite template_next; [| apply GetOp2_op; op_range | apply GetOp2_op; op_range | op_range | apply match_op_same; op_range].
  done.
Qed.

Lemma match_p2pkh_none (op : Z) pc : OP_PUSHDATA4 < op -> op <> OP_BLKR_ASSET -> op <> OP_DUP ->
  match_template (op :: pc) (map opcode_value [OP_DUP; OP_HASH160; OP_PUBKEYHASH; OP_EQUALVERIFY; OP_CHECKSIG]) = None.
Proof.
  intros H1 H2 H3. unfold match_template. cbn [map length].
  erewrite template_break; [done | by apply GetOp2_op | apply GetOp2_op; op_range | op_range|].
  unfold match_op. apply Z.eqb_neq in H3. rewrite H3. done.
Qed.

Lemma Solver_multisig m keys s : GetScriptForMultisig m keys = Some s -> 1 <= m <= zlen keys -> zlen keys <= 16 ->
  Forall key_ok keys -> IsAssetScript s = None ->
  Solver s = Solution true (Some TX_MULTISIG) ([m] :: keys ++ [[zlen keys]]).
Proof.
  intros Es Hm Hn Hk Ha. rewrite multisig_bytes in Es by (done || lia). injection Es as <-.
  assert (E1 : IsPayToScriptHash ((80 + m) :: key_pushes keys ++ [80 + zlen keys; 0xae]) = false).
  { unfold IsPayToScriptHash. cbn [lookup_total list_lookup_total]. rewrite (proj2 (Z.eqb_neq (80 + m) OP_HASH160)) by op_range.
    by rewrite andb_false_r. }
  assert (E3 := multisig_not_witness m keys ltac:(lia) ltac:(lia) Hk).
  assert (E4 : ((80 + m) :: key_pushes keys ++ [80 + zlen keys; 0xae]) !!! 0%nat = 80 + m) by done.
  unfold Solver. rewrite E1, Ha, E3, E4. rewrite (proj2 (Z.eqb_neq (80 + m) OP_RETURN)), (proj2 (Z.eqb_neq (80 + m) OP_BLKR_ASSET)) by op_range.
  rewrite !andb_false_r. cbn [andb]. unfold mTemplates. cbn [scan_templates].
  rewrite match_pubkey_none, match_p2pkh_none, match_multisig by (done || lia || op_range).
  rewrite bool_decide_true by done. cbn [head default]. rewrite last_cons, last_snoc. cbn [default lookup_total list_lookup_total].
  change (id [m] !!! 0%nat) with m. change (id [zlen keys] !!! 0%nat) with (zlen keys).
  cbn [length]. rewrite length_app. cbn [length].
  rewrite (proj2 (Z.ltb_ge m 1)), (proj2 (Z.ltb_ge (zlen keys) 1)), Z.gtb_ltb, (proj2 (Z.ltb_ge (zlen keys) m)), (proj2 (Z.eqb_eq _ _)) by lia.
  done.
Qed.

(** ** Properties *)

(** The script built for a destination, a public key or an [m]-of-[n] list of keys
    is recognised as what it is: the destination, the key's hash, and the required
    number with the keys' hashes come back from it.  (A script with keys must not
    carry the asset marker at the fixed offset where it is looked for.) *)
Theorem standard_scripts_recognised (hashes : ScriptHashes) h key m keys s :
  length h = 20%nat -> key_ok key -> IsAssetScript (GetScriptForRawPubKey key) = None ->
  GetScriptForMultisig m keys = Some s -> 1 <= m <= zlen keys -> zlen keys <= 16 -> Forall key_ok keys -> IsAssetScript s = None ->
  ExtractDestination (GetScriptForDestination (CKeyID h)) = Some (Some (CKeyID h)) /\
  ExtractDestination (GetScriptForDestination (CScriptID h)) = Some (Some (CScriptID h)) /\
  ExtractDestination (GetScriptForRawPubKey key) = Some (Some (CKeyID (Hash160 key))) /\
  ExtractDestinations s = Some (Some (TX_MULTISIG, map (fun k => CKeyID (Hash160 k)) keys, m)).
Proof.
  intros Hh Hkey Ha Es Hm Hn Hk Has. unfold ExtractDestinations, ExtractDestination.
  rewrite Solver_p2pkh, Solver_p2sh, Solver_raw_key, (Solver_multisig m keys s) by done.
  cbn [solved negb typeRet vSolutionsRet]. cbn [lookup list_lookup mbind option_bind]. unfold uint160. rewrite Hh.
  split; [done|]. split; [done|]. split; [by rewrite Hkey|].
  change (drop 1 ([m] :: keys ++ [[zlen keys]])) with (keys ++ [[zlen keys]]).
  cbn [length]. rewrite length_app. cbn [length]. replace (S (length keys + 1) - 2)%nat with (length keys) by lia.
  rewrite take_app_length. cbn [head default]. change (id [m] !!! 0%nat) with m.
  assert (E : omap (fun v => (fun key => CKeyID (Hash160 key)) <$> CPubKey_Set v) keys = map (fun k => CKeyID (Hash160 k)) keys).
  { clear Es Hm Hn Has. induction Hk as [|k keys Hk' _ IH]; [done|]. cbn. rewrite Hk'. cbn. by f_equal. }
  rewrite E, bool_decide_false; [done|]. destruct keys; [simpl in Hm; lia|done].
Qed.

Definition sample_key (b : Z) : valtype := 2 :: replicate 32 b.

Lemma sample_key_ok b : key_ok (sample_key b).
Proof. done. Qed.

Lemma standard_scripts_recognised_witness :
  @ExtractDestination sample_hashes (GetScriptForDestination (CKeyID (replicate 20 7))) = Some (Some (CKeyID (replicate 20 7))) /\
  @ExtractDestination sample_hashes (GetScriptForDestination (CScriptID (replicate 20 7))) = Some (Some (CScriptID (replicate 20 7))) /\
  @ExtractDestination sample_hashes (GetScriptForRawPubKey (sample_key 5)) = Some (Some (CKeyID (@Hash160 sample_hashes (sample_key 5)))) /\
  @ExtractDestinations sample_hashes (default [] (GetScriptForMultisig 2 [sample_key 1; sample_key 2; sample_key 3])) =
    Some (Some (TX_MULTISIG, map (fun k => CKeyID (@Hash160 sample_hashes k)) [sample_key 1; sample_key 2; sample_key 3], 2)).
Proof.
  apply (standard_scripts_recognised sample_hashes (replicate 20 7) (sample_key 5) 2 [sample_key 1; sample_key 2; sample_key 3]);
    try (vm_compute; reflexivity); try (cbn; lia); try done. repeat constructor.
Defined.
