(* ===== verification/Spend.v ===== *)
(** * Spending the standard outputs

    The interpreter of Interpreter.v run on the scripts that Standard.v builds:
    pay-to-public-key-hash outputs, the same with asset data behind the script, and
    the "future" outputs of [createrawtransaction]. *)

From S2P Require Import Prelude Opcodes ScriptNum Script Interpreter InterpreterSafety Transaction Sighash Standard.
Import Script.

(** ** Running a script step by step *)

Section Steps.
Context {hashes : ScriptHashes} {lows : LowSCheck} {checker : BaseSignatureChecker}.
Context (flags : Z) (sv : SigVersion).

(** the rest of an evaluation *)
Definition eval_from (pc : script_bytes) (st : exec_state) : result (list valtype) :=
  default Diverge (while_loop (eval_step flags sv) (S (length pc)) (pc, st)).

Lemma eval_step_shorter pc st pc' st' : eval_step flags sv (pc, st) = inl (pc', st') -> (length pc' < length pc)%nat.
Proof.
  unfold eval_step. destruct pc as [|o pc]; [done|]. destruct (GetOp2 (o :: pc)) as [rest [[op d]|]] eqn:E; [|done].
  apply GetOp2_shorter in E. destruct (exec_instruction _ _ _ _ _ _); try done. by intros [= <- _].
Qed.

Lemma eval_total pc st : exists r, while_loop (eval_step flags sv) (S (length pc)) (pc, st) = Some r.
Proof.
  destruct (while_total (eval_step flags sv) (fun _ => True) (fun x => length x.1) (fun _ => True)) with
    (fuel := S (length pc)) (s := (pc, st)) as (r & Hr & _); [| done | done | simpl; lia | eauto].
  intros [p s] [p' s'] _ E. split; [done|]. by apply eval_step_shorter in E.
Qed.

Lemma eval_from_op pc pc' op d st : GetOp2 pc = (pc', Some (op, d)) ->
  eval_from pc st =
  match exec_instruction flags sv op d pc' st with
  | Ok st' => eval_from pc' st'
  | Err e => Err e
  | Throw _ => Err SCRIPT_ERR_UNKNOWN_ERROR
  | Abort => Abort
  | Diverge => Diverge
  end.
Proof.
  intros E. pose proof (GetOp2_shorter _ _ _ _ E) as Hlt. unfold eval_from at 1. cbn [while_loop]. unfold eval_step at 1.
  destruct pc as [|o pc]; [done|]. rewrite E. destruct (exec_instruction flags sv op d pc' st) as [st'| | | |]; try done.
  destruct (eval_total pc' st') as [r Hr]. unfold eval_from. rewrite Hr.
  by rewrite (while_fuel _ _ (length (o :: pc)) _ _ Hr) by lia.
Qed.

Lemma eval_from_nil st : vfExec st = [] -> eval_from [] st = Ok (stack st).
Proof. intros E. unfold eval_from. cbn. by rewrite E. Qed.

(** data a script can push and that is pushed minimally by [operator<<] *)
Definition data_ok (d : valtype) : Prop := zlen d <> 1 /\ zlen d <= MAX_SCRIPT_ELEMENT_SIZE.

Lemma CheckMinimalPush_push d : data_ok d -> CheckMinimalPush d (push_op d) = true.
Proof.
  intros [H1 H2]. unfold MAX_SCRIPT_ELEMENT_SIZE in H2. unfold CheckMinimalPush, push_op. rewrite (proj2 (Z.eqb_neq (zlen d) 1)) by done. cbn [andb].
  change (opcode_value OP_PUSHDATA1) with 76. change (opcode_value OP_PUSHDATA2) with 77. change (opcode_value OP_0) with 0.
  destruct (Z.ltb_spec (zlen d) 76); [|destruct (Z.leb_spec (zlen d) 255)].
  - destruct (Z.eqb_spec (zlen d) 0); [done|]. rewrite (proj2 (Z.leb_le (zlen d) 75)) by lia. apply Z.eqb_refl.
  - rewrite (proj2 (Z.eqb_neq (zlen d) 0)), (proj2 (Z.leb_gt (zlen d) 75)) by lia. done.
  - rewrite (proj2 (Z.eqb_neq (zlen d) 0)), (proj2 (Z.leb_gt (zlen d) 75)), (proj2 (Z.leb_le (zlen d) 65535)) by lia. done.
Qed.

(** small stacks and counts, so that the limits are not met *)
Definition roomy (st : exec_state) : Prop :=
  vfExec st = [] /\ zlen (stack st) + zlen (altstack st) <= 100 /\ 0 <= nOpCount st <= 100.

Lemma exec_push d pc st : roomy st -> data_ok d ->
  exec_instruction flags sv (push_op d) d pc st = Ok (set_stack st (d :: stack st)).
Proof.
  intros (Hv & Hs & Hc) Hd. pose proof (CheckMinimalPush_push d Hd) as Hm. destruct Hd as [Hd1 Hd2].
  assert (Hop : 0 <= push_op d <= 78).
  { unfold push_op. change (opcode_value OP_PUSHDATA1) with 76. change (opcode_value OP_PUSHDATA2) with 77.
    change (opcode_value OP_PUSHDATA4) with 78. case_ifs; bool_to_prop; lia. }
  unfold exec_instruction. rewrite Hv. cbn [forallb]. rewrite guard_pass by (rewrite Z.gtb_ltb; apply Z.ltb_ge; lia).
  replace (push_op d >? OP_16) with false by (symmetry; rewrite Z.gtb_ltb; apply Z.ltb_ge; cbv [opcode_value]; lia).
  cbn [andb]. rewrite guard_pass by done.
  assert (Hdis : is_disabled (push_op d) = false).
  { unfold is_disabled. destruct (opcode_of (push_op d)) as [o|] eqn:E; [|done]. apply opcode_of_Some in E; [|unfold is_u8; lia].
    destruct o; try done; cbv [opcode_value] in E; lia. }
  rewrite guard_pass by done.
  rewrite (proj2 (Z.leb_le 0 (push_op d))), (proj2 (Z.leb_le (push_op d) OP_PUSHDATA4)) by (cbv [opcode_value]; lia). cbn [andb].
  rewrite Hm. cbn [negb]. rewrite andb_false_r.
  assert (E : set_count st (stack st, nOpCount st) = st) by (by destruct st). rewrite E.
  cbn [fail_if]. rewrite (bind_Ok _ (set_stack st (d :: stack st))) by done.
  rewrite guard_pass; [done|]. cbn [set_stack stack altstack length]. rewrite Z.gtb_ltb. apply Z.ltb_ge. unfold MAX_STACK_SIZE. lia.
Qed.

(** an operation without data, at its opcode *)
Lemma exec_plain (op : Z) pc st : roomy st -> OP_16 < op -> is_disabled op = false ->
  exec_instruction flags sv op [] pc st =
  (st ← exec_op flags sv op true pc (set_count st (stack st, nOpCount st + 1));
   fail_if (zlen (stack st) + zlen (altstack st) >? MAX_STACK_SIZE) SCRIPT_ERR_STACK_SIZE;; Ok st).
Proof.
  intros (Hv & Hs & Hc) Hop Hdis. unfold exec_instruction. rewrite Hv. cbn [forallb]. rewrite guard_pass by done.
  replace (op >? OP_16) with true by (symmetry; rewrite Z.gtb_ltb; by apply Z.ltb_lt). cbn [andb].
  rewrite guard_pass by (rewrite Z.gtb_ltb; apply Z.ltb_ge; unfold MAX_OPS_PER_SCRIPT; lia). rewrite guard_pass by done.
  rewrite (proj2 (Z.leb_gt op OP_PUSHDATA4)) by (revert Hop; cbv [opcode_value]; lia). rewrite andb_false_r. done.
Qed.

(** the operation when it succeeds and leaves a small stack *)
Lemma exec_plain_ok (op : Z) pc st st' : roomy st -> OP_16 < op -> is_disabled op = false ->
  exec_op flags sv op true pc (set_count st (stack st, nOpCount st + 1)) = Ok st' ->
  zlen (stack st') + zlen (altstack st') <= 100 ->
  exec_instruction flags sv op [] pc st = Ok st'.
Proof.
  intros Hr Hop Hdis He Hs. rewrite exec_plain by done. rewrite (bind_Ok _ st') by done. rewrite guard_pass; [done|].
  rewrite Z.gtb_ltb. apply Z.ltb_ge. unfold MAX_STACK_SIZE. lia.
Qed.

Lemma EvalScript_from s script : zlen script <= MAX_SCRIPT_SIZE ->
  EvalScript flags sv s script = eval_from script (ExecState s [] [] 0 script).
Proof. intros H. unfold EvalScript. by rewrite Z.gtb_ltb, (proj2 (Z.ltb_ge _ _)) by lia. Qed.

(** ** Pay to public key hash *)

(** what may stand behind the script: nothing, or asset data to the end *)
Definition asset_suffix (suffix : script_bytes) : Prop :=
  suffix = [] \/ exists data, suffix = opcode_value OP_BLKR_ASSET :: data /\ zlen data <= MAX_SCRIPT_ELEMENT_SIZE.

Lemma eval_suffix suffix st : asset_suffix suffix -> roomy st -> eval_from suffix st = Ok (stack st).
Proof.
  intros Hsuf Hr. pose proof Hr as (Hv & Hs & Hc). destruct Hsuf as [->|(data & -> & Hd)]; [by apply eval_from_nil|].
  rewrite (eval_from_op _ [] (opcode_value OP_BLKR_ASSET) data) by done.
  assert (E : exec_instruction flags sv OP_BLKR_ASSET data [] st = Ok (set_count st (stack st, nOpCount st + 1))).
  { unfold exec_instruction. rewrite Hv. cbn [forallb]. rewrite guard_pass by (rewrite Z.gtb_ltb; apply Z.ltb_ge; lia).
    change (OP_BLKR_ASSET >? OP_16) with true. cbn [andb].
    rewrite guard_pass by (rewrite Z.gtb_ltb; apply Z.ltb_ge; unfold MAX_OPS_PER_SCRIPT; lia). rewrite guard_pass by done.
    change (OP_BLKR_ASSET <=? OP_PUSHDATA4) with false. rewrite andb_false_r. cbn [orb].
    rewrite (bind_Ok _ (set_count st (stack st, nOpCount st + 1))) by done. rewrite guard_pass; [done|].
    rewrite Z.gtb_ltb. apply Z.ltb_ge. unfold MAX_STACK_SIZE. cbn [set_count stack altstack fst]. lia. }
  rewrite E, eval_from_nil by done. done.
Qed.

(** what [OP_CHECKSIG] leaves, and when *)
Lemma exec_checksig_Ok code key sig rest l : exec_checksig flags sv OP_CHECKSIG code (key :: sig :: rest) = Ok l <->
  CheckSignatureEncoding sig flags = Ok tt /\ CheckPubKeyEncoding key flags sv = Ok tt /\
  let ok := CheckSig sig key (if bool_decide (sv = SIGVERSION_BASE) then (FindAndDelete code (push_data [] sig)).1 else code) sv in
  negb ok && has flags SCRIPT_VERIFY_NULLFAIL && negb (zlen sig =? 0) = false /\ l = of_bool ok :: rest.
Proof.
  unfold exec_checksig. cbv zeta. destruct (CheckSignatureEncoding sig flags) as [[]| | | |]; try (split; [done|by intros [? _]]).
  cbn [mbind result_bind]. destruct (CheckPubKeyEncoding key flags sv) as [[]| | | |]; try (split; [done|by intros (_ & ? & _)]).
  cbn [mbind result_bind]. set (ok := CheckSig _ _ _ _). destruct (negb ok && _ && _); cbn [fail_if mbind result_bind].
  - split; [done|]. by intros (_ & _ & ? & _).
  - rewrite bool_decide_false by done. split; [intros [= <-]; done | by intros (_ & _ & _ & ->)].
Qed.

(** the script run on a key and a signature *)
Lemma eval_p2pkh h suffix sig key : length h = 20%nat -> asset_suffix suffix ->
  let script := GetScriptForDestination (CKeyID h) ++ suffix in
  EvalScript flags sv [key; sig] script =
  if bool_decide (Hash160 key = h) then
    match exec_checksig flags sv OP_CHECKSIG script [key; sig] with
    | Throw _ => Err SCRIPT_ERR_UNKNOWN_ERROR
    | r => r
    end
  else Err SCRIPT_ERR_EQUALVERIFY.
Proof.
  intros Hh Hsuf. cbv zeta. rewrite p2pkh_bytes by done. set (script := (_ :: _ :: _) ++ suffix).
  assert (Es : script = 0x76 :: 0xa9 :: 20 :: h ++ 0x88 :: 0xac :: suffix) by (unfold script; simpl; by rewrite <- app_assoc).
  rewrite EvalScript_from.
  2:{ rewrite Es. cbn [length]. rewrite length_app. cbn [length]. unfold MAX_SCRIPT_SIZE. rewrite Hh.
      destruct Hsuf as [->|(data & -> & Hd)]; unfold MAX_SCRIPT_ELEMENT_SIZE in *; simpl; lia. }
  rewrite Es at 1.
  assert (Hrm : forall l n, (length l <= 4)%nat -> 0 <= n <= 100 -> roomy (ExecState l [] [] n script))
    by (intros l n Hl Hn; unfold roomy; simpl; split; [done|lia]).
  rewrite (eval_from_op _ (0xa9 :: 20 :: h ++ 0x88 :: 0xac :: suffix) 0x76 []) by (apply GetOp2_op; op_range).
  rewrite (exec_plain_ok 0x76 _ _ (ExecState [key; key; sig] [] [] 1 script)) by (done || apply Hrm; simpl; lia).
  rewrite (eval_from_op _ (20 :: h ++ 0x88 :: 0xac :: suffix) 0xa9 []) by (apply GetOp2_op; op_range).
  rewrite (exec_plain_ok 0xa9 _ _ (ExecState [Hash160 key; key; sig] [] [] 2 script)) by (done || apply Hrm; simpl; lia).
  rewrite (eval_from_op _ (0x88 :: 0xac :: suffix) 20 h) by (by apply GetOp2_push20).
  replace 20 with (push_op h) by (unfold push_op; by rewrite Hh).
  rewrite exec_push; [| apply Hrm; simpl; lia | unfold data_ok, MAX_SCRIPT_ELEMENT_SIZE; rewrite Hh; lia].
  rewrite (eval_from_op _ (0xac :: suffix) 0x88 []) by (apply GetOp2_op; op_range).
  destruct (decide (Hash160 key = h)) as [E|E].
  - rewrite bool_decide_true by done.
    rewrite (exec_plain_ok 0x88 _ _ (ExecState [key; sig] [] [] 3 script)).
    2: apply Hrm; simpl; lia. 2: done. 2: done. 3: simpl; lia.
    2:{ change (exec_op flags sv 0x88 true (0xac :: suffix) ?x) with (set_stack x <$> exec_equal OP_EQUALVERIFY (stack x)).
        unfold exec_equal. cbn [stack set_stack set_count fst].
        change (bool_decide (OP_EQUALVERIFY = OP_EQUALVERIFY)) with true. by rewrite E, bool_decide_true. }
    rewrite (eval_from_op _ suffix 0xac []) by (apply GetOp2_op; op_range).
    rewrite exec_plain by (done || apply Hrm; simpl; lia).
    change (exec_op flags sv 0xac true suffix ?x) with (set_stack x <$> exec_checksig flags sv OP_CHECKSIG (pbegincodehash x) (stack x)).
    cbn [stack set_count fst pbegincodehash]. destruct (exec_checksig flags sv OP_CHECKSIG script [key; sig]) as [l|e| | |] eqn:Ec; try done.
    pose proof (proj1 (exec_checksig_Ok _ _ _ _ _) Ec) as (_ & _ & _ & ->). cbn [fmap result_map]. rewrite (bind_Ok _ _ _ eq_refl).
    rewrite guard_pass by done. by rewrite eval_suffix.
  - rewrite bool_decide_false by done. rewrite exec_plain by (done || apply Hrm; simpl; lia).
    change (exec_op flags sv 0x88 true (0xac :: suffix) ?x) with (set_stack x <$> exec_equal OP_EQUALVERIFY (stack x)).
    unfold exec_equal. cbn [stack set_stack set_count fst].
    change (bool_decide (OP_EQUALVERIFY = OP_EQUALVERIFY)) with true. by rewrite bool_decide_false.
Qed.

(** the input script pushes the signature and the key *)
Definition sig_script (sig key : valtype) : script_bytes := push_data (push_data [] sig) key.

Lemma sig_script_bytes sig key : sig_script sig key = push_prefix sig ++ sig ++ push_prefix key ++ key ++ [].
Proof. unfold sig_script, push_data. rewrite app_nil_r. simpl. by rewrite <- !app_assoc. Qed.

Lemma eval_sig_script sig key : data_ok sig -> data_ok key ->
  EvalScript flags sv [] (sig_script sig key) = Ok [key; sig] /\ IsPushOnly (sig_script sig key) = true.
Proof.
  intros Hs Hk. pose proof Hs as [_ Hs2]. pose proof Hk as [_ Hk2]. unfold MAX_SCRIPT_ELEMENT_SIZE in *.
  assert (Hpre : forall d, zlen d <= 520 -> zlen (push_prefix d) <= 5 /\ push_op d <= 78 /\ push_prefix d <> []).
  { intros d Hd. unfold push_prefix, push_op. change (opcode_value OP_PUSHDATA1) with 76. change (opcode_value OP_PUSHDATA2) with 77.
    change (opcode_value OP_PUSHDATA4) with 78. case_ifs; bool_to_prop; simpl; split; try split; try done; lia. }
  destruct (Hpre sig Hs2) as (Ls & Os & Ns). destruct (Hpre key Hk2) as (Lk & Ok' & Nk).
  pose proof (GetOp2_push sig (push_prefix key ++ key ++ []) ltac:(lia)) as G1. pose proof (GetOp2_push key [] ltac:(lia)) as G2.
  rewrite sig_script_bytes. split.
  - rewrite EvalScript_from by (rewrite !length_app; unfold MAX_SCRIPT_SIZE; simpl; lia). set (st := ExecState [] [] [] 0 _).
    rewrite (eval_from_op _ _ _ _ _ G1), exec_push by first [done | unfold roomy; simpl; split; [done|lia]].
    rewrite (eval_from_op _ _ _ _ _ G2), exec_push by first [done | unfold roomy; simpl; split; [done|lia]].
    by rewrite eval_from_nil.
  - unfold IsPushOnly. rewrite run_ops_unfold. destruct (push_prefix sig ++ sig ++ push_prefix key ++ key ++ []) as [|o s] eqn:E1; [by destruct (push_prefix sig)|].
    rewrite G1. replace (push_op sig >? OP_16) with false by (symmetry; rewrite Z.gtb_ltb; apply Z.ltb_ge; op_range).
    rewrite run_ops_unfold. destruct (push_prefix key ++ key ++ []) as [|o' s'] eqn:E2; [by destruct (push_prefix key)|].
    rewrite G2. replace (push_op key >? OP_16) with false by (symmetry; rewrite Z.gtb_ltb; apply Z.ltb_ge; op_range).
    by rewrite run_ops_unfold.
Qed.
End Steps.

(** ** Properties *)

Lemma p2pkh_not_special h suffix : length h = 20%nat ->
  IsWitnessProgram (GetScriptForDestination (CKeyID h) ++ suffix) = None /\
  IsPayToScriptHash (GetScriptForDestination (CKeyID h) ++ suffix) = false.
Proof.
  intros Hh. rewrite p2pkh_bytes by done. cbn [app]. split.
  - unfold IsWitnessProgram. destruct (_ || _); [done|]. done.
  - unfold IsPayToScriptHash. cbn [lookup_total list_lookup_total]. change (0x76 =? OP_HASH160) with false. by rewrite andb_false_r.
Qed.

(** C36: a pay-to-public-key-hash output, bare or with asset data behind it, is spent by
    a signature and a key exactly when the key hashes to the output's hash, both are
    encoded as the flags demand, and the signature checks against the whole script;
    asset data do not change who can spend. *)
Theorem p2pkh_spend (hashes : ScriptHashes) (lows : LowSCheck) (checker : BaseSignatureChecker) flags h suffix sig key :
  flags_ok flags -> length h = 20%nat -> asset_suffix suffix -> data_ok sig -> data_ok key ->
  let script := GetScriptForDestination (CKeyID h) ++ suffix in
  VerifyScript flags (sig_script sig key) script [] = Ok tt <->
  Hash160 key = h /\ CheckSignatureEncoding sig flags = Ok tt /\ CheckPubKeyEncoding key flags SIGVERSION_BASE = Ok tt /\
  CheckSig sig key (FindAndDelete script (push_data [] sig)).1 SIGVERSION_BASE = true.
Proof.
  intros [Hf1 Hf2] Hh Hsuf Hs Hk script. destruct (eval_sig_script flags SIGVERSION_BASE sig key Hs Hk) as [E1 Epush].
  destruct (p2pkh_not_special h suffix Hh) as [Ew Ep]. fold script in Ew, Ep.
  unfold VerifyScript. rewrite Epush, andb_false_r, guard_pass, E1, (bind_Ok _ _ _ eq_refl) by done.
  pose proof (eval_p2pkh flags SIGVERSION_BASE h suffix sig key Hh Hsuf) as Ee. cbv zeta in Ee. fold script in Ee. rewrite Ee.
  destruct (decide (Hash160 key = h)) as [E|E]; [rewrite bool_decide_true by done | rewrite bool_decide_false by done; split; [done|by intros [? _]]].
  pose proof (exec_checksig_Ok flags SIGVERSION_BASE script key sig []) as Hck. rewrite bool_decide_true in Hck by done. cbv zeta in Hck.
  set (code := (FindAndDelete script (push_data [] sig)).1) in *. split.
  - destruct (exec_checksig flags SIGVERSION_BASE OP_CHECKSIG script [key; sig]) as [l| | | |] eqn:Ec; try done.
    destruct (proj1 (Hck l) eq_refl) as (C1 & C2 & _ & ->). cbn [mbind result_bind].
    destruct (CheckSig sig key code SIGVERSION_BASE); [done|]. done.
  - intros (_ & C1 & C2 & C3). rewrite (proj2 (Hck (of_bool true :: []))); [|rewrite C3; done].
    cbn [mbind result_bind check_top of_bool]. unfold verify_bare_witness. rewrite Ew, Ep, andb_false_r.
    destruct (has flags SCRIPT_VERIFY_WITNESS) eqn:Fw; cbn; unfold verify_end; rewrite ?Fw; cbn.
    + rewrite Hf2 by done. by destruct (has flags SCRIPT_VERIFY_CLEANSTACK).
    + destruct (has flags SCRIPT_VERIFY_CLEANSTACK) eqn:Fc; [|done]. by specialize (Hf1 eq_refl).
Qed.

Lemma p2pkh_spend_witness :
  let h := @Hash160 sample_hashes (sample_key 5) in
  let script := GetScriptForDestination (CKeyID h) ++ [0xc0; 1; 2; 3] in
  @VerifyScript sample_hashes sample_lows sample_checker 0 (sig_script [9; 1] (sample_key 5)) script [] = Ok tt <->
  @Hash160 sample_hashes (sample_key 5) = h /\ @CheckSignatureEncoding sample_lows [9; 1] 0 = Ok tt /\
  CheckPubKeyEncoding (sample_key 5) 0 SIGVERSION_BASE = Ok tt /\
  @CheckSig sample_checker [9; 1] (sample_key 5) (FindAndDelete script (push_data [] [9; 1])).1 SIGVERSION_BASE = true.
Proof.
  apply (p2pkh_spend sample_hashes sample_lows sample_checker 0 (@Hash160 sample_hashes (sample_key 5)) [0xc0; 1; 2; 3] [9; 1] (sample_key 5)).
  - done.
  - apply RIPEMD160_size.
  - right. exists [1; 2; 3]. done.
  - done.
  - done.
Defined.

(** ** Future outputs *)

Section Future.
Context {hashes : ScriptHashes} {lows : LowSCheck} {checker : BaseSignatureChecker}.
Context (flags : Z) (sv : SigVersion).

Lemma eval_from_inv pc pc' op d st s' : GetOp2 pc = (pc', Some (op, d)) -> eval_from flags sv pc st = Ok s' ->
  exists st', exec_instruction flags sv op d pc' st = Ok st' /\ eval_from flags sv pc' st' = Ok s'.
Proof. intros E. rewrite (eval_from_op _ _ _ _ _ _ _ E). destruct (exec_instruction _ _ _ _ _ _); try done. eauto. Qed.

(** only the conditionals change [vfExec] *)
Lemma exec_op_vf op fExec pc st st' : ~ (99 <= op <= 104) -> is_u8 op -> exec_op flags sv op fExec pc st = Ok st' -> vfExec st' = vfExec st.
Proof.
  intros Hop Hu. unfold exec_op. destruct (opcode_of op) as [o|] eqn:E; [|done]. apply opcode_of_Some in E; [|done].
  assert (Hmap : forall A (f : exec_state -> A -> exec_state) (r : result A), (forall a, vfExec (f st a) = vfExec st) ->
    f st <$> r = Ok st' -> vfExec st' = vfExec st) by (intros A f [a| | | |] Hf; try done; intros [= <-]; apply Hf).
  assert (Hnop : forall b e, (fail_if b e;; Ok st) = Ok st' -> vfExec st' = vfExec st) by (intros [] e; [done|]; by intros [= <-]).
  destruct o; try done; try (intros [= <-]; done); try apply Hnop; try (by apply Hmap); cbv [opcode_value] in E; lia.
Qed.

Lemma exec_instruction_vf op d pc st st' : ~ (99 <= op <= 104) -> is_u8 op -> exec_instruction flags sv op d pc st = Ok st' ->
  vfExec st' = vfExec st.
Proof.
  intros Hop Hu. unfold exec_instruction. destruct (fail_if _ SCRIPT_ERR_PUSH_SIZE); try done. cbn [mbind result_bind].
  destruct (fail_if _ SCRIPT_ERR_OP_COUNT); try done. cbn [mbind result_bind]. destruct (fail_if _ SCRIPT_ERR_DISABLED_OPCODE); try done.
  cbn [mbind result_bind]. set (st0 := set_count st _).
  intros E. match type of E with ?r ≫= ?k = _ => assert (Er : r = Ok st') end.
  { match type of E with ?r ≫= ?k = _ => destruct r as [x| | | |] eqn:Ex end; try done. cbn [mbind result_bind] in E.
    destruct (fail_if _ _) in E; done. }
  clear E. destruct (forallb id (vfExec st) && (0 <=? op) && (op <=? OP_PUSHDATA4)).
  - destruct (fail_if _ SCRIPT_ERR_MINIMALDATA); try done. cbn [mbind result_bind] in Er. by injection Er as <-.
  - destruct (_ || _); [|by injection Er as <-]. by apply exec_op_vf in Er.
Qed.

(** a push on a machine that executes *)
Lemma exec_push_inv op d pc st st' : 0 <= op <= 78 -> vfExec st = [] -> exec_instruction flags sv op d pc st = Ok st' ->
  stack st' = d :: stack st /\ vfExec st' = [].
Proof.
  intros Hop Hv. unfold exec_instruction. rewrite Hv. cbn [forallb].
  destruct (fail_if _ SCRIPT_ERR_PUSH_SIZE); try done. cbn [mbind result_bind].
  destruct (fail_if _ SCRIPT_ERR_OP_COUNT); try done. cbn [mbind result_bind]. destruct (fail_if _ SCRIPT_ERR_DISABLED_OPCODE); try done.
  cbn [mbind result_bind]. rewrite (proj2 (Z.leb_le 0 op)), (proj2 (Z.leb_le op OP_PUSHDATA4)) by (cbv [opcode_value]; lia). cbn [andb].
  destruct (fail_if _ SCRIPT_ERR_MINIMALDATA); try done. cbn [mbind result_bind]. destruct (fail_if _ SCRIPT_ERR_STACK_SIZE); try done.
  cbn [mbind result_bind]. intros [= <-]. done.
Qed.

(** an operation on a machine that executes *)
Lemma exec_plain_inv op d pc st st' : 78 < op -> vfExec st = [] -> exec_instruction flags sv op d pc st = Ok st' ->
  exists n, exec_op flags sv op true pc (set_count st (stack st, n)) = Ok st'.
Proof.
  intros Hop Hv. unfold exec_instruction. rewrite Hv. cbn [forallb].
  destruct (fail_if _ SCRIPT_ERR_PUSH_SIZE); try done. cbn [mbind result_bind].
  destruct (fail_if _ SCRIPT_ERR_OP_COUNT); try done. cbn [mbind result_bind]. destruct (fail_if _ SCRIPT_ERR_DISABLED_OPCODE); try done.
  cbn [mbind result_bind]. rewrite (proj2 (Z.leb_gt op OP_PUSHDATA4)) by (cbv [opcode_value]; lia). rewrite andb_false_r. cbn [orb].
  set (n := if op >? OP_16 then _ else _). intros E. exists n. destruct (exec_op _ _ _ _ _ _) as [x| | | |]; try done.
  cbn [mbind result_bind] in E. by destruct (fail_if _ _) in E.
Qed.

Lemma EvalScript_from_inv s script s' : EvalScript flags sv s script = Ok s' ->
  eval_from flags sv script (ExecState s [] [] 0 script) = Ok s'.
Proof. unfold EvalScript. by destruct (zlen script >? MAX_SCRIPT_SIZE). Qed.

Lemma future_bytes h height : length h = 20%nat ->
  GetFutureScriptForDestination (CKeyID h) height = push_item [] (ItemInt height) ++ 0xb2 :: 0x75 :: 20 :: h ++ [0xac].
Proof.
  intros Hh. unfold GetFutureScriptForDestination, push_opcode, push_data, push_prefix. rewrite Hh. cbn [push_item].
  by rewrite <- !app_assoc.
Qed.

(** the check on a "key" of twenty bytes fails, whatever the stack *)
Lemma eval_future h height s s' : length h = 20%nat -> - 2 ^ 31 <= height < 2 ^ 31 ->
  (forall sig code, CheckSig sig h code sv = false) ->
  EvalScript flags sv s (GetFutureScriptForDestination (CKeyID h) height) = Ok s' -> exists rest, s' = [] :: rest.
Proof.
  intros Hh Hn Hsig E. apply EvalScript_from_inv in E. rewrite future_bytes in E at 1 by done.
  set (st := ExecState _ _ _ _ _) in E. assert (V : vfExec st = []) by done. clearbody st.
  eapply eval_from_inv in E as (st1 & X1 & E); [|rewrite (GetOp2_item (ItemInt height)) by (simpl; lia); by rewrite <- surjective_pairing].
  apply exec_instruction_vf in X1; [| |].
  2,3: unfold is_u8; simpl; destruct (_ || _) eqn:B; simpl; [apply orb_true_iff in B as [B|B]; bool_to_prop; lia|].
  2,3: pose proof (serialize_length height 5 ltac:(lia) ltac:(lia)); simpl in *; lia.
  eapply eval_from_inv in E as (st2 & X2 & E); [|apply GetOp2_op; op_range]. apply exec_instruction_vf in X2; [|lia|unfold is_u8; lia].
  eapply eval_from_inv in E as (st3 & X3 & E); [|apply GetOp2_op; op_range]. apply exec_instruction_vf in X3; [|lia|unfold is_u8; lia].
  eapply eval_from_inv in E as (st4 & X4 & E); [|by apply GetOp2_push20]. apply exec_push_inv in X4 as [S4 V4]; [|lia|congruence].
  eapply eval_from_inv in E as (st5 & X5 & E); [|apply GetOp2_op; op_range]. pose proof X5 as V5. apply exec_instruction_vf in V5; [|lia|unfold is_u8; lia].
  apply exec_plain_inv in X5 as [n X5]; [|lia|done].
  rewrite eval_from_nil in E by congruence. injection E as <-.
  change (exec_op flags sv 0xac true [] ?x) with (set_stack x <$> exec_checksig flags sv OP_CHECKSIG (pbegincodehash x) (stack x)) in X5.
  cbn [stack set_count fst] in X5. rewrite S4 in X5. destruct (stack st3) as [|sig rest]; [done|].
  destruct (exec_checksig _ _ _ _ _) as [l| | | |] eqn:C in X5; try done. injection X5 as <-.
  apply exec_checksig_Ok in C as (_ & _ & _ & ->). rewrite Hsig. by exists rest.
Qed.

(** a script-hash output that evaluates to true was given a preimage of its hash *)
Lemma eval_p2sh h s s' : length h = 20%nat -> EvalScript flags sv s (GetScriptForDestination (CScriptID h)) = Ok s' ->
  check_top s' = Ok tt -> exists top rest, s = top :: rest /\ Hash160 top = h.
Proof.
  intros Hh E Ht. apply EvalScript_from_inv in E. rewrite p2sh_bytes in E at 1 by done. set (st := ExecState _ _ _ _ _) in E.
  eapply eval_from_inv in E as (st1 & X1 & E); [|apply GetOp2_op; op_range]. pose proof X1 as V1. apply exec_instruction_vf in V1; [|lia|unfold is_u8; lia].
  apply exec_plain_inv in X1 as [n X1]; [|lia|done].
  change (exec_op flags sv 0xa9 true (20 :: h ++ [0x87]) ?x) with (set_stack x <$> exec_hash OP_HASH160 (stack x)) in X1.
  cbn [stack set_count fst st] in X1. destruct s as [|top rest]; [done|]. injection X1 as S1.
  eapply eval_from_inv in E as (st2 & X2 & E); [|by apply GetOp2_push20]. apply exec_push_inv in X2 as [S2 V2]; [|lia|by rewrite V1].
  eapply eval_from_inv in E as (st3 & X3 & E); [|apply GetOp2_op; op_range]. pose proof X3 as V3. apply exec_instruction_vf in V3; [|lia|unfold is_u8; lia].
  apply exec_plain_inv in X3 as [m X3]; [|lia|done]. rewrite eval_from_nil in E by congruence. injection E as <-.
  change (exec_op flags sv 0x87 true [] ?x) with (set_stack x <$> exec_equal OP_EQUAL (stack x)) in X3.
  cbn [stack set_count fst] in X3. rewrite S2, <- S1 in X3. cbn [stack set_stack] in X3. unfold exec_equal in X3.
  change (bool_decide (OP_EQUAL = OP_EQUALVERIFY)) with false in X3. injection X3 as <-. exists top, rest. split; [done|].
  destruct (decide (Hash160 top = h)) as [|Hne]; [done|]. cbn [stack set_stack] in Ht. by rewrite bool_decide_false in Ht by done.
Qed.
End Future.

(** An output of [createrawtransaction] with a [future_block] cannot be spent. Its
    redeem script, from [GetFutureScriptForDestination], hands [OP_CHECKSIG] the twenty
    bytes of a key hash, which no signature satisfies: run on any stack it ends with
    false on top; so whoever spends the pay-to-script-hash output shows another script
    with the same [Hash160], a collision. *)
Theorem future_script_unspendable (hashes : ScriptHashes) (lows : LowSCheck) (pk : PubKeyVerify) tx n amount txdata flags h height :
  length h = 20%nat -> - 2 ^ 31 <= height < 2 ^ 31 -> has flags SCRIPT_VERIFY_P2SH = true ->
  let checker := TransactionSignatureChecker tx n amount txdata in
  let redeem := GetFutureScriptForDestination (CKeyID h) height in
  (forall sv s s', @EvalScript hashes lows checker flags sv s redeem = Ok s' -> exists rest, s' = [] :: rest) /\
  (forall scriptSig witness,
    @VerifyScript hashes lows checker flags scriptSig (GetScriptForDestination (CScriptID (Hash160 redeem))) witness = Ok tt ->
    exists other, other <> redeem /\ Hash160 other = Hash160 redeem).
Proof.
  intros Hh Hn Hp checker redeem.
  assert (Hev : forall sv s s', @EvalScript hashes lows checker flags sv s redeem = Ok s' -> exists rest, s' = [] :: rest).
  { intros sv s s'. apply eval_future; [done|done|]. intros sig code. cbn [CheckSig checker TransactionSignatureChecker].
    unfold TransactionCheckSig. destruct (CPubKey_Set h) eqn:E; [|done]. apply CPubKey_Set_Some in E as [_ E]. rewrite Hh in E. lia. }
  split; [done|]. intros scriptSig witness. unfold VerifyScript. destruct (fail_if _ _) as [[]| | | |]; try done. cbn [mbind result_bind].
  destruct (EvalScript flags SIGVERSION_BASE [] scriptSig) as [s0| | | |]; try done. cbn [mbind result_bind].
  destruct (EvalScript _ _ s0 _) as [s1| | | |] eqn:E1; try done. cbn [mbind result_bind].
  destruct (check_top s1) as [[]| | | |] eqn:Et; try done. cbn [mbind result_bind].
  assert (Hlen : length (Hash160 redeem) = 20%nat) by apply RIPEMD160_size.
  destruct (eval_p2sh flags SIGVERSION_BASE _ _ _ Hlen E1 Et) as (top & rest & -> & Htop).
  destruct (verify_bare_witness _ _ _ _ _) as [[s2 w]| | | |]; try done. cbn [mbind result_bind].
  rewrite Hp, (p2sh_recognised _ Hlen). cbn [andb]. unfold verify_p2sh. destruct (fail_if (negb (IsPushOnly scriptSig)) _) as [[]| | | |]; try done. cbn [mbind result_bind].
  intros E. exists top. split; [|done]. intros ->. destruct (EvalScript _ _ rest redeem) as [s3| | | |] eqn:E3; try done.
  destruct (Hev _ _ _ E3) as [r ->]. done.
Qed.

Lemma future_script_unspendable_witness :
  let checker := @TransactionSignatureChecker sample_hashes sample_verify sample_tx 0 9 None in
  let redeem := GetFutureScriptForDestination (CKeyID (repeat 7 20)) 1000 in
  (forall sv s s', @EvalScript sample_hashes sample_lows checker SCRIPT_VERIFY_P2SH sv s redeem = Ok s' -> exists rest, s' = [] :: rest) /\
  (forall scriptSig witness,
    @VerifyScript sample_hashes sample_lows checker SCRIPT_VERIFY_P2SH scriptSig
      (GetScriptForDestination (CScriptID (@Hash160 sample_hashes redeem))) witness = Ok tt ->
    exists other, other <> redeem /\ @Hash160 sample_hashes other = @Hash160 sample_hashes redeem).
Proof.
  apply (future_script_unspendable sample_hashes sample_lows sample_verify sample_tx 0 9 None SCRIPT_VERIFY_P2SH (repeat 7 20) 1000); done.
Defined.
