(* ===== verification/Merkle.v ===== *)
(** * Merkle trees

    The constant-space computation of Merkle roots and branches of
    consensus/merkle.cpp: leaves are absorbed one by one into an array of subtree
    hashes, indexed by the level of the subtree like the bits of a binary counter; a
    final sweep up the right edge duplicates what is missing.  The reference is the
    tree built level by level.  The theorems: the computation returns the root of the
    tree and the branch of a leaf, and a list of leaves that is not reported as
    mutated is the only one with its root. *)

From S2P Require Import Prelude Opcodes ScriptNum Script Interpreter Transaction Sighash.

Section Merkle.
Context `{ScriptHashes}.

(** [CHash256().Write(a, 32).Write(b, 32).Finalize(...)] *)
Definition hash_pair (a b : uint256) : uint256 := Hash256 (a ++ b).

(** what the loops carry up the tree: the hash, whether it depends on the leaf the
    branch is for, the mutation flag, the branch *)
Record walk := Walk {
  w_h : uint256;
  w_matchh : bool;
  w_mutated : bool;
  w_branch : list uint256;
}.

(** one turn of the loops below: the hash is the right half of a node, [left] the
    stored left half; only the first loop looks for equal halves ([check]) *)
Definition combine (check pbranch : bool) (matchlevel : Z) (level : nat) (left : uint256) (w : walk) : walk :=
  let '(matchh, branch) :=
    if pbranch then
      if w_matchh w then (true, w_branch w ++ [left])
      else if matchlevel =? Z.of_nat level then (true, w_branch w ++ [w_h w])
      else (w_matchh w, w_branch w)
    else (w_matchh w, w_branch w) in
  Walk (hash_pair left (w_h w)) matchh (w_mutated w || (check && bool_decide (left = w_h w))) branch.

(** the two loops [while (!(count & (1 << level)))] that combine the hash with the
    stored subtrees; [None] is an access outside [inner] *)
Fixpoint climb (fuel : nat) (check pbranch : bool) (count : Z) (inner : list uint256) (matchlevel : Z)
    (level : nat) (w : walk) : option (nat * walk) :=
  match fuel with
  | O => None
  | S fuel =>
      if Z.testbit count (Z.of_nat level) then Some (level, w)
      else
        left ← inner !! level;
        climb fuel check pbranch count inner matchlevel (S level) (combine check pbranch matchlevel level left w)
  end.

(** the leaves still to be processed; [count] is the number of leaves processed, so
    the head of the list is [leaves[count]] *)
Fixpoint absorb (pbranch : bool) (branchpos : Z) (rest : list uint256) (count : Z) (inner : list uint256)
    (matchlevel : Z) (mutated : bool) (branch : list uint256) : option (list uint256 * Z * bool * list uint256) :=
  match rest with
  | [] => Some (inner, matchlevel, mutated, branch)
  | h :: rest =>
      let matchh := count =? branchpos in
      let count := u32 (count + 1) in
      p ← climb 33 true pbranch count inner matchlevel 0 (Walk h matchh mutated branch);
      let '(level, w) := (p : nat * walk) in
      let inner := <[level := w_h w]> inner in
      let matchlevel := if w_matchh w then Z.of_nat level else matchlevel in
      absorb pbranch branchpos rest count inner matchlevel (w_mutated w) (w_branch w)
  end.

(** [while (!(count & (1 << level))) level++] *)
Fixpoint lowest_level (fuel : nat) (count : Z) (level : nat) : option nat :=
  match fuel with
  | O => None
  | S fuel => if Z.testbit count (Z.of_nat level) then Some level else lowest_level fuel count (S level)
  end.

(** the sweep over the right edge of the tree *)
Fixpoint sweep (fuel : nat) (pbranch : bool) (count : Z) (inner : list uint256) (matchlevel : Z) (level : nat)
    (w : walk) : option walk :=
  match fuel with
  | O => None
  | S fuel =>
      if count =? Z.shiftl 1 (Z.of_nat level) then Some w
      else
        let branch := if pbranch && w_matchh w then w_branch w ++ [w_h w] else w_branch w in
        let w := Walk (hash_pair (w_h w) (w_h w)) (w_matchh w) (w_mutated w) branch in
        let count := u32 (count + Z.shiftl 1 (Z.of_nat level)) in
        p ← climb 33 false pbranch count inner matchlevel (S level) w;
        let '(level, w) := (p : nat * walk) in
        sweep fuel pbranch count inner matchlevel level w
  end.

(** [MerkleComputation(leaves, proot, pmutated, branchpos, pbranch)]: the root, the
    mutation flag and the branch (which is collected when [pbranch] is not null) *)
Definition MerkleComputation (leaves : list uint256) (branchpos : Z) (pbranch : bool)
    : option (uint256 * bool * list uint256) :=
  match leaves with
  | [] => Some (uint256_zero, false, [])
  | _ =>
      p ← absorb pbranch branchpos leaves 0 (replicate 32 uint256_zero) (-1) false [];
      let '(inner, matchlevel, mutated, branch) := (p : list uint256 * Z * bool * list uint256) in
      let count := u32 (zlen leaves) in
      level ← lowest_level 33 count 0;
      h ← inner !! level;
      w ← sweep 33 pbranch count inner matchlevel level (Walk h (matchlevel =? Z.of_nat level) mutated branch);
      Some (w_h w, w_mutated w, w_branch w)
  end.

(** [ComputeMerkleRoot(leaves, mutated)] *)
Definition ComputeMerkleRoot (leaves : list uint256) : option (uint256 * bool) :=
  '(root, mutated, _) ← MerkleComputation leaves (u32 (-1)) false; Some (root, mutated).

(** [ComputeMerkleBranch(leaves, position)] *)
Definition ComputeMerkleBranch (leaves : list uint256) (position : Z) : option (list uint256) :=
  '(_, _, branch) ← MerkleComputation leaves position true; Some branch.

(** [ComputeMerkleRootFromBranch(leaf, vMerkleBranch, nIndex)] *)
Fixpoint ComputeMerkleRootFromBranch (hash : uint256) (vMerkleBranch : list uint256) (nIndex : Z) : uint256 :=
  match vMerkleBranch with
  | [] => hash
  | it :: rest =>
      let hash := if Z.testbit nIndex 0 then hash_pair it hash else hash_pair hash it in
      ComputeMerkleRootFromBranch hash rest (Z.shiftr nIndex 1)
  end.

(** [BlockMerkleRoot(block, mutated)], [BlockWitnessMerkleRoot(block, mutated)] and
    [BlockMerkleBranch(block, position)] on the transactions of a block; the second
    writes to [leaves[0]], which an empty block does not have *)
Definition BlockMerkleRoot (vtx : list CTransaction) : option (uint256 * bool) := ComputeMerkleRoot (map GetHash vtx).
Definition BlockWitnessMerkleRoot (vtx : list CTransaction) : option (uint256 * bool) :=
  match vtx with
  | [] => None
  | _ :: vtx => ComputeMerkleRoot (uint256_zero :: map GetWitnessHash vtx)
  end.
Definition BlockMerkleBranch (vtx : list CTransaction) (position : Z) : option (list uint256) :=
  ComputeMerkleBranch (map GetHash vtx) position.
End Merkle.

(** ** The tree

    A tree of [2^n] places over at most so many leaves: a node whose right half is
    empty repeats its left half. *)

Section Tree.
Context `{ScriptHashes}.

Fixpoint tree (n : nat) (l : list uint256) : uint256 :=
  match n with
  | O => default uint256_zero (head l)
  | S m =>
      if (length l <=? 2 ^ m)%nat then hash_pair (tree m l) (tree m l)
      else hash_pair (tree m (take (2 ^ m) l)) (tree m (drop (2 ^ m) l))
  end.

(** two equal halves somewhere in a complete subtree *)
Fixpoint repeats (n : nat) (l : list uint256) : bool :=
  match n with
  | O => false
  | S m =>
      if (length l <=? 2 ^ m)%nat then repeats m l
      else repeats m (take (2 ^ m) l) || repeats m (drop (2 ^ m) l) ||
           ((length l =? 2 ^ S m)%nat && bool_decide (tree m (take (2 ^ m) l) = tree m (drop (2 ^ m) l)))
  end.

(** the siblings on the way from leaf [p] to the root, from the leaf up *)
Fixpoint path (n : nat) (l : list uint256) (p : nat) : list uint256 :=
  match n with
  | O => []
  | S m =>
      if (length l <=? 2 ^ m)%nat then path m l p ++ [tree m l]
      else if (p <? 2 ^ m)%nat then path m (take (2 ^ m) l) p ++ [tree m (drop (2 ^ m) l)]
      else path m (drop (2 ^ m) l) (p - 2 ^ m) ++ [tree m (take (2 ^ m) l)]
  end.

(** the depth of the tree over [n] leaves *)
Definition depth (n : nat) : nat := Nat.log2_up n.

(** the leaves [a], ..., [a + n - 1] *)
Definition slice {A} (l : list A) (a n : nat) : list A := take n (drop a l).

Lemma slice_length {A} (l : list A) a n : length (slice l a n) = (n `min` (length l - a))%nat.
Proof. unfold slice. by rewrite length_take, length_drop. Qed.

Lemma slice_halves {A} (l : list A) a n : take n (slice l a (n + n)) = slice l a n /\ drop n (slice l a (n + n)) = slice l (a + n) n.
Proof.
  unfold slice. split; [rewrite take_take; f_equal; lia|].
  rewrite skipn_firstn_comm, drop_drop. f_equal. lia.
Qed.

Lemma slice_all {A} (l : list A) a n : (length l <= a + n)%nat -> slice l a n = drop a l.
Proof. intros Hn. unfold slice. apply take_ge. rewrite length_drop. lia. Qed.

Lemma pow2_S n : (2 ^ S n = 2 ^ n + 2 ^ n)%nat.
Proof. simpl. lia. Qed.

Lemma pow2_pos n : (0 < 2 ^ n)%nat.
Proof. induction n; simpl; lia. Qed.

(** a node with both halves *)
Lemma tree_node l a k : (a + 2 ^ k < length l)%nat ->
  tree (S k) (slice l a (2 ^ S k)) = hash_pair (tree k (slice l a (2 ^ k))) (tree k (slice l (a + 2 ^ k) (2 ^ k))).
Proof.
  intros Hl. cbn [tree]. rewrite pow2_S. destruct (slice_halves l a (2 ^ k)) as [-> ->].
  pose proof (pow2_pos k). rewrite (proj2 (Nat.leb_gt _ _)); [done|]. rewrite slice_length. lia.
Qed.

Lemma repeats_node l a k : (a + 2 ^ k < length l)%nat ->
  repeats (S k) (slice l a (2 ^ S k)) =
  repeats k (slice l a (2 ^ k)) || repeats k (slice l (a + 2 ^ k) (2 ^ k)) ||
  ((a + 2 ^ S k <=? length l)%nat && bool_decide (tree k (slice l a (2 ^ k)) = tree k (slice l (a + 2 ^ k) (2 ^ k)))).
Proof.
  intros Hl. cbn [repeats]. rewrite !pow2_S. destruct (slice_halves l a (2 ^ k)) as [-> ->].
  pose proof (pow2_pos k). rewrite (proj2 (Nat.leb_gt _ _)) by (rewrite slice_length; lia). rewrite slice_length.
  f_equal. f_equal. destruct (Nat.leb_spec (a + (2 ^ k + 2 ^ k)) (length l)); [apply Nat.eqb_eq | apply Nat.eqb_neq]; lia.
Qed.

Lemma path_node l a k p : (a + 2 ^ k < length l)%nat ->
  path (S k) (slice l a (2 ^ S k)) p =
  if (p <? 2 ^ k)%nat then path k (slice l a (2 ^ k)) p ++ [tree k (slice l (a + 2 ^ k) (2 ^ k))]
  else path k (slice l (a + 2 ^ k) (2 ^ k)) (p - 2 ^ k) ++ [tree k (slice l a (2 ^ k))].
Proof.
  intros Hl. cbn [path]. rewrite pow2_S. destruct (slice_halves l a (2 ^ k)) as [-> ->].
  pose proof (pow2_pos k). rewrite (proj2 (Nat.leb_gt _ _)); [done|]. rewrite slice_length. lia.
Qed.

(** a node without a right half *)
Lemma slice_pad {A} (l : list A) a k : (length l <= a + 2 ^ k)%nat -> slice l a (2 ^ S k) = slice l a (2 ^ k).
Proof. intros Hl. rewrite !slice_all by (rewrite ?pow2_S; lia). done. Qed.

Lemma pad_node l a k p : (length l <= a + 2 ^ k)%nat ->
  tree (S k) (slice l a (2 ^ S k)) = hash_pair (tree k (slice l a (2 ^ k))) (tree k (slice l a (2 ^ k))) /\
  repeats (S k) (slice l a (2 ^ S k)) = repeats k (slice l a (2 ^ k)) /\
  path (S k) (slice l a (2 ^ S k)) p = path k (slice l a (2 ^ k)) p ++ [tree k (slice l a (2 ^ k))].
Proof.
  intros Hl. rewrite slice_pad by done. cbn [tree repeats path].
  rewrite (proj2 (Nat.leb_le _ _)); [done|]. rewrite slice_length. lia.
Qed.
End Tree.

(** ** The counter

    [bit_at c k r]: bit [k] of [c] is set and [r] is what is above it, so the binary
    counter [c] holds the subtree of [2^k] leaves from [r * 2^(k+1)] on. *)

Definition bit_at (c k r : nat) : Prop := ((2 * r + 1) * 2 ^ k <= c < (2 * r + 2) * 2 ^ k)%nat.

Lemma testbit_count q i : Z.testbit (Z.of_nat (q * 2 ^ i)) (Z.of_nat i) = Nat.odd q.
Proof.
  rewrite Nat2Z.inj_mul, Nat2Z.inj_pow. rewrite Z.mul_pow2_bits by lia. rewrite Z.sub_diag, Z.bit0_odd.
  symmetry. apply Bool.eq_iff_eq_true. rewrite Nat.odd_spec, Z.odd_spec. split; intros [m E]; [exists (Z.of_nat m) | exists (Z.to_nat m)]; lia.
Qed.

Lemma pow2_split i k : (i < k)%nat -> exists m, (0 < m /\ 2 ^ k = 2 * m * 2 ^ i)%nat.
Proof.
  intros Hik. exists (2 ^ (k - i - 1))%nat. split; [apply pow2_pos|].
  replace k with (i + (1 + (k - i - 1)))%nat at 1 by lia. rewrite !Nat.pow_add_r. simpl. lia.
Qed.

(** the bits after a carry that ends at bit [i] *)
Lemma bit_at_carry c c' i r k r' : c' = ((2 * r + 1) * 2 ^ i)%nat -> (c' - 2 ^ i <= c < c')%nat ->
  bit_at c' k r' <-> (k = i /\ r' = r) \/ ((i < k)%nat /\ bit_at c k r').
Proof.
  intros -> Hc. unfold bit_at. pose proof (pow2_pos i) as Hi. pose proof (pow2_pos k) as Hk.
  destruct (Nat.lt_trichotomy k i) as [Hlt|[->|Hlt]].
  - destruct (pow2_split k i Hlt) as (m & Hm & E). rewrite E in *. split; [|lia].
    intros [B1 B2]. exfalso. replace ((2 * r + 1) * (2 * m * 2 ^ k))%nat with ((2 * (2 * r * m + m)) * 2 ^ k)%nat in * by lia.
    apply Nat.mul_le_mono_pos_r in B1; [|done]. apply Nat.mul_lt_mono_pos_r in B2; [|done]. lia.
  - split.
    + intros [B1 B2]. left. apply Nat.mul_le_mono_pos_r in B1; [|done]. apply Nat.mul_lt_mono_pos_r in B2; [|done]. lia.
    + intros [[_ ->]|[? _]]; [|lia]. nia.
  - destruct (pow2_split i k Hlt) as (m & Hm & E). rewrite E in *.
    replace ((2 * r' + 1) * (2 * m * 2 ^ i))%nat with ((2 * (2 * r' * m + m)) * 2 ^ i)%nat by lia.
    replace ((2 * r' + 2) * (2 * m * 2 ^ i))%nat with ((2 * (2 * r' * m + 2 * m)) * 2 ^ i)%nat by lia.
    set (x := (2 * r' * m + m)%nat) in *. set (y := (2 * r' * m + 2 * m)%nat) in *. split.
    + intros [B1 B2]. right. split; [done|]. apply Nat.mul_le_mono_pos_r in B1; [|done]. apply Nat.mul_lt_mono_pos_r in B2; [|done]. nia.
    + intros [[-> _]|[_ [B1 B2]]]; [lia|].
      assert ((2 * x) * 2 ^ i < (2 * r + 1) * 2 ^ i)%nat as B1' by lia. apply Nat.mul_lt_mono_pos_r in B1'; [|done].
      assert ((2 * r) * 2 ^ i < (2 * y) * 2 ^ i)%nat as B2' by nia. apply Nat.mul_lt_mono_pos_r in B2'; [|done]. nia.
Qed.

(** the bit the carry meets *)
Lemma bit_at_met c c' i r : c' = ((2 * S r) * 2 ^ i)%nat -> (c' - 2 ^ i <= c < c')%nat -> bit_at c i r.
Proof. intros -> Hc. unfold bit_at. nia. Qed.

Lemma bit_at_unique c k r r' : bit_at c k r -> bit_at c k r' -> r = r'.
Proof. unfold bit_at. pose proof (pow2_pos k). nia. Qed.

(** ** The loops against the tree *)

Section Computation.
Context `{ScriptHashes} (leaves : list uint256) (pbranch : bool) (pos : nat).

(** the subtree the counter keeps for a bit *)
Definition block (k r : nat) : list uint256 := slice leaves (r * 2 ^ S k) (2 ^ k).

(** the subtrees for the bits from [i] on: their hashes are stored, one of them has a
    repetition, one of them holds the leaf of the branch *)
Definition stored (i c : nat) (inner : list uint256) : Prop :=
  forall k r, (i <= k)%nat -> bit_at c k r -> inner !! k = Some (tree k (block k r)).
Definition repetition (i c : nat) : Prop := exists k r, (i <= k)%nat /\ bit_at c k r /\ repeats k (block k r) = true.
Definition found (i c : nat) (matchlevel : Z) (branch : list uint256) : Prop := exists k r,
  (i <= k)%nat /\ bit_at c k r /\ (r * 2 ^ S k <= pos < r * 2 ^ S k + 2 ^ k)%nat /\
  matchlevel = Z.of_nat k /\ branch = path k (block k r) (pos - r * 2 ^ S k).

(** the hash carried to bit [i] of the counter on its way from [c] to [c'] *)
Definition carried (c' i : nat) : list uint256 := slice leaves (c' - 2 ^ i) (2 ^ i).

Definition branch_ok (c c' : nat) (matchlevel : Z) (i : nat) (w : walk) : Prop :=
  if w_matchh w then (c' - 2 ^ i <= pos < c')%nat /\ w_branch w = path i (carried c' i) (pos - (c' - 2 ^ i))
  else ((pos < c' - 2 ^ i)%nat /\ found i c matchlevel (w_branch w)) \/ ((c' <= pos)%nat /\ matchlevel = -1 /\ w_branch w = []).

Record climb_ok (c c' : nat) (matchlevel : Z) (i : nat) (w : walk) : Prop := {
  climb_h : w_h w = tree i (carried c' i);
  climb_mutated : w_mutated w = true <-> repetition i c \/ repeats i (carried c' i) = true;
  climb_branch : pbranch = true -> branch_ok c c' matchlevel i w;
}.

(** the subtree that is met is the left half of the node *)
Lemma carried_met c' i r : c' = ((2 * S r) * 2 ^ i)%nat -> (c' - 2 ^ i < length leaves)%nat ->
  tree (S i) (carried c' (S i)) = hash_pair (tree i (block i r)) (tree i (carried c' i)) /\
  repeats (S i) (carried c' (S i)) = repeats i (block i r) || repeats i (carried c' i) ||
    ((c' <=? length leaves)%nat && bool_decide (tree i (block i r) = tree i (carried c' i))) /\
  forall p, path (S i) (carried c' (S i)) p =
    if (p <? 2 ^ i)%nat then path i (block i r) p ++ [tree i (carried c' i)] else path i (carried c' i) (p - 2 ^ i) ++ [tree i (block i r)].
Proof.
  intros Hc' Hl. unfold carried, block. pose proof (pow2_S i) as Hp.
  assert (E : (c' - 2 ^ S i = r * 2 ^ S i)%nat) by (rewrite Hp in *; nia). rewrite E.
  assert (E' : (c' - 2 ^ i = r * 2 ^ S i + 2 ^ i)%nat) by (rewrite Hp in *; nia). rewrite E' in *.
  split; [|split].
  - by apply tree_node.
  - rewrite repeats_node by done. do 3 f_equal. pose proof (pow2_pos i). nia.
  - intros p. by apply path_node.
Qed.

Lemma repetition_split c i r : bit_at c i r -> repetition i c <-> repeats i (block i r) = true \/ repetition (S i) c.
Proof.
  intros Hbit. split.
  - intros (k & r' & Hk & Hb & Hr). destruct (decide (k = i)) as [->|Hne].
    + left. by rewrite (bit_at_unique _ _ _ _ Hbit Hb).
    + right. exists k, r'. split; [lia | done].
  - intros [Hr|(k & r' & Hk & Hb & Hr)]; [exists i, r | exists k, r']; (split; [lia | done]).
Qed.

(** the subtrees above the one that is met end before it *)
Lemma block_end c c' i r k r' : c' = ((2 * S r) * 2 ^ i)%nat -> (c < c')%nat -> (S i <= k)%nat -> bit_at c k r' ->
  (r' * 2 ^ S k + 2 ^ k <= c' - 2 ^ S i)%nat.
Proof.
  intros -> Hc Hk [B _]. replace k with (S i + (k - S i))%nat in * by lia. set (m := (k - S i)%nat) in *.
  rewrite pow2_S, Nat.pow_add_r in *. rewrite (pow2_S i) in *. pose proof (pow2_pos i). pose proof (pow2_pos m).
  set (P := (2 ^ i)%nat) in *. set (M := (2 ^ m)%nat) in *. clearbody P M.
  assert ((2 * r' + 1) * M * (P + P) < S r * (P + P))%nat as B' by lia. apply Nat.mul_lt_mono_pos_r in B'; [|lia].
  assert (Hle : ((2 * r' + 1) * M * (P + P) <= r * (P + P))%nat) by (apply Nat.mul_le_mono_r; lia). lia.
Qed.

Lemma combine_branch_ok c c' matchlevel i r w : c' = ((2 * S r) * 2 ^ i)%nat -> (c' - 2 ^ i <= c < c')%nat ->
  (c' - 2 ^ i < length leaves)%nat -> w_h w = tree i (carried c' i) -> branch_ok c c' matchlevel i w ->
  branch_ok c c' matchlevel (S i) (combine (c' <=? length leaves)%nat true matchlevel i (tree i (block i r)) w).
Proof.
  intros Hc' Hc Hl Hh Hb. pose proof (bit_at_met _ _ _ _ Hc' Hc) as Hbit.
  destruct (carried_met c' i r Hc' Hl) as (_ & _ & Ep). pose proof (pow2_S i) as Hp. pose proof (pow2_pos i).
  assert (E : (c' - 2 ^ S i = r * 2 ^ S i)%nat) by (rewrite Hp in *; nia).
  assert (E' : (c' - 2 ^ i = r * 2 ^ S i + 2 ^ i)%nat) by (rewrite Hp in *; nia).
  unfold branch_ok in *. unfold combine. destruct (w_matchh w) eqn:Em; cbn [w_matchh w_branch].
  - destruct Hb as [Hpos ->]. split; [lia|]. rewrite Ep, (proj2 (Nat.ltb_ge _ _)) by lia. do 2 f_equal. lia.
  - destruct Hb as [[Hpos (k & r' & Hk & Hb & Hin & Hml & Hbr)]|(Hpos & -> & Hbr)].
    + destruct (Z.eqb_spec matchlevel (Z.of_nat i)) as [Heq|Hne]; cbn [w_matchh w_branch].
      * assert (k = i) as -> by lia. assert (r' = r) as -> by (by eapply bit_at_unique). split; [lia|].
        rewrite Ep, (proj2 (Nat.ltb_lt _ _)), Hbr, Hh, E by lia. done.
      * left. assert (S i <= k)%nat as Hk' by (destruct (decide (k = i)); subst; lia).
        pose proof (block_end c c' i r k r' Hc' ltac:(lia) Hk' Hb). split; [lia|].
        exists k, r'. done.
    + rewrite (proj2 (Z.eqb_neq (-1) (Z.of_nat i))) by lia. cbn [w_matchh w_branch]. by right.
Qed.

Lemma combine_ok c c' matchlevel i r w : c' = ((2 * S r) * 2 ^ i)%nat -> (c' - 2 ^ i <= c < c')%nat ->
  (c' - 2 ^ i < length leaves)%nat -> climb_ok c c' matchlevel i w ->
  climb_ok c c' matchlevel (S i) (combine (c' <=? length leaves)%nat pbranch matchlevel i (tree i (block i r)) w).
Proof.
  intros Hc' Hc Hl [Hh Hm Hb]. pose proof (bit_at_met _ _ _ _ Hc' Hc) as Hbit.
  destruct (carried_met c' i r Hc' Hl) as (Et & Er & _). split.
  - rewrite Et, <- Hh. unfold combine. by case_ifs.
  - assert (Em : w_mutated (combine (c' <=? length leaves)%nat pbranch matchlevel i (tree i (block i r)) w) =
      w_mutated w || ((c' <=? length leaves)%nat && bool_decide (tree i (block i r) = tree i (carried c' i))))
      by (rewrite <- Hh; unfold combine; by case_ifs).
    rewrite Em, Er, !orb_true_iff, Hm, (repetition_split c i r Hbit). tauto.
  - intros ->. by apply combine_branch_ok; auto.
Qed.

(** the loop ends at the lowest bit of [c'] *)
Lemma climb_spec fuel c c' inner matchlevel i q w : c' = (q * 2 ^ i)%nat -> (0 < q)%nat -> (c' - 2 ^ i <= c < c')%nat ->
  (c' - 2 ^ i < length leaves)%nat -> Z.of_nat c' < 2 ^ 32 -> (33 <= fuel + i)%nat -> stored i c inner ->
  climb_ok c c' matchlevel i w ->
  exists i' r w', climb fuel (c' <=? length leaves)%nat pbranch (Z.of_nat c') inner matchlevel i w = Some (i', w') /\
    (i <= i')%nat /\ c' = ((2 * r + 1) * 2 ^ i')%nat /\ climb_ok c c' matchlevel i' w'.
Proof.
  revert i q w. induction fuel as [|fuel IH]; intros i q w Hq Hpos Hc Hl Hmax Hfuel Hs Hok.
  - exfalso. assert (2 ^ 33 <= 2 ^ Z.of_nat i) by (apply Z.pow_le_mono_r; lia).
    pose proof (Nat2Z.inj_pow 2 i) as E. assert (2 ^ i <= c')%nat by nia. lia.
  - cbn [climb]. replace (Z.testbit _ _) with (Nat.odd q) by (rewrite Hq; symmetry; apply testbit_count). destruct (Nat.odd q) eqn:Eodd.
    + apply Nat.odd_spec in Eodd as [r ->]. exists i, r, w. split; [done|]. split; [lia|]. split; [lia | done].
    + rewrite <- Nat.negb_even in Eodd. apply negb_false_iff, Nat.even_spec in Eodd as [[|r] ->]; [lia|].
      pose proof (bit_at_met _ _ _ _ Hq Hc) as Hbit. rewrite (Hs i r (le_n i) Hbit). cbn [mbind option_bind].
      pose proof (pow2_S i). destruct (IH (S i) (S r) (combine (c' <=? length leaves)%nat pbranch matchlevel i (tree i (block i r)) w))
        as (i' & r' & w' & E & Hi' & Hr' & Hok'); try lia.
      * intros k r' Hk. apply Hs. lia.
      * by apply combine_ok.
      * exists i', r', w'. split; [done|]. split; [lia | done].
Qed.

(** what is above the bit where the carry ends did not change *)
Lemma bit_at_above c c' i r k r' : c' = ((2 * r + 1) * 2 ^ i)%nat -> (c' - 2 ^ i <= c < c')%nat ->
  ((S i <= k)%nat /\ bit_at c' k r') <-> ((i <= k)%nat /\ bit_at c k r').
Proof.
  intros Hc' Hc. split.
  - intros [Hk Hb]. apply (proj1 (bit_at_carry c c' i r k r' Hc' Hc)) in Hb as [[-> _]|[_ Hb]]; [lia|]. split; [lia | done].
  - intros [Hk Hb]. destruct (decide (k = i)) as [->|Hne].
    + exfalso. pose proof (pow2_pos i). unfold bit_at in Hb. subst c'.
      assert ((2 * r' + 1) * 2 ^ i < (2 * r + 1) * 2 ^ i)%nat as B1 by lia. apply Nat.mul_lt_mono_pos_r in B1; [|done].
      assert ((2 * r) * 2 ^ i < (2 * r' + 2) * 2 ^ i)%nat as B2 by lia. apply Nat.mul_lt_mono_pos_r in B2; [|done]. lia.
    + split; [lia|]. apply (bit_at_carry c c' i r); [done|done|]. right. split; [lia | done].
Qed.

Lemma bit_at_lowest c i r k r' : c = ((2 * r + 1) * 2 ^ i)%nat -> bit_at c k r' -> (i <= k)%nat.
Proof.
  intros Hc Hb. pose proof (pow2_pos i). apply (proj1 (bit_at_carry (c - 1) c i r k r' Hc ltac:(nia))) in Hb. lia.
Qed.

Lemma lowest_bit_at c i r : c = ((2 * r + 1) * 2 ^ i)%nat -> bit_at c i r /\ block i r = carried c i /\ (c - 2 ^ i = r * 2 ^ S i)%nat.
Proof.
  intros ->. pose proof (pow2_pos i). pose proof (pow2_S i). unfold block, carried.
  assert (E : ((2 * r + 1) * 2 ^ i - 2 ^ i = r * 2 ^ S i)%nat) by nia. rewrite E. split; [|done]. unfold bit_at. nia.
Qed.

(** the state between two leaves *)
Record absorbed (c : nat) (inner : list uint256) (matchlevel : Z) (mutated : bool) (branch : list uint256) : Prop := {
  abs_length : length inner = 32%nat;
  abs_stored : stored 0 c inner;
  abs_mutated : mutated = true <-> repetition 0 c;
  abs_branch : pbranch = true -> ((pos < c)%nat /\ found 0 c matchlevel branch) \/ ((c <= pos)%nat /\ matchlevel = -1 /\ branch = []);
}.

(** storing the hash at the lowest bit *)
Lemma absorbed_store c inner matchlevel i r w : S c = ((2 * r + 1) * 2 ^ i)%nat -> (i < 32)%nat ->
  length inner = 32%nat -> stored 0 c inner -> climb_ok c (S c) matchlevel i w ->
  absorbed (S c) (<[i := w_h w]> inner) (if w_matchh w then Z.of_nat i else matchlevel) (w_mutated w) (w_branch w).
Proof.
  intros Hc Hi Hlen Hs [Hh Hm Hb]. destruct (lowest_bit_at _ _ _ Hc) as (Hbit & Eb & E).
  pose proof (pow2_pos i) as Hp. assert (Hr : (S c - 2 ^ i <= c < S c)%nat) by lia.
  pose proof (fun k r' => bit_at_above c (S c) i r k r' Hc Hr) as Habove. split.
  - by rewrite length_insert.
  - intros k r' _ Hk. apply (proj1 (bit_at_carry c (S c) i r k r' Hc Hr)) in Hk as [[-> ->]|[Hik Hk]].
    + rewrite list_lookup_insert_eq by lia. by rewrite Hh, Eb.
    + rewrite list_lookup_insert_ne by lia. apply Hs; [lia | done].
  - rewrite Hm, <- Eb. unfold repetition. split.
    + intros [(k & r' & Hk & Hb' & Hr')|Hr']; [|exists i, r; split; [lia | done]].
      destruct (proj2 (Habove k r')) as [? Hb'']; [done|]. exists k, r'. split; [lia | done].
    + intros (k & r' & _ & Hk & Hr'). apply (proj1 (bit_at_carry c (S c) i r k r' Hc Hr)) in Hk as [[-> ->]|[Hik Hk]]; [by right|].
      left. exists k, r'. split; [lia | done].
  - intros Hpb. specialize (Hb Hpb). unfold branch_ok in Hb. destruct (w_matchh w).
    + left. destruct Hb as [Hpos ->]. split; [lia|]. exists i, r. rewrite <- Eb, E. split; [lia|]. split; [done|].
      pose proof (pow2_S i). split; [lia | done].
    + destruct Hb as [[Hpos (k & r' & Hk & Hb' & Hrest)]|(Hpos & Hrest)]; [left|right; split; [lia | done]].
      split; [lia|]. destruct (proj2 (Habove k r')) as [? Hb'']; [done|]. exists k, r'. split; [lia | done].
Qed.

Lemma absorb_spec branchpos rest c inner matchlevel mutated branch : (pbranch = true -> branchpos = Z.of_nat pos) ->
  zlen leaves <= 2 ^ 31 -> drop c leaves = rest -> absorbed c inner matchlevel mutated branch -> (c <= length leaves)%nat ->
  exists inner' ml' mut' br', absorb pbranch branchpos rest (Z.of_nat c) inner matchlevel mutated branch = Some (inner', ml', mut', br') /\
    absorbed (length leaves) inner' ml' mut' br'.
Proof.
  intros Hpos Hmax. revert c inner matchlevel mutated branch.
  induction rest as [|h rest IH]; intros c inner matchlevel mutated branch Hd Habs Hc.
  - assert (c = length leaves) as -> by (apply (f_equal length) in Hd; rewrite length_drop in Hd; simpl in Hd; lia).
    cbn [absorb]. eauto 10.
  - assert (Hlt : (c < length leaves)%nat) by (apply (f_equal length) in Hd; rewrite length_drop in Hd; simpl in Hd; lia).
    cbn [absorb]. replace (u32 (Z.of_nat c + 1)) with (Z.of_nat (S c)) by (rewrite u32_small; unfold is_u32; lia).
    pose proof Habs as [Hlen Hs Hm Hb].
    destruct (climb_spec 33 c (S c) inner matchlevel 0 (S c) (Walk h (Z.of_nat c =? branchpos) mutated branch))
      as (i & r & w & E & _ & Hr & Hok); try (simpl; lia); try done.
    + split; cbn [w_h w_mutated w_matchh w_branch].
      * unfold carried, slice. simpl. rewrite Nat.sub_0_r, Hd. done.
      * rewrite Hm. simpl. split; [by left | by intros [?|?]].
      * intros Hpb. specialize (Hb Hpb). rewrite (Hpos Hpb). unfold branch_ok. cbn [w_matchh w_branch].
        destruct (Z.eqb_spec (Z.of_nat c) (Z.of_nat pos)) as [Heq|Hne].
        -- split; [simpl; lia|]. destruct Hb as [[? _]|(_ & _ & ->)]; [lia | done].
        -- destruct Hb as [[? Hf]|(? & ? & ?)]; [left; split; [simpl; lia | done] | right; split; [lia | done]].
    + replace (S c <=? length leaves)%nat with true in E by (symmetry; apply Nat.leb_le; lia). rewrite E. cbn [mbind option_bind].
      assert (Hi : (i < 32)%nat).
      { apply Nat.nle_gt. intros Hi. assert (2 ^ 32 <= 2 ^ Z.of_nat i) by (apply Z.pow_le_mono_r; lia).
        pose proof (Nat2Z.inj_pow 2 i) as E2. assert (2 ^ i <= S c)%nat by nia. lia. }
      apply IH; [|by eapply absorbed_store|lia].
      by rewrite <- Nat.add_1_r, <- drop_drop, Hd.
Qed.

(** the state of the sweep at the lowest bit [j] of the rounded-up count [c] *)
Record sweep_ok (c : nat) (matchlevel : Z) (j : nat) (w : walk) : Prop := {
  sweep_h : w_h w = tree j (carried c j);
  sweep_mutated : w_mutated w = true <-> repetition (S j) c \/ repeats j (carried c j) = true;
  sweep_branch : pbranch = true ->
    if w_matchh w then (c - 2 ^ j <= pos)%nat /\ w_branch w = path j (carried c j) (pos - (c - 2 ^ j))
    else (pos < c - 2 ^ j)%nat /\ found (S j) c matchlevel (w_branch w);
}.

(** repeating the hash fills the right half *)
Lemma sweep_pad c matchlevel j w : (2 ^ j <= c)%nat -> (length leaves <= c)%nat -> (pbranch = true -> (pos < length leaves)%nat) ->
  sweep_ok c matchlevel j w ->
  climb_ok c (c + 2 ^ j) matchlevel (S j)
    (Walk (hash_pair (w_h w) (w_h w)) (w_matchh w) (w_mutated w) (if pbranch && w_matchh w then w_branch w ++ [w_h w] else w_branch w)).
Proof.
  intros Hc Hl Hpos [Hh Hm Hb]. pose proof (pow2_S j) as Hp.
  assert (E : (c + 2 ^ j - 2 ^ S j = c - 2 ^ j)%nat) by lia.
  assert (Hnode := fun p => pad_node leaves (c - 2 ^ j) j p ltac:(lia)).
  split; cbn [w_h w_mutated w_matchh w_branch].
  - unfold carried. rewrite E. destruct (Hnode 0%nat) as (-> & _). by rewrite Hh.
  - rewrite Hm. unfold carried. rewrite E. by destruct (Hnode 0%nat) as (_ & -> & _).
  - intros Hpb. rewrite Hpb. specialize (Hb Hpb). specialize (Hpos Hpb). unfold branch_ok. cbn [w_matchh w_branch andb].
    destruct (w_matchh w); unfold carried in *; rewrite E.
    + destruct Hb as [Hb ->]. split; [lia|]. destruct (Hnode (pos - (c - 2 ^ j))%nat) as (_ & _ & ->). by rewrite Hh.
    + by left.
Qed.

Lemma sweep_of_climb c c' matchlevel i r w : c' = ((2 * r + 1) * 2 ^ i)%nat -> (c' - 2 ^ i <= c < c')%nat ->
  (length leaves <= c')%nat -> (pbranch = true -> (pos < length leaves)%nat) -> climb_ok c c' matchlevel i w -> sweep_ok c' matchlevel i w.
Proof.
  intros Hc' Hc Hl Hpos [Hh Hm Hb]. pose proof (fun k r' => bit_at_above c c' i r k r' Hc' Hc) as Habove. split; [done| |].
  - rewrite Hm. apply or_iff_compat_r. unfold repetition.
    split; intros (k & r' & Hk & Hb' & Hr'); exists k, r'; rewrite assoc by apply _; (split; [by apply Habove | done]).
  - intros Hpb. specialize (Hb Hpb). specialize (Hpos Hpb). unfold branch_ok in Hb. destruct (w_matchh w).
    + destruct Hb as [? ->]. split; [lia | done].
    + destruct Hb as [[? (k & r' & Hk & Hb' & Hrest)]|[? _]]; [|lia]. split; [done|].
      exists k, r'. rewrite assoc by apply _. split; [by apply Habove | done].
Qed.

(** the sweep is over when the count is a power of two *)
Lemma sweep_done matchlevel j w : (0 < length leaves <= 2 ^ j)%nat -> (2 ^ j <= 2 ^ depth (length leaves))%nat ->
  (pbranch = true -> (pos < length leaves)%nat) -> sweep_ok (2 ^ j) matchlevel j w ->
  w_h w = tree (depth (length leaves)) leaves /\ w_mutated w = repeats (depth (length leaves)) leaves /\
  (pbranch = true -> w_branch w = path (depth (length leaves)) leaves pos).
Proof.
  intros Hl Hd Hpos [Hh Hm Hb].
  assert (j = depth (length leaves)) as Ej.
  { apply Nat.le_antisymm; [by apply Nat.pow_le_mono_r_iff in Hd; [|lia] | apply Nat.log2_up_le_pow2; lia]. }
  assert (Ec : carried (2 ^ j) j = leaves) by (unfold carried; rewrite Nat.sub_diag; by rewrite slice_all by lia).
  assert (Hno : forall k r, (S j <= k)%nat -> ~ bit_at (2 ^ j) k r).
  { intros k r Hk [Hb1 _]. assert (2 ^ j < 2 ^ k)%nat by (apply Nat.pow_lt_mono_r; lia). nia. }
  rewrite Ec in *. rewrite <- Ej. split; [done|]. split.
  - apply Bool.eq_iff_eq_true. rewrite Hm. split; [|by right]. intros [(k & r & Hk & Hb' & _)|?]; [|done]. by apply Hno in Hb'.
  - intros Hpb. specialize (Hb Hpb). specialize (Hpos Hpb). destruct (w_matchh w).
    + destruct Hb as [_ ->]. f_equal. lia.
    + lia.
Qed.

Lemma sweep_spec fuel c j r inner matchlevel w : c = ((2 * r + 1) * 2 ^ j)%nat -> (c - 2 ^ j < length leaves <= c)%nat ->
  (c <= 2 ^ depth (length leaves))%nat -> (depth (length leaves) <= 31)%nat -> (33 <= fuel + j)%nat ->
  (pbranch = true -> (pos < length leaves)%nat) -> stored (S j) c inner -> sweep_ok c matchlevel j w ->
  exists w', sweep fuel pbranch (Z.of_nat c) inner matchlevel j w = Some w' /\ w_h w' = tree (depth (length leaves)) leaves /\
    w_mutated w' = repeats (depth (length leaves)) leaves /\ (pbranch = true -> w_branch w' = path (depth (length leaves)) leaves pos).
Proof.
  revert c j r w. induction fuel as [|fuel IH]; intros c j r w Hc Hl Hmax Hd Hfuel Hpos Hs Hok.
  - exfalso. assert (2 ^ depth (length leaves) < 2 ^ j)%nat by (apply Nat.pow_lt_mono_r; lia). nia.
  - cbn [sweep]. rewrite Z.shiftl_mul_pow2, Z.mul_1_l by lia. pose proof (Nat2Z.inj_pow 2 j) as Ep. change (Z.of_nat 2) with 2 in Ep.
    rewrite <- Ep. destruct (Z.eqb_spec (Z.of_nat c) (Z.of_nat (2 ^ j))) as [E|Hne].
    + apply Nat2Z.inj in E. rewrite E in *. exists w. split; [done|]. eapply sweep_done; eauto. lia.
    + pose proof (pow2_pos j). destruct r as [|r]; [lia|].
      assert (Hjd : (j < depth (length leaves))%nat).
      { apply Nat.nle_gt. intros Hle. assert (2 ^ depth (length leaves) <= 2 ^ j)%nat by (apply Nat.pow_le_mono_r; lia). nia. }
      assert (Hmax' : (c + 2 ^ j <= 2 ^ depth (length leaves))%nat).
      { destruct (pow2_split j (depth (length leaves)) Hjd) as (m & Hm & E). rewrite E in *. subst c.
        apply Nat.mul_le_mono_pos_r in Hmax; [|done].
        replace ((2 * S r + 1) * 2 ^ j + 2 ^ j)%nat with ((2 * S r + 2) * 2 ^ j)%nat by lia. apply Nat.mul_le_mono_r. lia. }
      assert (Hbound : Z.of_nat (c + 2 ^ j) < 2 ^ 32).
      { assert (2 ^ depth (length leaves) <= 2 ^ 31)%nat by (apply Nat.pow_le_mono_r; lia).
        pose proof (Nat2Z.inj_pow 2 31). lia. }
      rewrite <- Nat2Z.inj_add, u32_small by (unfold is_u32; lia).
      pose proof (pow2_S j). pose proof (sweep_pad c matchlevel j w ltac:(lia) ltac:(lia) Hpos Hok) as Hpad.
      destruct (climb_spec 33 c (c + 2 ^ j) inner matchlevel (S j) (S (S r)) _ ltac:(lia) ltac:(lia) ltac:(lia) ltac:(lia) Hbound ltac:(lia) Hs Hpad)
        as (i & r' & w' & E & Hi & Hc' & Hok').
      replace (c + 2 ^ j <=? length leaves)%nat with false in E by (symmetry; apply Nat.leb_gt; lia). rewrite E. cbn [mbind option_bind].
      assert (2 ^ S j <= 2 ^ i)%nat by (apply Nat.pow_le_mono_r; lia).
      apply (IH _ _ r'); try lia; try done.
      * intros k r2 Hk Hb. apply Hs; [lia|]. eapply (bit_at_above c (c + 2 ^ j) i r'); [done | lia | by split].
      * eapply sweep_of_climb; try done; lia.
Qed.
End Computation.

(** ** The whole computation *)

Lemma lowest_level_spec fuel i q : (0 < q)%nat -> Z.of_nat (q * 2 ^ i) < 2 ^ 32 -> (33 <= fuel + i)%nat ->
  exists j r, lowest_level fuel (Z.of_nat (q * 2 ^ i)) i = Some j /\ (q * 2 ^ i = (2 * r + 1) * 2 ^ j)%nat.
Proof.
  revert i q. induction fuel as [|fuel IH]; intros i q Hq Hmax Hfuel.
  - exfalso. assert (2 ^ 33 <= 2 ^ Z.of_nat i) by (apply Z.pow_le_mono_r; lia). pose proof (Nat2Z.inj_pow 2 i). nia.
  - cbn [lowest_level]. rewrite testbit_count. destruct (Nat.odd q) eqn:Eodd.
    + apply Nat.odd_spec in Eodd as [r ->]. eauto.
    + rewrite <- Nat.negb_even in Eodd. apply negb_false_iff, Nat.even_spec in Eodd as [m ->].
      replace (2 * m * 2 ^ i)%nat with (m * 2 ^ S i)%nat in * by (rewrite pow2_S; lia). apply IH; lia.
Qed.

Section Spec.
Context `{ScriptHashes}.

(** between the leaves and the sweep *)
Lemma sweep_start leaves pbranch pos inner matchlevel mutated branch j r h :
  length leaves = ((2 * r + 1) * 2 ^ j)%nat -> inner !! j = Some h -> (pbranch = true -> (pos < length leaves)%nat) ->
  absorbed leaves pbranch pos (length leaves) inner matchlevel mutated branch ->
  sweep_ok leaves pbranch pos (length leaves) matchlevel j (Walk h (matchlevel =? Z.of_nat j) mutated branch).
Proof.
  intros Hn Hh Hpos [_ Hs Hm Hb]. destruct (lowest_bit_at leaves _ _ _ Hn) as (Hbit & Eb & E).
  pose proof (fun k r' => bit_at_lowest _ _ _ k r' Hn) as Hlow. pose proof (pow2_pos j). pose proof (pow2_S j).
  split; cbn [w_h w_mutated w_matchh w_branch].
  - rewrite <- Eb. apply (inj Some). rewrite <- Hh. apply Hs; [lia | done].
  - rewrite Hm, <- Eb. transitivity (repetition leaves j (length leaves)); [|rewrite (repetition_split leaves _ _ _ Hbit); tauto].
    split; intros (k & r' & Hk & Hb' & Hr'); exists k, r'; (split; [|done]); [by eapply Hlow | lia].
  - intros Hpb. specialize (Hpos Hpb). destruct (Hb Hpb) as [[_ (k & r' & _ & Hb' & Hin & -> & ->)]|[? _]]; [|lia].
    pose proof (Hlow _ _ Hb') as Hk. destruct (Z.eqb_spec (Z.of_nat k) (Z.of_nat j)) as [Ek|Ek].
    + apply Nat2Z.inj in Ek as ->. assert (r' = r) as -> by (by eapply bit_at_unique). rewrite Eb, E. split; [lia | done].
    + split; [|exists k, r'; split; [lia | done]].
      destruct Hb' as [Hb' _]. destruct (pow2_split j k ltac:(lia)) as (m & Hm' & Ep). rewrite (pow2_S k), Ep in *. rewrite Hn in *.
      assert ((2 * ((2 * r' + 1) * m)) * 2 ^ j <= (2 * r + 1) * 2 ^ j)%nat as B by lia. apply Nat.mul_le_mono_pos_r in B; [|done].
      assert ((2 * ((2 * r' + 1) * m)) * 2 ^ j <= (2 * r) * 2 ^ j)%nat by (apply Nat.mul_le_mono_r; lia). lia.
Qed.

Lemma depth_bound n : (0 < n)%nat -> Z.of_nat n <= 2 ^ 31 -> (depth n <= 31)%nat.
Proof. intros Hn Hmax. apply Nat.log2_up_le_pow2; [done|]. pose proof (Nat2Z.inj_pow 2 31). lia. Qed.

Lemma MerkleComputation_spec leaves branchpos pbranch pos : (0 < length leaves)%nat -> zlen leaves <= 2 ^ 31 ->
  (pbranch = true -> branchpos = Z.of_nat pos /\ (pos < length leaves)%nat) ->
  exists branch, MerkleComputation leaves branchpos pbranch =
    Some (tree (depth (length leaves)) leaves, repeats (depth (length leaves)) leaves, branch) /\
    (pbranch = true -> branch = path (depth (length leaves)) leaves pos).
Proof.
  intros Hn Hmax Hpos. unfold MerkleComputation. destruct leaves as [|h0 rest] eqn:El; [simpl in Hn; lia|]. rewrite <- El in *. clear El h0 rest.
  destruct (absorb_spec leaves pbranch pos branchpos leaves 0 (replicate 32 uint256_zero) (-1) false [])
    as (inner & ml & mut & br & Eabs & Habs); [by intros; apply Hpos | done | done | | lia | ].
  { split.
    - apply length_replicate.
    - intros k r _ [B _]. pose proof (pow2_pos k). lia.
    - split; [done|]. intros (k & r & _ & [B _] & _). pose proof (pow2_pos k). lia.
    - right. split; [lia | done]. }
  change (Z.of_nat 0) with 0 in Eabs. rewrite Eabs. cbn [mbind option_bind]. rewrite u32_small by (unfold is_u32; lia).
  destruct (lowest_level_spec 33 0 (length leaves)) as (j & r & E & Hj); [done | simpl; lia | lia |].
  replace (length leaves * 2 ^ 0)%nat with (length leaves) in * by (simpl; lia). rewrite E. cbn [mbind option_bind].
  destruct (lowest_bit_at leaves _ _ _ Hj) as (Hbit & _ & _). pose proof (abs_stored _ _ _ _ _ _ _ _ Habs j r (Nat.le_0_l _) Hbit) as Hh.
  rewrite Hh. cbn [mbind option_bind]. pose proof (pow2_pos j).
  destruct (sweep_spec leaves pbranch pos 33 (length leaves) j r inner ml (Walk (tree j (block leaves j r)) (ml =? Z.of_nat j) mut br))
    as (w & Ew & Eh & Em & Hb); try done; try lia.
  - unfold depth. pose proof (Nat.log2_up_le_pow2 (length leaves) (Nat.log2_up (length leaves)) Hn). lia.
  - by apply depth_bound.
  - intros; by apply Hpos.
  - intros k r' _ Hb. by apply (abs_stored _ _ _ _ _ _ _ _ Habs); [lia|].
  - eapply sweep_start; try done. intros; by apply Hpos.
  - rewrite Ew. cbn [mbind option_bind]. rewrite Eh, Em. eauto.
Qed.

(** ** The tree level by level *)

Fixpoint level_up (l : list uint256) : list uint256 :=
  match l with
  | a :: b :: l => hash_pair a b :: level_up l
  | [a] => [hash_pair a a]
  | [] => []
  end.

(** the reference: hash the pairs of a level, the last one with itself when it has no
    partner, until one hash is left *)
Fixpoint levels (n : nat) (l : list uint256) : uint256 :=
  match n with
  | O => default uint256_zero (head l)
  | S n => levels n (level_up l)
  end.

Lemma pair_ind (P : list uint256 -> Prop) : P [] -> (forall a, P [a]) -> (forall a b l, P l -> P (a :: b :: l)) -> forall l, P l.
Proof.
  intros H0 H1 H2 l. enough (P l /\ forall a, P (a :: l)) by tauto. induction l as [|b l [IH1 IH2]]; [auto|]. split; auto.
Qed.

Lemma level_up_length l : (length l <= 2 * length (level_up l) <= S (length l))%nat.
Proof. induction l as [|a|a b l IH] using pair_ind; simpl in *; lia. Qed.

Lemma level_up_split k l : level_up (take (k + k) l) = take k (level_up l) /\ level_up (drop (k + k) l) = drop k (level_up l).
Proof.
  revert l. induction k as [|k IH]; intros l; [done|]. rewrite Nat.add_succ_r. cbn [Nat.add].
  destruct l as [|a [|b l]]; [done| |].
  - by destruct k.
  - cbn [take drop level_up]. destruct (IH l) as [-> ->]. done.
Qed.

Lemma tree_level_up n l : (0 < length l <= 2 ^ S n)%nat -> tree (S n) l = tree n (level_up l).
Proof.
  revert l. induction n as [|n IH]; intros l Hl.
  - destruct l as [|a [|b [|c l]]]; simpl in *; try done; lia.
  - pose proof (level_up_length l) as Hlen. pose proof (pow2_S n) as Hp. pose proof (pow2_S (S n)) as Hp'.
    change (tree (S (S n)) l) with (if (length l <=? 2 ^ S n)%nat then hash_pair (tree (S n) l) (tree (S n) l)
      else hash_pair (tree (S n) (take (2 ^ S n) l)) (tree (S n) (drop (2 ^ S n) l))).
    change (tree (S n) (level_up l)) with (if (length (level_up l) <=? 2 ^ n)%nat then hash_pair (tree n (level_up l)) (tree n (level_up l))
      else hash_pair (tree n (take (2 ^ n) (level_up l))) (tree n (drop (2 ^ n) (level_up l)))).
    destruct (Nat.leb_spec (length l) (2 ^ S n)).
    + rewrite (proj2 (Nat.leb_le _ _)) by lia. by rewrite IH by lia.
    + rewrite (proj2 (Nat.leb_gt _ _)) by lia. rewrite !IH by (rewrite ?length_take, ?length_drop; lia). rewrite Hp.
      by destruct (level_up_split (2 ^ n) l) as [-> ->].
Qed.

Lemma tree_levels n l : (0 < length l <= 2 ^ n)%nat -> tree n l = levels n l.
Proof.
  revert l. induction n as [|n IH]; intros l Hl; [done|]. rewrite tree_level_up by done. cbn [levels].
  pose proof (level_up_length l). apply IH. rewrite pow2_S in Hl. lia.
Qed.

(** ** What the root determines *)

(** the strings hashed for the inner nodes of a tree *)
Fixpoint tree_inputs (n : nat) (l : list uint256) : list valtype :=
  match n with
  | O => []
  | S m =>
      if (length l <=? 2 ^ m)%nat then (tree m l ++ tree m l) :: tree_inputs m l
      else (tree m (take (2 ^ m) l) ++ tree m (drop (2 ^ m) l)) :: tree_inputs m (take (2 ^ m) l) ++ tree_inputs m (drop (2 ^ m) l)
  end.

(** the strings hashed on the way from a leaf to the root *)
Fixpoint branch_inputs (h : uint256) (b : list uint256) (i : Z) : list valtype :=
  match b with
  | [] => []
  | y :: b =>
      let pair := if Z.testbit i 0 then y ++ h else h ++ y in
      pair :: branch_inputs (Hash256 pair) b (Z.shiftr i 1)
  end.

(** two different strings among those given that have the same hash; some such pair
    exists among all strings, so the statement is about the strings at hand *)
Definition collision (D : valtype -> Prop) : Prop := exists x y, D x /\ D y /\ x <> y /\ Hash256 x = Hash256 y.

Lemma collision_mono (D E : valtype -> Prop) : (forall x, D x -> E x) -> collision D -> collision E.
Proof. intros HDE (x & y & Hx & Hy & Hxy). exists x, y. auto. Qed.

Definition hash_ok (h : uint256) : Prop := length h = 32%nat.

(** the strings looked at *)
Context (D : valtype -> Prop).

Lemma hash_pair_inj a b c d : hash_ok a -> hash_ok c -> D (a ++ b) -> D (c ++ d) -> hash_pair a b = hash_pair c d ->
  (a = c /\ b = d) \/ collision D.
Proof.
  unfold hash_ok. intros Ha Hc Dab Dcd E. destruct (decide (a ++ b = c ++ d)) as [E'|Hne].
  - left. apply app_inj_1; [congruence | done].
  - right. by exists (a ++ b), (c ++ d).
Qed.

Lemma tree_inputs_half n l : (length l <= 2 ^ n)%nat -> Forall D (tree_inputs (S n) l) -> D (tree n l ++ tree n l) /\ Forall D (tree_inputs n l).
Proof. intros Hl. cbn [tree_inputs]. rewrite (proj2 (Nat.leb_le _ _) Hl). by inversion 1. Qed.

Lemma tree_inputs_split n l : (2 ^ n < length l)%nat -> Forall D (tree_inputs (S n) l) ->
  D (tree n (take (2 ^ n) l) ++ tree n (drop (2 ^ n) l)) /\ Forall D (tree_inputs n (take (2 ^ n) l)) /\ Forall D (tree_inputs n (drop (2 ^ n) l)).
Proof. intros Hl. cbn [tree_inputs]. rewrite (proj2 (Nat.leb_gt _ _) Hl). inversion 1 as [|? ? Hd Hr]; subst. by apply Forall_app in Hr. Qed.

Lemma tree_ok n l : (0 < length l)%nat -> Forall hash_ok l -> hash_ok (tree n l).
Proof.
  intros Hl Hok. destruct n as [|n].
  - destruct l; [simpl in Hl; lia|]. by inversion Hok.
  - unfold hash_ok. cbn [tree]. destruct (_ <=? _)%nat; apply SHA256_size.
Qed.

Lemma tree_ok_split n l : (2 ^ n < length l)%nat -> Forall hash_ok l ->
  hash_ok (tree n (take (2 ^ n) l)) /\ hash_ok (tree n (drop (2 ^ n) l)).
Proof.
  intros Hl Hok. pose proof (pow2_pos n). split; apply tree_ok; rewrite ?length_take, ?length_drop; try lia; by (apply Forall_take || apply Forall_drop).
Qed.

(** among complete trees no repetition has to be excluded *)
Lemma tree_full_unique n l1 l2 : length l1 = (2 ^ n)%nat -> length l2 = (2 ^ n)%nat -> Forall hash_ok l1 -> Forall hash_ok l2 ->
  Forall D (tree_inputs n l1) -> Forall D (tree_inputs n l2) -> tree n l1 = tree n l2 -> l1 = l2 \/ collision D.
Proof.
  revert l1 l2. induction n as [|n IH]; intros l1 l2 H1 H2 O1 O2 I1 I2 E.
  - destruct l1 as [|a [|]], l2 as [|b [|]]; simpl in *; try lia. subst. by left.
  - rewrite pow2_S in *. pose proof (pow2_pos n). cbn [tree] in E. rewrite !(proj2 (Nat.leb_gt _ _)) in E by lia.
    destruct (tree_ok_split n l1 ltac:(lia) O1) as [A1 _]. destruct (tree_ok_split n l2 ltac:(lia) O2) as [A2 _].
    destruct (tree_inputs_split n l1 ltac:(lia) I1) as (D1 & ? & ?), (tree_inputs_split n l2 ltac:(lia) I2) as (D2 & ? & ?).
    destruct (hash_pair_inj _ _ _ _ A1 A2 D1 D2 E) as [[Ea Eb]|]; [|by right].
    destruct (IH (take (2 ^ n) l1) (take (2 ^ n) l2)) as [Ea'|]; try (rewrite length_take; lia); try done; try (by apply Forall_take); [|by right].
    destruct (IH (drop (2 ^ n) l1) (drop (2 ^ n) l2)) as [Eb'|]; try (rewrite length_drop; lia); try done; try (by apply Forall_drop); [|by right].
    left. by rewrite <- (take_drop (2 ^ n) l1), <- (take_drop (2 ^ n) l2), Ea', Eb'.
Qed.

(** distinct leaves have no repetition *)
Lemma repeats_NoDup n l : (length l <= 2 ^ n)%nat -> Forall hash_ok l -> Forall D (tree_inputs n l) -> NoDup l -> repeats n l = false \/ collision D.
Proof.
  revert l. induction n as [|n IH]; intros l Hl Hok Hin Hnd; [by left|]. cbn [repeats]. rewrite pow2_S in *. pose proof (pow2_pos n).
  destruct (Nat.leb_spec (length l) (2 ^ n)); [apply IH; by (done || apply tree_inputs_half)|].
  destruct (tree_inputs_split n l ltac:(lia) Hin) as (_ & I1 & I2).
  rewrite <- (take_drop (2 ^ n) l) in Hnd. apply NoDup_app in Hnd as (N1 & Ndis & N2).
  destruct (IH (take (2 ^ n) l)) as [->|]; try (rewrite length_take; lia); try done; [by apply Forall_take | | by right].
  destruct (IH (drop (2 ^ n) l)) as [->|]; try (rewrite length_drop; lia); try done; [by apply Forall_drop | | by right].
  cbn [orb]. destruct (Nat.eqb_spec (length l) (2 ^ n + 2 ^ n)) as [Hfull|]; [|by left]. cbn [andb].
  destruct (bool_decide_reflect (tree n (take (2 ^ n) l) = tree n (drop (2 ^ n) l))) as [E|]; [|by left]. right.
  apply tree_full_unique in E as [E|]; try (rewrite ?length_take, ?length_drop; lia); try done; [|by apply Forall_take | by apply Forall_drop].
  exfalso. destruct (take (2 ^ n) l) as [|a t] eqn:Et; [apply (f_equal length) in Et; rewrite length_take in Et; simpl in Et; lia|].
  apply (Ndis a); [by left|]. rewrite <- E. by left.
Qed.

(** a list without repetition is determined by its root, among those of its depth *)
Lemma tree_unique n l1 l2 : (0 < length l1 <= 2 ^ n)%nat -> (0 < length l2 <= 2 ^ n)%nat -> Forall hash_ok l1 -> Forall hash_ok l2 ->
  Forall D (tree_inputs n l1) -> Forall D (tree_inputs n l2) ->
  repeats n l1 = false -> repeats n l2 = false -> tree n l1 = tree n l2 -> l1 = l2 \/ collision D.
Proof.
  revert l1 l2. induction n as [|n IH]; intros l1 l2 H1 H2 O1 O2 I1 I2 R1 R2 E.
  - destruct l1 as [|a [|]], l2 as [|b [|]]; simpl in *; try lia. subst. by left.
  - assert (Hhalf : forall l l', (0 < length l <= 2 ^ n)%nat -> (2 ^ n < length l' <= 2 ^ S n)%nat -> Forall hash_ok l -> Forall hash_ok l' ->
      Forall D (tree_inputs (S n) l) -> Forall D (tree_inputs (S n) l') ->
      repeats (S n) l' = false -> hash_pair (tree n l) (tree n l) = hash_pair (tree n (take (2 ^ n) l')) (tree n (drop (2 ^ n) l')) -> collision D).
    { intros l l' Hl Hl' Ol Ol' Il Il' Rl' El. destruct (tree_inputs_half n l ltac:(lia) Il) as [Dl _], (tree_inputs_split n l' ltac:(lia) Il') as (Dl' & ? & ?). rewrite pow2_S in *. pose proof (pow2_pos n). cbn [repeats] in Rl'.
      rewrite (proj2 (Nat.leb_gt _ _)), pow2_S in Rl' by lia. apply orb_false_iff in Rl' as [Rl' Req]. apply orb_false_iff in Rl' as [Ra Rb].
      destruct (tree_ok_split n l' ltac:(lia) Ol') as [A' _].
      destruct (hash_pair_inj _ _ _ _ (tree_ok n l ltac:(lia) Ol) A' Dl Dl' El) as [[Ea Eb]|]; [|done].
      destruct (IH (take (2 ^ n) l') (drop (2 ^ n) l')) as [Et|]; try (rewrite ?length_take, ?length_drop; lia); try done;
        [by apply Forall_take | by apply Forall_drop | congruence |].
      exfalso. apply (f_equal length) in Et. rewrite length_take, length_drop in Et.
      rewrite (proj2 (Nat.eqb_eq _ _)) in Req by lia. apply bool_decide_eq_false in Req. congruence. }
    cbn [tree] in E. pose proof (pow2_S n) as Hp. pose proof (pow2_pos n).
    destruct (Nat.leb_spec (length l1) (2 ^ n)) as [L1|L1], (Nat.leb_spec (length l2) (2 ^ n)) as [L2|L2].
    + cbn [repeats] in R1, R2. rewrite (proj2 (Nat.leb_le _ _) L1) in R1. rewrite (proj2 (Nat.leb_le _ _) L2) in R2.
      destruct (tree_inputs_half n l1 L1 I1) as [D1 ?], (tree_inputs_half n l2 L2 I2) as [D2 ?].
      destruct (hash_pair_inj _ _ _ _ (tree_ok n l1 ltac:(lia) O1) (tree_ok n l2 ltac:(lia) O2) D1 D2 E) as [[Ea _]|]; [|by right]. apply IH; try done; lia.
    + right. by apply (Hhalf l1 l2); try lia.
    + right. by apply (Hhalf l2 l1); try lia.
    + cbn [repeats] in R1, R2. rewrite (proj2 (Nat.leb_gt _ _) L1) in R1. rewrite (proj2 (Nat.leb_gt _ _) L2) in R2.
      apply orb_false_iff in R1 as [R1 _], R2 as [R2 _]. apply orb_false_iff in R1 as [Ra1 Rb1], R2 as [Ra2 Rb2].
      destruct (tree_ok_split n l1 ltac:(lia) O1) as [A1 _]. destruct (tree_ok_split n l2 ltac:(lia) O2) as [A2 _].
      destruct (tree_inputs_split n l1 L1 I1) as (D1 & ? & ?), (tree_inputs_split n l2 L2 I2) as (D2 & ? & ?).
      destruct (hash_pair_inj _ _ _ _ A1 A2 D1 D2 E) as [[Ea Eb]|]; [|by right].
      destruct (IH (take (2 ^ n) l1) (take (2 ^ n) l2)) as [Ea'|]; try (rewrite length_take; lia); try done; try (by apply Forall_take); [|by right].
      destruct (IH (drop (2 ^ n) l1) (drop (2 ^ n) l2)) as [Eb'|]; try (rewrite length_drop; lia); try done; try (by apply Forall_drop); [|by right].
      left. by rewrite <- (take_drop (2 ^ n) l1), <- (take_drop (2 ^ n) l2), Ea', Eb'.
Qed.

(** ** Branches *)

Lemma from_branch_snoc b x h i : ComputeMerkleRootFromBranch h (b ++ [x]) i =
  if Z.testbit i (zlen b) then hash_pair x (ComputeMerkleRootFromBranch h b i) else hash_pair (ComputeMerkleRootFromBranch h b i) x.
Proof.
  revert h i. induction b as [|y b IH]; intros h i; [done|]. cbn [app ComputeMerkleRootFromBranch length].
  rewrite IH, Z.shiftr_spec by lia. by replace (zlen b + 1) with (Z.of_nat (S (length b))) by lia.
Qed.

Lemma from_branch_low b h i i' : (forall k, 0 <= k < zlen b -> Z.testbit i k = Z.testbit i' k) ->
  ComputeMerkleRootFromBranch h b i = ComputeMerkleRootFromBranch h b i'.
Proof.
  revert h i i'. induction b as [|y b IH]; intros h i i' E; [done|]. cbn [ComputeMerkleRootFromBranch]. cbn [length] in E.
  rewrite (E 0) by lia. apply IH. intros k Hk. rewrite !Z.shiftr_spec by lia. apply E. lia.
Qed.

Lemma branch_inputs_snoc b x h i : branch_inputs h (b ++ [x]) i = branch_inputs h b i ++
  [if Z.testbit i (zlen b) then x ++ ComputeMerkleRootFromBranch h b i else ComputeMerkleRootFromBranch h b i ++ x].
Proof.
  revert h i. induction b as [|y b IH]; intros h i; [done|]. cbn [app branch_inputs ComputeMerkleRootFromBranch length].
  rewrite IH, Z.shiftr_spec by lia. replace (zlen b + 1) with (Z.of_nat (S (length b))) by lia. unfold hash_pair. by destruct (Z.testbit i 0).
Qed.

Lemma branch_inputs_low b h i i' : (forall k, 0 <= k < zlen b -> Z.testbit i k = Z.testbit i' k) -> branch_inputs h b i = branch_inputs h b i'.
Proof.
  revert h i i'. induction b as [|y b IH]; intros h i i' E; [done|]. cbn [branch_inputs]. cbn [length] in E.
  rewrite (E 0) by lia. f_equal. apply IH. intros k Hk. rewrite !Z.shiftr_spec by lia. apply E. lia.
Qed.

Lemma path_length n l p : length (path n l p) = n.
Proof. revert l p. induction n as [|n IH]; intros l p; [done|]. cbn [path]. case_ifs; rewrite length_app, IH; simpl; lia. Qed.

(** the bit that tells the halves apart, and the bits below it *)
Lemma half_bit n p : (p < 2 ^ S n)%nat -> Z.testbit (Z.of_nat p) (Z.of_nat n) = negb (p <? 2 ^ n)%nat.
Proof.
  intros Hp. rewrite Z.testbit_odd, Z.shiftr_div_pow2 by lia. pose proof (Nat2Z.inj_pow 2 n) as E. change (Z.of_nat 2) with 2 in E. rewrite <- E.
  rewrite pow2_S in Hp. rewrite <- Nat2Z.inj_div. destruct (Nat.ltb_spec p (2 ^ n)).
  - by rewrite Nat.div_small.
  - replace (p / 2 ^ n)%nat with 1%nat; [done|]. apply Nat.div_unique with (p - 2 ^ n)%nat; lia.
Qed.

Lemma half_low n p k : (2 ^ n <= p)%nat -> 0 <= k < Z.of_nat n -> Z.testbit (Z.of_nat p) k = Z.testbit (Z.of_nat (p - 2 ^ n)) k.
Proof.
  intros Hp Hk. rewrite <- (Z.mod_pow2_bits_low (Z.of_nat p) (Z.of_nat n)), <- (Z.mod_pow2_bits_low (Z.of_nat (p - 2 ^ n)) (Z.of_nat n)) by lia.
  f_equal. rewrite Nat2Z.inj_sub, Nat2Z.inj_pow by done. change (Z.of_nat 2) with 2.
  replace (Z.of_nat p - 2 ^ Z.of_nat n) with (Z.of_nat p + (-1) * 2 ^ Z.of_nat n) by lia. by rewrite Z_mod_plus_full.
Qed.

Lemma from_branch_complete n l p leaf : (length l <= 2 ^ n)%nat -> l !! p = Some leaf ->
  ComputeMerkleRootFromBranch leaf (path n l p) (Z.of_nat p) = tree n l.
Proof.
  revert l p. induction n as [|n IH]; intros l p Hl Hp.
  - destruct l as [|a [|]]; simpl in *; try lia; try done. destruct p; [by injection Hp|done].
  - pose proof (lookup_lt_Some _ _ _ Hp). pose proof (half_bit n p ltac:(lia)) as Hbit. cbn [path tree]. rewrite pow2_S in Hl.
    destruct (Nat.leb_spec (length l) (2 ^ n)).
    + rewrite from_branch_snoc, path_length, Hbit, (proj2 (Nat.ltb_lt _ _)) by lia. by rewrite IH.
    + destruct (Nat.ltb_spec p (2 ^ n)); rewrite from_branch_snoc, path_length, Hbit; cbn [negb]; f_equal.
      * rewrite IH; [done | rewrite length_take; lia | by rewrite lookup_take_lt].
      * rewrite (from_branch_low _ _ _ (Z.of_nat (p - 2 ^ n))) by (intros k Hk; rewrite path_length in Hk; by apply half_low).
        rewrite IH; [done | rewrite length_drop; lia |]. rewrite lookup_drop. rewrite <- Hp. f_equal. lia.
Qed.

Lemma from_branch_ok x b i : hash_ok x -> hash_ok (ComputeMerkleRootFromBranch x b i).
Proof.
  revert x i. induction b as [|y b IH]; intros x i Hx; [done|]. cbn [ComputeMerkleRootFromBranch]. apply IH.
  unfold hash_ok. destruct (Z.testbit i 0); apply SHA256_size.
Qed.

Lemma from_branch_sound n l p x b : (p < length l <= 2 ^ n)%nat -> length b = n -> Forall hash_ok l -> hash_ok x -> Forall hash_ok b ->
  Forall D (tree_inputs n l) -> Forall D (branch_inputs x b (Z.of_nat p)) ->
  ComputeMerkleRootFromBranch x b (Z.of_nat p) = tree n l -> l !! p = Some x \/ collision D.
Proof.
  revert l p b. induction n as [|n IH]; intros l p b Hl Hb Ol Ox Ob Il Ib E.
  - destruct b; [|done]. destruct l as [|a [|]]; simpl in *; try lia. subst. left. by replace p with 0%nat by lia.
  - destruct b as [|y b _] using rev_ind; [done|]. rewrite length_app in Hb. simpl in Hb. apply Forall_app in Ob as [Ob Oy].
    inversion Oy as [|? ? Oy' _]; subst. clear Oy. pose proof (half_bit n p ltac:(lia)) as Hbit. pose proof (from_branch_ok x b (Z.of_nat p) Ox) as Oh.
    assert (Hb' : length b = n) by lia. rewrite branch_inputs_snoc, Hb', Hbit in Ib. apply Forall_app in Ib as [Ib Dx]. apply Forall_cons_1 in Dx as [Dx _].
    rewrite from_branch_snoc, Hb', Hbit in E. cbn [tree] in E. rewrite pow2_S in Hl. pose proof (pow2_pos n).
    destruct (Nat.leb_spec (length l) (2 ^ n)) as [L|L]; [rewrite (proj2 (Nat.ltb_lt _ _)) in E, Dx by lia | destruct (Nat.ltb_spec p (2 ^ n)) as [P|P]]; cbn [negb] in E, Dx.
    + destruct (tree_inputs_half n l L Il) as [Dl ?].
      destruct (hash_pair_inj _ _ _ _ Oh (tree_ok n l ltac:(lia) Ol) Dx Dl E) as [[Ea _]|]; [|by right]. eapply IH; try done. lia.
    + destruct (tree_ok_split n l L Ol) as [A _], (tree_inputs_split n l L Il) as (Dl & ? & ?).
      destruct (hash_pair_inj _ _ _ _ Oh A Dx Dl E) as [[Ea _]|]; [|by right].
      rewrite <- (lookup_take_lt l (2 ^ n) p P). eapply IH; try done; [rewrite length_take; lia | by apply Forall_take].
    + destruct (tree_ok_split n l L Ol) as [A _], (tree_inputs_split n l L Il) as (Dl & ? & ?).
      destruct (hash_pair_inj _ _ _ _ Oy' A Dx Dl E) as [[_ Eb]|]; [|by right].
      assert (Hlow : forall k, 0 <= k < zlen b -> Z.testbit (Z.of_nat p) k = Z.testbit (Z.of_nat (p - 2 ^ n)) k) by (intros k Hk; rewrite Hb' in Hk; by apply half_low).
      rewrite (from_branch_low _ _ _ _ Hlow) in Eb. rewrite (branch_inputs_low _ _ _ _ Hlow) in Ib.
      replace (l !! p) with (drop (2 ^ n) l !! (p - 2 ^ n)%nat) by (rewrite lookup_drop; f_equal; lia).
      eapply IH; try done; [rewrite length_drop; lia | by apply Forall_drop].
Qed.

Lemma depth_pow n : (0 < n)%nat -> (n <= 2 ^ depth n)%nat.
Proof. intros Hn. by apply Nat.log2_up_le_pow2. Qed.

Lemma ComputeMerkleRoot_spec leaves : (0 < length leaves)%nat -> zlen leaves <= 2 ^ 31 ->
  ComputeMerkleRoot leaves = Some (tree (depth (length leaves)) leaves, repeats (depth (length leaves)) leaves).
Proof.
  intros Hn Hmax. unfold ComputeMerkleRoot.
  destruct (MerkleComputation_spec leaves (u32 (-1)) false 0 Hn Hmax) as (b & -> & _); [done|]. done.
Qed.
End Spec.

(** the strings hashed for the root of a list, and their being among given ones *)
Definition root_inputs `{ScriptHashes} (leaves : list uint256) : list valtype := tree_inputs (depth (length leaves)) leaves.

Lemma Forall_among (l : list valtype) : Forall (fun x => x ∈ l) l.
Proof. by apply Forall_forall. Qed.
Lemma Forall_among_l (l k : list valtype) : Forall (fun x => x ∈ l ++ k) l.
Proof. apply Forall_forall. intros x Hx. apply elem_of_app. by left. Qed.
Lemma Forall_among_r (l k : list valtype) : Forall (fun x => x ∈ l ++ k) k.
Proof. apply Forall_forall. intros x Hx. apply elem_of_app. by right. Qed.

(** ** Properties *)

(** C27: for up to 2^31 leaves, the constant-space computation returns the root of the tree
    built level by level.  Distinct leaves are not reported as mutated, and leaves that
    are not reported as mutated are the only ones with their root among those that are
    not reported and have a tree of the same depth, unless two of the strings hashed for
    the roots collide.  (Lists of different depth are not compared: an inner node could
    be passed off as a leaf.) *)
Theorem merkle_root_binding (hashes : ScriptHashes) leaves : (0 < length leaves)%nat -> zlen leaves <= 2 ^ 31 -> Forall hash_ok leaves ->
  exists mutated, ComputeMerkleRoot leaves = Some (levels (depth (length leaves)) leaves, mutated) /\
    (NoDup leaves -> mutated = false \/ collision (fun x => x ∈ root_inputs leaves)) /\
    (mutated = false -> forall other, (0 < length other)%nat -> zlen other <= 2 ^ 31 -> Forall hash_ok other ->
      depth (length other) = depth (length leaves) -> ComputeMerkleRoot other = ComputeMerkleRoot leaves ->
      other = leaves \/ collision (fun x => x ∈ root_inputs other ++ root_inputs leaves)).
Proof.
  intros Hn Hmax Hok. pose proof (depth_pow _ Hn). exists (repeats (depth (length leaves)) leaves).
  rewrite ComputeMerkleRoot_spec, tree_levels by done. split; [done|]. split; [apply repeats_NoDup; try done; by apply Forall_among|].
  intros Hrep other Hn' Hmax' Hok' Ed. rewrite ComputeMerkleRoot_spec, Ed, <- tree_levels by done. intros [= Et Er].
  pose proof (depth_pow _ Hn'). unfold root_inputs. rewrite Ed.
  apply (tree_unique _ (depth (length leaves))); try done; [by rewrite <- Ed | apply Forall_among_l | apply Forall_among_r | by rewrite Er].
Qed.

Definition sample_leaf (b : Z) : uint256 := replicate 32 b.

Lemma merkle_root_binding_witness :
  let leaves := map sample_leaf [1; 2; 3; 4; 5; 6] in
  exists mutated, @ComputeMerkleRoot sample_hashes leaves = Some (@levels sample_hashes (depth (length leaves)) leaves, mutated) /\
    (NoDup leaves -> mutated = false \/ @collision sample_hashes (fun x => x ∈ @root_inputs sample_hashes leaves)) /\
    (mutated = false -> forall other, (0 < length other)%nat -> zlen other <= 2 ^ 31 -> Forall hash_ok other ->
      depth (length other) = depth (length leaves) -> @ComputeMerkleRoot sample_hashes other = @ComputeMerkleRoot sample_hashes leaves ->
      other = leaves \/ @collision sample_hashes (fun x => x ∈ @root_inputs sample_hashes other ++ @root_inputs sample_hashes leaves)).
Proof.
  apply (merkle_root_binding sample_hashes (map sample_leaf [1; 2; 3; 4; 5; 6])); [simpl; lia | simpl; lia | repeat constructor].
Defined.

(** the six leaves and the same with the last two repeated have one root, and only the
    repetition is reported *)
Lemma mutation_reported :
  let leaves := map sample_leaf [1; 2; 3; 4; 5; 6] in
  exists root, @ComputeMerkleRoot sample_hashes leaves = Some (root, false) /\
    @ComputeMerkleRoot sample_hashes (leaves ++ map sample_leaf [5; 6]) = Some (root, true).
Proof. eexists. split; vm_compute; reflexivity. Qed.

(** The branch computed for a leaf leads from it to the root, and a branch of the
    depth of the tree that leads to the root starts from that leaf, unless two of
    the strings hashed for the root and along the branch collide. *)
Theorem merkle_branch_correct (hashes : ScriptHashes) leaves pos : (pos < length leaves)%nat -> zlen leaves <= 2 ^ 31 -> Forall hash_ok leaves ->
  exists branch root mutated, ComputeMerkleBranch leaves (Z.of_nat pos) = Some branch /\ ComputeMerkleRoot leaves = Some (root, mutated) /\
    length branch = depth (length leaves) /\
    (forall leaf, leaves !! pos = Some leaf -> ComputeMerkleRootFromBranch leaf branch (Z.of_nat pos) = root) /\
    (forall x b, hash_ok x -> Forall hash_ok b -> length b = depth (length leaves) ->
      ComputeMerkleRootFromBranch x b (Z.of_nat pos) = root ->
      leaves !! pos = Some x \/ collision (fun z => z ∈ root_inputs leaves ++ branch_inputs x b (Z.of_nat pos))).
Proof.
  intros Hp Hmax Hok. assert (Hn : (0 < length leaves)%nat) by lia. pose proof (depth_pow _ Hn).
  destruct (MerkleComputation_spec leaves (Z.of_nat pos) true pos Hn Hmax) as (branch & E & Eb); [done|]. rewrite (Eb eq_refl) in E.
  eexists _, _, _. unfold ComputeMerkleBranch. rewrite E, ComputeMerkleRoot_spec by done. cbn [mbind option_bind].
  split; [done|]. split; [done|]. split; [by apply path_length|]. split.
  - intros leaf Hleaf. by apply from_branch_complete.
  - intros x b Hx Hb Hlen. apply from_branch_sound; try done; [apply Forall_among_l | apply Forall_among_r].
Qed.

Lemma merkle_branch_correct_witness :
  let leaves := map sample_leaf [1; 2; 3; 4; 5] in
  exists branch root mutated, @ComputeMerkleBranch sample_hashes leaves (Z.of_nat 4) = Some branch /\
    @ComputeMerkleRoot sample_hashes leaves = Some (root, mutated) /\ length branch = depth (length leaves) /\
    (forall leaf, leaves !! 4%nat = Some leaf -> @ComputeMerkleRootFromBranch sample_hashes leaf branch (Z.of_nat 4) = root) /\
    (forall x b, hash_ok x -> Forall hash_ok b -> length b = depth (length leaves) ->
      @ComputeMerkleRootFromBranch sample_hashes x b (Z.of_nat 4) = root ->
      leaves !! 4%nat = Some x \/ @collision sample_hashes (fun z => z ∈ @root_inputs sample_hashes leaves ++ @branch_inputs sample_hashes x b (Z.of_nat 4))).
Proof.
  apply (merkle_branch_correct sample_hashes (map sample_leaf [1; 2; 3; 4; 5]) 4); [simpl; lia | simpl; lia | repeat constructor].
Defined.
