(* ===== verification/PartialMerkle.v ===== *)
(** * Partial Merkle trees

    [CPartialMerkleTree] of merkleblock.h and merkleblock.cpp: the bits and hashes that
    prove to a light client which transactions of a block it asked for, with their
    serialization.  The theorems: what is built for a block is read back as exactly the
    selected transactions with their positions, under the block's Merkle root; and
    whatever a peer sends, transactions extracted under the root of a block are
    transactions of that block at these positions. *)

From S2P Require Import Prelude Opcodes ScriptNum Script Interpreter Serialize Transaction Sighash Merkle.

Record CPartialMerkleTree := MkPartialMerkleTree {
  nTransactions : Z;
  vBits : list bool;
  vHash : list uint256;
  fBad : bool;
}.

Section Partial.
Context `{ScriptHashes}.

(** [CalcTreeWidth(height)] *)
Definition CalcTreeWidth (n : Z) (height : nat) : Z :=
  Z.shiftr (u32 (n + Z.shiftl 1 (Z.of_nat height) - 1)) (Z.of_nat height).

(** [int nHeight = 0; while (CalcTreeWidth(nHeight) > 1) nHeight++] *)
Fixpoint tree_height (fuel : nat) (n : Z) (nHeight : nat) : option nat :=
  match fuel with
  | O => None
  | S fuel => if CalcTreeWidth n nHeight >? 1 then tree_height fuel n (S nHeight) else Some nHeight
  end.

(** ** Building *)

(** [CalcHash(height, pos, vTxid)]; [None] is an access outside [vTxid] *)
Fixpoint CalcHash (n : Z) (height : nat) (pos : Z) (vTxid : list uint256) : option uint256 :=
  match height with
  | O => vTxid !! Z.to_nat pos
  | S height =>
      left ← CalcHash n height (u32 (pos * 2)) vTxid;
      right ← (if u32 (u32 (pos * 2) + 1) <? CalcTreeWidth n height
               then CalcHash n height (u32 (u32 (pos * 2) + 1)) vTxid else Some left);
      Some (hash_pair left right)
  end.

(** [for (p = pos << height; p < (pos+1) << height && p < nTransactions; p++)
      fParentOfMatch |= vMatch[p]]; the mask has an entry for every transaction *)
Definition parent_of_match (n : Z) (height : nat) (pos : Z) (vMatch : list bool) : bool :=
  let first := u32 (Z.shiftl pos (Z.of_nat height)) in
  let last := Z.min (u32 (Z.shiftl (u32 (pos + 1)) (Z.of_nat height))) n in
  for_from (Z.to_nat first) (Z.to_nat (last - first)) (fun p acc => acc || default false (vMatch !! p)) false.

(** [TraverseAndBuild(height, pos, vTxid, vMatch)]: the bits and hashes, with what is
    appended to them *)
Fixpoint TraverseAndBuild (n : Z) (vTxid : list uint256) (vMatch : list bool) (height : nat) (pos : Z)
    (bits : list bool) (hashes : list uint256) : option (list bool * list uint256) :=
  let fParentOfMatch := parent_of_match n height pos vMatch in
  let bits := bits ++ [fParentOfMatch] in
  match height with
  | S height' =>
      if fParentOfMatch then
        p ← TraverseAndBuild n vTxid vMatch height' (u32 (pos * 2)) bits hashes;
        let '(bits, hashes) := (p : list bool * list uint256) in
        if u32 (u32 (pos * 2) + 1) <? CalcTreeWidth n height'
        then TraverseAndBuild n vTxid vMatch height' (u32 (u32 (pos * 2) + 1)) bits hashes
        else Some (bits, hashes)
      else h ← CalcHash n height pos vTxid; Some (bits, hashes ++ [h])
  | O => h ← CalcHash n height pos vTxid; Some (bits, hashes ++ [h])
  end.

(** [CPartialMerkleTree(vTxid, vMatch)]; [CalcHash] asserts that there is a leaf *)
Definition CPartialMerkleTree_of (vTxid : list uint256) (vMatch : list bool) : option CPartialMerkleTree :=
  let n := u32 (zlen vTxid) in
  nHeight ← tree_height 33 n 0;
  p ← TraverseAndBuild n vTxid vMatch nHeight 0 [] [];
  let '(bits, hashes) := (p : list bool * list uint256) in
  Some (MkPartialMerkleTree n bits hashes false).

(** ** Extracting *)

(** what [TraverseAndExtract] updates through its references *)
Record extraction := Extraction {
  e_bad : bool;
  nBitsUsed : nat;
  nHashUsed : nat;
  vMatched : list uint256;
  vnIndex : list Z;
}.

Definition set_bad (b : bool) (e : extraction) : extraction :=
  Extraction (e_bad e || b) (nBitsUsed e) (nHashUsed e) (vMatched e) (vnIndex e).
Definition use_bit (e : extraction) : extraction :=
  Extraction (e_bad e) (S (nBitsUsed e)) (nHashUsed e) (vMatched e) (vnIndex e).
Definition use_hash (e : extraction) : extraction :=
  Extraction (e_bad e) (nBitsUsed e) (S (nHashUsed e)) (vMatched e) (vnIndex e).
Definition add_match (hash : uint256) (pos : Z) (e : extraction) : extraction :=
  Extraction (e_bad e) (nBitsUsed e) (nHashUsed e) (vMatched e ++ [hash]) (vnIndex e ++ [pos]).

(** the branch that uses a stored hash *)
Definition extract_hash (t : CPartialMerkleTree) (matched : bool) (pos : Z) (e : extraction) : uint256 * extraction :=
  match vHash t !! nHashUsed e with
  | None => (uint256_zero, set_bad true e)
  | Some hash => let e := use_hash e in (hash, if matched then add_match hash pos e else e)
  end.

(** [TraverseAndExtract(height, pos, nBitsUsed, nHashUsed, vMatch, vnIndex)] *)
Fixpoint TraverseAndExtract (t : CPartialMerkleTree) (height : nat) (pos : Z) (e : extraction) : uint256 * extraction :=
  match vBits t !! nBitsUsed e with
  | None => (uint256_zero, set_bad true e)
  | Some fParentOfMatch =>
      let e := use_bit e in
      match height with
      | O => extract_hash t fParentOfMatch pos e
      | S height =>
          if fParentOfMatch then
            let '(hl, e) := TraverseAndExtract t height (u32 (pos * 2)) e in
            if u32 (u32 (pos * 2) + 1) <? CalcTreeWidth (nTransactions t) height then
              let '(hr, e) := TraverseAndExtract t height (u32 (u32 (pos * 2) + 1)) e in
              (hash_pair hl hr, set_bad (bool_decide (hr = hl)) e)
            else (hash_pair hl hl, e)
          else extract_hash t false pos e
      end
  end.

(** [ExtractMatches(vMatch, vnIndex)]: the root ([uint256()] on failure), and what the
    references and [fBad] are left with.  The function clears [vMatch] only. *)
Definition ExtractMatches (t : CPartialMerkleTree) (index : list Z) : option (uint256 * extraction) :=
  let e := Extraction (fBad t) 0 0 [] index in
  if nTransactions t =? 0 then Some (uint256_zero, e)
  else if nTransactions t >? GetMaxBlockWeight / MIN_TRANSACTION_WEIGHT then Some (uint256_zero, e)
  else if zlen (vHash t) >? nTransactions t then Some (uint256_zero, e)
  else if zlen (vBits t) <? zlen (vHash t) then Some (uint256_zero, e)
  else
    nHeight ← tree_height 33 (nTransactions t) 0;
    let '(hashMerkleRoot, e) := TraverseAndExtract t nHeight 0 e in
    if e_bad e then Some (uint256_zero, e)
    else if negb ((Z.of_nat (nBitsUsed e) + 7) / 8 =? (zlen (vBits t) + 7) / 8) then Some (uint256_zero, e)
    else if negb (nHashUsed e =? length (vHash t))%nat then Some (uint256_zero, e)
    else Some (hashMerkleRoot, e).
End Partial.

(** ** Serialization *)

(** the byte of up to eight bits, lowest first: [vBytes[p / 8] |= vBits[p] << (p % 8)] *)
Fixpoint bits_byte (bits : list bool) : Z :=
  match bits with [] => 0 | b :: bits => Z.b2z b + 2 * bits_byte bits end.

Fixpoint bits_bytes (fuel : nat) (bits : list bool) : list Z :=
  match fuel, bits with
  | S fuel, _ :: _ => bits_byte (take 8 bits) :: bits_bytes fuel (drop 8 bits)
  | _, _ => []
  end.

(** [vBits[p] = (vBytes[p / 8] & (1 << (p % 8))) != 0] *)
Definition byte_bits (b : Z) : list bool := map (fun i => Z.testbit b (Z.of_nat i)) (seq 0 8).

Definition Serialize_CPartialMerkleTree (t : CPartialMerkleTree) : list Z :=
  ser_writedata32 (nTransactions t) ++ Serialize_vector (fun h => h) (vHash t) ++
  Serialize_bytes (bits_bytes (length (vBits t)) (vBits t)).

Definition Unserialize_CPartialMerkleTree : parser CPartialMerkleTree :=
  n ← ser_readdata32;
  hashes ← Unserialize_vector (read 32);
  vBytes ← Unserialize_bytes;
  mret (MkPartialMerkleTree n (concat (map byte_bits vBytes)) hashes false).

(** ** The shape of the tree *)

Lemma CalcTreeWidth_spec n h k : 0 <= n <= 2 ^ 31 -> (h <= 31)%nat -> (k <? CalcTreeWidth n h) = (k * 2 ^ Z.of_nat h <? n).
Proof.
  intros Hn Hh. unfold CalcTreeWidth. rewrite Z.shiftl_mul_pow2, Z.mul_1_l, Z.shiftr_div_pow2 by lia.
  assert (Hp : 0 < 2 ^ Z.of_nat h <= 2 ^ 31) by (split; [lia | apply Z.pow_le_mono_r; lia]). set (P := 2 ^ Z.of_nat h) in *. clearbody P.
  rewrite u32_small by (unfold is_u32; lia). apply Bool.eq_iff_eq_true. rewrite !Z.ltb_lt. split; intros Hk.
  - assert (Hk' : k + 1 <= (n + P - 1) / P) by lia. apply (Z.mul_le_mono_nonneg_r _ _ P) in Hk'; [|lia].
    pose proof (Z.mul_div_le (n + P - 1) P ltac:(lia)). lia.
  - assert (k + 1 <= (n + P - 1) / P); [|lia]. apply Z.div_le_lower_bound; lia.
Qed.

Lemma pow2_Z h : Z.of_nat (2 ^ h) = 2 ^ Z.of_nat h.
Proof. by rewrite Nat2Z.inj_pow. Qed.

Lemma tree_height_spec n fuel h : (0 < n)%nat -> Z.of_nat n <= 2 ^ 31 -> (h <= depth n)%nat -> (depth n < fuel + h)%nat ->
  tree_height fuel (Z.of_nat n) h = Some (depth n).
Proof.
  intros Hn Hmax. pose proof (depth_bound n Hn Hmax) as Hd. revert h. induction fuel as [|fuel IH]; intros h Hh Hf; [lia|].
  cbn [tree_height]. rewrite Z.gtb_ltb, CalcTreeWidth_spec, Z.mul_1_l, <- pow2_Z by lia.
  destruct (Z.ltb_spec (Z.of_nat (2 ^ h)) (Z.of_nat n)) as [Hlt|Hge].
  - apply IH; [|lia]. destruct (decide (h = depth n)) as [->|]; [|lia]. pose proof (depth_pow n Hn). lia.
  - f_equal. apply Nat.le_antisymm; [done|]. apply Nat.log2_up_le_pow2; [done | lia].
Qed.

(** the children of a node of the tree *)
Lemma children {A} (l : list A) h p : zlen l <= 2 ^ 31 -> (S h <= 31)%nat -> (p * 2 ^ S h < length l)%nat ->
  u32 (Z.of_nat p * 2) = Z.of_nat (2 * p) /\ u32 (u32 (Z.of_nat p * 2) + 1) = Z.of_nat (2 * p + 1) /\
  (Z.of_nat (2 * p + 1) <? CalcTreeWidth (zlen l) h) = negb (length (slice l (p * 2 ^ S h) (2 ^ S h)) <=? 2 ^ h)%nat.
Proof.
  intros Hmax Hh Hp. pose proof (pow2_pos h). pose proof (pow2_S h) as E. assert (Hp2 : (2 * p < length l)%nat) by nia.
  rewrite !u32_small by (unfold is_u32; rewrite ?u32_small; unfold is_u32; lia). split; [lia|]. split; [lia|].
  rewrite CalcTreeWidth_spec, <- pow2_Z, slice_length by lia.
  destruct (Nat.leb_spec (2 ^ S h `min` (length l - p * 2 ^ S h)) (2 ^ h)); cbn [negb]; [apply Z.ltb_ge | apply Z.ltb_lt]; nia.
Qed.

(** the slices of the children are the halves of the node's slice *)
Lemma child_slices {A} (l : list A) h p :
  slice l (2 * p * 2 ^ h) (2 ^ h) = take (2 ^ h) (slice l (p * 2 ^ S h) (2 ^ S h)) /\
  slice l ((2 * p + 1) * 2 ^ h) (2 ^ h) = drop (2 ^ h) (slice l (p * 2 ^ S h) (2 ^ S h)).
Proof.
  pose proof (pow2_S h) as E. rewrite E. destruct (slice_halves l (p * (2 ^ h + 2 ^ h)) (2 ^ h)) as [-> ->].
  split; f_equal; lia.
Qed.

(** ** Building against the tree *)

Section Build.
Context `{ScriptHashes}.

(** the bits and hashes of a subtree over the leaves [l] with the mask [m] *)
Fixpoint mask_bits (h : nat) (m : list bool) : list bool :=
  existsb id m ::
  match h with
  | O => []
  | S h =>
      if existsb id m
      then mask_bits h (take (2 ^ h) m) ++ (if (length m <=? 2 ^ h)%nat then [] else mask_bits h (drop (2 ^ h) m))
      else []
  end.

Fixpoint mask_hashes (h : nat) (l : list uint256) (m : list bool) : list uint256 :=
  match h with
  | O => [tree 0 l]
  | S h' =>
      if existsb id m
      then mask_hashes h' (take (2 ^ h') l) (take (2 ^ h') m) ++
           (if (length m <=? 2 ^ h')%nat then [] else mask_hashes h' (drop (2 ^ h') l) (drop (2 ^ h') m))
      else [tree h l]
  end.

Context (leaves : list uint256) (vMatch : list bool).
Context (Hmax : zlen leaves <= 2 ^ 31) (Hmask : length vMatch = length leaves).

Lemma CalcHash_spec h p : (h <= 31)%nat -> (p * 2 ^ h < length leaves)%nat ->
  CalcHash (zlen leaves) h (Z.of_nat p) leaves = Some (tree h (slice leaves (p * 2 ^ h) (2 ^ h))).
Proof.
  revert p. induction h as [|h IH]; intros p Hh Hp.
  - cbn [CalcHash]. rewrite Nat2Z.id. simpl in Hp. rewrite Nat.mul_1_r in Hp. simpl. rewrite Nat.mul_1_r.
    destruct (lookup_lt_is_Some_2 leaves p Hp) as [x Hx]. rewrite Hx. unfold slice. by rewrite (drop_S _ _ _ Hx).
  - cbn [CalcHash]. destruct (children leaves h p Hmax Hh Hp) as (-> & -> & ->). pose proof (pow2_S h) as E. pose proof (pow2_pos h).
    destruct (child_slices leaves h p) as [E1 E2]. rewrite E in Hp. rewrite (IH (2 * p)%nat), E1 by lia. cbn [mbind option_bind tree].
    destruct (Nat.leb_spec (length (slice leaves (p * 2 ^ S h) (2 ^ S h))) (2 ^ h)) as [L|L]; cbn [negb].
    + cbn [mbind option_bind]. by rewrite (take_ge _ _ L).
    + rewrite slice_length, E in L. by rewrite IH, E2 by lia.
Qed.

Lemma for_any (m : list bool) i k b :
  for_from i k (fun p acc => acc || default false (m !! p)) b = b || existsb id (slice m i k).
Proof.
  revert i b. induction k as [|k IH]; intros i b; cbn [for_from]; [by rewrite orb_false_r|]. rewrite IH, <- orb_assoc. f_equal.
  unfold slice. destruct (m !! i) as [x|] eqn:E.
  - rewrite (drop_S _ _ _ E). done.
  - apply lookup_ge_None in E. rewrite !drop_ge by lia. by rewrite !take_nil.
Qed.

Lemma parent_of_match_spec h p : (h <= 31)%nat -> (p * 2 ^ h < length leaves)%nat ->
  parent_of_match (zlen leaves) h (Z.of_nat p) vMatch = existsb id (slice vMatch (p * 2 ^ h) (2 ^ h)).
Proof.
  intros Hh Hp. unfold parent_of_match. pose proof (pow2_pos h). rewrite !Z.shiftl_mul_pow2, <- !pow2_Z by lia.
  assert (Hnext : Z.of_nat (p * 2 ^ h + 2 ^ h) <= 2 ^ 31).
  { assert (E : (2 ^ 31 = 2 ^ (31 - h) * 2 ^ h)%nat) by (rewrite <- Nat.pow_add_r; f_equal; lia).
    pose proof (pow2_Z 31) as E31. change (Z.of_nat 31) with 31 in E31. rewrite <- E31 in *. rewrite E in *.
    assert (p * 2 ^ h < 2 ^ (31 - h) * 2 ^ h)%nat as Hlt by lia. apply Nat.mul_lt_mono_pos_r in Hlt; [|done]. nia. }
  rewrite (u32_small (Z.of_nat p + 1)), !u32_small by (unfold is_u32; nia).
  rewrite for_any. cbn [orb]. replace (Z.to_nat (Z.of_nat p * Z.of_nat (2 ^ h))) with (p * 2 ^ h)%nat by lia.
  f_equal. rewrite <- Hmask. set (a := (p * 2 ^ h)%nat) in *.
  replace (Z.to_nat _) with (2 ^ h `min` (length vMatch - a))%nat by lia. unfold slice.
  destruct (Nat.le_ge_cases (2 ^ h) (length vMatch - a)) as [L|L]; [by rewrite Nat.min_l|].
  rewrite Nat.min_r, !take_ge by (rewrite ?length_drop; lia). done.
Qed.

Lemma TraverseAndBuild_spec h p bits hashes : (h <= 31)%nat -> (p * 2 ^ h < length leaves)%nat ->
  TraverseAndBuild (zlen leaves) leaves vMatch h (Z.of_nat p) bits hashes =
  Some (bits ++ mask_bits h (slice vMatch (p * 2 ^ h) (2 ^ h)),
        hashes ++ mask_hashes h (slice leaves (p * 2 ^ h) (2 ^ h)) (slice vMatch (p * 2 ^ h) (2 ^ h))).
Proof.
  revert p bits hashes. induction h as [|h IH]; intros p bits hashes Hh Hp.
  - unfold TraverseAndBuild. by rewrite parent_of_match_spec, CalcHash_spec by done.
  - cbn [TraverseAndBuild]. rewrite parent_of_match_spec by done. cbn [mask_bits mask_hashes].
    destruct (existsb id (slice vMatch (p * 2 ^ S h) (2 ^ S h))) eqn:Eany; [|by rewrite CalcHash_spec by done].
    destruct (children leaves h p Hmax Hh Hp) as (-> & -> & ->). pose proof (pow2_S h) as E.
    destruct (child_slices leaves h p) as [E1 E2]. destruct (child_slices vMatch h p) as [E3 E4].
    assert (Elen : length (slice vMatch (p * 2 ^ S h) (2 ^ S h)) = length (slice leaves (p * 2 ^ S h) (2 ^ S h))) by (by rewrite !slice_length, Hmask).
    rewrite E in Hp. rewrite (IH (2 * p)%nat), E1, E3, Elen by lia. cbn [mbind option_bind].
    destruct (Nat.leb_spec (length (slice leaves (p * 2 ^ S h) (2 ^ S h))) (2 ^ h)) as [L|L]; cbn [negb].
    + by rewrite !app_nil_r, <- !app_assoc.
    + rewrite slice_length, E in L. rewrite IH, E2, E4, <- !app_assoc by lia. done.
Qed.
End Build.

(** ** Extracting what was built *)

(** the selected leaves with their positions *)
Fixpoint selected (l : list uint256) (m : list bool) (base : nat) : list (uint256 * Z) :=
  match l, m with
  | x :: l, b :: m => (if b then [(x, Z.of_nat base)] else []) ++ selected l m (S base)
  | _, _ => []
  end.

Lemma selected_split k l m base : selected l m base =
  selected (take k l) (take k m) base ++ selected (drop k l) (drop k m) (base + k).
Proof.
  revert l m base. induction k as [|k IH]; intros l m base; [by rewrite Nat.add_0_r|].
  destruct l as [|x l], m as [|b m]; cbn [take drop selected app]; [done | done | by destruct (drop k l) |].
  rewrite <- app_assoc, <- Nat.add_succ_comm. by rewrite <- IH.
Qed.

Lemma selected_none l m base : existsb id m = false -> selected l m base = [].
Proof.
  revert l base. induction m as [|b m IH]; intros l base E; destruct l as [|x l]; try done. cbn [existsb] in E. apply orb_false_iff in E as [Eb E].
  unfold id in Eb. subst b. cbn. by apply IH.
Qed.

Definition advance (nb nh : nat) (sel : list (uint256 * Z)) (e : extraction) : extraction :=
  Extraction (e_bad e) (nBitsUsed e + nb) (nHashUsed e + nh) (vMatched e ++ map fst sel) (vnIndex e ++ map snd sel).

Lemma advance_advance nb nh sel nb' nh' sel' e :
  advance nb' nh' sel' (advance nb nh sel e) = advance (nb + nb') (nh + nh') (sel ++ sel') e.
Proof. unfold advance. cbn. by rewrite !map_app, <- !app_assoc, !Nat.add_assoc. Qed.

Lemma use_bit_advance e : use_bit e = advance 1 0 [] e.
Proof. destruct e. unfold use_bit, advance. cbn. by rewrite !app_nil_r, !Nat.add_1_r, !Nat.add_0_r. Qed.

Lemma set_bad_false e : set_bad false e = e.
Proof. destruct e. unfold set_bad. cbn. by rewrite orb_false_r. Qed.

Section Extract.
Context `{ScriptHashes}.

(** no two children of a node are equal *)
Fixpoint nodes_differ (h : nat) (l : list uint256) : Prop :=
  match h with
  | O => True
  | S h =>
      if (length l <=? 2 ^ h)%nat then nodes_differ h l
      else nodes_differ h (take (2 ^ h) l) /\ nodes_differ h (drop (2 ^ h) l) /\ tree h (drop (2 ^ h) l) <> tree h (take (2 ^ h) l)
  end.

Context (D : valtype -> Prop).

Lemma nodes_differ_NoDup h l : (length l <= 2 ^ h)%nat -> Forall hash_ok l -> Forall D (tree_inputs h l) -> NoDup l ->
  nodes_differ h l \/ collision D.
Proof.
  revert l. induction h as [|h IH]; intros l Hl Hok Hin Hnd; [by left|]. cbn [nodes_differ]. rewrite pow2_S in Hl. pose proof (pow2_pos h).
  destruct (Nat.leb_spec (length l) (2 ^ h)) as [L|L]; [apply IH; by (done || apply tree_inputs_half)|].
  destruct (tree_inputs_split D h l L Hin) as (_ & I1 & I2).
  assert (Hnd' := Hnd). rewrite <- (take_drop (2 ^ h) l) in Hnd'. apply NoDup_app in Hnd' as (N1 & Ndis & N2).
  assert (L1 : (0 < length (take (2 ^ h) l) <= 2 ^ h)%nat) by (rewrite length_take; lia).
  assert (L2 : (0 < length (drop (2 ^ h) l) <= 2 ^ h)%nat) by (rewrite length_drop; lia).
  assert (O1 : Forall hash_ok (take (2 ^ h) l)) by (by apply Forall_take). assert (O2 : Forall hash_ok (drop (2 ^ h) l)) by (by apply Forall_drop).
  destruct (IH (take (2 ^ h) l)) as [D1|]; try done; [lia| |by right]. destruct (IH (drop (2 ^ h) l)) as [D2|]; try done; [lia| |by right].
  destruct (repeats_NoDup D h (take (2 ^ h) l)) as [R1|]; try done; [lia| |by right]. destruct (repeats_NoDup D h (drop (2 ^ h) l)) as [R2|]; try done; [lia| |by right].
  destruct (decide (tree h (drop (2 ^ h) l) = tree h (take (2 ^ h) l))) as [E|]; [|by left].
  destruct (tree_unique D h _ _ L2 L1 O2 O1 I2 I1 R2 R1 E) as [E'|]; [|by right]. exfalso.
  destruct (take (2 ^ h) l) as [|a l']; [simpl in L1; lia|]. apply (Ndis a); [by left|]. rewrite E'. by left.
Qed.

Context (leaves : list uint256) (vMatch : list bool) (t : CPartialMerkleTree).
Context (Hmax : zlen leaves <= 2 ^ 31) (Hmask : length vMatch = length leaves) (Hn : nTransactions t = zlen leaves).

Definition part {A} (l : list A) (h p : nat) : list A := slice l (p * 2 ^ h) (2 ^ h).

Lemma lookup_next {A} (pre : list A) x l n : n = length pre -> (pre ++ x :: l) !! n = Some x.
Proof. intros ->. by apply list_lookup_middle. Qed.

Lemma extract_hash_built matched pos e pre x post : vHash t = pre ++ x :: post -> nHashUsed e = length pre ->
  extract_hash t matched pos e = (x, advance 0 1 (if matched then [(x, pos)] else []) e).
Proof.
  intros Eh En. unfold extract_hash. rewrite Eh, lookup_next by done. f_equal. destruct e. unfold advance. cbn.
  rewrite !Nat.add_0_r, !Nat.add_1_r. destruct matched; cbn; by rewrite ?app_nil_r.
Qed.

Lemma extract_built h p e preb postb preh posth : (h <= 31)%nat -> (p * 2 ^ h < length leaves)%nat ->
  vBits t = preb ++ mask_bits h (part vMatch h p) ++ postb -> nBitsUsed e = length preb ->
  vHash t = preh ++ mask_hashes h (part leaves h p) (part vMatch h p) ++ posth -> nHashUsed e = length preh ->
  nodes_differ h (part leaves h p) ->
  TraverseAndExtract t h (Z.of_nat p) e =
  (tree h (part leaves h p), advance (length (mask_bits h (part vMatch h p))) (length (mask_hashes h (part leaves h p) (part vMatch h p)))
    (selected (part leaves h p) (part vMatch h p) (p * 2 ^ h)) e).
Proof.
  revert p e preb postb preh posth. induction h as [|h IH]; intros p e preb postb preh posth Hh Hp Eb Enb Eh Enh Hd.
  - cbn [TraverseAndExtract]. cbn [mask_bits mask_hashes app] in Eb, Eh. rewrite Eb, lookup_next by done.
    rewrite (extract_hash_built _ _ _ _ _ _ Eh) by done. rewrite use_bit_advance, advance_advance. cbn [mask_bits mask_hashes length].
    simpl in Hp. rewrite Nat.mul_1_r in Hp. destruct (lookup_lt_is_Some_2 leaves p Hp) as [x Ex]. rewrite <- Hmask in Hp.
    destruct (lookup_lt_is_Some_2 vMatch p Hp) as [b Eb']. unfold part, slice. simpl. rewrite Nat.mul_1_r, (drop_S _ _ _ Ex), (drop_S _ _ _ Eb').
    cbn. rewrite orb_false_r, app_nil_r. by destruct b.
  - cbn [TraverseAndExtract]. destruct (children leaves h p Hmax Hh Hp) as (Ec1 & Ec2 & Ew). rewrite <- Hn in Ew. pose proof (pow2_S h) as E.
    destruct (child_slices leaves h p) as [E1 E2]. destruct (child_slices vMatch h p) as [E3 E4]. fold (part leaves (S h) p) in *. fold (part vMatch (S h) p) in *.
    assert (Elen : length (part vMatch (S h) p) = length (part leaves (S h) p)) by (unfold part; by rewrite !slice_length, Hmask).
    cbn [mask_bits] in Eb |- *. cbn [app] in Eb. rewrite Eb, lookup_next by done. rewrite use_bit_advance.
    destruct (existsb id (part vMatch (S h) p)) eqn:Eany; cbn [mask_hashes nodes_differ] in *; rewrite Eany in *.
    2:{ rewrite (extract_hash_built _ _ _ _ _ _ Eh) by (cbn; by rewrite Nat.add_0_r). rewrite advance_advance. by rewrite selected_none. }
    rewrite Ec1, Ec2, Ew, Elen, (selected_split (2 ^ h)) in *. fold (part leaves h (2 * p)) in E1. fold (part vMatch h (2 * p)) in E3.
    assert (Hp2 : (2 * p * 2 ^ h < length leaves)%nat) by lia.
    destruct (Nat.leb_spec (length (part leaves (S h) p)) (2 ^ h)) as [L|L]; cbn [negb tree].
    + rewrite (proj2 (Nat.leb_le _ _) L), app_nil_r in *. rewrite (take_ge _ _ L) in *. rewrite <- E1, <- E3 in *.
      rewrite (drop_ge _ (2 ^ h)) by done. rewrite app_nil_r in *.
      rewrite (IH (2 * p)%nat (advance 1 0 [] e) (preb ++ [true]) postb preh posth); try done; try lia.
      * rewrite advance_advance.
        cbn [selected app]. rewrite app_nil_r. do 3 f_equal. lia.
      * by rewrite Eb, <- app_assoc.
      * cbn. rewrite length_app. simpl. lia.
      * cbn. lia.
    + rewrite (proj2 (Nat.leb_gt _ _) L). fold (part leaves h (2 * p + 1)) in E2. fold (part vMatch h (2 * p + 1)) in E4.
      destruct Hd as (Hd1 & Hd2 & Hne). unfold part in L. rewrite slice_length in L. rewrite <- E1, <- E2, <- E3, <- E4 in *. rewrite <- !app_assoc in *.
      rewrite (IH (2 * p)%nat (advance 1 0 [] e) (preb ++ [true]) (mask_bits h (part vMatch h (2 * p + 1)) ++ postb) preh
        (mask_hashes h (part leaves h (2 * p + 1)) (part vMatch h (2 * p + 1)) ++ posth)); try done; try lia.
      * rewrite (IH (2 * p + 1)%nat _ (preb ++ true :: mask_bits h (part vMatch h (2 * p))) postb
          (preh ++ mask_hashes h (part leaves h (2 * p)) (part vMatch h (2 * p))) posth); try done; try lia.
        -- rewrite bool_decide_false, set_bad_false, !advance_advance by done. cbn [length app]. rewrite !length_app.
           do 2 f_equal. do 2 f_equal; lia.
        -- by rewrite Eb, <- app_assoc.
        -- cbn. rewrite length_app. simpl. lia.
        -- by rewrite Eh, <- app_assoc.
        -- cbn. rewrite length_app. lia.
      * by rewrite Eb, <- app_assoc.
      * cbn. rewrite length_app. simpl. lia.
      * cbn. lia.
Qed.

(** ** Whatever is extracted under the root is in the tree *)

(** the strings hashed by the extraction *)
Fixpoint extract_inputs (t : CPartialMerkleTree) (height : nat) (pos : Z) (e : extraction) : list valtype :=
  match height, vBits t !! nBitsUsed e with
  | S height, Some true =>
      let '(hl, el) := TraverseAndExtract t height (u32 (pos * 2)) (use_bit e) in
      if u32 (u32 (pos * 2) + 1) <? CalcTreeWidth (nTransactions t) height then
        let '(hr, _) := TraverseAndExtract t height (u32 (u32 (pos * 2) + 1)) el in
        (hl ++ hr) :: extract_inputs t height (u32 (pos * 2)) (use_bit e) ++ extract_inputs t height (u32 (u32 (pos * 2) + 1)) el
      else (hl ++ hl) :: extract_inputs t height (u32 (pos * 2)) (use_bit e)
  | _, _ => []
  end.

Definition in_tree (xi : uint256 * Z) : Prop := exists k, xi.2 = Z.of_nat k /\ leaves !! k = Some xi.1.

Lemma extract_hash_sound matched p e x e' : Forall hash_ok (vHash t) -> extract_hash t matched p e = (x, e') ->
  hash_ok x /\ exists sel, vMatched e' = vMatched e ++ map fst sel /\ vnIndex e' = vnIndex e ++ map snd sel /\
    Forall (fun s => matched = true /\ s = (x, p)) sel.
Proof.
  intros Hok. unfold extract_hash. destruct (vHash t !! nHashUsed e) as [y|] eqn:Ey.
  - intros [= <- <-]. split; [eapply Forall_lookup_1 in Hok; done|]. destruct matched.
    + exists [(y, p)]. split; [done|]. split; [done|]. by repeat constructor.
    + exists []. cbn. by rewrite !app_nil_r.
  - intros [= <- <-]. split; [done|]. exists []. cbn. by rewrite !app_nil_r.
Qed.

Lemma extract_sound h p e x e' : Forall hash_ok leaves -> Forall hash_ok (vHash t) -> (h <= 31)%nat -> (p * 2 ^ h < length leaves)%nat ->
  TraverseAndExtract t h (Z.of_nat p) e = (x, e') ->
  hash_ok x /\ exists sel, vMatched e' = vMatched e ++ map fst sel /\ vnIndex e' = vnIndex e ++ map snd sel /\
    (Forall D (extract_inputs t h (Z.of_nat p) e) -> Forall D (tree_inputs h (part leaves h p)) ->
     x = tree h (part leaves h p) -> Forall in_tree sel \/ collision D).
Proof.
  clear Hmask vMatch. intros Hok Hokt. revert p e x e'. induction h as [|h IH]; intros p e x e' Hh Hp; cbn [TraverseAndExtract extract_inputs].
  all: destruct (vBits t !! nBitsUsed e) as [b|]; [|intros [= <- <-]; split; [done|]; exists []; cbn; rewrite !app_nil_r; by repeat split; left].
  - intros E. apply extract_hash_sound in E as (Ox & sel & E1 & E2 & Hsel); [|done]. split; [done|]. exists sel. split; [done|]. split; [done|].
    intros _ _ ->. left. eapply Forall_impl; [exact Hsel|]. intros [y i] [_ [= -> ->]]. exists p. split; [done|]. cbn [fst].
    unfold part, slice. simpl in *. rewrite Nat.mul_1_r in *. destruct (lookup_lt_is_Some_2 leaves p Hp) as [z Ez]. by rewrite (drop_S _ _ _ Ez).
  - destruct b.
    2:{ intros E. apply extract_hash_sound in E as (Ox & sel & E1 & E2 & Hsel); [|done]. split; [done|]. exists sel. split; [done|]. split; [done|].
        intros _ _ _. left. eapply Forall_impl; [exact Hsel|]. intros s [[=] _]. }
    destruct (children leaves h p Hmax Hh Hp) as (-> & -> & Ew). rewrite Hn, Ew. pose proof (pow2_S h) as E. rewrite E in Hp.
    destruct (child_slices leaves h p) as [E1 E2]. fold (part leaves h (2 * p)) in E1. fold (part leaves h (2 * p + 1)) in E2. fold (part leaves (S h) p) in *.
    destruct (TraverseAndExtract t h (Z.of_nat (2 * p)) (use_bit e)) as [hl el] eqn:El.
    apply IH in El as (Ol & sl & Ml & Il & Hl); [|lia|lia]. cbn [use_bit vMatched vnIndex] in Ml, Il.
    assert (Okl : hash_ok (tree h (part leaves h (2 * p)))).
    { apply tree_ok; [|by apply Forall_take, Forall_drop]. unfold part. rewrite slice_length. pose proof (pow2_pos h). lia. }
    destruct (Nat.leb_spec (length (part leaves (S h) p)) (2 ^ h)) as [L|L]; cbn [negb].
    + intros [= <- <-]. split; [apply SHA256_size|]. exists sl. split; [done|]. split; [done|]. intros [Dx Ix]%Forall_cons_1 Ht.
      destruct (tree_inputs_half D h _ L Ht) as [Dt It]. cbn [tree]. rewrite (proj2 (Nat.leb_le _ _) L).
      rewrite (take_ge _ _ L) in E1. rewrite <- E1 in *. intros Ex.
      destruct (hash_pair_inj D _ _ _ _ Ol Okl Dx Dt Ex) as [[Ex' _]|]; [by apply Hl | by right].
    + destruct (TraverseAndExtract t h (Z.of_nat (2 * p + 1)) el) as [hr er] eqn:Er. assert (L' := L). unfold part in L'. rewrite slice_length in L'.
      apply IH in Er as (Or & sr & Mr & Ir & Hr); [|lia|lia]. intros [= <- <-]. split; [apply SHA256_size|].
      exists (sl ++ sr). cbn [set_bad vMatched vnIndex]. rewrite Mr, Ml, Ir, Il, !map_app, <- !app_assoc. split; [done|]. split; [done|].
      intros [Dx [Ixl Ixr]%Forall_app]%Forall_cons_1 Ht. destruct (tree_inputs_split D h _ L Ht) as (Dt & Itl & Itr).
      cbn [tree]. rewrite (proj2 (Nat.leb_gt _ _) L), <- E1, <- E2 in *. intros Ex.
      destruct (hash_pair_inj D _ _ _ _ Ol Okl Dx Dt Ex) as [[Ex1 Ex2]|]; [|by right].
      destruct (Hl Ixl Itl Ex1) as [Fl|]; [|by right]. destruct (Hr Ixr Itr Ex2) as [Fr|]; [|by right]. left. by apply Forall_app.
Qed.
End Extract.

(** ** Sizes *)

Lemma existsb_half k (m : list bool) : existsb id m = existsb id (take k m) || existsb id (drop k m).
Proof. rewrite <- existsb_app. by rewrite take_drop. Qed.

Lemma mask_sizes `{ScriptHashes} h l m : length l = length m -> (0 < length m <= 2 ^ h)%nat ->
  (length (mask_hashes h l m) <= length m)%nat /\ (length (mask_hashes h l m) <= length (mask_bits h m))%nat /\
  (length (mask_bits h m) < 2 ^ S h)%nat.
Proof.
  revert l m. induction h as [|h IH]; intros l m Elen Hm; [simpl; lia|]. cbn [mask_bits mask_hashes]. rewrite (pow2_S (S h)), pow2_S in *.
  pose proof (pow2_pos h). destruct (existsb id m); [|simpl; lia].
  destruct (IH (take (2 ^ h) l) (take (2 ^ h) m)) as (A1 & A2 & A3); [rewrite !length_take; lia | rewrite length_take; lia|]. rewrite length_take in A1.
  destruct (Nat.leb_spec (length m) (2 ^ h)) as [L|L]; cbn [length]; rewrite !length_app; [simpl; lia|].
  destruct (IH (drop (2 ^ h) l) (drop (2 ^ h) m)) as (B1 & B2 & B3); [rewrite !length_drop; lia | rewrite length_drop; lia|]. rewrite length_drop in B1.
  lia.
Qed.

(** ** The bits as bytes *)

Lemma bits_byte_bit l i : Z.testbit (bits_byte l) (Z.of_nat i) = default false (l !! i).
Proof.
  revert i. induction l as [|b l IH]; intros i; [by rewrite Z.bits_0|]. cbn [bits_byte]. rewrite Z.add_comm. destruct i as [|i].
  - by rewrite Z.testbit_0_r.
  - rewrite Nat2Z.inj_succ, Z.testbit_succ_r by lia. apply IH.
Qed.

Lemma byte_bits_byte l : (length l <= 8)%nat -> byte_bits (bits_byte l) = l ++ replicate (8 - length l) false.
Proof.
  intros Hl. unfold byte_bits. rewrite (map_ext _ (fun i => default false (l !! i)) ltac:(intros i; apply bits_byte_bit)).
  do 9 (destruct l as [|? l]; [done|]). simpl in Hl. lia.
Qed.

Lemma bits_bytes_spec fuel l : (length l <= fuel)%nat -> exists k, (k < 8)%nat /\ (8 * length (bits_bytes fuel l) = length l + k)%nat /\
  concat (map byte_bits (bits_bytes fuel l)) = l ++ replicate k false.
Proof.
  revert l. induction fuel as [|fuel IH]; intros l Hl.
  - destruct l; [|simpl in Hl; lia]. exists 0%nat. split; [lia | done].
  - destruct (decide (l = [])) as [->|Hne]; [exists 0%nat; split; [simpl; lia | done]|].
    replace (bits_bytes (S fuel) l) with (bits_byte (take 8 l) :: bits_bytes fuel (drop 8 l)) by (by destruct l). cbn [map concat length].
    assert (0 < length l)%nat by (destruct l; [done | simpl; lia]).
    rewrite byte_bits_byte by (rewrite length_take; lia). destruct (Nat.le_gt_cases 8 (length l)) as [L|L].
    + destruct (IH (drop 8 l)) as (k & Hk & E1 & E2); [rewrite length_drop; lia|]. exists k. rewrite length_drop in E1. split; [done|]. split; [lia|].
      rewrite E2, length_take, Nat.min_l, Nat.sub_diag by lia. cbn [replicate]. by rewrite app_nil_r, app_assoc, take_drop.
    + exists (8 - length l)%nat. rewrite drop_ge, take_ge by lia. replace (bits_bytes fuel []) with (@nil Z) by (by destruct fuel).
      cbn [map concat length]. rewrite app_nil_r. split; [lia|]. split; [lia | done].
Qed.

(** the tree a reader gets: some bits of padding *)
Definition padded (t : CPartialMerkleTree) (k : nat) : CPartialMerkleTree :=
  MkPartialMerkleTree (nTransactions t) (vBits t ++ replicate k false) (vHash t) false.

Lemma hash_reads : reads hash_ok id (fun h => h) (read 32).
Proof. intros h s Hh. unfold hash_ok in Hh. replace 32 with (zlen h) by (rewrite Hh; done). apply read_app. Qed.

Lemma partial_reads t s : is_u32 (nTransactions t) -> Forall hash_ok (vHash t) -> zlen (vHash t) <= MAX_SIZE -> zlen (vBits t) <= MAX_SIZE ->
  exists k, (k < 8)%nat /\ (exists m, length (vBits t) + k = 8 * m)%nat /\
    Unserialize_CPartialMerkleTree (Serialize_CPartialMerkleTree t ++ s) = Some (padded t k, s).
Proof.
  intros Hn Hok Hh Hb. destruct (bits_bytes_spec (length (vBits t)) (vBits t) (le_n _)) as (k & Hk & Elen & Ebits). exists k. split; [done|].
  split; [by exists (length (bits_bytes (length (vBits t)) (vBits t)))|]. unfold Unserialize_CPartialMerkleTree, Serialize_CPartialMerkleTree.
  rewrite <- !app_assoc. erewrite parser_bind_eq; [|apply (read_le_write 4); unfold is_u32 in Hn; simpl; lia].
  erewrite parser_bind_eq; [|apply (vector_reads _ _ _ _ hash_reads); done].
  erewrite parser_bind_eq; [|apply bytes_reads; unfold MAX_SIZE in *; lia]. unfold padded, id. rewrite Ebits. cbn. by rewrite map_id.
Qed.

(** ** Properties *)

Lemma part_root {A} (l : list A) : (0 < length l)%nat -> part l (depth (length l)) 0 = l.
Proof. intros Hl. unfold part, slice. rewrite drop_0. apply take_ge. by apply depth_pow. Qed.

Lemma mask_hashes_ok `{ScriptHashes} h l m : (0 < length l)%nat -> length m = length l -> Forall hash_ok l -> Forall hash_ok (mask_hashes h l m).
Proof.
  revert l m. induction h as [|h IH]; intros l m Hl Hm Hok; cbn [mask_hashes]; [by constructor; [apply tree_ok|]|].
  pose proof (pow2_pos h). destruct (existsb id m); [|by constructor; [apply tree_ok|]]. apply Forall_app. split.
  - apply IH; [rewrite length_take; lia | rewrite !length_take; lia | by apply Forall_take].
  - destruct (Nat.leb_spec (length m) (2 ^ h)); [done|]. apply IH; [rewrite length_drop; lia | rewrite !length_drop; lia | by apply Forall_drop].
Qed.

(** what the constructor builds *)
Lemma partial_tree_built `{ScriptHashes} vTxid vMatch : (0 < length vTxid)%nat -> zlen vTxid <= 2 ^ 31 -> length vMatch = length vTxid ->
  CPartialMerkleTree_of vTxid vMatch = Some (MkPartialMerkleTree (zlen vTxid) (mask_bits (depth (length vTxid)) vMatch)
    (mask_hashes (depth (length vTxid)) vTxid vMatch) false).
Proof.
  intros Hl Hmax Hm. unfold CPartialMerkleTree_of. pose proof (depth_bound _ Hl Hmax). rewrite u32_small by (unfold is_u32; lia).
  rewrite tree_height_spec by lia. cbn [mbind option_bind]. change 0 with (Z.of_nat 0).
  rewrite TraverseAndBuild_spec by (done || simpl; lia). cbn [mbind option_bind app].
  fold (part vMatch (depth (length vTxid)) 0). fold (part vTxid (depth (length vTxid)) 0). rewrite part_root by done.
  by rewrite <- Hm, part_root by lia.
Qed.

Lemma ExtractMatches_unfold `{ScriptHashes} t index n : nTransactions t = Z.of_nat n -> (0 < n)%nat -> Z.of_nat n <= GetMaxBlockWeight / MIN_TRANSACTION_WEIGHT ->
  zlen (vHash t) <= Z.of_nat n -> zlen (vHash t) <= zlen (vBits t) ->
  ExtractMatches t index =
  let '(root, e) := TraverseAndExtract t (depth n) 0 (Extraction (fBad t) 0 0 [] index) in
  if e_bad e then Some (uint256_zero, e)
  else if negb ((Z.of_nat (nBitsUsed e) + 7) / 8 =? (zlen (vBits t) + 7) / 8) then Some (uint256_zero, e)
  else if negb (nHashUsed e =? length (vHash t))%nat then Some (uint256_zero, e)
  else Some (root, e).
Proof.
  intros En Hn Hmax H1 H2. unfold ExtractMatches. rewrite En. pose proof Hmax as Hm. change (GetMaxBlockWeight / MIN_TRANSACTION_WEIGHT) with 33333 in Hm.
  rewrite (proj2 (Z.eqb_neq (Z.of_nat n) 0)), !Z.gtb_ltb, (proj2 (Z.ltb_ge _ _) Hmax), (proj2 (Z.ltb_ge _ _) H1), (proj2 (Z.ltb_ge _ _) H2) by lia.
  rewrite tree_height_spec by (pose proof (depth_bound n Hn); lia). done.
Qed.

(** A partial tree built for the transactions of a block and a selection of them
    survives serialization, and is read back as the block's Merkle root with exactly
    the selected transactions and their positions, in order (for distinct
    transactions, unless two of the strings hashed for the root collide). *)
Theorem partial_tree_roundtrip (hashes : ScriptHashes) vTxid vMatch rest :
  (0 < length vTxid)%nat -> zlen vTxid <= GetMaxBlockWeight / MIN_TRANSACTION_WEIGHT -> length vMatch = length vTxid ->
  Forall hash_ok vTxid -> NoDup vTxid ->
  (exists t t' root mutated e, CPartialMerkleTree_of vTxid vMatch = Some t /\
    Unserialize_CPartialMerkleTree (Serialize_CPartialMerkleTree t ++ rest) = Some (t', rest) /\
    ComputeMerkleRoot vTxid = Some (root, mutated) /\ ExtractMatches t' [] = Some (root, e) /\ e_bad e = false /\
    vMatched e = map fst (selected vTxid vMatch 0) /\ vnIndex e = map snd (selected vTxid vMatch 0)) \/
  collision (fun x => x ∈ root_inputs vTxid).
Proof.
  intros Hl Hsmall Hm Hok Hnd. change (GetMaxBlockWeight / MIN_TRANSACTION_WEIGHT) with 33333 in Hsmall.
  assert (Hmax : zlen vTxid <= 2 ^ 31) by lia. set (d := depth (length vTxid)). pose proof (depth_pow _ Hl) as Hd. fold d in Hd.
  pose proof (depth_bound _ Hl Hmax) as Hd31. fold d in Hd31.
  destruct (nodes_differ_NoDup _ d vTxid Hd Hok (Forall_among _) Hnd) as [Hdiff|]; [|by right]. left.
  destruct (mask_sizes d vTxid vMatch ltac:(lia) ltac:(lia)) as (S1 & S2 & S3).
  assert (Hd16 : (2 ^ S d <= 2 ^ 17)%nat) by (apply Nat.pow_le_mono_r; [lia|]; assert (d <= 16)%nat; [|lia]; apply Nat.log2_up_le_pow2; [done|];
    pose proof (pow2_Z 16); lia). pose proof (pow2_Z 17) as E17. change (2 ^ Z.of_nat 17) with 131072 in E17.
  set (t := MkPartialMerkleTree (zlen vTxid) (mask_bits d vMatch) (mask_hashes d vTxid vMatch) false).
  destruct (partial_reads t rest) as (k & Hk & [m Em] & Eread); [unfold is_u32; cbn; lia | by apply mask_hashes_ok | cbn; unfold MAX_SIZE; lia | cbn; unfold MAX_SIZE; lia |].
  pose proof (extract_built vTxid vMatch (padded t k) Hmax Hm eq_refl d 0 (Extraction false 0 0 [] []) [] (replicate k false) [] [] Hd31) as Ee.
  replace (part vTxid d 0) with vTxid in Ee by (symmetry; by apply part_root).
  replace (part vMatch d 0) with vMatch in Ee by (symmetry; unfold d; rewrite <- Hm; apply part_root; lia).
  specialize (Ee ltac:(simpl; lia) eq_refl eq_refl ltac:(cbn; by rewrite app_nil_r) eq_refl Hdiff). change (Z.of_nat 0) with 0 in Ee.
  eexists t, (padded t k), _, _, _. split; [by apply partial_tree_built|]. split; [exact Eread|]. split; [by apply ComputeMerkleRoot_spec|].
  rewrite (ExtractMatches_unfold (padded t k) [] (length vTxid)); [| done | done | done | cbn; lia | cbn; rewrite length_app; lia].
  fold d. cbn [fBad padded]. rewrite Ee. unfold advance. cbn [e_bad nBitsUsed nHashUsed vBits vHash padded t Nat.add app].
  rewrite Nat.eqb_refl. rewrite (proj2 (Z.eqb_eq _ _)); [done|]. cbn [vBits t] in Em. rewrite length_app, length_replicate.
  rewrite Em. replace (Z.of_nat (8 * m) + 7) with (7 + Z.of_nat m * 8) by lia. rewrite Z.div_add by lia. change (7 / 8) with 0.
  symmetry. apply Z.div_unique with (Z.of_nat (length (mask_bits d vMatch)) + 7 - 8 * Z.of_nat m); lia.
Qed.

Lemma partial_tree_roundtrip_witness :
  let vTxid := map sample_leaf [1; 2; 3; 4; 5] in let vMatch := [false; true; false; false; true] in
  (exists t t' root mutated e, @CPartialMerkleTree_of sample_hashes vTxid vMatch = Some t /\
    Unserialize_CPartialMerkleTree (Serialize_CPartialMerkleTree t ++ [7]) = Some (t', [7]) /\
    @ComputeMerkleRoot sample_hashes vTxid = Some (root, mutated) /\ @ExtractMatches sample_hashes t' [] = Some (root, e) /\ e_bad e = false /\
    vMatched e = map fst (selected vTxid vMatch 0) /\ vnIndex e = map snd (selected vTxid vMatch 0)) \/
  @collision sample_hashes (fun x => x ∈ @root_inputs sample_hashes vTxid).
Proof.
  apply (partial_tree_roundtrip sample_hashes (map sample_leaf [1; 2; 3; 4; 5]) [false; true; false; false; true] [7]).
  - simpl. lia.
  - vm_compute. discriminate.
  - done.
  - by apply Forall_map; repeat constructor.
  - apply (bool_decide_unpack _). vm_compute. exact I.
Defined.

(** the strings [ExtractMatches] hashes *)
Definition partial_inputs `{ScriptHashes} (t : CPartialMerkleTree) : list valtype :=
  extract_inputs t (depth (Z.to_nat (nTransactions t))) 0 (Extraction (fBad t) 0 0 [] []).

(** C28: whatever partial tree a peer sends that states the right number of transactions of a
    block, if the extracted root is the block's Merkle root (and not null) then every
    extracted transaction is one of the block, at the position given, unless two of the
    strings hashed for the two roots collide. *)
Theorem partial_tree_sound (hashes : ScriptHashes) t vTxid root mutated e :
  Forall hash_ok vTxid -> Forall hash_ok (vHash t) -> nTransactions t = zlen vTxid ->
  ComputeMerkleRoot vTxid = Some (root, mutated) -> root <> uint256_zero -> ExtractMatches t [] = Some (root, e) ->
  length (vMatched e) = length (vnIndex e) /\
  ((forall i x k, vMatched e !! i = Some x -> vnIndex e !! i = Some k -> 0 <= k /\ vTxid !! Z.to_nat k = Some x) \/
   collision (fun x => x ∈ partial_inputs t ++ root_inputs vTxid)).
Proof.
  intros Hok Hokt Hn Hroot Hnz. unfold ExtractMatches. rewrite Hn.
  destruct (Z.eqb_spec (zlen vTxid) 0) as [|H0]; [congruence|]. rewrite !Z.gtb_ltb.
  destruct (Z.ltb_spec (GetMaxBlockWeight / MIN_TRANSACTION_WEIGHT) (zlen vTxid)) as [|Hmax]; [congruence|].
  destruct (_ <? _); [congruence|]. destruct (_ <? _); [congruence|]. change (GetMaxBlockWeight / MIN_TRANSACTION_WEIGHT) with 33333 in Hmax.
  assert (Hl : (0 < length vTxid)%nat) by lia. assert (Hmax' : zlen vTxid <= 2 ^ 31) by lia. pose proof (depth_bound _ Hl Hmax').
  rewrite tree_height_spec by lia. cbn [mbind option_bind]. change 0 with (Z.of_nat 0) at 1.
  destruct (TraverseAndExtract t _ _ _) as [x e'] eqn:Ee. destruct (e_bad e'); [congruence|].
  destruct (negb _); [congruence|]. destruct (negb _); [congruence|]. intros [= -> ->].
  rewrite ComputeMerkleRoot_spec in Hroot by done. injection Hroot as Hroot _.
  destruct (extract_sound (fun x => x ∈ partial_inputs t ++ root_inputs vTxid) vTxid t Hmax' Hn (depth (length vTxid)) 0 _ _ _ Hok Hokt ltac:(done) ltac:(simpl; lia) Ee) as (_ & sel & E1 & E2 & Hsel).
  assert (Hin : Forall (fun x => x ∈ partial_inputs t ++ root_inputs vTxid) (extract_inputs t (depth (length vTxid)) (Z.of_nat 0) (Extraction (fBad t) 0 0 [] []))).
  { replace (depth (length vTxid)) with (depth (Z.to_nat (nTransactions t))) by (rewrite Hn; f_equal; lia). apply Forall_among_l. }
  cbn [vMatched vnIndex app] in E1, E2. rewrite E1, E2, !length_map. split; [done|].
  rewrite part_root in Hsel by done. destruct (Hsel Hin (Forall_among_r _ _) (eq_sym Hroot)) as [F|]; [|by right]. left. intros i x k Hx Hk.
  apply list_lookup_fmap_Some in Hx as ([y j] & Hx & Es). apply list_lookup_fmap_Some in Hk as ([y' j'] & Hk & Es').
  cbn [fst snd] in Hx, Hk. subst y j'. rewrite Es in Es'. injection Es' as <- <-.
  eapply Forall_lookup_1 in F as (k' & Ek & Ey); [|done]. cbn [fst snd] in *. subst j. rewrite Nat2Z.id. split; [lia | done].
Qed.

Definition sample_partial : CPartialMerkleTree :=
  default (MkPartialMerkleTree 0 [] [] true)
    (@CPartialMerkleTree_of sample_hashes (map sample_leaf [1; 2; 3; 4; 5]) [false; true; false; false; true]).

Definition sample_root : uint256 := default uint256_zero (fst <$> @ComputeMerkleRoot sample_hashes (map sample_leaf [1; 2; 3; 4; 5])).
Definition sample_extraction : extraction :=
  default (Extraction true 0 0 [] []) (snd <$> @ExtractMatches sample_hashes sample_partial []).

Lemma partial_tree_sound_witness :
  length (vMatched sample_extraction) = length (vnIndex sample_extraction) /\
  ((forall i x k, vMatched sample_extraction !! i = Some x -> vnIndex sample_extraction !! i = Some k ->
     0 <= k /\ map sample_leaf [1; 2; 3; 4; 5] !! Z.to_nat k = Some x) \/
   @collision sample_hashes (fun x => x ∈ @partial_inputs sample_hashes sample_partial ++ @root_inputs sample_hashes (map sample_leaf [1; 2; 3; 4; 5]))).
Proof.
  apply (partial_tree_sound sample_hashes sample_partial (map sample_leaf [1; 2; 3; 4; 5]) sample_root false sample_extraction).
  - by apply Forall_map; repeat constructor.
  - apply (bool_decide_unpack _). vm_compute. exact I.
  - vm_compute. reflexivity.
  - vm_compute. reflexivity.
  - vm_compute. discriminate.
  - vm_compute. reflexivity.
Defined.
