(* ===== verification/VersionBits.v ===== *)
(** * Version bits (versionbits.h, versionbits.cpp)

    The states of a rule change that blocks signal for: [GetStateFor] computes them
    from period to period, walking back only to what its cache knows or to the start
    time.  The reference is the state machine of the deployment as an inductive
    relation on the blocks that end a period, without a cache and from the first
    period on.  The theorems: the function never fails, agrees with the machine and
    keeps its cache correct; the states of a deployment only ever advance; and
    [GetStateSinceHeightFor] finds the block where the current state began. *)

From S2P Require Import Chain ActiveChain.
From S2P Require Import Prelude LockTime.
#[local] Open Scope Z_scope.

Inductive ThresholdState := THRESHOLD_DEFINED | THRESHOLD_STARTED | THRESHOLD_LOCKED_IN | THRESHOLD_ACTIVE | THRESHOLD_FAILED.

#[global] Instance ThresholdState_eq_dec : EqDecision ThresholdState.
Proof. solve_decision. Defined.

(** the virtual methods of [AbstractThresholdConditionChecker], for given parameters *)
Record ThresholdConditionChecker := MkThresholdConditionChecker {
  Condition : CBlockIndex -> bool;
  BeginTime : Z;
  EndTime : Z;
  Period : Z;
  Threshold : Z;
}.

(** ** The deployments *)

Definition VERSIONBITS_TOP_BITS : Z := 0x20000000.
Definition VERSIONBITS_TOP_BITS_ASSETS : Z := 0x30000000.
Definition VERSIONBITS_TOP_MASK : Z := i32 0xE0000000.

Record BIP9Deployment := MkBIP9Deployment { bit : Z; nStartTime : Z; nTimeout : Z; nWindowSize : Z; nThreshold : Z }.

(** [VersionBitsConditionChecker] with its mask *)
Definition VersionBitsMask (d : BIP9Deployment) : Z := u32 (Z.shiftl 1 (bit d)).
Definition VersionBitsConditionChecker (d : BIP9Deployment) (nMinerConfirmationWindow nRuleChangeActivationThreshold : Z)
    : ThresholdConditionChecker := {|
  Condition b := (Z.land (idx_nVersion (header b)) VERSIONBITS_TOP_MASK =? VERSIONBITS_TOP_BITS) &&
                 negb (Z.land (u32 (idx_nVersion (header b))) (VersionBitsMask d) =? 0);
  BeginTime := nStartTime d;
  EndTime := nTimeout d;
  Period := i32 (if nWindowSize d =? 0 then nMinerConfirmationWindow else nWindowSize d);
  Threshold := i32 (if nThreshold d =? 0 then nRuleChangeActivationThreshold else nThreshold d);
|}.

(** ** GetStateFor *)

Abbreviation ThresholdConditionCache := (gmap (option ptr) ThresholdState).

Section Checker.
Context (s : store) (chk : ThresholdConditionChecker).

(** [for (i = 0; i < nPeriod; i++) { if (Condition(pindexCount)) count++; pindexCount =
    pindexCount->pprev; }]; [None] is a null pointer that is followed *)
Fixpoint count_conditions (n : nat) (pindexCount : option ptr) (count : Z) : option Z :=
  match n with
  | O => Some count
  | S n =>
      p ← pindexCount;
      b ← s !! p;
      count_conditions n (pprev b) (if Condition chk b then count + 1 else count)
  end.

(** the switch *)
Definition next_state (p : ptr) (state : ThresholdState) : option ThresholdState :=
  match state with
  | THRESHOLD_DEFINED =>
      m ← GetMedianTimePast s p;
      Some (if m >=? EndTime chk then THRESHOLD_FAILED else if m >=? BeginTime chk then THRESHOLD_STARTED else THRESHOLD_DEFINED)
  | THRESHOLD_STARTED =>
      m ← GetMedianTimePast s p;
      if m >=? EndTime chk then Some THRESHOLD_FAILED
      else
        count ← count_conditions (Z.to_nat (Period chk)) (Some p) 0;
        Some (if count >=? Threshold chk then THRESHOLD_LOCKED_IN else THRESHOLD_STARTED)
  | THRESHOLD_LOCKED_IN => Some THRESHOLD_ACTIVE
  | THRESHOLD_FAILED | THRESHOLD_ACTIVE => Some state
  end.

(** [pindexPrev->GetAncestor(pindexPrev->nHeight - ((pindexPrev->nHeight + 1) % nPeriod))] *)
Definition period_end (p : ptr) : option (option ptr) :=
  b ← s !! p;
  GetAncestor s p (nHeight b - Z.rem (nHeight b + 1) (Period chk)).

(** one turn of the walk backwards; the head of the list is the back of [vToCompute] *)
Definition walk_back_step (st : option ptr * list ptr * ThresholdConditionCache) :
    option ptr * list ptr * ThresholdConditionCache + option (option ptr * list ptr * ThresholdConditionCache) :=
  let '(pindexPrev, vToCompute, cache) := st in
  if bool_decide (is_Some (cache !! pindexPrev)) then inr (Some st)
  else
    match pindexPrev with
    | None => inr (Some (None, vToCompute, <[None := THRESHOLD_DEFINED]> cache))
    | Some p =>
        match s !! p, GetMedianTimePast s p with
        | Some b, Some m =>
            if m <? BeginTime chk then inr (Some (pindexPrev, vToCompute, <[pindexPrev := THRESHOLD_DEFINED]> cache))
            else
              match GetAncestor s p (nHeight b - Period chk) with
              | Some q => inl (q, p :: vToCompute, cache)
              | None => inr None
              end
        | _, _ => inr None
        end
    end.

(** the walk forwards *)
Fixpoint walk_forward (vToCompute : list ptr) (state : ThresholdState) (cache : ThresholdConditionCache)
    : option (ThresholdState * ThresholdConditionCache) :=
  match vToCompute with
  | [] => Some (state, cache)
  | p :: rest =>
      stateNext ← next_state p state;
      walk_forward rest stateNext (<[Some p := stateNext]> cache)
  end.

(** [GetStateFor(pindexPrev, params, cache)]; the bound on the walk is the height *)
Definition GetStateFor (pindexPrev : option ptr) (cache : ThresholdConditionCache)
    : option (ThresholdState * ThresholdConditionCache) :=
  pindexPrev ← match pindexPrev with None => Some None | Some p => period_end p end;
  let fuel := match pindexPrev ≫= fun p => s !! p with Some b => Z.to_nat (nHeight b) + 3 | None => 3 end%nat in
  r ← while_loop walk_back_step fuel (pindexPrev, [], cache);
  st ← (r : option (option ptr * list ptr * ThresholdConditionCache));
  let '(pindexPrev, vToCompute, cache) := st in
  state ← cache !! pindexPrev;
  walk_forward vToCompute state cache.

(** ** GetStateSinceHeightFor *)

Definition since_step (initialState : ThresholdState) (st : ptr * option ptr * ThresholdConditionCache) :
    ptr * option ptr * ThresholdConditionCache + option (Z * ThresholdConditionCache) :=
  let '(pindexPrev, previousPeriodParent, cache) := st in
  let found := inr (b ← s !! pindexPrev; Some (nHeight b + 1, cache)) in
  match previousPeriodParent with
  | None => found
  | Some q =>
      match GetStateFor (Some q) cache with
      | None => inr None
      | Some (state, cache) =>
          if bool_decide (state = initialState) then
            match s !! q with
            | None => inr None
            | Some c =>
                match GetAncestor s q (nHeight c - Period chk) with
                | None => inr None
                | Some r => inl (q, r, cache)
                end
            end
          else inr (b ← s !! pindexPrev; Some (nHeight b + 1, cache))
      end
  end.

(** [GetStateSinceHeightFor(pindexPrev, params, cache)]; a null pointer is only followed
    when the state is not [THRESHOLD_DEFINED] *)
Definition GetStateSinceHeightFor (pindexPrev : option ptr) (cache : ThresholdConditionCache) : option (Z * ThresholdConditionCache) :=
  r ← GetStateFor pindexPrev cache;
  let '(initialState, cache) := (r : ThresholdState * ThresholdConditionCache) in
  if bool_decide (initialState = THRESHOLD_DEFINED) then Some (0, cache)
  else
    p ← pindexPrev;
    e ← period_end p;
    p ← e;
    b ← s !! p;
    q ← GetAncestor s p (nHeight b - Period chk);
    r ← while_loop (since_step initialState) (S (Z.to_nat (nHeight b + 1))) (p, q, cache);
    r.

(** ** GetStateStatisticsFor *)

Record BIP9Stats := MkBIP9Stats { stat_period : Z; stat_threshold : Z; elapsed : Z; stat_count : Z; possible : bool }.

(** [while (pindexEndOfPrevPeriod->nHeight != currentIndex->nHeight)] *)
Fixpoint count_back (fuel : nat) (height : Z) (current : option ptr) (count : Z) : option Z :=
  match fuel with
  | O => None
  | S fuel =>
      p ← current;
      b ← s !! p;
      if height =? nHeight b then Some count
      else count_back fuel height (pprev b) (if Condition chk b then count + 1 else count)
  end.

(** [GetStateStatisticsFor(pindex, params)] *)
Definition GetStateStatisticsFor (pindex : option ptr) : option BIP9Stats :=
  match pindex with
  | None => Some (MkBIP9Stats (Period chk) (Threshold chk) 0 0 false)
  | Some p =>
      b ← s !! p;
      e ← period_end p;
      q ← e;
      c ← s !! q;
      let elapsed := nHeight b - nHeight c in
      count ← count_back (S (Z.to_nat (nHeight b + 1))) (nHeight c) (Some p) 0;
      Some (MkBIP9Stats (Period chk) (Threshold chk) elapsed count (Period chk - Threshold chk >=? elapsed - count))
  end.
End Checker.

(** ** The deployments of a network *)

(** the fields of [Consensus::Params] used here *)
Record VersionBitsParams := MkVersionBitsParams {
  vDeployments : list BIP9Deployment;
  nMinerConfirmationWindow : Z;
  nRuleChangeActivationThreshold : Z;
}.

Definition checker_of (params : VersionBitsParams) (d : BIP9Deployment) : ThresholdConditionChecker :=
  VersionBitsConditionChecker d (nMinerConfirmationWindow params) (nRuleChangeActivationThreshold params).

(** [VersionBitsCache::caches] *)
Abbreviation VersionBitsCache := (list ThresholdConditionCache).

Section Deployments.
Context (s : store) (params : VersionBitsParams).

Definition VersionBitsState (pindexPrev : option ptr) (pos : nat) (caches : VersionBitsCache) : option (ThresholdState * VersionBitsCache) :=
  d ← vDeployments params !! pos;
  cache ← caches !! pos;
  r ← GetStateFor s (checker_of params d) pindexPrev cache;
  Some (r.1, <[pos := r.2]> caches).

Definition VersionBitsStateSinceHeight (pindexPrev : option ptr) (pos : nat) (caches : VersionBitsCache) : option (Z * VersionBitsCache) :=
  d ← vDeployments params !! pos;
  cache ← caches !! pos;
  r ← GetStateSinceHeightFor s (checker_of params d) pindexPrev cache;
  Some (r.1, <[pos := r.2]> caches).

Definition VersionBitsStatistics (pindexPrev : option ptr) (pos : nat) : option BIP9Stats :=
  d ← vDeployments params !! pos; GetStateStatisticsFor s (checker_of params d) pindexPrev.

Definition DEPLOYMENT_ASSETS : nat := 1.

(** the global flag [fAssetsIsActive] with the caches; [tip] is [chainActive.Tip()] *)
Definition AreAssetsDeployed (tip : option ptr) (fAssetsIsActive : bool) (caches : VersionBitsCache) : option (bool * VersionBitsCache) :=
  if fAssetsIsActive then Some (true, caches)
  else
    r ← VersionBitsState tip DEPLOYMENT_ASSETS caches;
    Some (bool_decide (r.1 = THRESHOLD_ACTIVE), r.2).

Definition signalled (state : ThresholdState) : bool :=
  match state with THRESHOLD_LOCKED_IN | THRESHOLD_STARTED => true | _ => false end.

(** the loop over the deployments *)
Fixpoint version_loop (positions : list nat) (pindexPrev : option ptr) (nVersion : Z) (caches : VersionBitsCache) : option (Z * VersionBitsCache) :=
  match positions with
  | [] => Some (nVersion, caches)
  | pos :: positions =>
      d ← vDeployments params !! pos;
      r ← VersionBitsState pindexPrev pos caches;
      version_loop positions pindexPrev (if signalled r.1 then i32 (Z.lor (u32 nVersion) (VersionBitsMask d)) else nVersion) r.2
  end.

(** the result, the flag and the caches *)
Definition ComputeBlockVersion (tip pindexPrev : option ptr) (fAssetsIsActive : bool) (caches : VersionBitsCache)
    : option (Z * bool * VersionBitsCache) :=
  a ← AreAssetsDeployed tip fAssetsIsActive caches;
  r ← version_loop (seq 0 (length (vDeployments params))) pindexPrev (if (a.1 : bool) then VERSIONBITS_TOP_BITS_ASSETS else VERSIONBITS_TOP_BITS) a.2;
  Some (r.1, a.1, r.2).
End Deployments.

(** [CMainParams] *)
Definition MainDeployments : VersionBitsParams := {|
  vDeployments := [
    MkBIP9Deployment 28 1653004800 1653264000 0 0;
    MkBIP9Deployment 6 1653004800 1653264000 0 0;
    MkBIP9Deployment 7 1653004800 1653264000 0 0;
    MkBIP9Deployment 8 1653004800 1653264000 0 0;
    MkBIP9Deployment 9 1653004800 1653264000 0 0;
    MkBIP9Deployment 10 1653004800 1653264000 0 0;
    MkBIP9Deployment 3 1688961600 1720584000 4032 3226];
  nMinerConfirmationWindow := 2016;
  nRuleChangeActivationThreshold := 1916;
|}.

(** ** The state machine *)

(** the last [n] blocks, the newest first *)
Definition recent (s : store) (n : nat) (p : ptr) : list CBlockIndex := omap (fun i => up s p i ≫= fun q => s !! q) (seq 0 n).

Definition signals (s : store) (chk : ThresholdConditionChecker) (n : Z) (p : ptr) : Z :=
  zlen (List.filter (Condition chk) (recent s (Z.to_nat n) p)).

(** the moves of a deployment over the period that [p] ends, by its median time and
    the number of its blocks that signal *)
Inductive moves (s : store) (chk : ThresholdConditionChecker) (p : ptr) : ThresholdState -> ThresholdState -> Prop :=
| moves_timeout st m : st = THRESHOLD_DEFINED \/ st = THRESHOLD_STARTED ->
    GetMedianTimePast s p = Some m -> EndTime chk <= m -> moves s chk p st THRESHOLD_FAILED
| moves_wait m : GetMedianTimePast s p = Some m -> m < EndTime chk -> m < BeginTime chk ->
    moves s chk p THRESHOLD_DEFINED THRESHOLD_DEFINED
| moves_start m : GetMedianTimePast s p = Some m -> BeginTime chk <= m < EndTime chk ->
    moves s chk p THRESHOLD_DEFINED THRESHOLD_STARTED
| moves_lock_in m : GetMedianTimePast s p = Some m -> m < EndTime chk -> Threshold chk <= signals s chk (Period chk) p ->
    moves s chk p THRESHOLD_STARTED THRESHOLD_LOCKED_IN
| moves_continue m : GetMedianTimePast s p = Some m -> m < EndTime chk -> signals s chk (Period chk) p < Threshold chk ->
    moves s chk p THRESHOLD_STARTED THRESHOLD_STARTED
| moves_activate : moves s chk p THRESHOLD_LOCKED_IN THRESHOLD_ACTIVE
| moves_active : moves s chk p THRESHOLD_ACTIVE THRESHOLD_ACTIVE
| moves_failed : moves s chk p THRESHOLD_FAILED THRESHOLD_FAILED.

(** the end of the period before the one that [p], of height [h], ends *)
Definition period_before (s : store) (chk : ThresholdConditionChecker) (p : ptr) (h : Z) : option ptr :=
  if h <? Period chk then None else up s p (Z.to_nat (Period chk)).

(** the state after the period that a block ends, from the first period on *)
Inductive deployment (s : store) (chk : ThresholdConditionChecker) : option ptr -> ThresholdState -> Prop :=
| deployment_genesis : deployment s chk None THRESHOLD_DEFINED
| deployment_period p b st st' : s !! p = Some b -> (nHeight b + 1) mod Period chk = 0 ->
    deployment s chk (period_before s chk p (nHeight b)) st -> moves s chk p st st' ->
    deployment s chk (Some p) st'.

(** the end of the last full period up to [p] *)
Definition last_period (s : store) (chk : ThresholdConditionChecker) (p : ptr) (h : Z) : option ptr :=
  if h + 1 <? Period chk then None else up s p (Z.to_nat ((h + 1) mod Period chk)).

Definition cache_ok (s : store) (chk : ThresholdConditionChecker) (cache : ThresholdConditionCache) : Prop :=
  forall e st, cache !! e = Some st -> deployment s chk e st.

Section Machine.
Context (s : store) (chk : ThresholdConditionChecker).
Hypothesis Hs : store_ok s.
Hypothesis Hperiod : 0 < Period chk.

(** the blocks that end a period *)
Definition boundary (e : option ptr) : Prop :=
  match e with None => True | Some p => exists b, s !! p = Some b /\ (nHeight b + 1) mod Period chk = 0 end.

Lemma boundary_height p b : s !! p = Some b -> (nHeight b + 1) mod Period chk = 0 ->
  exists k, 1 <= k /\ nHeight b + 1 = k * Period chk.
Proof.
  intros Hp Hm. pose proof (node_height _ _ (Hs p b Hp)). exists ((nHeight b + 1) / Period chk).
  pose proof (Z.div_mod (nHeight b + 1) (Period chk) ltac:(lia)). split; [|nia]. nia.
Qed.

Lemma period_before_boundary p b : s !! p = Some b -> (nHeight b + 1) mod Period chk = 0 ->
  boundary (period_before s chk p (nHeight b)) /\
  forall q, period_before s chk p (nHeight b) = Some q -> up s p (Z.to_nat (Period chk)) = Some q /\
    exists c, s !! q = Some c /\ nHeight c = nHeight b - Period chk.
Proof.
  intros Hp Hm. destruct (boundary_height p b Hp Hm) as (k & Hk & Ek). unfold period_before.
  destruct (Z.ltb_spec (nHeight b) (Period chk)) as [Hlt|Hge]; [done|].
  destruct (up_height s p b (Z.to_nat (Period chk)) Hs Hp ltac:(lia)) as (q & c & Hu & Hq & Hh).
  rewrite Z2Nat.id in Hh by lia. rewrite Hu. split; [|intros ? [= <-]; eauto]. exists c. split; [done|].
  rewrite Hh. replace (nHeight b - Period chk + 1) with ((k - 1) * Period chk) by lia. apply Z.mod_mul. lia.
Qed.

(** [GetAncestor] finds the period before *)
Lemma GetAncestor_period p b : s !! p = Some b -> (nHeight b + 1) mod Period chk = 0 ->
  GetAncestor s p (nHeight b - Period chk) = Some (period_before s chk p (nHeight b)).
Proof.
  intros Hp Hm. rewrite (GetAncestor_spec s s p b) by done. unfold period_before. rewrite Z.gtb_ltb, (proj2 (Z.ltb_ge _ _)) by lia.
  cbn [orb]. replace (nHeight b - Period chk <? 0) with (nHeight b <? Period chk) by (destruct (Z.ltb_spec (nHeight b) (Period chk)), (Z.ltb_spec (nHeight b - Period chk) 0); lia || done).
  destruct (Z.ltb_spec (nHeight b) (Period chk)); [done|]. do 3 f_equal. lia.
Qed.

(** the rounding down at the start *)
Lemma period_end_spec p b : s !! p = Some b ->
  period_end s chk p = Some (last_period s chk p (nHeight b)) /\ boundary (last_period s chk p (nHeight b)).
Proof.
  intros Hp. pose proof (node_height _ _ (Hs p b Hp)) as Hh. unfold period_end. rewrite Hp. cbn [mbind option_bind].
  rewrite Z.rem_mod_nonneg by lia. rewrite (GetAncestor_spec s s p b) by done. unfold last_period.
  pose proof (Z.div_mod (nHeight b + 1) (Period chk) ltac:(lia)) as Hd. pose proof (Z.mod_pos_bound (nHeight b + 1) (Period chk) ltac:(lia)).
  rewrite Z.gtb_ltb, (proj2 (Z.ltb_ge _ _)) by lia. cbn [orb].
  destruct (Z.ltb_spec (nHeight b + 1) (Period chk)) as [Hlt|Hge].
  { rewrite Z.mod_small, (proj2 (Z.ltb_lt _ _)) by lia. done. }
  assert (1 <= (nHeight b + 1) / Period chk) by (apply Z.div_le_lower_bound; lia).
  rewrite (proj2 (Z.ltb_ge _ _)) by nia. replace (nHeight b - (nHeight b - (nHeight b + 1) mod Period chk)) with ((nHeight b + 1) mod Period chk) by lia.
  split; [done|]. destruct (up_height s p b (Z.to_nat ((nHeight b + 1) mod Period chk)) Hs Hp ltac:(nia)) as (q & c & Hu & Hq & Hc).
  rewrite Hu. exists c. split; [done|]. rewrite Hc, Z2Nat.id by lia.
  replace (nHeight b - (nHeight b + 1) mod Period chk + 1) with ((nHeight b + 1) / Period chk * Period chk) by lia. apply Z.mod_mul. lia.
Qed.

(** *** One period *)

Lemma recent_S n p b : s !! p = Some b -> recent s (S n) p = b :: match pprev b with Some q => recent s n q | None => [] end.
Proof.
  intros Hp. unfold recent. cbn [seq]. rewrite <- fmap_S_seq. cbn [omap list_omap up mbind option_bind]. rewrite Hp. f_equal.
  induction (seq 0 n) as [|i l IH]; cbn [fmap list_fmap omap list_omap].
  - by destruct (pprev b).
  - cbn [up]. rewrite Hp. cbn [mbind option_bind]. etransitivity; [apply (f_equal (fun t => match _ with Some y => y :: t | None => t end) IH)|].
    by destruct (pprev b).
Qed.

Lemma count_conditions_spec n p b count : s !! p = Some b -> Z.of_nat n <= nHeight b + 1 ->
  count_conditions s chk n (Some p) count = Some (count + zlen (List.filter (Condition chk) (recent s n p))).
Proof.
  revert p b count. induction n as [|n IH]; intros p b count Hp Hn; [cbn; f_equal; lia|].
  rewrite (recent_S n p b Hp). cbn [count_conditions mbind option_bind]. rewrite Hp. cbn [mbind option_bind].
  pose proof (node_prev _ _ (Hs p b Hp)) as Hn'. destruct (pprev b) as [q|] eqn:Eq.
  - destruct Hn' as (c & ? & Hq & Hh & _). rewrite (IH q c) by (done || lia). cbn [List.filter]. f_equal. destruct (Condition chk b); cbn [length]; lia.
  - destruct n; [|lia]. cbn [count_conditions List.filter]. f_equal. destruct (Condition chk b); cbn [length]; lia.
Qed.

Lemma next_state_moves p b st : s !! p = Some b -> (nHeight b + 1) mod Period chk = 0 ->
  exists st', next_state s chk p st = Some st' /\ moves s chk p st st'.
Proof.
  intros Hp Hm. destruct (boundary_height p b Hp Hm) as (k & Hk & Ek). destruct (GetMedianTimePast_Some s Hs p b Hp) as [m Em].
  assert (Hc : count_conditions s chk (Z.to_nat (Period chk)) (Some p) 0 = Some (signals s chk (Period chk) p)).
  { apply (count_conditions_spec _ p b 0 Hp). nia. }
  destruct st; cbn [next_state]; rewrite ?Em; cbn [mbind option_bind]; rewrite ?Z.geb_leb;
    try (eexists; split; [reflexivity | constructor]).
  - eexists. split; [reflexivity|]. destruct (Z.leb_spec (EndTime chk) m); [eapply moves_timeout; eauto|].
    destruct (Z.leb_spec (BeginTime chk) m); [eapply moves_start | eapply moves_wait]; eauto.
  - destruct (Z.leb_spec (EndTime chk) m); [eexists; split; [done | eapply moves_timeout; eauto]|].
    rewrite Hc. cbn [mbind option_bind]. eexists. split; [reflexivity|].
    rewrite Z.geb_leb. destruct (Z.leb_spec (Threshold chk) (signals s chk (Period chk) p)); [eapply moves_lock_in | eapply moves_continue]; eauto.
Qed.

Lemma moves_fun p st st1 st2 : moves s chk p st st1 -> moves s chk p st st2 -> st1 = st2.
Proof. destruct 1; inversion 1; subst; try done; try (destruct_or?; congruence || done); simplify_eq; try lia. Qed.

Lemma deployment_fun e st1 st2 : deployment s chk e st1 -> deployment s chk e st2 -> st1 = st2.
Proof.
  intros H. revert st2. induction H as [|p b st st' Hp Hm _ IH Hmv]; intros st2 H2; inversion H2 as [|p' b' st0 ? Hp' _ H0 Hmv']; subst; [done|].
  simplify_eq. apply IH in H0 as <-. by eapply moves_fun.
Qed.

(** every block that ends a period has a state *)
Lemma deployment_total e : boundary e -> exists st, deployment s chk e st.
Proof.
  destruct e as [p|]; [|intros _; eexists; constructor]. intros (b & Hp & Hm).
  remember (Z.to_nat (nHeight b)) as n eqn:En. revert p b Hp Hm En. induction n as [n IH] using lt_wf_ind. intros p b Hp Hm ->.
  destruct (period_before_boundary p b Hp Hm) as [Hb Hq].
  assert (exists st, deployment s chk (period_before s chk p (nHeight b)) st) as [st Hst].
  { destruct (period_before s chk p (nHeight b)) as [q|]; [|eexists; constructor].
    destruct Hb as (c & Hc & Hmc), (Hq q eq_refl) as (_ & c' & Hc' & Hh). simplify_eq.
    pose proof (node_height _ _ (Hs q c Hc)). eapply (IH (Z.to_nat (nHeight c))); [lia | done..]. }
  destruct (next_state_moves p b st Hp Hm) as (st' & _ & Hmv). exists st'. by eapply deployment_period.
Qed.

(** *** The walk *)

Hypothesis Htimes : times_checked s.
Hypothesis Hstart : BeginTime chk <= EndTime chk.

(** before the start time the state is that of the genesis block *)
Lemma early_defined p b m : s !! p = Some b -> (nHeight b + 1) mod Period chk = 0 ->
  GetMedianTimePast s p = Some m -> m < BeginTime chk -> deployment s chk (Some p) THRESHOLD_DEFINED.
Proof.
  remember (Z.to_nat (nHeight b)) as n eqn:En. revert p b m En. induction n as [n IH] using lt_wf_ind. intros p b m -> Hp Hm Em Hlt.
  destruct (period_before_boundary p b Hp Hm) as [Hb Hq].
  assert (deployment s chk (period_before s chk p (nHeight b)) THRESHOLD_DEFINED) as Hst.
  { destruct (period_before s chk p (nHeight b)) as [q|]; [|constructor]. destruct Hb as (c & Hc & Hmc), (Hq q eq_refl) as (Hu & c' & Hc' & Hh). simplify_eq.
    pose proof (node_height _ _ (Hs q c Hc)). destruct (median_time_up s p b _ q Hs Htimes Hp Hu) as (mq & mp & Eq & Ep & Hle).
    simplify_eq. eapply (IH (Z.to_nat (nHeight c)) ltac:(lia) q c mq); [done..|]. lia. }
  eapply deployment_period; [done..|]. eapply moves_wait; [done | lia | done].
Qed.

(** the list [l] leads, one period at a time, from [e] to [e'] *)
Inductive links : option ptr -> list ptr -> option ptr -> Prop :=
| links_nil e : links e [] e
| links_cons e p b l e' : s !! p = Some b -> (nHeight b + 1) mod Period chk = 0 -> period_before s chk p (nHeight b) = e ->
    links (Some p) l e' -> links e (p :: l) e'.

Lemma cache_ok_insert cache e st : cache_ok s chk cache -> deployment s chk e st -> cache_ok s chk (<[e := st]> cache).
Proof. intros Hc He e' st' [[<- <-]|[_ H]]%lookup_insert_Some; [done | by apply Hc]. Qed.

Lemma walk_forward_spec e l e' st cache : links e l e' -> deployment s chk e st -> cache_ok s chk cache ->
  exists st' cache', walk_forward s chk l st cache = Some (st', cache') /\ deployment s chk e' st' /\ cache_ok s chk cache'.
Proof.
  intros H. revert st cache. induction H as [|e p b l e' Hp Hm <- _ IH]; intros st cache He Hc; [simpl; eauto|].
  destruct (next_state_moves p b st Hp Hm) as (st' & E & Hmv). cbn [walk_forward]. rewrite E. cbn [mbind option_bind].
  assert (deployment s chk (Some p) st') by (by eapply deployment_period). apply IH; [done | by apply cache_ok_insert].
Qed.

(** what the walk backwards keeps, and how far it still has to go *)
Definition walking (target : option ptr) (w : option ptr * list ptr * ThresholdConditionCache) : Prop :=
  let '(e, l, cache) := w in boundary e /\ links e l target /\ cache_ok s chk cache.
Definition walk_measure (w : option ptr * list ptr * ThresholdConditionCache) : nat :=
  match fst (fst w) ≫= fun p => s !! p with Some b => S (Z.to_nat (nHeight b)) | None => 0 end.

Lemma walk_back_more target w w' : walking target w -> walk_back_step s chk w = inl w' -> walking target w' /\ (walk_measure w' < walk_measure w)%nat.
Proof.
  destruct w as [[e l] cache]. intros (Hb & Hl & Hc). cbn [walk_back_step]. case_bool_decide; [done|]. destruct e as [p|]; [|done].
  destruct Hb as (b & Hp & Hm). rewrite Hp. destruct (GetMedianTimePast s p) as [m|]; [|done]. destruct (m <? _); [done|].
  rewrite (GetAncestor_period p b Hp Hm). intros [= <-]. destruct (period_before_boundary p b Hp Hm) as [Hb Hq]. split.
  - split; [done|]. split; [|done]. by eapply links_cons.
  - unfold walk_measure. cbn [fst mbind option_bind]. rewrite Hp. destruct (period_before s chk p (nHeight b)) as [q|]; cbn [mbind option_bind]; [|lia].
    destruct (Hq q eq_refl) as (_ & c & Hcq & Hh). rewrite Hcq. pose proof (node_height _ _ (Hs q c Hcq)). lia.
Qed.

Lemma walk_back_done target w r : walking target w -> walk_back_step s chk w = inr r ->
  exists e l cache st, r = Some (e, l, cache) /\ links e l target /\ cache_ok s chk cache /\ cache !! e = Some st /\ deployment s chk e st.
Proof.
  destruct w as [[e l] cache]. intros (Hb & Hl & Hc). cbn [walk_back_step]. case_bool_decide as Hk.
  { destruct Hk as [st Est]. intros [= <-]. exists e, l, cache, st. pose proof (Hc e st Est). auto. }
  destruct e as [p|].
  - destruct Hb as (b & Hp & Hm). rewrite Hp. destruct (GetMedianTimePast_Some s Hs p b Hp) as [m Em]. rewrite Em.
    destruct (Z.ltb_spec m (BeginTime chk)) as [Hlt|_]; [|by rewrite (GetAncestor_period p b Hp Hm)].
    intros [= <-]. pose proof (early_defined p b m Hp Hm Em Hlt). eexists _, _, _, _. split; [done|]. split; [done|].
    split; [by apply cache_ok_insert|]. split; [apply lookup_insert_eq | done].
  - intros [= <-]. eexists _, _, _, _. split; [done|]. split; [done|]. assert (deployment s chk None THRESHOLD_DEFINED) by constructor.
    split; [by apply cache_ok_insert|]. split; [apply lookup_insert_eq | done].
Qed.

(** [GetStateFor], for any block that is known or for the parent of the genesis block *)
Definition period_of (e : option ptr) : option ptr := match e with None => None | Some p => b ← s !! p; last_period s chk p (nHeight b) end.

Lemma GetStateFor_spec e cache : (forall p, e = Some p -> is_Some (s !! p)) -> cache_ok s chk cache ->
  exists st cache', GetStateFor s chk e cache = Some (st, cache') /\ deployment s chk (period_of e) st /\ cache_ok s chk cache'.
Proof.
  intros He Hc. assert (E : match e with None => Some None | Some p => period_end s chk p end = Some (period_of e) /\ boundary (period_of e)).
  { destruct e as [p|]; [|done]. destruct (He p eq_refl) as [b Hp]. cbn [period_of]. rewrite Hp. cbn [mbind option_bind]. by apply period_end_spec. }
  destruct E as [E Hb]. unfold GetStateFor. rewrite E. cbn [mbind option_bind]. set (fuel := match _ with Some _ => _ | None => _ end).
  destruct (while_total (walk_back_step s chk) (walking (period_of e)) walk_measure _
    (walk_back_more _) (walk_back_done _) fuel (period_of e, [], cache)) as (r & Er & e' & l & cache' & st & -> & Hl & Hc' & Est & Hst).
  - split; [done|]. split; [constructor | done].
  - unfold walk_measure, fuel. cbn [fst]. unfold mbind. destruct (option_bind _ _); lia.
  - unfold mbind in Er |- *. rewrite Er. cbn [option_bind]. rewrite Est. cbn [option_bind]. by eapply walk_forward_spec.
Qed.

(** *** From a block to its descendants *)

Lemma last_period_step p b q : s !! p = Some b -> pprev b = Some q -> 1 <= nHeight b ->
  if (nHeight b + 1) mod Period chk =? 0
  then last_period s chk p (nHeight b) = Some p /\ period_before s chk p (nHeight b) = last_period s chk q (nHeight b - 1)
  else last_period s chk p (nHeight b) = last_period s chk q (nHeight b - 1).
Proof.
  intros Hp Hq Hh. unfold last_period, period_before. rewrite Z.sub_add.
  pose proof (Z.div_mod (nHeight b + 1) (Period chk) ltac:(lia)) as Hd. pose proof (Z.mod_pos_bound (nHeight b + 1) (Period chk) ltac:(lia)).
  assert (Hup : forall k, 0 < k -> up s p (Z.to_nat k) = up s q (Z.to_nat (k - 1))).
  { intros k Hk. replace (Z.to_nat k) with (S (Z.to_nat (k - 1))) by lia. cbn [up]. rewrite Hp. cbn [mbind option_bind]. by rewrite Hq. }
  destruct (Z.eqb_spec ((nHeight b + 1) mod Period chk) 0) as [E|E].
  - rewrite E. destruct (boundary_height p b Hp E) as (k & Hk & Ek). rewrite (proj2 (Z.ltb_ge _ _)) by nia. split; [done|].
    destruct (Z.ltb_spec (nHeight b) (Period chk)); [done|]. rewrite Hup by lia. do 2 f_equal.
    apply (Z.mod_unique_pos _ _ (k - 1)); lia.
  - replace (nHeight b + 1 <? Period chk) with (nHeight b <? Period chk).
    + destruct (Z.ltb_spec (nHeight b) (Period chk)); [done|]. rewrite Hup by lia. do 2 f_equal.
      apply (Z.mod_unique_pos _ _ ((nHeight b + 1) / Period chk)); lia.
    + assert (nHeight b + 1 <> Period chk) by (intros Ep; rewrite Ep, Z.mod_same in E; lia).
      destruct (Z.ltb_spec (nHeight b) (Period chk)), (Z.ltb_spec (nHeight b + 1) (Period chk)); lia || done.
Qed.

Lemma links_snoc e l p b : links e l (period_before s chk p (nHeight b)) -> s !! p = Some b -> (nHeight b + 1) mod Period chk = 0 ->
  links e (l ++ [p]) (Some p).
Proof.
  intros H Hp Hm. remember (period_before s chk p (nHeight b)) as e' eqn:E. induction H as [|e q c l e' Hq Hmq Eq _ IH].
  - eapply links_cons; [done..|]. constructor.
  - cbn [app]. eapply links_cons; [done..|]. by apply IH.
Qed.

(** the periods that end between a block and an ancestor of it *)
Lemma links_up p b k q c : s !! p = Some b -> up s p k = Some q -> s !! q = Some c ->
  exists l, links (period_of (Some q)) l (period_of (Some p)) /\ zlen l = (nHeight b + 1) / Period chk - (nHeight c + 1) / Period chk.
Proof.
  revert p b. induction k as [|k IH]; intros p b Hp Hu Hq.
  { injection Hu as <-. simplify_eq. exists []. split; [constructor|]. cbn. lia. }
  cbn [up] in Hu. rewrite Hp in Hu. cbn [mbind option_bind] in Hu. pose proof (node_prev _ _ (Hs p b Hp)) as Hn.
  destruct (pprev b) as [r|] eqn:Er; [|done]. cbn [option_bind] in Hu. destruct Hn as (d & ? & Hr & Hh & _).
  pose proof (node_height _ _ (Hs r d Hr)). destruct (IH r d Hr Hu Hq) as (l & Hl & El). pose proof (last_period_step p b r Hp Er ltac:(lia)) as Hst.
  cbn [period_of] in Hl |- *. rewrite Hp, ?Hr in *. cbn [mbind option_bind] in Hl |- *. replace (nHeight b - 1) with (nHeight d) in Hst by lia.
  pose proof (Z.div_mod (nHeight b + 1) (Period chk) ltac:(lia)) as Hd. pose proof (Z.mod_pos_bound (nHeight b + 1) (Period chk) ltac:(lia)).
  destruct (Z.eqb_spec ((nHeight b + 1) mod Period chk) 0) as [E|E].
  - destruct Hst as [-> Hst]. exists (l ++ [p]). split; [eapply links_snoc; [by rewrite Hst | done..]|]. rewrite length_app, Nat2Z.inj_add, El. cbn [length].
    rewrite <- (Z.div_unique_pos (nHeight d + 1) (Period chk) ((nHeight b + 1) / Period chk - 1) (Period chk - 1)); lia.
  - rewrite Hst. exists l. split; [done|]. rewrite El. f_equal.
    symmetry. apply (Z.div_unique_pos _ _ _ ((nHeight b + 1) mod Period chk - 1)); lia.
Qed.

(** the states that can follow *)
Definition may_follow (st st' : ThresholdState) : Prop :=
  match st with
  | THRESHOLD_DEFINED => True
  | THRESHOLD_STARTED => st' <> THRESHOLD_DEFINED
  | THRESHOLD_LOCKED_IN | THRESHOLD_ACTIVE => st' = THRESHOLD_ACTIVE
  | THRESHOLD_FAILED => st' = THRESHOLD_FAILED
  end.

Lemma links_states e l e' st st' : links e l e' -> deployment s chk e st -> deployment s chk e' st' -> l <> [] -> may_follow st st'.
Proof.
  intros H. revert st. induction H as [|e p b l e' Hp Hm Ee Hl IH]; intros st He He' Hne; [done|]. subst e.
  destruct (next_state_moves p b st Hp Hm) as (st1 & _ & Hmv). assert (H1 : deployment s chk (Some p) st1) by (by eapply deployment_period).
  destruct (decide (l = [])) as [->|Hn].
  - inversion Hl; subst. rewrite (deployment_fun _ _ _ He' H1). by destruct Hmv; destruct_or?; subst.
  - specialize (IH st1 H1 He' Hn). destruct Hmv; destruct_or?; subst; cbn in *; congruence || done.
Qed.

(** *** Since when *)

Lemma period_of_boundary q c : s !! q = Some c -> (nHeight c + 1) mod Period chk = 0 -> period_of (Some q) = Some q.
Proof.
  intros Hq Hm. destruct (boundary_height q c Hq Hm) as (k & Hk & Ek). cbn [period_of]. rewrite Hq. cbn [mbind option_bind]. unfold last_period.
  rewrite Hm, (proj2 (Z.ltb_ge _ _)) by nia. done.
Qed.

(** the blocks that end a period, from [e] back to height [h], all have the state *)
Definition steady (e : ptr) (st : ThresholdState) (h : Z) : Prop :=
  forall h' g, ancestor s e h' g -> (h' + 1) mod Period chk = 0 -> h <= h' -> deployment s chk (Some g) st.

(** the state began with the block of height [h] *)
Definition began (e : ptr) (st : ThresholdState) (h : Z) : Prop :=
  exists g c, s !! g = Some c /\ h = nHeight c + 1 /\ h mod Period chk = 0 /\ ancestor s e (nHeight c) g /\ steady e st (nHeight c) /\
    ~ deployment s chk (period_before s chk g (nHeight c)) st.

Definition seeking (e : ptr) (st : ThresholdState) (w : ptr * option ptr * ThresholdConditionCache) : Prop :=
  let '(p, q, cache) := w in
  exists b, s !! p = Some b /\ (nHeight b + 1) mod Period chk = 0 /\ q = period_before s chk p (nHeight b) /\ cache_ok s chk cache /\
    ancestor s e (nHeight b) p /\ steady e st (nHeight b).

Definition seek_measure (w : ptr * option ptr * ThresholdConditionCache) : nat :=
  match s !! fst (fst w) with Some b => Z.to_nat (nHeight b) | None => 0 end.

Lemma steady_extend e st p b q c : s !! p = Some b -> (nHeight b + 1) mod Period chk = 0 -> ancestor s e (nHeight b) p -> steady e st (nHeight b) ->
  period_before s chk p (nHeight b) = Some q -> s !! q = Some c -> deployment s chk (Some q) st ->
  ancestor s e (nHeight c) q /\ steady e st (nHeight c).
Proof.
  intros Hp Hm Ha Hst Eq Hq Hd. destruct (period_before_boundary p b Hp Hm) as [_ H]. destruct (H q Eq) as (Hu & c' & Hc' & Hh). simplify_eq.
  pose proof (node_height _ _ (Hs q c Hq)) as Hc0.
  assert (Haq : ancestor s e (nHeight c) q).
  { apply (ancestor_trans s Hs e (nHeight b) p); [done|]. exists b. split; [done|]. split; [lia|]. rewrite <- Hu. f_equal. lia. }
  split; [done|]. intros h' g Hg Hmg Hle. destruct (Z_le_gt_dec (nHeight b) h') as [Hb|Hb]; [by eapply Hst|].
  assert (h' = nHeight c) as ->; [|by rewrite (ancestor_fun s e _ _ _ Hg Haq)].
  apply Z.mod_divide in Hm as [k Ek], Hmg as [j Ej]; [|lia..]. assert (j = k - 1) by nia. nia.
Qed.

Lemma since_more e st w w' : seeking e st w -> since_step s chk st w = inl w' -> seeking e st w' /\ (seek_measure w' < seek_measure w)%nat.
Proof.
  destruct w as [[p q] cache]. intros (b & Hp & Hm & -> & Hc & Ha & Hst). cbn [since_step].
  destruct (period_before s chk p (nHeight b)) as [q|] eqn:Eq; [|done]. destruct (period_before_boundary p b Hp Hm) as [Hb Hq]. rewrite Eq in Hb.
  destruct (Hq q Eq) as (_ & c & Hcq & Hh), Hb as (c' & Hc' & Hmq). rewrite Hcq in Hc'. injection Hc' as <-.
  destruct (GetStateFor_spec (Some q) cache) as (st' & cache' & E & Hd & Hok); [intros ? [= <-]; eauto | done|]. rewrite E.
  rewrite (period_of_boundary q c Hcq Hmq) in Hd. case_bool_decide as Est; [|done]. rewrite Hcq, (GetAncestor_period q c Hcq Hmq). intros [= <-]. subst st'.
  destruct (steady_extend e st p b q c) as [Ha' Hst']; [done..|]. split.
  - exists c. auto 10.
  - unfold seek_measure. cbn [fst]. rewrite Hp, Hcq. pose proof (node_height _ _ (Hs q c Hcq)). lia.
Qed.

Lemma since_done e st w r : st <> THRESHOLD_DEFINED -> seeking e st w -> since_step s chk st w = inr r ->
  exists h cache', r = Some (h, cache') /\ began e st h /\ cache_ok s chk cache'.
Proof.
  destruct w as [[p q] cache]. intros Hne (b & Hp & Hm & -> & Hc & Ha & Hst). cbn [since_step].
  destruct (period_before s chk p (nHeight b)) as [q|] eqn:Eq.
  - destruct (period_before_boundary p b Hp Hm) as [Hb Hq]. rewrite Eq in Hb.
    destruct (Hq q Eq) as (_ & c & Hcq & Hh), Hb as (c' & Hc' & Hmq). rewrite Hcq in Hc'. injection Hc' as <-.
    destruct (GetStateFor_spec (Some q) cache) as (st' & cache' & E & Hd & Hok); [intros ? [= <-]; eauto | done|]. rewrite E.
    rewrite (period_of_boundary q c Hcq Hmq) in Hd. case_bool_decide as Est; [by rewrite Hcq, (GetAncestor_period q c Hcq Hmq)|].
    rewrite Hp. cbn [mbind option_bind]. intros [= <-]. eexists _, _. split; [done|]. split; [|done]. exists p, b.
    repeat split; [done..|]. rewrite Eq. intros Hd'. by rewrite (deployment_fun _ _ _ Hd Hd') in Est.
  - rewrite Hp. cbn [mbind option_bind]. intros [= <-]. eexists _, _. split; [done|]. split; [|done]. exists p, b.
    repeat split; [done..|]. rewrite Eq. by inversion 1.
Qed.

Lemma GetStateSinceHeightFor_spec p cache : is_Some (s !! p) -> cache_ok s chk cache ->
  exists st h cache', GetStateSinceHeightFor s chk (Some p) cache = Some (h, cache') /\ deployment s chk (period_of (Some p)) st /\ cache_ok s chk cache' /\
    match period_of (Some p) with
    | Some e => if bool_decide (st = THRESHOLD_DEFINED) then h = 0 else began e st h
    | None => h = 0
    end.
Proof.
  intros Hp Hc. destruct (GetStateFor_spec (Some p) cache) as (st & cache' & E & Hd & Hc'); [naive_solver | done|].
  unfold GetStateSinceHeightFor. rewrite E. cbn [mbind option_bind]. exists st.
  destruct Hp as [b Hp]. destruct (period_end_spec p b Hp) as [Ee Hb]. cbn [period_of] in Hd |- *. rewrite Hp in Hd |- *. cbn [mbind option_bind] in Hd |- *.
  case_bool_decide as Est. { exists 0, cache'. repeat split; try done. by destruct (last_period s chk p (nHeight b)). }
  rewrite Ee. cbn [mbind option_bind]. destruct (last_period s chk p (nHeight b)) as [e|]; [|by inversion Hd]. destruct Hb as (c & He & Hm).
  cbn [mbind option_bind]. rewrite He. cbn [mbind option_bind]. rewrite (GetAncestor_period e c He Hm). cbn [mbind option_bind].
  destruct (while_total (since_step s chk st) (seeking e st) seek_measure _ (since_more e st) (fun w r => since_done e st w r Est)
    (S (Z.to_nat (nHeight c + 1))) (e, period_before s chk e (nHeight c), cache')) as (r & Er & h & cache'' & -> & Hbg & Hc'').
  - exists c. repeat split; [done..| |]; [by apply ancestor_refl|]. intros h' g Hg Hmg Hle. destruct Hg as (c' & Hc1 & Hle' & Hu). simplify_eq.
    replace h' with (nHeight c) in Hu by lia. rewrite Z.sub_diag in Hu. by injection Hu as <-.
  - unfold seek_measure. cbn [fst]. rewrite He. lia.
  - rewrite Er. exists h, cache''. done.
Qed.

(** *** Statistics *)

Lemma count_back_spec n fuel p b h count : s !! p = Some b -> h = nHeight b - Z.of_nat n -> 0 <= h -> (n < fuel)%nat ->
  count_back s chk fuel h (Some p) count = Some (count + zlen (List.filter (Condition chk) (recent s n p))).
Proof.
  revert fuel p b count. induction n as [|n IH]; intros fuel p b count Hp Hh H0 Hf; (destruct fuel as [|fuel]; [lia|]);
    cbn [count_back mbind option_bind]; rewrite Hp; cbn [mbind option_bind].
  { rewrite (proj2 (Z.eqb_eq _ _)) by lia. cbn. f_equal. lia. }
  rewrite (proj2 (Z.eqb_neq _ _)) by lia. rewrite (recent_S n p b Hp).
  pose proof (node_prev _ _ (Hs p b Hp)) as Hn. destruct (pprev b) as [q|]; [|lia]. destruct Hn as (c & ? & Hq & Hc & _).
  rewrite (IH fuel q c) by (done || lia). cbn [List.filter]. f_equal. destruct (Condition chk b); cbn [length]; lia.
Qed.
End Machine.

(** The statistics of the current period: how many of its blocks there are and signal,
    and whether the threshold can still be met by the blocks to come. *)
Theorem GetStateStatisticsFor_correct s chk p b : store_ok s -> 0 < Period chk -> s !! p = Some b -> Period chk <= nHeight b + 1 ->
  exists stats, GetStateStatisticsFor s chk (Some p) = Some stats /\ elapsed stats = (nHeight b + 1) mod Period chk /\
    stat_count stats = signals s chk (elapsed stats) p /\
    (possible stats = true <-> Threshold chk <= stat_count stats + (Period chk - elapsed stats)).
Proof.
  intros Hs Hper Hp Hh. destruct (period_end_spec s chk Hs Hper p b Hp) as [Ee _]. unfold GetStateStatisticsFor. rewrite Hp. cbn [mbind option_bind].
  rewrite Ee. cbn [option_bind]. unfold last_period. rewrite (proj2 (Z.ltb_ge _ _)) by lia. pose proof (Z.mod_pos_bound (nHeight b + 1) (Period chk) Hper).
  pose proof (Z.mod_le (nHeight b + 1) (Period chk) ltac:(lia) Hper).
  pose proof (Z.div_mod (nHeight b + 1) (Period chk) ltac:(lia)). pose proof (Z.div_le_lower_bound (nHeight b + 1) (Period chk) 1 ltac:(lia) ltac:(lia)).
  destruct (up_height s p b (Z.to_nat ((nHeight b + 1) mod Period chk)) Hs Hp ltac:(nia)) as (q & c & Hu & Hq & Hc). rewrite Hu. cbn [mbind option_bind].
  rewrite Hq. cbn [mbind option_bind]. rewrite (count_back_spec s chk Hs (Z.to_nat ((nHeight b + 1) mod Period chk)) _ p b) by (done || nia). cbn [mbind option_bind].
  rewrite Z2Nat.id in Hc by lia. replace (nHeight b - nHeight c) with ((nHeight b + 1) mod Period chk) by lia.
  eexists. split; [done|]. cbn [elapsed stat_count possible]. split; [done|]. split; [done|]. rewrite Z.geb_le. fold (signals s chk ((nHeight b + 1) mod Period chk) p). unfold signals. lia.
Qed.

(** *** All deployments *)

(** the bits are below the top bits and apart, the times in order and the periods positive *)
Definition deployment_params_ok (params : VersionBitsParams) (d : BIP9Deployment) : Prop :=
  0 <= bit d < 29 /\ nStartTime d <= nTimeout d /\ 0 < Period (checker_of params d).
Definition params_ok (params : VersionBitsParams) : Prop :=
  Forall (deployment_params_ok params) (vDeployments params) /\ NoDup (bit <$> vDeployments params) /\ (DEPLOYMENT_ASSETS < length (vDeployments params))%nat.

#[global] Instance deployment_params_ok_dec params d : Decision (deployment_params_ok params d).
Proof. unfold deployment_params_ok. apply _. Defined.

Definition caches_ok (s : store) (params : VersionBitsParams) (caches : VersionBitsCache) : Prop :=
  Forall2 (fun d cache => cache_ok s (checker_of params d) cache) (vDeployments params) caches.

(** the deployment is in a state in which blocks signal, or in the given state *)
Definition is_signalled (s : store) (params : VersionBitsParams) (e : option ptr) (d : BIP9Deployment) : Prop :=
  exists st, deployment s (checker_of params d) (period_of s (checker_of params d) e) st /\ signalled st = true.

Section AllDeployments.
Context (s : store) (params : VersionBitsParams).
Hypothesis Hs : store_ok s.
Hypothesis Ht : times_checked s.
Hypothesis Hparams : params_ok params.

Lemma VersionBitsState_spec e pos d caches : (forall p, e = Some p -> is_Some (s !! p)) -> caches_ok s params caches -> vDeployments params !! pos = Some d ->
  exists st caches', VersionBitsState s params e pos caches = Some (st, caches') /\ caches_ok s params caches' /\
    forall st', deployment s (checker_of params d) (period_of s (checker_of params d) e) st' <-> st' = st.
Proof.
  intros He Hc Hd. destruct Hparams as [Hok _]. rewrite Forall_lookup in Hok. destruct (Hok pos d Hd) as (_ & Hb & Hp).
  destruct (Forall2_lookup_l _ _ _ _ _ Hc Hd) as (cache & Hl & Hcache). unfold VersionBitsState. rewrite Hd, Hl. cbn [mbind option_bind].
  destruct (GetStateFor_spec s (checker_of params d) Hs Hp Ht Hb e cache He Hcache) as (st & cache' & E & Hst & Hc'). rewrite E. cbn [option_bind fst snd].
  exists st, (<[pos := cache']> caches). split; [done|]. split.
  - unfold caches_ok. rewrite <- (list_insert_id (vDeployments params) pos d Hd). by apply Forall2_insert.
  - intros st'. split; [|by intros ->]. intros H. by apply (deployment_fun s (checker_of params d) _ _ _ H).
Qed.

Lemma lor_bit v k : 0 <= v < 2 ^ 30 -> 0 <= k < 29 -> i32 (Z.lor (u32 v) (u32 (Z.shiftl 1 k))) = Z.lor v (2 ^ k) /\ 0 <= Z.lor v (2 ^ k) < 2 ^ 30.
Proof.
  intros Hv Hk. assert (2 ^ k < 2 ^ 29) by (apply Z.pow_lt_mono_r; lia). assert (0 < 2 ^ k) by (apply Z.pow_pos_nonneg; lia).
  assert (Hb : 0 <= Z.lor v (2 ^ k) < 2 ^ 30).
  { split; [apply Z.lor_nonneg; lia|]. apply Z.log2_lt_cancel. rewrite Z.log2_lor by lia. rewrite Z.log2_pow2, Z.log2_pow2 by lia.
    assert (Z.log2 v < 30); [|lia]. destruct (Z.eq_dec v 0) as [->|]; [done|]. apply Z.log2_lt_pow2; lia. }
  split; [|done]. rewrite Z.shiftl_1_l. unfold u32. rewrite (Z.mod_small v), (Z.mod_small (2 ^ k)) by lia. apply i32_small. unfold is_i32. lia.
Qed.

(** the loop sets the bits of the deployments that are signalled and no other *)
Lemma version_loop_spec e positions v caches : (forall p, e = Some p -> is_Some (s !! p)) -> caches_ok s params caches ->
  Forall (fun pos => pos < length (vDeployments params))%nat positions -> 0 <= v < 2 ^ 30 ->
  exists v' caches', version_loop s params positions e v caches = Some (v', caches') /\ caches_ok s params caches' /\ 0 <= v' < 2 ^ 30 /\
    forall k, 0 <= k -> Z.testbit v' k = true <-> Z.testbit v k = true \/
      exists pos d, pos ∈ positions /\ vDeployments params !! pos = Some d /\ bit d = k /\ is_signalled s params e d.
Proof.
  intros He Hc Hpos. revert v caches Hc. induction Hpos as [|pos positions Hlt _ IH]; intros v caches Hc Hv.
  { exists v, caches. split; [done|]. split; [done|]. split; [done|]. intros k _. split; [by left|]. intros [H|(? & ? & H & _)]; [done | by apply not_elem_of_nil in H]. }
  apply lookup_lt_is_Some in Hlt as [d Hd]. destruct (VersionBitsState_spec e pos d caches He Hc Hd) as (st & caches' & E & Hc' & Hst).
  cbn [version_loop]. rewrite Hd. cbn [mbind option_bind]. rewrite E. cbn [option_bind fst snd].
  destruct Hparams as [Hok _]. rewrite Forall_lookup in Hok. destruct (Hok pos d Hd) as (Hbit & _).
  destruct (lor_bit v (bit d) Hv Hbit) as [El Hl].
  set (v1 := if signalled st then i32 (Z.lor (u32 v) (VersionBitsMask d)) else v). assert (Hv1 : 0 <= v1 < 2 ^ 30) by (unfold v1; destruct (signalled st); [unfold VersionBitsMask; by rewrite El | done]).
  destruct (IH v1 caches' Hc' Hv1) as (v' & caches'' & E' & Hc'' & Hv' & Hk). exists v', caches''. split; [done|]. split; [done|]. split; [done|].
  intros k H0. rewrite (Hk k H0). assert (Ev1 : Z.testbit v1 k = true <-> Z.testbit v k = true \/ bit d = k /\ signalled st = true).
  { unfold v1. destruct (signalled st); [|intuition congruence]. unfold VersionBitsMask. rewrite El, Z.lor_spec, orb_true_iff, Z.pow2_bits_eqb by lia. rewrite Z.eqb_eq. intuition. }
  rewrite Ev1. setoid_rewrite elem_of_cons. unfold is_signalled. split.
  - intros [[H|[Hb Hsig]]|(pos' & d' & Hin & H)]; [by left| |right; eauto 10]. right. exists pos, d. split; [by left|]. split; [done|]. split; [done|]. exists st. by rewrite Hst.
  - intros [H|(pos' & d' & [->|Hin] & H)]; [auto| |right; eauto 10]. destruct H as (Hd' & Hb & st' & Hst' & Hsig). simplify_eq. apply Hst in Hst' as ->. auto.
Qed.
End AllDeployments.

(** the condition of a deployment on a version with the top bits *)
Lemma Condition_version params d b : deployment_params_ok params d -> 2 ^ 29 <= idx_nVersion (header b) < 2 ^ 30 ->
  Condition (checker_of params d) b = Z.testbit (idx_nVersion (header b)) (bit d).
Proof.
  intros (Hd & _) Hv. set (v := idx_nVersion (header b)) in *. cbn [checker_of VersionBitsConditionChecker Condition]. fold v.
  change VERSIONBITS_TOP_MASK with (Z.lnot (Z.ones 29)). rewrite <- Z.ldiff_land, Z.ldiff_ones_r by lia. rewrite Z.shiftr_div_pow2, Z.shiftl_mul_pow2 by lia.
  rewrite <- (Z.div_unique_pos v (2 ^ 29) 1 (v - 2 ^ 29)) by lia. cbn [andb Z.mul]. change (2 ^ 29 =? VERSIONBITS_TOP_BITS) with true. cbn [andb].
  unfold VersionBitsMask, u32. assert (2 ^ bit d < 2 ^ 29) by (apply Z.pow_lt_mono_r; lia). assert (0 < 2 ^ bit d) by (apply Z.pow_pos_nonneg; lia).
  rewrite Z.shiftl_1_l, !Z.mod_small by lia. destruct (Z.testbit v (bit d)) eqn:E.
  - apply negb_true_iff, Z.eqb_neq. intros Hz. pose proof (Z.land_spec v (2 ^ bit d) (bit d)) as Hl. rewrite Hz, E, Z.bits_0, Z.pow2_bits_true in Hl by lia. done.
  - apply negb_false_iff, Z.eqb_eq. apply Z.bits_inj_0. intros k. rewrite Z.land_spec, Z.pow2_bits_eqb by lia.
    destruct (Z.eqb_spec (bit d) k) as [<-|]; [by rewrite E | apply andb_false_r].
Qed.

(** ** A concrete deployment *)

(** one of the two blocks of a period must signal *)
Definition sample_deployment : ThresholdConditionChecker :=
  {| Condition b := Z.odd (nHeight b); BeginTime := 1600000100; EndTime := 2 ^ 40; Period := 2; Threshold := 1 |}.

Lemma sample_times : times_checked sample_store.
Proof. apply times_checkedb_sound. vm_compute. reflexivity. Qed.

Lemma empty_cache_ok s chk : cache_ok s chk ∅.
Proof. intros e st. by rewrite lookup_empty. Qed.

(** ** Properties *)

(** C29: with a correct cache, such as the empty one, [GetStateFor] never fails, gives
    the state of the state machine, which is the only one, and leaves the cache
    correct; and [GetStateSinceHeightFor] gives the height of the block with which
    the state began: it is a multiple of the period, every period since has that
    state, and the one before has not. *)
Theorem GetStateFor_correct s chk p b cache :
  store_ok s -> times_checked s -> 0 < Period chk -> BeginTime chk <= EndTime chk -> s !! p = Some b -> cache_ok s chk cache ->
  exists st, (exists cache', GetStateFor s chk (Some p) cache = Some (st, cache') /\ cache_ok s chk cache') /\
    (forall st', deployment s chk (last_period s chk p (nHeight b)) st' <-> st' = st) /\
    exists h cache', GetStateSinceHeightFor s chk (Some p) cache = Some (h, cache') /\ cache_ok s chk cache' /\
      match last_period s chk p (nHeight b) with
      | Some e => if bool_decide (st = THRESHOLD_DEFINED) then h = 0 else began s chk e st h
      | None => h = 0
      end.
Proof.
  intros Hs Ht Hp Hb Hn Hc. destruct (GetStateFor_spec s chk Hs Hp Ht Hb (Some p) cache) as (st & c1 & E1 & Hd & Hc1); [intros ? [= <-]; eauto | done|].
  destruct (GetStateSinceHeightFor_spec s chk Hs Hp Ht Hb p cache) as (st' & h & c2 & E2 & Hd' & Hc2 & Hh); [eauto | done|].
  rewrite (deployment_fun s chk _ _ _ Hd' Hd) in Hh. cbn [period_of] in *. rewrite Hn in *. cbn [mbind option_bind] in *.
  exists st. split; [eauto|]. split; [|eauto 10]. intros st1. split; [|by intros ->]. intros H1. by apply (deployment_fun s chk _ _ _ H1).
Qed.

Lemma GetStateFor_correct_witness :
  exists st, (exists cache', GetStateFor sample_store sample_deployment (Some 7%positive) ∅ = Some (st, cache') /\ cache_ok sample_store sample_deployment cache') /\
    (forall st', deployment sample_store sample_deployment (last_period sample_store sample_deployment 7 (nHeight (sample_block 7))) st' <-> st' = st) /\
    exists h cache', GetStateSinceHeightFor sample_store sample_deployment (Some 7%positive) ∅ = Some (h, cache') /\ cache_ok sample_store sample_deployment cache' /\
      match last_period sample_store sample_deployment 7 (nHeight (sample_block 7)) with
      | Some e => if bool_decide (st = THRESHOLD_DEFINED) then h = 0 else began sample_store sample_deployment e st h
      | None => h = 0
      end.
Proof.
  apply (GetStateFor_correct sample_store sample_deployment 7%positive (sample_block 7) ∅ sample_store_ok sample_times);
    [by vm_compute | by vm_compute | by vm_compute | apply empty_cache_ok].
Defined.

(** C30: the states only advance: from a block to a descendant of it in the same period
    the state stays, later a started deployment is not merely defined again, one
    that is locked in is active, and the active and failed ones stay so; and once a
    period ends at or after the timeout, the deployment is active or failed. *)
Theorem deployment_progress s chk p b q c cache cache' st st' :
  store_ok s -> times_checked s -> 0 < Period chk -> BeginTime chk <= EndTime chk ->
  s !! p = Some b -> ancestor s p (nHeight c) q -> s !! q = Some c -> cache_ok s chk cache -> cache_ok s chk cache' ->
  fst <$> GetStateFor s chk (Some q) cache = Some st -> fst <$> GetStateFor s chk (Some p) cache' = Some st' ->
  (if (nHeight b + 1) / Period chk =? (nHeight c + 1) / Period chk then st' = st else may_follow st st') /\
  (forall e m, last_period s chk p (nHeight b) = Some e -> GetMedianTimePast s e = Some m -> EndTime chk <= m ->
     st' = THRESHOLD_ACTIVE \/ st' = THRESHOLD_FAILED).
Proof.
  intros Hs Ht Hper Hb Hp (b' & Hp' & Hle & Hu) Hq Hc Hc' Est Est'. simplify_eq.
  destruct (GetStateFor_spec s chk Hs Hper Ht Hb (Some q) cache) as (x & c1 & E1 & Hd & _); [intros ? [= <-]; eauto | done|].
  destruct (GetStateFor_spec s chk Hs Hper Ht Hb (Some p) cache') as (x' & c2 & E2 & Hd' & _); [intros ? [= <-]; eauto | done|].
  rewrite E1 in Est. rewrite E2 in Est'. injection Est as ->. injection Est' as ->.
  destruct (links_up s chk Hs Hper p b _ q c Hp Hu Hq) as (l & Hl & El). split.
  - destruct (Z.eqb_spec ((nHeight b + 1) / Period chk) ((nHeight c + 1) / Period chk)) as [E|E].
    + destruct l; [|cbn [length] in El; lia]. assert (Ee : period_of s chk (Some q) = period_of s chk (Some p)) by (by inversion Hl). rewrite Ee in Hd. by apply (deployment_fun s chk _ _ _ Hd').
    + apply (links_states s chk Hs Hper _ l _ _ _ Hl Hd Hd'). intros ->. cbn [length] in El. lia.
  - intros e m Ee Em Hm. cbn [period_of] in Hd'. rewrite Hp in Hd'. cbn [mbind option_bind] in Hd'. rewrite Ee in Hd'.
    inversion Hd' as [|? ? ? ? _ _ _ Hmv]; subst. destruct Hmv; simplify_eq; auto; lia.
Qed.


Lemma deployment_progress_witness :
  (if (nHeight (sample_block 7) + 1) / 2 =? (nHeight (sample_block 4) + 1) / 2 then THRESHOLD_LOCKED_IN = THRESHOLD_STARTED
   else may_follow THRESHOLD_STARTED THRESHOLD_LOCKED_IN) /\
  (forall e m, last_period sample_store sample_deployment 7 (nHeight (sample_block 7)) = Some e -> GetMedianTimePast sample_store e = Some m -> 2 ^ 40 <= m ->
     THRESHOLD_LOCKED_IN = THRESHOLD_ACTIVE \/ THRESHOLD_LOCKED_IN = THRESHOLD_FAILED).
Proof.
  apply (deployment_progress sample_store sample_deployment 7%positive (sample_block 7) 4%positive (sample_block 4) ∅ ∅ _ _ sample_store_ok sample_times);
    [by vm_compute | by vm_compute | by vm_compute | | by vm_compute | apply empty_cache_ok | apply empty_cache_ok | by vm_compute | by vm_compute].
  exists (sample_block 7). split; [by vm_compute|]. split; [split; vm_compute; discriminate | by vm_compute].
Defined.

(** The version a miner gives a block signals for a deployment exactly when it is
    started or locked in, for every deployment at once; the one exception is bit 28,
    which the version of the asset rules also sets. *)
Theorem ComputeBlockVersion_signals s params tip e fAssetsIsActive caches :
  store_ok s -> times_checked s -> params_ok params -> caches_ok s params caches ->
  (forall p, tip = Some p -> is_Some (s !! p)) -> (forall p, e = Some p -> is_Some (s !! p)) ->
  exists v assets caches', ComputeBlockVersion s params tip e fAssetsIsActive caches = Some (v, assets, caches') /\ caches_ok s params caches' /\
    (assets = true <-> fAssetsIsActive = true \/ exists d, vDeployments params !! DEPLOYMENT_ASSETS = Some d /\
       deployment s (checker_of params d) (period_of s (checker_of params d) tip) THRESHOLD_ACTIVE) /\
    forall b d, idx_nVersion (header b) = v -> d ∈ vDeployments params ->
      (Condition (checker_of params d) b = true <-> is_signalled s params e d \/ assets = true /\ bit d = 28).
Proof.
  intros Hs Ht Hp Hc Htip He. assert (exists assets caches1, AreAssetsDeployed s params tip fAssetsIsActive caches = Some (assets, caches1) /\ caches_ok s params caches1 /\
    (assets = true <-> fAssetsIsActive = true \/ exists d, vDeployments params !! DEPLOYMENT_ASSETS = Some d /\
       deployment s (checker_of params d) (period_of s (checker_of params d) tip) THRESHOLD_ACTIVE)) as (assets & caches1 & Ea & Hc1 & Ha).
  { unfold AreAssetsDeployed. destruct fAssetsIsActive; [exists true, caches; intuition|]. pose proof Hp as (_ & _ & Hlen). apply lookup_lt_is_Some in Hlen as [d Hd].
    destruct (VersionBitsState_spec s params Hs Ht Hp tip _ d caches Htip Hc Hd) as (st & caches1 & E & Hc1 & Hst). rewrite E. cbn [mbind option_bind fst snd].
    eexists _, _. split; [done|]. split; [done|]. rewrite bool_decide_eq_true. split; [intros ->; right; exists d; by rewrite Hst|].
    intros [H|(d' & Hd' & H)]; [done|]. simplify_eq. by apply Hst in H. }
  unfold ComputeBlockVersion. rewrite Ea. cbn [mbind option_bind fst snd]. set (v0 := if assets then _ else _).
  assert (Hv0 : 0 <= v0 < 2 ^ 30) by (unfold v0; destruct assets; vm_compute; split; discriminate || done).
  destruct (version_loop_spec s params Hs Ht Hp e (seq 0 (length (vDeployments params))) v0 caches1 He Hc1) as (v & caches' & E & Hc' & Hv & Hk); [|done|].
  { apply Forall_seq. lia. }
  rewrite E. exists v, assets, caches'. split; [done|]. split; [done|]. split; [done|]. intros b d Hb Hd.
  apply list_elem_of_lookup in Hd as [i Hi]. destruct Hp as (Hok & Hnd & _). pose proof (proj1 (Forall_lookup _ _) Hok i d Hi) as Hdp.
  assert (Ht29 : Z.testbit v 29 = true) by (apply Hk; [lia|]; left; unfold v0; by destruct assets).
  assert (2 ^ 29 <= v) by (apply Z.nlt_ge; intros Hlt; apply Z.testbit_true in Ht29; [rewrite Z.div_small in Ht29 by lia; done | lia]).
  rewrite Condition_version by (done || lia). rewrite Hb. destruct Hdp as (Hbit & _). rewrite Hk by lia.
  assert (E0 : Z.testbit v0 (bit d) = true <-> assets = true /\ bit d = 28).
  { unfold v0. destruct assets; unfold VERSIONBITS_TOP_BITS, VERSIONBITS_TOP_BITS_ASSETS.
    - change 0x30000000 with (Z.lor (2 ^ 29) (2 ^ 28)). rewrite Z.lor_spec, !Z.pow2_bits_eqb, orb_true_iff, !Z.eqb_eq by lia. lia.
    - change 0x20000000 with (2 ^ 29). rewrite Z.pow2_bits_eqb, Z.eqb_eq by lia. lia. }
  rewrite E0. split; [intros [?|(pos & d' & _ & Hd' & Eb & Hsig)]; [auto|left] | intros [?|?]; [right|auto]].
  - assert (pos = i) as -> by (apply (NoDup_lookup _ _ _ (bit d) Hnd); rewrite list_lookup_fmap; [rewrite Hd'; cbn; by rewrite Eb | by rewrite Hi]). by simplify_eq.
  - exists i, d. split; [apply elem_of_seq; apply lookup_lt_Some in Hi; lia | done].
Qed.

Lemma MainDeployments_ok : params_ok MainDeployments.
Proof. split; [|split]; [by apply (bool_decide_unpack _); vm_compute | by apply (bool_decide_unpack _); vm_compute | apply Nat.ltb_lt; by vm_compute]. Qed.

Lemma ComputeBlockVersion_signals_witness :
  exists v assets caches', ComputeBlockVersion sample_store MainDeployments (Some 7%positive) (Some 7%positive) false (replicate 7 ∅) = Some (v, assets, caches') /\
    caches_ok sample_store MainDeployments caches' /\
    (assets = true <-> false = true \/ exists d, vDeployments MainDeployments !! DEPLOYMENT_ASSETS = Some d /\
       deployment sample_store (checker_of MainDeployments d) (period_of sample_store (checker_of MainDeployments d) (Some 7%positive)) THRESHOLD_ACTIVE) /\
    forall b d, idx_nVersion (header b) = v -> d ∈ vDeployments MainDeployments ->
      (Condition (checker_of MainDeployments d) b = true <-> is_signalled sample_store MainDeployments (Some 7%positive) d \/ assets = true /\ bit d = 28).
Proof.
  apply (ComputeBlockVersion_signals sample_store MainDeployments _ _ false (replicate 7 ∅) sample_store_ok sample_times MainDeployments_ok).
  - unfold caches_ok. repeat constructor; apply empty_cache_ok.
  - intros p [= <-]. exists (sample_block 7). by vm_compute.
  - intros p [= <-]. exists (sample_block 7). by vm_compute.
Defined.
