(* ===== verification/AssetData.v ===== *)
(** * Asset data in scripts (assets/assettypes.h, assets/assets.cpp, script/script.cpp)

    The records that asset outputs carry behind a destination script: new assets and
    their owner tokens, reissues, transfers, and the null-data outputs that tag or
    freeze addresses and set verifier strings.  Strings are lists of bytes.  The
    theorems: what [ConstructTransaction] appends to a destination is read back by the
    [FromScript] functions with the destination, and the output is unspendable exactly
    when its amount is zero; a verifier string of 75 to 80 characters, which the rules
    allow, is read back with a byte put in front of it. *)

From S2P Require Import Prelude Opcodes ScriptNum Script Interpreter Serialize Transaction Sighash Standard.
Import Script.
#[local] Open Scope Z_scope.

(** ** Data *)

Definition i8 (x : Z) : Z := wrap_signed 8 x.
Definition is_i8 (x : Z) : Prop := - 2 ^ 7 <= x < 2 ^ 7.

Definition IPFS_SHA2_256 : Z := 0x12.
Definition TXID_NOTIFIER : Z := 0x54.
Definition IPFS_SHA2_256_LEN : Z := 0x20.

(** [OWNER_TAG], and [OWNER_ASSET_AMOUNT] *)
Definition OWNER_TAG : list Z := [0x21].
Definition OWNER_ASSET_AMOUNT : Z := 100000000.

Record CNewAsset := MkCNewAsset {
  new_strName : list Z;
  new_nAmount : Z;
  new_units : Z;
  new_nReissuable : Z;
  new_nHasIPFS : Z;
  new_strIPFSHash : list Z;
}.

Record CAssetTransfer := MkCAssetTransfer {
  tr_strName : list Z;
  tr_nAmount : Z;
  tr_message : list Z;
  tr_nExpireTime : Z;
}.

Record CReissueAsset := MkCReissueAsset {
  re_strName : list Z;
  re_nAmount : Z;
  re_nUnits : Z;
  re_nReissuable : Z;
  re_strIPFSHash : list Z;
}.

Record CNullAssetTxData := MkCNullAssetTxData { asset_name : list Z; flag : Z }.

(** ** Serialization *)

(** [ReadWriteAssetHash] when writing: what is written and the result *)
Definition WriteAssetHash (strIPFSHash : list Z) : list Z * bool :=
  if zlen strIPFSHash =? 34 then (ser_writedata8 IPFS_SHA2_256 ++ Serialize_bytes (drop 2 strIPFSHash), true)
  else if zlen strIPFSHash =? 32 then (ser_writedata8 TXID_NOTIFIER ++ Serialize_bytes strIPFSHash, true)
  else ([], false).

(** [ReadWriteAssetHash] when reading: the string and the result *)
Definition ReadAssetHash : parser (list Z * bool) := fun s =>
  if zlen s >=? 33 then
    (sha2_256 ← ser_readdata8;
     hash ← Unserialize_bytes;
     mret ((if sha2_256 =? IPFS_SHA2_256 then [IPFS_SHA2_256; IPFS_SHA2_256_LEN] else []) ++ take 32 hash, true)) s
  else Some (([], false), s).

Definition readdata_i8 : parser Z := x ← ser_readdata8; mret (i8 x).
Definition readdata_i64 : parser Z := x ← ser_readdata64; mret (i64 x).

Definition Serialize_CNewAsset (a : CNewAsset) : list Z :=
  Serialize_bytes (new_strName a) ++ ser_writedata64 (new_nAmount a) ++ ser_writedata8 (new_units a) ++
  ser_writedata8 (new_nReissuable a) ++ ser_writedata8 (new_nHasIPFS a) ++
  (if new_nHasIPFS a =? 1 then fst (WriteAssetHash (new_strIPFSHash a)) else []).

Definition Unserialize_CNewAsset : parser CNewAsset :=
  name ← Unserialize_bytes;
  amount ← readdata_i64;
  units ← readdata_i8;
  reissuable ← readdata_i8;
  has_ipfs ← readdata_i8;
  hash ← (if has_ipfs =? 1 then ReadAssetHash else mret ([], false));
  mret (MkCNewAsset name amount units reissuable has_ipfs (fst hash)).

Definition Serialize_CAssetTransfer (t : CAssetTransfer) : list Z :=
  let '(hash, validIPFS) := WriteAssetHash (tr_message t) in
  Serialize_bytes (tr_strName t) ++ ser_writedata64 (tr_nAmount t) ++ hash ++
  (if validIPFS && negb (tr_nExpireTime t =? 0) then ser_writedata64 (tr_nExpireTime t) else []).

Definition read_expire (validIPFS : bool) : parser Z := fun s => if validIPFS && (zlen s >=? 8) then readdata_i64 s else Some (0, s).

Definition Unserialize_CAssetTransfer : parser CAssetTransfer :=
  name ← Unserialize_bytes;
  amount ← readdata_i64;
  hash ← ReadAssetHash;
  expire ← read_expire (snd hash);
  mret (MkCAssetTransfer name amount (fst hash) expire).

Definition Serialize_CReissueAsset (r : CReissueAsset) : list Z :=
  Serialize_bytes (re_strName r) ++ ser_writedata64 (re_nAmount r) ++ ser_writedata8 (re_nUnits r) ++
  ser_writedata8 (re_nReissuable r) ++ fst (WriteAssetHash (re_strIPFSHash r)).

Definition Unserialize_CReissueAsset : parser CReissueAsset :=
  name ← Unserialize_bytes;
  amount ← readdata_i64;
  units ← readdata_i8;
  reissuable ← readdata_i8;
  hash ← ReadAssetHash;
  mret (MkCReissueAsset name amount units reissuable (fst hash)).

Definition Serialize_CNullAssetTxData (d : CNullAssetTxData) : list Z := Serialize_bytes (asset_name d) ++ ser_writedata8 (flag d).

Definition Unserialize_CNullAssetTxData : parser CNullAssetTxData :=
  name ← Unserialize_bytes; f ← readdata_i8; mret (MkCNullAssetTxData name f).

(** ** Building the scripts *)

(** the common end of the [ConstructTransaction] methods *)
Definition asset_tail (script : script_bytes) (vchMessage : valtype) : script_bytes :=
  push_opcode (push_data (push_opcode script OP_BLKR_ASSET) vchMessage) OP_DROP.

Definition NewAsset_ConstructTransaction (a : CNewAsset) (script : script_bytes) : script_bytes :=
  asset_tail script ([BLKR_N; BLKR_E; BLKR_X; BLKR_Q] ++ Serialize_CNewAsset a).
Definition ConstructOwnerTransaction (a : CNewAsset) (script : script_bytes) : script_bytes :=
  asset_tail script ([BLKR_N; BLKR_E; BLKR_X; BLKR_O] ++ Serialize_bytes (new_strName a ++ OWNER_TAG)).
Definition Transfer_ConstructTransaction (t : CAssetTransfer) (script : script_bytes) : script_bytes :=
  asset_tail script ([BLKR_N; BLKR_E; BLKR_X; BLKR_T] ++ Serialize_CAssetTransfer t).
Definition Reissue_ConstructTransaction (r : CReissueAsset) (script : script_bytes) : script_bytes :=
  asset_tail script ([BLKR_N; BLKR_E; BLKR_X; BLKR_N] ++ Serialize_CReissueAsset r).

Definition NullData_ConstructTransaction (d : CNullAssetTxData) (script : script_bytes) : script_bytes :=
  push_data script (Serialize_CNullAssetTxData d).
Definition ConstructGlobalRestrictionTransaction (d : CNullAssetTxData) (script : script_bytes) : script_bytes :=
  push_data (push_opcode (push_opcode (push_opcode script OP_BLKR_ASSET) OP_RESERVED) OP_RESERVED) (Serialize_CNullAssetTxData d).
Definition Verifier_ConstructTransaction (verifier_string : list Z) (script : script_bytes) : script_bytes :=
  push_data (push_opcode (push_opcode script OP_BLKR_ASSET) OP_RESERVED) (Serialize_bytes verifier_string).

(** ** Reading the scripts *)

(** the data of a stream, whose rest is not looked at; an exception is caught *)
Definition from_stream {A} (p : parser A) (s : list Z) : option A := fst <$> p s.

(** [IsScriptNewAsset], [IsScriptOwnerAsset], [IsScriptReissueAsset] and
    [IsScriptTransferAsset] ([ScriptNewAsset] and the like in script.cpp): the starting
    index when the script is one *)
Definition IsScriptNewAsset (s : script_bytes) : option Z :=
  match IsAssetScript s with Some (TX_NEW_ASSET, false, nStartingIndex) => Some nStartingIndex | _ => None end.
Definition IsScriptOwnerAsset (s : script_bytes) : option Z :=
  match IsAssetScript s with Some (TX_NEW_ASSET, true, nStartingIndex) => Some nStartingIndex | _ => None end.
Definition IsScriptReissueAsset (s : script_bytes) : option Z :=
  match IsAssetScript s with Some (TX_REISSUE_ASSET, _, nStartingIndex) => Some nStartingIndex | _ => None end.
Definition IsScriptTransferAsset (s : script_bytes) : option Z :=
  match IsAssetScript s with Some (TX_TRANSFER_ASSET, _, nStartingIndex) => Some nStartingIndex | _ => None end.

(** the amounts, as [CScript::IsUnspendable] needs them *)
Definition AmountFromNewAssetScript (s : script_bytes) : option Z :=
  i ← IsScriptNewAsset s; new_nAmount <$> from_stream Unserialize_CNewAsset (drop (Z.to_nat i) s).
Definition AmountFromTransferScript (s : script_bytes) : option Z :=
  i ← IsScriptTransferAsset s; tr_nAmount <$> from_stream Unserialize_CAssetTransfer (drop (Z.to_nat i) s).
Definition AmountFromReissueScript (s : script_bytes) : option Z :=
  i ← IsScriptReissueAsset s; re_nAmount <$> from_stream Unserialize_CReissueAsset (drop (Z.to_nat i) s).

Definition GetAssetAmountFromScript (s : script_bytes) : option Z :=
  match IsAssetScript s with
  | None => None
  | Some (nType, fIsOwner, _) =>
      match nType, fIsOwner with
      | TX_NEW_ASSET, false => AmountFromNewAssetScript s
      | TX_TRANSFER_ASSET, _ => AmountFromTransferScript s
      | TX_NEW_ASSET, true => Some OWNER_ASSET_AMOUNT
      | TX_REISSUE_ASSET, _ => AmountFromReissueScript s
      | _, _ => None
      end
  end.

Definition IsUnspendable (s : script_bytes) : bool :=
  ((zlen s >? 0) && (s !!! 0%nat =? OP_RETURN)) || ((zlen s >? 0) && (s !!! 0%nat =? OP_BLKR_ASSET)) ||
  (zlen s >? MAX_SCRIPT_SIZE) || match GetAssetAmountFromScript s with Some nAmount => nAmount =? 0 | None => false end.

Section FromScript.
Context `{ScriptHashes}.

(** [ExtractDestination] into a fresh destination; [None] is a failed assertion.  The
    address string the functions return is [EncodeDestination] of it. *)
Definition destination_of (s : script_bytes) : option CTxDestination := default CNoDestination <$> ExtractDestination s.

(** the inner [None] is [false] *)
Definition AssetFromScript (s : script_bytes) : option (option (CNewAsset * CTxDestination)) :=
  match IsScriptNewAsset s with
  | None => Some None
  | Some i => dest ← destination_of s; Some (a ← from_stream Unserialize_CNewAsset (drop (Z.to_nat i) s); Some (a, dest))
  end.
Definition OwnerAssetFromScript (s : script_bytes) : option (option (list Z * CTxDestination)) :=
  match IsScriptOwnerAsset s with
  | None => Some None
  | Some i => dest ← destination_of s; Some (a ← from_stream Unserialize_bytes (drop (Z.to_nat i) s); Some (a, dest))
  end.
Definition ReissueAssetFromScript (s : script_bytes) : option (option (CReissueAsset * CTxDestination)) :=
  match IsScriptReissueAsset s with
  | None => Some None
  | Some i => dest ← destination_of s; Some (a ← from_stream Unserialize_CReissueAsset (drop (Z.to_nat i) s); Some (a, dest))
  end.

(** [fTransferScriptIsActive] is the result of [AreTransferScriptsSizeDeployed] *)
Definition TransferAssetFromScript (fTransferScriptIsActive : bool) (s : script_bytes) : option (option (CAssetTransfer * CTxDestination)) :=
  match IsScriptTransferAsset s with
  | None => Some None
  | Some i =>
      dest ← destination_of s;
      Some (a ← from_stream Unserialize_CAssetTransfer (drop (if fTransferScriptIsActive then Z.to_nat i else 31) s); Some (a, dest))
  end.

Definition AssetNullDataFromScript (s : script_bytes) : option (option (CNullAssetTxData * CTxDestination)) :=
  if negb (IsNullAssetTxDataScript s) then Some None
  else dest ← destination_of s; Some (a ← from_stream Unserialize_CNullAssetTxData (drop 23 s); Some (a, dest)).
End FromScript.

Definition GlobalAssetNullDataFromScript (s : script_bytes) : option CNullAssetTxData :=
  if negb (IsNullGlobalRestrictionAssetTxDataScript s) then None else from_stream Unserialize_CNullAssetTxData (drop 4 s).
Definition AssetNullVerifierDataFromScript (s : script_bytes) : option (list Z) :=
  if negb (IsNullAssetVerifierTxDataScript s) then None else from_stream Unserialize_bytes (drop 3 s).

(** ** Reading back *)

Lemma i8_mod x : is_i8 x -> i8 (x mod 256) = x.
Proof.
  unfold is_i8, i8, wrap_signed. change (8 - 1) with 7. change (2 ^ 8) with 256. intros Hx. rewrite Zplus_mod_idemp_l, Z.mod_small by lia. lia.
Qed.

Lemma i8_reads : reads is_i8 id ser_writedata8 readdata_i8.
Proof.
  intros x s Hx. unfold readdata_i8. rewrite (parser_bind_eq _ _ _ _ _ (read_le_mod 1 x s)). change (256 ^ Z.of_nat 1) with 256. unfold mret, parser_ret. by rewrite i8_mod.
Qed.

Lemma i64_reads : reads is_i64 id ser_writedata64 readdata_i64.
Proof.
  intros x s Hx. unfold readdata_i64. rewrite (parser_bind_eq _ _ _ _ _ (read_le_mod 8 x s)). change (256 ^ Z.of_nat 8) with (2 ^ 64). unfold mret, parser_ret. by rewrite i64_mod.
Qed.

(** no hash, a transaction id, or an IPFS hash *)
Definition asset_hash_ok (h : list Z) : Prop :=
  h = [] \/ length h = 32%nat \/ length h = 34%nat /\ take 2 h = [IPFS_SHA2_256; IPFS_SHA2_256_LEN].

Lemma ReadAssetHash_write h rest : asset_hash_ok h -> (length rest < 33)%nat ->
  ReadAssetHash (fst (WriteAssetHash h) ++ rest) = Some ((h, snd (WriteAssetHash h)), rest).
Proof.
  intros Hh Hr. unfold WriteAssetHash. destruct Hh as [->|[Hl|[Hl Ht]]].
  - change (ReadAssetHash rest = Some (([], false), rest)). unfold ReadAssetHash. rewrite Z.geb_leb, (proj2 (Z.leb_gt _ _)) by lia. done.
  - rewrite Hl. cbn [fst snd]. change (Z.of_nat 32 =? 34) with false. change (Z.of_nat 32 =? 32) with true. cbn [fst snd]. rewrite <- app_assoc. unfold ReadAssetHash.
    rewrite Z.geb_leb, (proj2 (Z.leb_le _ _)) by (unfold Serialize_bytes, ser_writedata8; rewrite !length_app, le_bytes_length; lia).
    rewrite (parser_bind_eq _ _ _ _ _ (readdata8_write TXID_NOTIFIER _ ltac:(unfold is_u8, TXID_NOTIFIER; lia))).
    rewrite (parser_bind_eq _ _ _ _ _ (bytes_reads h rest ltac:(cbv beta; rewrite Hl; done))). change (TXID_NOTIFIER =? IPFS_SHA2_256) with false.
    unfold mret, parser_ret, id. by rewrite take_ge by lia.
  - rewrite Hl. change (Z.of_nat 34 =? 34) with true. cbn [fst snd]. rewrite <- app_assoc. unfold ReadAssetHash.
    assert (Hd : length (drop 2 h) = 32%nat) by (rewrite length_drop; lia).
    rewrite Z.geb_leb, (proj2 (Z.leb_le _ _)) by (unfold Serialize_bytes, ser_writedata8; rewrite !length_app, le_bytes_length; lia).
    rewrite (parser_bind_eq _ _ _ _ _ (readdata8_write IPFS_SHA2_256 _ ltac:(unfold is_u8, IPFS_SHA2_256; lia))).
    rewrite (parser_bind_eq _ _ _ _ _ (bytes_reads (drop 2 h) rest ltac:(cbv beta; rewrite Hd; done))). change (IPFS_SHA2_256 =? IPFS_SHA2_256) with true.
    unfold mret, parser_ret, id. rewrite (take_ge (drop 2 h)) by lia. rewrite <- Ht. by rewrite take_drop.
Qed.

Definition name_ok (name : list Z) : Prop := zlen name <= 32.

Definition new_asset_ok (a : CNewAsset) : Prop :=
  name_ok (new_strName a) /\ is_i64 (new_nAmount a) /\ is_i8 (new_units a) /\ is_i8 (new_nReissuable a) /\ is_i8 (new_nHasIPFS a) /\
  if new_nHasIPFS a =? 1 then asset_hash_ok (new_strIPFSHash a) else new_strIPFSHash a = [].
Definition transfer_ok (t : CAssetTransfer) : Prop :=
  name_ok (tr_strName t) /\ is_i64 (tr_nAmount t) /\ asset_hash_ok (tr_message t) /\ is_i64 (tr_nExpireTime t) /\
  (tr_message t = [] -> tr_nExpireTime t = 0).
Definition reissue_ok (r : CReissueAsset) : Prop :=
  name_ok (re_strName r) /\ is_i64 (re_nAmount r) /\ is_i8 (re_nUnits r) /\ is_i8 (re_nReissuable r) /\ asset_hash_ok (re_strIPFSHash r).

Lemma name_reads name s : name_ok name -> Unserialize_bytes (Serialize_bytes name ++ s) = Some (name, s).
Proof. intros Hn. apply bytes_reads. unfold name_ok in Hn. unfold MAX_SIZE. lia. Qed.

Lemma new_asset_reads a rest : new_asset_ok a -> (length rest < 33)%nat -> from_stream Unserialize_CNewAsset (Serialize_CNewAsset a ++ rest) = Some a.
Proof.
  intros (Hn & Ha & Hu & Hre & Hi & Hh) Hr. unfold from_stream, Unserialize_CNewAsset, Serialize_CNewAsset. rewrite <- !app_assoc.
  rewrite (parser_bind_eq _ _ _ _ _ (name_reads _ _ Hn)), (parser_bind_eq _ _ _ _ _ (i64_reads _ _ Ha)), (parser_bind_eq _ _ _ _ _ (i8_reads _ _ Hu)),
    (parser_bind_eq _ _ _ _ _ (i8_reads _ _ Hre)), (parser_bind_eq _ _ _ _ _ (i8_reads _ _ Hi)). unfold id. destruct (new_nHasIPFS a =? 1).
  - rewrite (parser_bind_eq _ _ _ _ _ (ReadAssetHash_write _ _ Hh Hr)). by destruct a.
  - destruct a. cbn in *. by subst.
Qed.

Lemma reissue_reads r rest : reissue_ok r -> (length rest < 33)%nat -> from_stream Unserialize_CReissueAsset (Serialize_CReissueAsset r ++ rest) = Some r.
Proof.
  intros (Hn & Ha & Hu & Hre & Hh) Hr. unfold from_stream, Unserialize_CReissueAsset, Serialize_CReissueAsset. rewrite <- !app_assoc.
  rewrite (parser_bind_eq _ _ _ _ _ (name_reads _ _ Hn)), (parser_bind_eq _ _ _ _ _ (i64_reads _ _ Ha)), (parser_bind_eq _ _ _ _ _ (i8_reads _ _ Hu)),
    (parser_bind_eq _ _ _ _ _ (i8_reads _ _ Hre)), (parser_bind_eq _ _ _ _ _ (ReadAssetHash_write _ _ Hh Hr)). by destruct r.
Qed.

(** fewer than 8 bytes may follow, or the expiry time could be read from them *)
Lemma transfer_reads t rest : transfer_ok t -> (length rest < 8)%nat -> from_stream Unserialize_CAssetTransfer (Serialize_CAssetTransfer t ++ rest) = Some t.
Proof.
  intros (Hn & Ha & Hh & He & H0) Hr. unfold from_stream, Unserialize_CAssetTransfer, Serialize_CAssetTransfer.
  set (tail := fun v : bool => if v && negb (tr_nExpireTime t =? 0) then ser_writedata64 (tr_nExpireTime t) else []).
  assert (Htail : forall v, (length (tail v ++ rest) < 33)%nat) by (intros v; unfold tail; rewrite length_app; destruct (_ && _); cbn [length]; try (unfold ser_writedata64; rewrite le_bytes_length); lia).
  destruct (WriteAssetHash (tr_message t)) as [hash valid] eqn:E. fold (tail valid). rewrite <- !app_assoc.
  rewrite (parser_bind_eq _ _ _ _ _ (name_reads _ _ Hn)), (parser_bind_eq _ _ _ _ _ (i64_reads _ _ Ha)).
  pose proof (ReadAssetHash_write _ _ Hh (Htail valid)) as Eh. rewrite E in Eh. cbn [fst snd] in Eh. rewrite (parser_bind_eq _ _ _ _ _ Eh). cbn [fst snd].
  rewrite (parser_bind_eq _ _ _ (tr_nExpireTime t) rest); [by destruct t|]. unfold read_expire, tail.
  assert (Hv : valid = false -> tr_nExpireTime t = 0).
  { intros ->. apply H0. destruct Hh as [?|[Hl|[Hl _]]]; [done | unfold WriteAssetHash in E; rewrite Hl in E; done..]. }
  destruct valid; cbn [andb]; [|by rewrite Hv]. destruct (Z.eqb_spec (tr_nExpireTime t) 0) as [E0|E0]; cbn [negb].
  - cbn [app]. rewrite Z.geb_leb, (proj2 (Z.leb_gt _ _)) by lia. by rewrite E0.
  - rewrite Z.geb_leb, (proj2 (Z.leb_le _ _)) by (rewrite length_app; unfold ser_writedata64; rewrite le_bytes_length; lia). by apply i64_reads.
Qed.

(** ** Scripts *)

(** the data behind the push, the marker taken off *)
Definition tail_index (vchMessage : valtype) : Z := if zlen vchMessage <? 76 then 31 else 32.

(** what [IsAssetScript] answers for a marker byte *)
Definition marked (k : Z) (i : Z) : option (txnouttype * bool * Z) :=
  if k =? BLKR_T then Some (TX_TRANSFER_ASSET, false, i)
  else if k =? BLKR_Q then Some (TX_NEW_ASSET, false, i)
  else if k =? BLKR_O then Some (TX_NEW_ASSET, true, i)
  else if k =? BLKR_N then Some (TX_REISSUE_ASSET, false, i) else None.

(** the data must be shorter than 114 bytes, the value of the marker's first letter:
    the length byte of a longer push is taken for the letter *)
Lemma asset_tail_recognised h k body : length h = 20%nat -> (k = BLKR_Q -> 8 <= zlen body) -> zlen body < 110 ->
  let script := asset_tail (GetScriptForDestination (CKeyID h)) ([BLKR_N; BLKR_E; BLKR_X; k] ++ body) in
  let i := tail_index ([BLKR_N; BLKR_E; BLKR_X; k] ++ body) in
  IsAssetScript script = marked k i /\ drop (Z.to_nat i) script = body ++ [OP_DROP : Z] /\
  zlen script <= 200 /\ script !!! 0%nat = (OP_DUP : Z) /\ subrange script 3 23 = h.
Proof.
  intros Hh Hb8 Hb script i. set (msg := [BLKR_N; BLKR_E; BLKR_X; k] ++ body) in *. assert (Hm : zlen msg = 4 + zlen body) by (unfold msg; rewrite length_app; cbn [length]; lia).
  assert (Hpre : push_prefix msg = if zlen msg <? 76 then [zlen msg] else [76; zlen msg]).
  { unfold push_prefix. change (OP_PUSHDATA1 : Z) with 76. by rewrite (proj2 (Z.leb_le (zlen msg) 0xff)) by lia. }
  assert (Es : script = 0x76 :: 0xa9 :: 20 :: h ++ 0x88 :: 0xac :: (OP_BLKR_ASSET : Z) :: push_prefix msg ++ msg ++ [OP_DROP : Z]).
  { unfold script, asset_tail, push_opcode, push_data. rewrite p2pkh_bytes by done. cbn [app]. rewrite <- !app_assoc. done. }
  assert (Hlen : zlen script = 27 + zlen (push_prefix msg) + zlen msg).
  { rewrite Es. repeat (rewrite ?length_app; cbn [length]). lia. }
  clearbody script. unfold IsAssetScript, tail_index in *. rewrite Hpre in *. rewrite !Z.gtb_ltb.
  do 20 (destruct h as [|? h]; [done|]). destruct h; [|done]. subst i.
  destruct (Z.ltb_spec (zlen msg) 76) as [L|L]; cbn [length] in Hlen; rewrite (proj2 (Z.ltb_lt 31 (zlen script))) by lia;
    assert (Hq : (k =? BLKR_Q) && (39 <? zlen script) = (k =? BLKR_Q)) by (destruct (Z.eqb_spec k BLKR_Q); [apply Z.ltb_lt; specialize (Hb8 ltac:(done)); lia | done]);
    assert (Hmax : zlen script <= 200) by lia; clear Hlen Hb8; generalize dependent (zlen script); intros size Hq Hmax;
    (split; [|split; [|split; [done|]]]); rewrite Es; cbn [app]; unfold msg; cbn [app lookup_total list_lookup_total].
  - change (0 <? _) with true. change (OP_BLKR_ASSET =? OP_BLKR_ASSET) with true. cbn -[list_lookup_total Z.to_nat]. change (Z.to_nat 30) with 30%nat.
    cbn [lookup_total list_lookup_total]. unfold marked. by rewrite Hq.
  - done.
  - done.
  - rewrite (proj2 (Z.eqb_neq (zlen (_ :: _)) BLKR_N)) by (unfold BLKR_N; cbn [length]; lia). change (OP_BLKR_ASSET =? OP_BLKR_ASSET) with true. cbn -[list_lookup_total Z.to_nat]. change (Z.to_nat 31) with 31%nat.
    cbn [lookup_total list_lookup_total]. unfold marked. by rewrite Hq.
  - done.
  - done.
Qed.

Lemma asset_destination (hashes : ScriptHashes) s h t o i : IsAssetScript s = Some (t, o, i) ->
  t = TX_TRANSFER_ASSET \/ t = TX_NEW_ASSET \/ t = TX_REISSUE_ASSET -> s !!! 0%nat = (OP_DUP : Z) -> subrange s 3 23 = h -> length h = 20%nat ->
  destination_of s = Some (CKeyID h).
Proof.
  intros Ha Ht H0 Hr Hh. unfold destination_of, ExtractDestination, Solver. unfold IsPayToScriptHash. rewrite H0.
  change (OP_DUP =? OP_HASH160) with false. rewrite andb_false_r. cbn [andb]. rewrite Ha, Hr.
  destruct Ht as [-> | [-> | ->]]; cbn [negb solved typeRet vSolutionsRet lookup list_lookup mbind option_bind]; unfold uint160; by rewrite Hh.
Qed.

Lemma Serialize_bytes_short v : zlen v < 253 -> Serialize_bytes v = zlen v :: v.
Proof.
  intros Hv. unfold Serialize_bytes, WriteCompactSize. rewrite (proj2 (Z.ltb_lt _ _)) by lia. unfold ser_writedata8. cbn [le_bytes app].
  rewrite (proj1 (byte_split _)), Z.mod_small by lia. done.
Qed.

(** the sizes of the data *)
Lemma Serialize_bytes_length v : (length v < 253)%nat -> length (Serialize_bytes v) = S (length v).
Proof. intros Hv. by rewrite Serialize_bytes_short by lia. Qed.

Lemma WriteAssetHash_length h : asset_hash_ok h -> (length (fst (WriteAssetHash h)) <= 34)%nat.
Proof.
  intros [->|[Hl|[Hl _]]]; unfold WriteAssetHash; [simpl; lia|rewrite Hl|rewrite Hl].
  - change (Z.of_nat 32 =? 34) with false. change (Z.of_nat 32 =? 32) with true. cbn [fst].
    rewrite length_app, Serialize_bytes_length by lia. unfold ser_writedata8. rewrite le_bytes_length. lia.
  - change (Z.of_nat 34 =? 34) with true. cbn [fst].
    rewrite length_app, Serialize_bytes_length; rewrite length_drop; unfold ser_writedata8; rewrite ?le_bytes_length; lia.
Qed.

Lemma data_sizes a r t : new_asset_ok a -> reissue_ok r -> transfer_ok t ->
  8 <= zlen (Serialize_CNewAsset a) < 110 /\ zlen (Serialize_CReissueAsset r) < 110 /\ zlen (Serialize_CAssetTransfer t) < 110 /\
  zlen (Serialize_bytes (new_strName a ++ OWNER_TAG)) < 110.
Proof.
  intros (Hna & _ & _ & _ & _ & Hha) (Hnr & _ & _ & _ & Hhr) (Hnt & _ & Hht & _). unfold name_ok in *.
  apply WriteAssetHash_length in Hhr, Hht.
  assert (Ha : (length (if (new_nHasIPFS a =? 1)%Z then fst (WriteAssetHash (new_strIPFSHash a)) else []) <= 34)%nat)
    by (destruct (new_nHasIPFS a =? 1); [by apply WriteAssetHash_length | simpl; lia]).
  unfold Serialize_CNewAsset, Serialize_CReissueAsset, Serialize_CAssetTransfer, ser_writedata8, ser_writedata64.
  destruct (WriteAssetHash (tr_message t)) as [hash valid]. cbn [fst] in Hht.
  repeat (rewrite ?length_app, ?le_bytes_length, ?Serialize_bytes_length; try (rewrite ?length_app; unfold OWNER_TAG; cbn [length]; lia)).
  destruct (valid && _); rewrite ?le_bytes_length; cbn [length OWNER_TAG]; lia.
Qed.

(** *** Null data *)

Lemma IsPushOnly_push b rest : b <> [] -> zlen b < 2 ^ 32 -> IsPushOnly (push_prefix b ++ b ++ rest) = IsPushOnly rest.
Proof.
  intros Hne Hb. unfold IsPushOnly at 1. rewrite run_ops_unfold. rewrite GetOp2_push by done.
  assert (Hop : (push_op b >? OP_16) = false).
  { rewrite Z.gtb_ltb. apply Z.ltb_ge. unfold push_op. change (OP_PUSHDATA1 : Z) with 76. change (OP_16 : Z) with 96. case_ifs; bool_to_prop; try lia; vm_compute; discriminate. }
  rewrite Hop. destruct (push_prefix b ++ b ++ rest) eqn:E; [|done]. apply app_nil in E as [_ [E _]%app_nil]. done.
Qed.

Definition null_data_ok (d : CNullAssetTxData) : Prop := zlen (asset_name d) <= 32 /\ Forall (fun c => 0 <= c < 128) (asset_name d) /\ is_i8 (flag d).

Lemma null_data_reads d rest : null_data_ok d -> from_stream Unserialize_CNullAssetTxData (Serialize_CNullAssetTxData d ++ rest) = Some d.
Proof.
  intros (Hn & _ & Hf). unfold from_stream, Unserialize_CNullAssetTxData, Serialize_CNullAssetTxData. rewrite <- app_assoc.
  rewrite (parser_bind_eq _ _ _ _ _ (name_reads _ _ Hn)), (parser_bind_eq _ _ _ _ _ (i8_reads _ _ Hf)). by destruct d.
Qed.

Lemma null_data_message d : null_data_ok d ->
  push_prefix (Serialize_CNullAssetTxData d) = [zlen (Serialize_CNullAssetTxData d)] /\ zlen (Serialize_CNullAssetTxData d) = 2 + zlen (asset_name d).
Proof.
  intros (Hn & _ & _). assert (E : zlen (Serialize_CNullAssetTxData d) = 2 + zlen (asset_name d)).
  { unfold Serialize_CNullAssetTxData, ser_writedata8. rewrite length_app, le_bytes_length, Serialize_bytes_length by lia. lia. }
  split; [|done]. unfold push_prefix. rewrite E. change (OP_PUSHDATA1 : Z) with 76. by rewrite (proj2 (Z.ltb_lt _ _)) by lia.
Qed.

(** the address tag of a null-data output *)
Lemma null_destination (hashes : ScriptHashes) h d : length h = 20%nat -> null_data_ok d ->
  let script := NullData_ConstructTransaction d (GetScriptForNullAssetDataDestination (CKeyID h)) in
  IsNullAssetTxDataScript script = true /\ drop 23 script = Serialize_CNullAssetTxData d /\ destination_of script = Some (CKeyID h).
Proof.
  intros Hh Hd script. destruct (null_data_message d Hd) as [Hpre Hlen]. pose proof (proj1 Hd) as Hn. set (msg := Serialize_CNullAssetTxData d) in *.
  assert (Hp20 : push_prefix h = [20]) by (unfold push_prefix; by rewrite Hh).
  assert (Hpush : IsPushOnly (20 :: h ++ zlen msg :: msg) = true).
  { change (IsPushOnly ([20] ++ h ++ [zlen msg] ++ msg) = true). rewrite <- Hp20, IsPushOnly_push by (lia || by destruct h).
    rewrite <- Hpre, <- (app_nil_r (push_prefix msg ++ msg)), <- app_assoc, IsPushOnly_push by (lia || (intros E; rewrite E in Hlen; cbn in Hlen; lia)). done. }
  assert (Es : script = (OP_BLKR_ASSET : Z) :: 20 :: h ++ zlen msg :: msg).
  { unfold script, NullData_ConstructTransaction, GetScriptForNullAssetDataDestination, push_data, push_opcode. fold msg. rewrite Hp20, Hpre. by rewrite <- !app_assoc. }
  assert (Hsz : zlen script = 23 + zlen msg) by (rewrite Es; repeat (rewrite ?length_app; cbn [length]); lia).
  assert (Hna : IsAssetScript script = None).
  { unfold IsAssetScript. destruct (_ >? 31) eqn:E31; [|done]. rewrite Z.gtb_ltb in E31. apply Z.ltb_lt in E31. destruct Hd as (_ & Hc & _).
    assert (Hb : exists c, script !!! 25%nat = c /\ 0 <= c < 128).
    { rewrite Es. do 20 (destruct h as [|? h]; [done|]). destruct h; [|done]. unfold msg, Serialize_CNullAssetTxData, Serialize_bytes, WriteCompactSize.
      rewrite (proj2 (Z.ltb_lt (zlen (asset_name d)) 253)) by lia. cbn [app ser_writedata8 le_bytes lookup_total list_lookup_total].
      destruct (asset_name d) as [|c0 [|c1 name]] eqn:En; [cbn in Hlen; lia..|].
      inversion Hc as [|? ? _ Hc']; subst. inversion Hc' as [|? ? Hc1 _]; subst. exists c1. split; [done|lia]. }
    destruct Hb as (c & -> & Hc'). rewrite (proj2 (Z.eqb_neq c OP_BLKR_ASSET)); [done|]. change (OP_BLKR_ASSET : Z) with 192. lia. }
  split; [|split].
  - unfold IsNullAssetTxDataScript. rewrite Z.gtb_ltb, (proj2 (Z.ltb_lt _ _)) by lia. by rewrite Es.
  - rewrite Es. do 20 (destruct h as [|? h]; [done|]). by destruct h.
  - unfold destination_of, ExtractDestination, Solver. unfold IsPayToScriptHash, IsWitnessProgram. rewrite Hna, Z.geb_leb, Z.geb_leb, (proj2 (Z.leb_le 1 _)), (proj2 (Z.leb_le 23 _)) by lia.
    rewrite Es. cbn [lookup_total list_lookup_total drop]. rewrite Hpush. change (OP_BLKR_ASSET =? OP_HASH160) with false. change (OP_BLKR_ASSET =? OP_0) with false.
    change (OP_BLKR_ASSET <? OP_1) with false. change (OP_BLKR_ASSET >? OP_16) with true. change (OP_BLKR_ASSET =? OP_RETURN) with false.
    change (OP_BLKR_ASSET =? OP_BLKR_ASSET) with true. change (20 =? OP_RESERVED) with false.
    assert (Hsub : subrange ((OP_BLKR_ASSET : Z) :: 20 :: h ++ zlen msg :: msg) 2 22 = h) by (change (take 20 (h ++ zlen msg :: msg) = h); by apply take_app_length').
    rewrite andb_false_r, Hsub. cbn [andb orb negb]. by destruct (_ || _); cbn; unfold uint160; rewrite Hh.
Qed.

(** ** Properties *)

(** C35: the asset data appended to a pay-to-public-key-hash script are read back, with the
    destination, as they were written: new assets, owner tokens, reissues, and
    transfers; transfers before the fork that reads the size of the push
    only when the transfer takes at most 71 bytes.  The output is unspendable exactly
    when the amount is zero.  (Other destinations are not covered: an asset script on a
    pay-to-script-hash output is not recognised by the code.) *)
Theorem asset_script_roundtrip (hashes : ScriptHashes) h a r t active :
  length h = 20%nat -> new_asset_ok a -> reissue_ok r -> transfer_ok t -> active = true \/ zlen (Serialize_CAssetTransfer t) <= 71 ->
  let dest := GetScriptForDestination (CKeyID h) in
  AssetFromScript (NewAsset_ConstructTransaction a dest) = Some (Some (a, CKeyID h)) /\
  OwnerAssetFromScript (ConstructOwnerTransaction a dest) = Some (Some (new_strName a ++ OWNER_TAG, CKeyID h)) /\
  ReissueAssetFromScript (Reissue_ConstructTransaction r dest) = Some (Some (r, CKeyID h)) /\
  TransferAssetFromScript active (Transfer_ConstructTransaction t dest) = Some (Some (t, CKeyID h)) /\
  IsUnspendable (NewAsset_ConstructTransaction a dest) = (new_nAmount a =? 0) /\
  IsUnspendable (ConstructOwnerTransaction a dest) = false /\
  IsUnspendable (Reissue_ConstructTransaction r dest) = (re_nAmount r =? 0) /\
  IsUnspendable (Transfer_ConstructTransaction t dest) = (tr_nAmount t =? 0).
Proof.
  intros Hh Ha Hr Ht Hact dest. destruct (data_sizes a r t Ha Hr Ht) as (Sa & Sr & St & So).
  assert (Hspend : forall s, zlen s <= 200 -> s !!! 0%nat = (OP_DUP : Z) ->
    IsUnspendable s = match GetAssetAmountFromScript s with Some nAmount => nAmount =? 0 | None => false end).
  { intros s Hs H0. unfold IsUnspendable. rewrite H0, !Z.gtb_ltb, (proj2 (Z.ltb_ge MAX_SCRIPT_SIZE _)) by (unfold MAX_SCRIPT_SIZE; lia).
    change (OP_DUP =? OP_RETURN) with false. change (OP_DUP =? OP_BLKR_ASSET) with false. by rewrite !andb_false_r. }
  destruct (asset_tail_recognised h BLKR_Q (Serialize_CNewAsset a)) as (Ea & Da & La & Za & Ra); [done | lia | lia |].
  destruct (asset_tail_recognised h BLKR_O (Serialize_bytes (new_strName a ++ OWNER_TAG))) as (Eo & Do & Lo & Zo & Ro); [done | done | lia |].
  destruct (asset_tail_recognised h BLKR_N (Serialize_CReissueAsset r)) as (Er & Dr & Lr & Zr & Rr); [done | done | lia |].
  destruct (asset_tail_recognised h BLKR_T (Serialize_CAssetTransfer t)) as (Et & Dt & Lt & Zt & Rt); [done | done | lia |].
  unfold NewAsset_ConstructTransaction, ConstructOwnerTransaction, Reissue_ConstructTransaction, Transfer_ConstructTransaction.
  rewrite !Hspend by done. unfold GetAssetAmountFromScript, AssetFromScript, OwnerAssetFromScript, ReissueAssetFromScript, TransferAssetFromScript,
    AmountFromNewAssetScript, AmountFromReissueScript, AmountFromTransferScript, IsScriptNewAsset, IsScriptOwnerAsset, IsScriptReissueAsset, IsScriptTransferAsset.
  unfold dest. rewrite Ea, Eo, Er, Et. cbn [marked BLKR_Q BLKR_O BLKR_N BLKR_T Z.eqb Pos.eqb mbind option_bind].
  rewrite (asset_destination hashes _ h _ _ _ Ea), (asset_destination hashes _ h _ _ _ Eo), (asset_destination hashes _ h _ _ _ Er), (asset_destination hashes _ h _ _ _ Et) by auto.
  assert (Hn : forall b : bool, b = active -> drop (if b then Z.to_nat (tail_index ([BLKR_N; BLKR_E; BLKR_X; BLKR_T] ++ Serialize_CAssetTransfer t)) else 31)
    (asset_tail (GetScriptForDestination (CKeyID h)) ([BLKR_N; BLKR_E; BLKR_X; BLKR_T] ++ Serialize_CAssetTransfer t)) = Serialize_CAssetTransfer t ++ [OP_DROP : Z]).
  { intros b ->. destruct Hact as [->|Hact]; [done|]. rewrite <- Dt. destruct active; [done|]. f_equal. unfold tail_index.
    rewrite length_app. cbn [length]. rewrite (proj2 (Z.ltb_lt _ _)) by lia. done. }
  rewrite (Hn active eq_refl), Da, Do, Dr, Dt, new_asset_reads, reissue_reads, transfer_reads by (done || (cbn; lia)).
  unfold from_stream. rewrite (bytes_reads (new_strName a ++ OWNER_TAG)); [done|]. destruct Ha as [Hna _]. unfold name_ok in Hna.
  rewrite length_app. unfold OWNER_TAG, MAX_SIZE. cbn [length]. lia.
Qed.

(** a new asset with an IPFS hash, a reissue and a transfer with a message *)
Definition sample_ipfs : list Z := [IPFS_SHA2_256; IPFS_SHA2_256_LEN] ++ replicate 32 7.
Definition sample_new : CNewAsset := MkCNewAsset [65; 66; 67] 1000 8 1 1 sample_ipfs.
Definition sample_reissue : CReissueAsset := MkCReissueAsset [65; 66; 67] 500 (-1) 1 [].
Definition sample_transfer : CAssetTransfer := MkCAssetTransfer [65; 66; 67] 0 (replicate 32 9) 1700000000.

Lemma asset_script_roundtrip_witness :
  let dest := GetScriptForDestination (CKeyID (replicate 20 5)) in
  @AssetFromScript sample_hashes (NewAsset_ConstructTransaction sample_new dest) = Some (Some (sample_new, CKeyID (replicate 20 5))) /\
  @OwnerAssetFromScript sample_hashes (ConstructOwnerTransaction sample_new dest) = Some (Some (new_strName sample_new ++ OWNER_TAG, CKeyID (replicate 20 5))) /\
  @ReissueAssetFromScript sample_hashes (Reissue_ConstructTransaction sample_reissue dest) = Some (Some (sample_reissue, CKeyID (replicate 20 5))) /\
  @TransferAssetFromScript sample_hashes true (Transfer_ConstructTransaction sample_transfer dest) = Some (Some (sample_transfer, CKeyID (replicate 20 5))) /\
  IsUnspendable (NewAsset_ConstructTransaction sample_new dest) = (new_nAmount sample_new =? 0) /\
  IsUnspendable (ConstructOwnerTransaction sample_new dest) = false /\
  IsUnspendable (Reissue_ConstructTransaction sample_reissue dest) = (re_nAmount sample_reissue =? 0) /\
  IsUnspendable (Transfer_ConstructTransaction sample_transfer dest) = (tr_nAmount sample_transfer =? 0).
Proof.
  apply (asset_script_roundtrip sample_hashes (replicate 20 5) sample_new sample_reissue sample_transfer true); [done | | | | by left].
  - repeat split; try (vm_compute; congruence). right. right. done.
  - repeat split; try (vm_compute; congruence). by left.
  - repeat split; try (vm_compute; congruence). right. by left.
Defined.

(** The tags of addresses and the global freezes are read back as they were written. *)
Theorem null_data_roundtrip (hashes : ScriptHashes) h d : length h = 20%nat -> null_data_ok d ->
  AssetNullDataFromScript (NullData_ConstructTransaction d (GetScriptForNullAssetDataDestination (CKeyID h))) = Some (Some (d, CKeyID h)) /\
  (3 <= zlen (asset_name d) -> GlobalAssetNullDataFromScript (ConstructGlobalRestrictionTransaction d []) = Some d).
Proof.
  intros Hh Hd. destruct (null_destination hashes h d Hh Hd) as (E1 & E2 & E3). split.
  - unfold AssetNullDataFromScript. rewrite E1, E3, E2. cbn [negb mbind option_bind]. rewrite <- (app_nil_r (Serialize_CNullAssetTxData d)), null_data_reads by done. done.
  - intros H3. destruct (null_data_message d Hd) as [Hpre Hlen]. unfold GlobalAssetNullDataFromScript, ConstructGlobalRestrictionTransaction, push_data, push_opcode.
    rewrite Hpre. cbn [app]. unfold IsNullGlobalRestrictionAssetTxDataScript. cbn [length lookup_total list_lookup_total drop].
    rewrite Z.gtb_ltb, (proj2 (Z.ltb_lt _ _)) by lia. cbn [andb negb Z.eqb Pos.eqb]. change (negb _) with false. cbv iota. rewrite drop_0.
    rewrite <- (app_nil_r (Serialize_CNullAssetTxData d)), null_data_reads by done. done.
Qed.

(** A verifier string of up to 74 characters is read back as it was written; one of
    75 to 80 characters, which [CheckVerifierString] accepts, is read back with its
    length put in front as a further character, since the offset of the data is taken
    to be that of a push with a one-byte prefix. *)
Theorem verifier_string_misread (v : list Z) : zlen v <= 80 ->
  AssetNullVerifierDataFromScript (Verifier_ConstructTransaction v []) = Some (if zlen v <=? 74 then v else zlen v :: v).
Proof.
  intros Hv. unfold AssetNullVerifierDataFromScript, Verifier_ConstructTransaction, push_data, push_opcode.
  pose proof (Serialize_bytes_short v ltac:(lia)) as Hm.
  assert (Hread : forall w, zlen w <= 100 -> from_stream Unserialize_bytes (zlen w :: w) = Some w).
  { intros w Hw. pose proof (bytes_reads w [] ltac:(cbv beta; unfold MAX_SIZE; lia)) as E. rewrite app_nil_r in E. unfold from_stream.
    by rewrite <- Serialize_bytes_short, E by lia. }
  assert (Hpre : push_prefix (Serialize_bytes v) = if zlen v <=? 74 then [zlen v + 1] else [76; zlen v + 1]).
  { rewrite Hm. unfold push_prefix. cbn [length]. change (OP_PUSHDATA1 : Z) with 76. rewrite Nat2Z.inj_succ, (proj2 (Z.leb_le _ 0xff)) by lia.
    destruct (Z.leb_spec (zlen v) 74); [rewrite (proj2 (Z.ltb_lt _ _)) by lia | rewrite (proj2 (Z.ltb_ge _ _)) by lia]; done. }
  rewrite Hpre, Hm. unfold IsNullAssetVerifierTxDataScript. destruct (Z.leb_spec (zlen v) 74) as [L|L]; cbn [app length lookup_total list_lookup_total drop].
  - rewrite Z.gtb_ltb, (proj2 (Z.ltb_lt _ _)), (proj2 (Z.eqb_neq (zlen v + 1) OP_RESERVED)) by (try change (OP_RESERVED : Z) with 80; lia).
    change (negb _) with false. cbv iota. apply Hread. lia.
  - rewrite Z.gtb_ltb, (proj2 (Z.ltb_lt _ _)) by lia. change (negb _) with false. cbv iota.
    replace (zlen v + 1) with (zlen (zlen v :: v)) by (cbn [length]; lia). apply Hread. cbn [length]. lia.
Qed.

(** a verifier of 75 letters A is read back as one of 76 letters that starts with K *)
Lemma verifier_string_misread_witness :
  AssetNullVerifierDataFromScript (Verifier_ConstructTransaction (replicate 75 65) []) = Some (75 :: replicate 75 65).
Proof. apply (verifier_string_misread (replicate 75 65)). vm_compute. discriminate. Defined.
