(* ===== verification/Coins.v ===== *)
(** * The coins cache (coins.h, coins.cpp, txdb.cpp)

    The set of unspent outputs as a stack of views: a database at the bottom and caches
    on top, each with entries marked [DIRTY] (may differ from the view below) and
    [FRESH] (the view below has no coin there).  [CCoinsView] is the interface a cache
    uses of the view below it, and [CoinsViewLaws] what that view promises; the database
    and a cache over any lawful view are lawful, so the theorems hold for stacks of any
    height.  The theorems: a cache behaves as a finite map of coins, whatever the flags,
    the reads that fill it and the entries dropped from it, and flushing makes the view
    below stand for that map.

    The memory statistics ([cachedCoinsUsage]) are left out, and the asset caches that
    some functions take are those of a node on which the asset rules are not active. *)

From S2P Require Import Prelude Opcodes ScriptNum Script Interpreter Serialize Transaction Sighash AssetData.
From stdpp Require Import gmap.
Import Script.
#[local] Open Scope Z_scope.

#[global] Instance COutPoint_countable : Countable COutPoint.
Proof. apply (inj_countable' (fun o => (op_hash o, op_n o)) (fun x => MkCOutPoint x.1 x.2)). by intros []. Defined.

(** ** Coins and entries *)

Record Coin := MkCoin { coin_out : CTxOut; fCoinBase : bool; coin_nHeight : Z }.

#[global] Instance Coin_eq_dec : EqDecision Coin.
Proof. solve_decision. Defined.

(** [Coin(out, nHeight, fCoinBase)]: the height has 31 bits *)
Definition Coin_of (out : CTxOut) (nHeight : Z) (fCoinBase : bool) : Coin := MkCoin out fCoinBase (nHeight mod 2 ^ 31).

(** [Coin()], and what [Clear] leaves *)
Definition coinEmpty : Coin := MkCoin null_txout false 0.

Definition IsSpent (c : Coin) : bool := nValue (coin_out c) =? -1.

Record CCoinsCacheEntry := MkCCoinsCacheEntry { entry_coin : Coin; DIRTY : bool; FRESH : bool }.

(** the coin that a spent or unspent one stands for *)
Definition unspent (c : Coin) : option Coin := if IsSpent c then None else Some c.

(** ** Views *)

(** how a call that may throw or assert ends, with the object left behind *)
Inductive outcome (A : Type) := Returned (x : A) | Threw (x : A) | Aborted.
Arguments Returned {A}.
Arguments Threw {A}.
Arguments Aborted {A}.

(** a hash map as the list of its entries, in the order they are walked in *)
Abbreviation entries := (list (COutPoint * CCoinsCacheEntry)).

(** the virtual methods a cache calls on its base: [GetCoin] and [GetBestBlock] may fill
    the base's own cache; [BatchWrite] returns true *)
Class CCoinsView (V : Type) := {
  GetCoin : V -> COutPoint -> option Coin * V;
  GetBestBlock : V -> uint256 * V;
  BatchWrite : V -> entries -> uint256 -> outcome V;
}.

(** *** The database *)

(** the entries under [DB_COIN], [DB_BEST_BLOCK] (null when there is none) and
    [DB_HEAD_BLOCKS] (empty when there is none) *)
Record CCoinsViewDB := MkCCoinsViewDB { db_coins : gmap COutPoint Coin; db_best : uint256; db_heads : list uint256 }.

Definition db_write (m : gmap COutPoint Coin) (it : COutPoint * CCoinsCacheEntry) : gmap COutPoint Coin :=
  if DIRTY it.2 then
    if IsSpent (entry_coin it.2) then delete it.1 m else <[it.1 := entry_coin it.2]> m
  else m.

Definition db_BatchWrite (db : CCoinsViewDB) (mapCoins : entries) (hashBlock : uint256) : outcome CCoinsViewDB :=
  if bool_decide (hashBlock = uint256_zero) then Aborted
  else if bool_decide (db_best db = uint256_zero) && bool_decide (length (db_heads db) = 2%nat) &&
          negb (bool_decide (head (db_heads db) = Some hashBlock)) then Aborted
  else Returned (MkCCoinsViewDB (foldl db_write (db_coins db) mapCoins) hashBlock []).

#[global] Instance CCoinsViewDB_view : CCoinsView CCoinsViewDB := {
  GetCoin db outpoint := (db_coins db !! outpoint, db);
  GetBestBlock db := (db_best db, db);
  BatchWrite := db_BatchWrite;
}.

(** *** The cache *)

Record CCoinsViewCache (V : Type) := MkCCoinsViewCache { base : V; hashBlock : uint256; cacheCoins : gmap COutPoint CCoinsCacheEntry }.
Arguments MkCCoinsViewCache {V}.
Arguments base {V}.
Arguments hashBlock {V}.
Arguments cacheCoins {V}.

Section Cache.
Context {V : Type} `{!CCoinsView V}.
Implicit Type c : CCoinsViewCache V.

Definition set_base (b : V) c := MkCCoinsViewCache b (hashBlock c) (cacheCoins c).
Definition set_coins (m : gmap COutPoint CCoinsCacheEntry) c := MkCCoinsViewCache (base c) (hashBlock c) m.

(** the entry the iterator points to *)
Definition FetchCoin c (outpoint : COutPoint) : option CCoinsCacheEntry * CCoinsViewCache V :=
  match cacheCoins c !! outpoint with
  | Some e => (Some e, c)
  | None =>
      let '(found, b) := GetCoin (base c) outpoint in
      match found with
      | None => (None, set_base b c)
      | Some tmp =>
          let e := MkCCoinsCacheEntry tmp false (IsSpent tmp) in
          (Some e, set_coins (<[outpoint := e]> (cacheCoins c)) (set_base b c))
      end
  end.

Definition cache_GetCoin c (outpoint : COutPoint) : option Coin * CCoinsViewCache V :=
  let '(it, c) := FetchCoin c outpoint in
  (match it with Some e => unspent (entry_coin e) | None => None end, c).

Definition AddCoin c (outpoint : COutPoint) (coin : Coin) (possible_overwrite : bool) : outcome (CCoinsViewCache V) :=
  if IsSpent coin then Aborted
  else if IsUnspendable (scriptPubKey (coin_out coin)) then Returned c
  else
    let e := default (MkCCoinsCacheEntry coinEmpty false false) (cacheCoins c !! outpoint) in
    if negb possible_overwrite && negb (IsSpent (entry_coin e)) then Threw c
    else
      let fresh := if possible_overwrite then false else negb (DIRTY e) in
      Returned (set_coins (<[outpoint := MkCCoinsCacheEntry coin true (FRESH e || fresh)]> (cacheCoins c)) c).

(** the coin moved out when the result is true *)
Definition SpendCoin c (outpoint : COutPoint) : option Coin * CCoinsViewCache V :=
  let '(it, c) := FetchCoin c outpoint in
  match it with
  | None => (None, c)
  | Some e =>
      (Some (entry_coin e),
       if FRESH e then set_coins (delete outpoint (cacheCoins c)) c
       else set_coins (<[outpoint := MkCCoinsCacheEntry coinEmpty true false]> (cacheCoins c)) c)
  end.

Definition AccessCoin c (outpoint : COutPoint) : Coin * CCoinsViewCache V :=
  let '(it, c) := FetchCoin c outpoint in
  (match it with Some e => entry_coin e | None => coinEmpty end, c).

Definition HaveCoin c (outpoint : COutPoint) : bool * CCoinsViewCache V :=
  let '(it, c) := FetchCoin c outpoint in
  (match it with Some e => negb (IsSpent (entry_coin e)) | None => false end, c).

Definition HaveCoinInCache c (outpoint : COutPoint) : bool :=
  match cacheCoins c !! outpoint with Some e => negb (IsSpent (entry_coin e)) | None => false end.

Definition cache_GetBestBlock c : uint256 * CCoinsViewCache V :=
  if bool_decide (hashBlock c = uint256_zero) then
    let '(h, b) := GetBestBlock (base c) in (h, MkCCoinsViewCache b h (cacheCoins c))
  else (hashBlock c, c).

Definition SetBestBlock c (hashBlockIn : uint256) := MkCCoinsViewCache (base c) hashBlockIn (cacheCoins c).

(** the loop of [BatchWrite] *)
Fixpoint batch_loop c (mapCoins : entries) : outcome (CCoinsViewCache V) :=
  match mapCoins with
  | [] => Returned c
  | (k, e) :: rest =>
      if DIRTY e then
        match cacheCoins c !! k with
        | None =>
            if FRESH e && IsSpent (entry_coin e) then batch_loop c rest
            else batch_loop (set_coins (<[k := MkCCoinsCacheEntry (entry_coin e) true (FRESH e)]> (cacheCoins c)) c) rest
        | Some us =>
            if FRESH e && negb (IsSpent (entry_coin us)) then Threw c
            else if FRESH us && IsSpent (entry_coin e) then batch_loop (set_coins (delete k (cacheCoins c)) c) rest
            else batch_loop (set_coins (<[k := MkCCoinsCacheEntry (entry_coin e) true (FRESH us)]> (cacheCoins c)) c) rest
        end
      else batch_loop c rest
  end.

Definition cache_BatchWrite c (mapCoins : entries) (hashBlockIn : uint256) : outcome (CCoinsViewCache V) :=
  match batch_loop c mapCoins with
  | Returned c => Returned (SetBestBlock c hashBlockIn)
  | r => r
  end.

(** [order] is the order in which the hash map is walked *)
Definition Flush c (order : entries) : outcome (CCoinsViewCache V) :=
  match BatchWrite (base c) order (hashBlock c) with
  | Returned b => Returned (MkCCoinsViewCache b (hashBlock c) ∅)
  | Threw b => Threw (set_base b c)
  | Aborted => Aborted
  end.

Definition Uncache c (outpoint : COutPoint) : CCoinsViewCache V :=
  match cacheCoins c !! outpoint with
  | Some e => if negb (DIRTY e) && negb (FRESH e) then set_coins (delete outpoint (cacheCoins c)) c else c
  | None => c
  end.

Definition GetCacheSize c : Z := u32 (Z.of_nat (size (cacheCoins c))).

(** [GetValueIn(tx)] *)
Definition GetValueIn c (tx : CTransaction) : Z * CCoinsViewCache V :=
  if IsCoinBase tx then (0, c)
  else foldl (fun '(nResult, c) txin => let '(coin, c) := AccessCoin c (prevout txin) in (i64 (nResult + nValue (coin_out coin)), c)) (0, c) (vin tx).

Fixpoint have_inputs (l : list CTxIn) c : bool * CCoinsViewCache V :=
  match l with
  | [] => (true, c)
  | txin :: l => let '(have, c) := HaveCoin c (prevout txin) in if (have : bool) then have_inputs l c else (false, c)
  end.

Definition HaveInputs c (tx : CTransaction) : bool * CCoinsViewCache V :=
  if IsCoinBase tx then (true, c) else have_inputs (vin tx) c.
End Cache.

#[global] Instance CCoinsViewCache_view {V} `{!CCoinsView V} : CCoinsView (CCoinsViewCache V) := {
  GetCoin := cache_GetCoin;
  GetBestBlock := cache_GetBestBlock;
  BatchWrite := cache_BatchWrite;
}.

(** ** What a view promises *)

(** the coins after a batch: those of the dirty entries replaced *)
Definition written (l : entries) (f : COutPoint -> option Coin) (k : COutPoint) : option Coin :=
  match (list_to_map l : gmap COutPoint CCoinsCacheEntry) !! k with
  | Some e => if DIRTY e then unspent (entry_coin e) else f k
  | None => f k
  end.

(** no outpoint twice, and what is marked fresh is not there *)
Definition entries_ok (f : COutPoint -> option Coin) (l : entries) : Prop :=
  NoDup l.*1 /\ Forall (fun it => FRESH it.2 = true -> f it.1 = None) l.

Class CoinsViewLaws (V : Type) `{!CCoinsView V} := {
  (** the unspent coins the view stands for *)
  coins : V -> COutPoint -> option Coin;
  view_ok : V -> Prop;
  coins_unspent v k coin : view_ok v -> coins v k = Some coin -> IsSpent coin = false;
  GetCoin_law v k : view_ok v ->
    (GetCoin v k).1 = coins v k /\ view_ok (GetCoin v k).2 /\ forall k', coins (GetCoin v k).2 k' = coins v k';
  GetBestBlock_law v : view_ok v -> view_ok (GetBestBlock v).2 /\ forall k, coins (GetBestBlock v).2 k = coins v k;
  (** the batch can be written under the given block: no other flush was left half done *)
  ready : V -> uint256 -> Prop;
  BatchWrite_law v l h : view_ok v -> entries_ok (coins v) l -> ready v h ->
    exists v', BatchWrite v l h = Returned v' /\ view_ok v' /\ (forall k, coins v' k = written l (coins v) k) /\ (GetBestBlock v').1 = h;
}.

Lemma unspent_Some coin x : unspent coin = Some x -> x = coin /\ IsSpent coin = false.
Proof. unfold unspent. destruct (IsSpent coin) eqn:E; [done|]. by intros [= ->]. Qed.

Lemma unspent_id coin : IsSpent coin = false -> unspent coin = Some coin.
Proof. unfold unspent. by intros ->. Qed.

Lemma unspent_None coin : IsSpent coin = true -> unspent coin = None.
Proof. unfold unspent. by intros ->. Qed.

(** *** The database keeps the promise *)

Lemma db_writes l m : NoDup l.*1 -> (forall k coin, m !! k = Some coin -> IsSpent coin = false) ->
  (forall k coin, foldl db_write m l !! k = Some coin -> IsSpent coin = false) /\
  forall k, foldl db_write m l !! k = written l (fun k => m !! k) k.
Proof.
  revert m. induction l as [|[k0 e] l IH]; intros m Hnd Hm; [done|]. cbn [fmap list_fmap] in Hnd. apply NoDup_cons in Hnd as [Hk Hnd]. cbn [foldl].
  assert (Hw : forall k coin, db_write m (k0, e) !! k = Some coin -> IsSpent coin = false).
  { intros k coin. unfold db_write. cbn [fst snd]. destruct (DIRTY e); [|apply Hm]. destruct (IsSpent (entry_coin e)) eqn:Es.
    - rewrite lookup_delete_Some. intros [_ H]. by apply (Hm k).
    - rewrite lookup_insert_Some. intros [[_ <-]|[_ H]]; [done | by apply (Hm k)]. }
  destruct (IH (db_write m (k0, e)) Hnd Hw) as [H1 H2]. split; [done|]. intros k. rewrite H2. unfold written. cbn [list_to_map foldr].
  destruct (decide (k = k0)) as [->|Hne].
  - rewrite lookup_insert_eq. rewrite (not_elem_of_list_to_map_1 l k0) by done. unfold db_write. cbn [fst snd]. destruct (DIRTY e); [|done].
    unfold unspent. destruct (IsSpent (entry_coin e)); [apply lookup_delete_eq | apply lookup_insert_eq].
  - rewrite lookup_insert_ne by done. destruct (list_to_map l !! k) as [e'|]; [destruct (DIRTY e'); [done|]|]; unfold db_write; cbn [fst snd];
      destruct (DIRTY e), (IsSpent (entry_coin e)); rewrite ?lookup_delete_ne, ?lookup_insert_ne by done; done.
Qed.

#[global] Program Instance CCoinsViewDB_laws : CoinsViewLaws CCoinsViewDB := {
  coins db k := db_coins db !! k;
  view_ok db := forall k coin, db_coins db !! k = Some coin -> IsSpent coin = false;
  ready db h := h <> uint256_zero /\ (db_best db = uint256_zero -> length (db_heads db) = 2%nat -> head (db_heads db) = Some h);
}.
Next Obligation. intros db k coin Hdb. apply Hdb. Qed.
Next Obligation. done. Qed.
Next Obligation. done. Qed.
Next Obligation.
  intros db l h Hdb [Hnd _] [Hh Hheads]. destruct (db_writes l (db_coins db) Hnd Hdb) as [H1 H2]. cbn [BatchWrite CCoinsViewDB_view]. unfold db_BatchWrite.
  rewrite bool_decide_eq_false_2 by done. destruct (bool_decide_reflect (db_best db = uint256_zero)) as [E|]; [destruct (bool_decide_reflect (length (db_heads db) = 2%nat)) as [E2|]|]; cbn [andb];
    [rewrite bool_decide_eq_true_2 by auto; cbn [negb]|..]; eexists; (split; [reflexivity|]); done.
Qed.

(** *** A cache over a lawful view keeps it *)

Definition update (f : COutPoint -> option Coin) (k : COutPoint) (x : option Coin) (k' : COutPoint) : option Coin :=
  if decide (k' = k) then x else f k'.

Lemma update_eq f k x : update f k x k = x.
Proof. unfold update. by rewrite decide_True. Qed.

Section CacheLaws.
Context {V : Type} `{!CCoinsView V} `{!CoinsViewLaws V}.
Implicit Type c : CCoinsViewCache V.

Definition cache_coins c (k : COutPoint) : option Coin :=
  match cacheCoins c !! k with Some e => unspent (entry_coin e) | None => coins (base c) k end.

(** what the flags say of the view below *)
Definition entry_ok (f : COutPoint -> option Coin) (k : COutPoint) (e : CCoinsCacheEntry) : Prop :=
  (FRESH e = true -> f k = None) /\ (DIRTY e = false -> unspent (entry_coin e) = f k).

Definition cache_ok c : Prop := view_ok (base c) /\ map_Forall (entry_ok (coins (base c))) (cacheCoins c).

Lemma set_entry_ok c k e : cache_ok c -> entry_ok (coins (base c)) k e ->
  cache_ok (set_coins (<[k := e]> (cacheCoins c)) c) /\
  forall k', cache_coins (set_coins (<[k := e]> (cacheCoins c)) c) k' = update (cache_coins c) k (unspent (entry_coin e)) k'.
Proof.
  intros [Hb Hm] He. split.
  - split; [done|]. by apply map_Forall_insert_2.
  - intros k'. unfold update, cache_coins. cbn [set_coins cacheCoins base]. destruct (decide (k' = k)) as [->|Hne]; [by rewrite lookup_insert_eq | by rewrite lookup_insert_ne].
Qed.

Lemma drop_entry_ok c k : cache_ok c ->
  cache_ok (set_coins (delete k (cacheCoins c)) c) /\
  forall k', cache_coins (set_coins (delete k (cacheCoins c)) c) k' = update (cache_coins c) k (coins (base c) k) k'.
Proof.
  intros [Hb Hm]. split.
  - split; [done|]. by apply map_Forall_delete.
  - intros k'. unfold update, cache_coins. cbn [set_coins cacheCoins base]. destruct (decide (k' = k)) as [->|Hne]; [by rewrite lookup_delete_eq | by rewrite lookup_delete_ne].
Qed.

Lemma set_base_ok c b : cache_ok c -> view_ok b -> (forall k, coins b k = coins (base c) k) ->
  cache_ok (set_base b c) /\ forall k, cache_coins (set_base b c) k = cache_coins c k.
Proof.
  intros [_ Hm] Hb Heq. split.
  - split; [done|]. intros k e He. unfold entry_ok. cbn [base set_base]. rewrite Heq. by apply Hm.
  - intros k. unfold cache_coins. cbn [set_base cacheCoins base]. by rewrite Heq.
Qed.

Lemma cache_coins_unspent c k coin : cache_ok c -> cache_coins c k = Some coin -> IsSpent coin = false.
Proof.
  intros [Hb _]. unfold cache_coins. destruct (cacheCoins c !! k); [by intros [-> ?]%unspent_Some | by apply coins_unspent].
Qed.

(** the iterator leads to the coin, and filling the cache changes nothing *)
Lemma FetchCoin_spec c k : cache_ok c ->
  cache_ok (FetchCoin c k).2 /\ (forall k', cache_coins (FetchCoin c k).2 k' = cache_coins c k') /\
  (FetchCoin c k).1 = cacheCoins (FetchCoin c k).2 !! k /\
  cache_coins c k = match (FetchCoin c k).1 with Some e => unspent (entry_coin e) | None => None end.
Proof.
  intros Hc. unfold FetchCoin. destruct (cacheCoins c !! k) as [e|] eqn:Ek; cbn [fst snd].
  { rewrite Ek. unfold cache_coins at 3. by rewrite Ek. }
  destruct (GetCoin_law (base c) k (proj1 Hc)) as (H1 & H2 & H3). destruct (GetCoin (base c) k) as [r b]. cbn [fst snd] in *.
  assert (Ec : cache_coins c k = r) by (unfold cache_coins; rewrite Ek; by rewrite H1).
  destruct (set_base_ok c b Hc H2 H3) as [Hc' Heq]. destruct r as [tmp|]; cbn [fst snd].
  - pose proof (cache_coins_unspent c k tmp Hc Ec) as Hs.
    destruct (set_entry_ok (set_base b c) k (MkCCoinsCacheEntry tmp false (IsSpent tmp)) Hc') as [Hc'' Heq''].
    { split; cbn [FRESH DIRTY entry_coin]; [by rewrite Hs|]. intros _. cbn [base set_base]. by rewrite H3, <- H1, unspent_id. }
    split; [done|]. split; [|split].
    + intros k'. etransitivity; [apply Heq''|]. unfold update. cbn [entry_coin]. destruct (decide (k' = k)) as [->|]; [by rewrite Ec, unspent_id | apply Heq].
    + cbn [set_coins set_base cacheCoins]. by rewrite lookup_insert_eq.
    + cbn [entry_coin]. by rewrite Ec, unspent_id.
  - done.
Qed.

(** reads *)
Lemma reads_spec c k : cache_ok c ->
  ((cache_GetCoin c k).1 = cache_coins c k /\ cache_ok (cache_GetCoin c k).2 /\ forall k', cache_coins (cache_GetCoin c k).2 k' = cache_coins c k') /\
  ((HaveCoin c k).1 = bool_decide (is_Some (cache_coins c k)) /\ cache_ok (HaveCoin c k).2 /\ forall k', cache_coins (HaveCoin c k).2 k' = cache_coins c k') /\
  (unspent (AccessCoin c k).1 = cache_coins c k /\ cache_ok (AccessCoin c k).2 /\ forall k', cache_coins (AccessCoin c k).2 k' = cache_coins c k').
Proof.
  intros Hc. destruct (FetchCoin_spec c k Hc) as (H1 & H2 & _ & H4). unfold cache_GetCoin, HaveCoin, AccessCoin.
  destruct (FetchCoin c k) as [r c']. cbn [fst snd] in *. rewrite H4. split; [by destruct r|]. split; [|by destruct r].
  split; [|done]. destruct r as [e|]; [|by rewrite bool_decide_eq_false_2 by (intros [? [=]])]. unfold unspent.
  destruct (IsSpent (entry_coin e)); cbn [negb]; symmetry; [apply bool_decide_eq_false_2; by intros [? [=]] | apply bool_decide_eq_true_2; eauto].
Qed.

Lemma AddCoin_spec c k coin over : cache_ok c -> IsSpent coin = false -> (over = false -> cache_coins c k = None) ->
  exists c', AddCoin c k coin over = Returned c' /\ cache_ok c' /\
    forall k', cache_coins c' k' = if IsUnspendable (scriptPubKey (coin_out coin)) then cache_coins c k' else update (cache_coins c) k (Some coin) k'.
Proof.
  intros Hc Hs Hover. unfold AddCoin. rewrite Hs. destruct (IsUnspendable _); [eauto|].
  set (e := default _ _). set (new := MkCCoinsCacheEntry coin true _).
  assert (He : negb over && negb (IsSpent (entry_coin e)) = false).
  { destruct over; [done|]. cbn [negb andb]. specialize (Hover eq_refl). unfold cache_coins in Hover. unfold e. destruct (cacheCoins c !! k) as [e0|]; [|done].
    change (negb (IsSpent (entry_coin e0)) = false). destruct (IsSpent (entry_coin e0)) eqn:E; [done|]. by rewrite unspent_id in Hover. }
  rewrite He. destruct (set_entry_ok c k new Hc) as [Hc' Heq].
  { split; [|done]. cbn [FRESH new]. unfold e. destruct (cacheCoins c !! k) as [e0|] eqn:E0; cbn [from_option id FRESH DIRTY negb orb].
    - destruct (FRESH e0) eqn:Ef; [intros _; by apply (proj2 Hc k e0 E0)|]. cbn [orb]. destruct over; [done|]. intros Hd%negb_true_iff.
      rewrite <- (proj2 (proj2 Hc k e0 E0) Hd). specialize (Hover eq_refl). unfold cache_coins in Hover. by rewrite E0 in Hover.
    - destruct over; [done|]. intros _. specialize (Hover eq_refl). unfold cache_coins in Hover. by rewrite E0 in Hover. }
  eexists. split; [done|]. split; [done|]. intros k'. rewrite Heq. unfold new. cbn [entry_coin]. by rewrite unspent_id.
Qed.

Lemma SpendCoin_spec c k : cache_ok c ->
  cache_ok (SpendCoin c k).2 /\ (forall k', cache_coins (SpendCoin c k).2 k' = update (cache_coins c) k None k') /\
  forall coin, cache_coins c k = Some coin -> (SpendCoin c k).1 = Some coin.
Proof.
  intros Hc. destruct (FetchCoin_spec c k Hc) as (H1 & H2 & H3 & H4). unfold SpendCoin. destruct (FetchCoin c k) as [r c']. cbn [fst snd] in *. destruct r as [e|].
  - split; [|split]; [| |intros coin Hcoin; rewrite H4 in Hcoin; by apply unspent_Some in Hcoin as [-> _]]; cbn [snd]; destruct (FRESH e) eqn:Ef.
    + by apply drop_entry_ok.
    + by apply set_entry_ok.
    + intros k'. rewrite (proj2 (drop_entry_ok c' k H1)). unfold update. rewrite (proj1 (proj2 H1 k e (eq_sym H3)) Ef). destruct (decide (k' = k)); [done | apply H2].
    + intros k'. rewrite (proj2 (set_entry_ok c' k (MkCCoinsCacheEntry coinEmpty true false) H1 ltac:(done))). unfold update. destruct (decide (k' = k)); [done | apply H2].
  - cbn [fst snd]. split; [done|]. split; [|by rewrite H4]. intros k'. rewrite H2. unfold update. destruct (decide (k' = k)) as [->|]; [by rewrite H4 | done].
Qed.

Lemma Uncache_spec c k : cache_ok c -> cache_ok (Uncache c k) /\ forall k', cache_coins (Uncache c k) k' = cache_coins c k'.
Proof.
  intros Hc. unfold Uncache. destruct (cacheCoins c !! k) as [e|] eqn:E; [|done]. destruct (DIRTY e) eqn:Ed, (FRESH e) eqn:Ef; try done. cbn [negb andb].
  destruct (drop_entry_ok c k Hc) as [Hc' Heq]. split; [done|]. intros k'. rewrite Heq. unfold update. destruct (decide (k' = k)) as [->|]; [|done].
  unfold cache_coins. rewrite E. symmetry. by apply (proj2 Hc k e E).
Qed.

(** one entry of a batch *)
Lemma batch_step c k e rest : cache_ok c -> DIRTY e = true -> (FRESH e = true -> cache_coins c k = None) ->
  exists c', batch_loop c ((k, e) :: rest) = batch_loop c' rest /\ cache_ok c' /\ forall k', cache_coins c' k' = update (cache_coins c) k (unspent (entry_coin e)) k'.
Proof.
  intros Hc Hd Hf. cbn [batch_loop]. rewrite Hd. assert (Hk : cache_coins c k = match cacheCoins c !! k with Some us => unspent (entry_coin us) | None => coins (base c) k end) by done.
  destruct (cacheCoins c !! k) as [us|] eqn:E.
  - assert (Hthrow : FRESH e && negb (IsSpent (entry_coin us)) = false).
    { destruct (FRESH e); [|done]. rewrite Hf in Hk by done. unfold unspent in Hk. by destruct (IsSpent (entry_coin us)). }
    rewrite Hthrow. destruct (FRESH us && IsSpent (entry_coin e)) eqn:Eu.
    + apply andb_true_iff in Eu as [Eu1 Eu2]. eexists. split; [reflexivity|]. destruct (drop_entry_ok c k Hc) as [H1 H2]. split; [done|].
      intros k'. rewrite H2, unspent_None by done. by rewrite (proj1 (proj2 Hc k us E) Eu1).
    + eexists. split; [reflexivity|]. apply (set_entry_ok c k (MkCCoinsCacheEntry (entry_coin e) true (FRESH us))); [done|]. split; [|done]. intros Eu1. by apply (proj2 Hc k us E).
  - destruct (FRESH e && IsSpent (entry_coin e)) eqn:Eu.
    + apply andb_true_iff in Eu as [Eu1 Eu2]. eexists. split; [reflexivity|]. split; [done|]. intros k'. unfold update. rewrite unspent_None by done.
      destruct (decide (k' = k)) as [->|]; [by apply Hf | done].
    + eexists. split; [reflexivity|]. apply (set_entry_ok c k (MkCCoinsCacheEntry (entry_coin e) true (FRESH e))); [done|]. split; [|done]. cbn [FRESH]. intros Ef. by rewrite <- Hk, Hf.
Qed.

Lemma written_cons k e l f k' : ~ k ∈ l.*1 -> written ((k, e) :: l) f k' = written l (if DIRTY e then update f k (unspent (entry_coin e)) else f) k'.
Proof.
  intros Hk. unfold written. cbn [list_to_map foldr fst snd]. destruct (decide (k' = k)) as [->|Hne].
  - rewrite lookup_insert_eq, not_elem_of_list_to_map_1 by done. destruct (DIRTY e); [by rewrite update_eq | done].
  - rewrite lookup_insert_ne by done. destruct (list_to_map l !! k') as [e'|]; [destruct (DIRTY e'); [done|]|]; (destruct (DIRTY e); [|done]); unfold update; by rewrite decide_False.
Qed.

Lemma written_ext l f g k : (forall k, f k = g k) -> written l f k = written l g k.
Proof. intros H. unfold written. by rewrite H. Qed.

Lemma batch_loop_spec c l : cache_ok c -> entries_ok (cache_coins c) l ->
  exists c', batch_loop c l = Returned c' /\ cache_ok c' /\ forall k, cache_coins c' k = written l (cache_coins c) k.
Proof.
  revert c. induction l as [|[k e] l IH]; intros c Hc [Hnd Hf]; [by exists c|]. cbn [fmap list_fmap] in Hnd. apply NoDup_cons in Hnd as [Hk Hnd].
  apply Forall_cons_1 in Hf as [Hfk Hf]. cbn [fst snd] in Hfk. destruct (DIRTY e) eqn:Ed.
  - destruct (batch_step c k e l Hc Ed Hfk) as (c1 & -> & Hc1 & Heq). destruct (IH c1 Hc1) as (c' & E & Hc' & Hw).
    { split; [done|]. apply Forall_forall. intros [k' e'] Hin Hfr. rewrite Heq. unfold update. rewrite decide_False.
      - by apply (proj1 (Forall_forall _ _) Hf (k', e') Hin).
      - cbn. intros ->. apply Hk. apply list_elem_of_fmap. by exists (k, e'). }
    exists c'. split; [done|]. split; [done|]. intros k'. rewrite Hw, written_cons, Ed by done. by apply written_ext.
  - cbn [batch_loop]. rewrite Ed. destruct (IH c Hc) as (c' & E & Hc' & Hw); [done|]. exists c'. split; [done|]. split; [done|]. intros k'. by rewrite Hw, written_cons, Ed.
Qed.

Lemma SetBestBlock_ok c h : cache_ok c -> cache_ok (SetBestBlock c h) /\ forall k, cache_coins (SetBestBlock c h) k = cache_coins c k.
Proof. done. Qed.

Lemma GetBestBlock_spec c : cache_ok c -> cache_ok (cache_GetBestBlock c).2 /\ forall k, cache_coins (cache_GetBestBlock c).2 k = cache_coins c k.
Proof.
  intros Hc. unfold cache_GetBestBlock. case_bool_decide; [|done]. destruct (GetBestBlock_law (base c) (proj1 Hc)) as [H1 H2].
  destruct (GetBestBlock (base c)) as [h b]. apply (set_base_ok c b Hc H1 H2).
Qed.

(** the entries of the cache, in any order, can be written to the view below *)
Lemma order_ok c order : cache_ok c -> order ≡ₚ map_to_list (cacheCoins c) ->
  entries_ok (coins (base c)) order /\ forall k, written order (coins (base c)) k = cache_coins c k.
Proof.
  intros [Hb Hm] Hp. assert (Hnd : NoDup order.*1) by (rewrite Hp; apply NoDup_fst_map_to_list). split.
  - split; [done|]. apply Forall_forall. intros [k e] Hin Hf. rewrite Hp in Hin. apply elem_of_map_to_list in Hin. by apply (Hm k e Hin).
  - intros k. unfold written, cache_coins. replace (list_to_map order) with (cacheCoins c).
    + destruct (cacheCoins c !! k) as [e|] eqn:E; [|done]. destruct (DIRTY e) eqn:Ed; [done|]. symmetry. by apply (Hm k e E).
    + rewrite <- (list_to_map_to_list (cacheCoins c)). apply list_to_map_proper; [apply NoDup_fst_map_to_list | by symmetry].
Qed.

Lemma Flush_spec c order : cache_ok c -> order ≡ₚ map_to_list (cacheCoins c) -> ready (base c) (hashBlock c) ->
  exists b, Flush c order = Returned (MkCCoinsViewCache b (hashBlock c) ∅) /\ view_ok b /\ (forall k, coins b k = cache_coins c k) /\ (GetBestBlock b).1 = hashBlock c.
Proof.
  intros Hc Hp Hr. destruct (order_ok c order Hc Hp) as [Ho Hw]. destruct (BatchWrite_law (base c) order (hashBlock c) (proj1 Hc) Ho Hr) as (b & E & Hb & Hcoins & Hbest).
  exists b. unfold Flush. rewrite E. split; [done|]. split; [done|]. split; [|done]. intros k. by rewrite Hcoins.
Qed.
End CacheLaws.

#[global] Program Instance CCoinsViewCache_laws {V} `{!CCoinsView V} `{!CoinsViewLaws V} : CoinsViewLaws (CCoinsViewCache V) := {
  coins := cache_coins;
  view_ok := cache_ok;
  ready c h := h <> uint256_zero;
}.
Next Obligation. intros. by eapply cache_coins_unspent. Qed.
Next Obligation. intros V ? ? c k Hc. by apply reads_spec. Qed.
Next Obligation. intros V ? ? c Hc. by apply GetBestBlock_spec. Qed.
Next Obligation.
  intros V ? ? c l h Hc Hl Hh. destruct (batch_loop_spec c l Hc Hl) as (c' & E & Hc' & Hw). exists (SetBestBlock c' h). cbn [BatchWrite CCoinsViewCache_view].
  unfold cache_BatchWrite. rewrite E. split; [done|]. split; [done|]. split; [done|]. cbn [GetBestBlock CCoinsViewCache_view]. unfold cache_GetBestBlock.
  cbn [SetBestBlock hashBlock]. by rewrite bool_decide_eq_false_2.
Qed.

(** ** The abstract map *)

Definition represents {V} `{!CCoinsView V} `{!CoinsViewLaws V} (c : CCoinsViewCache V) (m : gmap COutPoint Coin) : Prop :=
  cache_ok c /\ forall k, cache_coins c k = m !! k.

(** the calls of a user of the cache *)
Inductive coins_op :=
| OpGetCoin (k : COutPoint)
| OpHaveCoin (k : COutPoint)
| OpAccessCoin (k : COutPoint)
| OpAddCoin (k : COutPoint) (coin : Coin) (possible_overwrite : bool)
| OpSpendCoin (k : COutPoint)
| OpUncache (k : COutPoint)
| OpSetBestBlock (h : uint256).

(** what they answer: the unspent coin that is found, accessed or moved out *)
Definition run_op {V} `{!CCoinsView V} (c : CCoinsViewCache V) (op : coins_op) : option (option Coin * CCoinsViewCache V) :=
  match op with
  | OpGetCoin k => Some (cache_GetCoin c k)
  | OpHaveCoin k => Some (if (HaveCoin c k).1 then Some coinEmpty else None, (HaveCoin c k).2)
  | OpAccessCoin k => Some (unspent (AccessCoin c k).1, (AccessCoin c k).2)
  | OpAddCoin k coin over => match AddCoin c k coin over with Returned c => Some (None, c) | _ => None end
  | OpSpendCoin k => Some ((SpendCoin c k).1 ≫= unspent, (SpendCoin c k).2)
  | OpUncache k => Some (None, Uncache c k)
  | OpSetBestBlock h => Some (None, SetBestBlock c h)
  end.

Fixpoint run_calls {V} `{!CCoinsView V} (c : CCoinsViewCache V) (calls : list coins_op) : option (list (option Coin) * CCoinsViewCache V) :=
  match calls with
  | [] => Some ([], c)
  | op :: calls => r ← run_op c op; rs ← run_calls r.2 calls; Some (r.1 :: rs.1, rs.2)
  end.

(** the same on the map; [None] is a call that the comments forbid: adding a spent coin,
    or adding over an unspent one without saying so *)
Definition spec_op (m : gmap COutPoint Coin) (op : coins_op) : option (option Coin * gmap COutPoint Coin) :=
  match op with
  | OpGetCoin k | OpAccessCoin k => Some (m !! k, m)
  | OpHaveCoin k => Some ((fun _ => coinEmpty) <$> m !! k, m)
  | OpAddCoin k coin over =>
      if IsSpent coin || (negb over && bool_decide (is_Some (m !! k))) then None
      else Some (None, if IsUnspendable (scriptPubKey (coin_out coin)) then m else <[k := coin]> m)
  | OpSpendCoin k => Some (m !! k, delete k m)
  | OpUncache _ | OpSetBestBlock _ => Some (None, m)
  end.

Fixpoint spec_calls (m : gmap COutPoint Coin) (calls : list coins_op) : option (list (option Coin) * gmap COutPoint Coin) :=
  match calls with
  | [] => Some ([], m)
  | op :: calls => r ← spec_op m op; rs ← spec_calls r.2 calls; Some (r.1 :: rs.1, rs.2)
  end.

Section Refinement.
Context {V : Type} `{!CCoinsView V} `{!CoinsViewLaws V}.
Implicit Type c : CCoinsViewCache V.

Lemma represents_add c m k coin over : represents c m -> IsSpent coin = false -> (over = false -> IsUnspendable (scriptPubKey (coin_out coin)) = false -> m !! k = None) ->
  exists c', AddCoin c k coin over = Returned c' /\ represents c' (if IsUnspendable (scriptPubKey (coin_out coin)) then m else <[k := coin]> m).
Proof.
  intros Hr Hs Ho. destruct (IsUnspendable _) eqn:Eu; [exists c; split; [|done]; unfold AddCoin; by rewrite Hs, Eu|]. destruct Hr as [Hc Hm].
  destruct (AddCoin_spec c k coin over Hc Hs) as (c' & E & Hc' & Heq); [intros; rewrite Hm; auto|]. exists c'. split; [done|]. split; [done|].
  intros k'. rewrite Heq, Eu. unfold update. destruct (decide (k' = k)) as [->|]; [by rewrite lookup_insert_eq | by rewrite lookup_insert_ne].
Qed.

Lemma represents_spend c m k : represents c m ->
  represents (SpendCoin c k).2 (delete k m) /\ (forall coin, m !! k = Some coin -> (SpendCoin c k).1 = Some coin) /\ (SpendCoin c k).1 ≫= unspent = m !! k.
Proof.
  intros [Hc Hm]. destruct (SpendCoin_spec c k Hc) as (H1 & H2 & H3). split; [|split].
  - split; [done|]. intros k'. rewrite H2. unfold update. destruct (decide (k' = k)) as [->|]; [by rewrite lookup_delete_eq | by rewrite lookup_delete_ne].
  - intros coin Hk. apply H3. by rewrite Hm.
  - rewrite <- Hm. destruct (FetchCoin_spec c k Hc) as (_ & _ & _ & H4). rewrite H4. unfold SpendCoin. by destruct (FetchCoin c k) as [[e|] c'].
Qed.

Lemma represents_have c m k : represents c m -> (HaveCoin c k).1 = bool_decide (is_Some (m !! k)) /\ represents (HaveCoin c k).2 m.
Proof.
  intros [Hc Hm]. destruct (reads_spec c k Hc) as (_ & (H1 & H2 & H3) & _). rewrite H1, Hm. split; [done|]. split; [done|]. intros k'. by rewrite H3.
Qed.

Lemma run_op_refines c m op r : represents c m -> spec_op m op = Some r -> exists c', run_op c op = Some (r.1, c') /\ represents c' r.2.
Proof.
  intros Hr. pose proof Hr as [Hc Hm]. destruct op as [k|k|k|k coin over|k|k|h]; cbn [spec_op run_op].
  - intros [= <-]. destruct (reads_spec c k Hc) as ((H1 & H2 & H3) & _). destruct (cache_GetCoin c k) as [x c']. cbn [fst snd] in *. exists c'. rewrite H1, Hm.
    split; [done|]. split; [done|]. intros k'. by rewrite H3.
  - intros [= <-]. destruct (represents_have c m k Hr) as [H1 H2]. eexists. split; [|exact H2]. rewrite H1. cbn [fst]. by destruct (m !! k).
  - intros [= <-]. destruct (reads_spec c k Hc) as (_ & _ & (H1 & H2 & H3)). eexists. rewrite H1, Hm. split; [done|]. split; [done|]. intros k'. cbn [snd]. by rewrite H3.
  - destruct (IsSpent coin) eqn:Es; [done|]. cbn [orb]. destruct (negb over && bool_decide (is_Some (m !! k))) eqn:Eo; [done|]. intros [= <-].
    destruct (represents_add c m k coin over Hr Es) as (c' & -> & Hc'); [|by exists c']. intros -> _. cbn [negb andb] in Eo. apply bool_decide_eq_false in Eo. by apply eq_None_not_Some.
  - intros [= <-]. destruct (represents_spend c m k Hr) as (H1 & _ & H3). eexists. rewrite H3. done.
  - intros [= <-]. destruct (Uncache_spec c k Hc) as [H1 H2]. eexists. split; [done|]. split; [done|]. intros k'. cbn [snd]. by rewrite H2.
  - intros [= <-]. eexists. split; [done|]. done.
Qed.

Lemma run_calls_refines c m calls answers m' : represents c m -> spec_calls m calls = Some (answers, m') ->
  exists c', run_calls c calls = Some (answers, c') /\ represents c' m'.
Proof.
  revert c m answers. induction calls as [|op calls IH]; intros c m answers Hr; cbn [spec_calls run_calls]; [intros [= <- <-]; eauto|].
  destruct (spec_op m op) as [r|] eqn:E; [|done]. cbn [mbind option_bind]. destruct (spec_calls r.2 calls) as [[rs m1]|] eqn:Es; [|done]. cbn [option_bind fst snd].
  intros [= <- <-]. destruct (run_op_refines c m op r Hr E) as (c1 & -> & Hr1). cbn [mbind option_bind fst snd]. destruct (IH c1 r.2 rs Hr1 Es) as (c' & -> & Hr').
  cbn [option_bind fst snd]. eauto.
Qed.
End Refinement.

(** ** Properties *)

(** C12: a cache over any lawful view (the database, or a further cache) behaves as a
    finite map of coins: whatever is read, added, spent and dropped from the cache, and
    however the flags are set on the way, the answers are those of the map, nothing is
    thrown, and flushing the entries, in whatever order the hash map gives them, makes
    the view below stand for that map. *)
Theorem coins_cache_refines {V} `{!CCoinsView V} `{!CoinsViewLaws V} (c : CCoinsViewCache V) m calls answers m' :
  represents c m -> spec_calls m calls = Some (answers, m') ->
  exists c', run_calls c calls = Some (answers, c') /\ represents c' m' /\
    forall order, order ≡ₚ map_to_list (cacheCoins c') -> ready (base c') (hashBlock c') ->
      exists b, Flush c' order = Returned (MkCCoinsViewCache b (hashBlock c') ∅) /\ view_ok b /\ (forall k, coins b k = m' !! k) /\
        (GetBestBlock b).1 = hashBlock c'.
Proof.
  intros Hr Hs. destruct (run_calls_refines c m calls answers m' Hr Hs) as (c' & E & Hr'). exists c'. split; [done|]. split; [done|]. intros order Ho Hready.
  destruct (Flush_spec c' order (proj1 Hr') Ho Hready) as (b & Ef & Hb & Hcoins & Hbest). exists b. split; [done|]. split; [done|]. split; [|done].
  intros k. rewrite Hcoins. apply Hr'.
Qed.

(** two caches over a database with one coin *)
Definition sample_out (v : Z) : CTxOut := MkCTxOut v [0x51] (-10).
Definition sample_outpoint (n : Z) : COutPoint := MkCOutPoint (replicate 32 1) n.
Definition sample_db : CCoinsViewDB := MkCCoinsViewDB {[ sample_outpoint 0 := Coin_of (sample_out 50) 1 true ]} (replicate 32 7) [].
Definition sample_stack : CCoinsViewCache (CCoinsViewCache CCoinsViewDB) := MkCCoinsViewCache (MkCCoinsViewCache sample_db uint256_zero ∅) uint256_zero ∅.
Definition sample_coins : gmap COutPoint Coin := db_coins sample_db.

(** spend the coin, add another and spend that one too, add a third *)
Definition sample_calls : list coins_op :=
  [OpGetCoin (sample_outpoint 0); OpSpendCoin (sample_outpoint 0); OpAddCoin (sample_outpoint 1) (Coin_of (sample_out 20) 2 false) false;
   OpSpendCoin (sample_outpoint 1); OpHaveCoin (sample_outpoint 0); OpAddCoin (sample_outpoint 2) (Coin_of (sample_out 30) 2 false) false;
   OpUncache (sample_outpoint 2); OpSetBestBlock (replicate 32 8)].

Lemma sample_stack_ok : represents sample_stack sample_coins.
Proof.
  split; [|intros k; done]. split; [|done]. split; [|done]. cbn [view_ok CCoinsViewDB_laws base sample_stack]. intros k coin. cbn [db_coins sample_db].
  intros [_ <-]%lookup_singleton_Some. done.
Qed.

Lemma coins_cache_refines_witness :
  exists c', run_calls sample_stack sample_calls =
      Some ([Some (Coin_of (sample_out 50) 1 true); Some (Coin_of (sample_out 50) 1 true); None; Some (Coin_of (sample_out 20) 2 false); None; None; None; None], c') /\
    represents c' {[ sample_outpoint 2 := Coin_of (sample_out 30) 2 false ]} /\
    forall order, order ≡ₚ map_to_list (cacheCoins c') -> ready (base c') (hashBlock c') ->
      exists b, Flush c' order = Returned (MkCCoinsViewCache b (hashBlock c') ∅) /\ view_ok b /\
        (forall k, coins b k = ({[ sample_outpoint 2 := Coin_of (sample_out 30) 2 false ]} : gmap COutPoint Coin) !! k) /\
        (GetBestBlock b).1 = hashBlock c'.
Proof. apply (coins_cache_refines sample_stack sample_coins sample_calls); [exact sample_stack_ok | by vm_compute]. Defined.
