(* ===== verification/Utxo.v ===== *)
(** * Connecting and disconnecting blocks on the coins (coins.cpp, validation.cpp, undo.h)

    [UpdateCoins] spends the inputs of a transaction, keeping the coins as undo data, and
    adds its outputs; [DisconnectBlock] takes the outputs away and restores the inputs
    from the undo data, in the opposite order, reporting [DISCONNECT_UNCLEAN] when what it
    finds is not what the block made.  Of [ConnectBlock] and [DisconnectBlock] this file
    has what they do to the coins view; the asset caches, the optional indexes, the
    special transactions and the validity checks are left out.

    The theorem: on a block whose inputs are unspent when they are spent and whose
    outputs are new, connecting does to the view what it does to a finite map of coins,
    and disconnecting is clean and restores the map. *)

From S2P Require Import Prelude Opcodes ScriptNum Script Interpreter Serialize Transaction Sighash AssetData Coins.
From stdpp Require Import gmap.
Import Script.
#[local] Open Scope Z_scope.

(** a call that throws or asserts ends everything around it *)
Definition returned {A} (r : outcome A) : option A := match r with Returned x => Some x | _ => None end.

Inductive DisconnectResult := DISCONNECT_OK | DISCONNECT_UNCLEAN | DISCONNECT_FAILED.

(** [MIN_TRANSACTION_OUTPUT_WEIGHT]: an empty output takes nine bytes, of weight four *)
Definition MIN_TRANSACTION_OUTPUT_WEIGHT : Z := WITNESS_SCALE_FACTOR * zlen (Serialize_CTxOut null_txout).

Section Utxo.
Context `{!ScriptHashes} {V : Type} `{!CCoinsView V}.
Implicit Type c : CCoinsViewCache V.

(** ** [AddCoins] and [UpdateCoins] *)

(** the loop over the outputs *)
Fixpoint add_outputs c (txid : uint256) (i : Z) (vout : list CTxOut) (nHeight : Z) (fCoinbase check : bool) : option (CCoinsViewCache V) :=
  match vout with
  | [] => Some c
  | out :: vout =>
      let k := MkCOutPoint txid (u32 i) in
      let '(overwrite, c) := if check then HaveCoin c k else (fCoinbase, c) in
      c ← returned (AddCoin c k (Coin_of out nHeight fCoinbase) overwrite);
      add_outputs c txid (i + 1) vout nHeight fCoinbase check
  end.

Definition AddCoins c (tx : CTransaction) (nHeight : Z) (check : bool) : option (CCoinsViewCache V) :=
  add_outputs c (GetHash tx) 0 (vout tx) nHeight (IsCoinBase tx) check.

(** the coins spent, for [vprevout] *)
Fixpoint spend_inputs (vin : list CTxIn) c : option (list Coin * CCoinsViewCache V) :=
  match vin with
  | [] => Some ([], c)
  | txin :: vin =>
      let '(is_spent, c) := SpendCoin c (prevout txin) in
      coin ← is_spent;
      '(vprevout, c) ← spend_inputs vin c;
      Some (coin :: vprevout, c)
  end.

Definition UpdateCoins (tx : CTransaction) c (nHeight : Z) : option (list Coin * CCoinsViewCache V) :=
  '(vprevout, c) ← (if IsCoinBase tx then Some ([], c) else spend_inputs (vin tx) c);
  c ← AddCoins c tx nHeight false;
  Some (vprevout, c).

(** the loop of [ConnectBlock] on the transactions; the first one's undo data is a dummy *)
Fixpoint connect_loop (vtx : list CTransaction) c (nHeight : Z) : option (list (list Coin) * CCoinsViewCache V) :=
  match vtx with
  | [] => Some ([], c)
  | tx :: vtx =>
      '(txundo, c) ← UpdateCoins tx c nHeight;
      '(vtxundo, c) ← connect_loop vtx c nHeight;
      Some (txundo :: vtxundo, c)
  end.

(** [blockundo.vtxundo] and the view at the end of [ConnectBlock] *)
Definition ConnectCoins (vtx : list CTransaction) c (nHeight : Z) (hash : uint256) : option (list (list Coin) * CCoinsViewCache V) :=
  '(vtxundo, c) ← connect_loop vtx c nHeight;
  Some (tail vtxundo, SetBestBlock c hash).

(** ** [DisconnectBlock] *)

(** the loop of [AccessByTxid] from output [n], [fuel] steps to go *)
Fixpoint access_loop (fuel : nat) c (txid : uint256) (n : Z) : Coin * CCoinsViewCache V :=
  match fuel with
  | O => (coinEmpty, c)
  | S fuel =>
      let '(alternate, c) := AccessCoin c (MkCOutPoint txid n) in
      if negb (IsSpent alternate) then (alternate, c) else access_loop fuel c txid (n + 1)
  end.

Definition AccessByTxid c (txid : uint256) : Coin * CCoinsViewCache V :=
  access_loop (Z.to_nat (GetMaxBlockWeight / MIN_TRANSACTION_OUTPUT_WEIGHT)) c txid 0.

Definition ApplyTxInUndo (undo : Coin) c (out : COutPoint) : option (DisconnectResult * CCoinsViewCache V) :=
  let '(have, c) := HaveCoin c out in
  let fClean := negb have in
  let '(undo, c) :=
    if coin_nHeight undo =? 0 then
      let '(alternate, c) := AccessByTxid c (op_hash out) in
      (if IsSpent alternate then None else Some (MkCoin (coin_out undo) (fCoinBase alternate) (coin_nHeight alternate)), c)
    else (Some undo, c) in
  match undo with
  | None => Some (DISCONNECT_FAILED, c)
  | Some undo =>
      c ← returned (AddCoin c out undo (negb fClean));
      Some (if fClean then DISCONNECT_OK else DISCONNECT_UNCLEAN, c)
  end.

(** the loop over the outputs: [fClean] and the view *)
Fixpoint disconnect_outputs c (hash : uint256) (o : Z) (vout : list CTxOut) (nHeight : Z) (is_coinbase fClean : bool) : bool * CCoinsViewCache V :=
  match vout with
  | [] => (fClean, c)
  | out :: vout =>
      if IsUnspendable (scriptPubKey out) then disconnect_outputs c hash (o + 1) vout nHeight is_coinbase fClean
      else
        let '(is_spent, c) := SpendCoin c (MkCOutPoint hash (u32 o)) in
        let clean :=
          match is_spent with
          | None => false
          | Some coin => bool_decide (out = coin_out coin) && (nHeight =? coin_nHeight coin) && Bool.eqb is_coinbase (fCoinBase coin)
          end in
        disconnect_outputs c hash (o + 1) vout nHeight is_coinbase (if clean then fClean else false)
  end.

(** the loop over the inputs, given with their undo data and last one first *)
Fixpoint restore_inputs (inputs : list (CTxIn * Coin)) c (fClean : bool) : option (option bool * CCoinsViewCache V) :=
  match inputs with
  | [] => Some (Some fClean, c)
  | (txin, undo) :: inputs =>
      '(res, c) ← ApplyTxInUndo undo c (prevout txin);
      match res with
      | DISCONNECT_FAILED => Some (None, c)
      | DISCONNECT_UNCLEAN => restore_inputs inputs c false
      | DISCONNECT_OK => restore_inputs inputs c fClean
      end
  end.

(** the loop over the transactions, last one first, with the undo data of all but the
    first; [None] for the early return with [DISCONNECT_FAILED] *)
Fixpoint disconnect_loop (txs : list (CTransaction * option (list Coin))) c (nHeight : Z) (fClean : bool) : option (option bool * CCoinsViewCache V) :=
  match txs with
  | [] => Some (Some fClean, c)
  | (tx, txundo) :: txs =>
      let '(fClean, c) := disconnect_outputs c (GetHash tx) 0 (vout tx) nHeight (IsCoinBase tx) fClean in
      match txundo with
      | None => disconnect_loop txs c nHeight fClean
      | Some vprevout =>
          if negb (length vprevout =? length (vin tx))%nat then Some (None, c)
          else
            '(r, c) ← restore_inputs (rev (zip (vin tx) vprevout)) c fClean;
            match r with None => Some (None, c) | Some fClean => disconnect_loop txs c nHeight fClean end
      end
  end.

Definition DisconnectCoins (vtx : list CTransaction) (vtxundo : list (list Coin)) c (nHeight : Z) (prev : uint256) : option (DisconnectResult * CCoinsViewCache V) :=
  if negb (length vtxundo + 1 =? length vtx)%nat then Some (DISCONNECT_FAILED, c)
  else
    '(r, c) ← disconnect_loop (rev (zip vtx (None :: map Some vtxundo))) c nHeight true;
    match r with
    | None => Some (DISCONNECT_FAILED, c)
    | Some fClean => Some (if (fClean : bool) then DISCONNECT_OK else DISCONNECT_UNCLEAN, SetBestBlock c prev)
    end.
End Utxo.

(** ** The same on a finite map of coins *)

Section Spec.
Context `{!ScriptHashes}.
Implicit Type m : gmap COutPoint Coin.

(** every input must be unspent *)
Fixpoint spec_spend m (vin : list CTxIn) : option (list Coin * gmap COutPoint Coin) :=
  match vin with
  | [] => Some ([], m)
  | txin :: vin =>
      coin ← m !! prevout txin;
      '(vprevout, m) ← spec_spend (delete (prevout txin) m) vin;
      Some (coin :: vprevout, m)
  end.

(** every output must have a value that is not the null value, and be new if it can be
    spent *)
Fixpoint spec_add m (txid : uint256) (i : Z) (vout : list CTxOut) (nHeight : Z) (fCoinbase : bool) : option (gmap COutPoint Coin) :=
  match vout with
  | [] => Some m
  | out :: vout =>
      let k := MkCOutPoint txid i in
      if nValue out =? -1 then None
      else if IsUnspendable (scriptPubKey out) then spec_add m txid (i + 1) vout nHeight fCoinbase
      else if bool_decide (is_Some (m !! k)) then None
      else spec_add (<[k := Coin_of out nHeight fCoinbase]> m) txid (i + 1) vout nHeight fCoinbase
  end.

Definition spec_tx m (tx : CTransaction) (nHeight : Z) : option (list Coin * gmap COutPoint Coin) :=
  '(vprevout, m) ← (if IsCoinBase tx then Some ([], m) else spec_spend m (vin tx));
  m ← spec_add m (GetHash tx) 0 (vout tx) nHeight (IsCoinBase tx);
  Some (vprevout, m).

Fixpoint spec_txs m (vtx : list CTransaction) (nHeight : Z) : option (list (list Coin) * gmap COutPoint Coin) :=
  match vtx with
  | [] => Some ([], m)
  | tx :: vtx =>
      '(txundo, m) ← spec_tx m tx nHeight;
      '(vtxundo, m) ← spec_txs m vtx nHeight;
      Some (txundo :: vtxundo, m)
  end.

(** the coins that blocks make: unspent, spendable and with a height *)
Definition coins_ok m : Prop :=
  map_Forall (fun _ coin => IsSpent coin = false /\ IsUnspendable (scriptPubKey (coin_out coin)) = false /\ coin_nHeight coin <> 0) m.

Lemma spec_add_delete m txid j i vout h cb m' : spec_add m txid i vout h cb = Some m' -> (j < i) ->
  m' !! MkCOutPoint txid j = m !! MkCOutPoint txid j /\
  spec_add (delete (MkCOutPoint txid j) m) txid i vout h cb = Some (delete (MkCOutPoint txid j) m').
Proof.
  revert m i. induction vout as [|out vout IH]; intros m i; cbn [spec_add]; [by intros [= <-]|]. intros Hs Hj.
  assert (Hne : MkCOutPoint txid j <> MkCOutPoint txid i) by (intros [= ->]; lia). rewrite (lookup_delete_ne m) by done. destruct (_ =? _); [done|].
  destruct (IsUnspendable _).
  - apply (IH m (i + 1) Hs). lia.
  - destruct (bool_decide _); [done|]. destruct (IH _ (i + 1) Hs) as [H1 H2]; [lia|]. rewrite H1. split; [by rewrite lookup_insert_ne by done|]. rewrite <- delete_insert_ne by done. done.
Qed.

Lemma spec_add_ok m txid i vout h cb m' : spec_add m txid i vout h cb = Some m' -> 0 < h < 2 ^ 31 -> coins_ok m -> coins_ok m'.
Proof.
  intros Hs Hh. revert m i Hs. induction vout as [|out vout IH]; intros m i; cbn [spec_add]; [by intros [= <-]|].
  destruct (nValue out =? -1) eqn:Ev; [done|]. destruct (IsUnspendable (scriptPubKey out)) eqn:Eu; [apply IH|].
  destruct (bool_decide _); [done|]. intros Hs Hm. apply (IH _ _ Hs). apply map_Forall_insert_2; [|done]. unfold IsSpent. cbn [Coin_of coin_out coin_nHeight].
  rewrite Z.mod_small by lia. repeat split; [done | done | lia].
Qed.

Lemma spec_spend_ok m vin vprevout m' : spec_spend m vin = Some (vprevout, m') -> coins_ok m -> coins_ok m'.
Proof.
  revert m vprevout. induction vin as [|txin vin IH]; intros m vprevout; cbn [spec_spend]; [by intros [= _ <-]|]. destruct (m !! prevout txin) as [coin|]; [|done].
  cbn [mbind option_bind]. destruct (spec_spend _ vin) as [[l m1]|] eqn:E; [|done]. cbn [option_bind]. intros [= _ <-] Hm. apply (IH _ _ E). by apply map_Forall_delete.
Qed.

Lemma spec_tx_inv m tx h vprevout m' : spec_tx m tx h = Some (vprevout, m') ->
  exists m1, (if IsCoinBase tx then Some ([], m) else spec_spend m (vin tx)) = Some (vprevout, m1) /\
    spec_add m1 (GetHash tx) 0 (vout tx) h (IsCoinBase tx) = Some m'.
Proof.
  unfold spec_tx. destruct (if IsCoinBase tx then _ else _) as [[l m1]|]; [|done]. cbn [mbind option_bind].
  destruct (spec_add m1 _ _ _ _ _) as [m2|] eqn:E; [|done]. cbn [option_bind]. intros [= <- <-]. eauto.
Qed.

Lemma spec_tx_ok m tx h vprevout m' : spec_tx m tx h = Some (vprevout, m') -> 0 < h < 2 ^ 31 -> coins_ok m -> coins_ok m'.
Proof.
  intros (m1 & H1 & H2)%spec_tx_inv Hh Hm. apply (spec_add_ok _ _ _ _ _ _ _ H2 Hh). destruct (IsCoinBase tx); [by injection H1 as _ <- | by apply (spec_spend_ok _ _ _ _ H1)].
Qed.
End Spec.

(** ** The view follows the map *)

Section Refinement.
Context `{!ScriptHashes} {V : Type} `{!CCoinsView V} `{!CoinsViewLaws V}.
Implicit Type c : CCoinsViewCache V.

Lemma add_outputs_refines c m txid i vout h cb m' : represents c m -> 0 <= i -> i + zlen vout <= 2 ^ 32 -> spec_add m txid i vout h cb = Some m' ->
  exists c', add_outputs c txid i vout h cb false = Some c' /\ represents c' m'.
Proof.
  revert c m i. induction vout as [|out vout IH]; intros c m i Hr Hi Hl; cbn [spec_add add_outputs]; [intros [= <-]; eauto|].
  destruct (nValue out =? -1) eqn:Ev; [done|]. cbn [length] in *. intros Hs.
  assert (Hk : u32 i = i) by (apply Z.mod_small; lia). rewrite Hk.
  destruct (represents_add c m (MkCOutPoint txid i) (Coin_of out h cb) cb Hr Ev) as (c1 & -> & Hr1); cbn [Coin_of coin_out] in *.
  { intros _ Eu. rewrite Eu in Hs. destruct (bool_decide _) eqn:Eb; [done|]. apply eq_None_not_Some. by apply bool_decide_eq_false in Eb. }
  cbn [returned mbind option_bind]. destruct (IsUnspendable _); [|destruct (bool_decide _); [done|]]; (apply (IH c1 _ (i + 1) Hr1); [lia | lia | exact Hs]).
Qed.

Lemma spend_inputs_refines c m vin vprevout m' : represents c m -> spec_spend m vin = Some (vprevout, m') ->
  exists c', spend_inputs vin c = Some (vprevout, c') /\ represents c' m'.
Proof.
  revert c m vprevout. induction vin as [|txin vin IH]; intros c m vprevout Hr; cbn [spec_spend spend_inputs]; [intros [= <- <-]; eauto|].
  destruct (m !! prevout txin) as [coin|] eqn:Ek; [|done]. cbn [mbind option_bind]. destruct (spec_spend _ vin) as [[l m1]|] eqn:E; [|done]. cbn [mbind option_bind].
  intros [= <- <-]. destruct (represents_spend c m (prevout txin) Hr) as (H1 & H2 & _). rewrite (surjective_pairing (SpendCoin c (prevout txin))), (H2 coin Ek).
  cbn [mbind option_bind]. destruct (IH _ _ _ H1 E) as (c' & -> & Hc'). cbn [option_bind]. eauto.
Qed.

Lemma UpdateCoins_refines c m tx h vprevout m' : represents c m -> zlen (vout tx) <= 2 ^ 32 -> spec_tx m tx h = Some (vprevout, m') ->
  exists c', UpdateCoins tx c h = Some (vprevout, c') /\ represents c' m'.
Proof.
  intros Hr Hl (m1 & H1 & H2)%spec_tx_inv.
  assert (exists c1, (if IsCoinBase tx then Some ([], c) else spend_inputs (vin tx) c) = Some (vprevout, c1) /\ represents c1 m1) as (c1 & E1 & Hr1).
  { destruct (IsCoinBase tx); [injection H1 as <- <-; eauto | by apply (spend_inputs_refines c m)]. }
  destruct (add_outputs_refines c1 m1 _ 0 _ h _ m' Hr1 ltac:(lia) Hl H2) as (c' & E2 & Hr2). exists c'. split; [|done].
  unfold UpdateCoins, AddCoins. rewrite E1. cbn [mbind option_bind]. by rewrite E2.
Qed.

Lemma connect_loop_refines c m vtx h vtxundo m' : represents c m -> Forall (fun tx => zlen (vout tx) <= 2 ^ 32) vtx -> spec_txs m vtx h = Some (vtxundo, m') ->
  exists c', connect_loop vtx c h = Some (vtxundo, c') /\ represents c' m'.
Proof.
  intros Hr Hl. revert c m vtxundo Hr. induction Hl as [|tx vtx Hl Hrest IH]; intros c m vtxundo Hr; cbn [spec_txs connect_loop]; [intros [= <- <-]; eauto|].
  destruct (spec_tx m tx h) as [[u m1]|] eqn:E; [|done]. cbn [mbind option_bind]. destruct (spec_txs m1 vtx h) as [[us m2]|] eqn:Es; [|done]. cbn [mbind option_bind].
  intros [= <- <-]. destruct (UpdateCoins_refines c m tx h u m1 Hr Hl E) as (c1 & -> & Hr1). cbn [mbind option_bind]. destruct (IH c1 m1 us Hr1 Es) as (c' & -> & Hr').
  cbn [mbind option_bind]. eauto.
Qed.

(** *** Disconnecting *)

Lemma disconnect_outputs_restores c m txid i vout h cb m' : represents c m' -> 0 <= i -> i + zlen vout <= 2 ^ 32 -> 0 < h < 2 ^ 31 ->
  spec_add m txid i vout h cb = Some m' ->
  exists c', disconnect_outputs c txid i vout h cb true = (true, c') /\ represents c' m.
Proof.
  intros Hr Hi Hl Hh. revert c m m' i Hr Hi Hl. induction vout as [|out vout IH]; intros c m m' i Hr Hi Hl; cbn [spec_add disconnect_outputs]; [intros [= <-]; eauto|].
  destruct (nValue out =? -1); [done|]. cbn [length] in *. destruct (IsUnspendable _); [intros Hs; apply (IH c m m' (i + 1)); [done | lia | lia | done]|].
  destruct (bool_decide _) eqn:Eb; [done|]. intros Hs.
  assert (Hk : u32 i = i) by (apply Z.mod_small; lia). rewrite Hk. set (k := MkCOutPoint txid i) in *.
  destruct (spec_add_delete _ _ i (i + 1) _ _ _ _ Hs) as [H1 H2]; [lia|]. fold k in H1, H2. rewrite lookup_insert_eq in H1. rewrite delete_insert_id in H2 by (apply eq_None_not_Some; by apply bool_decide_eq_false in Eb).
  destruct (represents_spend c m' k Hr) as (H3 & H4 & _). rewrite (surjective_pairing (SpendCoin c k)), (H4 _ H1). cbn [Coin_of coin_out coin_nHeight fCoinBase].
  rewrite bool_decide_eq_true_2, Z.mod_small, Z.eqb_refl, Bool.eqb_reflx by (done || lia). cbn [andb].
  apply (IH _ m (delete k m') (i + 1)); [done | lia | lia | done].
Qed.

Lemma ApplyTxInUndo_restores c m k coin : represents c m -> m !! k = None -> IsSpent coin = false -> IsUnspendable (scriptPubKey (coin_out coin)) = false -> coin_nHeight coin <> 0 ->
  exists c', ApplyTxInUndo coin c k = Some (DISCONNECT_OK, c') /\ represents c' (<[k := coin]> m).
Proof.
  intros Hr Hk Hs Hu Hh. unfold ApplyTxInUndo. destruct (represents_have c m k Hr) as [H1 H2]. rewrite (surjective_pairing (HaveCoin c k)), H1, Hk.
  rewrite bool_decide_eq_false_2 by (intros [? [=]]). cbn [negb]. destruct (Z.eqb_spec (coin_nHeight coin) 0) as [|_]; [done|].
  destruct (represents_add _ m k coin false H2 Hs) as (c' & -> & Hc'); [done|]. rewrite Hu in Hc'. cbn [returned mbind option_bind]. eauto.
Qed.

Lemma restore_inputs_app l1 l2 c b : restore_inputs (l1 ++ l2) c b = ('(r, c) ← restore_inputs l1 c b; match r with None => Some (None, c) | Some b => restore_inputs l2 c b end).
Proof.
  revert c b. induction l1 as [|[txin undo] l1 IH]; intros c b; cbn [restore_inputs app]; [done|]. destruct (ApplyTxInUndo _ _ _) as [[[] c1]|]; cbn [mbind option_bind]; auto.
Qed.

Lemma restore_inputs_restores c m vin vprevout m' : represents c m' -> coins_ok m -> spec_spend m vin = Some (vprevout, m') ->
  exists c', restore_inputs (rev (zip vin vprevout)) c true = Some (Some true, c') /\ represents c' m.
Proof.
  revert m vprevout. induction vin as [|txin vin IH]; intros m vprevout Hr Hm; cbn [spec_spend]; [intros [= <- <-]; cbn; eauto|].
  destruct (m !! prevout txin) as [coin|] eqn:Ek; [|done]. cbn [mbind option_bind]. destruct (spec_spend _ vin) as [[l m1]|] eqn:E; [|done]. cbn [mbind option_bind].
  intros [= <- <-]. destruct (IH _ l Hr (map_Forall_delete _ _ _ Hm) E) as (c1 & E1 & Hr1). change (zip (txin :: vin) (coin :: l)) with ((txin, coin) :: zip vin l). cbn [rev].
  rewrite restore_inputs_app, E1. cbn [mbind option_bind restore_inputs]. destruct (Hm _ _ Ek) as (H1 & H2 & H3).
  destruct (ApplyTxInUndo_restores c1 _ (prevout txin) coin Hr1 (lookup_delete_eq _ _) H1 H2 H3) as (c' & -> & Hr'). cbn [mbind option_bind]. exists c'. split; [done|].
  by rewrite insert_delete_id in Hr' by done.
Qed.

(** one transaction, the coinbase without undo data *)
Definition undo_data (tx : CTransaction) (vprevout : list Coin) : option (list Coin) := if IsCoinBase tx then None else Some vprevout.

Lemma spec_spend_length m vin vprevout m' : spec_spend m vin = Some (vprevout, m') -> length vprevout = length vin.
Proof.
  revert m vprevout. induction vin as [|txin vin IH]; intros m vprevout; cbn [spec_spend]; [by intros [= <- _]|]. destruct (m !! prevout txin) as [coin|]; [|done].
  cbn [mbind option_bind]. destruct (spec_spend _ vin) as [[l m1]|] eqn:E; [|done]. cbn [mbind option_bind]. intros [= <- <-]. cbn [length]. f_equal. exact (IH _ _ E).
Qed.

Lemma disconnect_loop_step c m tx txs h vprevout m' : represents c m' -> coins_ok m -> zlen (vout tx) <= 2 ^ 32 -> 0 < h < 2 ^ 31 ->
  spec_tx m tx h = Some (vprevout, m') ->
  exists c', disconnect_loop ((tx, undo_data tx vprevout) :: txs) c h true = disconnect_loop txs c' h true /\ represents c' m.
Proof.
  intros Hr Hm Hl Hh (m1 & H1 & H2)%spec_tx_inv. cbn [disconnect_loop].
  destruct (disconnect_outputs_restores c m1 (GetHash tx) 0 (vout tx) h (IsCoinBase tx) m' Hr ltac:(lia) Hl Hh H2) as (c1 & -> & Hr1). unfold undo_data.
  destruct (IsCoinBase tx); [injection H1 as <- <-; eauto|]. rewrite (proj2 (Nat.eqb_eq _ _) (spec_spend_length _ _ _ _ H1)). cbn [negb].
  destruct (restore_inputs_restores c1 m (vin tx) vprevout m1 Hr1 Hm H1) as (c' & -> & Hr'). cbn [mbind option_bind]. eauto.
Qed.

Lemma disconnect_loop_restores c m vtx h vtxundo m' rest : represents c m' -> coins_ok m -> Forall (fun tx => zlen (vout tx) <= 2 ^ 32) vtx -> 0 < h < 2 ^ 31 ->
  spec_txs m vtx h = Some (vtxundo, m') ->
  exists c', disconnect_loop (rev (zip_with (fun tx u => (tx, undo_data tx u)) vtx vtxundo) ++ rest) c h true = disconnect_loop rest c' h true /\ represents c' m.
Proof.
  intros Hr Hm Hl Hh. revert m vtxundo rest Hm. induction Hl as [|tx vtx Hl Hrest IH]; intros m vtxundo rest Hm; cbn [spec_txs]; [intros [= <- <-]; cbn; eauto|].
  destruct (spec_tx m tx h) as [[u m1]|] eqn:E; [|done]. cbn [mbind option_bind]. destruct (spec_txs m1 vtx h) as [[us m2]|] eqn:Es; [|done]. cbn [mbind option_bind].
  intros [= <- <-]. cbn [zip_with rev]. rewrite <- app_assoc. cbn [app].
  destruct (IH m1 us ((tx, undo_data tx u) :: rest) (spec_tx_ok _ _ _ _ _ E Hh Hm) Es) as (c1 & -> & Hr1).
  by apply (disconnect_loop_step c1 m tx rest h u m1).
Qed.
End Refinement.

(** *** What a clean result says *)

Lemma spec_add_insert `{!ScriptHashes} m txid j x i vout h cb m' : spec_add m txid i vout h cb = Some m' -> (j < i) ->
  spec_add (<[MkCOutPoint txid j := x]> m) txid i vout h cb = Some (<[MkCOutPoint txid j := x]> m').
Proof.
  revert m i. induction vout as [|out vout IH]; intros m i; cbn [spec_add]; [by intros [= <-]|]. intros Hs Hj.
  assert (Hne : MkCOutPoint txid j <> MkCOutPoint txid i) by (intros [= ->]; lia). rewrite (lookup_insert_ne m) by done. destruct (_ =? _); [done|].
  destruct (IsUnspendable _); [apply (IH m (i + 1) Hs); lia|]. destruct (bool_decide _); [done|]. rewrite insert_insert_ne by done. apply IH; [done | lia].
Qed.

(** the coins of undo data as [coins_ok] has them *)
Definition coin_ok (coin : Coin) : Prop := IsSpent coin = false /\ IsUnspendable (scriptPubKey (coin_out coin)) = false /\ coin_nHeight coin <> 0.

Section Clean.
Context {SH : ScriptHashes} {V : Type} `{!CCoinsView V} `{!CoinsViewLaws V}.
Implicit Type c : CCoinsViewCache V.

Lemma disconnect_outputs_clean c m txid i vout h cb b c' : represents c m -> 0 <= i -> i + zlen vout <= 2 ^ 32 -> 0 < h < 2 ^ 31 ->
  Forall (fun out => nValue out <> -1) vout -> disconnect_outputs c txid i vout h cb b = (true, c') ->
  b = true /\ exists m0, represents c' m0 /\ spec_add m0 txid i vout h cb = Some m.
Proof.
  intros Hr Hi Hl Hh Hf. revert c m i b Hr Hi Hl. induction Hf as [|out vout Ho Hf IH]; intros c m i b Hr Hi Hl; cbn [disconnect_outputs spec_add]; [intros [= -> <-]; eauto|].
  rewrite (proj2 (Z.eqb_neq _ _) Ho). cbn [length] in Hl. destruct (IsUnspendable (scriptPubKey out)) eqn:Eu; [apply IH; [done | lia | lia]|].
  assert (Hk : u32 i = i) by (apply Z.mod_small; lia). rewrite Hk. set (k := MkCOutPoint txid i). destruct (represents_spend c m k Hr) as (H1 & _ & H3).
  destruct (SpendCoin c k) as [is_spent c1]. cbn [fst snd] in *. intros H. destruct (IH c1 (delete k m) (i + 1) _ H1 ltac:(lia) ltac:(lia) H) as (Hb & m0 & Hr0 & Hs).
  destruct is_spent as [coin|]; [|done]. destruct (bool_decide _ && _ && _) eqn:Ec; [|done]. bool_to_prop. apply Bool.eqb_prop in H2.
  assert (Es : IsSpent coin = false) by (unfold IsSpent; rewrite <- H0; by apply Z.eqb_neq). cbn [mbind option_bind] in H3. unfold unspent in H3. rewrite Es in H3.
  split; [done|]. exists m0. split; [done|]. destruct (spec_add_delete _ _ i (i + 1) _ _ _ _ Hs) as [Hn _]; [lia|]. fold k in Hn. rewrite lookup_delete_eq in Hn.
  rewrite <- Hn, bool_decide_eq_false_2 by (intros [? [=]]). unfold k. rewrite (spec_add_insert _ _ _ _ _ _ _ _ _ Hs) by lia. fold k. f_equal. apply insert_delete_id.
  rewrite <- H3. f_equal. unfold Coin_of. rewrite Z.mod_small by lia. destruct coin. cbn in *. congruence.
Qed.

Lemma ApplyTxInUndo_clean c m k coin r c' : represents c m -> coin_ok coin -> ApplyTxInUndo coin c k = Some (r, c') ->
  r <> DISCONNECT_FAILED /\ (r = DISCONNECT_OK -> m !! k = None /\ represents c' (<[k := coin]> m)) /\ exists m', represents c' m'.
Proof.
  intros Hr (Hs & Hu & Hh). unfold ApplyTxInUndo. destruct (represents_have c m k Hr) as [H1 H2]. destruct (HaveCoin c k) as [have c1]. cbn [fst snd] in *. subst have.
  destruct (Z.eqb_spec (coin_nHeight coin) 0) as [|_]; [done|]. rewrite negb_involutive.
  destruct (represents_add c1 m k coin (bool_decide (is_Some (m !! k))) H2 Hs) as (c2 & -> & Hc2); [intros E _; apply bool_decide_eq_false in E; by apply eq_None_not_Some|].
  rewrite Hu in Hc2. cbn [returned mbind option_bind]. destruct (bool_decide _) eqn:Eb; intros [= <- <-]; (split; [done|]); (split; [|eauto]); [done|]. intros _. split; [|done].
  apply bool_decide_eq_false in Eb. by apply eq_None_not_Some.
Qed.

(** a false [fClean] stays *)
Lemma disconnect_outputs_false c txid i vout h cb b c' : disconnect_outputs c txid i vout h cb false = (b, c') -> b = false.
Proof.
  revert c i. induction vout as [|out vout IH]; intros c i; cbn [disconnect_outputs]; [by intros [= <- _]|]. destruct (IsUnspendable _); [apply IH|].
  destruct (SpendCoin _ _) as [r c1]. match goal with |- context [if ?x then false else false] => replace (if x then false else false) with false by (by destruct x) end. apply IH.
Qed.

Lemma restore_inputs_false l c c' b : restore_inputs l c false = Some (Some b, c') -> b = false.
Proof.
  revert c. induction l as [|[txin undo] l IH]; intros c; cbn [restore_inputs]; [by intros [= <- _]|]. destruct (ApplyTxInUndo _ _ _) as [[[] c1]|]; cbn [mbind option_bind]; [apply IH | apply IH | done | done].
Qed.

Lemma restore_inputs_clean c m vin vprevout b c' : represents c m -> Forall coin_ok vprevout -> length vprevout = length vin ->
  restore_inputs (rev (zip vin vprevout)) c b = Some (Some true, c') ->
  b = true /\ exists m0, represents c' m0 /\ spec_spend m0 vin = Some (vprevout, m).
Proof.
  intros Hr Hf. revert vin c'. induction Hf as [|coin us Hc Hf IH]; intros vin c' Hl.
  { destruct vin; [|done]. cbn. intros [= -> <-]. eauto. }
  destruct vin as [|txin vin]; [done|]. cbn [length] in Hl. change (zip (txin :: vin) (coin :: us)) with ((txin, coin) :: zip vin us). cbn [rev]. rewrite restore_inputs_app.
  destruct (restore_inputs (rev (zip vin us)) c b) as [[[b1|] c1]|] eqn:E; [|done..]. cbn [mbind option_bind restore_inputs].
  destruct (ApplyTxInUndo coin c1 (prevout txin)) as [[r c2]|] eqn:Ea; [|done]. cbn [mbind option_bind]. intros H.
  assert (b1 = true /\ r = DISCONNECT_OK /\ c2 = c') as (-> & -> & ->) by (destruct r; by injection H).
  destruct (IH vin c1 ltac:(lia) E) as (Hb & m0 & Hr0 & Hs). destruct (ApplyTxInUndo_clean c1 m0 (prevout txin) coin _ c' Hr0 Hc Ea) as (_ & Hok & _). destruct (Hok eq_refl) as [Hn Hr'].
  split; [done|]. exists (<[prevout txin := coin]> m0). split; [done|]. cbn [spec_spend]. rewrite lookup_insert_eq. cbn [mbind option_bind]. rewrite delete_insert_id by done. by rewrite Hs.
Qed.

Lemma disconnect_loop_app l1 l2 c h b :
  disconnect_loop (l1 ++ l2) c h b = ('(r, c) ← disconnect_loop l1 c h b; match r with None => Some (None, c) | Some b => disconnect_loop l2 c h b end).
Proof.
  revert c b. induction l1 as [|[tx [u|]] l1 IH]; intros c b; cbn [disconnect_loop app]; [done | |]; destruct (disconnect_outputs _ _ _ _ _ _ _) as [b1 c1]; [|apply IH].
  destruct (negb _); [done|]. destruct (restore_inputs _ _ _) as [[[b2|] c2]|]; cbn [mbind option_bind]; [apply IH | done | done].
Qed.

(** the undo data that goes with a transaction *)
Definition undo_ok (tx : CTransaction) (vprevout : list Coin) : Prop :=
  Forall (fun out => nValue out <> -1) (vout tx) /\ zlen (vout tx) <= 2 ^ 32 /\ Forall coin_ok vprevout /\ (IsCoinBase tx = true -> vprevout = []).

Lemma disconnect_loop_clean c m vtx vtxundo h b c' : represents c m -> Forall2 undo_ok vtx vtxundo -> 0 < h < 2 ^ 31 ->
  disconnect_loop (rev (zip_with (fun tx u => (tx, undo_data tx u)) vtx vtxundo)) c h b = Some (Some true, c') ->
  b = true /\ exists m0, represents c' m0 /\ spec_txs m0 vtx h = Some (vtxundo, m).
Proof.
  intros Hr Hf Hh. revert c'. induction Hf as [|tx u vtx us (Ho & Hl & Hu & Hcb) Hf IH]; intros c'; cbn [zip_with rev]; [cbn; intros [= -> <-]; eauto|].
  rewrite disconnect_loop_app. destruct (disconnect_loop _ c h b) as [[[b1|] c1]|] eqn:E; [|done..]. cbn [mbind option_bind disconnect_loop].
  destruct (disconnect_outputs c1 _ _ _ _ _ _) as [b2 c2] eqn:Eo. intros H.
  assert (b2 = true) as ->.
  { unfold undo_data in H. destruct (IsCoinBase tx); [by injection H|]. destruct (negb _); [done|]. destruct b2; [done|].
    destruct (restore_inputs _ c2 false) as [[[b3|] c3]|] eqn:Er; [|done..]. cbn [mbind option_bind] in H. apply restore_inputs_false in Er. subst b3. by injection H. }
  assert (b1 = true) as -> by (destruct b1; [done|]; by apply disconnect_outputs_false in Eo). destruct (IH c1 eq_refl) as (Hb & m1 & Hr1 & Hs1). split; [done|].
  destruct (disconnect_outputs_clean c1 m1 _ 0 _ h _ _ c2 Hr1 ltac:(lia) Hl Hh Ho Eo) as (_ & m2 & Hr2 & Hs2). cbn [spec_txs]. unfold spec_tx, undo_data in *.
  destruct (IsCoinBase tx); [rewrite (Hcb eq_refl); injection H as <-; exists m2; split; [done|]; cbn [mbind option_bind]; rewrite Hs2; cbn [mbind option_bind]; by rewrite Hs1|].
  destruct (Nat.eqb_spec (length u) (length (vin tx))) as [Hlen|]; [|done]. cbn [negb] in H.
  destruct (restore_inputs _ c2 true) as [[[b3|] c3]|] eqn:Er; [|done..]. cbn [mbind option_bind] in H. injection H as -> ->.
  destruct (restore_inputs_clean c2 m2 (vin tx) u true c' Hr2 Hu Hlen Er) as (_ & m3 & Hr3 & Hs3). exists m3. split; [done|].
  rewrite Hs3. cbn [mbind option_bind]. rewrite Hs2. cbn [mbind option_bind]. by rewrite Hs1.
Qed.
End Clean.

(** ** Property *)

(** what [CheckBlock] has asked of the block: the first transaction is the only coinbase *)
Definition coinbase_first (vtx : list CTransaction) : bool :=
  match vtx with [] => false | tx :: vtx => IsCoinBase tx && forallb (fun tx => negb (IsCoinBase tx)) vtx end.

Lemma spec_txs_length `{!ScriptHashes} m vtx h vtxundo m' : spec_txs m vtx h = Some (vtxundo, m') -> length vtxundo = length vtx.
Proof.
  revert m vtxundo. induction vtx as [|tx vtx IH]; intros m vtxundo; cbn [spec_txs]; [by intros [= <- _]|]. destruct (spec_tx m tx h) as [[u m1]|]; [|done].
  cbn [mbind option_bind]. destruct (spec_txs m1 vtx h) as [[us m2]|] eqn:Es; [|done]. cbn [mbind option_bind]. intros [= <- <-]. cbn [length]. f_equal. exact (IH _ _ Es).
Qed.

Lemma zip_undo_data vtx vtxundo : forallb (fun tx => negb (IsCoinBase tx)) vtx = true ->
  zip vtx (map Some vtxundo) = zip_with (fun tx u => (tx, undo_data tx u)) vtx vtxundo.
Proof.
  revert vtxundo. induction vtx as [|tx vtx IH]; intros [|u us]; cbn [forallb map zip_with]; [done..|]. intros [Ht Hv]%andb_true_iff. f_equal; [|by apply IH].
  unfold undo_data. by destruct (IsCoinBase tx).
Qed.

(** C10: connecting a block and disconnecting it again: when the map of coins has every
    input unspent at its turn and no output yet, connecting yields the spent coins as
    undo data and a view of the new map, without an exception or a failed assertion;
    and disconnecting with that undo data, from any view of the new map (one that was
    flushed and read again, say), is clean and restores the old map. *)
Theorem disconnect_inverts_connect `{!ScriptHashes} {V W} `{!CCoinsView V} `{!CoinsViewLaws V} `{!CCoinsView W} `{!CoinsViewLaws W}
    (c : CCoinsViewCache V) m vtx h hash prev vtxundo m' :
  represents c m -> coins_ok m -> 0 < h < 2 ^ 31 -> coinbase_first vtx = true -> Forall (fun tx => zlen (vout tx) <= 2 ^ 32) vtx ->
  spec_txs m vtx h = Some (vtxundo, m') ->
  (exists c', ConnectCoins vtx c h hash = Some (tail vtxundo, c') /\ represents c' m' /\ hashBlock c' = hash) /\
  forall c1 : CCoinsViewCache W, represents c1 m' ->
    exists c2, DisconnectCoins vtx (tail vtxundo) c1 h prev = Some (DISCONNECT_OK, c2) /\ represents c2 m /\ hashBlock c2 = prev.
Proof.
  intros Hr Hm Hh Hcb Hl Hs. split.
  - destruct (connect_loop_refines c m vtx h vtxundo m' Hr Hl Hs) as (c' & E & Hr'). exists (SetBestBlock c' hash). unfold ConnectCoins. by rewrite E.
  - intros c1 Hr1. destruct (disconnect_loop_restores c1 m vtx h vtxundo m' [] Hr1 Hm Hl Hh Hs) as (c2 & E & Hr2). exists (SetBestBlock c2 prev).
    pose proof (spec_txs_length _ _ _ _ _ Hs) as Hlen. destruct vtx as [|tx vtx]; [done|]. destruct vtxundo as [|u us]; [done|]. cbn [coinbase_first] in Hcb.
    apply andb_true_iff in Hcb as [Ht Hv]. cbn [tail length] in *. unfold DisconnectCoins. cbn [length].
    replace (length us + 1)%nat with (S (length vtx)) by lia. rewrite Nat.eqb_refl. cbn [negb].
    change (zip (tx :: vtx) (None :: map Some us)) with ((tx, None) :: zip vtx (map Some us)). rewrite zip_undo_data by done.
    cbn [zip_with] in E. rewrite app_nil_r in E. unfold undo_data at 1 in E. rewrite Ht in E. rewrite E. cbn [disconnect_loop mbind option_bind]. done.
Qed.

(** C11: a disconnected block is reported clean only where it belongs: if the outputs are
    not null, and the undo data is of unspent, spendable coins with a height, then
    [DISCONNECT_OK] from a view of some map of coins means that this map is exactly what
    connecting the block to the restored coins makes, with exactly this undo data; a view
    or undo data that is off in any coin gives [DISCONNECT_UNCLEAN] or
    [DISCONNECT_FAILED]. *)
Theorem disconnect_ok_exact {SH : ScriptHashes} {V} `{!CCoinsView V} `{!CoinsViewLaws V} (c : CCoinsViewCache V) m vtx vtxundo h prev c' :
  represents c m -> 0 < h < 2 ^ 31 -> coinbase_first vtx = true -> Forall2 undo_ok vtx ([] :: vtxundo) ->
  DisconnectCoins vtx vtxundo c h prev = Some (DISCONNECT_OK, c') ->
  exists m0, represents c' m0 /\ hashBlock c' = prev /\ spec_txs m0 vtx h = Some ([] :: vtxundo, m).
Proof.
  intros Hr Hh Hcb Hf. unfold DisconnectCoins. destruct (negb _); [done|]. destruct vtx as [|tx vtx]; [done|]. cbn [coinbase_first] in Hcb. apply andb_true_iff in Hcb as [Ht Hv].
  pose proof (disconnect_loop_clean c m (tx :: vtx) ([] :: vtxundo) h true) as Hclean. cbn [zip_with] in Hclean. unfold undo_data at 1 in Hclean. rewrite Ht in Hclean.
  change (zip (tx :: vtx) (None :: map Some vtxundo)) with ((tx, None) :: zip vtx (map Some vtxundo)). rewrite zip_undo_data by done.
  destruct (disconnect_loop _ c h true) as [[[[]|] c1]|]; cbn [mbind option_bind]; [|done..]. intros [= <-].
  destruct (Hclean c1 Hr Hf Hh eq_refl) as (_ & m0 & Hr0 & Hs). exists m0. done.
Qed.

(** a coinbase with a data output, a payment of the sample coin and one that spends its
    output in the same block *)
Definition sample_coinbase : CTransaction :=
  MkCTransaction 1 0 [MkCTxIn (MkCOutPoint (replicate 32 0) 0xffffffff) [0x51; 0x51] SEQUENCE_FINAL []] [sample_out 60; MkCTxOut 0 [0x6a; 0x01; 0x07] (-10)] 0 [].
Definition sample_payment (txid : uint256) (n v : Z) : CTransaction := MkCTransaction 1 0 [MkCTxIn (MkCOutPoint txid n) [0x51] SEQUENCE_FINAL []] [sample_out v] 0 [].
Definition sample_vtx : list CTransaction :=
  let pay := sample_payment (replicate 32 1) 0 45 in [sample_coinbase; pay; sample_payment (@GetHash sample_hashes pay) 0 40].

Definition sample_vtxundo : list (list Coin) := [[]; [Coin_of (sample_out 50) 1 true]; [Coin_of (sample_out 45) 2 false]].
Definition sample_coins' : gmap COutPoint Coin :=
  {[ MkCOutPoint (@GetHash sample_hashes sample_coinbase) 0 := Coin_of (sample_out 60) 2 true;
     MkCOutPoint (@GetHash sample_hashes (sample_payment (@GetHash sample_hashes (sample_payment (replicate 32 1) 0 45)) 0 40)) 0 := Coin_of (sample_out 40) 2 false ]}.

Lemma sample_vtx_sizes tx : tx ∈ sample_vtx -> zlen (vout tx) <= 2 ^ 32.
Proof. unfold sample_vtx. rewrite !elem_of_cons, elem_of_nil. intros [-> | [-> | [-> | []]]]; vm_compute; discriminate. Qed.

Lemma sample_vtx_connects : @spec_txs sample_hashes sample_coins sample_vtx 2 = Some (sample_vtxundo, sample_coins').
Proof. vm_cast_no_check (eq_refl (Some (sample_vtxundo, sample_coins'))). Qed.

Lemma disconnect_inverts_connect_witness :
  (exists c', @ConnectCoins sample_hashes _ _ sample_vtx sample_stack 2 (replicate 32 8) = Some (tail sample_vtxundo, c') /\ represents c' sample_coins' /\ hashBlock c' = replicate 32 8) /\
  forall c1 : CCoinsViewCache CCoinsViewDB, represents c1 sample_coins' ->
    exists c2, @DisconnectCoins sample_hashes _ _ sample_vtx (tail sample_vtxundo) c1 2 (replicate 32 7) = Some (DISCONNECT_OK, c2) /\ represents c2 sample_coins /\ hashBlock c2 = replicate 32 7.
Proof.
  apply (@disconnect_inverts_connect sample_hashes _ _ _ _ _ _ sample_stack sample_coins sample_vtx 2 _ _ sample_vtxundo sample_coins');
    [exact sample_stack_ok | | lia | by vm_compute | apply Forall_forall; intros tx Htx; by apply sample_vtx_sizes | exact sample_vtx_connects].
  intros k coin. unfold sample_coins, sample_db. cbn [db_coins]. intros [_ <-]%lookup_singleton_Some. done.
Defined.

(** the same block, taken off a view of the coins it made *)
Definition sample_tip : CCoinsViewCache CCoinsViewDB := MkCCoinsViewCache (MkCCoinsViewDB sample_coins' (replicate 32 8) []) uint256_zero ∅.

Lemma sample_tip_ok : represents sample_tip sample_coins'.
Proof.
  split; [|intros k; done]. split; [|done]. cbn [view_ok CCoinsViewDB_laws base sample_tip]. intros k coin. cbn [db_coins]. unfold sample_coins'. rewrite lookup_insert_Some, lookup_singleton_Some.
  by intros [[_ <-] | [_ [_ <-]]].
Qed.

Definition is_clean {A} (r : option (DisconnectResult * A)) : bool := match r with Some (DISCONNECT_OK, _) => true | _ => false end.

Lemma sample_undo_ok : Forall2 undo_ok sample_vtx ([] :: tail sample_vtxundo).
Proof.
  unfold sample_vtx, sample_vtxundo. cbv zeta. repeat apply Forall2_cons_2; [..|apply Forall2_nil_2];
    (split; [repeat (apply Forall_cons; split); [discriminate.. | done]|]); (split; [vm_compute; discriminate|]);
    (split; [|by vm_compute]); [done | | ]; (apply Forall_cons; split; [|done]); by vm_compute.
Qed.

Lemma disconnect_ok_exact_witness :
  exists c' m0, @DisconnectCoins sample_hashes _ _ sample_vtx (tail sample_vtxundo) sample_tip 2 (replicate 32 7) = Some (DISCONNECT_OK, c') /\
    represents c' m0 /\ hashBlock c' = replicate 32 7 /\ @spec_txs sample_hashes m0 sample_vtx 2 = Some ([] :: tail sample_vtxundo, sample_coins').
Proof.
  assert (is_clean (@DisconnectCoins sample_hashes _ _ sample_vtx (tail sample_vtxundo) sample_tip 2 (replicate 32 7)) = true) as Hc by (vm_cast_no_check (eq_refl true)).
  destruct (@DisconnectCoins sample_hashes _ _ sample_vtx (tail sample_vtxundo) sample_tip 2 (replicate 32 7)) as [[[] c']|] eqn:E; [|discriminate Hc..].
  destruct (@disconnect_ok_exact sample_hashes CCoinsViewDB _ _ sample_tip sample_coins' sample_vtx (tail sample_vtxundo) 2 (replicate 32 7) c' sample_tip_ok) as (m0 & H);
    [lia | by vm_compute | exact sample_undo_ok | exact E|]. exists c', m0. split; [reflexivity | exact H].
Defined.
