(* ===== verification/Compressor.v ===== *)
(** * Coins and undo data on disk (compressor.h, compressor.cpp, coins.h, undo.h, pubkey.cpp)

    Amounts are written with their trailing zeros as an exponent, the usual scripts as a
    tag and a hash or key, and coins and the undo data of a block in terms of these.  The
    theorems: what is written for a coin that the cache can hold is read back as that
    coin, likewise the undo data of a block; and the bound on the amount is needed, since
    an amount that consensus allows is read back as another one. *)

From S2P Require Import Prelude Opcodes ScriptNum Script Interpreter Serialize Transaction Sighash AssetData Coins.
From stdpp Require Import gmap.
Import Script.
#[local] Open Scope Z_scope.

(** ** Amounts *)

(** the loop, with [e + fuel] nine *)
Fixpoint compress_loop (fuel : nat) (n e : Z) : Z * Z :=
  match fuel with
  | O => (n, e)
  | S fuel => if n mod 10 =? 0 then compress_loop fuel (n / 10) (e + 1) else (n, e)
  end.

Definition CompressAmount (n : Z) : Z :=
  if n =? 0 then 0
  else
    let '(n, e) := compress_loop 9 n 0 in
    if e <? 9 then
      let d := n mod 10 in
      let n := n / 10 in
      u64 (1 + (n * 9 + d - 1) * 10 + e)
    else u64 (1 + (n - 1) * 10 + 9).

Definition DecompressAmount (x : Z) : Z :=
  if x =? 0 then 0
  else
    let x := x - 1 in
    let e := x mod 10 in
    let x := x / 10 in
    let n := if e <? 9 then u64 (x / 9 * 10 + (x mod 9 + 1)) else u64 (x + 1) in
    Nat.iter (Z.to_nat e) (fun n => u64 (n * 10)) n.

(** ** Scripts *)

(** [secp256k1_ec_pubkey_parse] followed by [secp256k1_ec_pubkey_serialize] with
    [SECP256K1_EC_UNCOMPRESSED]: the 65 bytes of the point, if the key is one *)
Class Secp256k1 := { ec_pubkey_parse : valtype -> option valtype }.

(** a key with both coordinates is the one that its first coordinate and the parity of
    the second stand for *)
Class Secp256k1Laws `{!Secp256k1} : Prop := {
  ec_pubkey_uncompressed x y p : length x = 32%nat -> length y = 32%nat -> bytes (x ++ y) -> ec_pubkey_parse (0x04 :: x ++ y) = Some p ->
    p = 0x04 :: x ++ y /\ ec_pubkey_parse ((if Z.odd (y !!! 31%nat) then 0x03 else 0x02) :: x) = Some p;
}.

Definition nSpecialScripts : Z := 6.

Section Compressor.
Context `{!Secp256k1}.

(** [CPubKey::IsFullyValid], [CPubKey::Decompress]; an invalid key is [None] *)
Definition IsFullyValid (pubkey : option valtype) : bool :=
  match pubkey with None => false | Some key => bool_decide (is_Some (ec_pubkey_parse key)) end.
Definition CPubKey_Decompress (pubkey : option valtype) : option valtype := key ← pubkey; pub ← ec_pubkey_parse key; CPubKey_Set pub.

Definition IsToKeyID (script : script_bytes) : option valtype :=
  if (zlen script =? 25) && (script !!! 0%nat =? OP_DUP) && (script !!! 1%nat =? OP_HASH160) && (script !!! 2%nat =? 20) &&
     (script !!! 23%nat =? OP_EQUALVERIFY) && (script !!! 24%nat =? OP_CHECKSIG)
  then Some (take 20 (drop 3 script)) else None.

Definition IsToScriptID (script : script_bytes) : option valtype :=
  if (zlen script =? 23) && (script !!! 0%nat =? OP_HASH160) && (script !!! 1%nat =? 20) && (script !!! 22%nat =? OP_EQUAL)
  then Some (take 20 (drop 2 script)) else None.

Definition IsToPubKey (script : script_bytes) : option valtype :=
  if (zlen script =? 35) && (script !!! 0%nat =? 33) && (script !!! 34%nat =? OP_CHECKSIG) && ((script !!! 1%nat =? 0x02) || (script !!! 1%nat =? 0x03))
  then CPubKey_Set (take 33 (drop 1 script))
  else if (zlen script =? 67) && (script !!! 0%nat =? 65) && (script !!! 66%nat =? OP_CHECKSIG) && (script !!! 1%nat =? 0x04)
  then let pubkey := CPubKey_Set (take 65 (drop 1 script)) in if IsFullyValid pubkey then pubkey else None
  else None.

Definition Compress (script : script_bytes) : option (list Z) :=
  match IsToKeyID script with
  | Some keyID => Some (0x00 :: keyID)
  | None =>
      match IsToScriptID script with
      | Some scriptID => Some (0x01 :: scriptID)
      | None =>
          match IsToPubKey script with
          | Some pubkey =>
              let h := pubkey !!! 0%nat in
              if (h =? 0x02) || (h =? 0x03) then Some (h :: take 32 (drop 1 pubkey))
              else if h =? 0x04 then Some (Z.lor 0x04 (Z.land (pubkey !!! 64%nat) 0x01) :: take 32 (drop 1 pubkey))
              else None
          | None => None
          end
      end
  end.

Definition GetSpecialSize (nSize : Z) : Z :=
  if (nSize =? 0) || (nSize =? 1) then 20
  else if (nSize =? 2) || (nSize =? 3) || (nSize =? 4) || (nSize =? 5) then 32
  else 0.

(** the script; it stays as it was when the result is false *)
Definition Decompress (script : script_bytes) (nSize : Z) (vch : list Z) : script_bytes :=
  if nSize =? 0x00 then [OP_DUP : Z; OP_HASH160 : Z; 20] ++ vch ++ [OP_EQUALVERIFY : Z; OP_CHECKSIG : Z]
  else if nSize =? 0x01 then [OP_HASH160 : Z; 20] ++ vch ++ [OP_EQUAL : Z]
  else if (nSize =? 0x02) || (nSize =? 0x03) then [33; nSize] ++ vch ++ [OP_CHECKSIG : Z]
  else if (nSize =? 0x04) || (nSize =? 0x05) then
    match CPubKey_Decompress (CPubKey_Set (nSize - 2 :: vch)) with
    | None => script
    | Some pubkey => [65] ++ pubkey ++ [OP_CHECKSIG : Z]
    end
  else script.

Definition Serialize_script (script : script_bytes) : list Z :=
  match Compress script with
  | Some compr => compr
  | None => WriteVarInt (u32 (zlen script + nSpecialScripts)) ++ script
  end.

Definition Unserialize_script (script : script_bytes) : parser script_bytes :=
  nSize ← ReadVarInt (2 ^ 32 - 1);
  if nSize <? nSpecialScripts then
    vch ← read (GetSpecialSize nSize);
    mret (Decompress script nSize vch)
  else
    let nSize := nSize - nSpecialScripts in
    if nSize >? MAX_SCRIPT_SIZE then
      _ ← read nSize;
      mret (script ++ [OP_RETURN : Z])
    else read nSize.

(** ** Outputs and coins *)

(** [CTxOutCompressor]; the output that is read into is null, and its [nRounds] stays *)
Definition Serialize_compressed_out (txout : CTxOut) : list Z :=
  WriteVarInt (CompressAmount (u64 (nValue txout))) ++ Serialize_script (scriptPubKey txout).
Definition Unserialize_compressed_out : parser CTxOut :=
  nVal ← ReadVarInt (2 ^ 64 - 1);
  script ← Unserialize_script (scriptPubKey null_txout);
  mret (MkCTxOut (i64 (DecompressAmount nVal)) script (nRounds null_txout)).

(** [Coin::Serialize], after its assertion, and [Coin::Unserialize] *)
Definition Serialize_Coin (coin : Coin) : list Z :=
  WriteVarInt (u32 (coin_nHeight coin * 2 + Z.b2z (fCoinBase coin))) ++ Serialize_compressed_out (coin_out coin).
Definition Unserialize_Coin : parser Coin :=
  code ← ReadVarInt (2 ^ 32 - 1);
  out ← Unserialize_compressed_out;
  mret (MkCoin out (Z.odd code) (Z.shiftr code 1)).

(** ** Undo data *)

(** [nHeight * 2 + ...] is an [int] here *)
Definition Serialize_TxInUndo (coin : Coin) : list Z :=
  WriteVarInt (i32 (coin_nHeight coin * 2 + Z.b2z (fCoinBase coin))) ++
  (if coin_nHeight coin >? 0 then [0] else []) ++ Serialize_compressed_out (coin_out coin).
Definition Unserialize_TxInUndo : parser Coin :=
  nCode ← ReadVarInt (2 ^ 32 - 1);
  let nHeight := nCode / 2 in
  let fCoinBase := Z.odd nCode in
  _ ← (if nHeight >? 0 then ReadVarInt INT_MAX else mret 0);
  out ← Unserialize_compressed_out;
  mret (MkCoin out fCoinBase nHeight).

Definition null_txin : CTxIn := MkCTxIn (MkCOutPoint uint256_zero 0xffffffff) [] SEQUENCE_FINAL [].
Definition MIN_TRANSACTION_INPUT_WEIGHT : Z := WITNESS_SCALE_FACTOR * zlen (Serialize_CTxIn null_txin).
Definition MAX_BLOCK_WEIGHT : Z := 4000000.

Definition Serialize_CTxUndo (vprevout : list Coin) : list Z := WriteCompactSize (zlen vprevout) ++ concat (map Serialize_TxInUndo vprevout).
Definition Unserialize_CTxUndo (fAssetsIsActive : bool) : parser (list Coin) :=
  count ← ReadCompactSize;
  throw_if (count >? (if fAssetsIsActive then MAX_BLOCK_WEIGHT_RIP2 else MAX_BLOCK_WEIGHT) / MIN_TRANSACTION_INPUT_WEIGHT);;
  read_elements (Z.to_nat count) Unserialize_TxInUndo.

Definition Serialize_CBlockUndo (vtxundo : list (list Coin)) : list Z := Serialize_vector Serialize_CTxUndo vtxundo.
Definition Unserialize_CBlockUndo (fAssetsIsActive : bool) : parser (list (list Coin)) := Unserialize_vector (Unserialize_CTxUndo fAssetsIsActive).
End Compressor.

(** ** Amounts *)

Lemma compress_loop_spec fuel n e : 0 < n ->
  exists n' k, compress_loop fuel n e = (n', e + Z.of_nat k) /\ (k <= fuel)%nat /\ n = n' * 10 ^ Z.of_nat k /\ 0 < n' /\ ((k < fuel)%nat -> n' mod 10 <> 0).
Proof.
  revert n e. induction fuel as [|fuel IH]; intros n e Hn; cbn [compress_loop].
  { exists n, O. rewrite Z.add_0_r. cbn. repeat split; lia. }
  destruct (Z.eqb_spec (n mod 10) 0) as [H0|H0].
  - pose proof (Z_div_mod_eq_full n 10). destruct (IH (n / 10) (e + 1)) as (n' & k & E & Hk & Hd & Hn' & Hm); [lia|]. exists n', (S k). rewrite E. split; [f_equal; lia|]. split; [lia|].
    rewrite Nat2Z.inj_succ, Z.pow_succ_r by lia. repeat split; [nia | lia | intros; apply Hm; lia].
  - exists n, O. rewrite Z.add_0_r. cbn. repeat split; lia.
Qed.

Lemma iter_mul10 k n : 0 <= n -> n * 10 ^ Z.of_nat k < 2 ^ 64 -> Nat.iter k (fun n => u64 (n * 10)) n = n * 10 ^ Z.of_nat k.
Proof.
  induction k as [|k IH]; intros Hn Hl; [cbn; lia|]. rewrite Nat2Z.inj_succ, Z.pow_succ_r in * by lia. cbn [Nat.iter nat_rect].
  change (nat_rect _ _ _ k) with (Nat.iter k (fun n => u64 (n * 10)) n). assert (0 < 10 ^ Z.of_nat k) by lia. rewrite IH by nia. unfold u64. rewrite Z.mod_small by nia. lia.
Qed.

(** the largest amount up to which nothing wraps around, whatever its digits *)
Definition compressible_limit : Z := (2 ^ 64 - 1) / 9.

Lemma DecompressAmount_digits q (k : nat) : 0 <= q -> (k <= 9)%nat ->
  DecompressAmount (1 + q * 10 + Z.of_nat k) = Nat.iter k (fun n => u64 (n * 10)) (if Z.of_nat k <? 9 then u64 (q / 9 * 10 + (q mod 9 + 1)) else u64 (q + 1)).
Proof.
  intros Hq Hk. unfold DecompressAmount. rewrite (proj2 (Z.eqb_neq (1 + q * 10 + Z.of_nat k) 0)) by lia.
  replace (1 + q * 10 + Z.of_nat k - 1) with (Z.of_nat k + q * 10) by lia. rewrite Z.mod_add, Z.div_add, (Z.mod_small (Z.of_nat k)), (Z.div_small (Z.of_nat k)), Z.add_0_l by lia. by rewrite Nat2Z.id.
Qed.

Lemma CompressAmount_small n : 0 <= n <= compressible_limit -> DecompressAmount (CompressAmount n) = n /\ 0 <= CompressAmount n < 2 ^ 64.
Proof.
  intros Hn. assert (Hlim : n * 9 < 2 ^ 64) by (change compressible_limit with 2049638230412172401 in Hn; lia). unfold CompressAmount. destruct (Z.eqb_spec n 0) as [->|H0]; [done|].
  destruct (compress_loop_spec 9 n 0) as (n' & k & E & Hk & Hd & Hn' & Hm); [lia|]. rewrite E, Z.add_0_l. assert (Hp : 1 <= 10 ^ Z.of_nat k) by lia.
  assert (Hle : n' <= n) by nia. pose proof (Z_div_mod_eq_full n' 10). pose proof (Z.mod_pos_bound n' 10 ltac:(lia)). destruct (Z.ltb_spec (Z.of_nat k) 9) as [Hk9|Hk9].
  - specialize (Hm ltac:(lia)). assert (Hx : 10 * 1 <= 10 ^ Z.of_nat k \/ k = O) by (destruct k as [|k']; [by right|]; left; rewrite Nat2Z.inj_succ, Z.pow_succ_r by lia; lia).
    assert (Hsmall : 1 + (n' / 10 * 9 + n' mod 10 - 1) * 10 + Z.of_nat k < 2 ^ 64) by (destruct Hx as [Hx | ->]; nia).
    unfold u64. rewrite Z.mod_small by lia. split; [|lia]. rewrite DecompressAmount_digits, (proj2 (Z.ltb_lt _ 9)) by lia.
    replace (n' / 10 * 9 + n' mod 10 - 1) with ((n' mod 10 - 1) + n' / 10 * 9) by lia. rewrite Z.mod_add, Z.div_add, (Z.mod_small (n' mod 10 - 1)), Z.div_small by lia.
    replace ((0 + n' / 10) * 10 + (n' mod 10 - 1 + 1)) with n' by lia. unfold u64 at 2. rewrite (Z.mod_small n'), iter_mul10 by lia. lia.
  - assert (k = 9%nat) by lia. subst k. change (10 ^ Z.of_nat 9) with 1000000000 in *. unfold u64. rewrite Z.mod_small by lia. split; [|lia].
    change 9 with (Z.of_nat 9) at 1. rewrite DecompressAmount_digits by lia. change (Z.of_nat 9 <? 9) with false. cbv iota. unfold u64 at 2. replace (n' - 1 + 1) with n' by lia.
    rewrite (Z.mod_small n'), iter_mul10; change (10 ^ Z.of_nat 9) with 1000000000; lia.
Qed.

(** ** Scripts *)

Lemma drop_pop (s : list Z) i : (i < length s)%nat -> drop i s = s !!! i :: drop (S i) s.
Proof. intros Hi. apply drop_S. by apply list_lookup_lookup_total_lt. Qed.

Lemma drop_mid (s : list Z) i n : drop i s = take n (drop i s) ++ drop (i + n) s.
Proof. by rewrite <- drop_drop, take_drop. Qed.

Lemma drop_end (s : list Z) n : length s = n -> drop n s = [].
Proof. intros <-. apply drop_all. Qed.

Lemma zlen_nat (s : list Z) (n : Z) : zlen s = n -> length s = Z.to_nat n.
Proof. lia. Qed.

(** a script of known length and known bytes at some places *)
Ltac known_length H n := apply zlen_nat in H; match type of H with ?l = _ => change (l = n) in H end.
Ltac known_bytes s := repeat match goal with H : s !!! _ = _ |- _ => rewrite H; clear H end.

Lemma IsToKeyID_shape script hash : IsToKeyID script = Some hash ->
  script = [OP_DUP : Z; OP_HASH160 : Z; 20] ++ hash ++ [OP_EQUALVERIFY : Z; OP_CHECKSIG : Z] /\ zlen hash = 20.
Proof.
  unfold IsToKeyID. destruct (_ && _) eqn:E; [|done]. intros [= Eh]. bool_to_prop. known_length H 25%nat. split; [|subst hash; rewrite length_take, length_drop; lia].
  pose proof (drop_mid script 3 20) as Hm. rewrite Eh in Hm. cbn [Nat.add] in Hm. rewrite <- (drop_0 script) at 1.
  rewrite (drop_pop script 0), (drop_pop script 1), (drop_pop script 2), Hm, (drop_pop script 23), (drop_pop script 24), (drop_end script 25) by lia. by known_bytes script.
Qed.

Lemma IsToScriptID_shape script hash : IsToScriptID script = Some hash ->
  script = [OP_HASH160 : Z; 20] ++ hash ++ [OP_EQUAL : Z] /\ zlen hash = 20.
Proof.
  unfold IsToScriptID. destruct (_ && _) eqn:E; [|done]. intros [= Eh]. bool_to_prop. known_length H 23%nat. split; [|subst hash; rewrite length_take, length_drop; lia].
  pose proof (drop_mid script 2 20) as Hm. rewrite Eh in Hm. cbn [Nat.add] in Hm. rewrite <- (drop_0 script) at 1.
  rewrite (drop_pop script 0), (drop_pop script 1), Hm, (drop_pop script 22), (drop_end script 23) by lia. by known_bytes script.
Qed.

Lemma CPubKey_Set_ok vch len : length vch = Z.to_nat len -> 0 < len -> GetLen (vch !!! 0%nat) = len -> CPubKey_Set vch = Some vch.
Proof.
  intros Hl Hp Hg. destruct vch as [|h vch]; [cbn in Hl; lia|]. unfold CPubKey_Set. change ((h :: vch) !!! 0%nat) with h in Hg. rewrite Hg.
  rewrite (proj2 (Z.eqb_neq len 0)), (proj2 (Z.eqb_eq len (zlen (h :: vch)))) by lia. done.
Qed.

(** a script that pays to a key, as [Compress] sees it *)
Lemma IsToPubKey_shape {SP : Secp256k1} script key : IsToPubKey script = Some key ->
  exists h rest, key = h :: rest /\ script = [zlen key] ++ key ++ [OP_CHECKSIG : Z] /\
    ((zlen key = 33 /\ (h = 2 \/ h = 3)) \/ (zlen key = 65 /\ h = 4 /\ is_Some (ec_pubkey_parse key))).
Proof.
  unfold IsToPubKey. destruct ((zlen script =? 35) && _ && _ && _) eqn:E1; [|destruct ((zlen script =? 67) && _ && _ && _) eqn:E2; [|done]].
  - bool_to_prop. known_length H 35%nat. pose proof (drop_mid script 1 33) as Hm. cbn [Nat.add] in Hm. remember (take 33 (drop 1 script)) as k eqn:Ek.
    assert (Hk : length k = 33%nat) by (subst k; rewrite length_take, length_drop; lia). destruct k as [|h rest]; [done|].
    assert (Eh : h = script !!! 1%nat) by (rewrite (drop_pop script 1) in Ek by lia; by injection Ek as ->).
    assert (Hh : h = 2 \/ h = 3) by (rewrite Eh; apply orb_true_iff in H0 as [H0 | H0]; apply Z.eqb_eq in H0; auto).
    rewrite (CPubKey_Set_ok (h :: rest) 33) by (done || (destruct Hh as [-> | ->]; done)). intros [= <-]. exists h, rest. split; [done|]. rewrite Hk. split; [|left; by split].
    rewrite <- (drop_0 script) at 1. rewrite (drop_pop script 0), Hm, (drop_pop script 34), (drop_end script 35) by lia. by known_bytes script.
  - bool_to_prop. known_length H 67%nat. pose proof (drop_mid script 1 65) as Hm. cbn [Nat.add] in Hm. remember (take 65 (drop 1 script)) as k eqn:Ek.
    assert (Hk : length k = 65%nat) by (subst k; rewrite length_take, length_drop; lia). destruct k as [|h rest]; [done|].
    assert (Eh : h = 4) by (rewrite (drop_pop script 1) in Ek by lia; by injection Ek as ->).
    rewrite (CPubKey_Set_ok (h :: rest) 65) by (done || by rewrite Eh). cbn [IsFullyValid]. destruct (bool_decide _) eqn:Ev; [|done]. intros [= <-]. exists h, rest. split; [done|].
    rewrite Hk. split; [|right; split; [done|]; split; [done|]; by apply bool_decide_eq_true in Ev].
    rewrite <- (drop_0 script) at 1. rewrite (drop_pop script 0), Hm, (drop_pop script 66), (drop_end script 67) by lia. by known_bytes script.
Qed.

Section Roundtrip.
Context {SP : Secp256k1} {LAWS : Secp256k1Laws}.

Lemma parity_tag b : 0 <= b -> Z.lor 0x04 (Z.land b 0x01) = if Z.odd b then 5 else 4.
Proof. intros Hb. change 0x01 with (Z.ones 1). rewrite Z.land_ones by lia. change (2 ^ 1) with 2. rewrite Zmod_odd. by destruct (Z.odd b). Qed.

(** what [Compress] writes for an uncompressed key reads back as that key *)
Lemma Decompress_point s0 key rest : key = 4 :: rest -> zlen key = 65 -> bytes key -> is_Some (ec_pubkey_parse key) ->
  Decompress s0 (Z.lor 0x04 (Z.land (key !!! 64%nat) 0x01)) (take 32 rest) = [65] ++ key ++ [OP_CHECKSIG : Z].
Proof.
  intros -> Hl Hb [p Hp]. cbn [length] in Hl. inversion_clear Hb as [|? ? _ Hr]. change ((4 :: rest) !!! 64%nat) with (rest !!! 63%nat).
  assert (Hx : length (take 32 rest) = 32%nat) by (rewrite length_take; lia). assert (Hy : length (drop 32 rest) = 32%nat) by (rewrite length_drop; lia).
  assert (Ey : rest !!! 63%nat = drop 32 rest !!! 31%nat) by (by rewrite !list_lookup_total_alt, lookup_drop). rewrite Ey.
  rewrite <- (take_drop 32 rest) in Hp. destruct (ec_pubkey_uncompressed _ _ p Hx Hy) as [Ep Hc]; [by rewrite take_drop | done |]. rewrite take_drop in Ep. subst p.
  assert (Hby : is_u8 (drop 32 rest !!! 31%nat)) by (apply (Forall_lookup_total_1 is_u8 (drop 32 rest)); [by apply Forall_drop | lia]). rewrite parity_tag by apply Hby.
  assert (Hs : forall h, h = 2 \/ h = 3 -> CPubKey_Set (h :: take 32 rest) = Some (h :: take 32 rest)).
  { intros h Hh. apply (CPubKey_Set_ok _ 33); [cbn [length]; by rewrite Hx | done | by destruct Hh as [-> | ->]]. }
  assert (Hk : CPubKey_Set (4 :: rest) = Some (4 :: rest)) by (apply (CPubKey_Set_ok _ 65); [cbn [length]; lia | done | done]).
  unfold Decompress, CPubKey_Decompress. destruct (Z.odd _); cbn [Z.eqb orb Z.sub Z.add Z.opp Z.pos_sub Pos.eqb].
  - change (5 - 2) with 3. rewrite (Hs 3) by auto. cbn [mbind option_bind]. rewrite Hc. cbn [mbind option_bind].
    by rewrite Hk.
  - change (4 - 2) with 2. rewrite (Hs 2) by auto. cbn [mbind option_bind]. rewrite Hc. cbn [mbind option_bind].
    by rewrite Hk.
Qed.

Lemma Compress_shape script compr : bytes script -> Compress script = Some compr ->
  exists t vch, compr = t :: vch /\ 0 <= t < nSpecialScripts /\ zlen vch = GetSpecialSize t /\ forall s0, Decompress s0 t vch = script.
Proof.
  intros Hb. unfold Compress. destruct (IsToKeyID script) as [hash|] eqn:E1.
  { intros [= <-]. apply IsToKeyID_shape in E1 as [-> Hl]. exists 0, hash. done. }
  destruct (IsToScriptID script) as [hash|] eqn:E2.
  { intros [= <-]. apply IsToScriptID_shape in E2 as [-> Hl]. exists 1, hash. done. }
  destruct (IsToPubKey script) as [key|] eqn:E3; [|done]. apply IsToPubKey_shape in E3 as (h & rest & -> & Es & H).
  change ((h :: rest) !!! 0%nat) with h. change (drop 1 (h :: rest)) with rest. destruct H as [[Hl Hh] | (Hl & -> & Hp)].
  - cbn [length] in Hl. rewrite take_ge by lia. assert (Ht : (h =? 2) || (h =? 3) = true) by (by destruct Hh as [-> | ->]). rewrite Ht. intros [= <-]. exists h, rest. split; [done|].
    split; [unfold nSpecialScripts; lia|]. rewrite Es. cbn [length]. replace (Z.of_nat (S (length rest))) with 33 by lia. split; [destruct Hh as [-> | ->]; cbn; lia|].
    intros s0. by destruct Hh as [-> | ->].
  - cbn [Z.eqb orb Pos.eqb]. intros [= <-]. assert (Hk : bytes (4 :: rest)) by (rewrite Es in Hb; apply Forall_app in Hb as [_ Hb]; by apply Forall_app in Hb as [Hb _]).
    assert (H64 : is_u8 ((4 :: rest) !!! 64%nat)) by (apply (Forall_lookup_total_1 is_u8); [done | lia]). eexists _, _. split; [done|].
    rewrite Es, Hl. split; [|split; [|intros s0; exact (Decompress_point s0 (4 :: rest) rest eq_refl Hl Hk Hp)]].
    + rewrite parity_tag by apply H64. unfold nSpecialScripts. case_ifs; lia.
    + rewrite parity_tag by apply H64. cbn [length] in Hl. rewrite length_take. case_ifs; change (GetSpecialSize _) with 32; lia.
Qed.

Lemma WriteVarInt_tag t : 0 <= t < nSpecialScripts -> WriteVarInt t = [t].
Proof. intros Ht. rewrite WriteVarInt_unfold, (proj2 (Z.leb_le t _)), Z.mod_small by (unfold nSpecialScripts in *; lia). done. Qed.

Lemma script_reads s0 : reads (fun s => bytes s /\ zlen s <= MAX_SCRIPT_SIZE) id Serialize_script (Unserialize_script s0).
Proof.
  intros script s [Hb Hl]. unfold Serialize_script, Unserialize_script, MAX_SCRIPT_SIZE in *. destruct (Compress script) as [compr|] eqn:E.
  - destruct (Compress_shape script compr Hb E) as (t & vch & -> & Ht & Hv & Hd). change ((t :: vch) ++ s) with ([t] ++ vch ++ s). rewrite <- (WriteVarInt_tag t Ht).
    rewrite (parser_bind_eq _ _ _ t (vch ++ s)) by (apply ReadVarInt_write; unfold nSpecialScripts in Ht; lia). rewrite (proj2 (Z.ltb_lt t _)) by lia.
    rewrite <- Hv. rewrite (parser_bind_eq _ _ _ vch s) by apply read_app. by rewrite Hd.
  - unfold u32. rewrite Z.mod_small by (unfold nSpecialScripts; lia). rewrite <- app_assoc.
    rewrite (parser_bind_eq _ _ _ (zlen script + nSpecialScripts) (script ++ s)) by (apply ReadVarInt_write; unfold nSpecialScripts; lia).
    rewrite (proj2 (Z.ltb_ge (zlen script + nSpecialScripts) _)) by lia. rewrite Z.add_simpl_r, Z.gtb_ltb, (proj2 (Z.ltb_ge _ (zlen script))) by lia. apply read_app.
Qed.
End Roundtrip.

(** ** Coins and undo data *)

Definition out_storable (out : CTxOut) : Prop :=
  0 <= nValue out <= compressible_limit /\ nRounds out = nRounds null_txout /\ bytes (scriptPubKey out) /\ zlen (scriptPubKey out) <= MAX_SCRIPT_SIZE.

(** a coin as [AddCoin] keeps it, with an amount that can be compressed and a height
    whose double is an [int] *)
Definition storable (coin : Coin) : Prop :=
  0 <= nValue (coin_out coin) <= compressible_limit /\ nRounds (coin_out coin) = nRounds null_txout /\ bytes (scriptPubKey (coin_out coin)) /\
  IsUnspendable (scriptPubKey (coin_out coin)) = false /\ 0 <= coin_nHeight coin < 2 ^ 30.

Lemma spendable_size s : IsUnspendable s = false -> zlen s <= MAX_SCRIPT_SIZE.
Proof. unfold IsUnspendable. intros H. bool_to_prop. lia. Qed.

Lemma storable_out coin : storable coin -> out_storable (coin_out coin).
Proof. intros (H1 & H2 & H3 & H4 & _). repeat split; [apply H1 | apply H1 | done | done | by apply spendable_size]. Qed.

Section CoinRoundtrip.
Context {SP : Secp256k1} {LAWS : Secp256k1Laws}.

Lemma out_reads : reads out_storable id Serialize_compressed_out Unserialize_compressed_out.
Proof.
  intros out s (Hv & Hr & Hb & Hl). unfold Serialize_compressed_out, Unserialize_compressed_out. rewrite <- app_assoc.
  assert (Hlim : compressible_limit < 2 ^ 62) by done. unfold u64. rewrite Z.mod_small by lia. destruct (CompressAmount_small (nValue out) Hv) as [E Hc].
  rewrite (parser_bind_eq _ _ _ (CompressAmount (nValue out)) (Serialize_script (scriptPubKey out) ++ s)) by (apply ReadVarInt_write; lia).
  rewrite (parser_bind_eq _ _ _ (scriptPubKey out) s) by (by apply (script_reads _ (scriptPubKey out))). rewrite E.
  unfold i64, wrap_signed. rewrite Z.mod_small by lia. rewrite Z.add_simpl_r, <- Hr. by destruct out.
Qed.

Lemma height_code coin : storable coin ->
  let code := coin_nHeight coin * 2 + Z.b2z (fCoinBase coin) in 0 <= code < 2 ^ 31 /\ Z.odd code = fCoinBase coin /\ code / 2 = coin_nHeight coin.
Proof.
  intros (_ & _ & _ & _ & Hh). cbv zeta. replace (coin_nHeight coin * 2 + Z.b2z (fCoinBase coin)) with (Z.b2z (fCoinBase coin) + coin_nHeight coin * 2) by lia.
  rewrite Z.div_add, Z.odd_add, Z.odd_mul, andb_false_r by done. destruct (fCoinBase coin); cbn [Z.b2z]; rewrite Z.div_small by lia; (split; [lia | split; [done | lia]]).
Qed.

Lemma coin_reads : reads storable id Serialize_Coin Unserialize_Coin.
Proof.
  intros coin s Hc. destruct (height_code coin Hc) as (H1 & H2 & H3). unfold Serialize_Coin, Unserialize_Coin, u32. rewrite Z.mod_small by lia. rewrite <- app_assoc.
  rewrite (parser_bind_eq _ _ _ (coin_nHeight coin * 2 + Z.b2z (fCoinBase coin)) (Serialize_compressed_out (coin_out coin) ++ s)) by (apply ReadVarInt_write; lia).
  rewrite (parser_bind_eq _ _ _ (coin_out coin) s) by (apply (out_reads (coin_out coin)); by apply storable_out). rewrite Z.shiftr_div_pow2, H2 by lia. change (2 ^ 1) with 2. rewrite H3.
  by destruct coin.
Qed.

Lemma undo_reads : reads storable id Serialize_TxInUndo Unserialize_TxInUndo.
Proof.
  intros coin s Hc. destruct (height_code coin Hc) as (H1 & H2 & H3). unfold Serialize_TxInUndo, Unserialize_TxInUndo, i32, wrap_signed. rewrite Z.mod_small by lia. rewrite Z.add_simpl_r, <- !app_assoc.
  rewrite (parser_bind_eq _ _ _ (coin_nHeight coin * 2 + Z.b2z (fCoinBase coin)) ((if coin_nHeight coin >? 0 then [0] else []) ++ Serialize_compressed_out (coin_out coin) ++ s)) by (apply ReadVarInt_write; lia).
  rewrite H2, H3. cbv zeta. rewrite (parser_bind_eq _ _ _ 0 (Serialize_compressed_out (coin_out coin) ++ s)).
  - rewrite (parser_bind_eq _ _ _ (coin_out coin) s) by (apply (out_reads (coin_out coin)); by apply storable_out). by destruct coin.
  - destruct (coin_nHeight coin >? 0); [|done]. by apply (ReadVarInt_write INT_MAX 0).
Qed.

(** the number of inputs a transaction may have *)
Definition undo_limit (fAssetsIsActive : bool) : Z := (if fAssetsIsActive then MAX_BLOCK_WEIGHT_RIP2 else MAX_BLOCK_WEIGHT) / MIN_TRANSACTION_INPUT_WEIGHT.

Lemma txundo_reads active : reads (fun v => Forall storable v /\ zlen v <= undo_limit active) id Serialize_CTxUndo (Unserialize_CTxUndo active).
Proof.
  intros v s [Hv Hl]. assert (undo_limit active <= MAX_SIZE) by (by destruct active). unfold Serialize_CTxUndo, Unserialize_CTxUndo. rewrite <- app_assoc.
  rewrite (parser_bind_eq _ _ _ (zlen v) (concat (map Serialize_TxInUndo v) ++ s)) by (apply ReadCompactSize_write; lia).
  rewrite throw_if_pass by (fold (undo_limit active); rewrite Z.gtb_ltb; apply Z.ltb_ge; lia). rewrite Nat2Z.id.
  pose proof (read_elements_app storable id Serialize_TxInUndo Unserialize_TxInUndo v s undo_reads Hv) as E. by rewrite map_id in E.
Qed.

Lemma blockundo_reads active : reads (fun u => Forall (fun v => Forall storable v /\ zlen v <= undo_limit active) u /\ zlen u <= MAX_SIZE) id Serialize_CBlockUndo (Unserialize_CBlockUndo active).
Proof. intros u s H. pose proof (vector_reads _ _ _ _ (txundo_reads active) u s H) as E. by rewrite map_id in E. Qed.
End CoinRoundtrip.

(** ** Properties *)

(** C34: coins and undo data survive the disk: for coins with spendable scripts, amounts
    up to [compressible_limit] and heights below 2^30, what the database is given for a
    coin is read back as that coin, and what the undo file is given for a block is read
    back as that undo data, whichever of their forms the scripts take, when every
    transaction has at most as many inputs as fit into a block. *)
Theorem coins_on_disk {SP : Secp256k1} {LAWS : Secp256k1Laws} :
  (forall coin s, storable coin -> Unserialize_Coin (Serialize_Coin coin ++ s) = Some (coin, s)) /\
  (forall active vtxundo s, Forall (fun v => Forall storable v /\ zlen v <= undo_limit active) vtxundo -> zlen vtxundo <= MAX_SIZE ->
    Unserialize_CBlockUndo active (Serialize_CBlockUndo vtxundo ++ s) = Some (vtxundo, s)).
Proof. split; [exact coin_reads | intros active u s H1 H2; by apply blockundo_reads]. Qed.

(** a curve of points whose second coordinate is 0 or 1 *)
Definition sample_secp : Secp256k1 := {|
  ec_pubkey_parse key :=
    match key with
    | h :: rest =>
        if (h =? 2) || (h =? 3) then Some (4 :: rest ++ replicate 31 0 ++ [h - 2])
        else if (h =? 4) && (bool_decide (drop 32 rest = replicate 31 0 ++ [0]) || bool_decide (drop 32 rest = replicate 31 0 ++ [1])) then Some key
        else None
    | [] => None
    end
|}.

Lemma sample_secp_laws : @Secp256k1Laws sample_secp.
Proof.
  constructor. intros x y p Hx Hy _. cbn [ec_pubkey_parse sample_secp Z.eqb Pos.eqb orb andb]. rewrite drop_app_length' by done. intros Hp.
  assert (Hxy : y = replicate 31 0 ++ [0] \/ y = replicate 31 0 ++ [1]).
  { destruct (bool_decide (y = replicate 31 0 ++ [0])) eqn:E0; [left; by apply bool_decide_eq_true in E0|].
    destruct (bool_decide (y = replicate 31 0 ++ [1])) eqn:E1; [right; by apply bool_decide_eq_true in E1 | done]. }
  destruct Hxy as [-> | ->]; injection Hp as <-; done.
Qed.

(** a payment to a key hash, and one to an uncompressed key *)
Definition sample_coin_hash : Coin := Coin_of (MkCTxOut 5000000000 ([0x76; 0xa9; 20] ++ replicate 20 7 ++ [0x88; 0xac]) (-10)) 1000 false.
Definition sample_coin_key : Coin := Coin_of (MkCTxOut 123456789 ([65; 4] ++ replicate 32 9 ++ replicate 31 0 ++ [1; 0xac]) (-10)) 1001 true.

Lemma sample_storable : Forall storable [sample_coin_hash; sample_coin_key].
Proof.
  apply Forall_cons; split; [|apply Forall_cons; split; [|done]];
    (split; [vm_compute; split; discriminate | split; [done | split; [|split; [vm_compute; done | vm_compute; split; [discriminate | done]]]]]);
    apply Forall_forall; intros b Hb; vm_compute in Hb |- *; repeat (apply elem_of_cons in Hb as [-> | Hb]; [split; [discriminate | done]|]); by apply elem_of_nil in Hb.
Qed.

Lemma coins_on_disk_witness :
  @Unserialize_Coin sample_secp (@Serialize_Coin sample_secp sample_coin_key ++ [1; 2]) = Some (sample_coin_key, [1; 2]) /\
  @Unserialize_CBlockUndo sample_secp true (@Serialize_CBlockUndo sample_secp [[sample_coin_hash; sample_coin_key]; []] ++ [1; 2]) =
    Some ([[sample_coin_hash; sample_coin_key]; []], [1; 2]).
Proof.
  destruct (@coins_on_disk sample_secp sample_secp_laws) as [H1 H2]. split.
  - apply H1. pose proof sample_storable as H. by inversion_clear H as [|? ? _ H']; inversion_clear H'.
  - apply H2; [|vm_compute; discriminate]. apply Forall_cons; split; [split; [exact sample_storable | vm_compute; discriminate]|].
    apply Forall_cons; split; [split; [done | vm_compute; discriminate] | done].
Defined.

(** C40: amount compression is exact up to a ninth of 2^64; but [MAX_MONEY] is larger, and
    above that the 64-bit product can wrap around: 2049638230412172411, an amount that
    consensus allows, is written like 80000 and read back as 80000. *)
Theorem amount_compression :
  (forall n, 0 <= n <= compressible_limit -> DecompressAmount (CompressAmount n) = n) /\
  MoneyRange 2049638230412172411 = true /\ CompressAmount 2049638230412172411 = CompressAmount 80000 /\
  DecompressAmount (CompressAmount 2049638230412172411) = 80000.
Proof. split; [intros n Hn; by apply CompressAmount_small | by vm_compute]. Qed.

Lemma amount_compression_witness : DecompressAmount (CompressAmount 5000000000) = 5000000000.
Proof. apply (proj1 amount_compression). vm_compute. split; discriminate. Defined.
