(* ===== verification/Money.v ===== *)
(** * Money (consensus/tx_verify.cpp, primitives/transaction.cpp, validation.cpp, smartnode/smartnode-payments.cpp)

    The value checks of a block: [CheckTxInputs] on each transaction, the sum of the fees
    and the limit on what the coinbase pays, around the coin updates of [ConnectBlock];
    and the check of [CheckTransaction] that no input is spent twice.
    The theorems: [CheckTxInputs] accepts exactly the transactions whose inputs are
    there, mature and cover the outputs, with the fee it reports; a block that passes
    does not make the coins in the map worth more than the subsidy of its height adds;
    and the subsidies of all heights have a finite sum, which is larger than
    [MAX_MONEY]. *)

From S2P Require Import Prelude Opcodes ScriptNum Script Interpreter Serialize Transaction Sighash AssetData Coins Utxo.
From stdpp Require Import gmap strings.
Import Script.
#[local] Open Scope Z_scope.

Definition COINBASE_MATURITY : Z := 100.

(** [GetBlockSubsidy]; the height is that of the previous block *)
Definition GetBlockSubsidy (nSubsidyHalvingInterval nPrevHeight : Z) : Z :=
  let halvings := Z.quot nPrevHeight nSubsidyHalvingInterval in
  if halvings >=? 64 then 0 else Z.shiftr (5000 * COIN) halvings.

(** [GetValueOut]; [None] when it throws *)
Fixpoint value_out (vout : list CTxOut) (nValueOut : Z) : option Z :=
  match vout with
  | [] => Some nValueOut
  | tx_out :: vout =>
      let nValueOut := i64 (nValueOut + nValue tx_out) in
      if negb (MoneyRange (nValue tx_out)) || negb (MoneyRange nValueOut) then None else value_out vout nValueOut
  end.
Definition GetValueOut (tx : CTransaction) : option Z := value_out (vout tx) 0.

(** the loop of [CheckTransaction] that refuses an input given twice *)
Fixpoint inputs_distinct (vin : list CTxIn) (vInOutPoints : gset COutPoint) : bool :=
  match vin with
  | [] => true
  | txin :: vin =>
      if bool_decide (prevout txin ∈ vInOutPoints) then false else inputs_distinct vin ({[prevout txin]} ∪ vInOutPoints)
  end.

(** how a check ends: with the reject reason or a result *)
Inductive verdict (A : Type) := Rejected (reason : string) | Accepted (x : A).
Arguments Rejected {A}.
Arguments Accepted {A}.

Section Money.
Context `{!ScriptHashes} {V : Type} `{!CCoinsView V}.
Implicit Type c : CCoinsViewCache V.

(** the loop over the inputs; [None] when the assertion fails *)
Fixpoint check_inputs (vin : list CTxIn) c (nSpendHeight nValueIn : Z) : option (verdict Z * CCoinsViewCache V) :=
  match vin with
  | [] => Some (Accepted nValueIn, c)
  | txin :: vin =>
      let '(coin, c) := AccessCoin c (prevout txin) in
      if IsSpent coin then None
      else if fCoinBase coin && (nSpendHeight - coin_nHeight coin <? COINBASE_MATURITY) then Some (Rejected "bad-txns-premature-spend-of-coinbase", c)
      else
        let nValueIn := i64 (nValueIn + nValue (coin_out coin)) in
        if negb (MoneyRange (nValue (coin_out coin))) || negb (MoneyRange nValueIn) then Some (Rejected "bad-txns-inputvalues-outofrange", c)
        else check_inputs vin c nSpendHeight nValueIn
  end.

(** the fee; the special fee stays as it was *)
Definition CheckTxInputs (tx : CTransaction) c (nSpendHeight : Z) : option (verdict Z * CCoinsViewCache V) :=
  let '(have, c) := HaveInputs c tx in
  if negb have then Some (Rejected "bad-txns-inputs-missingorspent", c)
  else
    '(r, c) ← check_inputs (vin tx) c nSpendHeight 0;
    match r with
    | Rejected reason => Some (Rejected reason, c)
    | Accepted nValueIn =>
        value_out ← GetValueOut tx;
        if nValueIn <? value_out then Some (Rejected "bad-txns-in-belowout", c)
        else
          let txfee := i64 (nValueIn - value_out) in
          if negb (MoneyRange txfee) then Some (Rejected "bad-txns-fee-outofrange", c)
          else if txfee <? 0 then Some (Rejected "bad-txns-fee-too-low", c)
          else Some (Accepted txfee, c)
    end.

(** [IsBlockValueValid]; [later] is what the branches for old budgets and superblocks
    would answer *)
Definition IsBlockValueValid (coinbase : CTransaction) (nBlockHeight blockReward nBudgetPaymentsStartBlock : Z) (later : bool) : option bool :=
  valueOut ← GetValueOut coinbase;
  Some (if nBlockHeight <? nBudgetPaymentsStartBlock then valueOut <=? blockReward else later).

(** the loop of [ConnectBlock]: the fees and the undo data *)
Fixpoint money_loop (vtx : list CTransaction) c (nHeight nFees : Z) : option (verdict (Z * list (list Coin)) * CCoinsViewCache V) :=
  match vtx with
  | [] => Some (Accepted (nFees, []), c)
  | tx :: vtx =>
      '(r, c) ← (if IsCoinBase tx then Some (Accepted nFees, c)
                 else
                   '(r, c) ← CheckTxInputs tx c nHeight;
                   match r with
                   | Rejected reason => Some (Rejected reason, c)
                   | Accepted txfee =>
                       let nFees := i64 (nFees + txfee) in
                       Some (if MoneyRange nFees then Accepted nFees else Rejected "bad-txns-accumulated-fee-outofrange", c)
                   end);
      match r with
      | Rejected reason => Some (Rejected reason, c)
      | Accepted nFees =>
          '(txundo, c) ← UpdateCoins tx c nHeight;
          '(r, c) ← money_loop vtx c nHeight nFees;
          Some (match r with
                | Rejected reason => Rejected reason
                | Accepted (nFees, vtxundo) => Accepted (nFees, txundo :: vtxundo)
                end, c)
      end
  end.

(** the part of [ConnectBlock] on coins and values *)
Definition ConnectMoney (vtx : list CTransaction) c (prevHeight : Z) (hash : uint256) (nSubsidyHalvingInterval nBudgetPaymentsStartBlock : Z) (later : bool) :
    option (verdict (list (list Coin)) * CCoinsViewCache V) :=
  '(r, c) ← money_loop vtx c (prevHeight + 1) 0;
  match r with
  | Rejected reason => Some (Rejected reason, c)
  | Accepted (nFees, vtxundo) =>
      let blockReward := i64 (nFees + GetBlockSubsidy nSubsidyHalvingInterval prevHeight) in
      coinbase ← head vtx;
      valid ← IsBlockValueValid coinbase (prevHeight + 1) blockReward nBudgetPaymentsStartBlock later;
      Some (if (valid : bool) then (Accepted (tail vtxundo), SetBestBlock c hash) else (Rejected "bad-cb-amount", c))
  end.
End Money.

(** ** Sums that stay in range *)

Definition sum_out (l : list CTxOut) : Z := foldr (fun o acc => nValue o + acc) 0 l.
Definition sum_coins (l : list Coin) : Z := foldr (fun coin acc => nValue (coin_out coin) + acc) 0 l.

Lemma MoneyRange_spec v : MoneyRange v = true <-> 0 <= v <= MAX_MONEY.
Proof. unfold MoneyRange. rewrite andb_true_iff, Z.geb_leb, !Z.leb_le. lia. Qed.

Lemma MAX_MONEY_small : MAX_MONEY < 2 ^ 61.
Proof. done. Qed.

(** adding an amount to a sum and checking both, without wrapping around *)
Lemma add_money acc v : 0 <= acc <= MAX_MONEY ->
  negb (MoneyRange v) || negb (MoneyRange (i64 (acc + v))) = false <-> 0 <= v /\ acc + v <= MAX_MONEY.
Proof.
  intros Ha. pose proof MAX_MONEY_small. rewrite orb_false_iff, !negb_false_iff, !MoneyRange_spec. split.
  - intros [Hv Hs]. rewrite i64_small in Hs by (unfold is_i64; lia). lia.
  - intros [Hv Hs]. rewrite i64_small by (unfold is_i64; lia). lia.
Qed.

Lemma sum_out_nonneg l : Forall (fun o => 0 <= nValue o) l -> 0 <= sum_out l.
Proof. induction 1; unfold sum_out in *; cbn [foldr]; lia. Qed.

Lemma value_out_spec l acc s : 0 <= acc <= MAX_MONEY ->
  value_out l acc = Some s <-> Forall (fun o => 0 <= nValue o) l /\ s = acc + sum_out l /\ s <= MAX_MONEY.
Proof.
  revert acc. induction l as [|o l IH]; intros acc Ha; cbn [value_out sum_out foldr].
  { split; [intros [= <-]; split; [done | lia] | intros (_ & -> & _); f_equal; lia]. }
  fold (sum_out l). destruct (negb _ || negb _) eqn:E.
  - split; [done|]. intros (Hf & -> & Hs). inversion_clear Hf as [|? ? Ho Hl]. pose proof (sum_out_nonneg l Hl).
    enough (negb (MoneyRange (nValue o)) || negb (MoneyRange (i64 (acc + nValue o))) = false) by congruence. apply add_money; [done | lia].
  - apply add_money in E as [Ho Hs]; [|done]. pose proof MAX_MONEY_small. rewrite i64_small by (unfold is_i64; lia). rewrite IH by lia. rewrite Forall_cons. split; [intros (Hf & -> & Hm) | intros ((_ & Hf) & -> & Hm)]; (split; [done | lia]).
Qed.

Lemma GetValueOut_spec tx s : GetValueOut tx = Some s <-> Forall (fun o => 0 <= nValue o) (vout tx) /\ s = sum_out (vout tx) /\ s <= MAX_MONEY.
Proof. unfold GetValueOut. rewrite value_out_spec by done. by rewrite Z.add_0_l. Qed.

(** ** The checks on the inputs *)

(** a coin that may be spent at a height *)
Definition mature (h : Z) (coin : Coin) : Prop := fCoinBase coin = true -> COINBASE_MATURITY <= h - coin_nHeight coin.

Section Inputs.
Context {V : Type} `{!CCoinsView V} `{!CoinsViewLaws V}.
Implicit Type c : CCoinsViewCache V.

Lemma represents_access c m k : represents c m -> unspent (AccessCoin c k).1 = m !! k /\ represents (AccessCoin c k).2 m.
Proof.
  intros [Hc Hm]. destruct (reads_spec c k Hc) as (_ & _ & (H1 & H2 & H3)). rewrite H1, Hm. split; [done|]. split; [done|]. intros k'. by rewrite H3.
Qed.

Lemma have_inputs_spec c m l : represents c m ->
  represents (have_inputs l c).2 m /\ ((have_inputs l c).1 = true <-> exists coins, Forall2 (fun txin coin => m !! prevout txin = Some coin) l coins).
Proof.
  revert c. induction l as [|txin l IH]; intros c Hr; cbn [have_inputs]; [split; [done|]; split; [by exists []|done]|].
  destruct (represents_have c m (prevout txin) Hr) as [H1 H2]. destruct (HaveCoin c (prevout txin)) as [have c1]. cbn [fst snd] in *. subst have.
  destruct (m !! prevout txin) as [coin|] eqn:E.
  - rewrite bool_decide_eq_true_2 by eauto. destruct (IH c1 H2) as [H3 H4]. split; [done|]. rewrite H4. split.
    + intros [coins Hf]. exists (coin :: coins). by constructor.
    + intros [coins Hf]. inversion_clear Hf. eauto.
  - rewrite bool_decide_eq_false_2 by (intros [? [=]]). cbn [fst snd]. split; [done|]. split; [done|]. intros [coins Hf]. inversion_clear Hf. congruence.
Qed.

Lemma check_inputs_spec c m l coins h acc : represents c m -> Forall2 (fun txin coin => m !! prevout txin = Some coin) l coins -> 0 <= acc <= MAX_MONEY ->
  exists r c', check_inputs l c h acc = Some (r, c') /\ represents c' m /\
    forall s, r = Accepted s <-> Forall (fun coin => mature h coin /\ 0 <= nValue (coin_out coin)) coins /\ s = acc + sum_coins coins /\ s <= MAX_MONEY.
Proof.
  intros Hr Hf. revert c acc Hr. induction Hf as [|txin coin l coins Hk Hf IH]; intros c acc Hr Ha; cbn [check_inputs sum_coins foldr].
  { eexists _, c. split; [done|]. split; [done|]. intros s. split; [intros [= <-]; split; [done | lia] | intros (_ & -> & _); f_equal; lia]. }
  fold (sum_coins coins). destruct (represents_access c m (prevout txin) Hr) as [H1 H2]. destruct (AccessCoin c (prevout txin)) as [coin' c1]. cbn [fst snd] in *.
  rewrite Hk in H1. unfold unspent in H1. destruct (IsSpent coin'); [done|]. injection H1 as ->.
  destruct (fCoinBase coin && (h - coin_nHeight coin <? COINBASE_MATURITY)) eqn:Em.
  { eexists _, c1. split; [done|]. split; [done|]. intros s. split; [done|]. intros (Hm & _). inversion_clear Hm as [|? ? [Hmat _] _]. bool_to_prop. specialize (Hmat H). lia. }
  assert (Hmat : mature h coin). { intros Hcb. rewrite Hcb in Em. cbn [andb] in Em. bool_to_prop. lia. }
  assert (Hnn : Forall (fun coin => mature h coin /\ 0 <= nValue (coin_out coin)) coins -> 0 <= sum_coins coins) by (clear; unfold sum_coins; induction 1 as [|? ? [_ ?]]; cbn [foldr]; lia).
  destruct (negb _ || negb _) eqn:E.
  - eexists _, c1. split; [done|]. split; [done|]. intros s. split; [done|]. intros (Hm & -> & Hs). inversion_clear Hm as [|? ? [_ Hv] Hm']. specialize (Hnn Hm').
    enough (negb (MoneyRange (nValue (coin_out coin))) || negb (MoneyRange (i64 (acc + nValue (coin_out coin)))) = false) by congruence. apply add_money; [done | lia].
  - apply add_money in E as [Hv Hs]; [|done]. pose proof MAX_MONEY_small. rewrite i64_small by (unfold is_i64; lia). destruct (IH c1 (acc + nValue (coin_out coin)) H2) as (r & c' & -> & Hr' & Hiff); [lia|].
    exists r, c'. split; [done|]. split; [done|]. intros s. rewrite Hiff, Forall_cons. split; [intros (Hm & -> & Hx) | intros ((_ & Hm) & -> & Hx)]; (split; [done | lia]).
Qed.

(** what acceptance means *)
Definition pays (m : gmap COutPoint Coin) (tx : CTransaction) (h txfee : Z) : Prop :=
  exists coins, Forall2 (fun txin coin => m !! prevout txin = Some coin) (vin tx) coins /\
    Forall (fun coin => mature h coin /\ 0 <= nValue (coin_out coin)) coins /\ sum_coins coins <= MAX_MONEY /\
    Forall (fun o => 0 <= nValue o) (vout tx) /\ 0 <= txfee /\ sum_coins coins = sum_out (vout tx) + txfee.

Lemma lookups_unique (m : gmap COutPoint Coin) l coins coins' :
  Forall2 (fun txin coin => m !! prevout txin = Some coin) l coins -> Forall2 (fun txin coin => m !! prevout txin = Some coin) l coins' -> coins = coins'.
Proof. intros H. revert coins'. induction H as [|txin coin l coins Hk Hf IH]; intros coins' H'; inversion_clear H' as [|? y ? l' Hy Hl]; [done|]. f_equal; [congruence | by apply IH]. Qed.

Lemma CheckTxInputs_spec c m tx h txfee : represents c m -> IsCoinBase tx = false ->
  match CheckTxInputs tx c h with
  | None => GetValueOut tx = None
  | Some (r, c') => represents c' m /\ (r = Accepted txfee <-> pays m tx h txfee)
  end.
Proof.
  intros Hr Hcb. unfold CheckTxInputs, HaveInputs. rewrite Hcb. destruct (have_inputs_spec c m (vin tx) Hr) as [H1 H2]. destruct (have_inputs (vin tx) c) as [have c1]. cbn [fst snd] in *.
  destruct have; cbn [negb]; [|split; [done|]; split; [done|]; intros (coins & Hf & _); assert (false = true) by (apply H2; eauto); done].
  destruct (proj1 H2 eq_refl) as [coins Hf]. destruct (check_inputs_spec c1 m (vin tx) coins h 0 H1 Hf) as (r & c2 & -> & Hr2 & Hiff); [done|]. cbn [mbind option_bind].
  destruct r as [reason|nValueIn].
  { split; [done|]. split; [done|]. intros (coins' & Hf' & Hm & Hmax & _). rewrite (lookups_unique m (vin tx) coins' coins Hf' Hf) in *.
    assert (Rejected reason = Accepted (sum_coins coins)) by (apply Hiff; split; [done | lia]). done. }
  destruct (proj1 (Hiff nValueIn) eq_refl) as (Hm & Hs & Hmax). rewrite Z.add_0_l in Hs. destruct (GetValueOut tx) as [value|] eqn:Ev; [|done]. cbn [mbind option_bind].
  apply GetValueOut_spec in Ev as (Ho & Hv & Hvm). pose proof (sum_out_nonneg _ Ho). pose proof MAX_MONEY_small.
  assert (Hp : pays m tx h txfee <-> 0 <= txfee /\ nValueIn = value + txfee).
  { split; [intros (coins' & Hf' & _ & _ & _ & Hfee & Hsum) | intros [Hfee Hsum]; exists coins; repeat split; [done | done | lia | done | done | lia]].
    rewrite (lookups_unique m (vin tx) coins' coins Hf' Hf) in *. lia. }
  destruct (Z.ltb_spec nValueIn value); [split; [done|]; rewrite Hp; split; [done | lia]|]. rewrite i64_small by (unfold is_i64; lia). rewrite (proj2 (MoneyRange_spec _)) by lia. cbn [negb].
  destruct (Z.ltb_spec (nValueIn - value) 0); [lia|]. split; [done|]. rewrite Hp. split; [intros [= <-]; lia | intros [Hfee Hsum]; f_equal; lia].
Qed.
End Inputs.

(** ** The worth of the coins *)

Definition total (m : gmap COutPoint Coin) : Z := map_fold (fun _ coin acc => nValue (coin_out coin) + acc) 0 m.

Lemma total_insert m k coin : m !! k = None -> total (<[k := coin]> m) = nValue (coin_out coin) + total m.
Proof. intros Hk. unfold total. apply (map_fold_insert_L (fun _ coin acc => nValue (coin_out coin) + acc)); [intros; lia | done]. Qed.

Lemma total_delete m k coin : m !! k = Some coin -> total m = nValue (coin_out coin) + total (delete k m).
Proof. intros Hk. unfold total. apply (map_fold_delete_L (fun _ coin acc => nValue (coin_out coin) + acc)); [intros; lia | done]. Qed.

Section Worth.
Context `{!ScriptHashes}.
Implicit Type m : gmap COutPoint Coin.

Lemma spec_spend_total m vin vprevout m' : spec_spend m vin = Some (vprevout, m') ->
  total m = sum_coins vprevout + total m' /\ Forall2 (fun txin coin => m !! prevout txin = Some coin) vin vprevout.
Proof.
  revert m vprevout. induction vin as [|txin vin IH]; intros m vprevout; cbn [spec_spend]; [intros [= <- <-]; done|].
  destruct (m !! prevout txin) as [coin|] eqn:Ek; [|done]. cbn [mbind option_bind]. destruct (spec_spend _ vin) as [[l m1]|] eqn:E; [|done]. cbn [mbind option_bind].
  intros [= <- <-]. destruct (IH _ _ E) as [Ht Hf]. rewrite (total_delete m _ _ Ek), Ht. split; [unfold sum_coins; cbn [foldr]; lia|]. constructor; [done|].
  eapply Forall2_impl; [exact Hf|]. cbv beta. intros txin' coin' Hc. by apply lookup_delete_Some in Hc as [_ ?].
Qed.

Lemma spec_add_total m txid i vout h cb m' : spec_add m txid i vout h cb = Some m' -> Forall (fun o => 0 <= nValue o) vout -> total m' <= total m + sum_out vout.
Proof.
  intros Hs Hf. revert m i Hs. induction Hf as [|out vout Ho Hf IH]; intros m i; cbn [spec_add]; [intros [= <-]; cbn; lia|].
  change (sum_out (out :: vout)) with (nValue out + sum_out vout). destruct (_ =? _); [done|]. destruct (IsUnspendable _); [intros Hs; specialize (IH _ _ Hs); lia|].
  destruct (bool_decide _) eqn:Eb; [done|]. intros Hs. specialize (IH _ _ Hs). rewrite total_insert in IH by (apply eq_None_not_Some; by apply bool_decide_eq_false in Eb). cbn [Coin_of coin_out] in IH. lia.
Qed.

(** a transaction leaves the coins worth less by its fee at least *)
Lemma spec_tx_total m tx h txfee vprevout m' : IsCoinBase tx = false -> pays m tx h txfee -> spec_tx m tx h = Some (vprevout, m') -> total m' <= total m - txfee.
Proof.
  intros Hcb (coins & Hf & _ & _ & Ho & _ & Hsum) (m1 & H1 & H2)%spec_tx_inv. rewrite Hcb in H1. apply spec_spend_total in H1 as [Ht Hf'].
  apply spec_add_total in H2; [|done]. rewrite (lookups_unique m (vin tx) vprevout coins Hf' Hf) in Ht. lia.
Qed.

(** *** Accepted transactions do to the map what they should *)

Lemma inputs_distinct_NoDup vin seen : inputs_distinct vin seen = true ->
  NoDup (prevout <$> vin) /\ Forall (fun txin => prevout txin ∉ seen) vin.
Proof.
  revert seen. induction vin as [|txin vin IH]; intros seen; cbn [inputs_distinct]; [split; constructor|].
  destruct (bool_decide_reflect (prevout txin ∈ seen)) as [|Hn]; [done|]. intros Hi. destruct (IH _ Hi) as [Hd Hf]. rewrite Forall_forall in Hf.
  split; [apply NoDup_cons; split; [|done] | apply Forall_cons; split; [done|]; apply Forall_forall]; [|set_solver].
  intros (x & E & Hx)%list_elem_of_fmap. specialize (Hf x Hx). set_solver.
Qed.

Lemma spec_spend_exists m vin coins : Forall2 (fun txin coin => m !! prevout txin = Some coin) vin coins -> NoDup (prevout <$> vin) ->
  exists m', spec_spend m vin = Some (coins, m') /\ m' ⊆ m.
Proof.
  revert m coins. induction vin as [|txin vin IH]; intros m coins Hf Hd; inversion Hf as [|? coin ? coins' Hk Hf']; subst; cbn [spec_spend]; [eauto|].
  cbn [fmap list_fmap] in Hd. apply NoDup_cons in Hd as [Hn Hd]. rewrite Hk. cbn [mbind option_bind].
  destruct (IH (delete (prevout txin) m) coins') as (m' & -> & Hm'); [|done | cbn [option_bind]; exists m'; split; [done|]; etrans; [exact Hm' | apply delete_subseteq]].
  apply Forall2_same_length_lookup. pose proof (Forall2_length _ _ _ Hf') as Hlen. split; [done|]. intros i x y Hx Hy.
  rewrite lookup_delete_ne; [by apply (Forall2_lookup_lr _ _ _ _ _ _ Hf' Hx Hy)|]. intros E. apply Hn. rewrite E. apply list_elem_of_fmap_2. by eapply list_elem_of_lookup_2.
Qed.

Lemma spec_add_exists m txid i vout h cb : (forall n, i <= n -> m !! MkCOutPoint txid n = None) -> Forall (fun o => 0 <= nValue o) vout ->
  exists m', spec_add m txid i vout h cb = Some m' /\ forall k, op_hash k <> txid -> m' !! k = m !! k.
Proof.
  intros Hm Hf. revert m i Hm. induction Hf as [|out vout Ho Hf IH]; intros m i Hm; cbn [spec_add]; [eauto|].
  rewrite (proj2 (Z.eqb_neq _ _)) by lia. destruct (IsUnspendable _); [apply IH; intros n Hn; apply Hm; lia|].
  rewrite bool_decide_eq_false_2 by (rewrite Hm by lia; by intros [? [=]]). edestruct (IH (<[MkCOutPoint txid i := Coin_of out h cb]> m) (i + 1)) as (m' & E & Hm').
  - intros n Hn. rewrite lookup_insert_ne by (intros [=]; lia). apply Hm. lia.
  - exists m'. split; [done|]. intros k Hk. rewrite Hm' by done. apply lookup_insert_ne. by intros <-.
Qed.

(** no unspent coin has the id of one of the transactions, and no two of them have the
    same *)
Definition ids_new m (vtx : list CTransaction) : Prop :=
  NoDup (GetHash <$> vtx) /\ Forall (fun tx => forall n, m !! MkCOutPoint (GetHash tx) n = None) vtx.

Lemma spec_tx_exists m tx vtx h : ids_new m (tx :: vtx) -> inputs_distinct (vin tx) ∅ = true -> Forall (fun o => 0 <= nValue o) (vout tx) ->
  (IsCoinBase tx = false -> exists coins, Forall2 (fun txin coin => m !! prevout txin = Some coin) (vin tx) coins) ->
  exists u m', spec_tx m tx h = Some (u, m') /\ ids_new m' vtx.
Proof.
  intros [Hd Hf] Hdup Ho Hc. cbn [fmap list_fmap] in Hd. apply NoDup_cons in Hd as [Hn Hd]. apply Forall_cons in Hf as [Hid Hf].
  assert (exists u m1, (if IsCoinBase tx then Some ([], m) else spec_spend m (vin tx)) = Some (u, m1) /\ m1 ⊆ m) as (u & m1 & E1 & Hsub).
  { destruct (IsCoinBase tx); [eauto|]. destruct (Hc eq_refl) as [coins Hcoins]. destruct (spec_spend_exists m _ _ Hcoins (proj1 (inputs_distinct_NoDup _ _ Hdup))) as (m1 & E1 & Hs). eauto. }
  assert (Hm1 : forall k, m !! k = None -> m1 !! k = None) by (intros k Hk; by apply (lookup_weaken_None m1 m)).
  destruct (spec_add_exists m1 (GetHash tx) 0 (vout tx) h (IsCoinBase tx)) as (m' & E2 & Hm'); [intros n _; by apply Hm1 | done|].
  exists u, m'. unfold spec_tx. rewrite E1. cbn [mbind option_bind]. rewrite E2. split; [done|]. split; [done|].
  apply Forall_forall. intros tx' Hin n. rewrite Hm'; [apply Hm1, (proj1 (Forall_forall _ _) Hf tx' Hin)|]. cbn [op_hash]. intros E. apply Hn. rewrite <- E. by apply list_elem_of_fmap_2.
Qed.

Context {V : Type} `{!CCoinsView V} `{!CoinsViewLaws V}.

Lemma money_loop_total (c : CCoinsViewCache V) m vtx h nFees vtxundo m' nFees' vtxundo' c' :
  represents c m -> Forall (fun tx => zlen (vout tx) <= 2 ^ 32) vtx -> forallb (fun tx => negb (IsCoinBase tx)) vtx = true -> 0 <= nFees <= MAX_MONEY ->
  spec_txs m vtx h = Some (vtxundo, m') -> money_loop vtx c h nFees = Some (Accepted (nFees', vtxundo'), c') ->
  vtxundo' = vtxundo /\ represents c' m' /\ 0 <= nFees' <= MAX_MONEY /\ total m' <= total m - (nFees' - nFees).
Proof.
  intros Hr Hl. revert c m nFees vtxundo vtxundo' Hr. induction Hl as [|tx vtx Hl Hrest IH]; intros c m nFees vtxundo vtxundo' Hr; cbn [spec_txs money_loop forallb].
  { intros _ Hn [= <- <-] [= <- <- <-]. split; [done|]. split; [done | lia]. }
  intros [Hcb Hcbs]%andb_true_iff Hn. apply negb_true_iff in Hcb. destruct (spec_tx m tx h) as [[u m1]|] eqn:E; [|done]. cbn [mbind option_bind].
  destruct (spec_txs m1 vtx h) as [[us m2]|] eqn:Es; [|done]. cbn [mbind option_bind]. intros [= <- <-]. rewrite Hcb.
  destruct (CheckTxInputs tx c h) as [[[reason|txfee] c1]|] eqn:Ec; [done | | done]. cbn [mbind option_bind].
  pose proof (CheckTxInputs_spec c m tx h txfee Hr Hcb) as Hcheck. rewrite Ec in Hcheck. destruct Hcheck as [Hr1 Hp]. pose proof (proj1 Hp eq_refl) as Hpays.
  destruct (MoneyRange (i64 (nFees + txfee))) eqn:Em; [|done]. apply MoneyRange_spec in Em.
  assert (Hfee : 0 <= txfee <= MAX_MONEY) by (destruct Hpays as (coins & _ & _ & Hmax & Ho & Hf & Hsum); pose proof (sum_out_nonneg _ Ho); lia).
  pose proof MAX_MONEY_small. rewrite i64_small in Em |- * by (unfold is_i64; lia). destruct (UpdateCoins_refines c1 m tx h u m1 Hr1 Hl E) as (c2 & -> & Hr2). cbn [mbind option_bind].
  destruct (money_loop vtx c2 h (nFees + txfee)) as [[[reason|[f us']] c3]|] eqn:Ef; [done | | done]. cbn [mbind option_bind]. intros [= <- <- <-].
  destruct (IH c2 m1 (nFees + txfee) us us' Hr2 Hcbs Em Es Ef) as (-> & Hr3 & Hn' & Ht). pose proof (spec_tx_total m tx h txfee u m1 Hcb Hpays E).
  split; [done|]. split; [done|]. lia.
Qed.

Lemma money_loop_spec_txs (c : CCoinsViewCache V) m vtx h nFees nFees' vtxundo' c' :
  represents c m -> ids_new m vtx -> Forall (fun tx => zlen (vout tx) <= 2 ^ 32) vtx -> forallb (fun tx => negb (IsCoinBase tx)) vtx = true ->
  forallb (fun tx => inputs_distinct (vin tx) ∅) vtx = true -> money_loop vtx c h nFees = Some (Accepted (nFees', vtxundo'), c') ->
  exists vtxundo m', spec_txs m vtx h = Some (vtxundo, m').
Proof.
  intros Hr Hi Hl. revert c m nFees nFees' vtxundo' c' Hr Hi. induction Hl as [|tx vtx Hl Hrest IH]; intros c m nFees nFees' vtxundo' c' Hr Hi; cbn [spec_txs money_loop forallb]; [eauto|].
  intros [Hcb Hcbs]%andb_true_iff [Hd Hds]%andb_true_iff. apply negb_true_iff in Hcb. rewrite Hcb.
  destruct (CheckTxInputs tx c h) as [[[reason|txfee] c1]|] eqn:Ec; [done | | done]. cbn [mbind option_bind].
  pose proof (CheckTxInputs_spec c m tx h txfee Hr Hcb) as Hcheck. rewrite Ec in Hcheck. destruct Hcheck as [Hr1 Hp]. destruct (proj1 Hp eq_refl) as (coins & Hf & _ & _ & Ho & _).
  destruct (MoneyRange _); [|done]. destruct (spec_tx_exists m tx vtx h Hi Hd Ho ltac:(eauto)) as (u & m1 & E & Hi1). rewrite E. cbn [mbind option_bind].
  destruct (UpdateCoins_refines c1 m tx h u m1 Hr1 Hl E) as (c2 & -> & Hr2). cbn [mbind option_bind].
  destruct (money_loop vtx c2 h _) as [[[reason|[f us']] c3]|] eqn:Ef; [done | | done]. intros _.
  destruct (IH c2 m1 _ _ us' _ Hr2 Hi1 Hcbs Hds Ef) as (us & m' & ->). cbn [mbind option_bind]. eauto.
Qed.

Lemma ConnectMoney_spec_txs (c : CCoinsViewCache V) m vtx prevHeight hash interval start later undo c' :
  represents c m -> ids_new m vtx -> coinbase_first vtx = true -> Forall (fun tx => zlen (vout tx) <= 2 ^ 32) vtx ->
  forallb (fun tx => inputs_distinct (vin tx) ∅) vtx = true -> ConnectMoney vtx c prevHeight hash interval start later = Some (Accepted undo, c') ->
  exists vtxundo m', spec_txs m vtx (prevHeight + 1) = Some (vtxundo, m').
Proof.
  intros Hr Hi Hcb Hl Hd. destruct vtx as [|tx vtx]; [done|]. cbn [coinbase_first] in Hcb. apply andb_true_iff in Hcb as [Ht Hv]. apply andb_true_iff in Hd as [Hd Hds]. apply Forall_cons in Hl as [Hl0 Hl1].
  unfold ConnectMoney, IsBlockValueValid. cbn [spec_txs money_loop head]. rewrite Ht. cbn [mbind option_bind].
  destruct (GetValueOut tx) as [value|] eqn:Eo.
  2: { destruct (UpdateCoins tx c _) as [[u c1]|]; [|done]. cbn [mbind option_bind]. by destruct (money_loop vtx c1 _ _) as [[[|[]] ?]|]. }
  apply GetValueOut_spec in Eo as (Ho & _ & _). destruct (spec_tx_exists m tx vtx (prevHeight + 1) Hi Hd Ho) as (u & m1 & E & Hi1); [by rewrite Ht|]. rewrite E. cbn [mbind option_bind].
  destruct (UpdateCoins_refines c m tx (prevHeight + 1) u m1 Hr Hl0 E) as (c1 & -> & Hr1). cbn [mbind option_bind].
  destruct (money_loop vtx c1 (prevHeight + 1) 0) as [[[reason|[f us']] c2]|] eqn:Ef; [done | | done]. intros _.
  destruct (money_loop_spec_txs c1 m1 vtx _ _ _ _ _ Hr1 Hi1 Hl1 Hv Hds Ef) as (us & m' & ->). cbn [mbind option_bind]. eauto.
Qed.

Lemma ConnectMoney_total (c : CCoinsViewCache V) m vtx prevHeight hash interval start later vtxundo m' vtxundo' c' :
  represents c m -> coinbase_first vtx = true -> Forall (fun tx => zlen (vout tx) <= 2 ^ 32) vtx -> 0 <= GetBlockSubsidy interval prevHeight <= MAX_MONEY -> prevHeight + 1 < start ->
  spec_txs m vtx (prevHeight + 1) = Some (vtxundo, m') -> ConnectMoney vtx c prevHeight hash interval start later = Some (Accepted vtxundo', c') ->
  vtxundo' = tail vtxundo /\ represents c' m' /\ hashBlock c' = hash /\ total m' <= total m + GetBlockSubsidy interval prevHeight.
Proof.
  intros Hr Hcb Hl Hsub Hstart. destruct vtx as [|tx vtx]; [done|]. cbn [coinbase_first] in Hcb. apply andb_true_iff in Hcb as [Ht Hv]. inversion_clear Hl as [|? ? Hl0 Hl1].
  unfold ConnectMoney. cbn [spec_txs money_loop head]. rewrite Ht. cbn [mbind option_bind].
  destruct (spec_tx m tx (prevHeight + 1)) as [[u m1]|] eqn:E; [|done]. cbn [mbind option_bind]. destruct (spec_txs m1 vtx _) as [[us m2]|] eqn:Es; [|done]. cbn [mbind option_bind].
  intros [= <- <-]. destruct (UpdateCoins_refines c m tx (prevHeight + 1) u m1 Hr Hl0 E) as (c1 & -> & Hr1). cbn [mbind option_bind].
  destruct (money_loop vtx c1 (prevHeight + 1) 0) as [[[reason|[f us']] c2]|] eqn:Ef; [done | | done]. cbn [mbind option_bind].
  destruct (money_loop_total c1 m1 vtx (prevHeight + 1) 0 us m2 f us' c2 Hr1 Hl1 Hv) as (-> & Hr2 & Hn & Htot); [done.. |]. unfold IsBlockValueValid.
  destruct (GetValueOut tx) as [value|] eqn:Eo; [|done]. cbn [mbind option_bind]. rewrite (proj2 (Z.ltb_lt _ start)) by lia. destruct (Z.leb_spec value (i64 (f + GetBlockSubsidy interval prevHeight))) as [Hle|]; [|done].
  pose proof MAX_MONEY_small. rewrite i64_small in Hle by (unfold is_i64; lia). intros [= <- <-]. split; [done|]. split; [done|]. split; [done|].
  apply GetValueOut_spec in Eo as (Ho & -> & _). apply spec_tx_inv in E as (m0 & H1 & H2). rewrite Ht in H1. injection H1 as _ <-. apply spec_add_total in H2; [|done]. lia.
Qed.
End Worth.

(** ** The supply *)

(** the subsidies of the blocks above the first [n] heights *)
Fixpoint sum_subsidy (interval : Z) (n : nat) : Z :=
  match n with O => 0 | S n => sum_subsidy interval n + GetBlockSubsidy interval (Z.of_nat n) end.

(** the subsidies of one block of each of the first [q] epochs *)
Fixpoint epoch_sum (q : nat) : Z :=
  match q with O => 0 | S q => epoch_sum q + Z.shiftr (5000 * COIN) (Z.of_nat q) end.

(** [nSubsidyHalvingInterval] of the main network; no subsidy is left after 39 epochs *)
Definition main_interval : Z := 3200000.
Definition max_supply : Z := main_interval * epoch_sum 39.

Lemma subsidy_epoch q : 0 <= q -> Z.shiftr (5000 * COIN) q = 5000 * COIN / 2 ^ q.
Proof. intros Hq. by apply Z.shiftr_div_pow2. Qed.

Lemma subsidy_late q : 39 <= q -> Z.shiftr (5000 * COIN) q = 0.
Proof. intros Hq. rewrite subsidy_epoch by lia. apply Z.div_small. split; [done|]. apply Z.lt_le_trans with (2 ^ 39); [done | apply Z.pow_le_mono_r; lia]. Qed.

Lemma GetBlockSubsidy_epoch interval h : 0 <= h -> 0 < interval -> GetBlockSubsidy interval h = Z.shiftr (5000 * COIN) (h / interval).
Proof.
  intros Hh Hi. unfold GetBlockSubsidy. rewrite Z.quot_div_nonneg by lia. rewrite Z.geb_leb. destruct (Z.leb_spec 64 (h / interval)); [|done]. rewrite subsidy_late; lia.
Qed.

Lemma GetBlockSubsidy_bounds interval h : 0 <= h -> 0 < interval -> 0 <= GetBlockSubsidy interval h <= 5000 * COIN.
Proof.
  intros Hh Hi. assert (0 <= h / interval) by (apply Z.div_pos; lia). rewrite GetBlockSubsidy_epoch, subsidy_epoch by lia. assert (1 <= 2 ^ (h / interval)) by lia.
  split; [apply Z.div_pos; [done | lia]|]. apply Z.div_le_upper_bound; [lia|]. change (5000 * COIN) with 500000000000. nia.
Qed.

(** the sum up to a height, by whole epochs and what is left *)
Lemma sum_subsidy_epochs interval n q r : 0 < interval -> Z.of_nat n = interval * Z.of_nat q + r -> 0 <= r <= interval ->
  sum_subsidy interval n = interval * epoch_sum q + r * Z.shiftr (5000 * COIN) (Z.of_nat q).
Proof.
  intros Hi. revert q r. induction n as [|n IH]; intros q r En Hr; cbn [sum_subsidy].
  { assert (q = O) by nia. subst q. assert (r = 0) by lia. subst r. cbn [epoch_sum]. lia. }
  destruct (Z.eq_dec r 0) as [->|Hr0].
  - destruct q as [|q]; [lia|]. rewrite (IH q (interval - 1)) by lia. cbn [epoch_sum]. rewrite GetBlockSubsidy_epoch by lia.
    replace (Z.of_nat n / interval) with (Z.of_nat q) by (apply Z.div_unique with (interval - 1); lia). lia.
  - rewrite (IH q (r - 1)) by lia. rewrite GetBlockSubsidy_epoch by lia. replace (Z.of_nat n / interval) with (Z.of_nat q) by (apply Z.div_unique with (r - 1); lia). lia.
Qed.

Lemma epoch_sum_S q : epoch_sum (S q) = epoch_sum q + Z.shiftr (5000 * COIN) (Z.of_nat q).
Proof. done. Qed.

Lemma epoch_sum_step q : 0 <= Z.shiftr (5000 * COIN) (Z.of_nat q).
Proof. rewrite subsidy_epoch by lia. apply Z.div_pos; [done | lia]. Qed.

Lemma epoch_sum_mono q k : epoch_sum q <= epoch_sum (q + k).
Proof. induction k as [|k IH]; [rewrite Nat.add_0_r; lia|]. rewrite Nat.add_succ_r, epoch_sum_S. pose proof (epoch_sum_step (q + k)). lia. Qed.

Lemma epoch_sum_late k : epoch_sum (39 + k) = epoch_sum 39.
Proof. induction k as [|k IH]; [done|]. rewrite Nat.add_succ_r. rewrite epoch_sum_S, IH, subsidy_late by lia. lia. Qed.

Lemma epoch_sum_max q : epoch_sum q <= epoch_sum 39.
Proof. rewrite <- (epoch_sum_late q), Nat.add_comm. apply epoch_sum_mono. Qed.

Lemma sum_subsidy_max n : sum_subsidy main_interval n <= max_supply /\ (39 * main_interval <= Z.of_nat n -> sum_subsidy main_interval n = max_supply).
Proof.
  set (q := Z.to_nat (Z.of_nat n / main_interval)). set (r := Z.of_nat n mod main_interval). assert (Hi : 0 < main_interval) by done.
  pose proof (Z_div_mod_eq_full (Z.of_nat n) main_interval) as Ed. pose proof (Z.mod_pos_bound (Z.of_nat n) main_interval Hi) as Hm. fold r in Ed, Hm.
  assert (Hq : Z.of_nat q = Z.of_nat n / main_interval) by (apply Z2Nat.id, Z.div_pos; lia). rewrite (sum_subsidy_epochs main_interval n q r); [|done | by rewrite Hq | lia]. unfold max_supply. split.
  - pose proof (epoch_sum_max (S q)) as Hs. rewrite epoch_sum_S in Hs. pose proof (epoch_sum_step q). generalize dependent (epoch_sum 39). nia.
  - intros Hn. assert (39 <= Z.of_nat q) by (rewrite Hq; apply Z.div_le_lower_bound; lia). rewrite subsidy_late by lia. replace q with (39 + (q - 39))%nat by lia. rewrite epoch_sum_late. lia.
Qed.

(** blocks connected one after the other, each with its transactions and hash, from the
    block at [prevHeight] on.  Of the checks before [ConnectBlock] these are relied on:
    the first transaction and no other is a coinbase, no transaction has an input twice,
    and the size of a block bounds the number of outputs.  That the ids are new is what
    the height in the coinbase is for; [ConnectBlock] itself does not look. *)
Inductive chain_connects `{!ScriptHashes} {V} `{!CCoinsView V} `{!CoinsViewLaws V} (interval start : Z) (later : bool) :
    CCoinsViewCache V -> nat -> CCoinsViewCache V -> nat -> Prop :=
| chain_here c h : chain_connects interval start later c h c h
| chain_next c h vtx hash undo c1 c2 h2 :
    coinbase_first vtx = true -> forallb (fun tx => inputs_distinct (vin tx) ∅) vtx = true -> Forall (fun tx => zlen (vout tx) <= 2 ^ 32) vtx ->
    (forall m, represents c m -> ids_new m vtx) ->
    ConnectMoney vtx c (Z.of_nat h) hash interval start later = Some (Accepted undo, c1) ->
    chain_connects interval start later c1 (S h) c2 h2 ->
    chain_connects interval start later c h c2 h2.

Lemma chain_connects_total `{!ScriptHashes} {V} `{!CCoinsView V} `{!CoinsViewLaws V} interval start later (c : CCoinsViewCache V) m h c' h' :
  0 < interval -> chain_connects interval start later c h c' h' -> represents c m -> Z.of_nat h' < start ->
  exists m', represents c' m' /\ (h <= h')%nat /\ total m' <= total m + (sum_subsidy interval h' - sum_subsidy interval h).
Proof.
  intros Hi Hc. revert m. induction Hc as [c h|c h vtx hash undo c1 c2 h2 Hcb Hd Hl Hid Hm Hc IH]; intros m Hr Hstart; [exists m; split; [done | lia]|].
  assert (Hh2 : (S h <= h2)%nat) by (clear -Hc; induction Hc; lia). pose proof (GetBlockSubsidy_bounds interval (Z.of_nat h) ltac:(lia) Hi) as Hb.
  destruct (ConnectMoney_spec_txs c m vtx _ hash interval start later undo c1 Hr (Hid m Hr) Hcb Hl Hd Hm) as (vtxundo & m1 & Hs).
  destruct (ConnectMoney_total c m vtx (Z.of_nat h) hash interval start later vtxundo m1 undo c1 Hr Hcb Hl) as (_ & Hr1 & _ & Ht); [change (5000 * COIN) with 500000000000 in Hb; change MAX_MONEY with 2100000000000000000; lia | lia | done | done |].
  destruct (IH m1 Hr1 Hstart) as (m2 & Hr2 & Hle & Ht2). cbn [sum_subsidy] in Ht2. exists m2. split; [done | lia].
Qed.

(** ** Properties *)

(** C26: the value check of a transaction that is not a coinbase, on a view of a map of
    coins: it is accepted with a fee exactly when every input has a coin, the coins from
    coinbases are 100 blocks deep, no value is negative, the coins are not worth more
    than [MAX_MONEY] together, and they are worth what the outputs are plus the fee,
    which is not negative; the sums never wrap around, and the view still stands for the
    same coins.  It can fail otherwise only where [GetValueOut] throws. *)
Theorem CheckTxInputs_correct {V} `{!CCoinsView V} `{!CoinsViewLaws V} (c : CCoinsViewCache V) m tx h :
  represents c m -> IsCoinBase tx = false ->
  match CheckTxInputs tx c h with
  | None => GetValueOut tx = None
  | Some (r, c') => represents c' m /\ forall txfee, r = Accepted txfee <-> pays m tx h txfee
  end.
Proof.
  intros Hr Hcb. pose proof (fun txfee => CheckTxInputs_spec c m tx h txfee Hr Hcb) as H. destruct (CheckTxInputs tx c h) as [[r c']|]; [|exact (H 0)].
  split; [apply (H 0) | intros txfee; apply H].
Qed.

Lemma CheckTxInputs_correct_witness :
  match CheckTxInputs (sample_payment (replicate 32 1) 0 45) sample_stack 101 with
  | None => GetValueOut (sample_payment (replicate 32 1) 0 45) = None
  | Some (r, c') => represents c' sample_coins /\ forall txfee, r = Accepted txfee <-> pays sample_coins (sample_payment (replicate 32 1) 0 45) 101 txfee
  end.
Proof. apply (CheckTxInputs_correct sample_stack sample_coins); [exact sample_stack_ok | by vm_compute]. Defined.

(** C4: no inflation: however many blocks are connected with the halving interval of
    the main network, from a view of some coins at height [h] to height [h'] before the
    budget rules start, the coins are never worth more than before and the subsidies of
    the heights between; and from no coins at all, they are never worth more than
    [max_supply], the sum of all subsidies, which is below the 32 billion of the
    chain parameters' comment but above [MAX_MONEY].  The blocks are any that
    [ConnectMoney] accepts one after the other and that pass the checks made before it
    (a coinbase in the first place only, no transaction with the same input twice, at
    most 2^32 outputs); the one thing assumed is that transaction ids are new: no two in
    a block are the same, and none is that of an unspent coin. *)
Theorem supply_bounded `{!ScriptHashes} {V} `{!CCoinsView V} `{!CoinsViewLaws V} start later (c : CCoinsViewCache V) m h c' h' :
  represents c m -> Z.of_nat h' < start -> chain_connects main_interval start later c h c' h' ->
  exists m', represents c' m' /\ total m' <= total m + (sum_subsidy main_interval h' - sum_subsidy main_interval h) /\
  (m = ∅ -> h = O -> total m' <= max_supply) /\
  (39 * main_interval <= Z.of_nat h' -> sum_subsidy main_interval h' = max_supply) /\ MAX_MONEY < max_supply < 32000000000 * COIN.
Proof.
  intros Hr Hs Hc. destruct (chain_connects_total main_interval start later c m h c' h' ltac:(done) Hc Hr Hs) as (m' & Hr' & _ & Ht). destruct (sum_subsidy_max h') as [Hm Hl].
  exists m'. split; [done|]. split; [done|]. split; [|split; [done | by vm_compute]]. intros -> ->. change (total ∅) with 0 in Ht. cbn [sum_subsidy] in Ht. lia.
Qed.

(** the first block: its coinbase takes the whole subsidy *)
Definition sample_first_vtx : list CTransaction := [MkCTransaction 1 0 (vin sample_coinbase) [sample_out (5000 * COIN)] 0 []].
Definition sample_empty : CCoinsViewCache CCoinsViewDB := MkCCoinsViewCache (MkCCoinsViewDB ∅ (replicate 32 7) []) uint256_zero ∅.
Definition sample_first : option (verdict (list (list Coin)) * CCoinsViewCache CCoinsViewDB) :=
  @ConnectMoney sample_hashes _ _ sample_first_vtx sample_empty 0 (replicate 32 8) main_interval INT_MAX true.

Lemma supply_bounded_witness :
  exists c' m', sample_first = Some (Accepted [], c') /\ represents c' m' /\
    total m' <= total ∅ + (sum_subsidy main_interval 1 - sum_subsidy main_interval 0) /\ total m' <= max_supply.
Proof.
  destruct sample_first as [[[reason|undo] c']|] eqn:E; [vm_compute in E; discriminate E | | vm_compute in E; discriminate E]. exists c'.
  assert (undo = []) as -> by (vm_compute in E; congruence).
  destruct (@supply_bounded sample_hashes CCoinsViewDB _ _ INT_MAX true sample_empty ∅ 0 c' 1) as (m' & H1 & H2 & H3 & _).
  - split; [split; done | done].
  - done.
  - eapply (@chain_next sample_hashes CCoinsViewDB _ _ main_interval INT_MAX true sample_empty 0 sample_first_vtx (replicate 32 8)); [by vm_compute | by vm_compute | | | exact E | constructor].
    + apply Forall_cons; split; [vm_compute; discriminate | done].
    + intros m [_ Hm]. split; [apply NoDup_singleton|]. apply Forall_singleton. intros n. by rewrite <- Hm.
  - exists m'. split; [done|]. split; [done|]. split; [done|]. by apply H3.
Defined.
