(* ===== verification/Replay.v ===== *)
(** * Flushes that are cut short, and their replay (txdb.cpp, validation.cpp)

    [CCoinsViewDB::BatchWrite] writes a large flush in several batches.  The first one
    replaces the best block by the two heads of the transition, the last one sets the new
    best block, so a node that stops in between finds coins of which some belong to the
    old tip and some to the new one.  [ReplayBlocks] then disconnects the blocks from the
    old tip to the fork and applies the blocks from there to the new tip, without looking
    at what was already done.

    The theorem: whatever moment the process stops at, in the flush or in the flush of a
    replay, any number of times, the next start ends with the coins and the best block of
    the old tip or of the new one, and of the new one once the first batch was written.

    The size of a batch, which decides where it is cut, and the order in which the hash
    map is walked are arguments; a batch is atomic, as LevelDB promises.  The block and
    undo files are functions from the block index. *)

From S2P Require Import Chain ActiveChain.
From S2P Require Import Prelude Opcodes ScriptNum Script Interpreter Serialize Transaction Sighash AssetData Coins Utxo.
From stdpp Require Import gmap.
#[local] Open Scope Z_scope.

(** ** Batches *)

Inductive batch_op :=
| EraseBest
| WriteBest (h : uint256)
| EraseHeads
| WriteHeads (l : list uint256)
| EraseCoin (k : COutPoint)
| WriteCoin (k : COutPoint) (coin : Coin).

Definition apply_op (db : CCoinsViewDB) (op : batch_op) : CCoinsViewDB :=
  match op with
  | EraseBest => MkCCoinsViewDB (db_coins db) uint256_zero (db_heads db)
  | WriteBest h => MkCCoinsViewDB (db_coins db) h (db_heads db)
  | EraseHeads => MkCCoinsViewDB (db_coins db) (db_best db) []
  | WriteHeads l => MkCCoinsViewDB (db_coins db) (db_best db) l
  | EraseCoin k => MkCCoinsViewDB (delete k (db_coins db)) (db_best db) (db_heads db)
  | WriteCoin k coin => MkCCoinsViewDB (<[k := coin]> (db_coins db)) (db_best db) (db_heads db)
  end.

(** [db.WriteBatch(batch)] *)
Definition WriteBatch (db : CCoinsViewDB) (batch : list batch_op) : CCoinsViewDB := foldl apply_op db batch.

Definition entry_ops (it : COutPoint * CCoinsCacheEntry) : list batch_op :=
  if DIRTY it.2 then [if IsSpent (entry_coin it.2) then EraseCoin it.1 else WriteCoin it.1 (entry_coin it.2)] else [].

(** the loop of [BatchWrite]: the batches it writes and the one left at the end; [full]
    is [batch.SizeEstimate() > batch_size] *)
Fixpoint fill_batches (full : list batch_op -> bool) (batch : list batch_op) (mapCoins : entries) : list (list batch_op) * list batch_op :=
  match mapCoins with
  | [] => ([], batch)
  | it :: mapCoins =>
      let batch := batch ++ entry_ops it in
      if full batch then
        let '(written, rest) := fill_batches full [] mapCoins in (batch :: written, rest)
      else fill_batches full batch mapCoins
  end.

(** all batches of [BatchWrite], in order *)
Definition db_batches (full : list batch_op -> bool) (db : CCoinsViewDB) (mapCoins : entries) (hashBlock : uint256) : option (list (list batch_op)) :=
  if bool_decide (hashBlock = uint256_zero) then None
  else
    old_tip ← (if bool_decide (db_best db = uint256_zero) then
                 match db_heads db with
                 | [h0; h1] => if bool_decide (h0 = hashBlock) then Some h1 else None
                 | _ => Some (db_best db)
                 end
               else Some (db_best db));
    let '(written, rest) := fill_batches full [EraseBest; WriteHeads [hashBlock; old_tip]] mapCoins in
    Some (written ++ [rest ++ [EraseHeads; WriteBest hashBlock]]).

(** ** ReplayBlocks *)

(** [ReadBlockFromDisk] and [UndoReadFromDisk]; [None] when they fail *)
Record block_files := MkBlockFiles {
  ReadBlockFromDisk : ptr -> option (list CTransaction);
  UndoReadFromDisk : ptr -> option (list (list Coin));
}.

Section Replay.
Context `{!ScriptHashes} {V : Type} `{!CCoinsView V}.
Implicit Type c : CCoinsViewCache V.

Definition spend_all (vin : list CTxIn) c : CCoinsViewCache V := foldl (fun c txin => (SpendCoin c (prevout txin)).2) c vin.

(** the loop of [RollforwardBlock] *)
Fixpoint roll_txs (vtx : list CTransaction) c (h : Z) : option (CCoinsViewCache V) :=
  match vtx with
  | [] => Some c
  | tx :: vtx =>
      let c := if IsCoinBase tx then c else spend_all (vin tx) c in
      c ← AddCoins c tx h true;
      roll_txs vtx c h
  end.

Context (t : block_tree) (files : block_files).

(** the result is false when the block cannot be read *)
Definition RollforwardBlock (pindex : ptr) c : option (bool * CCoinsViewCache V) :=
  b ← index t !! pindex;
  match ReadBlockFromDisk files pindex with
  | None => Some (false, c)
  | Some vtx => c ← roll_txs vtx c (nHeight b); Some (true, c)
  end.

(** [DisconnectBlock], with the undo data read from its file *)
Definition DisconnectBlock (vtx : list CTransaction) (pindex : ptr) c : option (DisconnectResult * CCoinsViewCache V) :=
  b ← index t !! pindex;
  q ← pprev b;
  d ← index t !! q;
  match UndoReadFromDisk files pindex with
  | None => Some (DISCONNECT_FAILED, c)
  | Some vtxundo => DisconnectCoins vtx vtxundo c (nHeight b) (GetBlockHash d)
  end.

(** one turn of the loop that rolls back; the result is [None] for a null pointer or a
    failed assertion *)
Definition rollback_step (pindexFork : option ptr) (st : CCoinsViewCache V * option ptr) :
    CCoinsViewCache V * option ptr + option (bool * CCoinsViewCache V) :=
  let '(c, pindexOld) := st in
  if bool_decide (pindexOld = pindexFork) then inr (Some (true, c))
  else
    match pindexOld with
    | None => inr None
    | Some p =>
        match index t !! p with
        | None => inr None
        | Some b =>
            if nHeight b >? 0 then
              match ReadBlockFromDisk files p with
              | None => inr (Some (false, c))
              | Some vtx =>
                  match DisconnectBlock vtx p c with
                  | None => inr None
                  | Some (DISCONNECT_FAILED, c) => inr (Some (false, c))
                  | Some (_, c) => inl (c, pprev b)
                  end
              end
            else inl (c, pprev b)
        end
    end.

(** the loop that rolls forward: [n] blocks up to [pindexNew], the next one at [h] *)
Fixpoint roll_forward (n : nat) (pindexNew : ptr) (h : Z) c : option (bool * CCoinsViewCache V) :=
  match n with
  | O => Some (true, c)
  | S n =>
      pindex ← GetAncestor (index t) pindexNew h;
      p ← (pindex : option ptr);
      '(ok, c) ← RollforwardBlock p c;
      if (ok : bool) then roll_forward n pindexNew (h + 1) c else Some (false, c)
  end.

(** from the fork on: both loops, up to [SetBestBlock] *)
Definition replay_branches (pindexOld : option ptr) (pindexNew : ptr) (pindexFork : option ptr) c : option (bool * CCoinsViewCache V) :=
  new ← index t !! pindexNew;
  old_height ← match pindexOld with None => Some 0 | Some p => nHeight <$> index t !! p end;
  r ← while_loop (rollback_step pindexFork) (S (S (Z.to_nat old_height))) (c, pindexOld);
  '(ok, c) ← r;
  if negb (ok : bool) then Some (false, c)
  else
    nForkHeight ← match pindexFork with None => Some 0 | Some p => nHeight <$> index t !! p end;
    '(ok, c) ← roll_forward (Z.to_nat (nHeight new - nForkHeight)) pindexNew (nForkHeight + 1) c;
    if negb (ok : bool) then Some (false, c) else Some (true, SetBestBlock c (GetBlockHash new)).
End Replay.

Section ReplayDB.
Context `{!ScriptHashes} (t : block_tree) (files : block_files).

(** the cache that [ReplayBlocks] flushes at the end; the outer [None] is a failed
    assertion, [inl] an early return *)
Definition replay_cache (db : CCoinsViewDB) : option (bool + CCoinsViewCache CCoinsViewDB) :=
  let cache := MkCCoinsViewCache db uint256_zero ∅ in
  match db_heads db with
  | [] => Some (inl true)
  | [h0; h1] =>
      match mapBlockIndex t !! h0 with
      | None => Some (inl false)
      | Some pindexNew =>
          if bool_decide (h1 = uint256_zero) then
            '(ok, c) ← replay_branches t files None pindexNew None cache;
            Some (if (ok : bool) then inr c else inl false)
          else
            match mapBlockIndex t !! h1 with
            | None => Some (inl false)
            | Some pindexOld =>
                fork ← LastCommonAncestor (index t) pindexOld pindexNew;
                pindexFork ← (fork : option ptr);
                '(ok, c) ← replay_branches t files (Some pindexOld) pindexNew (Some pindexFork) cache;
                Some (if (ok : bool) then inr c else inl false)
            end
      end
  | _ => Some (inl false)
  end.

(** [ReplayBlocks]; [walk] gives the order in which the hash map is walked *)
Definition ReplayBlocks (walk : gmap COutPoint CCoinsCacheEntry -> entries) (db : CCoinsViewDB) : option (bool * CCoinsViewDB) :=
  r ← replay_cache db;
  match r with
  | inl ok => Some (ok, db)
  | inr c => c' ← returned (Flush c (walk (cacheCoins c))); Some (true, base c')
  end.
End ReplayDB.

(** ** Blocks as writes

    Disconnecting and rolling forward write to outpoints that do not depend on what is
    there. *)

Abbreviation writes := (list (COutPoint * option Coin)).

Definition apply_writes (m : gmap COutPoint Coin) (ws : writes) : gmap COutPoint Coin := foldl (fun m w => partial_alter (fun _ => w.2) w.1 m) m ws.

(** the last write to an outpoint *)
Definition touch (ws : writes) (k : COutPoint) : option (option Coin) := foldl (fun acc w => if decide (w.1 = k) then Some w.2 else acc) None ws.

Lemma apply_writes_lookup m ws k : apply_writes m ws !! k = match touch ws k with Some x => x | None => m !! k end.
Proof.
  induction ws as [|w ws IH] using rev_ind; [done|]. unfold apply_writes, touch in *. rewrite !foldl_app. cbn [foldl]. destruct (decide (w.1 = k)) as [<-|Hne].
  - apply lookup_partial_alter_eq.
  - by rewrite lookup_partial_alter_ne.
Qed.

Lemma apply_writes_app m ws ws' : apply_writes m (ws ++ ws') = apply_writes (apply_writes m ws) ws'.
Proof. apply foldl_app. Qed.

Lemma apply_writes_insert m k x ws : apply_writes m ((k, Some x) :: ws) = apply_writes (<[k := x]> m) ws.
Proof. done. Qed.

Lemma apply_writes_delete m k ws : apply_writes m ((k, None) :: ws) = apply_writes (delete k m) ws.
Proof. done. Qed.

(** every coin is that of one map or of the other *)
Definition mixed (m a b : gmap COutPoint Coin) : Prop := forall k, m !! k = a !! k \/ m !! k = b !! k.

Lemma mixed_writes m a b ws a' : mixed m a b -> apply_writes a ws = a' -> mixed (apply_writes m ws) a' b.
Proof. intros Hm <- k. rewrite !apply_writes_lookup. destruct (touch ws k); [by left | apply Hm]. Qed.

Lemma mixed_same m b : mixed m b b -> m = b.
Proof. intros Hm. apply map_eq. intros k. by destruct (Hm k). Qed.

Section BlockWrites.
Context `{!ScriptHashes}.

Fixpoint output_deletes (txid : uint256) (i : Z) (vout : list CTxOut) : writes :=
  match vout with
  | [] => []
  | out :: vout =>
      if IsUnspendable (scriptPubKey out) then output_deletes txid (i + 1) vout
      else (MkCOutPoint txid (u32 i), None) :: output_deletes txid (i + 1) vout
  end.

Fixpoint output_adds (txid : uint256) (i : Z) (vout : list CTxOut) (h : Z) (cb : bool) : writes :=
  match vout with
  | [] => []
  | out :: vout =>
      if IsUnspendable (scriptPubKey out) then output_adds txid (i + 1) vout h cb
      else (MkCOutPoint txid (u32 i), Some (Coin_of out h cb)) :: output_adds txid (i + 1) vout h cb
  end.

Definition restores (l : list (CTxIn * Coin)) : writes := map (fun x => (prevout x.1, Some x.2)) l.
Definition spends (vin : list CTxIn) : writes := map (fun txin => (prevout txin, None)) vin.

Definition back_tx (x : CTransaction * option (list Coin)) : writes :=
  output_deletes (GetHash x.1) 0 (vout x.1) ++ match x.2 with None => [] | Some us => restores (rev (zip (vin x.1) us)) end.
Definition fwd_tx (h : Z) (tx : CTransaction) : writes :=
  (if IsCoinBase tx then [] else spends (vin tx)) ++ output_adds (GetHash tx) 0 (vout tx) h (IsCoinBase tx).

Context {V : Type} `{!CCoinsView V} `{!CoinsViewLaws V}.
Implicit Type c : CCoinsViewCache V.

Lemma disconnect_outputs_writes c m txid i vout h cb b : represents c m ->
  exists b' c', disconnect_outputs c txid i vout h cb b = (b', c') /\ represents c' (apply_writes m (output_deletes txid i vout)).
Proof.
  revert c m i b. induction vout as [|out vout IH]; intros c m i b Hr; cbn [disconnect_outputs output_deletes]; [eauto|]. destruct (IsUnspendable _); [by apply IH|].
  destruct (represents_spend c m (MkCOutPoint txid (u32 i)) Hr) as (H1 & _). destruct (SpendCoin c _) as [r c1]. cbn [snd] in H1. rewrite apply_writes_delete. by apply IH.
Qed.

Lemma ApplyTxInUndo_writes c m k coin : represents c m -> coin_ok coin ->
  exists r c', ApplyTxInUndo coin c k = Some (r, c') /\ r <> DISCONNECT_FAILED /\ represents c' (<[k := coin]> m).
Proof.
  intros Hr (Hs & Hu & Hh). unfold ApplyTxInUndo. destruct (represents_have c m k Hr) as [H1 H2]. destruct (HaveCoin c k) as [have c1]. cbn [fst snd] in *. subst have.
  destruct (Z.eqb_spec (coin_nHeight coin) 0) as [|_]; [done|]. rewrite negb_involutive.
  destruct (represents_add c1 m k coin (bool_decide (is_Some (m !! k))) H2 Hs) as (c2 & -> & Hc2); [intros E _; apply bool_decide_eq_false in E; by apply eq_None_not_Some|].
  rewrite Hu in Hc2. cbn [returned mbind option_bind]. eexists _, c2. split; [done|]. split; [by destruct (bool_decide _) | done].
Qed.

Lemma restore_inputs_writes c m l b : represents c m -> Forall (fun x => coin_ok x.2) l ->
  exists b' c', restore_inputs l c b = Some (Some b', c') /\ represents c' (apply_writes m (restores l)).
Proof.
  intros Hr Hf. revert c m b Hr. induction Hf as [|[txin undo] l Hu Hf IH]; intros c m b Hr; cbn [restore_inputs restores map]; [eauto|]. cbn [fst snd] in *.
  destruct (ApplyTxInUndo_writes c m (prevout txin) undo Hr Hu) as (r & c1 & -> & Hn & Hr1). cbn [mbind option_bind].
  rewrite apply_writes_insert. fold (restores l). destruct r; [| |done]; by apply IH.
Qed.

(** undo data that can be applied *)
Definition undo_fits (x : CTransaction * option (list Coin)) : Prop :=
  match x.2 with None => True | Some us => length us = length (vin x.1) /\ Forall coin_ok us end.

Lemma disconnect_loop_writes c m l h b : represents c m -> Forall undo_fits l ->
  exists b' c', disconnect_loop l c h b = Some (Some b', c') /\ represents c' (apply_writes m (concat (map back_tx l))).
Proof.
  intros Hr Hf. revert c m b Hr. induction Hf as [|[tx us] l Hu Hf IH]; intros c m b Hr; cbn [disconnect_loop map concat]; [eauto|].
  destruct (disconnect_outputs_writes c m (GetHash tx) 0 (vout tx) h (IsCoinBase tx) b Hr) as (b1 & c1 & -> & Hr1). unfold back_tx at 1. cbn [fst snd].
  destruct us as [us|]; rewrite !apply_writes_app; [|by apply IH]. destruct Hu as [Hl Hc]. cbn [fst snd] in *. rewrite (proj2 (Nat.eqb_eq _ _) Hl). cbn [negb].
  destruct (restore_inputs_writes c1 _ (rev (zip (vin tx) us)) b1 Hr1) as (b2 & c2 & -> & Hr2).
  { apply Forall_rev. apply Forall_forall. intros [x u] Hin. apply elem_of_zip_r in Hin. by apply (proj1 (Forall_forall _ _) Hc). }
  cbn [mbind option_bind]. by apply IH.
Qed.

Lemma spend_all_writes c m vin : represents c m -> represents (spend_all vin c) (apply_writes m (spends vin)).
Proof.
  revert c m. induction vin as [|txin vin IH]; intros c m Hr; [done|]. unfold spend_all. cbn [foldl spends map]. rewrite apply_writes_delete. apply IH. by apply represents_spend.
Qed.

Lemma add_outputs_writes c m txid i vout h cb : represents c m -> Forall (fun out => nValue out <> -1) vout ->
  exists c', add_outputs c txid i vout h cb true = Some c' /\ represents c' (apply_writes m (output_adds txid i vout h cb)).
Proof.
  intros Hr Hf. revert c m i Hr. induction Hf as [|out vout Ho Hf IH]; intros c m i Hr; cbn [add_outputs output_adds]; [eauto|].
  destruct (represents_have c m (MkCOutPoint txid (u32 i)) Hr) as [H1 H2]. destruct (HaveCoin c _) as [have c1]. cbn [fst snd] in *. subst have.
  destruct (represents_add c1 m (MkCOutPoint txid (u32 i)) (Coin_of out h cb) (bool_decide (is_Some (m !! MkCOutPoint txid (u32 i)))) H2) as (c2 & -> & Hr2);
    [by apply Z.eqb_neq | intros E _; apply bool_decide_eq_false in E; by apply eq_None_not_Some|].
  cbn [Coin_of coin_out returned mbind option_bind] in *. destruct (IsUnspendable _); [|rewrite apply_writes_insert]; by apply IH.
Qed.

Lemma roll_txs_writes c m vtx h : represents c m -> Forall (fun tx => Forall (fun out => nValue out <> -1) (vout tx)) vtx ->
  exists c', roll_txs vtx c h = Some c' /\ represents c' (apply_writes m (concat (map (fwd_tx h) vtx))).
Proof.
  intros Hr Hf. revert c m Hr. induction Hf as [|tx vtx Ho Hf IH]; intros c m Hr; cbn [roll_txs map concat]; [eauto|]. unfold fwd_tx at 1. rewrite !apply_writes_app. unfold AddCoins.
  destruct (add_outputs_writes (if IsCoinBase tx then c else spend_all (vin tx) c) (apply_writes m (if IsCoinBase tx then [] else spends (vin tx))) (GetHash tx) 0 (vout tx) h (IsCoinBase tx)) as (c1 & -> & Hr1);
    [destruct (IsCoinBase tx); [done | by apply spend_all_writes] | done|]. cbn [mbind option_bind]. by apply IH.
Qed.
End BlockWrites.

(** ** The writes of a block that was connected *)

Lemma represents_fun {V} `{!CCoinsView V} `{!CoinsViewLaws V} (c : CCoinsViewCache V) m m' : represents c m -> represents c m' -> m = m'.
Proof. intros [_ H] [_ H']. apply map_eq. intros k. by rewrite <- H, <- H'. Qed.

Lemma db_represents m h hs : coins_ok m -> represents (MkCCoinsViewCache (MkCCoinsViewDB m h hs) uint256_zero ∅) m.
Proof. intros Hm. split; [|intros k; done]. split; [|done]. intros k coin Hk. by apply (Hm k coin). Qed.

Section Exact.
Context {SH : ScriptHashes}.

Lemma spec_txs_ok m vtx h us m' : spec_txs m vtx h = Some (us, m') -> 0 < h < 2 ^ 31 -> coins_ok m -> coins_ok m'.
Proof.
  intros Hs Hh. revert m us Hs. induction vtx as [|tx vtx IH]; intros m us; cbn [spec_txs]; [by intros [= _ <-]|]. destruct (spec_tx m tx h) as [[u m1]|] eqn:E; [|done].
  cbn [mbind option_bind]. destruct (spec_txs m1 vtx h) as [[us' m2]|] eqn:Es; [|done]. cbn [mbind option_bind]. intros [= _ <-] Hm. apply (IH m1 us' Es). by apply (spec_tx_ok m tx h u).
Qed.

Lemma undo_fits_all m vtx h us m' : spec_txs m vtx h = Some (us, m') -> Forall2 undo_ok vtx us ->
  Forall undo_fits (zip_with (fun tx u => (tx, undo_data tx u)) vtx us).
Proof.
  intros Hs Hf. revert m Hs. induction Hf as [|tx u vtx us (_ & _ & Hu & _) Hf IH]; intros m; cbn [spec_txs zip_with]; [done|]. destruct (spec_tx m tx h) as [[u' m1]|] eqn:E; [|done].
  cbn [mbind option_bind]. destruct (spec_txs m1 vtx h) as [[us' m2]|] eqn:Es; [|done]. cbn [mbind option_bind]. intros [= <- <- <-]. constructor; [|by apply (IH m1)].
  unfold undo_fits, undo_data. cbn [fst snd]. apply spec_tx_inv in E as (m0 & H1 & _). destruct (IsCoinBase tx); [done|]. split; [|done]. by apply spec_spend_length in H1.
Qed.

Lemma back_exact m vtx h us m' : spec_txs m vtx h = Some (us, m') -> coins_ok m -> Forall2 undo_ok vtx us -> 0 < h < 2 ^ 31 ->
  apply_writes m' (concat (map back_tx (rev (zip_with (fun tx u => (tx, undo_data tx u)) vtx us)))) = m.
Proof.
  intros Hs Hm Hf Hh. pose proof (db_represents m' [] [] (spec_txs_ok m vtx h us m' Hs Hh Hm)) as Hr. set (c := MkCCoinsViewCache _ _ _) in Hr.
  assert (Hl : Forall (fun tx => zlen (vout tx) <= 2 ^ 32) vtx) by (clear -Hf; induction Hf as [|? ? ? ? (_ & ? & _)]; by constructor).
  destruct (disconnect_loop_restores c m vtx h us m' [] Hr Hm Hl Hh Hs) as (c1 & E1 & Hr1). rewrite app_nil_r in E1. cbn [disconnect_loop] in E1.
  destruct (disconnect_loop_writes c m' (rev (zip_with (fun tx u => (tx, undo_data tx u)) vtx us)) h true Hr) as (b2 & c2 & E2 & Hr2); [apply Forall_rev; by apply (undo_fits_all m vtx h us m')|].
  rewrite E1 in E2. injection E2 as _ <-. by apply (represents_fun c1).
Qed.

Lemma spends_exact m vin us m' : spec_spend m vin = Some (us, m') -> apply_writes m (spends vin) = m'.
Proof.
  revert m us. induction vin as [|txin vin IH]; intros m us; cbn [spec_spend spends map]; [by intros [= _ <-]|]. destruct (m !! prevout txin); [|done]. cbn [mbind option_bind].
  destruct (spec_spend _ vin) as [[l m1]|] eqn:E; [|done]. cbn [mbind option_bind]. intros [= _ <-]. rewrite apply_writes_delete. by apply (IH _ l).
Qed.

Lemma output_adds_exact m txid i vout h cb m' : spec_add m txid i vout h cb = Some m' -> 0 <= i -> i + zlen vout <= 2 ^ 32 -> apply_writes m (output_adds txid i vout h cb) = m'.
Proof.
  revert m i. induction vout as [|out vout IH]; intros m i; cbn [spec_add output_adds]; [by intros [= <-]|]. destruct (_ =? _); [done|]. cbn [length]. intros Hs Hi Hl.
  destruct (IsUnspendable _); [apply IH; [done | lia | lia]|]. destruct (bool_decide _); [done|]. rewrite apply_writes_insert. assert (Hk : u32 i = i) by (apply Z.mod_small; lia). rewrite Hk.
  apply IH; [done | lia | lia].
Qed.

Lemma fwd_exact m vtx h us m' : spec_txs m vtx h = Some (us, m') -> Forall (fun tx => zlen (vout tx) <= 2 ^ 32) vtx -> apply_writes m (concat (map (fwd_tx h) vtx)) = m'.
Proof.
  intros Hs Hl. revert m us Hs. induction Hl as [|tx vtx Hl0 Hl IH]; intros m us; cbn [spec_txs map concat]; [by intros [= _ <-]|]. destruct (spec_tx m tx h) as [[u m1]|] eqn:E; [|done].
  cbn [mbind option_bind]. destruct (spec_txs m1 vtx h) as [[us' m2]|] eqn:Es; [|done]. cbn [mbind option_bind]. intros [= _ <-]. unfold fwd_tx at 1. rewrite !apply_writes_app.
  apply spec_tx_inv in E as (m0 & H1 & H2). replace (apply_writes m (if IsCoinBase tx then [] else spends (vin tx))) with m0.
  - rewrite (output_adds_exact m0 _ 0 _ _ _ m1 H2) by lia. by apply (IH m1 us').
  - destruct (IsCoinBase tx); [by injection H1 as _ <- | by apply spends_exact in H1].
Qed.
End Exact.

(** ** Replaying *)

(** the block at [p] was connected: it and its undo data are on disk, and [st] has the
    coins before and after it *)
Record applied {SH : ScriptHashes} (t : block_tree) (files : block_files) (st : ptr -> gmap COutPoint Coin) (p : ptr) (b : CBlockIndex) : Prop := {
  applied_block : exists q vtx vtxundo, pprev b = Some q /\ ReadBlockFromDisk files p = Some vtx /\ UndoReadFromDisk files p = Some vtxundo /\
    coinbase_first vtx = true /\ Forall2 undo_ok vtx ([] :: vtxundo) /\ coins_ok (st q) /\ spec_txs (st q) vtx (nHeight b) = Some ([] :: vtxundo, st p);
  applied_height : nHeight b < 2 ^ 31;
}.

Section Branches.
Context {SH : ScriptHashes} {V : Type} `{!CCoinsView V} `{!CoinsViewLaws V}.
Context (t : block_tree) (files : block_files) (st : ptr -> gmap COutPoint Coin) (Ht : store_ok (index t)).
Implicit Type c : CCoinsViewCache V.

Lemma DisconnectBlock_mixed c m p b q vtx new : index t !! p = Some b -> pprev b = Some q -> ReadBlockFromDisk files p = Some vtx -> applied t files st p b ->
  represents c m -> mixed m (st p) new ->
  exists r c' m', DisconnectBlock t files vtx p c = Some (r, c') /\ r <> DISCONNECT_FAILED /\ represents c' m' /\ mixed m' (st q) new.
Proof.
  intros Hp Eq Ev [(q' & vtx' & undo & Eq' & Ev' & Eu & Hcb & Hf & Hm & Hs) Hh] Hr Hmix. rewrite Eq in Eq'. injection Eq' as <-. rewrite Ev in Ev'. injection Ev' as <-.
  pose proof (parent_height _ p b Ht Hp) as Hpar. rewrite Eq in Hpar. destruct Hpar as (d & Hd & Ehd & Hnn). unfold DisconnectBlock. rewrite Hp. cbn [mbind option_bind]. rewrite Eq. cbn [mbind option_bind].
  rewrite Hd. cbn [mbind option_bind]. rewrite Eu. unfold DisconnectCoins. pose proof (spec_txs_length _ _ _ _ _ Hs) as Hlen. cbn [length] in Hlen. rewrite (proj2 (Nat.eqb_eq _ _)) by lia. cbn [negb].
  pose proof (undo_fits_all _ _ _ _ _ Hs Hf) as Hfits. pose proof (back_exact _ _ _ _ _ Hs Hm Hf ltac:(lia)) as Hback. destruct vtx as [|tx vtx]; [done|].
  cbn [coinbase_first] in Hcb. apply andb_true_iff in Hcb as [Htx Hv]. cbn [zip_with] in Hfits, Hback. unfold undo_data at 1 in Hfits. unfold undo_data at 1 in Hback. rewrite Htx in Hfits, Hback.
  change (zip (tx :: vtx) (None :: map Some undo)) with ((tx, None) :: zip vtx (map Some undo)). rewrite zip_undo_data by done.
  destruct (disconnect_loop_writes c m _ (nHeight b) true Hr (Forall_rev Hfits)) as (b' & c' & -> & Hr'). cbn [mbind option_bind]. eexists _, _, _. split; [reflexivity|]. split; [by destruct b'|].
  split; [exact Hr' | by apply (mixed_writes m (st p))].
Qed.

Lemma RollforwardBlock_mixed c m p b q new : index t !! p = Some b -> pprev b = Some q -> applied t files st p b -> represents c m -> mixed m (st q) new ->
  exists c' m', RollforwardBlock t files p c = Some (true, c') /\ represents c' m' /\ mixed m' (st p) new.
Proof.
  intros Hp Eq [(q' & vtx & undo & Eq' & Ev & Eu & Hcb & Hf & Hm & Hs) Hh] Hr Hmix. rewrite Eq in Eq'. injection Eq' as <-. unfold RollforwardBlock. rewrite Hp. cbn [mbind option_bind]. rewrite Ev.
  destruct (roll_txs_writes c m vtx (nHeight b) Hr) as (c' & -> & Hr').
  { clear -Hf. induction Hf as [|? ? ? ? (? & _)]; by constructor. }
  cbn [mbind option_bind]. eexists c', _. split; [done|]. split; [exact Hr'|]. apply (mixed_writes m (st q)); [done|]. apply (fwd_exact _ _ _ _ _ Hs).
  clear -Hf. induction Hf as [|? ? ? ? (_ & ? & _)]; by constructor.
Qed.

(** a branch above [f]: every block was connected *)
Definition branch_applied (p : ptr) (hf : Z) : Prop := forall h q b, ancestor (index t) p h q -> index t !! q = Some b -> hf < h -> applied t files st q b.

Lemma branch_parent p b q hf : index t !! p = Some b -> pprev b = Some q -> branch_applied p hf -> branch_applied q hf.
Proof.
  intros Hp Eq Hb h r d Hr. apply Hb. pose proof (parent_height _ p b Ht Hp) as Hpar. rewrite Eq in Hpar. destruct Hpar as (c & Hc & _).
  apply (ancestor_trans (index t) Ht p (nHeight c) q); [by apply (ancestor_parent (index t) Ht p b) | done].
Qed.

Lemma rollback_mixed f hf new n fuel p b c m : index t !! p = Some b -> nHeight b = hf + Z.of_nat n -> ancestor (index t) p hf f -> branch_applied p hf -> (n < fuel)%nat ->
  represents c m -> mixed m (st p) new ->
  exists c' m', while_loop (rollback_step t files (Some f)) fuel (c, Some p) = Some (Some (true, c')) /\ represents c' m' /\ mixed m' (st f) new.
Proof.
  revert fuel p b c m. induction n as [|n IH]; intros fuel p b c m Hp Hh Hf Hb Hfuel Hr Hmix; (destruct fuel as [|fuel]; [lia|]); cbn [while_loop rollback_step].
  { destruct Hf as (b' & Hp' & _ & Hu). rewrite Hp in Hp'. injection Hp' as <-. replace (Z.to_nat (nHeight b - hf)) with 0%nat in Hu by lia. injection Hu as <-.
    rewrite bool_decide_eq_true_2 by done. eauto. }
  destruct (ancestor_node _ Ht _ _ _ Hf) as (bf & Hbf & Ehf). pose proof (node_height _ _ (Ht f bf Hbf)) as Hnn. rewrite bool_decide_eq_false_2 by (intros [= ->]; rewrite Hp in Hbf; injection Hbf as <-; lia).
  rewrite Hp. rewrite (proj2 (Z.gtb_lt (nHeight b) 0)) by lia. assert (Ha : applied t files st p b) by (apply (Hb (nHeight b)); [by apply ancestor_refl | done | lia]).
  pose proof Ha as [(q & vtx & _ & Eq & Ev & _) _]. rewrite Ev. destruct (DisconnectBlock_mixed c m p b q vtx new Hp Eq Ev Ha Hr Hmix) as (r & c1 & m1 & -> & Hrf & Hr1 & Hmix1).
  pose proof (parent_height _ p b Ht Hp) as Hpar. rewrite Eq in Hpar. destruct Hpar as (d & Hd & Ehd & _).
  assert (Hf' : ancestor (index t) q hf f) by (apply (ancestor_between (index t) Ht p (nHeight d) q); [by apply (ancestor_parent (index t) Ht p b) | done | lia]).
  rewrite Eq. destruct r; [| |done]; (apply (IH fuel q d c1 m1); [done | lia | done | by apply (branch_parent p b) | lia | done | done]).
Qed.

Lemma roll_forward_mixed pnew bnew a n h c m : index t !! pnew = Some bnew -> nHeight bnew = h - 1 + Z.of_nat n -> 0 < h -> ancestor (index t) pnew (h - 1) a -> branch_applied pnew (h - 1) ->
  represents c m -> mixed m (st a) (st pnew) ->
  exists c' m', roll_forward t files n pnew h c = Some (true, c') /\ represents c' m' /\ mixed m' (st pnew) (st pnew).
Proof.
  intros Hp. revert a h c m. induction n as [|n IH]; intros a h c m Hh Hpos Ha Hb Hr Hmix; cbn [roll_forward].
  { assert (a = pnew) as ->; [|eauto]. destruct Ha as (b & Hp' & _ & Hu). rewrite Hp in Hp'. injection Hp' as <-. replace (Z.to_nat _) with 0%nat in Hu by lia. by injection Hu. }
  rewrite (GetAncestor_spec (index t) (index t) pnew bnew h) by done. rewrite (proj2 (orb_false_iff _ _)) by (rewrite Z.gtb_ltb; split; apply Z.ltb_ge; lia).
  destruct (up_height _ pnew bnew (Z.to_nat (nHeight bnew - h)) Ht Hp ltac:(lia)) as (p & b & Hu & Hpb & Ehb). rewrite Hu. cbn [mbind option_bind].
  assert (Han : ancestor (index t) pnew h p) by (exists bnew; split; [done|]; split; [lia | done]).
  pose proof (Hb h p b Han Hpb ltac:(lia)) as Happ. pose proof Happ as [(q & _ & _ & Eq & _) _]. pose proof (parent_height _ p b Ht Hpb) as Hpar. rewrite Eq in Hpar. destruct Hpar as (d & Hd & Ehd & _).
  assert (q = a) as ->. { apply (ancestor_fun (index t) pnew (h - 1)); [|done]. apply (ancestor_trans (index t) Ht pnew h p); [done|]. replace (h - 1) with (nHeight d) by lia. by apply (ancestor_parent (index t) Ht p b). }
  destruct (RollforwardBlock_mixed c m p b a (st pnew) Hpb Eq Happ Hr Hmix) as (c1 & m1 & -> & Hr1 & Hmix1). cbn [mbind option_bind].
  apply (IH p (h + 1) c1 m1); [lia | lia | by replace (h + 1 - 1) with h by lia | | done | done].
  intros h' q' b' Hq Hb' Hlt. apply (Hb h'); [done | done | lia].
Qed.
End Branches.

(** a database that is only read: the same coins, and the object stays the same *)
Program Definition read_only (db0 : CCoinsViewDB) : CoinsViewLaws CCoinsViewDB := {|
  coins db k := db_coins db !! k;
  view_ok db := db = db0 /\ forall k coin, db_coins db !! k = Some coin -> IsSpent coin = false;
  ready _ _ := False;
|}.
Next Obligation. intros db0 db k coin [_ Hdb]. apply Hdb. Qed.
Next Obligation. done. Qed.
Next Obligation. done. Qed.
Next Obligation. done. Qed.

Lemma read_only_represents db0 c m : @represents _ _ (read_only db0) c m -> represents c m /\ base c = db0.
Proof. intros [[[Hb Hdb] He] Hm]. split; [|exact Hb]. split; [|exact Hm]. split; [exact Hdb | exact He]. Qed.

(** ** Batches as prefixes *)

Lemma WriteBatch_app db a b : WriteBatch db (a ++ b) = WriteBatch (WriteBatch db a) b.
Proof. apply foldl_app. Qed.

Lemma WriteBatch_concat db bs : foldl WriteBatch db bs = WriteBatch db (concat bs).
Proof. revert db. induction bs as [|b bs IH]; intros db; [done|]. cbn [foldl concat]. by rewrite IH, WriteBatch_app. Qed.

Lemma WriteBatch_entries db l : WriteBatch db (concat (map entry_ops l)) = MkCCoinsViewDB (foldl db_write (db_coins db) l) (db_best db) (db_heads db).
Proof.
  revert db. induction l as [|[k e] l IH]; intros db; [by destruct db|]. cbn [map concat foldl]. rewrite WriteBatch_app, IH. unfold entry_ops, db_write. cbn [fst snd].
  by destruct (DIRTY e), (IsSpent (entry_coin e)).
Qed.

Lemma fill_batches_all full batch l : let r := fill_batches full batch l in concat r.1 ++ r.2 = batch ++ concat (map entry_ops l).
Proof.
  revert batch. induction l as [|it l IH]; intros batch; cbn [fill_batches map concat]; [by rewrite app_nil_r|]. destruct (full _).
  - specialize (IH []). destruct (fill_batches full [] l) as [ws rest]. cbn [fst snd concat] in *. by rewrite <- !app_assoc, IH.
  - rewrite IH. by rewrite <- app_assoc.
Qed.

(** what is written at some point is what belongs to a first part of the entries *)
Lemma fill_batches_prefix full batch l n : (0 < n <= length (fill_batches full batch l).1)%nat ->
  exists j, concat (take n (fill_batches full batch l).1) = batch ++ concat (map entry_ops (take j l)).
Proof.
  revert batch n. induction l as [|it l IH]; intros batch n; cbn [fill_batches]; [cbn; lia|]. destruct (full (batch ++ entry_ops it)).
  - specialize (IH []). destruct (fill_batches full [] l) as [ws rest]. cbn [fst length] in *. intros Hn. destruct n as [|n]; [lia|]. cbn [take concat]. destruct (decide (n = 0)%nat) as [->|].
    + exists 1%nat. cbn. by rewrite !app_nil_r.
    + destruct (IH n) as [j E]; [lia|]. exists (S j). rewrite E. cbn [take map concat app]. by rewrite <- app_assoc.
  - intros Hn. destruct (IH (batch ++ entry_ops it) n Hn) as [j E]. exists (S j). rewrite E. cbn [take map concat]. by rewrite <- app_assoc.
Qed.

Lemma written_prefix l f j k : NoDup l.*1 -> written (take j l) f k = f k \/ written (take j l) f k = written l f k.
Proof.
  intros Hnd. unfold written. destruct (list_to_map (take j l) !! k) as [e|] eqn:E; [|by left]. right. apply elem_of_list_to_map_2 in E.
  rewrite (elem_of_list_to_map_1 l k e Hnd); [done|]. apply elem_of_take in E as (i & Hi & _). by eapply list_elem_of_lookup_2.
Qed.

Section Recovery.
Context {SH : ScriptHashes} (t : block_tree) (files : block_files) (st : ptr -> gmap COutPoint Coin).
Context (Ht : tree_ok t).
Context (pnew : ptr) (bnew : CBlockIndex) (Hnew : index t !! pnew = Some bnew).
Context (old : option ptr).

(** the hash and the coins of the old tip; null and none before the first flush *)
Definition old_hash : uint256 := match old with None => uint256_zero | Some p => default uint256_zero (GetBlockHash <$> index t !! p) end.
Definition old_coins : gmap COutPoint Coin := match old with None => ∅ | Some p => st p end.

(** the blocks between the tips were connected; before the first flush, those above the
    first block, which makes no coins *)
Definition branches_applied : Prop :=
  match old with
  | None => branch_applied t files st pnew 0 /\ exists g, ancestor (index t) pnew 0 g /\ st g = ∅
  | Some p => is_Some (index t !! p) /\ old_hash <> uint256_zero /\ exists h f, common (index t) p pnew h f /\ branch_applied t files st p h /\ branch_applied t files st pnew h /\
      forall h' f', common (index t) p pnew h' f' -> h' <= h
  end.

Context (Hb : branches_applied) (Hh : GetBlockHash bnew <> uint256_zero).

(** a flush from the old tip to the new one that was cut short *)
Definition half_written (db : CCoinsViewDB) : Prop :=
  db_best db = uint256_zero /\ db_heads db = [GetBlockHash bnew; old_hash] /\ mixed (db_coins db) old_coins (st pnew) /\
  forall k coin, db_coins db !! k = Some coin -> IsSpent coin = false.

Lemma tree_lookup p b : index t !! p = Some b -> mapBlockIndex t !! GetBlockHash b = Some p.
Proof.
  intros Hp. apply (index_map t (tree_index t Ht)). exists b. split; [done|]. unfold GetBlockHash. by destruct (index_hash t (tree_index t Ht) p b Hp) as [h ->].
Qed.

Lemma replay_branches_mixed {V} `{!CCoinsView V} `{!CoinsViewLaws V} (c : CCoinsViewCache V) m f hf :
  represents c m -> mixed m old_coins (st pnew) ->
  match old with
  | None => f = None /\ hf = 0
  | Some p => exists g, f = Some g /\ common (index t) p pnew hf g /\ branch_applied t files st p hf /\ branch_applied t files st pnew hf
  end ->
  exists c', replay_branches t files old pnew f c = Some (true, c') /\ represents c' (st pnew) /\ hashBlock c' = GetBlockHash bnew.
Proof.
  intros Hr Hmix Hcase. unfold replay_branches. rewrite Hnew. cbn [mbind option_bind]. pose proof (tree_store t Ht) as Hs.
  assert (exists c1 m1 a, 0 <= hf <= nHeight bnew /\ match f with None => Some 0 | Some p => nHeight <$> index t !! p end = Some hf /\
    (old_height ← match old with None => Some 0 | Some p => nHeight <$> index t !! p end; while_loop (rollback_step t files f) (S (S (Z.to_nat old_height))) (c, old)) = Some (Some (true, c1)) /\
    represents c1 m1 /\ ancestor (index t) pnew hf a /\ branch_applied t files st pnew hf /\ mixed m1 (st a) (st pnew)) as (c1 & m1 & a & Hhf & Ehf & Ew & Hr1 & Ha & Hba & Hmix1).
  { unfold branches_applied in Hb. unfold old_coins in Hmix. destruct old as [p|].
    - destruct Hb as (Hp & _). destruct Hcase as (g & -> & [Hgp Hgn] & Hbp & Hbn). destruct Hp as [b Hp]. destruct (ancestor_node _ Hs _ _ _ Hgp) as (d & Hd & Ed).
      rewrite Hp, Hd. cbn [fmap option_fmap option_map mbind option_bind]. pose proof Hgp as (b' & Hp' & Hle & _). rewrite Hp in Hp'. injection Hp' as <-. pose proof Hgn as (bn & Hn' & Hln & _). rewrite Hnew in Hn'. injection Hn' as <-.
      destruct (rollback_mixed t files st Hs g hf (st pnew) (Z.to_nat (nHeight b - hf)) (S (S (Z.to_nat (nHeight b)))) p b c m Hp) as (c1 & m1 & E & Hr1 & Hm1); [lia | done | done | lia | done | done |].
      exists c1, m1, g. split; [lia|]. rewrite Ed. done.
    - destruct Hcase as [-> ->]. destruct Hb as (Hbn & g & Hg & Eg). exists c, m, g. pose proof (node_height _ _ (Hs pnew bnew Hnew)). rewrite Eg. done. }
  destruct (match old with None => Some 0 | Some p => nHeight <$> index t !! p end) as [oh|]; [|done]. cbn [mbind option_bind] in Ew |- *. rewrite Ew. cbn [mbind option_bind negb]. rewrite Ehf. cbn [mbind option_bind].
  destruct (roll_forward_mixed t files st Hs pnew bnew a (Z.to_nat (nHeight bnew - hf)) (hf + 1) c1 m1 Hnew) as (c2 & m2 & -> & Hr2 & Hm2); [lia | lia | by rewrite Z.add_simpl_r | by rewrite Z.add_simpl_r | done | done |].
  cbn [mbind option_bind negb]. apply mixed_same in Hm2. subst m2. eexists. split; [done|]. done.
Qed.

Lemma replay_cache_half db : half_written db ->
  exists c, replay_cache t files db = Some (inr c) /\ represents c (st pnew) /\ base c = db /\ hashBlock c = GetBlockHash bnew.
Proof.
  intros (Hbest & Hheads & Hmix & Hdb). unfold replay_cache. rewrite Hheads, (tree_lookup pnew bnew Hnew). set (c0 := MkCCoinsViewCache db uint256_zero ∅).
  assert (Hr0 : @represents _ _ (read_only db) c0 (db_coins db)) by (split; [split; [split; done | done] | done]).
  pose proof (fun f hf => @replay_branches_mixed _ _ (read_only db) c0 (db_coins db) f hf Hr0 Hmix) as Hrep. unfold branches_applied in Hb. unfold old_hash in *. destruct old as [p|].
  - destruct Hb as ([b Hp] & Hz & h & f & Hc & Hbp & Hbn & Hmax). rewrite Hp in Hz |- *. cbn [fmap option_fmap option_map default from_option id] in Hz |- *. rewrite bool_decide_eq_false_2 by done. rewrite (tree_lookup p b Hp).
    destruct (LastCommonAncestor_spec (index t) p pnew b bnew (tree_store t Ht) Hp Hnew) as (r & -> & Hlca). cbn [mbind option_bind].
    destruct r as [g|]; [|by destruct (Hlca h f)]. destruct Hlca as (hg & Hg & Hgmax). cbn [mbind option_bind]. assert (hg = h) as -> by (pose proof (Hmax hg g Hg); pose proof (Hgmax h f Hc); lia).
    destruct (Hrep (Some g) h) as (c & -> & Hr & Ehash); [by exists g|]. cbn [mbind option_bind]. apply read_only_represents in Hr as [Hr Ebase]. exists c. done.
  - rewrite bool_decide_eq_true_2 by done. destruct (Hrep None 0) as (c & -> & Hr & Ehash); [done|]. cbn [mbind option_bind]. apply read_only_represents in Hr as [Hr Ebase]. exists c. done.
Qed.

(** before the flush *)
Definition at_old (db : CCoinsViewDB) : Prop :=
  db_best db = old_hash /\ db_heads db = [] /\ db_coins db = old_coins /\ forall k coin, db_coins db !! k = Some coin -> IsSpent coin = false.

Definition at_new (db : CCoinsViewDB) : Prop := db_best db = GetBlockHash bnew /\ db_heads db = [] /\ db_coins db = st pnew.

(** the heads that the first batch writes *)
Lemma first_batch full db l bs : at_old db \/ half_written db -> db_batches full db l (GetBlockHash bnew) = Some bs ->
  let r := fill_batches full [EraseBest; WriteHeads [GetBlockHash bnew; old_hash]] l in bs = r.1 ++ [r.2 ++ [EraseHeads; WriteBest (GetBlockHash bnew)]].
Proof.
  intros Hdb. unfold db_batches. rewrite bool_decide_eq_false_2 by done. cbv zeta. intros H.
  assert (E : (if bool_decide (db_best db = uint256_zero) then match db_heads db with [h0; h1] => if bool_decide (h0 = GetBlockHash bnew) then Some h1 else None | _ => Some (db_best db) end
    else Some (db_best db)) = Some old_hash).
  { destruct Hdb as [(-> & -> & _) | (-> & -> & _)]; [by destruct (bool_decide (old_hash = uint256_zero))|]. by rewrite !bool_decide_eq_true_2 by done. }
  rewrite E in H. cbn [mbind option_bind] in H. destruct (fill_batches _ _ _) as [ws rest]. by injection H as <-.
Qed.

(** a flush of the new coins that stops after [n] batches *)
Lemma flush_cut full c order bs n : at_old (base c) \/ half_written (base c) -> represents c (st pnew) -> order ≡ₚ map_to_list (cacheCoins c) ->
  db_batches full (base c) order (GetBlockHash bnew) = Some bs ->
  let db := foldl WriteBatch (base c) (take n bs) in (n = O /\ db = base c) \/ half_written db \/ at_new db.
Proof.
  intros Hdb Hr Ho Hbs db. pose proof Hr as [Hc Hm]. destruct (order_ok c order Hc Ho) as [[Hnd _] Hw].
  assert (Hv : forall k coin, db_coins (base c) !! k = Some coin -> IsSpent coin = false) by (by destruct Hdb as [(_ & _ & _ & H) | (_ & _ & _ & H)]).
  assert (Hmix : mixed (db_coins (base c)) old_coins (st pnew)) by (destruct Hdb as [(_ & _ & -> & _) | (_ & _ & H & _)]; [by left | exact H]).
  destruct n as [|n]; [by left|]. right. subst db. rewrite WriteBatch_concat. pose proof (first_batch full (base c) order bs Hdb Hbs) as E. cbv zeta in E.
  set (first := [EraseBest; WriteHeads [GetBlockHash bnew; old_hash]]) in E. destruct (decide (S n <= length (fill_batches full first order).1)%nat) as [Hn|Hn].
  - left. subst bs. rewrite take_app_le by lia. destruct (fill_batches_prefix full first order (S n) ltac:(lia)) as [j ->]. rewrite WriteBatch_app, WriteBatch_entries.
    destruct (db_writes (take j order) (db_coins (base c))) as [H1 H2]; [rewrite fmap_take; apply (sublist_NoDup _ order.*1); [done | apply sublist_take] | done|].
    split; [done|]. split; [done|]. split; [|exact H1]. intros k. cbn [db_coins]. change (db_coins (WriteBatch (base c) first)) with (db_coins (base c)). rewrite H2.
    destruct (written_prefix order (fun k => db_coins (base c) !! k) j k Hnd) as [-> | ->]; [apply Hmix|]. right. rewrite <- Hm. apply Hw.
  - right. rewrite take_ge by (subst bs; rewrite length_app; cbn [length]; lia). subst bs. rewrite concat_app. cbn [concat]. rewrite app_nil_r, app_assoc.
    pose proof (fill_batches_all full first order) as Eall. cbv zeta in Eall. rewrite Eall, !WriteBatch_app, WriteBatch_entries.
    split; [done|]. split; [done|]. apply map_eq. intros k. cbn [WriteBatch foldl apply_op db_coins first]. destruct (db_writes order (db_coins (base c)) Hnd Hv) as [_ H2]. rewrite H2, <- Hm. apply Hw.
Qed.

(** what the disk can hold: a flush from the old tip to the new one, cut after some
    batches; or the flush of a replay of that, cut again *)
Inductive on_disk : CCoinsViewDB -> Prop :=
| disk_flush full c order bs n : at_old (base c) -> represents c (st pnew) -> hashBlock c = GetBlockHash bnew -> order ≡ₚ map_to_list (cacheCoins c) ->
    db_batches full (base c) order (hashBlock c) = Some bs -> on_disk (foldl WriteBatch (base c) (take n bs))
| disk_replay full db c order bs n : on_disk db -> replay_cache t files db = Some (inr c) -> order ≡ₚ map_to_list (cacheCoins c) ->
    db_batches full (base c) order (hashBlock c) = Some bs -> on_disk (foldl WriteBatch (base c) (take n bs)).

Lemma on_disk_cases db : on_disk db -> at_old db \/ half_written db \/ at_new db.
Proof.
  induction 1 as [full c order bs n Hold Hr Eh Ho Hbs | full db c order bs n _ IH Hc Ho Hbs].
  - rewrite Eh in Hbs. destruct (flush_cut full c order bs n (or_introl Hold) Hr Ho Hbs) as [[_ ->] | H]; [by left | by right].
  - destruct IH as [(_ & Hheads & _) | [Hhalf | (_ & Hheads & _)]]; [by unfold replay_cache in Hc; rewrite Hheads in Hc | | by unfold replay_cache in Hc; rewrite Hheads in Hc].
    destruct (replay_cache_half db Hhalf) as (c' & E & Hr & Eb & Eh). rewrite Hc in E. injection E as <-. rewrite Eh in Hbs.
    destruct (flush_cut full c order bs n) as [[_ ->] | H]; [rewrite Eb; by right | done | done | done | rewrite Eb; right; by left | by right].
Qed.

Lemma ReplayBlocks_half walk db : (forall m, walk m ≡ₚ map_to_list m) -> half_written db ->
  exists db', ReplayBlocks t files walk db = Some (true, db') /\ at_new db'.
Proof.
  intros Hwalk Hhalf. destruct (replay_cache_half db Hhalf) as (c & E & Hr & Eb & Eh). unfold ReplayBlocks. rewrite E. cbn [mbind option_bind].
  destruct Hhalf as (Hbest & Hheads & _ & Hdb). destruct (order_ok c (walk (cacheCoins c)) (proj1 Hr) (Hwalk _)) as [[Hnd _] Hw].
  unfold Flush. cbn [BatchWrite CCoinsViewDB_view]. unfold db_BatchWrite. rewrite Eb, Eh, Hbest, Hheads. rewrite bool_decide_eq_false_2 by done.
  rewrite !bool_decide_eq_true_2 by done. cbn [andb negb returned mbind option_bind base]. eexists. split; [done|]. split; [done|]. split; [done|]. cbn [db_coins].
  apply map_eq. intros k. destruct (db_writes (walk (cacheCoins c)) (db_coins db) Hnd Hdb) as [_ H2]. rewrite H2, <- (proj2 Hr). rewrite <- Eb. apply Hw.
Qed.
End Recovery.

(** written to the end, the batches do what Coins.v has [BatchWrite] do in one step *)
Lemma db_batches_complete full db l h bs : db_batches full db l h = Some bs -> db_BatchWrite db l h = Returned (foldl WriteBatch db bs).
Proof.
  unfold db_batches, db_BatchWrite. destruct (bool_decide (h = uint256_zero)); [done|]. rewrite WriteBatch_concat.
  destruct (if bool_decide (db_best db = uint256_zero) then _ else _) as [old_tip|] eqn:E; [|done]. cbn [mbind option_bind].
  pose proof (fill_batches_all full [EraseBest; WriteHeads [h; old_tip]] l) as Eall. cbv zeta in Eall. destruct (fill_batches _ _ _) as [ws rest]. cbn [fst snd] in Eall. intros [= <-].
  rewrite concat_app. cbn [concat]. rewrite app_nil_r, app_assoc, Eall, !WriteBatch_app, WriteBatch_entries.
  destruct (bool_decide (db_best db = uint256_zero)); cbn [andb]; [|done]. destruct (db_heads db) as [|h0 [|h1 [|]]]; try done. cbn [length head].
  destruct (bool_decide_reflect (h0 = h)) as [->|]; [|done]. by rewrite !bool_decide_eq_true_2.
Qed.

(** ** Property *)

(** C9: a flush from the coins of an old tip to those of a new one can be cut after any
    of its batches, and so can the flush of every replay that follows, any number of
    times, however the entries are ordered and cut into batches; if the blocks of both
    branches are on disk as they were connected, then the next [ReplayBlocks] returns
    true and leaves the best block and exactly the coins of the old tip or of the new
    one, and of the new one as soon as the heads of the transition were written. *)
Theorem crash_recovery {SH : ScriptHashes} t files st pnew bnew old walk db :
  tree_ok t -> index t !! pnew = Some bnew -> branches_applied t files st pnew old -> GetBlockHash bnew <> uint256_zero ->
  (forall m, walk m ≡ₚ map_to_list m) -> on_disk t files st pnew bnew old db ->
  exists db', ReplayBlocks t files walk db = Some (true, db') /\ (at_old t st old db' \/ at_new st pnew bnew db') /\
    (db_heads db <> [] -> at_new st pnew bnew db').
Proof.
  intros Ht Hnew Hb Hh Hwalk Hdisk. destruct (on_disk_cases t files st Ht pnew bnew Hnew old Hb Hh db Hdisk) as [Hold | [Hhalf | Hat]].
  - pose proof Hold as (_ & E & _). exists db. unfold ReplayBlocks, replay_cache. rewrite E. split; [done|]. split; [by left | done].
  - destruct (ReplayBlocks_half t files st Ht pnew bnew Hnew old Hb Hh walk db Hwalk Hhalf) as (db' & -> & Hat). exists db'. split; [done|]. split; [by right | done].
  - pose proof Hat as (_ & E & _). exists db. unfold ReplayBlocks, replay_cache. rewrite E. split; [done|]. split; [by right | done].
Qed.

(** a cache that holds everything *)
Definition all_dirty (old new : gmap COutPoint Coin) : gmap COutPoint CCoinsCacheEntry :=
  merge (fun o n => match n with
                    | Some coin => Some (MkCCoinsCacheEntry coin true false)
                    | None => (fun _ => MkCCoinsCacheEntry coinEmpty true false) <$> o
                    end) old new.

Lemma all_dirty_represents old new best heads h : coins_ok old -> coins_ok new -> represents (MkCCoinsViewCache (MkCCoinsViewDB old best heads) h (all_dirty old new)) new.
Proof.
  intros Ho Hn. split; [split|].
  - intros k coin Hk. by apply (Ho k coin).
  - intros k e. unfold all_dirty. cbn [cacheCoins]. rewrite lookup_merge. unfold diag_None. destruct (old !! k), (new !! k); cbn; intros [= <-]; done.
  - intros k. unfold cache_coins, all_dirty. cbn [cacheCoins base]. rewrite lookup_merge. unfold diag_None. destruct (new !! k) as [coin|] eqn:E.
    + assert (unspent coin = Some coin) as Hu by (apply unspent_id; by apply (Hn k coin)). by destruct (old !! k).
    + by destruct (old !! k) eqn:Eo; cbn; [|rewrite Eo].
Qed.

(** the old tip is block 5 and the new one block 8, both on block 4 of the sample tree *)
Definition sample_reward (n : Z) : CTransaction := MkCTransaction 1 0 (vin sample_coinbase) [sample_out n] 0 [].
Definition sample_files : block_files := MkBlockFiles
  (fun p => if decide (p = 5%positive) then Some [sample_reward 70] else if decide (p = 8%positive) then Some [sample_reward 80; sample_payment (replicate 32 1) 0 45] else None)
  (fun p => if decide (p = 5%positive) then Some [] else if decide (p = 8%positive) then Some [[Coin_of (sample_out 50) 1 true]] else None).
Definition sample_key (tx : CTransaction) : COutPoint := MkCOutPoint (@GetHash sample_hashes tx) 0.
Definition sample_states (p : ptr) : gmap COutPoint Coin :=
  if decide (p = 5%positive) then <[ sample_key (sample_reward 70) := Coin_of (sample_out 70) 4 true ]> sample_coins
  else if decide (p = 8%positive) then
    {[ sample_key (sample_reward 80) := Coin_of (sample_out 80) 4 true; sample_key (sample_payment (replicate 32 1) 0 45) := Coin_of (sample_out 45) 4 false ]}
  else sample_coins.

Lemma sample_lookup5 : index sample_tree !! 5%positive = Some (sample_block 5).
Proof. by vm_compute. Qed.
Lemma sample_lookup8 : index sample_tree !! 8%positive = Some (sample_block 8).
Proof. by vm_compute. Qed.

Lemma sample_connects5 : @spec_txs sample_hashes (sample_states 4) [sample_reward 70] (nHeight (sample_block 5)) = Some ([[]], sample_states 5).
Proof. vm_cast_no_check (eq_refl (Some ([[] : list Coin], sample_states 5))). Qed.
Lemma sample_connects8 : @spec_txs sample_hashes (sample_states 4) [sample_reward 80; sample_payment (replicate 32 1) 0 45] (nHeight (sample_block 8)) =
  Some ([[]; [Coin_of (sample_out 50) 1 true]], sample_states 8).
Proof. vm_cast_no_check (eq_refl (Some ([[]; [Coin_of (sample_out 50) 1 true]], sample_states 8))). Qed.

Lemma sample_coins_ok : coins_ok sample_coins.
Proof. intros k coin. unfold sample_coins, sample_db. cbn [db_coins]. intros [_ <-]%lookup_singleton_Some. done. Qed.

Lemma sample_applied5 : @applied sample_hashes sample_tree sample_files sample_states 5 (sample_block 5).
Proof.
  split; [|by vm_compute]. exists 4%positive, [sample_reward 70], []. split; [by vm_compute|]. split; [done|]. split; [done|]. split; [by vm_compute|].
  split; [|split; [exact sample_coins_ok | exact sample_connects5]]. apply Forall2_cons_2; [|done]. repeat split; [|vm_compute; discriminate | done]. apply Forall_cons; split; [discriminate | done].
Qed.

Lemma sample_applied8 : @applied sample_hashes sample_tree sample_files sample_states 8 (sample_block 8).
Proof.
  split; [|by vm_compute]. eexists 4%positive, _, _. split; [by vm_compute|]. split; [reflexivity|]. split; [reflexivity|]. split; [by vm_compute|].
  split; [|split; [exact sample_coins_ok | exact sample_connects8]]. apply Forall2_cons_2; [|apply Forall2_cons_2; [|done]]; (split; [apply Forall_cons; split; [discriminate | done]|]);
    (split; [vm_compute; discriminate|]); (split; [|by vm_compute]); [done|]. apply Forall_cons; split; [by vm_compute | done].
Qed.

(** the only block of either branch above block 4 *)
Lemma sample_above p : index sample_tree !! p = Some (sample_block p) -> nHeight (sample_block p) = 4 ->
  forall h q, ancestor (index sample_tree) p h q -> 3 < h -> h = 4 /\ q = p.
Proof.
  intros Hp Hh h q (b & Hp' & Hle & Hu) Hlt. rewrite Hp in Hp'. apply (inj Some) in Hp'. subst b. assert (h = 4) as -> by lia. rewrite Hh in Hu. apply (inj Some) in Hu. split; [reflexivity | symmetry; exact Hu].
Qed.

Lemma sample_branches : @branches_applied sample_hashes sample_tree sample_files sample_states 8 (Some 5%positive).
Proof.
  assert (E5 : nHeight (sample_block 5) = 4) by (by vm_compute). assert (E8 : nHeight (sample_block 8) = 4) by (by vm_compute).
  split; [exists (sample_block 5); exact sample_lookup5|]. split; [by vm_compute|]. exists 3, 4%positive. split; [split|split; [|split]].
  - exists (sample_block 5). split; [exact sample_lookup5|]. rewrite E5. split; [lia | by vm_compute].
  - exists (sample_block 8). split; [exact sample_lookup8|]. rewrite E8. split; [lia | by vm_compute].
  - intros h q b Hq Hb Hlt. destruct (sample_above 5 sample_lookup5 E5 h q Hq Hlt) as [_ ->]. rewrite sample_lookup5 in Hb. apply (inj Some) in Hb. subst b. exact sample_applied5.
  - intros h q b Hq Hb Hlt. destruct (sample_above 8 sample_lookup8 E8 h q Hq Hlt) as [_ ->]. rewrite sample_lookup8 in Hb. apply (inj Some) in Hb. subst b. exact sample_applied8.
  - intros h' f' [H5 H8]. destruct (Z_le_gt_dec h' 3) as [|Hgt]; [done|]. destruct (sample_above 5 sample_lookup5 E5 h' f' H5 ltac:(lia)) as [_ ->].
    destruct (sample_above 8 sample_lookup8 E8 h' 5%positive H8 ltac:(lia)) as [_ E]. discriminate E.
Qed.

(** the flush writes two operations and more at once, and stops after the first batch *)
Definition sample_full (batch : list batch_op) : bool := (2 <? length batch)%nat.
Definition sample_flushing : CCoinsViewCache CCoinsViewDB :=
  MkCCoinsViewCache (MkCCoinsViewDB (sample_states 5) (GetBlockHash (sample_block 5)) []) (GetBlockHash (sample_block 8)) (all_dirty (sample_states 5) (sample_states 8)).
Definition sample_batches : list (list batch_op) :=
  default [] (db_batches sample_full (base sample_flushing) (map_to_list (cacheCoins sample_flushing)) (hashBlock sample_flushing)).
Definition sample_cut : CCoinsViewDB := foldl WriteBatch (base sample_flushing) (take 1 sample_batches).

Lemma sample_batches_ok : db_batches sample_full (base sample_flushing) (map_to_list (cacheCoins sample_flushing)) (hashBlock sample_flushing) = Some sample_batches.
Proof. vm_cast_no_check (eq_refl (Some sample_batches)). Qed.

Lemma sample_states_ok p : coins_ok (sample_states p).
Proof.
  unfold sample_states. destruct (decide (p = 5%positive)); [|destruct (decide (p = 8%positive)); [|exact sample_coins_ok]].
  - apply map_Forall_insert_2; [by vm_compute | exact sample_coins_ok].
  - apply map_Forall_insert_2; [by vm_compute|]. intros k coin [_ <-]%lookup_singleton_Some. by vm_compute.
Qed.

Lemma crash_recovery_witness :
  db_heads sample_cut = [GetBlockHash (sample_block 8); GetBlockHash (sample_block 5)] /\
  exists db', @ReplayBlocks sample_hashes sample_tree sample_files map_to_list sample_cut = Some (true, db') /\ at_new sample_states 8 (sample_block 8) db'.
Proof.
  assert (db_heads sample_cut = [GetBlockHash (sample_block 8); GetBlockHash (sample_block 5)]) as Eh by (vm_cast_no_check (eq_refl (db_heads sample_cut))). split; [exact Eh|].
  destruct (@crash_recovery sample_hashes sample_tree sample_files sample_states 8 (sample_block 8) (Some 5%positive) map_to_list sample_cut) as (db' & E & _ & Hnew).
  - exact (reachable_ok _ sample_tree_reachable).
  - exact sample_lookup8.
  - exact sample_branches.
  - vm_compute. discriminate.
  - intros m. reflexivity.
  - apply (@disk_flush sample_hashes sample_tree sample_files sample_states 8 (sample_block 8) (Some 5%positive) sample_full sample_flushing (map_to_list (cacheCoins sample_flushing)) sample_batches 1).
    + split; [vm_cast_no_check (eq_refl (GetBlockHash (sample_block 5)))|]. split; [reflexivity|]. split; [reflexivity|]. intros k coin Hk. exact (proj1 (sample_states_ok 5 k coin Hk)).
    + apply all_dirty_represents; apply sample_states_ok.
    + reflexivity.
    + reflexivity.
    + exact sample_batches_ok.
  - exists db'. split; [exact E|]. apply Hnew. rewrite Eh. discriminate.
Defined.
