(* ===== verification/ProviderTx.v ===== *)
(** * Payloads of special transactions

    [evo/providertx.h], [evo/cbtx.h] and [llmq/quorums_commitment.h]: the records that
    transactions of version 3 carry in [vExtraPayload], their serialization (with the bit
    sets of [serialize.h] that commitments have), [GetTxPayload] and
    [SetTxPayload] of [evo/specialtx.h], and the wrapper of [bls/bls.h] around keys
    and signatures of the BLS library, which is the parameter [BLSLibrary].

    [codec] says that a reader and a writer are inverse to each other in both
    directions: what is written is read back, and a reader that accepts has
    consumed exactly the bytes the writer gives for the value. *)

From S2P Require Import Prelude ScriptNum Script PartialMerkle Serialize Transaction.
Open Scope Z_scope.

(** ** Keys and signatures *)

(** [InternalSetBuf] and [InternalGetBuf] of a class over the BLS library *)
Class BLSLibrary := {
  bls_impl : Type;
  InternalSetBuf : list Z -> option bls_impl;
  InternalGetBuf : bls_impl -> list Z;
}.

(** what is written has the size of the class *)
Class BLSLibraryLaws (B : BLSLibrary) (SerSize : nat) := {
  bls_size : forall k, length (InternalGetBuf k) = SerSize;
}.

Section BLSWrapper.
Context {B : BLSLibrary} (SerSize : nat).

(** [CBLSWrapper]: [None] when [fValid] is false *)
Definition CBLSWrapper : Type := option bls_impl.

(** [std::all_of(buf, buf + SerSize, c == 0)] *)
Definition all_zero (buf : list Z) : bool := forallb (Z.eqb 0) buf.

Definition SetBuf (buf : list Z) : CBLSWrapper :=
  if negb (Nat.eqb (length buf) SerSize) then None
  else if all_zero buf then None
  else InternalSetBuf buf.

Definition GetBuf (k : CBLSWrapper) : list Z :=
  match k with
  | None => replicate SerSize 0
  | Some k => InternalGetBuf k
  end.

Definition CheckMalleable (k : CBLSWrapper) (buf : list Z) : bool := bool_decide (buf = GetBuf k).

Definition Serialize_BLS (k : CBLSWrapper) : list Z := GetBuf k.

Definition Unserialize_BLS : parser CBLSWrapper :=
  buf ← read (Z.of_nat SerSize);
  let k := SetBuf buf in
  throw_if (negb (CheckMalleable k buf));;
  mret k.

End BLSWrapper.

(** ** Bit sets *)

(** [CFixedBitSet] over a vector of that size *)
Definition Serialize_FixedBitSet (vec : list bool) : list Z := bits_bytes (length vec) vec.
Definition Unserialize_FixedBitSet (size : Z) : parser (list bool) :=
  vBytes ← read ((size + 7) / 8);
  let vec := take (Z.to_nat size) (concat (map byte_bits vBytes)) in
  let rem := zlen vBytes * 8 - size in
  let m := Z.lnot (Z.shiftr 0xff rem) mod 2 ^ 8 in
  throw_if (negb (zlen vBytes * 8 =? size) && negb (Z.land (default 0 (last vBytes)) m =? 0));;
  mret vec.

(** [CDynamicBitSet] *)
Definition Serialize_DynamicBitSet (vec : list bool) : list Z := WriteCompactSize (zlen vec) ++ Serialize_FixedBitSet vec.
Definition Unserialize_DynamicBitSet : parser (list bool) := size ← ReadCompactSize; Unserialize_FixedBitSet size.

(** ** The records *)

(** a network address and a port in host order *)
Record CService := MkCService { ip : list Z; port : Z }.

Section Payloads.
(** the library's public keys (48 bytes) and signatures (96 bytes) *)
Context (PK SG : BLSLibrary).

Record CProRegTx := MkCProRegTx {
  reg_nVersion : Z; reg_nType : Z; reg_nMode : Z;
  collateralOutpoint : COutPoint;
  reg_addr : CService;
  keyIDOwner : list Z;
  reg_pubKeyOperator : @CBLSWrapper PK;
  reg_keyIDVoting : list Z;
  nOperatorReward : Z;
  reg_scriptPayout : script_bytes;
  reg_inputsHash : list Z;
  reg_vchSig : list Z;
}.

Record CProUpServTx := MkCProUpServTx {
  serv_nVersion : Z;
  serv_proTxHash : list Z;
  serv_addr : CService;
  scriptOperatorPayout : script_bytes;
  serv_inputsHash : list Z;
  serv_sig : @CBLSWrapper SG;
}.

Record CProUpRegTx := MkCProUpRegTx {
  upreg_nVersion : Z;
  upreg_proTxHash : list Z;
  upreg_nMode : Z;
  upreg_pubKeyOperator : @CBLSWrapper PK;
  upreg_keyIDVoting : list Z;
  upreg_scriptPayout : script_bytes;
  upreg_inputsHash : list Z;
  upreg_vchSig : list Z;
}.

Record CProUpRevTx := MkCProUpRevTx {
  rev_nVersion : Z;
  rev_proTxHash : list Z;
  nReason : Z;
  rev_inputsHash : list Z;
  rev_sig : @CBLSWrapper SG;
}.

(** [merkleRootQuorums] is in the stream from version 2 on *)
Record CCbTx := MkCCbTx {
  cb_nVersion : Z;
  cb_nHeight : Z;
  merkleRootMNList : list Z;
  merkleRootQuorums : list Z;
}.

Record CFutureTx := MkCFutureTx { fut_nVersion : Z; maturity : Z; lockOutputIndex : Z }.

(** [llmqType] is an enumeration over one byte *)
Record CFinalCommitment := MkCFinalCommitment {
  fc_nVersion : Z;
  llmqType : Z;
  quorumHash : list Z;
  signers : list bool;
  validMembers : list bool;
  quorumPublicKey : @CBLSWrapper PK;
  quorumVvecHash : list Z;
  quorumSig : @CBLSWrapper SG;
  membersSig : @CBLSWrapper SG;
}.

Record CFinalCommitmentTxPayload := MkCFinalCommitmentTxPayload {
  fcp_nVersion : Z;
  fcp_nHeight : Z;
  commitment : CFinalCommitment;
}.

(** ** Serialization *)

(** the port is in network byte order *)
Definition Serialize_CService (a : CService) : list Z := ip a ++ rev (ser_writedata16 (port a)).
Definition Unserialize_CService : parser CService :=
  i ← read 16; p ← read 2; mret (MkCService i (le_val (rev p))).

Definition Serialize_CProRegTx (p : CProRegTx) : list Z :=
  ser_writedata16 (reg_nVersion p) ++ ser_writedata16 (reg_nType p) ++ ser_writedata16 (reg_nMode p) ++
  Serialize_COutPoint (collateralOutpoint p) ++ Serialize_CService (reg_addr p) ++ keyIDOwner p ++
  Serialize_BLS 48 (reg_pubKeyOperator p) ++ reg_keyIDVoting p ++ ser_writedata16 (nOperatorReward p) ++
  Serialize_bytes (reg_scriptPayout p) ++ reg_inputsHash p ++ Serialize_bytes (reg_vchSig p).
Definition Unserialize_CProRegTx : parser CProRegTx :=
  v ← ser_readdata16; t ← ser_readdata16; m ← ser_readdata16;
  c ← Unserialize_COutPoint; a ← Unserialize_CService; o ← read 20;
  k ← @Unserialize_BLS PK 48; w ← read 20; r ← ser_readdata16;
  s ← Unserialize_bytes; h ← read 32; g ← Unserialize_bytes;
  mret (MkCProRegTx v t m c a o k w r s h g).

Definition Serialize_CProUpServTx (p : CProUpServTx) : list Z :=
  ser_writedata16 (serv_nVersion p) ++ serv_proTxHash p ++ Serialize_CService (serv_addr p) ++
  Serialize_bytes (scriptOperatorPayout p) ++ serv_inputsHash p ++ Serialize_BLS 96 (serv_sig p).
Definition Unserialize_CProUpServTx : parser CProUpServTx :=
  v ← ser_readdata16; x ← read 32; a ← Unserialize_CService;
  s ← Unserialize_bytes; h ← read 32; g ← @Unserialize_BLS SG 96;
  mret (MkCProUpServTx v x a s h g).

Definition Serialize_CProUpRegTx (p : CProUpRegTx) : list Z :=
  ser_writedata16 (upreg_nVersion p) ++ upreg_proTxHash p ++ ser_writedata16 (upreg_nMode p) ++
  Serialize_BLS 48 (upreg_pubKeyOperator p) ++ upreg_keyIDVoting p ++ Serialize_bytes (upreg_scriptPayout p) ++
  upreg_inputsHash p ++ Serialize_bytes (upreg_vchSig p).
Definition Unserialize_CProUpRegTx : parser CProUpRegTx :=
  v ← ser_readdata16; x ← read 32; m ← ser_readdata16; k ← @Unserialize_BLS PK 48; w ← read 20;
  s ← Unserialize_bytes; h ← read 32; g ← Unserialize_bytes;
  mret (MkCProUpRegTx v x m k w s h g).

Definition Serialize_CProUpRevTx (p : CProUpRevTx) : list Z :=
  ser_writedata16 (rev_nVersion p) ++ rev_proTxHash p ++ ser_writedata16 (nReason p) ++ rev_inputsHash p ++
  Serialize_BLS 96 (rev_sig p).
Definition Unserialize_CProUpRevTx : parser CProUpRevTx :=
  v ← ser_readdata16; x ← read 32; r ← ser_readdata16; h ← read 32; g ← @Unserialize_BLS SG 96;
  mret (MkCProUpRevTx v x r h g).

Definition Serialize_CCbTx (p : CCbTx) : list Z :=
  ser_writedata16 (cb_nVersion p) ++ ser_writedata32 (cb_nHeight p) ++ merkleRootMNList p ++
  (if 2 <=? cb_nVersion p then merkleRootQuorums p else []).
Definition Unserialize_CCbTx : parser CCbTx :=
  v ← ser_readdata16; n ← ser_readdata32; m ← read 32;
  q ← (if 2 <=? v then read 32 else mret (replicate 32 0));
  mret (MkCCbTx v (i32 n) m q).

Definition Serialize_CFutureTx (p : CFutureTx) : list Z :=
  ser_writedata16 (fut_nVersion p) ++ ser_writedata32 (maturity p) ++ ser_writedata16 (lockOutputIndex p).
Definition Unserialize_CFutureTx : parser CFutureTx :=
  v ← ser_readdata16; m ← ser_readdata32; i ← ser_readdata16; mret (MkCFutureTx v m i).

Definition Serialize_CFinalCommitment (p : CFinalCommitment) : list Z :=
  ser_writedata16 (fc_nVersion p) ++ ser_writedata8 (llmqType p) ++ quorumHash p ++
  Serialize_DynamicBitSet (signers p) ++ Serialize_DynamicBitSet (validMembers p) ++
  Serialize_BLS 48 (quorumPublicKey p) ++ quorumVvecHash p ++ Serialize_BLS 96 (quorumSig p) ++ Serialize_BLS 96 (membersSig p).
Definition Unserialize_CFinalCommitment : parser CFinalCommitment :=
  v ← ser_readdata16; t ← ser_readdata8; h ← read 32;
  a ← Unserialize_DynamicBitSet; b ← Unserialize_DynamicBitSet;
  k ← @Unserialize_BLS PK 48; w ← read 32; g ← @Unserialize_BLS SG 96; m ← @Unserialize_BLS SG 96;
  mret (MkCFinalCommitment v t h a b k w g m).

Definition Serialize_CFinalCommitmentTxPayload (p : CFinalCommitmentTxPayload) : list Z :=
  ser_writedata16 (fcp_nVersion p) ++ ser_writedata32 (fcp_nHeight p) ++ Serialize_CFinalCommitment (commitment p).
Definition Unserialize_CFinalCommitmentTxPayload : parser CFinalCommitmentTxPayload :=
  v ← ser_readdata16; n ← ser_readdata32; c ← Unserialize_CFinalCommitment; mret (MkCFinalCommitmentTxPayload v n c).

End Payloads.

(** [GetTxPayload]: an exception of the stream, or bytes left over, give [false] *)
Definition GetTxPayload {A} (p : parser A) (payload : list Z) : option A :=
  match p payload with
  | Some (obj, []) => Some obj
  | _ => None
  end.

Definition SetTxPayload {A} (ser : A -> list Z) (obj : A) : list Z := ser obj.

(** ** Readers and writers that are inverse to each other *)

Definition codec {A} (ok : A -> Prop) (ser : A -> list Z) (p : parser A) : Prop :=
  (forall a s, ok a -> p (ser a ++ s) = Some (a, s)) /\
  (forall s a s', bytes s -> p s = Some (a, s') -> s = ser a ++ s' /\ ok a).

Lemma codec_read n : 0 <= n -> codec (fun l => zlen l = n /\ bytes l) id (read n).
Proof.
  intros Hn. split.
  - intros a s [<- _]. apply read_app.
  - intros s a s' Hs H. apply read_inv in H as [-> Hl]; [|done]. apply Forall_app in Hs as [Ha _]. done.
Qed.

Lemma codec_le n : codec (fun x => 0 <= x < 256 ^ Z.of_nat n) (le_bytes n) (b ← read (Z.of_nat n); mret (le_val b)).
Proof.
  split.
  - intros a s Ha. by apply read_le_write.
  - intros s a s' Hs H. apply read_le_inv in H as (-> & Ha & _); done.
Qed.

Lemma codec_u8 : codec (fun x => 0 <= x < 256) ser_writedata8 ser_readdata8.
Proof. exact (codec_le 1). Qed.
Lemma codec_u16 : codec (fun x => 0 <= x < 65536) ser_writedata16 ser_readdata16.
Proof. exact (codec_le 2). Qed.
Lemma codec_u32 : codec is_u32 ser_writedata32 ser_readdata32.
Proof. exact (codec_le 4). Qed.

Lemma read_blocks_inv fuel : forall n s a s', 0 <= n -> read_blocks fuel n s = Some (a, s') -> s = a ++ s' /\ zlen a = n.
Proof.
  induction fuel as [|fuel IH]; intros n s a s' Hn H; [done|]. cbn [read_blocks] in H.
  destruct (Z.leb_spec n 0); [injection H as <- <-; split; [done | cbn; lia]|].
  apply parser_bind_Some in H as (b & s1 & H1 & H). apply parser_bind_Some in H as (r & s2 & H2 & H).
  injection H as <- <-. apply read_inv in H1 as [-> Hb]; [|lia]. apply IH in H2 as [-> Hr]; [|lia].
  rewrite app_assoc, length_app. split; [done | lia].
Qed.

Lemma codec_bytes : codec (fun v => zlen v <= MAX_SIZE /\ bytes v) Serialize_bytes Unserialize_bytes.
Proof.
  split.
  - intros a s [Ha _]. by apply Unserialize_bytes_app.
  - intros s a s' Hs H. apply parser_bind_Some in H as (n & s1 & H1 & H).
    apply ReadCompactSize_inv in H1 as [Hn ->]; [|done]. apply Forall_app in Hs as [_ Hs].
    apply read_blocks_inv in H as [-> Hl]; [|lia]. apply Forall_app in Hs as [Ha _].
    unfold Serialize_bytes. rewrite Hl, app_assoc. split; [done|]. split; [lia | done].
Qed.

Lemma bytes_app_r a s : bytes (a ++ s) -> bytes s.
Proof. intros H. by apply Forall_app in H as [_ H]. Qed.

Ltac put_field C := erewrite parser_bind_eq; [|apply (proj1 C); solve [done | split; done]].
Ltac get_field C H x Hx :=
  let s := fresh "s" in let E := fresh "E" in
  apply parser_bind_Some in H as (x & s & E & H); apply (proj2 C) in E as [-> Hx];
  [| solve [eauto 20 using bytes_app_r]].

Lemma codec_COutPoint : codec (fun o => (zlen (op_hash o) = 32 /\ bytes (op_hash o)) /\ is_u32 (op_n o))
  Serialize_COutPoint Unserialize_COutPoint.
Proof.
  split.
  - intros [h n] s [[Hh Hb] Hn]. cbn [op_hash op_n] in *. unfold Unserialize_COutPoint, Serialize_COutPoint. cbn [op_hash op_n].
    rewrite <- app_assoc. put_field (codec_read 32 ltac:(lia)). put_field codec_u32. done.
  - intros s a s' Hs H. unfold Unserialize_COutPoint in H.
    get_field (codec_read 32 ltac:(lia)) H h Hh. get_field codec_u32 H n Hn. injection H as <- <-.
    unfold Serialize_COutPoint. cbn [op_hash op_n]. rewrite <- app_assoc. done.
Qed.

Lemma codec_CService : codec (fun a => (zlen (ip a) = 16 /\ bytes (ip a)) /\ 0 <= port a < 65536)
  Serialize_CService Unserialize_CService.
Proof.
  split.
  - intros [i p] s [[Hi Hb] Hp]. cbn [ip port] in *. unfold Unserialize_CService, Serialize_CService. cbn [ip port].
    rewrite <- app_assoc. put_field (codec_read 16 ltac:(lia)).
    erewrite parser_bind_eq; [|apply (read_app (rev (ser_writedata16 p)))].
    unfold ser_writedata16. rewrite rev_involutive, le_val_le_bytes, Z.mod_small by (cbn; lia). done.
  - intros s a s' Hs H. unfold Unserialize_CService in H.
    get_field (codec_read 16 ltac:(lia)) H i Hi. get_field (codec_read 2 ltac:(lia)) H p Hp. injection H as <- <-.
    unfold Serialize_CService, ser_writedata16. cbn [ip port]. destruct Hp as [Hl Hb].
    assert (Hr : length (rev p) = 2%nat) by (rewrite length_rev; lia).
    rewrite <- Hr, le_bytes_le_val, rev_involutive, <- app_assoc by (by apply Forall_rev).
    split; [done|]. split; [done|]. pose proof (le_val_range (rev p) (Forall_rev Hb)). rewrite Hr in *. cbn in *. lia.
Qed.

(** ** Bit sets: the check for bits out of range makes the reader exact *)

Lemma bits_byte_range l : 0 <= bits_byte l < 2 ^ zlen l.
Proof.
  induction l as [|b l IH]; [done|]. cbn [bits_byte length]. rewrite Nat2Z.inj_succ, Z.pow_succ_r by lia. destruct b; cbn [Z.b2z]; lia.
Qed.

(** the bits above the first [r] are those of the mask *)
Lemma high_bits r b : (1 <= r <= 8)%nat -> is_u8 b ->
  Z.land b (Z.lnot (Z.shiftr 0xff (Z.of_nat (8 - r))) mod 2 ^ 8) = 0 <-> bits_byte (take r (byte_bits b)) = b.
Proof.
  intros Hr Hb.
  assert (E : forallb (fun r => forallb (fun b => Bool.eqb (Z.land (Z.of_nat b) (Z.lnot (Z.shiftr 0xff (Z.of_nat (8 - r))) mod 2 ^ 8) =? 0)
    (bits_byte (take r (byte_bits (Z.of_nat b))) =? Z.of_nat b)) (seq 0 256)) (seq 1 8) = true) by (vm_compute; reflexivity).
  rewrite forallb_forall in E. specialize (E r ltac:(apply in_seq; lia)). rewrite forallb_forall in E.
  specialize (E (Z.to_nat b) ltac:(apply in_seq; unfold is_u8 in Hb; lia)). rewrite Z2Nat.id in E by (unfold is_u8 in Hb; lia).
  apply Bool.eqb_prop in E. rewrite <- !Z.eqb_eq. by rewrite E.
Qed.

Lemma byte_bits_back b : is_u8 b -> bits_byte (byte_bits b) = b.
Proof. intros Hb. apply (proj1 (high_bits 8 b ltac:(lia) Hb)). cbn. by rewrite Z.land_0_r. Qed.

Lemma bits_bytes_cons fuel l : l <> [] -> bits_bytes (S fuel) l = bits_byte (take 8 l) :: bits_bytes fuel (drop 8 l).
Proof. by destruct l. Qed.

Lemma bits_bytes_nil fuel : bits_bytes fuel [] = [].
Proof. by destruct fuel. Qed.

Lemma bits_bytes_u8 fuel : forall l, bytes (bits_bytes fuel l).
Proof.
  induction fuel as [|fuel IH]; intros [|b l]; cbn [bits_bytes]; try constructor; [|apply IH].
  pose proof (bits_byte_range (take 8 (b :: l))) as Hr. rewrite length_take in Hr.
  assert (2 ^ Z.of_nat (8 `min` length (b :: l)) <= 2 ^ 8) by (apply Z.pow_le_mono_r; lia). unfold is_u8. lia.
Qed.

(** packing the first bits of some bytes gives the bytes when the rest are zero *)
Lemma repack k vBytes : (k < 8)%nat -> bytes vBytes -> forall size fuel, (8 * length vBytes = size + k)%nat -> (size <= fuel)%nat ->
  bits_bytes fuel (take size (concat (map byte_bits vBytes))) = vBytes <->
  Z.land (default 0 (last vBytes)) (Z.lnot (Z.shiftr 0xff (Z.of_nat k)) mod 2 ^ 8) = 0.
Proof.
  intros Hk Hb. induction Hb as [|b rest Hb Hrest IH]; intros size fuel Es Hf; cbn [map concat length] in *.
  { rewrite take_nil, bits_bytes_nil. by rewrite Z.land_0_l. }
  assert (Hlen : length (byte_bits b) = 8%nat) by done. destruct fuel as [|fuel]; [lia|].
  rewrite bits_bytes_cons by (intros E%(f_equal length); rewrite length_take, length_app, Hlen in E; cbn in E; lia).
  destruct rest as [|b' rest].
  - cbn [map concat last default]. rewrite app_nil_r, drop_ge, bits_bytes_nil, (take_ge (take size _)) by (rewrite length_take, Hlen; cbn in Es; lia).
    cbn in Es. replace k with (8 - size)%nat by lia. rewrite high_bits by (done || lia). split; [by intros [=] |]. intros E. by f_equal.
  - cbn [length] in Es. rewrite take_app_ge by lia. rewrite Hlen, take_app_length', drop_app_length' by done. rewrite byte_bits_back by done.
    rewrite <- (IH (size - 8)%nat fuel) by (cbn [length]; lia). split; [intros E; exact (f_equal tail E) | intros E; by rewrite E].
Qed.

Lemma byte_bits_length v : length (concat (map byte_bits v)) = (8 * length v)%nat.
Proof. induction v as [|b v IH]; [done|]. cbn [map concat length]. rewrite length_app, IH. cbn [byte_bits map length seq]. lia. Qed.

Lemma codec_FixedBitSet size : 0 <= size -> codec (fun vec => zlen vec = size) Serialize_FixedBitSet (Unserialize_FixedBitSet size).
Proof.
  intros Hsize. split.
  - intros vec s <-. unfold Unserialize_FixedBitSet, Serialize_FixedBitSet.
    destruct (bits_bytes_spec (length vec) vec (le_n _)) as (k & Hk & Elen & Ebits). set (v := bits_bytes (length vec) vec) in *.
    replace ((zlen vec + 7) / 8) with (zlen v) by (apply Z.div_unique with (7 - Z.of_nat k); lia).
    erewrite parser_bind_eq; [|apply read_app]. cbv zeta.
    assert (Hv : take (length vec) (concat (map byte_bits v)) = vec) by (rewrite Ebits; by apply take_app_length').
    rewrite Nat2Z.id, Hv, throw_if_pass; [done|].
    replace (zlen v * 8 - zlen vec) with (Z.of_nat k) by lia.
    rewrite (proj1 (repack k v Hk (bits_bytes_u8 _ _) (length vec) (length vec) ltac:(lia) ltac:(lia))); [by rewrite andb_false_r | by rewrite Hv].
  - intros s vec s' Hs H. unfold Unserialize_FixedBitSet in H.
    assert (Hq : 0 <= (size + 7) / 8) by (apply Z.div_pos; lia). get_field (codec_read ((size + 7) / 8) Hq) H v Hv. destruct Hv as [Hl Hv].
    apply throw_if_inv in H as [Hc H]. injection H as <- <-.
    pose proof (Z_div_mod_eq_full (size + 7) 8) as Ed. pose proof (Z.mod_pos_bound (size + 7) 8 ltac:(lia)) as Hm. rewrite <- Hl in Ed.
    assert (exists k, (8 * length v = Z.to_nat size + k /\ k < 8)%nat) as (k & Ek & Hk) by (exists (8 * length v - Z.to_nat size)%nat; lia).
    assert (Hlen : length (take (Z.to_nat size) (concat (map byte_bits v))) = Z.to_nat size).
    { rewrite length_take, byte_bits_length. lia. }
    unfold Serialize_FixedBitSet. rewrite Hlen. rewrite (proj2 (repack k v Hk Hv (Z.to_nat size) (Z.to_nat size) Ek ltac:(lia))); [split; [done | lia]|].
    replace (Z.of_nat k) with (zlen v * 8 - size) by lia. apply andb_false_iff in Hc as [Hc|Hc]; bool_to_prop; [|done].
    replace (zlen v * 8 - size) with 0 by lia. cbn. by rewrite Z.land_0_r.
Qed.

Lemma codec_DynamicBitSet : codec (fun vec => zlen vec <= MAX_SIZE) Serialize_DynamicBitSet Unserialize_DynamicBitSet.
Proof.
  unfold Unserialize_DynamicBitSet, Serialize_DynamicBitSet. split.
  - intros vec s Hv. rewrite <- app_assoc. erewrite parser_bind_eq; [|apply ReadCompactSize_write; lia]. by apply codec_FixedBitSet; lia.
  - intros s vec s' Hs H. apply parser_bind_Some in H as (n & s1 & H1 & H). apply ReadCompactSize_inv in H1 as [Hn ->]; [|done].
    apply (proj2 (codec_FixedBitSet n ltac:(lia))) in H as [-> Hl]; [|by apply bytes_app_r in Hs]. rewrite Hl, app_assoc. split; [done | lia].
Qed.

(** ** Keys: the check for malleability makes the reader exact *)

Section BLSCodec.
Context {B : BLSLibrary} (SerSize : nat) {BL : BLSLibraryLaws B SerSize}.

(** a wrapper that is read back: invalid, or a key whose bytes the library takes back *)
Definition bls_ok (k : @CBLSWrapper B) : Prop :=
  match k with
  | None => True
  | Some k => InternalSetBuf (InternalGetBuf k) = Some k /\ all_zero (InternalGetBuf k) = false
  end /\ bytes (GetBuf SerSize k).

Lemma GetBuf_length k : length (GetBuf SerSize k) = SerSize.
Proof. destruct k; [apply bls_size | apply length_replicate]. Qed.

Lemma all_zero_replicate l : all_zero l = true -> l = replicate (length l) 0.
Proof.
  induction l as [|x l IH]; [done|]. cbn [all_zero forallb]. intros H. apply andb_true_iff in H as [Hx Hl].
  apply Z.eqb_eq in Hx. subst x. cbn [length replicate]. f_equal. by apply IH.
Qed.

Lemma all_zero_zeros n : all_zero (replicate n 0) = true.
Proof. by induction n. Qed.

Lemma codec_BLS : codec bls_ok (Serialize_BLS SerSize) (Unserialize_BLS SerSize).
Proof.
  split.
  - intros k s [Hk Hb]. unfold Unserialize_BLS, Serialize_BLS. rewrite <- (GetBuf_length k) at 1.
    erewrite parser_bind_eq; [|apply read_app]. cbv zeta.
    assert (E : SetBuf SerSize (GetBuf SerSize k) = k).
    { unfold SetBuf. rewrite GetBuf_length, Nat.eqb_refl. cbn [negb]. destruct k as [k|]; cbn [GetBuf].
      - destruct Hk as [-> ->]. done.
      - by rewrite all_zero_zeros. }
    rewrite E, throw_if_pass; [done|]. unfold CheckMalleable. by rewrite bool_decide_eq_true_2.
  - intros s k s' Hs H. unfold Unserialize_BLS in H. get_field (codec_read (Z.of_nat SerSize) ltac:(lia)) H buf Hbuf.
    apply throw_if_inv in H as [Hc H]. injection H as Ek <-. apply negb_false_iff, bool_decide_eq_true in Hc.
    unfold Serialize_BLS. rewrite Ek in Hc. rewrite <- Hc. split; [done|].
    split; [|rewrite <- Hc; apply Hbuf]. destruct k as [k|]; [|done]. cbn [GetBuf] in Hc.
    unfold SetBuf in Ek. case_if_in Ek; [done|]. destruct (all_zero buf) eqn:Ez; [done|]. by rewrite <- Hc.
Qed.

End BLSCodec.

(** ** The payloads *)

Section PayloadCodecs.
Context {PK SG : BLSLibrary} {PKL : BLSLibraryLaws PK 48} {SGL : BLSLibraryLaws SG 96}.

Definition field (n : Z) (l : list Z) : Prop := zlen l = n /\ bytes l.
Definition var_field (l : list Z) : Prop := zlen l <= MAX_SIZE /\ bytes l.
Definition u16_field (x : Z) : Prop := 0 <= x < 65536.
Definition outpoint_field (o : COutPoint) : Prop := field 32 (op_hash o) /\ is_u32 (op_n o).
Definition service_field (a : CService) : Prop := field 16 (ip a) /\ u16_field (port a).

Definition CProRegTx_ok (p : CProRegTx PK) : Prop :=
  u16_field (reg_nVersion _ p) /\ u16_field (reg_nType _ p) /\ u16_field (reg_nMode _ p) /\
  outpoint_field (collateralOutpoint _ p) /\ service_field (reg_addr _ p) /\ field 20 (keyIDOwner _ p) /\
  bls_ok 48 (reg_pubKeyOperator _ p) /\ field 20 (reg_keyIDVoting _ p) /\ u16_field (nOperatorReward _ p) /\
  var_field (reg_scriptPayout _ p) /\ field 32 (reg_inputsHash _ p) /\ var_field (reg_vchSig _ p).

Definition CProUpServTx_ok (p : CProUpServTx SG) : Prop :=
  u16_field (serv_nVersion _ p) /\ field 32 (serv_proTxHash _ p) /\ service_field (serv_addr _ p) /\
  var_field (scriptOperatorPayout _ p) /\ field 32 (serv_inputsHash _ p) /\ bls_ok 96 (serv_sig _ p).

Definition CProUpRegTx_ok (p : CProUpRegTx PK) : Prop :=
  u16_field (upreg_nVersion _ p) /\ field 32 (upreg_proTxHash _ p) /\ u16_field (upreg_nMode _ p) /\
  bls_ok 48 (upreg_pubKeyOperator _ p) /\ field 20 (upreg_keyIDVoting _ p) /\ var_field (upreg_scriptPayout _ p) /\
  field 32 (upreg_inputsHash _ p) /\ var_field (upreg_vchSig _ p).

Definition CProUpRevTx_ok (p : CProUpRevTx SG) : Prop :=
  u16_field (rev_nVersion _ p) /\ field 32 (rev_proTxHash _ p) /\ u16_field (nReason _ p) /\
  field 32 (rev_inputsHash _ p) /\ bls_ok 96 (rev_sig _ p).

Definition CCbTx_ok (p : CCbTx) : Prop :=
  u16_field (cb_nVersion p) /\ is_i32 (cb_nHeight p) /\ field 32 (merkleRootMNList p) /\
  if 2 <=? cb_nVersion p then field 32 (merkleRootQuorums p) else merkleRootQuorums p = replicate 32 0.

Definition CFutureTx_ok (p : CFutureTx) : Prop :=
  u16_field (fut_nVersion p) /\ is_u32 (maturity p) /\ u16_field (lockOutputIndex p).

Definition CFinalCommitment_ok (p : CFinalCommitment PK SG) : Prop :=
  u16_field (fc_nVersion _ _ p) /\ 0 <= llmqType _ _ p < 256 /\ field 32 (quorumHash _ _ p) /\
  zlen (signers _ _ p) <= MAX_SIZE /\ zlen (validMembers _ _ p) <= MAX_SIZE /\
  bls_ok 48 (quorumPublicKey _ _ p) /\ field 32 (quorumVvecHash _ _ p) /\ bls_ok 96 (quorumSig _ _ p) /\ bls_ok 96 (membersSig _ _ p).

Definition CFinalCommitmentTxPayload_ok (p : CFinalCommitmentTxPayload PK SG) : Prop :=
  u16_field (fcp_nVersion _ _ p) /\ is_u32 (fcp_nHeight _ _ p) /\ CFinalCommitment_ok (commitment _ _ p).

(** fixed-size fields by their size *)
Lemma codec_20 : codec (field 20) id (read 20).
Proof. apply codec_read. lia. Qed.
Lemma codec_32 : codec (field 32) id (read 32).
Proof. apply codec_read. lia. Qed.

(** read a record field by field, and invert its reader *)
Ltac put_fields := repeat (put_field codec_u8 || put_field codec_u16 || put_field codec_DynamicBitSet || put_field codec_u32 || put_field codec_COutPoint || put_field codec_CService ||
  put_field codec_20 || put_field codec_32 || put_field codec_bytes ||
  put_field (@codec_BLS PK 48 PKL) || put_field (@codec_BLS SG 96 SGL)).

Lemma codec_CProRegTx : codec CProRegTx_ok (Serialize_CProRegTx PK) (Unserialize_CProRegTx PK).
Proof.
  split.
  - intros p s H. unfold CProRegTx_ok in H. destruct_and! H.
    unfold Unserialize_CProRegTx, Serialize_CProRegTx. rewrite <- !app_assoc. put_fields. by destruct p.
  - intros s p s' Hs H. unfold Unserialize_CProRegTx in H.
    get_field codec_u16 H v Hv. get_field codec_u16 H t Ht. get_field codec_u16 H m Hm. get_field codec_COutPoint H c Hc. get_field codec_CService H a Ha. get_field codec_20 H o Ho. get_field (@codec_BLS PK 48 PKL) H k Hk. get_field codec_20 H w Hw. get_field codec_u16 H r Hr. get_field codec_bytes H x Hx. get_field codec_32 H h Hh. get_field codec_bytes H g Hg.
    injection H as <- <-. unfold Serialize_CProRegTx, CProRegTx_ok. cbn -[Serialize_BLS app]. rewrite <- !app_assoc. done.
Qed.

Lemma codec_CProUpServTx : codec CProUpServTx_ok (Serialize_CProUpServTx SG) (Unserialize_CProUpServTx SG).
Proof.
  split.
  - intros p s H. unfold CProUpServTx_ok in H. destruct_and! H.
    unfold Unserialize_CProUpServTx, Serialize_CProUpServTx. rewrite <- !app_assoc. put_fields. by destruct p.
  - intros s p s' Hs H. unfold Unserialize_CProUpServTx in H.
    get_field codec_u16 H v Hv. get_field codec_32 H x Hx. get_field codec_CService H a Ha. get_field codec_bytes H y Hy. get_field codec_32 H h Hh. get_field (@codec_BLS SG 96 SGL) H g Hg.
    injection H as <- <-. unfold Serialize_CProUpServTx, CProUpServTx_ok. cbn -[Serialize_BLS app]. rewrite <- !app_assoc. done.
Qed.

Lemma codec_CProUpRegTx : codec CProUpRegTx_ok (Serialize_CProUpRegTx PK) (Unserialize_CProUpRegTx PK).
Proof.
  split.
  - intros p s H. unfold CProUpRegTx_ok in H. destruct_and! H.
    unfold Unserialize_CProUpRegTx, Serialize_CProUpRegTx. rewrite <- !app_assoc. put_fields. by destruct p.
  - intros s p s' Hs H. unfold Unserialize_CProUpRegTx in H.
    get_field codec_u16 H v Hv. get_field codec_32 H x Hx. get_field codec_u16 H m Hm. get_field (@codec_BLS PK 48 PKL) H k Hk. get_field codec_20 H w Hw. get_field codec_bytes H y Hy. get_field codec_32 H h Hh. get_field codec_bytes H g Hg.
    injection H as <- <-. unfold Serialize_CProUpRegTx, CProUpRegTx_ok. cbn -[Serialize_BLS app]. rewrite <- !app_assoc. done.
Qed.

Lemma codec_CProUpRevTx : codec CProUpRevTx_ok (Serialize_CProUpRevTx SG) (Unserialize_CProUpRevTx SG).
Proof.
  split.
  - intros p s H. unfold CProUpRevTx_ok in H. destruct_and! H.
    unfold Unserialize_CProUpRevTx, Serialize_CProUpRevTx. rewrite <- !app_assoc. put_fields. by destruct p.
  - intros s p s' Hs H. unfold Unserialize_CProUpRevTx in H.
    get_field codec_u16 H v Hv. get_field codec_32 H x Hx. get_field codec_u16 H r Hr. get_field codec_32 H h Hh. get_field (@codec_BLS SG 96 SGL) H g Hg.
    injection H as <- <-. unfold Serialize_CProUpRevTx, CProUpRevTx_ok. cbn -[Serialize_BLS app]. rewrite <- !app_assoc. done.
Qed.

Lemma codec_CFutureTx : codec CFutureTx_ok Serialize_CFutureTx Unserialize_CFutureTx.
Proof.
  split.
  - intros p s H. unfold CFutureTx_ok in H. destruct_and! H.
    unfold Unserialize_CFutureTx, Serialize_CFutureTx. rewrite <- !app_assoc. put_fields. by destruct p.
  - intros s p s' Hs H. unfold Unserialize_CFutureTx in H.
    get_field codec_u16 H v Hv. get_field codec_u32 H m Hm. get_field codec_u16 H i Hi.
    injection H as <- <-. unfold Serialize_CFutureTx, CFutureTx_ok. cbn -[Serialize_BLS app]. rewrite <- !app_assoc. done.
Qed.

Lemma codec_CFinalCommitment : codec CFinalCommitment_ok (Serialize_CFinalCommitment PK SG) (Unserialize_CFinalCommitment PK SG).
Proof.
  split.
  - intros p s H. unfold CFinalCommitment_ok in H. destruct_and! H.
    unfold Unserialize_CFinalCommitment, Serialize_CFinalCommitment. rewrite <- !app_assoc. put_fields. by destruct p.
  - intros s p s' Hs H. unfold Unserialize_CFinalCommitment in H.
    get_field codec_u16 H v Hv. get_field codec_u8 H t Ht. get_field codec_32 H h Hh. get_field codec_DynamicBitSet H a Ha. get_field codec_DynamicBitSet H b Hb. get_field (@codec_BLS PK 48 PKL) H k Hk. get_field codec_32 H w Hw. get_field (@codec_BLS SG 96 SGL) H g Hg. get_field (@codec_BLS SG 96 SGL) H m Hm.
    injection H as <- <-. unfold Serialize_CFinalCommitment, CFinalCommitment_ok. cbn -[Serialize_BLS Serialize_DynamicBitSet app]. rewrite <- !app_assoc. done.
Qed.

Lemma codec_CFinalCommitmentTxPayload :
  codec CFinalCommitmentTxPayload_ok (Serialize_CFinalCommitmentTxPayload PK SG) (Unserialize_CFinalCommitmentTxPayload PK SG).
Proof.
  split.
  - intros p s (Hv & Hn & Hc). unfold Unserialize_CFinalCommitmentTxPayload, Serialize_CFinalCommitmentTxPayload. rewrite <- !app_assoc.
    put_fields. put_field codec_CFinalCommitment. by destruct p.
  - intros s p s' Hs H. unfold Unserialize_CFinalCommitmentTxPayload in H.
    get_field codec_u16 H v Hv. get_field codec_u32 H n Hn. get_field codec_CFinalCommitment H c Hc.
    injection H as <- <-. unfold Serialize_CFinalCommitmentTxPayload. cbn -[Serialize_CFinalCommitment app]. rewrite <- !app_assoc. done.
Qed.

End PayloadCodecs.

(** a signed word *)
Lemma le_bytes_mod n x : le_bytes n (x mod 256 ^ Z.of_nat n) = le_bytes n x.
Proof.
  rewrite <- le_val_le_bytes. rewrite <- (le_bytes_length n x) at 1. apply le_bytes_le_val, le_bytes_bytes.
Qed.

Lemma i32_cong x : i32 x mod 2 ^ 32 = x mod 2 ^ 32.
Proof. unfold i32, wrap_signed. rewrite <- Z.add_opp_r, Z.add_mod_idemp_l by lia. f_equal. lia. Qed.

Lemma i32_range x : is_i32 (i32 x).
Proof. unfold is_i32, i32, wrap_signed. pose proof (Z.mod_pos_bound (x + 2 ^ (32 - 1)) (2 ^ 32)). lia. Qed.

Lemma codec_i32 : codec is_i32 ser_writedata32 (n ← ser_readdata32; mret (i32 n)).
Proof.
  split.
  - intros x s Hx. erewrite parser_bind_eq; [|apply (read_le_mod 4 x s)]. change (256 ^ Z.of_nat 4) with (2 ^ 32).
    assert (E : i32 (x mod 2 ^ 32) = x).
    { rewrite <- (i32_small x Hx) at 2. unfold i32, wrap_signed. by rewrite Z.add_mod_idemp_l by lia. }
    unfold mret, parser_ret. by rewrite E.
  - intros s x s' Hs H. get_field codec_u32 H n Hn. injection H as <- <-. split; [|apply i32_range].
    f_equal. unfold ser_writedata32. rewrite <- (le_bytes_mod 4 (i32 n)), <- (le_bytes_mod 4 n).
    f_equal. symmetry. apply i32_cong.
Qed.

Lemma codec_CCbTx : codec CCbTx_ok Serialize_CCbTx Unserialize_CCbTx.
Proof.
  split.
  - intros [v n m q] s H. unfold CCbTx_ok in H. cbn [cb_nVersion cb_nHeight merkleRootMNList merkleRootQuorums] in H.
    destruct H as (Hv & Hn & Hm & Hq). unfold Unserialize_CCbTx, Serialize_CCbTx.
    cbn [cb_nVersion cb_nHeight merkleRootMNList merkleRootQuorums]. rewrite <- !app_assoc. put_field codec_u16.
    pose proof (proj1 codec_i32 n (m ++ (if 2 <=? v then q else []) ++ s) Hn) as E.
    apply parser_bind_Some in E as (n' & s1 & E1 & E). injection E as E ->.
    erewrite parser_bind_eq by exact E1. put_field codec_32.
    destruct (2 <=? v).
    + put_field codec_32. by rewrite E.
    + rewrite Hq. erewrite parser_bind_eq by reflexivity. by rewrite E.
  - intros s p s' Hs H. unfold Unserialize_CCbTx in H. get_field codec_u16 H v Hv. get_field codec_u32 H n Hn.
    get_field codec_32 H m Hm. apply parser_bind_Some in H as (q & s3 & Eq & H). injection H as <- <-.
    unfold Serialize_CCbTx, CCbTx_ok. cbn [cb_nVersion cb_nHeight merkleRootMNList merkleRootQuorums].
    assert (En : ser_writedata32 n = ser_writedata32 (i32 n)).
    { unfold ser_writedata32. rewrite <- (le_bytes_mod 4 (i32 n)), <- (le_bytes_mod 4 n). f_equal. symmetry. apply i32_cong. }
    rewrite En, <- !app_assoc. pose proof (i32_range n). destruct (2 <=? v).
    + apply (proj2 codec_32) in Eq as [-> Hq]; [done | eauto 20 using bytes_app_r].
    + injection Eq as <- <-. done.
Qed.

(** A payload is accepted as a record exactly when it is that record's serialization. *)
Definition exact_payload {A} (ok : A -> Prop) (ser : A -> list Z) (p : parser A) : Prop :=
  forall payload obj, bytes payload ->
    GetTxPayload p payload = Some obj <-> ok obj /\ payload = SetTxPayload ser obj.

Lemma codec_exact {A} (ok : A -> Prop) ser (p : parser A) : codec ok ser p -> exact_payload ok ser p.
Proof.
  intros [C1 C2] payload obj Hb. unfold GetTxPayload, SetTxPayload. split.
  - destruct (p payload) as [[o [|]]|] eqn:E; [|done..]. intros [= <-].
    apply C2 in E as [-> Ho]; [|done]. by rewrite app_nil_r.
  - intros [Ho ->]. specialize (C1 obj [] Ho). rewrite app_nil_r in C1. by rewrite C1.
Qed.

(** C33: the payload of a special transaction determines its record and back: for
    each of the seven kinds (registration, update of the service, of the registrar and
    revocation of a provider, coinbase, quorum commitment and future), [GetTxPayload]
    accepts a byte string and gives a record exactly when the record's fields are in
    range, its BLS keys and signatures are ones the library takes back, and the byte
    string is [SetTxPayload] of that record, so no two payloads give the same record, no
    byte or bit is left over or ignored and no malleable encoding of a key gets through. *)
Theorem special_payloads_exact (PK SG : BLSLibrary) (PKL : BLSLibraryLaws PK 48) (SGL : BLSLibraryLaws SG 96) :
  exact_payload CProRegTx_ok (Serialize_CProRegTx PK) (Unserialize_CProRegTx PK) /\
  exact_payload CProUpServTx_ok (Serialize_CProUpServTx SG) (Unserialize_CProUpServTx SG) /\
  exact_payload CProUpRegTx_ok (Serialize_CProUpRegTx PK) (Unserialize_CProUpRegTx PK) /\
  exact_payload CProUpRevTx_ok (Serialize_CProUpRevTx SG) (Unserialize_CProUpRevTx SG) /\
  exact_payload CCbTx_ok Serialize_CCbTx Unserialize_CCbTx /\
  exact_payload CFinalCommitmentTxPayload_ok (Serialize_CFinalCommitmentTxPayload PK SG) (Unserialize_CFinalCommitmentTxPayload PK SG) /\
  exact_payload CFutureTx_ok Serialize_CFutureTx Unserialize_CFutureTx.
Proof.
  repeat split_and; apply codec_exact; auto using codec_CProRegTx, codec_CProUpServTx, codec_CProUpRegTx,
    codec_CProUpRevTx, codec_CCbTx, codec_CFinalCommitmentTxPayload, codec_CFutureTx.
Qed.

(** a library whose keys are numbers in little-endian order *)
Definition number_keys (n : nat) : BLSLibrary :=
  {| bls_impl := Z; InternalSetBuf := fun b => if Nat.eqb (length b) n then Some (le_val b) else None;
     InternalGetBuf := le_bytes n |}.

Lemma number_keys_laws n : BLSLibraryLaws (number_keys n) n.
Proof. split. apply le_bytes_length. Defined.

(** A revocation signed with the key 5 is read back from its own bytes, and the
    same bytes with one more are refused. *)
Lemma special_payloads_exact_witness :
  let rev := MkCProUpRevTx (number_keys 96) 1 (replicate 32 7) 2 (replicate 32 9) (Some 5) in
  let payload := SetTxPayload (Serialize_CProUpRevTx (number_keys 96)) rev in
  GetTxPayload (Unserialize_CProUpRevTx (number_keys 96)) payload = Some rev /\
  GetTxPayload (Unserialize_CProUpRevTx (number_keys 96)) (payload ++ [0]) = None.
Proof.
  intros rev payload. split; [|vm_compute; reflexivity].
  refine (proj2 (proj1 (proj2 (proj2 (proj2 (special_payloads_exact (number_keys 48) (number_keys 96)
    (number_keys_laws 48) (number_keys_laws 96))))) payload rev _) _).
  - apply (bool_decide_unpack _). vm_compute. exact I.
  - split; [|reflexivity]. repeat split; try (apply (bool_decide_unpack _); vm_compute; exact I); vm_compute; done.
Defined.
