(* ===== verification/Bloom.v ===== *)
(** * Bloom filters (bloom.h, bloom.cpp) and filtered blocks (merkleblock.cpp)

    [CBloomFilter] with its matching of transactions, the messages of
    [net_processing.cpp] that load, extend and clear the filter of a peer, and the
    block a peer with a filter is sent, built from [CPartialMerkleTree].

    The size of a bit vector is a divisor in [Hash]: an operation is [None] when it
    divides by zero or reads or writes outside [vData]. *)

From S2P Require Import Prelude Opcodes ScriptNum Script Serialize Interpreter Transaction Standard Siphash ProviderTx.
From S2P Require Import Merkle PartialMerkle.
Import Script.
Open Scope Z_scope.

(** ** The filter *)

Definition MAX_BLOOM_FILTER_SIZE : Z := 36000.
Definition MAX_HASH_FUNCS : Z := 50.
Definition BLOOM_UPDATE_NONE : Z := 0.
Definition BLOOM_UPDATE_ALL : Z := 1.
Definition BLOOM_UPDATE_P2PUBKEY_ONLY : Z := 2.
Definition BLOOM_UPDATE_MASK : Z := 3.

Record CBloomFilter := MkCBloomFilter {
  vData : list Z; isFull : bool; isEmpty : bool; nHashFuncs : Z; nTweak : Z; nFlags : Z
}.

Definition set_vData (v : list Z) (f : CBloomFilter) : CBloomFilter :=
  MkCBloomFilter v (isFull f) (isEmpty f) (nHashFuncs f) (nTweak f) (nFlags f).
Definition set_isEmpty (b : bool) (f : CBloomFilter) : CBloomFilter :=
  MkCBloomFilter (vData f) (isFull f) b (nHashFuncs f) (nTweak f) (nFlags f).

(** [CBloomFilter()] *)
Definition CBloomFilter_default : CBloomFilter := MkCBloomFilter [] true false 0 0 0.

(** the constructor from a number of elements; the floating-point products
    [-1 / LN2SQUARED * nElements * log(nFPRate)] and [q * LN2], cut to an
    [unsigned int], are given; [None] divides by [nElements = 0] *)
Definition CBloomFilter_new (nElements ideal_bits : Z) (times_ln2 : Z -> Z) (nTweakIn nFlagsIn : Z) : option CBloomFilter :=
  let size := Z.min ideal_bits (MAX_BLOOM_FILTER_SIZE * 8) / 8 in
  if nElements =? 0 then None
  else Some (MkCBloomFilter (replicate (Z.to_nat size) 0) false true
    (Z.min (times_ln2 (size * 8 / nElements)) MAX_HASH_FUNCS) nTweakIn nFlagsIn).

Definition Hash (f : CBloomFilter) (nHashNum : Z) (vDataToHash : list Z) : option Z :=
  if zlen (vData f) =? 0 then None
  else Some (u32 (MurmurHash3 (u32 (nHashNum * 0xFBA4C795 + nTweak f)) vDataToHash mod (zlen (vData f) * 8))).

(** [vData[nIndex >> 3] |= (1 << (7 & nIndex))] *)
Definition set_bit (v : list Z) (nIndex : Z) : option (list Z) :=
  b ← v !! Z.to_nat (Z.shiftr nIndex 3);
  Some (<[Z.to_nat (Z.shiftr nIndex 3) := u8 (Z.lor b (Z.shiftl 1 (Z.land 7 nIndex)))]> v).

(** [vData[nIndex >> 3] & (1 << (7 & nIndex))] *)
Definition get_bit (v : list Z) (nIndex : Z) : option bool :=
  b ← v !! Z.to_nat (Z.shiftr nIndex 3);
  Some (negb (Z.land b (Z.shiftl 1 (Z.land 7 nIndex)) =? 0)).

(** [for (unsigned int i = 0; i < nHashFuncs; i++)] *)
Fixpoint insert_from (n : nat) (i : Z) (vKey : list Z) (f : CBloomFilter) : option CBloomFilter :=
  match n with
  | O => Some f
  | S n =>
      nIndex ← Hash f i vKey;
      v ← set_bit (vData f) nIndex;
      insert_from n (i + 1) vKey (set_vData v f)
  end.

Definition insert (f : CBloomFilter) (vKey : list Z) : option CBloomFilter :=
  if isFull f then Some f
  else
    f ← insert_from (Z.to_nat (nHashFuncs f)) 0 vKey f;
    Some (set_isEmpty false f).

Definition insert_outpoint (f : CBloomFilter) (outpoint : COutPoint) : option CBloomFilter :=
  insert f (Serialize_COutPoint outpoint).
Definition insert_hash (f : CBloomFilter) (hash : list Z) : option CBloomFilter := insert f hash.

Fixpoint contains_from (n : nat) (i : Z) (vKey : list Z) (f : CBloomFilter) : option bool :=
  match n with
  | O => Some true
  | S n =>
      nIndex ← Hash f i vKey;
      b ← get_bit (vData f) nIndex;
      if negb b then Some false else contains_from n (i + 1) vKey f
  end.

Definition contains (f : CBloomFilter) (vKey : list Z) : option bool :=
  if isFull f then Some true
  else if isEmpty f then Some false
  else contains_from (Z.to_nat (nHashFuncs f)) 0 vKey f.

Definition contains_outpoint (f : CBloomFilter) (outpoint : COutPoint) : option bool :=
  contains f (Serialize_COutPoint outpoint).
Definition contains_hash (f : CBloomFilter) (hash : list Z) : option bool := contains f hash.

Definition clear (f : CBloomFilter) : CBloomFilter :=
  MkCBloomFilter (replicate (length (vData f)) 0) false true (nHashFuncs f) (nTweak f) (nFlags f).
Definition reset (f : CBloomFilter) (nNewTweak : Z) : CBloomFilter :=
  let f := clear f in MkCBloomFilter (vData f) (isFull f) (isEmpty f) (nHashFuncs f) nNewTweak (nFlags f).

Definition IsWithinSizeConstraints (f : CBloomFilter) : bool :=
  (zlen (vData f) <=? MAX_BLOOM_FILTER_SIZE) && (nHashFuncs f <=? MAX_HASH_FUNCS).

Definition UpdateEmptyFull (f : CBloomFilter) : CBloomFilter :=
  let '(full, empty) := fold_left (fun '(full, empty) b => (full && (b =? 0xff), empty && (b =? 0))) (vData f) (true, true) in
  MkCBloomFilter (vData f) full empty (nHashFuncs f) (nTweak f) (nFlags f).

(** [SerializationOp]; [isFull] and [isEmpty] keep the values of [CBloomFilter()] *)
Definition Serialize_CBloomFilter (f : CBloomFilter) : list Z :=
  Serialize_bytes (vData f) ++ ser_writedata32 (nHashFuncs f) ++ ser_writedata32 (nTweak f) ++ ser_writedata8 (nFlags f).
Definition Unserialize_CBloomFilter : parser CBloomFilter :=
  v ← Unserialize_bytes; n ← ser_readdata32; t ← ser_readdata32; g ← ser_readdata8;
  mret (MkCBloomFilter v (isFull CBloomFilter_default) (isEmpty CBloomFilter_default) n t g).

(** ** Matching transactions *)

(** [a || b] where an operand may fail *)
Definition orelse (a b : option bool) : option bool := x ← a; if (x : bool) then Some true else b.
Infix "||?" := orelse (at level 50, left associativity).

Definition CheckScript (f : CBloomFilter) (script : script_bytes) : option bool :=
  run_ops (fun _ => Some false)
    (fun _ data _ =>
       if zlen data =? 0 then inl tt
       else match contains f data with
            | Some false => inl tt
            | r => inr r
            end)
    (fun _ => Some false) script tt.

Definition TRANSACTION_PROVIDER_REGISTER : Z := 1.
Definition TRANSACTION_PROVIDER_UPDATE_SERVICE : Z := 2.
Definition TRANSACTION_PROVIDER_UPDATE_REGISTRAR : Z := 3.
Definition TRANSACTION_PROVIDER_UPDATE_REVOKE : Z := 4.
Definition TRANSACTION_COINBASE : Z := 5.

Section Matching.
Context `{ScriptHashes} (PK SG : BLSLibrary).

(** [if ((nFlags & BLOOM_UPDATE_MASK) == BLOOM_UPDATE_ALL) insert(key); return true;] *)
Definition update_all (f : CBloomFilter) (key : list Z) : option (bool * CBloomFilter) :=
  if Z.land (nFlags f) BLOOM_UPDATE_MASK =? BLOOM_UPDATE_ALL
  then f ← insert_hash f key; Some (true, f)
  else Some (true, f).

Definition CheckSpecialTransactionMatchesAndUpdate (f : CBloomFilter) (tx : CTransaction) : option (bool * CBloomFilter) :=
  if negb (nVersion tx =? 3) || (nType tx =? TRANSACTION_NORMAL) then Some (false, f)
  else if nType tx =? TRANSACTION_PROVIDER_REGISTER then
    match GetTxPayload (Unserialize_CProRegTx PK) (vExtraPayload tx) with
    | Some proTx =>
        m ← contains_outpoint f (collateralOutpoint _ proTx) ||? contains f (keyIDOwner _ proTx) ||?
            contains f (reg_keyIDVoting _ proTx) ||? CheckScript f (reg_scriptPayout _ proTx);
        if (m : bool) then update_all f (GetHash tx) else Some (false, f)
    | None => Some (false, f)
    end
  else if nType tx =? TRANSACTION_PROVIDER_UPDATE_SERVICE then
    match GetTxPayload (Unserialize_CProUpServTx SG) (vExtraPayload tx) with
    | Some proTx =>
        m ← contains_hash f (serv_proTxHash _ proTx);
        if (m : bool) then Some (true, f)
        else
          m ← CheckScript f (scriptOperatorPayout _ proTx);
          if (m : bool) then update_all f (serv_proTxHash _ proTx) else Some (false, f)
    | None => Some (false, f)
    end
  else if nType tx =? TRANSACTION_PROVIDER_UPDATE_REGISTRAR then
    match GetTxPayload (Unserialize_CProUpRegTx PK) (vExtraPayload tx) with
    | Some proTx =>
        m ← contains_hash f (upreg_proTxHash _ proTx);
        if (m : bool) then Some (true, f)
        else
          m ← contains f (upreg_keyIDVoting _ proTx) ||? CheckScript f (upreg_scriptPayout _ proTx);
          if (m : bool) then update_all f (upreg_proTxHash _ proTx) else Some (false, f)
    | None => Some (false, f)
    end
  else if nType tx =? TRANSACTION_PROVIDER_UPDATE_REVOKE then
    match GetTxPayload (Unserialize_CProUpRevTx SG) (vExtraPayload tx) with
    | Some proTx => m ← contains_hash f (rev_proTxHash _ proTx); Some (m, f)
    | None => Some (false, f)
    end
  else Some (false, f).

(** is the matched output added to the filter *)
Definition adds_outpoint (f : CBloomFilter) (scriptPubKey : script_bytes) : bool :=
  if Z.land (nFlags f) BLOOM_UPDATE_MASK =? BLOOM_UPDATE_ALL then true
  else if Z.land (nFlags f) BLOOM_UPDATE_MASK =? BLOOM_UPDATE_P2PUBKEY_ONLY then
    let s := Solver scriptPubKey in
    solved s && (bool_decide (typeRet s = Some TX_PUBKEY) || bool_decide (typeRet s = Some TX_MULTISIG))
  else false.

(** the loop over [tx.vout] *)
Fixpoint match_outputs (hash : list Z) (i : Z) (outs : list CTxOut) (fFound : bool) (f : CBloomFilter) :
    option (bool * CBloomFilter) :=
  match outs with
  | [] => Some (fFound, f)
  | txout :: outs =>
      m ← CheckScript f (scriptPubKey txout);
      if (m : bool) then
        f ← (if adds_outpoint f (scriptPubKey txout) then insert_outpoint f (MkCOutPoint hash i) else Some f);
        match_outputs hash (i + 1) outs true f
      else match_outputs hash (i + 1) outs fFound f
  end.

(** the loop over [tx.vin] *)
Fixpoint match_inputs (f : CBloomFilter) (ins : list CTxIn) : option bool :=
  match ins with
  | [] => Some false
  | txin :: ins => contains_outpoint f (prevout txin) ||? CheckScript f (scriptSig txin) ||? match_inputs f ins
  end.

Definition IsRelevantAndUpdate (f : CBloomFilter) (tx : CTransaction) : option (bool * CBloomFilter) :=
  if isFull f then Some (true, f)
  else if isEmpty f then Some (false, f)
  else
    let hash := GetHash tx in
    m ← contains_hash f hash;
    r ← (if (m : bool) then Some (true, f) else CheckSpecialTransactionMatchesAndUpdate f tx);
    r ← match_outputs hash 0 (vout tx) r.1 r.2;
    if (r : bool * CBloomFilter).1 then Some (true, r.2)
    else m ← match_inputs r.2 (vin tx); Some (m, r.2).

(** ** Filtered blocks *)

Definition allowedTxTypes : list Z :=
  [TRANSACTION_NORMAL; TRANSACTION_PROVIDER_REGISTER; TRANSACTION_PROVIDER_UPDATE_SERVICE;
   TRANSACTION_PROVIDER_UPDATE_REGISTRAR; TRANSACTION_PROVIDER_UPDATE_REVOKE; TRANSACTION_COINBASE].

Definition isAllowedType (tx : CTransaction) : bool := negb (nVersion tx =? 3) || bool_decide (nType tx ∈ allowedTxTypes).

(** the loop of [CMerkleBlock(block, filter)]: [vMatch], and the filter afterwards *)
Fixpoint match_block (f : CBloomFilter) (vtx : list CTransaction) : option (list bool * CBloomFilter) :=
  match vtx with
  | [] => Some ([], f)
  | tx :: vtx =>
      r ← (if isAllowedType tx then IsRelevantAndUpdate f tx else Some (false, f));
      rs ← match_block (r : bool * CBloomFilter).2 vtx;
      Some (r.1 :: (rs : list bool * CBloomFilter).1, rs.2)
  end.

(** [CMerkleBlock(block, filter)]: [txn] and [vMatchedTxn], and the filter afterwards *)
Definition CMerkleBlock_filter (f : CBloomFilter) (vtx : list CTransaction) :
    option (CPartialMerkleTree * list (Z * uint256) * CBloomFilter) :=
  let vHashes := map GetHash vtx in
  r ← match_block f vtx;
  let '(vMatch, f) := (r : list bool * CBloomFilter) in
  t ← CPartialMerkleTree_of vHashes vMatch;
  Some (t, map (fun x => (x.2, x.1)) (selected vHashes vMatch 0), f).

(** [CMerkleBlock(block, txids)] *)
Definition CMerkleBlock_txids (txids : list uint256) (vtx : list CTransaction) : option CPartialMerkleTree :=
  CPartialMerkleTree_of (map GetHash vtx) (map (fun tx => bool_decide (GetHash tx ∈ txids)) vtx).

(** ** The filter of a peer *)

(** the members of [CNode] and [CNodeState] the messages change *)
Record peer := MkPeer { pfilter : option CBloomFilter; fRelayTxes : bool; nMisbehavior : Z; fDisconnect : bool }.

Definition Misbehaving (howmuch : Z) (p : peer) : peer :=
  MkPeer (pfilter p) (fRelayTxes p) (nMisbehavior p + howmuch) (fDisconnect p).

Definition NO_BLOOM_VERSION : Z := 70011.

(** messages from the peer with their payload, and what the node does with the filter *)
Inductive event :=
  | FILTERLOAD (vRecv : list Z)
  | FILTERADD (vRecv : list Z)
  | FILTERCLEAR
  | RelayTx (tx : CTransaction)
  | SendFilteredBlock (vtx : list CTransaction).

(** [GetLocalServices() & NODE_BLOOM] and [pfrom->nVersion]; a payload that cannot be
    read throws and changes nothing *)
Context (NODE_BLOOM : bool) (peer_version : Z).

Definition no_bloom (p : peer) : peer :=
  if NO_BLOOM_VERSION <=? peer_version then Misbehaving 100 p
  else MkPeer (pfilter p) (fRelayTxes p) (nMisbehavior p) true.

Definition process_filterload (vRecv : list Z) (p : peer) : peer :=
  match Unserialize_CBloomFilter vRecv with
  | None => p
  | Some (filter, _) =>
      if negb (IsWithinSizeConstraints filter) then Misbehaving 100 p
      else MkPeer (Some (UpdateEmptyFull filter)) true (nMisbehavior p) (fDisconnect p)
  end.

Definition process_filteradd (vRecv : list Z) (p : peer) : option peer :=
  match Unserialize_bytes vRecv with
  | None => Some p
  | Some (data, _) =>
      if zlen data >? MAX_SCRIPT_ELEMENT_SIZE then Some (Misbehaving 100 p)
      else
        match pfilter p with
        | Some f => f ← insert f data; Some (MkPeer (Some f) (fRelayTxes p) (nMisbehavior p) (fDisconnect p))
        | None => Some (Misbehaving 100 p)
        end
  end.

Definition process_filterclear (p : peer) : peer :=
  MkPeer (if NODE_BLOOM then Some CBloomFilter_default else pfilter p) true (nMisbehavior p) (fDisconnect p).

(** one event; with the answer, the positions of the transactions that are sent *)
Definition peer_step (p : peer) (e : event) : option (peer * list Z) :=
  match e with
  | FILTERLOAD vRecv => Some (if NODE_BLOOM then process_filterload vRecv p else no_bloom p, [])
  | FILTERADD vRecv => if NODE_BLOOM then p ← process_filteradd vRecv p; Some (p, []) else Some (no_bloom p, [])
  | FILTERCLEAR => Some (process_filterclear p, [])
  | RelayTx tx =>
      match pfilter p with
      | Some f =>
          r ← IsRelevantAndUpdate f tx;
          Some (MkPeer (Some (r : bool * CBloomFilter).2) (fRelayTxes p) (nMisbehavior p) (fDisconnect p), if r.1 then [0] else [])
      | None => Some (p, [0])
      end
  | SendFilteredBlock vtx =>
      match pfilter p with
      | Some f =>
          r ← CMerkleBlock_filter f vtx;
          let '(_, vMatchedTxn, f) := (r : CPartialMerkleTree * list (Z * uint256) * CBloomFilter) in
          Some (MkPeer (Some f) (fRelayTxes p) (nMisbehavior p) (fDisconnect p), map fst vMatchedTxn)
      | None => Some (p, [])
      end
  end.

(** [CNode::CNode] *)
Definition new_peer : peer := MkPeer (Some CBloomFilter_default) false 0 false.

Definition run_events (p : peer) (l : list event) : option peer :=
  fold_left (fun p e => p ← p; r ← peer_step p e; Some r.1) l (Some p).

End Matching.

(** ** What a filter holds *)

(** the bit at a position, the positions of a key, and the keys a filter holds *)
Definition bit (v : list Z) (j : Z) : bool := Z.testbit (v !!! Z.to_nat (Z.shiftr j 3)) (Z.land 7 j).
Definition position (f : CBloomFilter) (i : Z) (key : list Z) : Z :=
  MurmurHash3 (u32 (i * 0xFBA4C795 + nTweak f)) key mod (zlen (vData f) * 8).
Definition positions (f : CBloomFilter) (key : list Z) : list Z :=
  map (fun i => position f (Z.of_nat i) key) (seq 0 (Z.to_nat (nHashFuncs f))).
Definition holds (f : CBloomFilter) (key : list Z) : bool :=
  isFull f || negb (isEmpty f) && forallb (bit (vData f)) (positions f key).

(** a filter that can be used: only a full one may have no bits *)
Record filter_ok (f : CBloomFilter) : Prop := {
  ok_bytes : bytes (vData f);
  ok_size : zlen (vData f) < 2 ^ 29;
  ok_bits : isFull f = false -> vData f <> [];
}.

(** [f'] has the bits of [f] and maybe more *)
Record extends (f f' : CBloomFilter) : Prop := {
  ext_size : length (vData f') = length (vData f);
  ext_full : isFull f' = isFull f;
  ext_empty : isEmpty f = false -> isEmpty f' = false;
  ext_funcs : nHashFuncs f' = nHashFuncs f;
  ext_tweak : nTweak f' = nTweak f;
  ext_flags : nFlags f' = nFlags f;
  ext_bits : forall j, bit (vData f) j = true -> bit (vData f') j = true;
}.

#[global] Instance extends_preorder : PreOrder extends.
Proof.
  split.
  - intros f. by split.
  - intros f g h [] []. split; try congruence; eauto.
Qed.

Lemma positions_extends f f' key : extends f f' -> positions f' key = positions f key.
Proof. intros E. unfold positions, position. by rewrite (ext_size _ _ E), (ext_funcs _ _ E), (ext_tweak _ _ E). Qed.

Lemma holds_extends f f' key : extends f f' -> holds f key = true -> holds f' key = true.
Proof.
  intros E. unfold holds. rewrite (positions_extends _ _ key E), (ext_full _ _ E).
  destruct (isFull f); [done|]. cbn. rewrite !andb_true_iff, !negb_true_iff, !forallb_forall. intros [He Hb]. split.
  - by apply (ext_empty _ _ E).
  - intros j Hj. by apply (ext_bits _ _ E), Hb.
Qed.

(** ** Bits of a vector *)

Section Bits.
Context (v : list Z) (Hv : bytes v).

Lemma bit_index j : 0 <= j < zlen v * 8 -> (Z.to_nat (Z.shiftr j 3) < length v)%nat.
Proof. intros Hj. rewrite Z.shiftr_div_pow2 by lia. change (2 ^ 3) with 8.
  apply Nat2Z.inj_lt. rewrite Z2Nat.id by (apply Z.div_pos; lia). apply Z.div_lt_upper_bound; lia.
Qed.

Lemma low_bits j : 0 <= Z.land 7 j < 8.
Proof. rewrite Z.land_comm. change 7 with (Z.ones 3). rewrite Z.land_ones by lia. apply Z.mod_pos_bound. lia. Qed.

Lemma get_bit_spec j : 0 <= j < zlen v * 8 -> get_bit v j = Some (bit v j).
Proof.
  intros Hj. unfold get_bit, bit. destruct (lookup_lt_is_Some_2 v _ (bit_index j Hj)) as [b Hb].
  rewrite Hb, (list_lookup_total_correct _ _ _ Hb). cbn [mbind option_bind]. f_equal. pose proof (low_bits j).
  rewrite Z.shiftl_1_l. apply eq_true_iff_eq. rewrite negb_true_iff, Z.eqb_neq. split.
  - intros Hn. destruct (Z.testbit b (Z.land 7 j)) eqn:E; [done|]. destruct Hn. apply Z.bits_inj_0. intros n.
    rewrite Z.land_spec, Z.pow2_bits_eqb by lia. destruct (Z.eqb_spec (Z.land 7 j) n) as [<-|]; [by rewrite E | by rewrite andb_false_r].
  - intros Hb' Hz. apply (f_equal (fun x => Z.testbit x (Z.land 7 j))) in Hz.
    rewrite Z.land_spec, Hb', Z.pow2_bits_true, Z.bits_0 in Hz by lia. done.
Qed.

Lemma or_byte b k : is_u8 b -> 0 <= k < 8 -> is_u8 (Z.lor b (2 ^ k)) /\ u8 (Z.lor b (2 ^ k)) = Z.lor b (2 ^ k).
Proof.
  unfold is_u8. intros Hb Hk. assert (Hp : 0 < 2 ^ k < 256) by (split; [apply Z.pow_pos_nonneg; lia | change 256 with (2 ^ 8); apply Z.pow_lt_mono_r; lia]).
  assert (0 <= Z.lor b (2 ^ k)) by (apply Z.lor_nonneg; lia).
  assert (Z.lor b (2 ^ k) < 256).
  { destruct (Z.eq_dec (Z.lor b (2 ^ k)) 0) as [->|]; [lia|]. change 256 with (2 ^ 8). apply Z.log2_lt_pow2; [lia|].
    rewrite Z.log2_lor by lia. apply Z.max_lub_lt; [|rewrite Z.log2_pow2; lia].
    destruct (Z.eq_dec b 0) as [->|]; [done|]. apply Z.log2_lt_pow2; lia. }
  split; [lia|]. unfold u8. by apply Z.mod_small.
Qed.

Lemma set_bit_bits j : 0 <= j < zlen v * 8 ->
  exists v', set_bit v j = Some v' /\ length v' = length v /\ bytes v' /\ bit v' j = true /\
    forall k, bit v k = true -> bit v' k = true.
Proof.
  intros Hj. unfold set_bit. pose proof (bit_index j Hj) as Hi. destruct (lookup_lt_is_Some_2 v _ Hi) as [b Hb]. rewrite Hb.
  cbn [mbind option_bind]. rewrite Z.shiftl_1_l. pose proof (low_bits j) as Hl.
  destruct (or_byte b (Z.land 7 j)) as [R ->]; [by eapply Forall_lookup_1 in Hb | done|].
  eexists. split; [done|]. split; [by rewrite length_insert|]. split; [by apply Forall_insert|]. split.
  - unfold bit. rewrite list_lookup_total_insert_eq by done. rewrite Z.lor_spec, Z.pow2_bits_true by lia. apply orb_true_r.
  - intros k. unfold bit. destruct (decide (Z.to_nat (Z.shiftr k 3) = Z.to_nat (Z.shiftr j 3))) as [E|N].
    + rewrite E, list_lookup_total_insert_eq by done. rewrite (list_lookup_total_correct _ _ _ Hb), Z.lor_spec. by intros ->.
    + by rewrite list_lookup_total_insert_ne.
Qed.
End Bits.

(** ** The operations on a filter that can be used *)

Section Operations.
Context (f : CBloomFilter) (Hf : filter_ok f) (Hfull : isFull f = false).

Lemma position_range i key : 0 <= position f i key < zlen (vData f) * 8.
Proof. apply Z.mod_pos_bound. pose proof (ok_bits f Hf Hfull). destruct (vData f); [done | cbn; lia]. Qed.

Lemma Hash_spec i key : Hash f i key = Some (position f i key).
Proof.
  unfold Hash. pose proof (position_range i key) as R. pose proof (ok_size f Hf).
  rewrite (proj2 (Z.eqb_neq _ _)) by lia. f_equal. fold (position f i key). apply u32_small. unfold is_u32. lia.
Qed.

Lemma contains_from_spec key n i :
  contains_from n (Z.of_nat i) key f = Some (forallb (bit (vData f)) (map (fun i => position f (Z.of_nat i) key) (seq i n))).
Proof.
  revert i. induction n as [|n IH]; intros i; [done|]. cbn [contains_from seq map forallb]. rewrite Hash_spec.
  cbn [mbind option_bind]. rewrite get_bit_spec by apply position_range. cbn [mbind option_bind].
  destruct (bit _ _); cbn [negb andb]; [|done]. replace (Z.of_nat i + 1) with (Z.of_nat (S i)) by lia. apply IH.
Qed.
End Operations.

Lemma contains_spec f key : filter_ok f -> contains f key = Some (holds f key).
Proof.
  intros Hf. unfold contains, holds. destruct (isFull f) eqn:E; [done|]. destruct (isEmpty f); [done|]. cbn [negb andb orb].
  by apply (contains_from_spec f Hf E key _ 0).
Qed.

Lemma insert_from_spec key n : forall i f, filter_ok f -> isFull f = false ->
  exists f', insert_from n (Z.of_nat i) key f = Some f' /\ filter_ok f' /\ extends f f' /\
    forallb (bit (vData f')) (map (fun i => position f (Z.of_nat i) key) (seq i n)) = true.
Proof.
  induction n as [|n IH]; intros i f Hf E; [by exists f|]. cbn [insert_from seq map forallb]. rewrite Hash_spec by done.
  destruct (set_bit_bits (vData f) (ok_bytes f Hf) _ (position_range f Hf E (Z.of_nat i) key)) as (v & Ev & Hl & Hb & H1 & H2).
  cbn [mbind option_bind]. rewrite Ev. cbn [mbind option_bind]. replace (Z.of_nat i + 1) with (Z.of_nat (S i)) by lia.
  assert (Hx : extends f (set_vData v f)) by (split; done).
  destruct (IH (S i) (set_vData v f)) as (f' & Ef & Hok & He & Hall); [|done|].
  { split; cbn; [done | by rewrite Hl; apply Hf |]. intros H. apply (ok_bits f Hf) in H. destruct v, (vData f); done. }
  exists f'. split; [done|]. split; [done|]. split; [by transitivity (set_vData v f)|].
  rewrite (ext_bits _ _ He _ H1). cbn [andb].
  unfold position in Hall |- *. cbn [vData set_vData nTweak] in Hall. by rewrite Hl in Hall.
Qed.

Lemma insert_spec f key : filter_ok f ->
  exists f', insert f key = Some f' /\ filter_ok f' /\ extends f f' /\ holds f' key = true.
Proof.
  intros Hf. unfold insert. destruct (isFull f) eqn:E; [exists f; unfold holds; by rewrite E|].
  destruct (insert_from_spec key (Z.to_nat (nHashFuncs f)) 0 f Hf E) as (g & Eg & [G1 G2 G3] & He & Hall).
  change (Z.of_nat 0) with 0 in Eg. rewrite Eg. cbn [mbind option_bind].
  assert (Hx : extends f (set_isEmpty false g)) by (destruct He; by split).
  exists (set_isEmpty false g). repeat split_and; [done | by split | done |].
  unfold holds. rewrite (positions_extends _ _ key Hx). unfold positions. cbn [isEmpty set_isEmpty vData negb andb].
  rewrite Hall. apply orb_true_r.
Qed.

Lemma UpdateEmptyFull_ok f : bytes (vData f) -> zlen (vData f) < 2 ^ 29 -> filter_ok (UpdateEmptyFull f).
Proof.
  intros Hb Hs. unfold UpdateEmptyFull. destruct (fold_left _ _ _) as [full empty] eqn:E.
  split; cbn; [done..|]. intros -> Hv. by rewrite Hv in E.
Qed.

Lemma default_ok : filter_ok CBloomFilter_default.
Proof. split; cbn; [constructor | lia | done]. Qed.

(** ** Scripts *)

(** the data a script pushes, up to where it cannot be parsed *)
Inductive pushes : script_bytes -> valtype -> Prop :=
  | push_here s rest op d : GetOp2 s = (rest, Some (op, d)) -> pushes s d
  | push_later s rest op d d' : GetOp2 s = (rest, Some (op, d)) -> pushes rest d' -> pushes s d'.

(** a script that pushes a key the filter holds *)
Definition matches (f : CBloomFilter) (s : script_bytes) : Prop := exists d, pushes s d /\ d <> [] /\ holds f d = true.

Lemma matches_step f s rest op d : GetOp2 s = (rest, Some (op, d)) ->
  matches f s <-> d <> [] /\ holds f d = true \/ matches f rest.
Proof.
  intros E. split.
  - intros (x & Hx & Hn & Hh). inversion Hx as [? ? ? ? E'|? ? ? ? ? E' Hr]; subst; rewrite E in E'; injection E' as <- <- <-; [by left|].
    right. by exists x.
  - intros [[Hn Hh]|(x & Hx & Hn & Hh)]; [exists d | exists x]; split; eauto using push_here, push_later.
Qed.

(** a test that does not fail and decides a proposition *)
Definition decides (o : option bool) (P : Prop) : Prop := exists b, o = Some b /\ (b = true <-> P).

Lemma decides_contains f key : filter_ok f -> decides (contains f key) (holds f key = true).
Proof. intros Hf. exists (holds f key). by rewrite contains_spec. Qed.

Lemma decides_orelse a b P Q : decides a P -> decides b Q -> decides (a ||? b) (P \/ Q).
Proof. intros (x & -> & Hx) (y & -> & Hy). destruct x; [exists true | exists y]; cbn; (split; [done|]); intuition congruence. Qed.

Lemma decides_CheckScript f s : filter_ok f -> decides (CheckScript f s) (matches f s).
Proof.
  intros Hf. unfold CheckScript, decides. induction s as [|o pc IH] using ops_ind; rewrite run_ops_unfold.
  { exists false. split; [done|]. split; [done|]. intros (x & Hx & _). by inversion Hx. }
  destruct (GetOp2 (o :: pc)) as [rest [[op d]|]] eqn:E.
  - destruct (IH rest d op eq_refl) as (b & Eb & Hb). pose proof (matches_step f _ _ _ _ E) as M.
    destruct d as [|x d]; cbn [length Z.of_nat Z.eqb].
    { exists b. split; [done|]. rewrite Hb, M. intuition congruence. }
    rewrite contains_spec by done. destruct (holds f (x :: d)) eqn:Eh.
    + exists true. split; [done|]. split; [by rewrite M; left|done].
    + exists b. split; [done|]. rewrite Hb, M. intuition congruence.
  - exists false. split; [done|]. split; [done|]. intros (x & Hx & _). inversion Hx; congruence.
Qed.

Lemma matches_extends f f' s : extends f f' -> matches f s -> matches f' s.
Proof. intros E (d & H1 & H2 & H3). exists d. eauto using holds_extends. Qed.


(** ** Matching transactions *)

(** a step on a filter that does not fail, keeps it usable and only adds bits *)
Definition updates (f : CBloomFilter) (o : option (bool * CBloomFilter)) (Q : bool -> CBloomFilter -> Prop) : Prop :=
  exists b f', o = Some (b, f') /\ filter_ok f' /\ extends f f' /\ Q b f'.

Lemma updates_same f (b : bool) (Q : bool -> CBloomFilter -> Prop) : filter_ok f -> Q b f -> updates f (Some (b, f)) Q.
Proof. intros Hf HQ. by exists b, f. Qed.

Lemma updates_test f o P k Q : decides o P -> (forall b, (b = true <-> P) -> updates f (k b) Q) -> updates f (x ← o; k x) Q.
Proof. intros (b & -> & Hb) Hk. by apply Hk. Qed.

Create HintDb bloom.
#[local] Hint Resolve decides_contains decides_CheckScript decides_orelse : bloom.

Section MatchingProofs.
Context `{ScriptHashes} (PK SG : BLSLibrary).

Lemma update_all_spec f key : filter_ok f -> updates f (update_all f key) (fun b _ => b = true).
Proof.
  intros Hf. unfold update_all. destruct (_ =? _); [|by apply updates_same].
  destruct (insert_spec f key Hf) as (f' & E & Hf' & He & _). unfold insert_hash. rewrite E. by exists true, f'.
Qed.

Lemma special_spec f tx : filter_ok f -> updates f (CheckSpecialTransactionMatchesAndUpdate PK SG f tx) (fun _ _ => True).
Proof.
  intros Hf. unfold CheckSpecialTransactionMatchesAndUpdate, contains_hash, contains_outpoint.
  assert (Hu : forall key, updates f (update_all f key) (fun _ _ => True)).
  { intros key. destruct (update_all_spec f key Hf) as (b & f' & ? & ? & ? & _). by exists b, f'. }
  repeat case_match; try (by apply updates_same);
    repeat (eapply updates_test; [by eauto 8 with bloom|]; intros [] _); by (apply Hu || apply updates_same).
Qed.

Lemma adds_outpoint_extends f f' s : extends f f' -> adds_outpoint f' s = adds_outpoint f s.
Proof. intros E. unfold adds_outpoint. by rewrite (ext_flags _ _ E). Qed.

(** every output whose script matches is found, and added when the flags say so *)
Definition outputs_added (hash : list Z) (i : Z) (outs : list CTxOut) (f : CBloomFilter) (b : bool) (f' : CBloomFilter) : Prop :=
  forall k o, outs !! k = Some o -> matches f (scriptPubKey o) -> b = true /\
    (adds_outpoint f (scriptPubKey o) = true -> holds f' (Serialize_COutPoint (MkCOutPoint hash (i + Z.of_nat k))) = true).

Lemma outputs_added_cons hash i o outs f g b f' : extends f g -> extends g f' ->
  outputs_added hash (i + 1) outs g b f' ->
  (matches f (scriptPubKey o) -> b = true /\
    (adds_outpoint f (scriptPubKey o) = true -> holds g (Serialize_COutPoint (MkCOutPoint hash i)) = true)) ->
  outputs_added hash i (o :: outs) f b f'.
Proof.
  intros E1 E2 Htl Hhd [|k] x Hx Hm; cbn in Hx.
  - injection Hx as <-. rewrite Z.add_0_r. destruct (Hhd Hm) as [-> Ha]. split; [done|]. intros A. eauto using holds_extends.
  - replace (i + Z.of_nat (S k)) with (i + 1 + Z.of_nat k) by lia. rewrite <- (adds_outpoint_extends _ _ _ E1).
    apply (Htl k x Hx). by eapply matches_extends.
Qed.

Lemma outputs_added_from hash i outs f g b f' : extends f g -> outputs_added hash i outs g b f' -> outputs_added hash i outs f b f'.
Proof.
  intros E Ho k o Hk Hm. rewrite <- (adds_outpoint_extends _ _ _ E). apply (Ho k o Hk). by eapply matches_extends.
Qed.

Lemma match_outputs_spec hash outs : forall i fFound f, filter_ok f ->
  updates f (match_outputs hash i outs fFound f)
    (fun b f' => (fFound = true -> b = true) /\ outputs_added hash i outs f b f').
Proof.
  induction outs as [|o outs IH]; intros i fFound f Hf; cbn [match_outputs]; [by apply updates_same|].
  eapply updates_test; [by eauto with bloom|]. intros m Hm. destruct m.
  - assert (exists g, (if adds_outpoint f (scriptPubKey o) then insert_outpoint f (MkCOutPoint hash i) else Some f) = Some g /\
      filter_ok g /\ extends f g /\ (adds_outpoint f (scriptPubKey o) = true -> holds g (Serialize_COutPoint (MkCOutPoint hash i)) = true))
      as (g & -> & Hg & He & Ha).
    { destruct (adds_outpoint _ _); [|by exists f].
      destruct (insert_spec f (Serialize_COutPoint (MkCOutPoint hash i)) Hf) as (g & ? & ? & ? & ?). by exists g. }
    cbn [mbind option_bind]. destruct (IH (i + 1) true g Hg) as (b & f' & -> & Hf' & He' & Hb & Hadd).
    exists b, f'. split_and!; [done | done | by transitivity g | by intros; apply Hb |].
    apply outputs_added_cons with g; auto.
  - destruct (IH (i + 1) fFound f Hf) as (b & f' & -> & Hf' & He' & Hb & Hadd).
    exists b, f'. split_and!; [done | done | done | done |]. apply outputs_added_cons with f; [done | done | done |].
    intros M. by apply Hm in M.
Qed.

(** an input the filter knows *)
Definition input_matches (f : CBloomFilter) (i : CTxIn) : Prop :=
  holds f (Serialize_COutPoint (prevout i)) = true \/ matches f (scriptSig i).

Lemma match_inputs_spec f ins : filter_ok f -> decides (match_inputs f ins) (Exists (input_matches f) ins).
Proof.
  intros Hf. induction ins as [|i ins IH]; cbn [match_inputs].
  { exists false. split; [done|]. by rewrite Exists_nil. }
  destruct (decides_orelse _ _ _ _ (decides_orelse _ _ _ _ (decides_contains f (Serialize_COutPoint (prevout i)) Hf)
    (decides_CheckScript f (scriptSig i) Hf)) IH) as (b & E & Hb).
  exists b. split; [exact E|]. by rewrite Hb, Exists_cons.
Qed.

(** what a filter has to let through *)
Definition relevant (f : CBloomFilter) (tx : CTransaction) : Prop :=
  holds f (GetHash tx) = true \/ Exists (fun o => matches f (scriptPubKey o)) (vout tx) \/ Exists (input_matches f) (vin tx).

Lemma IsRelevantAndUpdate_spec f tx : filter_ok f ->
  updates f (IsRelevantAndUpdate PK SG f tx)
    (fun b f' => (relevant f tx -> b = true) /\ outputs_added (GetHash tx) 0 (vout tx) f b f').
Proof.
  intros Hf. unfold IsRelevantAndUpdate. destruct (isFull f) eqn:Efull.
  { apply updates_same; [done|]. split; [done|]. intros k o _ _. split; [done|]. unfold holds. by rewrite Efull. }
  destruct (isEmpty f) eqn:Eempty.
  { assert (Hno : forall key, holds f key <> true) by (intros key; unfold holds; by rewrite Efull, Eempty).
    assert (Hno' : forall s, ~ matches f s) by (intros s (d & _ & _ & Hd); by apply Hno in Hd).
    apply updates_same; [done|]. split; [|by intros k o _ M; apply Hno' in M].
    intros [R|[R|R]]; [by apply Hno in R | | ]; apply Exists_exists in R as (x & _ & R); [by apply Hno' in R |].
    destruct R as [R|R]; [by apply Hno in R | by apply Hno' in R]. }
  eapply updates_test; [by eauto with bloom|]. intros m Hm. cbn beta.
  assert (updates f (if m then Some (true, f) else CheckSpecialTransactionMatchesAndUpdate PK SG f tx) (fun b _ => m = true -> b = true))
    as (b1 & f1 & -> & Hf1 & He1 & Hb1).
  { destruct m; [by apply updates_same|]. destruct (special_spec f tx Hf) as (b & f' & ? & ? & ? & _). by exists b, f'. }
  cbn [mbind option_bind fst snd]. destruct (match_outputs_spec (GetHash tx) (vout tx) 0 b1 f1 Hf1) as (b2 & f2 & -> & Hf2 & He2 & Hb2 & Ho).
  assert (He : extends f f2) by (by transitivity f1). apply (outputs_added_from _ _ _ f) in Ho; [|done].
  cbn [mbind option_bind fst snd]. destruct b2; [by exists true, f2|].
  assert (Hr : relevant f tx -> Exists (input_matches f2) (vin tx)).
  { intros [R|[R|R]]; [by apply Hm, Hb1, Hb2 in R | |].
    - apply Exists_exists in R as (o & Hin & Mo). apply list_elem_of_lookup in Hin as [k Hk]. by destruct (Ho k o Hk Mo).
    - eapply Exists_impl; [exact R|]. intros x [X|X]; [left | right]; eauto using holds_extends, matches_extends. }
  destruct (match_inputs_spec f2 (vin tx) Hf2) as (b & -> & Hb). exists b, f2.
  split_and!; [done | done | done | by intros R%Hr; apply Hb |].
  intros k o Hk Mo. by destruct (Ho k o Hk Mo).
Qed.

(** [tx] spends an output *)
Definition spends (tx : CTransaction) (o : COutPoint) : Prop := Exists (fun i => prevout i = o) (vin tx).

Lemma spends_relevant f tx o : spends tx o -> holds f (Serialize_COutPoint o) = true -> relevant f tx.
Proof. intros Hs Ho. right; right. eapply Exists_impl; [exact Hs|]. intros i <-. by left. Qed.

Lemma relevant_extends f f' tx : extends f f' -> relevant f tx -> relevant f' tx.
Proof.
  intros E [R|[R|R]]; [left | right; left | right; right]; [by eapply holds_extends | | ]; (eapply Exists_impl; [exact R|]).
  - intros o. by apply matches_extends.
  - intros i [I|I]; [left | right]; eauto using holds_extends, matches_extends.
Qed.

(** what the selection [m] of a block's transactions has to contain: everything the
    filter is about, and whatever spends an output that matched in the block *)
Definition block_matched (f : CBloomFilter) (vtx : list CTransaction) (m : list bool) (f' : CBloomFilter) : Prop :=
  (forall i tx, vtx !! i = Some tx -> isAllowedType tx = true -> relevant f tx -> m !! i = Some true) /\
  (forall i tx k o, vtx !! i = Some tx -> isAllowedType tx = true -> vout tx !! k = Some o ->
    matches f (scriptPubKey o) -> adds_outpoint f (scriptPubKey o) = true ->
    holds f' (Serialize_COutPoint (MkCOutPoint (GetHash tx) (Z.of_nat k))) = true /\
    forall j tx', (i < j)%nat -> vtx !! j = Some tx' -> isAllowedType tx' = true ->
      spends tx' (MkCOutPoint (GetHash tx) (Z.of_nat k)) -> m !! j = Some true).

Lemma block_matched_cons f tx vtx b m g f' : extends f g -> extends g f' ->
  (isAllowedType tx = true -> (relevant f tx -> b = true) /\ outputs_added (GetHash tx) 0 (vout tx) f b g) ->
  block_matched g vtx m f' -> block_matched f (tx :: vtx) (b :: m) f'.
Proof.
  intros E1 E2 Htx [M1 M2]. split.
  - intros [|i] x Hx Ha R; cbn in Hx |- *.
    + injection Hx as ->. f_equal. by apply (Htx Ha).
    + apply (M1 i x Hx Ha). by eapply relevant_extends.
  - intros [|i] x k o Hx Ha Ho Hm Hadd; cbn in Hx.
    + injection Hx as ->. destruct (proj2 (Htx Ha) k o Ho Hm) as [_ Hh]. specialize (Hh Hadd). rewrite Z.add_0_l in Hh.
      split; [by eapply holds_extends|]. intros [|j] x' Hj Hx' Ha' Hs; [lia|]. apply (M1 j x' Hx' Ha'). by eapply spends_relevant.
    + rewrite <- (adds_outpoint_extends _ _ _ E1) in Hadd. apply (matches_extends _ _ _ E1) in Hm.
      destruct (M2 i x k o Hx Ha Ho Hm Hadd) as [Hh Hj]. split; [done|].
      intros [|j] x' Lj Hx' Ha' Hs; [lia|]. apply (Hj j x'); [lia | done..].
Qed.

Lemma match_block_spec vtx : forall f, filter_ok f -> exists m f', match_block PK SG f vtx = Some (m, f') /\
  length m = length vtx /\ filter_ok f' /\ extends f f' /\ block_matched f vtx m f'.
Proof.
  induction vtx as [|tx vtx IH]; intros f Hf; cbn [match_block]; [by exists [], f|].
  assert (updates f (if isAllowedType tx then IsRelevantAndUpdate PK SG f tx else Some (false, f))
    (fun b g => isAllowedType tx = true -> (relevant f tx -> b = true) /\ outputs_added (GetHash tx) 0 (vout tx) f b g))
    as (b & g & -> & Hg & He & Hb).
  { destruct (isAllowedType tx); [|by apply updates_same].
    destruct (IsRelevantAndUpdate_spec f tx Hf) as (b & g & ? & ? & ? & ?). by exists b, g. }
  cbn [mbind option_bind fst snd]. destruct (IH g Hg) as (m & f' & -> & Hl & Hf' & He' & HM). cbn [mbind option_bind fst snd].
  exists (b :: m), f'. split_and!; [done | cbn; lia | done | by transitivity g |]. by apply block_matched_cons with g.
Qed.
End MatchingProofs.

Lemma selected_elem l : forall m base i x, l !! i = Some x -> m !! i = Some true ->
  (x, Z.of_nat (base + i)) ∈ selected l m base.
Proof.
  induction l as [|y l IH]; intros [|b m] base [|i] x Hl Hm; try done; cbn in Hl, Hm |- *.
  - injection Hl as ->. injection Hm as ->. rewrite Nat.add_0_r. by left.
  - apply elem_of_app. right. rewrite Nat.add_succ_r, <- Nat.add_succ_l. by apply IH.
Qed.

Section Peers.
Context `{ScriptHashes} (PK SG : BLSLibrary) (NODE_BLOOM : bool) (peer_version : Z).

(** a peer whose filter can be used, and has not grown *)
Definition peer_ok (p : peer) : Prop := exists f, pfilter p = Some f /\ filter_ok f /\ IsWithinSizeConstraints f = true.

Lemma within_extends f f' : extends f f' -> IsWithinSizeConstraints f' = IsWithinSizeConstraints f.
Proof. intros He. unfold IsWithinSizeConstraints. by rewrite (ext_size _ _ He), (ext_funcs _ _ He). Qed.

(** messages are byte strings, and a block has a coinbase *)
Definition event_ok (e : event) : Prop :=
  match e with
  | FILTERLOAD vRecv | FILTERADD vRecv => bytes vRecv
  | SendFilteredBlock vtx => vtx <> [] /\ zlen vtx <= 2 ^ 31
  | _ => True
  end.

Lemma filterload_ok vRecv p : bytes vRecv -> peer_ok p -> peer_ok (process_filterload vRecv p).
Proof.
  intros Hb Hp. unfold process_filterload. destruct (Unserialize_CBloomFilter vRecv) as [[f s]|] eqn:E; [|done].
  destruct (IsWithinSizeConstraints f) eqn:Ew; [|done]. cbn [negb].
  exists (UpdateEmptyFull f). split; [done|]. split; [|unfold UpdateEmptyFull; by destruct (fold_left _ _ _)].
  unfold IsWithinSizeConstraints in Ew. apply andb_true_iff in Ew as [Es _]. apply Z.leb_le in Es. unfold MAX_BLOOM_FILTER_SIZE in Es.
  apply UpdateEmptyFull_ok; [|lia].
  unfold Unserialize_CBloomFilter in E. apply parser_bind_Some in E as (v & s1 & Ev & E).
  apply (proj2 codec_bytes) in Ev as [-> [_ Hv]]; [|done].
  apply parser_bind_Some in E as (n & s2 & _ & E). apply parser_bind_Some in E as (t & s3 & _ & E).
  apply parser_bind_Some in E as (g & s4 & _ & E). by injection E as <- <-.
Qed.

Lemma filteradd_ok vRecv p : peer_ok p -> exists p', process_filteradd vRecv p = Some p' /\ peer_ok p'.
Proof.
  intros (f & Ef & Hf & Hw). unfold process_filteradd. assert (Hm : forall n, peer_ok (Misbehaving n p)) by (by exists f).
  destruct (Unserialize_bytes vRecv) as [[d s]|]; [|by exists p; split; [|exists f]].
  destruct (zlen d >? MAX_SCRIPT_ELEMENT_SIZE); [by eauto|]. rewrite Ef.
  destruct (insert_spec f d Hf) as (f' & -> & Hf' & He & _). cbn [mbind option_bind]. eexists. split; [done|]. exists f'. by rewrite (within_extends f f').
Qed.

Lemma merkle_block_ok f vtx : filter_ok f -> vtx <> [] -> zlen vtx <= 2 ^ 31 ->
  exists m f' t, match_block PK SG f vtx = Some (m, f') /\ length m = length vtx /\ filter_ok f' /\ extends f f' /\
    block_matched f vtx m f' /\ CPartialMerkleTree_of (map GetHash vtx) m = Some t /\
    CMerkleBlock_filter PK SG f vtx = Some (t, map (fun x => (x.2, x.1)) (selected (map GetHash vtx) m 0), f').
Proof.
  intros Hf Hn Hl. destruct (match_block_spec PK SG vtx f Hf) as (m & f' & E & Hlm & Hf' & He & HM).
  eexists m, f', _. split_and!; [done | done | done | done | done | |].
  - apply partial_tree_built; rewrite length_map; [|done..]. destruct vtx; [done | cbn; lia].
  - unfold CMerkleBlock_filter. rewrite E. cbn [mbind option_bind].
    rewrite partial_tree_built by (rewrite ?length_map; done || (destruct vtx; [done | cbn; lia])). done.
Qed.

Lemma peer_step_ok p e : peer_ok p -> event_ok e ->
  exists p' sent, peer_step PK SG NODE_BLOOM peer_version p e = Some (p', sent) /\ peer_ok p'.
Proof.
  intros Hp He. pose proof Hp as (f & Ef & Hf & Hw).
  assert (Hno : peer_ok (no_bloom peer_version p)) by (unfold no_bloom; destruct (_ <=? _); by exists f).
  destruct e as [vRecv|vRecv| |tx|vtx]; cbn [peer_step event_ok] in *; rewrite ?Ef.
  - eexists _, _. split; [done|]. destruct NODE_BLOOM; [by apply filterload_ok | done].
  - destruct NODE_BLOOM; [|by eauto]. destruct (filteradd_ok vRecv p Hp) as (p' & -> & Hp'). by eexists _, _.
  - eexists _, _. split; [done|]. unfold process_filterclear. destruct NODE_BLOOM; eexists; (split; [done|]); [split; [apply default_ok | done] | done].
  - destruct (IsRelevantAndUpdate_spec PK SG f tx Hf) as (b & f' & -> & Hf' & Hx & _). eexists _, _. split; [done|]. exists f'. by rewrite (within_extends f f').
  - destruct He as [Hn Hl]. destruct (merkle_block_ok f vtx Hf Hn Hl) as (m & f' & t & _ & _ & Hf' & Hx & _ & _ & ->).
    eexists _, _. split; [done|]. exists f'. by rewrite (within_extends f f').
Qed.

Lemma run_events_ok l : forall p, peer_ok p -> Forall event_ok l ->
  exists p', run_events PK SG NODE_BLOOM peer_version p l = Some p' /\ peer_ok p'.
Proof.
  induction l as [|e l IH]; intros p Hp Hl; [by exists p|]. apply Forall_cons in Hl as [He Hl].
  destruct (peer_step_ok p e Hp He) as (p' & sent & E & Hp'). destruct (IH p' Hp' Hl) as (q & Eq & Hq).
  exists q. split; [|done]. unfold run_events in *. cbn [fold_left mbind option_bind]. by rewrite E.
Qed.
End Peers.

(** C25: no peer can make the filter code divide by zero or leave its bit vector: from
    a new connection, whatever filters the peer loads, adds to or clears, with any
    byte string as payload, and whatever transactions and blocks are matched in
    between, every step is defined and leaves a filter of at most 36000 bytes and 50
    hash functions, whose vector is empty only when the filter is full. *)
Theorem peer_filters_well_formed (hashes : ScriptHashes) (PK SG : BLSLibrary) (NODE_BLOOM : bool) (version : Z)
    (l : list event) (Hl : Forall event_ok l) :
  exists p f, run_events PK SG NODE_BLOOM version new_peer l = Some p /\ pfilter p = Some f /\ filter_ok f /\
    zlen (vData f) <= 36000 /\ nHashFuncs f <= 50.
Proof.
  destruct (run_events_ok PK SG NODE_BLOOM version l new_peer) as (p & E & f & Ef & Hf & Hw); [|done|].
  - exists CBloomFilter_default. split; [done|]. split; [apply default_ok | done].
  - exists p, f. unfold IsWithinSizeConstraints in Hw. apply andb_true_iff in Hw as [H1%Z.leb_le H2%Z.leb_le]. by split_and!.
Qed.

(** the transactions a selection sends *)
Lemma matched_elem `{ScriptHashes} vtx m i tx : vtx !! i = Some tx -> m !! i = Some true ->
  (Z.of_nat i, GetHash tx) ∈ map (fun x => (x.2, x.1)) (selected (map GetHash vtx) m 0).
Proof.
  intros Hi Hm. apply (list_elem_of_fmap_2' (fun x : uint256 * Z => (x.2, x.1)) _ (GetHash tx, Z.of_nat (0 + i))); [|done].
  apply selected_elem; [|done]. by rewrite list_lookup_fmap, Hi.
Qed.

(** C20: a light client that loaded a filter sees what it asked for.  For a block of
    transactions with distinct ids, and unless two of the strings hashed for the Merkle
    root collide, [CMerkleBlock] is built, survives serialization, and the client
    extracts from it the block's Merkle root and exactly the matched transactions.
    Among them is every transaction of an allowed type (which [TRANSACTION_FUTURE] is
    not) whose hash the filter holds, which pays to a script that pushes something the
    filter holds, or which spends an output or shows a script the filter holds.  Only
    when the flags of the filter say that the matched output is to be added to it,
    whatever spends that output is matched too: later in the block if of an allowed
    type, or relayed at any time while the filter is only added to. *)
Theorem filtered_block_complete (hashes : ScriptHashes) (PK SG : BLSLibrary) (f : CBloomFilter) (vtx : list CTransaction) (rest : list Z)
    (Hf : filter_ok f) (Hn : vtx <> []) (Hmax : zlen vtx <= GetMaxBlockWeight / MIN_TRANSACTION_WEIGHT)
    (Hnd : NoDup (map GetHash vtx)) :
  (exists t matched f' t' root mutated e,
    CMerkleBlock_filter PK SG f vtx = Some (t, matched, f') /\
    Unserialize_CPartialMerkleTree (Serialize_CPartialMerkleTree t ++ rest) = Some (t', rest) /\
    ComputeMerkleRoot (map GetHash vtx) = Some (root, mutated) /\
    ExtractMatches t' [] = Some (root, e) /\ e_bad e = false /\ vnIndex e = map fst matched /\ vMatched e = map snd matched /\
    (forall i tx, vtx !! i = Some tx -> isAllowedType tx = true -> relevant f tx -> (Z.of_nat i, GetHash tx) ∈ matched) /\
    (forall i tx k o, vtx !! i = Some tx -> isAllowedType tx = true -> vout tx !! k = Some o ->
      matches f (scriptPubKey o) -> adds_outpoint f (scriptPubKey o) = true ->
      let outpoint := MkCOutPoint (GetHash tx) (Z.of_nat k) in
      (forall j tx', (i < j)%nat -> vtx !! j = Some tx' -> isAllowedType tx' = true -> spends tx' outpoint ->
        (Z.of_nat j, GetHash tx') ∈ matched) /\
      (forall g tx', filter_ok g -> extends f' g -> spends tx' outpoint ->
        exists g', IsRelevantAndUpdate PK SG g tx' = Some (true, g')))) \/
  collision (fun x => x ∈ root_inputs (map GetHash vtx)).
Proof.
  assert (Hmax' : zlen vtx <= 2 ^ 31) by (change (GetMaxBlockWeight / MIN_TRANSACTION_WEIGHT) with 33333 in Hmax; lia).
  destruct (merkle_block_ok PK SG f vtx Hf Hn Hmax') as (m & f' & t & _ & Hl & Hf' & He & [M1 M2] & Et & Eb).
  destruct (partial_tree_roundtrip hashes (map GetHash vtx) m rest) as [(t1 & t' & root & mutated & e & E1 & E2 & E3 & E4 & E5 & E6 & E7)|C];
    [rewrite length_map; destruct vtx; [done | cbn; lia] | by rewrite length_map | by rewrite length_map | | done | | by right].
  { apply Forall_map, Forall_true. intros tx. apply SHA256_size. }
  rewrite Et in E1. injection E1 as <-. left.
  exists t, (map (fun x => (x.2, x.1)) (selected (map GetHash vtx) m 0)), f', t', root, mutated, e. rewrite !map_map. cbn [fst snd].
  split; [exact Eb|]. split; [exact E2|]. split; [exact E3|]. split; [exact E4|]. split; [exact E5|]. split; [exact E7|]. split; [exact E6|]. split.
  - intros i tx Hi Ha R. apply matched_elem; eauto.
  - intros i tx k o Hi Ha Ho Hm Hadd. destruct (M2 i tx k o Hi Ha Ho Hm Hadd) as [Hh Hj]. split.
    + intros j tx' Lj Hj' Ha' Hs. apply matched_elem; eauto.
    + intros g tx' Hg Eg Hs. destruct (IsRelevantAndUpdate_spec PK SG g tx' Hg) as (b & g' & E & _ & _ & Hb & _).
      exists g'. rewrite E, Hb; [done|]. eapply spends_relevant; [exact Hs|]. by eapply holds_extends.
Qed.

(** ** Examples *)

Definition no_keys : BLSLibrary := {| bls_impl := unit; InternalSetBuf _ := None; InternalGetBuf _ := [] |}.

Definition watched_key : list Z := replicate 20 7.
Definition watching : CBloomFilter :=
  default CBloomFilter_default (insert (MkCBloomFilter (replicate 16 0) false true 3 5 BLOOM_UPDATE_ALL) watched_key).
Definition input_of (h : list Z) : CTxIn := MkCTxIn (MkCOutPoint h 0) [] 0xffffffff [].
Definition output_to (s : script_bytes) : CTxOut := MkCTxOut 5 s (-10).
Definition coinbase_example : CTransaction := MkCTransaction 1 0 [] [output_to [0x51]] 0 [].
Definition payment_example : CTransaction :=
  MkCTransaction 2 0 [input_of (replicate 32 1)] [output_to (20 :: watched_key ++ [0xac])] 0 [].
Definition spend_example : CTransaction :=
  MkCTransaction 1 0 [input_of (@GetHash sample_hashes payment_example)] [output_to [0x52]] 0 [].
Definition block_example : list CTransaction := [coinbase_example; payment_example; spend_example].

Lemma watching_ok : filter_ok watching.
Proof.
  split.
  - apply (bool_decide_unpack _). vm_compute. exact I.
  - vm_compute. reflexivity.
  - intros _. vm_compute. discriminate.
Defined.

(** a filter without bits and with one hash function, which would divide by zero; the
    peer then adds to it and is sent a transaction and a block *)
Definition hostile_messages : list event :=
  [FILTERLOAD (0 :: [1; 0; 0; 0] ++ [9; 0; 0; 0] ++ [1]); FILTERADD [2; 5; 6]; RelayTx payment_example;
   SendFilteredBlock block_example; FILTERCLEAR; FILTERADD [1; 1]].

Lemma peer_filters_well_formed_witness :
  exists p f, @run_events sample_hashes no_keys no_keys true 70017 new_peer hostile_messages = Some p /\ pfilter p = Some f /\ filter_ok f /\
    zlen (vData f) <= 36000 /\ nHashFuncs f <= 50.
Proof.
  apply (peer_filters_well_formed sample_hashes no_keys no_keys true 70017 hostile_messages).
  repeat constructor; try (apply (bool_decide_unpack _); vm_compute; exact I); discriminate.
Defined.

(** the payment to the watched key and the transaction that spends it are both sent *)
Lemma filtered_block_complete_witness :
  (exists t matched f', @CMerkleBlock_filter sample_hashes no_keys no_keys watching block_example = Some (t, matched, f') /\
    (1, @GetHash sample_hashes payment_example) ∈ matched /\ (2, @GetHash sample_hashes spend_example) ∈ matched) \/
  @collision sample_hashes (fun x => x ∈ @root_inputs sample_hashes (map (@GetHash sample_hashes) block_example)).
Proof.
  destruct (filtered_block_complete sample_hashes no_keys no_keys watching block_example []) as
    [(t & matched & f' & t' & root & mutated & e & E & _ & _ & _ & _ & _ & _ & M1 & M2)|C].
  - apply watching_ok.
  - discriminate.
  - vm_compute. discriminate.
  - apply (bool_decide_unpack _). vm_compute. exact I.
  - left. exists t, matched, f'. split; [exact E|].
    assert (M : matches watching (20 :: watched_key ++ [0xac])).
    { exists watched_key. split; [|split; [discriminate | vm_compute; reflexivity]].
      apply (push_here _ [0xac] 20). vm_compute. reflexivity. }
    split.
    + apply (M1 1%nat payment_example); [reflexivity | reflexivity |]. right. left. apply Exists_cons_hd. exact M.
    + refine (proj1 (M2 1%nat payment_example 0%nat (output_to (20 :: watched_key ++ [0xac])) _ _ _ M _) 2%nat spend_example _ _ _ _);
        try reflexivity; [lia|]. apply Exists_cons_hd. reflexivity.
  - right. exact C.
Defined.
