(* ===== verification/RollingBloom.v ===== *)
(** * The rolling Bloom filter (bloom.h, bloom.cpp)

    [CRollingBloomFilter] remembers what was inserted last: the inventory a peer
    knows, the addresses sent to it, the transactions rejected recently.  A cell has
    two bits, spread over two words, which hold the number 1, 2 or 3 of the
    generation that set it last; starting a generation wipes the cells that still
    hold its number.

    An operation is [None] when it indexes outside [data]. *)

From S2P Require Import Prelude ScriptNum Serialize Hashing Siphash.
Open Scope Z_scope.

Record CRollingBloomFilter := MkRolling {
  nEntriesPerGeneration : Z;
  nEntriesThisGeneration : Z;
  nGeneration : Z;
  data : list Z;
  nTweak : Z;
  nHashFuncs : Z;
}.

Definition set_data (d : list Z) (f : CRollingBloomFilter) : CRollingBloomFilter :=
  MkRolling (nEntriesPerGeneration f) (nEntriesThisGeneration f) (nGeneration f) d (nTweak f) (nHashFuncs f).

Definition RollingBloomHash (nHashNum nTweak : Z) (vDataToHash : list Z) : Z :=
  MurmurHash3 (u32 (nHashNum * 0xFBA4C795 + nTweak)) vDataToHash.

Definition FastMod (x n : Z) : Z := u32 (Z.shiftr (u64 (x * n)) 32).

(** [GetRand] gives the tweak *)
Definition reset (rand : Z) (f : CRollingBloomFilter) : CRollingBloomFilter :=
  MkRolling (nEntriesPerGeneration f) 0 1 (map (fun _ => 0) (data f)) rand (nHashFuncs f).

(** the constructor; [(int)round(logFpRate / log(0.5))] and the number of bits, both
    computed in floating point, are given *)
Definition CRollingBloomFilter_new (nElements ideal_funcs nFilterBits rand : Z) : CRollingBloomFilter :=
  let nHashFuncs := Z.max 1 (Z.min ideal_funcs 50) in
  let nEntriesPerGeneration := u32 (nElements + 1) / 2 in
  let size := Z.shiftl (u32 (nFilterBits + 63) / 64) 1 in
  reset rand (MkRolling nEntriesPerGeneration 0 0 (replicate (Z.to_nat size) 0) 0 nHashFuncs).

(** [for (uint32_t p = 0; p < data.size(); p += 2)] of a new generation *)
Fixpoint wipe (nGenerationMask1 nGenerationMask2 : Z) (d : list Z) : option (list Z) :=
  match d with
  | [] => Some []
  | [_] => None
  | p1 :: p2 :: d =>
      let mask := Z.lor (Z.lxor p1 nGenerationMask1) (Z.lxor p2 nGenerationMask2) in
      d ← wipe nGenerationMask1 nGenerationMask2 d;
      Some (Z.land p1 mask :: Z.land p2 mask :: d)
  end.

(** the [if (nEntriesThisGeneration == nEntriesPerGeneration)] of [insert] *)
Definition next_generation (f : CRollingBloomFilter) : option CRollingBloomFilter :=
  if nEntriesThisGeneration f =? nEntriesPerGeneration f then
    let gen := nGeneration f + 1 in
    let gen := if gen =? 4 then 1 else gen in
    let nGenerationMask1 := u64 (0 - Z.land gen 1) in
    let nGenerationMask2 := u64 (0 - Z.shiftr gen 1) in
    d ← wipe nGenerationMask1 nGenerationMask2 (data f);
    Some (MkRolling (nEntriesPerGeneration f) 0 gen d (nTweak f) (nHashFuncs f))
  else Some f.

(** [(w & ~(((uint64_t)1) << bit)) | ((uint64_t)v) << bit] *)
Definition put_bit (w bit v : Z) : Z := Z.lor (Z.land w (u64 (Z.lnot (Z.shiftl 1 bit)))) (u64 (Z.shiftl v bit)).

(** the body of the loop of [insert] *)
Definition set_cell (f : CRollingBloomFilter) (h : Z) : option CRollingBloomFilter :=
  let bit := Z.land h 0x3F in
  let pos := FastMod h (zlen (data f)) in
  let i1 := Z.to_nat (Z.land pos 0xfffffffe) in
  let i2 := Z.to_nat (Z.lor pos 1) in
  w1 ← data f !! i1;
  let d := <[i1 := put_bit w1 bit (Z.land (nGeneration f) 1)]> (data f) in
  w2 ← d !! i2;
  Some (set_data (<[i2 := put_bit w2 bit (Z.shiftr (nGeneration f) 1)]> d) f).

Fixpoint insert_from (k : nat) (n : Z) (vKey : list Z) (f : CRollingBloomFilter) : option CRollingBloomFilter :=
  match k with
  | O => Some f
  | S k => f ← set_cell f (RollingBloomHash n (nTweak f) vKey); insert_from k (n + 1) vKey f
  end.

Definition insert (f : CRollingBloomFilter) (vKey : list Z) : option CRollingBloomFilter :=
  f ← next_generation f;
  let f := MkRolling (nEntriesPerGeneration f) (nEntriesThisGeneration f + 1) (nGeneration f) (data f) (nTweak f) (nHashFuncs f) in
  insert_from (Z.to_nat (nHashFuncs f)) 0 vKey f.

(** [((data[pos & ~1] | data[pos | 1]) >> bit) & 1] *)
Definition test_cell (f : CRollingBloomFilter) (h : Z) : option bool :=
  let bit := Z.land h 0x3F in
  let pos := FastMod h (zlen (data f)) in
  w1 ← data f !! Z.to_nat (Z.land pos 0xfffffffe);
  w2 ← data f !! Z.to_nat (Z.lor pos 1);
  Some (negb (Z.land (Z.shiftr (Z.lor w1 w2) bit) 1 =? 0)).

Fixpoint contains_from (k : nat) (n : Z) (vKey : list Z) (f : CRollingBloomFilter) : option bool :=
  match k with
  | O => Some true
  | S k =>
      b ← test_cell f (RollingBloomHash n (nTweak f) vKey);
      if negb b then Some false else contains_from k (n + 1) vKey f
  end.

Definition contains (f : CRollingBloomFilter) (vKey : list Z) : option bool :=
  contains_from (Z.to_nat (nHashFuncs f)) 0 vKey f.

(** insertions one after the other *)
Definition insert_all (f : CRollingBloomFilter) (keys : list (list Z)) : option CRollingBloomFilter :=
  fold_left (fun f key => f ← f; insert f key) keys (Some f).

(** ** Ranges *)

Lemma lxor_range n a b : 0 <= n -> 0 <= a < 2 ^ n -> 0 <= b < 2 ^ n -> 0 <= Z.lxor a b < 2 ^ n.
Proof.
  intros Hn Ha Hb. assert (H0 : 0 <= Z.lxor a b) by (apply Z.lxor_nonneg; lia). split; [done|].
  destruct (Z.eq_dec (Z.lxor a b) 0) as [->|]; [lia|]. apply Z.log2_lt_pow2; [lia|].
  assert (Hlog : forall x, 0 <= x < 2 ^ n -> 0 < x -> Z.log2 x < n) by (intros x Hx Hp; apply Z.log2_lt_pow2; lia).
  destruct (Z.eq_dec a 0) as [->|]; [rewrite Z.lxor_0_l in *; apply Hlog; lia|].
  destruct (Z.eq_dec b 0) as [->|]; [rewrite Z.lxor_0_r in *; apply Hlog; lia|].
  eapply Z.le_lt_trans; [apply Z.log2_lxor; lia|]. apply Z.max_lub_lt; apply Hlog; lia.
Qed.

Lemma RollingBloomHash_range n t key : 0 <= RollingBloomHash n t key < 2 ^ 32.
Proof.
  unfold RollingBloomHash, MurmurHash3. set (h := u32 (_ * 0xc2b2ae35)). pose proof (u32_range (Z.lxor _ _ * 0xc2b2ae35) : 0 <= h < 2 ^ 32) as Hh.
  apply lxor_range; [lia | done |]. rewrite Z.shiftr_div_pow2 by lia.
  split; [apply Z.div_pos; lia | apply Z.div_lt_upper_bound; lia].
Qed.

(** ** Cells *)

Lemma low_half pos q r : pos = 2 * q + Z.b2z r -> 0 <= pos < 2 ^ 32 -> Z.land pos 0xfffffffe = 2 * q /\ Z.lor pos 1 = 2 * q + 1.
Proof.
  intros -> Hp. assert (Hq : 0 <= q < 2 ^ 31) by (destruct r; cbn in Hp; lia). split; apply Z.bits_inj'; intros n Hn.
  - rewrite Z.land_spec. change 0xfffffffe with (2 * Z.ones 31 + Z.b2z false). replace (Z.testbit (2 * q) n) with (Z.testbit (2 * q + Z.b2z false) n) by (f_equal; cbn; lia).
    destruct (Z.eq_dec n 0) as [->|]; [by rewrite !Z.testbit_0_r, andb_false_r|].
    rewrite <- (Z.succ_pred n), !Z.testbit_succ_r by lia. destruct (Z.lt_ge_cases (Z.pred n) 31).
    + by rewrite Z.ones_spec_low, andb_true_r by lia.
    + rewrite Z.ones_spec_high, andb_false_r by lia. rewrite <- (Z.mod_small q (2 ^ 31)) by lia. by rewrite Z.mod_pow2_bits_high by lia.
  - rewrite Z.lor_spec. change (Z.testbit 1 n) with (Z.testbit (2 * 0 + Z.b2z true) n). change (2 * q + 1) with (2 * q + Z.b2z true). destruct (Z.eq_dec n 0) as [->|].
    + rewrite !Z.testbit_0_r. apply orb_true_r.
    + by rewrite <- (Z.succ_pred n), !Z.testbit_succ_r, Z.bits_0, orb_false_r by lia.
Qed.

(** the number held by the cell at a bit of a pair of words *)
Definition code (d : list Z) (w : nat) (b : Z) : Z :=
  Z.b2z (Z.testbit (d !!! (2 * w)%nat) b) + 2 * Z.b2z (Z.testbit (d !!! (2 * w + 1)%nat) b).

(** the cell of a hash *)
Definition word_of (size h : Z) : nat := Z.to_nat (FastMod h size / 2).
Definition bit_of (h : Z) : Z := Z.land h 0x3F.

Lemma bit_of_range h : 0 <= bit_of h < 64.
Proof. unfold bit_of. change 0x3F with (Z.ones 6). rewrite Z.land_ones by lia. apply Z.mod_pos_bound. lia. Qed.

Section Cells.
Context (d : list Z) (pairs : nat) (Hd : length d = (2 * pairs)%nat) (Hpos : (0 < pairs)%nat) (Hsize : zlen d < 2 ^ 32).
Context (h : Z) (Hh : 0 <= h < 2 ^ 32).

Lemma FastMod_range : 0 <= FastMod h (zlen d) < zlen d.
Proof.
  unfold FastMod. rewrite u64_small by (unfold is_u64; nia). rewrite Z.shiftr_div_pow2 by lia.
  assert (0 <= h * zlen d / 2 ^ 32 < zlen d) by (split; [apply Z.div_pos; nia | apply Z.div_lt_upper_bound; nia]).
  rewrite u32_small by (unfold is_u32; lia). done.
Qed.

Lemma cell_index : Z.to_nat (Z.land (FastMod h (zlen d)) 0xfffffffe) = (2 * word_of (zlen d) h)%nat /\
  Z.to_nat (Z.lor (FastMod h (zlen d)) 1) = (2 * word_of (zlen d) h + 1)%nat /\ (2 * word_of (zlen d) h + 1 < length d)%nat.
Proof.
  pose proof FastMod_range as R. unfold word_of. set (pos := FastMod h (zlen d)) in *.
  pose proof (Z.div_mod pos 2 ltac:(lia)) as E. pose proof (Z.mod_pos_bound pos 2 ltac:(lia)).
  destruct (low_half pos (pos / 2) (pos mod 2 =? 1)) as [-> ->]; [|lia|].
  - destruct (Z.eqb_spec (pos mod 2) 1); cbn [Z.b2z]; lia.
  - lia.
Qed.
End Cells.

Lemma put_bit_spec w bit v k : 0 <= bit < 64 -> 0 <= v < 2 -> 0 <= k < 64 ->
  Z.testbit (put_bit w bit v) k = if k =? bit then v =? 1 else Z.testbit w k.
Proof.
  intros Hb Hv Hk. unfold put_bit, u64. rewrite Z.lor_spec, Z.land_spec, !Z.mod_pow2_bits_low, Z.lnot_spec, Z.shiftl_1_l, Z.pow2_bits_eqb, Z.shiftl_spec by lia.
  rewrite (Z.eqb_sym bit k). destruct (Z.eqb_spec k bit) as [->|N].
  - rewrite Z.sub_diag. cbn [negb]. rewrite andb_false_r. assert (v = 0 \/ v = 1) as [-> | ->] by lia; done.
  - cbn [negb]. rewrite andb_true_r. replace (Z.testbit v (k - bit)) with false; [apply orb_false_r|].
    symmetry. destruct (Z.lt_ge_cases k bit); [by apply Z.testbit_neg_r; lia|].
    rewrite <- (Z.mod_small v (2 ^ 1)) by lia. apply Z.mod_pow2_bits_high. lia.
Qed.

(** the three numbers in two bits *)
Lemma gen_bits g : 1 <= g <= 3 -> 0 <= Z.land g 1 < 2 /\ 0 <= Z.shiftr g 1 < 2 /\
  Z.b2z (Z.land g 1 =? 1) + 2 * Z.b2z (Z.shiftr g 1 =? 1) = g.
Proof. intros H. assert (g = 1 \/ g = 2 \/ g = 3) as [-> | [-> | ->]] by lia; done. Qed.

Definition pairs_of (d : list Z) (pairs : nat) : Prop := length d = (2 * pairs)%nat /\ (0 < pairs)%nat /\ zlen d < 2 ^ 32.

Lemma set_cell_spec f pairs h : pairs_of (data f) pairs -> 0 <= h < 2 ^ 32 -> 1 <= nGeneration f <= 3 ->
  exists d, set_cell f h = Some (set_data d f) /\ pairs_of d pairs /\
    forall w b, 0 <= b < 64 -> code d w b =
      if bool_decide (w = word_of (zlen (data f)) h) && (b =? bit_of h) then nGeneration f else code (data f) w b.
Proof.
  intros (Hd & Hp & Hs) Hh Hg. destruct (cell_index (data f) pairs Hd Hp Hs h Hh) as (E1 & E2 & Hi).
  unfold set_cell. rewrite E1, E2. set (x := word_of (zlen (data f)) h) in *. fold (bit_of h).
  destruct (lookup_lt_is_Some_2 (data f) (2 * x) ltac:(lia)) as [w1 W1]. rewrite W1. cbn [mbind option_bind].
  destruct (lookup_lt_is_Some_2 (data f) (2 * x + 1) Hi) as [w2 W2].
  rewrite list_lookup_insert_ne, W2 by lia. cbn [mbind option_bind]. eexists. split; [done|].
  split; [by unfold pairs_of; rewrite !length_insert|]. intros w b Hb. pose proof (bit_of_range h) as Hbit.
  destruct (gen_bits (nGeneration f) Hg) as (G1 & G2 & G3). unfold code.
  destruct (bool_decide_reflect (w = x)) as [->|N]; cbn [andb].
  - rewrite list_lookup_total_insert_ne, list_lookup_total_insert_eq, list_lookup_total_insert_eq by (rewrite ?length_insert; lia).
    rewrite !put_bit_spec, (list_lookup_total_correct _ _ _ W1), (list_lookup_total_correct _ _ _ W2) by done.
    by destruct (b =? bit_of h).
  - by rewrite !list_lookup_total_insert_ne by lia.
Qed.

Lemma test_cell_spec f pairs h : pairs_of (data f) pairs -> 0 <= h < 2 ^ 32 ->
  test_cell f h = Some (negb (code (data f) (word_of (zlen (data f)) h) (bit_of h) =? 0)).
Proof.
  intros (Hd & Hp & Hs) Hh. destruct (cell_index (data f) pairs Hd Hp Hs h Hh) as (E1 & E2 & Hi).
  unfold test_cell. rewrite E1, E2. set (x := word_of (zlen (data f)) h) in *. fold (bit_of h). unfold code.
  destruct (lookup_lt_is_Some_2 (data f) (2 * x) ltac:(lia)) as [w1 W1].
  destruct (lookup_lt_is_Some_2 (data f) (2 * x + 1) Hi) as [w2 W2].
  rewrite W1, W2, (list_lookup_total_correct _ _ _ W1), (list_lookup_total_correct _ _ _ W2). cbn [mbind option_bind].
  do 2 f_equal. pose proof (bit_of_range h). change 1 with (Z.ones 1) at 1. rewrite Z.land_ones by lia. change (2 ^ 1) with 2.
  rewrite <- Z.bit0_mod, Z.shiftr_spec, Z.add_0_l, Z.lor_spec by lia.
  by destruct (Z.testbit w1 _), (Z.testbit w2 _).
Qed.

Lemma mask_bit g k : 0 <= g < 2 -> 0 <= k < 64 -> Z.testbit (u64 (0 - g)) k = (g =? 1).
Proof.
  intros Hg Hk. unfold u64. rewrite Z.mod_pow2_bits_low by lia. assert (g = 0 \/ g = 1) as [-> | ->] by lia.
  - apply Z.bits_0.
  - change (0 - 1) with (-1). apply Z.bits_m1. lia.
Qed.

Lemma code_skip p1 p2 d w b : code (p1 :: p2 :: d) (S w) b = code d w b.
Proof. unfold code. replace (2 * S w)%nat with (S (S (2 * w))) by lia. done. Qed.

Lemma wipe_spec g pairs : 1 <= g <= 3 -> forall d, length d = (2 * pairs)%nat ->
  exists d', wipe (u64 (0 - Z.land g 1)) (u64 (0 - Z.shiftr g 1)) d = Some d' /\ length d' = length d /\
    forall w b, 0 <= b < 64 -> code d' w b = if code d w b =? g then 0 else code d w b.
Proof.
  intros Hg. destruct (gen_bits g Hg) as (G1 & G2 & G3). induction pairs as [|n IH]; intros d Hd.
  { destruct d; [|done]. exists []. split; [done|]. split; [done|]. intros w b _. unfold code. rewrite !lookup_total_nil.
    change (inhabitant : Z) with 0. rewrite Z.bits_0. change (Z.b2z false + 2 * Z.b2z false) with 0. by destruct (0 =? g). }
  destruct d as [|p1 [|p2 d]]; [cbn in Hd; lia..|]. destruct (IH d) as (d' & E & Hl & Hc); [cbn in Hd; lia|].
  cbn [wipe]. rewrite E. cbn [mbind option_bind]. eexists. split; [done|]. split; [cbn; by rewrite Hl|].
  intros [|w] b Hb; [|rewrite !code_skip; by apply Hc]. unfold code. cbn [Nat.mul Nat.add lookup_total list_lookup_total].
  rewrite !Z.land_spec, !Z.lor_spec, !Z.lxor_spec, !mask_bit by done.
  remember (Z.land g 1 =? 1) as e1. remember (Z.shiftr g 1 =? 1) as e2. rewrite <- G3.
  by destruct (Z.testbit p1 b), (Z.testbit p2 b), e1, e2.
Qed.

(** ** What was inserted last *)

(** a filter that can be used *)
Record rolling_ok (f : CRollingBloomFilter) : Prop := {
  rolling_pairs : exists pairs, pairs_of (data f) pairs;
  rolling_entries : 0 < nEntriesPerGeneration f;
  rolling_funcs : 0 <= nHashFuncs f;
}.

(** the number of the [a]-th generation *)
Definition number (a : Z) : Z := 1 + (a - 1) mod 3.

Lemma number_range a : 1 <= number a <= 3.
Proof. unfold number. pose proof (Z.mod_pos_bound (a - 1) 3). lia. Qed.

Lemma number_next a : (if number a + 1 =? 4 then 1 else number a + 1) = number (a + 1).
Proof.
  unfold number. pose proof (Z.div_mod (a - 1) 3 ltac:(lia)) as E. pose proof (Z.mod_pos_bound (a - 1) 3 ltac:(lia)).
  destruct (Z.eqb_spec (1 + (a - 1) mod 3 + 1) 4).
  - rewrite <- (Z.mod_unique (a + 1 - 1) 3 ((a - 1) / 3 + 1) 0); lia.
  - rewrite <- (Z.mod_unique (a + 1 - 1) 3 ((a - 1) / 3) ((a - 1) mod 3 + 1)); lia.
Qed.

Lemma number_differs a c : c - 2 <= a < c -> number a <> number c.
Proof.
  unfold number. intros H. pose proof (Z.div_mod (a - 1) 3 ltac:(lia)). pose proof (Z.div_mod (c - 1) 3 ltac:(lia)).
  pose proof (Z.mod_pos_bound (a - 1) 3 ltac:(lia)). pose proof (Z.mod_pos_bound (c - 1) 3 ltac:(lia)). lia.
Qed.

(** the cell of the [n]-th hash of a key holds the number of a generation from [a] to [c] *)
Definition cell_in (f : CRollingBloomFilter) (a c : Z) (key : list Z) (n : Z) : Prop :=
  let h := RollingBloomHash n (nTweak f) key in
  exists x, a <= x <= c /\ code (data f) (word_of (zlen (data f)) h) (bit_of h) = number x.

Definition key_in (f : CRollingBloomFilter) (a c : Z) (key : list Z) : Prop := forall n, 0 <= n < nHashFuncs f -> cell_in f a c key n.

(** [f] in its [c]-th generation after [keys] were inserted: the [t]-th key was
    inserted in generation [1 + t / nEntriesPerGeneration] *)
Record remembers (f : CRollingBloomFilter) (c : Z) (keys : list (list Z)) : Prop := {
  rem_ok : rolling_ok f;
  rem_gen : nGeneration f = number c;
  rem_count : zlen keys = (c - 1) * nEntriesPerGeneration f + nEntriesThisGeneration f;
  rem_this : 0 <= nEntriesThisGeneration f <= nEntriesPerGeneration f;
  rem_keys : forall t key, keys !! t = Some key -> c - 2 <= 1 + Z.of_nat t / nEntriesPerGeneration f ->
    key_in f (1 + Z.of_nat t / nEntriesPerGeneration f) c key;
}.

(** [d] is a later version of the words of [f]: old cells are kept or renewed *)
Definition renews (f : CRollingBloomFilter) (c : Z) (d : list Z) : Prop :=
  forall a key n, a <= c -> cell_in f a c key n -> cell_in (set_data d f) a c key n.

Lemma set_cell_renews f c n key : rolling_ok f -> nGeneration f = number c ->
  exists d, set_cell f (RollingBloomHash n (nTweak f) key) = Some (set_data d f) /\ rolling_ok (set_data d f) /\
    renews f c d /\ cell_in (set_data d f) c c key n.
Proof.
  intros [[pairs Hp] He Hn] Hg. pose proof (RollingBloomHash_range n (nTweak f) key) as Hh. set (h := RollingBloomHash n (nTweak f) key) in *.
  destruct (set_cell_spec f pairs h Hp Hh) as (d & E & Hd & Hc); [rewrite Hg; apply number_range|].
  assert (Hl : length d = length (data f)) by (destruct Hp as [-> _], Hd as [-> _]; done).
  exists d. split; [done|]. split; [split; [by exists pairs | done | done]|]. rewrite Hg in Hc. split.
  - intros a key' m Ha (x & Hx & Ex). unfold cell_in. cbn [data set_data nTweak]. rewrite Hl, Hc by apply bit_of_range.
    destruct (bool_decide _ && _); [exists c; split; [lia | done] | by exists x].
  - exists c. split; [lia|]. cbn [data set_data nTweak]. rewrite Hl, Hc by apply bit_of_range. fold h.
    by rewrite bool_decide_true, Z.eqb_refl.
Qed.

Lemma insert_from_renews c key k : forall n f, rolling_ok f -> nGeneration f = number c ->
  exists d, insert_from k n key f = Some (set_data d f) /\ rolling_ok (set_data d f) /\ renews f c d /\
    forall m, n <= m < n + Z.of_nat k -> cell_in (set_data d f) c c key m.
Proof.
  induction k as [|k IH]; intros n f Hf Hg; cbn [insert_from].
  { exists (data f). destruct f. split; [done|]. split; [done|]. split; [by intros a key' m _ Hm | lia]. }
  destruct (set_cell_renews f c n key Hf Hg) as (d & -> & Hf1 & Hr & Hc). cbn [mbind option_bind].
  destruct (IH (n + 1) (set_data d f) Hf1 Hg) as (d' & E & Hf2 & Hr' & Hc'). exists d'. split; [exact E|]. split; [exact Hf2|]. split.
  - intros a key' m Ha Hm. apply Hr'; [done|]. by apply Hr.
  - intros m Hm. destruct (Z.eq_dec m n) as [->|]; [|apply Hc'; lia]. apply (Hr' c key n ltac:(lia) Hc).
Qed.

Lemma next_generation_remembers f c keys : remembers f c keys ->
  exists f' c', next_generation f = Some f' /\ remembers f' c' keys /\ nEntriesThisGeneration f' < nEntriesPerGeneration f' /\
    nEntriesPerGeneration f' = nEntriesPerGeneration f.
Proof.
  intros H. unfold next_generation. destruct (Z.eqb_spec (nEntriesThisGeneration f) (nEntriesPerGeneration f)) as [E|N].
  2: { exists f, c. split; [done|]. split; [done|]. pose proof (rem_this _ _ _ H). split; [lia | done]. }
  destruct H as [[[pairs (Hd & Hp & Hs)] He Hn] Hg Hk Ht Hkeys]. rewrite Hg, number_next.
  destruct (wipe_spec (number (c + 1)) pairs (number_range _) (data f) Hd) as (d & -> & Hl & Hc). cbn [mbind option_bind].
  eexists _, (c + 1). split; [done|]. split; [|cbn; lia]. split; cbn [nEntriesPerGeneration nEntriesThisGeneration nGeneration].
  - split; cbn; [|done..]. exists pairs. unfold pairs_of. rewrite Hl. done.
  - done.
  - lia.
  - lia.
  - intros t key Ht' Ha n Hn'. cbn [nHashFuncs] in Hn'. destruct (Hkeys t key Ht' ltac:(lia) n Hn') as (x & Hx & Ex).
    exists x. split; [lia|]. cbn [data nTweak] in *. rewrite Hl, Hc, Ex by apply bit_of_range.
    rewrite (proj2 (Z.eqb_neq _ _)); [done|]. apply number_differs. lia.
Qed.

Lemma insert_remembers f c keys key : remembers f c keys ->
  exists f' c', insert f key = Some f' /\ remembers f' c' (keys ++ [key]) /\
    nEntriesPerGeneration f' = nEntriesPerGeneration f.
Proof.
  intros H. destruct (next_generation_remembers f c keys H) as (g & c' & E & [Hg Hgen Hcount Hthis Hkeys] & Hlt & Hper).
  unfold insert. rewrite E. cbn [mbind option_bind].
  set (g1 := MkRolling (nEntriesPerGeneration g) (nEntriesThisGeneration g + 1) (nGeneration g) (data g) (nTweak g) (nHashFuncs g)).
  assert (Hg1 : rolling_ok g1) by (destruct Hg; by split).
  destruct (insert_from_renews c' key (Z.to_nat (nHashFuncs g1)) 0 g1 Hg1 Hgen) as (d & Ed & Hok & Hr & Hnew).
  exists (set_data d g1), c'. split; [done|]. split; [|done]. split; [done | done | rewrite length_app; cbn in *; lia | cbn in *; lia |].
  cbn [nEntriesPerGeneration set_data g1]. pose proof (rolling_entries g Hg). intros t x Hx Ha n Hn.
  assert (Hle : 1 + Z.of_nat t / nEntriesPerGeneration g <= c').
  { apply lookup_lt_Some in Hx. rewrite length_app in Hx. cbn in Hx.
    assert (Z.of_nat t / nEntriesPerGeneration g < c'); [|lia]. apply Z.div_lt_upper_bound; [done|]. nia. }
  apply lookup_snoc_Some in Hx as [[Hlt' Hx]|[Ht <-]].
  - apply Hr; [done|]. by apply (Hkeys t x Hx Ha).
  - destruct (Hnew n) as (y & Hy & Ey); [cbn in Hn |- *; lia|]. exists y. split; [lia | done].
Qed.

Lemma insert_all_remembers keys : forall f c old, remembers f c old ->
  exists f' c', insert_all f keys = Some f' /\ remembers f' c' (old ++ keys) /\ nEntriesPerGeneration f' = nEntriesPerGeneration f.
Proof.
  induction keys as [|key keys IH]; intros f c old H; [exists f, c; by rewrite app_nil_r|].
  destruct (insert_remembers f c old key H) as (g & c1 & E & Hg & Hper). destruct (IH g c1 _ Hg) as (f' & c' & E' & Hf' & Hper').
  exists f', c'. unfold insert_all in *. cbn [fold_left mbind option_bind]. rewrite E.
  rewrite <- app_assoc in Hf'. split; [done|]. split; [done | congruence].
Qed.

Lemma contains_from_true f key k : forall n, rolling_ok f -> (forall m, n <= m < n + Z.of_nat k -> exists a c, cell_in f a c key m) ->
  contains_from k n key f = Some true.
Proof.
  induction k as [|k IH]; intros n Hf Hc; [done|]. cbn [contains_from]. destruct (rolling_pairs f Hf) as [pairs Hp].
  rewrite (test_cell_spec f pairs _ Hp (RollingBloomHash_range _ _ _)). cbn [mbind option_bind].
  destruct (Hc n ltac:(lia)) as (a & c & x & _ & ->). pose proof (number_range x). rewrite (proj2 (Z.eqb_neq _ _)) by lia. cbn [negb].
  apply IH; [done|]. intros m Hm. apply Hc. lia.
Qed.

Lemma reset_remembers rand f : rolling_ok f -> remembers (reset rand f) 1 [].
Proof.
  intros [[pairs Hp] He Hn]. split; cbn; [|done|lia|lia|done].
  split; cbn; [|done..]. exists pairs. unfold pairs_of in *. by rewrite length_map.
Qed.

Lemma new_ok nElements ideal_funcs nFilterBits rand : 1 <= nElements < 2 ^ 32 - 1 -> 1 <= nFilterBits <= 2 ^ 32 - 64 ->
  remembers (CRollingBloomFilter_new nElements ideal_funcs nFilterBits rand) 1 [] /\
  nElements <= 2 * nEntriesPerGeneration (CRollingBloomFilter_new nElements ideal_funcs nFilterBits rand).
Proof.
  intros He Hb. unfold CRollingBloomFilter_new. rewrite !u32_small by (unfold is_u32; lia).
  pose proof (Z.div_mod (nElements + 1) 2 ltac:(lia)). pose proof (Z.mod_pos_bound (nElements + 1) 2 ltac:(lia)).
  split; [|cbn [nEntriesPerGeneration reset]; lia]. apply reset_remembers. split; cbn [data nEntriesPerGeneration nHashFuncs]; [|lia|lia].
  rewrite Z.shiftl_mul_pow2 by lia. change (2 ^ 1) with 2. set (q := (nFilterBits + 63) / 64).
  assert (1 <= q <= 2 ^ 26) by (split; [apply Z.div_le_lower_bound; lia | apply Z.div_le_upper_bound; lia]).
  exists (Z.to_nat q). unfold pairs_of. rewrite length_replicate. lia.
Qed.

(** C21: a rolling filter made for [nElements] elements never forgets the last
    [nElements] keys: however many keys were inserted before, each insertion stays
    inside [data], and [contains] is true for every one of the last [nElements]. *)
Theorem rolling_filter_recent (nElements ideal_funcs nFilterBits rand : Z) (keys : list (list Z))
    (He : 1 <= nElements < 2 ^ 32 - 1) (Hb : 1 <= nFilterBits <= 2 ^ 32 - 64) :
  exists f, insert_all (CRollingBloomFilter_new nElements ideal_funcs nFilterBits rand) keys = Some f /\
    forall t key, keys !! t = Some key -> zlen keys - nElements <= Z.of_nat t -> contains f key = Some true.
Proof.
  destruct (new_ok nElements ideal_funcs nFilterBits rand He Hb) as [Hn Hper].
  destruct (insert_all_remembers keys _ 1 [] Hn) as (f & c & E & [Hf Hg Hcount Hthis Hkeys] & Ep). exists f. split; [exact E|].
  intros t key Ht Hrecent. rewrite <- Ep in Hper. pose proof (rolling_entries f Hf).
  assert (Hgen : c - 2 <= 1 + Z.of_nat t / nEntriesPerGeneration f).
  { assert (c - 3 <= Z.of_nat t / nEntriesPerGeneration f); [|lia]. apply Z.div_le_lower_bound; [done|]. cbn [app] in Hcount. nia. }
  pose proof (Hkeys t key Ht Hgen) as Hk. apply contains_from_true; [done|].
  intros m Hm. exists (1 + Z.of_nat t / nEntriesPerGeneration f), c. apply Hk. pose proof (rolling_funcs f Hf). lia.
Qed.

(** seven keys in a filter for three: the last three are there, the first was wiped *)
Lemma rolling_filter_recent_witness :
  let keys := map (fun i => [i; i + 1]) [1; 2; 3; 4; 5; 6; 7] in
  exists f, insert_all (CRollingBloomFilter_new 3 2 1000 77) keys = Some f /\
    contains f [5; 6] = Some true /\ contains f [1; 2] = Some false.
Proof.
  intros keys. destruct (rolling_filter_recent 3 2 1000 77 keys) as (f & E & H); [lia | lia |].
  exists f. split; [exact E|]. split.
  - apply (H 4%nat); [reflexivity | vm_compute; discriminate].
  - revert E. assert (V : match insert_all (CRollingBloomFilter_new 3 2 1000 77) keys with
      | Some f => contains f [1; 2] = Some false | None => True end) by (vm_compute; reflexivity).
    destruct (insert_all _ _); [|discriminate]. intros [= ->]. exact V.
Defined.
