(* ===== verification/Text.v ===== *)
(** * Text

    Text is a list of character codes.  What several components use of the standard
    library and of boost on it: literals, the character classes of [ctype.h] in the C
    locale, [substr] and [boost::split]. *)

From Stdlib Require Import String Ascii.
From S2P Require Import Prelude.
Open Scope Z_scope.

Abbreviation text := (list Z).

(** a literal of the source *)
Definition lit (s : string) : text := map (fun c => Z.of_nat (nat_of_ascii c)) (list_ascii_of_string s).

Definition isdigit (c : Z) : bool := (48 <=? c) && (c <=? 57).
Definition isalnum (c : Z) : bool := isdigit c || (65 <=? c) && (c <=? 90) || (97 <=? c) && (c <=? 122).
Definition isspace (c : Z) : bool := (9 <=? c) && (c <=? 13) || (c =? 32).

(** [s.substr(pos, n)] for [pos <= s.size()] *)
Definition substr (s : text) (pos n : Z) : text := take (Z.to_nat n) (drop (Z.to_nat pos) s).

Lemma substr_length s pos n : (length (substr s pos n) <= length s - Z.to_nat pos)%nat /\ (length (substr s pos n) <= Z.to_nat n)%nat.
Proof. unfold substr. rewrite length_take, length_drop. lia. Qed.

Lemma substr_middle pre u post : substr (pre ++ u ++ post) (zlen pre) (zlen u) = u.
Proof. unfold substr. rewrite !Nat2Z.id, drop_app_length, take_app_length. done. Qed.

(** ** Splitting and joining *)

(** pieces with a separator between them *)
Fixpoint join (sep : Z) (l : list text) : text :=
  match l with
  | [] => []
  | [s] => s
  | s :: l => s ++ sep :: join sep l
  end.

(** [boost::split(parts, s, is_any_of(sep))] for one separator: always at least one part *)
Fixpoint split (sep : Z) (s : text) : list text :=
  match s with
  | [] => [[]]
  | c :: s =>
      if c =? sep then [] :: split sep s
      else match split sep s with
           | p :: parts => (c :: p) :: parts
           | [] => [[c]]
           end
  end.

Lemma join_cons sep u l : l <> [] -> join sep (u :: l) = u ++ sep :: join sep l.
Proof. by destruct l. Qed.

Lemma split_nonempty sep s : split sep s <> [].
Proof. destruct s as [|c s]; cbn; [done|]. destruct (c =? sep); [done|]. by destruct (split sep s). Qed.

Lemma join_split sep s : join sep (split sep s) = s.
Proof.
  induction s as [|c s IH]; cbn; [done|]. pose proof (split_nonempty sep s) as Hn. destruct (Z.eqb_spec c sep) as [->|].
  - by rewrite join_cons, IH.
  - destruct (split sep s) as [|p parts]; [done|]. destruct parts; cbn in *; by rewrite IH.
Qed.

Lemma split_free sep s : Forall (fun p => sep ∉ p) (split sep s).
Proof.
  induction s as [|c s IH]; cbn; [repeat constructor; apply not_elem_of_nil|]. destruct (Z.eqb_spec c sep) as [->|N].
  - constructor; [apply not_elem_of_nil | done].
  - pose proof (split_nonempty sep s). destruct (split sep s) as [|p parts]; [done|]. apply Forall_cons in IH as [Hp IH].
    constructor; [|done]. by apply not_elem_of_cons.
Qed.

Lemma split_join sep l : l <> [] -> Forall (fun p => sep ∉ p) l -> split sep (join sep l) = l.
Proof.
  intros Hn H. induction H as [|p l Hp H IH]; [done|].
  assert (Hfree : forall q, sep ∉ q -> split sep q = [q]).
  { induction q as [|c q IHq]; intros Hq; [done|]. apply not_elem_of_cons in Hq as [Hc Hq]. cbn.
    rewrite (proj2 (Z.eqb_neq c sep)) by congruence. by rewrite IHq. }
  destruct l as [|q l]; [by apply Hfree|]. rewrite join_cons by done. rewrite <- IH at 2 by done. generalize (join sep (q :: l)). intros rest.
  clear IH H Hn. induction p as [|c p IHp]; cbn; [by rewrite Z.eqb_refl|].
  apply not_elem_of_cons in Hp as [Hc Hp]. rewrite (proj2 (Z.eqb_neq c sep)) by congruence. by rewrite IHp.
Qed.

Lemma split_app sep x y : split sep (x ++ sep :: y) = split sep x ++ split sep y.
Proof.
  induction x as [|c x IH]; cbn; [by rewrite Z.eqb_refl|]. rewrite IH. destruct (c =? sep); [done|].
  pose proof (split_nonempty sep x). by destruct (split sep x).
Qed.

Lemma split_one sep s : sep ∉ s -> split sep s = [s].
Proof. intros H. apply (split_join sep [s]); [done | by repeat constructor]. Qed.

Lemma join_snoc sep l p : l <> [] -> join sep (l ++ [p]) = join sep l ++ sep :: p.
Proof.
  induction l as [|u l IH]; [done|]. intros _. destruct l as [|v l]; [done|]. cbn [app]. rewrite join_cons by done.
  rewrite (join_cons sep u (v :: l)) by done. rewrite <- app_assoc. cbn [app]. by rewrite <- IH.
Qed.

(** the part behind the last separator *)
Lemma split_back sep s : exists parts p, split sep s = parts ++ [p] /\ (sep ∉ p) /\ (s = p \/ exists x, s = x ++ sep :: p).
Proof.
  pose proof (join_split sep s) as E. pose proof (split_free sep s) as F. destruct (split sep s) as [|p parts _] eqn:Es using rev_ind.
  { by apply split_nonempty in Es. }
  apply Forall_app in F as [_ F]. apply Forall_cons in F as [Hp _]. exists parts, p. split; [done|]. split; [done|].
  destruct parts as [|q parts]; [by left|]. right. rewrite <- E. exists (join sep (q :: parts)). by rewrite join_snoc.
Qed.
