(* ===== verification/LibBoolEE.v ===== *)
(** * Verifier expressions (LibBoolEE.h, LibBoolEE.cpp)

    The evaluator of the boolean formulas over qualifiers that restrict an asset.  It
    splits the text at the operators outside parentheses, at [|] first and at [&]
    only when there is no [|], and evaluates the pieces.

    [resolve] and [resolveRec] call each other on
    shorter and shorter text; [fuel] bounds the depth, [None] is running out of it, and
    [resolve_returns] shows that the length of the text is enough.  [inl] is an
    exception, with the type the error report gets. *)

From Stdlib Require Import String.
From stdpp Require Import gmap.
From S2P Require Import Prelude Text.
Open Scope Z_scope.

Definition AND : Z := 38.
Definition OR : Z := 124.
Definition NOT : Z := 33.
Definition OPEN : Z := 40.
Definition CLOSE : Z := 41.

(** [ErrorReport::ErrorType] *)
Inductive ErrorType :=
  | NotSetError | InvalidQualifierName | EmptyString | LengthToLarge | InvalidSubExpressionFormula | InvalidSyntax
  | AssetDoesntExist | FailedToVerifyAgainstAddress | EmptySubExpression | UnknownOperator | ParenthesisParity | VariableNotFound.

Definition belongsToName (ch : Z) : bool := isalnum ch || (ch =? 95) || (ch =? 35) || (ch =? 46).

Definition removeWhitespaces (source : text) : text := List.filter (fun c => negb (isspace c)) source.
Definition removeCharacter (source : text) (ch : Z) : text := List.filter (fun c => negb (ch =? c)) source.

(** [singleParse] from position [i] on, with the rest of the text from there *)
Fixpoint parse_from (formula : text) (op : Z) (rest : text) (i start_pos parity_count : Z) (subexpressions : list text) :
    ErrorType + list text :=
  match rest with
  | [] =>
      let subexpressions :=
        if negb (start_pos =? -1) then subexpressions ++ [substr formula start_pos (zlen formula - start_pos)] else subexpressions in
      if negb (parity_count =? 0) then inl ParenthesisParity else inr subexpressions
  | c :: rest =>
      if c =? CLOSE then parse_from formula op rest (i + 1) start_pos (parity_count - 1) subexpressions
      else if c =? OPEN then
        parse_from formula op rest (i + 1) (if start_pos =? -1 then i else start_pos) (parity_count + 1) subexpressions
      else if parity_count =? 0 then
        if start_pos =? -1 then
          parse_from formula op rest (i + 1) (if belongsToName c || (c =? NOT) then i else start_pos) parity_count subexpressions
        else if negb (belongsToName c || (c =? NOT)) then
          if op =? c then
            parse_from formula op rest (i + 1) (i + 1) parity_count (subexpressions ++ [substr formula start_pos (i - start_pos)])
          else if negb (c =? AND) && negb (c =? OR) then inl EmptySubExpression
          else parse_from formula op rest (i + 1) start_pos parity_count subexpressions
        else parse_from formula op rest (i + 1) start_pos parity_count subexpressions
      else parse_from formula op rest (i + 1) start_pos parity_count subexpressions
  end.

Definition singleParse (formula : text) (op : Z) : ErrorType + list text := parse_from formula op formula 0 (-1) 0 [].

(** the loops with [result |= resolve(it)] and [result &= resolve(it)]: every piece is
    evaluated, and the first exception is the result *)
Fixpoint combine_all (f : bool -> bool -> bool) (ev : text -> option (ErrorType + bool)) (l : list text) (result : bool) :
    option (ErrorType + bool) :=
  match l with
  | [] => Some (inr result)
  | s :: l =>
      match ev s with
      | Some (inr b) => combine_all f ev l (f result b)
      | r => r
      end
  end.

Section Resolve.
Context (valuation : gmap text bool).

(** [resolve(source)]: [resolveRec] on the text without white space *)
Fixpoint resolve (fuel : nat) (source : text) : option (ErrorType + bool) :=
  match fuel with
  | O => None
  | S fuel =>
      let source := removeWhitespaces source in
      match source with
      | [] => Some (inl EmptySubExpression)
      | c :: tail =>
          match singleParse source OR with
          | inl e => Some (inl e)
          | inr subexpressions =>
              let no_or := Nat.eqb (length subexpressions) 1 in
              match (if no_or then singleParse source AND else inr subexpressions) with
              | inl e => Some (inl e)
              | inr [] => Some (inl InvalidQualifierName)
              | inr [_] =>
                  if c =? NOT then
                    match resolve fuel tail with Some (inr b) => Some (inr (negb b)) | r => r end
                  else if c =? OPEN then resolve fuel (substr source 1 (zlen source - 2))
                  else if bool_decide (source = lit "1") then Some (inr true)
                  else if bool_decide (source = lit "0") then Some (inr false)
                  else match valuation !! source with Some v => Some (inr v) | None => Some (inl VariableNotFound) end
              | inr subexpressions =>
                  if negb no_or then combine_all orb (resolve fuel) subexpressions false
                  else combine_all andb (resolve fuel) subexpressions true
              end
          end
      end
  end.
End Resolve.

(** ** The recursion ends *)

Lemma removeWhitespaces_length s : (length (removeWhitespaces s) <= length s)%nat.
Proof. unfold removeWhitespaces. induction s as [|c s IH]; cbn; [lia|]. destruct (negb (isspace c)); cbn; lia. Qed.

Lemma removeWhitespaces_idem s : removeWhitespaces (removeWhitespaces s) = removeWhitespaces s.
Proof.
  unfold removeWhitespaces. induction s as [|c s IH]; cbn; [done|]. destruct (negb (isspace c)) eqn:E; cbn; [by rewrite E, IH | done].
Qed.

(** pieces that are shorter than the whole, when there are at least two *)
Definition shorter (formula : text) (l : list text) : Prop := Forall (fun s => (length s < length formula)%nat) l.

Lemma parse_from_shorter formula op rest : forall i start par subs l,
  zlen rest = zlen formula - i -> 0 <= i -> start <= i -> (subs = [] \/ 1 <= start) -> (start = -1 \/ 0 <= start) ->
  shorter formula subs -> parse_from formula op rest i start par subs = inr l -> (length l <= 1)%nat \/ shorter formula l.
Proof.
  induction rest as [|c rest IH]; intros i start par subs l Hl Hi Hs Hsub Hneg Hsh; cbn [parse_from].
  - cbn in Hl. destruct (negb (par =? 0)); [done|]. intros [= <-]. destruct (Z.eqb_spec start (-1)) as [->|]; cbn [negb]; [right; done|].
    destruct Hsub as [->|H1]; [left; cbn; lia|]. right. apply Forall_app. split; [done|].
    constructor; [|done]. destruct (substr_length formula start (zlen formula - start)). lia.
  - cbn [length] in Hl. repeat case_match; try discriminate; apply IH; try lia; try done; try (destruct Hsub; [by left | lia]).
    all: try (destruct Hsub; [by left | right; lia]).
    all: try (right; lia).
    apply Forall_app. split; [done|]. constructor; [|done]. destruct (substr_length formula start (i - start)). lia.
Qed.

Lemma singleParse_shorter formula op l : singleParse formula op = inr l -> (length l <= 1)%nat \/ shorter formula l.
Proof.
  unfold singleParse. apply parse_from_shorter; lia || (by left) || constructor.
Qed.

Lemma combine_all_total f ev l : Forall (fun s => exists r, ev s = Some r) l -> forall b, exists r, combine_all f ev l b = Some r.
Proof.
  induction 1 as [|s l [r E] _ IH]; intros b; cbn; [by eexists|]. rewrite E. destruct r; [by eexists | apply IH].
Qed.

Lemma resolve_total valuation fuel : forall source, (length source < fuel)%nat -> exists r, resolve valuation fuel source = Some r.
Proof.
  induction fuel as [|fuel IH]; intros source Hl; [lia|]. cbn [resolve].
  pose proof (removeWhitespaces_length source) as Hw. set (s := removeWhitespaces source) in *. clearbody s.
  destruct s as [|c tail]; [by eexists|]. cbn [length] in Hw.
  destruct (singleParse (c :: tail) OR) as [e|subs] eqn:E1; [by eexists|]. apply singleParse_shorter in E1.
  destruct (if Nat.eqb (length subs) 1 then singleParse (c :: tail) AND else inr subs) as [e|subs'] eqn:E2; [by eexists|].
  assert (Hsh : (length subs' <= 1)%nat \/ shorter (c :: tail) subs').
  { destruct (Nat.eqb _ _); [by apply singleParse_shorter in E2 | by injection E2 as <-]. }
  destruct subs' as [|s1 [|s2 l]]; [by eexists | |].
  - destruct (c =? NOT); [destruct (IH tail) as [r ->]; [lia | destruct r; by eexists]|].
    destruct (c =? OPEN); [|repeat case_match; by eexists].
    apply IH. destruct (substr_length (c :: tail) 1 (zlen (c :: tail) - 2)) as [L _].
    set (n := length (substr _ _ _)) in *. cbn in L. lia.
  - destruct Hsh as [Hsh|Hsh]; [cbn in Hsh; lia|].
    assert (Forall (fun s => exists r, resolve valuation fuel s = Some r) (s1 :: s2 :: l)).
    { eapply Forall_impl; [exact Hsh|]. intros s Hs. apply IH. cbn [length] in Hs. lia. }
    destruct (negb _); by apply combine_all_total.
Qed.

(** ** The formulas *)

Definition is_name (s : text) : Prop := s <> [] /\ Forall (fun c => belongsToName c = true) s.

(** the precedence levels: constants, names and parentheses; negations; conjunctions;
    disjunctions *)
Inductive level := Atom | Unary | Conj | Disj.

Inductive denotes (valuation : gmap text bool) : level -> text -> bool -> Prop :=
  | D_true : denotes valuation Atom (lit "1") true
  | D_false : denotes valuation Atom (lit "0") false
  | D_var s v : is_name s -> s <> lit "1" -> s <> lit "0" -> valuation !! s = Some v -> denotes valuation Atom s v
  | D_paren s v : denotes valuation Disj s v -> denotes valuation Atom (OPEN :: s ++ [CLOSE]) v
  | D_atom s v : denotes valuation Atom s v -> denotes valuation Unary s v
  | D_not s v : denotes valuation Unary s v -> denotes valuation Unary (NOT :: s) (negb v)
  | D_unary s v : denotes valuation Unary s v -> denotes valuation Conj s v
  | D_and s1 v1 s2 v2 : denotes valuation Unary s1 v1 -> denotes valuation Conj s2 v2 ->
      denotes valuation Conj (s1 ++ AND :: s2) (v1 && v2)
  | D_conj s v : denotes valuation Conj s v -> denotes valuation Disj s v
  | D_or s1 v1 s2 v2 : denotes valuation Conj s1 v1 -> denotes valuation Disj s2 v2 ->
      denotes valuation Disj (s1 ++ OR :: s2) (v1 || v2).

(** ** How the text of a formula is split *)

(** characters outside a parenthesis change nothing inside one *)
Definition inner (u : text) : Prop := forall formula op rest i start par subs, 1 <= par -> start <> -1 ->
  parse_from formula op (u ++ rest) i start par subs = parse_from formula op rest (i + zlen u) start par subs.

(** text that [singleParse] with [op] takes as one piece *)
Definition quiet (op : Z) (u : text) : Prop := u <> [] /\ forall formula rest i start subs, 0 <= i ->
  parse_from formula op (u ++ rest) i start 0 subs =
  parse_from formula op rest (i + zlen u) (if start =? -1 then i else start) 0 subs.

Definition is_op (op : Z) : Prop := op = AND \/ op = OR.

Lemma inner_app u v : inner u -> inner v -> inner (u ++ v).
Proof.
  intros Hu Hv formula op rest i start par subs Hp Hs. rewrite <- app_assoc, Hu, Hv by done. f_equal. rewrite length_app. lia.
Qed.

Lemma inner_char c : c <> OPEN -> c <> CLOSE -> inner [c].
Proof.
  intros H1 H2 formula op rest i start par subs Hp Hs. cbn [app parse_from].
  rewrite (proj2 (Z.eqb_neq c CLOSE)), (proj2 (Z.eqb_neq c OPEN)), (proj2 (Z.eqb_neq par 0)) by (done || lia). done.
Qed.

Lemma inner_paren u : inner u -> inner (OPEN :: u ++ [CLOSE]).
Proof.
  intros Hu formula op rest i start par subs Hp Hs. cbn [app parse_from]. change (OPEN =? CLOSE) with false. change (OPEN =? OPEN) with true.
  cbn iota. rewrite (proj2 (Z.eqb_neq start (-1))) by done. rewrite <- app_assoc, Hu by (done || lia). cbn [app parse_from].
  change (CLOSE =? CLOSE) with true. cbn iota. f_equal; [cbn [length]; rewrite length_app; cbn [length]; lia | lia].
Qed.

Lemma name_char c : belongsToName c = true -> c <> OPEN /\ c <> CLOSE /\ c <> NOT /\ c <> AND /\ c <> OR /\ isspace c = false.
Proof.
  unfold belongsToName, isalnum, isdigit, isspace, OPEN, CLOSE, NOT, AND, OR. intros H. repeat split; lia.
Qed.

Lemma inner_name s : Forall (fun c => belongsToName c = true) s -> inner s.
Proof.
  induction 1 as [|c s Hc _ IH]; [intros ? ? ? ? ? ? ? _ _; cbn; by rewrite Z.add_0_r|].
  apply (inner_app [c]); [|done]. apply name_char in Hc as (? & ? & _). by apply inner_char.
Qed.

Lemma quiet_char op c : belongsToName c || (c =? NOT) = true -> quiet op [c].
Proof.
  intros Hc. split; [done|]. intros formula rest i start subs Hi. cbn [app parse_from].
  assert (c <> OPEN /\ c <> CLOSE) as [H1 H2].
  { apply orb_true_iff in Hc as [Hc|Hc%Z.eqb_eq]; [by apply name_char in Hc as (? & ? & _) | by subst c]. }
  rewrite (proj2 (Z.eqb_neq c CLOSE)), (proj2 (Z.eqb_neq c OPEN)) by done. rewrite Hc. change (0 =? 0) with true. cbn [negb].
  by destruct (start =? -1).
Qed.

Lemma quiet_app op u v : quiet op u -> quiet op v -> quiet op (u ++ v).
Proof.
  intros [Hu Qu] [_ Qv]. split; [by destruct u|]. intros formula rest i start subs Hi.
  rewrite <- app_assoc, Qu, Qv by lia. f_equal; [rewrite length_app; lia|].
  destruct (Z.eqb_spec start (-1)); [|by rewrite (proj2 (Z.eqb_neq _ _))]. by rewrite (proj2 (Z.eqb_neq i (-1))) by lia.
Qed.

Lemma quiet_name op s : is_name s -> quiet op s.
Proof.
  intros [Hn Hs]. induction Hs as [|c s Hc Hs IH]; [done|]. assert (Hq : quiet op [c]) by (apply quiet_char; by rewrite Hc).
  destruct s as [|c' s]; [done|]. by apply (quiet_app op [c]); [|apply IH].
Qed.

Lemma quiet_paren op u : inner u -> quiet op (OPEN :: u ++ [CLOSE]).
Proof.
  intros Hu. split; [done|]. intros formula rest i start subs Hi. cbn [app parse_from]. change (OPEN =? CLOSE) with false. change (OPEN =? OPEN) with true.
  cbn iota. rewrite <- app_assoc, Hu; [|lia|destruct (Z.eqb_spec start (-1)); lia]. cbn [app parse_from].
  change (CLOSE =? CLOSE) with true. cbn iota. f_equal. cbn [length]. rewrite length_app. cbn [length]. lia.
Qed.

(** the other operator does not end a piece *)
Lemma quiet_and u v : quiet OR u -> quiet OR v -> quiet OR (u ++ AND :: v).
Proof.
  intros [Hu Qu] [_ Qv]. split; [by destruct u|]. intros formula rest i start subs Hi. rewrite <- app_assoc, Qu by done. cbn [app parse_from].
  change (AND =? CLOSE) with false. change (AND =? OPEN) with false. change (belongsToName AND || (AND =? NOT)) with false.
  change (OR =? AND) with false. change (AND =? AND) with true. change (0 =? 0) with true. cbn [negb andb].
  rewrite (proj2 (Z.eqb_neq (if start =? -1 then i else start) (-1))) by (destruct (Z.eqb_spec start (-1)); lia).
  rewrite Qv by lia. rewrite (proj2 (Z.eqb_neq (if start =? -1 then i else start) (-1))) by (destruct (Z.eqb_spec start (-1)); lia).
  f_equal. rewrite length_app. cbn [length]. lia.
Qed.

Lemma op_chars op : is_op op -> op <> OPEN /\ op <> CLOSE /\ belongsToName op || (op =? NOT) = false /\ isspace op = false.
Proof. by intros [-> | ->]. Qed.

(** text made of pieces is split into the pieces *)
Lemma parse_join op l : is_op op -> l <> [] -> Forall (quiet op) l -> forall pre start subs, start = -1 \/ start = zlen pre ->
  parse_from (pre ++ join op l) op (join op l) (zlen pre) start 0 subs = inr (subs ++ l).
Proof.
  intros Hop Hl Hq. destruct (op_chars op Hop) as (O1 & O2 & O3 & _).
  induction Hq as [|u l [Hu Qu] Hq IH]; [done|]. intros pre start subs Hs.
  assert (Es : (if start =? -1 then zlen pre else start) = zlen pre) by (destruct (Z.eqb_spec start (-1)); lia).
  destruct l as [|u' l].
  - cbn [join]. rewrite <- (app_nil_r u) at 2. rewrite Qu, Es by lia. cbn [parse_from]. rewrite (proj2 (Z.eqb_neq (zlen pre) (-1))) by lia.
    cbn [negb Z.eqb]. replace (zlen (pre ++ u) - zlen pre) with (zlen u) by (rewrite length_app; lia).
    pose proof (substr_middle pre u []) as Em. rewrite app_nil_r in Em. by rewrite Em.
  - change (join op (u :: u' :: l)) with (u ++ op :: join op (u' :: l)). rewrite Qu, Es by lia. set (tl := join op (u' :: l)) in *. cbn [parse_from].
    rewrite (proj2 (Z.eqb_neq op CLOSE)), (proj2 (Z.eqb_neq op OPEN)), (proj2 (Z.eqb_neq (zlen pre) (-1))) by (done || lia).
    rewrite O3, (Z.eqb_refl op). change (0 =? 0) with true. cbn [negb]. replace (zlen pre + zlen u - zlen pre) with (zlen u) by lia.
    rewrite substr_middle. specialize (IH ltac:(done) (pre ++ u ++ [op]) (zlen pre + zlen u + 1) (subs ++ [u])).
    rewrite <- !app_assoc in IH. cbn [app] in IH. rewrite <- IH; [f_equal | right]; rewrite !length_app; cbn [length]; lia.
Qed.

Lemma singleParse_join op l : is_op op -> l <> [] -> Forall (quiet op) l -> singleParse (join op l) op = inr l.
Proof. intros Hop Hl Hq. apply (parse_join op l Hop Hl Hq [] (-1) []). by left. Qed.

Section Correct.
Context (valuation : gmap text bool).

Lemma no_space_app u v : removeWhitespaces u = u -> removeWhitespaces v = v -> removeWhitespaces (u ++ v) = u ++ v.
Proof. unfold removeWhitespaces. intros Hu Hv. by rewrite List.filter_app, Hu, Hv. Qed.

Lemma no_space_name s : is_name s -> removeWhitespaces s = s.
Proof.
  intros [_ H]. induction H as [|c s Hc _ IH]; [done|]. apply name_char in Hc as (_ & _ & _ & _ & _ & Hc).
  unfold removeWhitespaces in *. cbn. by rewrite Hc, IH.
Qed.

Definition level_quiet (lv : level) (s : text) : Prop :=
  match lv with
  | Atom | Unary => quiet OR s /\ quiet AND s
  | Conj => quiet OR s
  | Disj => True
  end.

Lemma name_shape s : is_name s -> inner s /\ removeWhitespaces s = s /\ level_quiet Atom s.
Proof. intros Hs. split_and!; [by apply inner_name; apply Hs | by apply no_space_name | split; by apply quiet_name]. Qed.

Lemma digit_name d : belongsToName d = true -> is_name [d].
Proof. intros Hd. split; [done | by repeat constructor]. Qed.

Lemma denotes_shape lv s v : denotes valuation lv s v -> inner s /\ removeWhitespaces s = s /\ level_quiet lv s.
Proof.
  induction 1 as [| |s v Hn _ _ _|s v _ (I1 & I2 & _)|s v _ IH|s v _ (I1 & I2 & I3 & I4)|s v _ (I1 & I2 & I3 & _)
    |s1 v1 s2 v2 _ (I1 & I2 & I3 & _) _ (J1 & J2 & J3)|s v _ (I1 & I2 & _)|s1 v1 s2 v2 _ (I1 & I2 & _) _ (J1 & J2 & _)].
  - by apply name_shape, digit_name.
  - by apply name_shape, digit_name.
  - by apply name_shape.
  - split_and!; [by apply inner_paren | | split; by apply quiet_paren].
    apply (no_space_app [OPEN] (s ++ [CLOSE])); [done|]. by apply no_space_app.
  - done.
  - split_and!; [by apply (inner_app [NOT]); [apply inner_char|] | by apply (no_space_app [NOT]) |]; split;
      (apply (quiet_app _ [NOT]); [by apply quiet_char | done]).
  - done.
  - split_and!; [| by apply no_space_app; [|apply (no_space_app [AND])] | by apply quiet_and].
    apply inner_app; [done|]. by apply (inner_app [AND]); [apply inner_char|].
  - done.
  - split_and!; [| by apply no_space_app; [|apply (no_space_app [OR])] | done].
    apply inner_app; [done|]. by apply (inner_app [OR]); [apply inner_char|].
Qed.

(** a conjunction and a disjunction as the list of their pieces *)
Definition made_of (op : Z) (f : list bool -> bool) (lv : level) (s : text) (v : bool) : Prop :=
  exists l, l <> [] /\ s = join op (map fst l) /\ v = f (map snd l) /\ Forall (fun p => denotes valuation lv p.1 p.2) l.

Lemma conj_pieces s v : denotes valuation Conj s v -> made_of AND (forallb id) Unary s v.
Proof.
  intros H. remember Conj as lv eqn:E. revert E. induction H; try done; intros _.
  - exists [(s, v)]. split_and!; [done | done | by cbn; rewrite andb_true_r | by constructor].
  - destruct IHdenotes2 as (l & Hl & -> & -> & Hf); [done|]. exists ((s1, v1) :: l).
    split_and!; [done | by cbn [map fst]; rewrite join_cons by (by destruct l) | done | by constructor].
Qed.

Lemma disj_pieces s v : denotes valuation Disj s v -> made_of OR (existsb id) Conj s v.
Proof.
  intros H. remember Disj as lv eqn:E. revert E. induction H; try done; intros _.
  - exists [(s, v)]. split_and!; [done | done | by cbn; rewrite orb_false_r | by constructor].
  - destruct IHdenotes2 as (l & Hl & -> & -> & Hf); [done|]. exists ((s1, v1) :: l).
    split_and!; [done | by cbn [map fst]; rewrite join_cons by (by destruct l) | done | by constructor].
Qed.

Lemma combine_or fuel l b : Forall (fun p => resolve valuation fuel p.1 = Some (inr p.2)) l ->
  combine_all orb (resolve valuation fuel) (map fst l) b = Some (inr (b || existsb id (map snd l))).
Proof.
  intros H. revert b. induction H as [|[s v] l E _ IH]; intros b; cbn in *; [by rewrite orb_false_r|]. by rewrite E, IH, orb_assoc.
Qed.

Lemma combine_and fuel l b : Forall (fun p => resolve valuation fuel p.1 = Some (inr p.2)) l ->
  combine_all andb (resolve valuation fuel) (map fst l) b = Some (inr (b && forallb id (map snd l))).
Proof.
  intros H. revert b. induction H as [|[s v] l E _ IH]; intros b; cbn in *; [by rewrite andb_true_r|]. by rewrite E, IH, andb_assoc.
Qed.

Lemma join_shorter op (l : list (text * bool)) : (2 <= length l)%nat ->
  Forall (fun p => (length p.1 < length (join op (map fst l)))%nat) l.
Proof.
  intros Hl. destruct l as [|p l]; [cbn in Hl; lia|]. cbn [map]. rewrite join_cons by (destruct l; [cbn in Hl; lia | done]).
  constructor; [rewrite length_app; cbn; lia|]. clear Hl. apply Forall_forall. intros q Hq. rewrite length_app. cbn [length].
  assert (length q.1 <= length (join op (map fst l)))%nat; [|lia]. induction l as [|r l IH]; [by apply not_elem_of_nil in Hq|].
  apply elem_of_cons in Hq as [->|Hq]; cbn [map].
  - destruct l; cbn [map join]; [done|]. rewrite length_app. lia.
  - specialize (IH Hq). rewrite join_cons by (destruct l; [by apply not_elem_of_nil in Hq | done]). rewrite length_app. cbn [length]. lia.
Qed.

Lemma pieces_quiet op lv (l : list (text * bool)) : (forall s, level_quiet lv s -> quiet op s) ->
  Forall (fun p => denotes valuation lv p.1 p.2) l -> Forall (quiet op) (map fst l).
Proof. intros Hq H. apply Forall_map. eapply Forall_impl; [exact H|]. intros p Hp. by apply denotes_shape in Hp as (_ & _ & ?%Hq). Qed.

Lemma to_disj lv s v : denotes valuation lv s v -> denotes valuation Disj s v.
Proof. destruct lv; eauto using denotes. Qed.
End Correct.

(** ** Evaluation *)

Section Evaluation.
Context (valuation : gmap text bool).

Lemma resolve_or fuel source l : removeWhitespaces source = source -> source = join OR (map fst l) -> (2 <= length l)%nat ->
  Forall (fun p => denotes valuation Conj p.1 p.2) l -> Forall (fun p => resolve valuation fuel p.1 = Some (inr p.2)) l ->
  resolve valuation (S fuel) source = Some (inr (existsb id (map snd l))).
Proof.
  intros Hw Hs Hl Hd Hr. cbn [resolve]. rewrite Hw. pose proof (pieces_quiet valuation OR Conj l (fun s H => H) Hd) as Hq.
  assert (E : singleParse source OR = inr (map fst l)) by (rewrite Hs; apply singleParse_join; [by right | destruct l; [cbn in Hl; lia | done] | done]).
  pose proof (combine_or valuation fuel l false Hr) as Hc. rewrite E.
  destruct source as [|c tail].
  { exfalso. destruct l as [|p [|q l]]; [cbn in Hl; lia..|]. cbn [map] in Hs. rewrite join_cons in Hs by done. by destruct p.1. }
  destruct l as [|p [|q l]]; [cbn in Hl; lia..|]. exact Hc.
Qed.

Lemma resolve_and fuel source l : removeWhitespaces source = source -> source = join AND (map fst l) -> (2 <= length l)%nat ->
  quiet OR source -> Forall (fun p => denotes valuation Unary p.1 p.2) l -> Forall (fun p => resolve valuation fuel p.1 = Some (inr p.2)) l ->
  resolve valuation (S fuel) source = Some (inr (forallb id (map snd l))).
Proof.
  intros Hw Hs Hl Hor Hd Hr. cbn [resolve]. rewrite Hw. pose proof (pieces_quiet valuation AND Unary l (fun s H => proj2 H) Hd) as Hq.
  assert (E1 : singleParse source OR = inr [source]) by (apply (singleParse_join OR [source]); [by right | done | by constructor]).
  assert (E2 : singleParse source AND = inr (map fst l)) by (rewrite Hs; apply singleParse_join; [by left | destruct l; [cbn in Hl; lia | done] | done]).
  pose proof (combine_and valuation fuel l true Hr) as Hc. rewrite E1. cbn [length Nat.eqb]. rewrite E2.
  destruct source as [|c tail]; [by destruct Hor|]. destruct l as [|p [|q l]]; [cbn in Hl; lia..|]. exact Hc.
Qed.

(** a piece without an operator *)
Lemma resolve_single fuel c tail : removeWhitespaces (c :: tail) = c :: tail -> quiet OR (c :: tail) -> quiet AND (c :: tail) ->
  resolve valuation (S fuel) (c :: tail) =
  if c =? NOT then match resolve valuation fuel tail with Some (inr b) => Some (inr (negb b)) | r => r end
  else if c =? OPEN then resolve valuation fuel (substr (c :: tail) 1 (zlen (c :: tail) - 2))
  else if bool_decide (c :: tail = lit "1") then Some (inr true)
  else if bool_decide (c :: tail = lit "0") then Some (inr false)
  else match valuation !! (c :: tail) with Some v => Some (inr v) | None => Some (inl VariableNotFound) end.
Proof.
  intros Hw H1 H2. cbn [resolve]. rewrite Hw.
  rewrite (singleParse_join OR [c :: tail] ltac:(by right) ltac:(done) ltac:(by constructor) : singleParse (c :: tail) OR = _).
  cbn [length Nat.eqb].
  by rewrite (singleParse_join AND [c :: tail] ltac:(by left) ltac:(done) ltac:(by constructor) : singleParse (c :: tail) AND = _).
Qed.

Lemma resolve_unary fuel s v : denotes valuation Unary s v ->
  (forall lv s' v', (length s' < length s)%nat -> denotes valuation lv s' v' -> resolve valuation fuel s' = Some (inr v')) ->
  resolve valuation (S fuel) s = Some (inr v).
Proof.
  intros Hd IH. destruct (denotes_shape valuation _ _ _ Hd) as (_ & Hw & H1 & H2).
  inversion Hd as [ | | | |? ? Ha| ? b Hu| | | | ]; subst.
  - inversion Ha as [ | |? ? Hn N1 N2 Hv|s' ? Hs'| | | | | | ]; subst.
    + exact (resolve_single fuel 49 [] Hw H1 H2).
    + exact (resolve_single fuel 48 [] Hw H1 H2).
    + destruct s as [|c tail]; [by destruct Hn|]. rewrite resolve_single by done. destruct Hn as [_ Hc]. apply Forall_cons in Hc as [Hc _].
      apply name_char in Hc as (C1 & _ & C3 & _). rewrite (proj2 (Z.eqb_neq c NOT)), (proj2 (Z.eqb_neq c OPEN)) by done.
      by rewrite !bool_decide_false, Hv by done.
    + rewrite resolve_single by done. change (OPEN =? NOT) with false. change (OPEN =? OPEN) with true. cbn iota.
      replace (zlen (OPEN :: s' ++ [CLOSE]) - 2) with (zlen s') by (cbn [length]; rewrite length_app; cbn [length]; lia).
      rewrite (substr_middle [OPEN] s' [CLOSE] : substr (OPEN :: s' ++ [CLOSE]) 1 (zlen s') = s').
      apply (IH Disj); [cbn; rewrite length_app; cbn; lia | done].
  - rewrite resolve_single by done. change (NOT =? NOT) with true. cbn iota. by rewrite (IH Unary _ b) by (done || (cbn; lia)).
Qed.

Lemma resolve_denotes fuel : forall lv s v, (length s < fuel)%nat -> denotes valuation lv s v -> resolve valuation fuel s = Some (inr v).
Proof.
  induction fuel as [|fuel IH]; intros lv s v Hl Hd; [lia|].
  destruct (denotes_shape valuation _ _ _ Hd) as (_ & Hw & _). apply to_disj in Hd. apply disj_pieces in Hd as (l & Hn & Hs & -> & Hf).
  assert (Hshort : forall op k, (2 <= length k)%nat -> s = join op (map fst k) -> forall lv, Forall (fun p => denotes valuation lv p.1 p.2) k ->
    Forall (fun p => resolve valuation fuel p.1 = Some (inr p.2)) k).
  { intros op k Hk E lv' Hk'. pose proof (join_shorter op k Hk) as Hj. rewrite <- E in Hj. rewrite Forall_forall in Hj, Hk' |- *.
    intros p Hp. apply (IH lv'); [|by apply Hk']. specialize (Hj p Hp). lia. }
  destruct l as [|[s1 v1] [|q l]]; [done | | apply resolve_or; [done | done | cbn; lia | done | apply (Hshort OR _) with Conj; [cbn; lia | done..]]].
  cbn [map fst snd existsb join id] in *. subst s1. rewrite orb_false_r. apply Forall_cons in Hf as [Hf _]. cbn in Hf.
  destruct (denotes_shape valuation _ _ _ Hf) as (_ & _ & Hor).
  apply conj_pieces in Hf as (k & Hkn & Hk & -> & Hkf). destruct k as [|[s2 v2] [|q k]]; [done | | apply resolve_and; [done | done | cbn; lia | done | done | apply (Hshort AND _) with Unary; [cbn; lia | done..]]].
  cbn [map fst snd forallb join id] in *. subst s2. rewrite andb_true_r. apply Forall_cons in Hkf as [Hkf _].
  apply resolve_unary; [done|]. intros lv' s' v' Hl'. apply IH. lia.
Qed.
End Evaluation.

(** more fuel does not change a result *)
Lemma combine_all_mono f (ev ev' : text -> option (ErrorType + bool)) l : (forall s r, ev s = Some r -> ev' s = Some r) ->
  forall b r, combine_all f ev l b = Some r -> combine_all f ev' l b = Some r.
Proof.
  intros H. induction l as [|s l IH]; intros b r; cbn; [done|]. destruct (ev s) as [x|] eqn:E; [|done].
  rewrite (H s x E). destruct x; [done | apply IH].
Qed.

Lemma resolve_fuel valuation fuel : forall source r, resolve valuation fuel source = Some r -> resolve valuation (S fuel) source = Some r.
Proof.
  induction fuel as [|fuel IH]; intros source r; [done|]. cbn [resolve]. generalize (removeWhitespaces source). intros s.
  destruct s as [|c tail]; [done|]. destruct (singleParse (c :: tail) OR) as [e|subs]; [done|].
  destruct (if Nat.eqb (length subs) 1 then singleParse (c :: tail) AND else inr subs) as [e|[|s1 [|s2 l]]]; [done | done | |].
  - destruct (c =? NOT).
    { destruct (resolve valuation fuel tail) as [x|] eqn:E; [|done]. apply IH in E. cbn [resolve] in E. rewrite E. done. }
    destruct (c =? OPEN); [apply IH | done].
  - destruct (negb _); by apply combine_all_mono.
Qed.

Lemma resolve_fuel_le valuation source r a b : (a <= b)%nat -> resolve valuation a source = Some r -> resolve valuation b source = Some r.
Proof. induction 1 as [|b _ IH]; [done|]. intros H. by apply resolve_fuel, IH. Qed.

(** C15: the evaluator of verifier expressions returns on every text: the two functions
    call each other only on shorter text, so the depth of the recursion is at most
    the length of the text plus one, and the result, a truth value or an exception,
    does not depend on how much deeper it might have gone. *)
Theorem resolve_returns (valuation : gmap text bool) (source : text) :
  exists r, forall fuel, (length source < fuel)%nat -> resolve valuation fuel source = Some r.
Proof.
  destruct (resolve_total valuation (S (length source)) source) as [r Hr]; [lia|].
  exists r. intros fuel Hf. apply resolve_fuel_le with (S (length source)); [lia | done].
Qed.

Lemma resolve_denotes_source valuation source v fuel : denotes valuation Disj (removeWhitespaces source) v -> (length source < fuel)%nat ->
  resolve valuation fuel source = Some (inr v).
Proof.
  intros Hd Hf. destruct fuel as [|fuel]; [lia|]. pose proof (removeWhitespaces_length source).
  rewrite <- (resolve_denotes valuation (S fuel) Disj (removeWhitespaces source) v ltac:(lia) Hd). cbn [resolve]. by rewrite removeWhitespaces_idem.
Qed.

(** What the evaluator computes is the truth value of the formula: for every text
    that is, white space aside, a formula over the names of the valuation, with [!]
    binding tighter than [&] and [&] tighter than [|], parentheses anywhere and any
    number of operands, [resolve] returns its value. *)
Theorem resolve_correct (valuation : gmap text bool) (source : text) (v : bool) (fuel : nat)
    (Hd : denotes valuation Disj (removeWhitespaces source) v) (Hf : (length source < fuel)%nat) :
  resolve valuation fuel source = Some (inr v).
Proof. by apply resolve_denotes_source. Qed.

Definition sample_valuation : gmap text bool := <[lit "A" := true]> (<[lit "B" := false]> (<[lit "KYC_1" := true]> ∅)).

Ltac name_denotes := apply D_var; [split; [discriminate | repeat constructor] | discriminate | discriminate | reflexivity].

Lemma resolve_correct_witness : resolve sample_valuation 40 (lit "!(A & B) | B & !KYC_1") = Some (inr true).
Proof.
  apply (resolve_correct sample_valuation (lit "!(A & B) | B & !KYC_1") true 40); [|vm_compute; lia].
  apply (D_or sample_valuation (lit "!(A&B)") true (lit "B&!KYC_1") false).
  - apply D_unary. apply (D_not sample_valuation (lit "(A&B)") false). apply D_atom. apply (D_paren sample_valuation (lit "A&B") false).
    apply D_conj. apply (D_and sample_valuation (lit "A") true (lit "B") false); [apply D_atom; name_denotes|].
    apply D_unary, D_atom. name_denotes.
  - apply D_conj. apply (D_and sample_valuation (lit "B") false (lit "!KYC_1") false); [apply D_atom; name_denotes|].
    apply D_unary. apply (D_not sample_valuation (lit "KYC_1") true). apply D_atom. name_denotes.
Defined.

(** text that is not a formula but is evaluated: characters before the first name, of
    the whole or of a parenthesis with an operator in it, are passed over *)
Example leading_text_ignored :
  resolve sample_valuation 40 (lit "&B|A") = Some (inr true) /\ resolve sample_valuation 40 (lit "A&($-B|A)") = Some (inr true) /\
  resolve sample_valuation 40 (lit "&A") = Some (inl VariableNotFound).
Proof. vm_compute. done. Qed.

(** an unknown operator is reported as an empty subexpression, and the constants are
    the digits *)
Example operators_and_constants :
  resolve sample_valuation 40 (lit "A$B") = Some (inl EmptySubExpression) /\ resolve sample_valuation 40 (lit "tt|A") = Some (inl VariableNotFound) /\
  resolve sample_valuation 40 (lit "0|1") = Some (inr true).
Proof. vm_compute. done. Qed.
