(* ===== verification/Regex.v ===== *)
(** * Regular expressions

    What the sources use of [std::regex]: character classes, concatenation,
    alternatives and repetitions, and [std::regex_match], which asks whether the
    whole text is in the language, so that the anchors at the two ends add nothing.
    Texts are lists of character codes.

    [regex_match] runs by derivatives; [regex_match_lang] shows that it decides the
    language [lang]. *)

From S2P Require Import Prelude.
Open Scope Z_scope.

Inductive regex :=
  | Never
  | Empty
  | Class (p : Z -> bool)
  | Seq (r1 r2 : regex)
  | Alt (r1 r2 : regex)
  | Star (r : regex).

(** [r+] and [r{n,}] *)
Definition Plus (r : regex) : regex := Seq r (Star r).
Fixpoint AtLeast (n : nat) (r : regex) : regex := match n with O => Star r | S n => Seq r (AtLeast n r) end.

(** a class given by its characters, and its complement; [.] is any character but a
    line terminator *)
Definition one_of (l : list Z) : Z -> bool := fun c => existsb (Z.eqb c) l.
Definition none_of (l : list Z) : Z -> bool := fun c => negb (one_of l c).
Definition Char (c : Z) : regex := Class (Z.eqb c).
Definition Dot : regex := Class (none_of [10; 13]).
Definition Word (s : list Z) : regex := fold_right (fun c r => Seq (Char c) r) Empty s.

Fixpoint nullable (r : regex) : bool :=
  match r with
  | Never | Class _ => false
  | Empty | Star _ => true
  | Seq r1 r2 => nullable r1 && nullable r2
  | Alt r1 r2 => nullable r1 || nullable r2
  end.

Fixpoint derive (c : Z) (r : regex) : regex :=
  match r with
  | Never | Empty => Never
  | Class p => if p c then Empty else Never
  | Seq r1 r2 => if nullable r1 then Alt (Seq (derive c r1) r2) (derive c r2) else Seq (derive c r1) r2
  | Alt r1 r2 => Alt (derive c r1) (derive c r2)
  | Star r => Seq (derive c r) (Star r)
  end.

Fixpoint regex_match (s : list Z) (r : regex) : bool :=
  match s with
  | [] => nullable r
  | c :: s => regex_match s (derive c r)
  end.

(** ** The language *)

Inductive lang : regex -> list Z -> Prop :=
  | L_empty : lang Empty []
  | L_class p c : p c = true -> lang (Class p) [c]
  | L_seq r1 r2 s1 s2 : lang r1 s1 -> lang r2 s2 -> lang (Seq r1 r2) (s1 ++ s2)
  | L_left r1 r2 s : lang r1 s -> lang (Alt r1 r2) s
  | L_right r1 r2 s : lang r2 s -> lang (Alt r1 r2) s
  | L_stop r : lang (Star r) []
  | L_more r s1 s2 : lang r s1 -> lang (Star r) s2 -> lang (Star r) (s1 ++ s2).

#[local] Hint Constructors lang : core.

Lemma lang_seq r1 r2 s : lang (Seq r1 r2) s <-> exists s1 s2, s = s1 ++ s2 /\ lang r1 s1 /\ lang r2 s2.
Proof. split; [inversion 1; eauto | intros (s1 & s2 & -> & H1 & H2); eauto]. Qed.

Lemma lang_alt r1 r2 s : lang (Alt r1 r2) s <-> lang r1 s \/ lang r2 s.
Proof. split; [inversion 1; eauto | intros [H|H]; eauto]. Qed.

Lemma lang_class p s : lang (Class p) s <-> exists c, s = [c] /\ p c = true.
Proof. split; [inversion 1; eauto | intros (c & -> & H); eauto]. Qed.

Lemma lang_empty s : lang Empty s <-> s = [].
Proof. split; [by inversion 1 | intros ->; eauto]. Qed.

Lemma nullable_lang r : nullable r = true <-> lang r [].
Proof.
  induction r as [| |p|r1 IH1 r2 IH2|r1 IH1 r2 IH2|r IH]; cbn [nullable].
  - split; [done | by inversion 1].
  - by rewrite lang_empty.
  - split; [done | by inversion 1].
  - rewrite andb_true_iff, IH1, IH2, lang_seq. split; [intros [H1 H2]; by exists [], []|].
    intros (s1 & s2 & E & H1 & H2). symmetry in E. by apply app_nil in E as [-> ->].
  - by rewrite orb_true_iff, IH1, IH2, lang_alt.
  - split; eauto.
Qed.

Lemma star_cons r c s : lang (Star r) (c :: s) -> exists s1 s2, s = s1 ++ s2 /\ lang r (c :: s1) /\ lang (Star r) s2.
Proof.
  remember (Star r) as x eqn:Ex. remember (c :: s) as t eqn:Et. intros H. revert Ex c s Et.
  induction H as [| | | | | |r' s1 s2 H1 _ H2 IH2]; try done. intros [= ->] c s Et.
  destruct s1 as [|d s1]; [by apply IH2|]. injection Et as -> <-. by exists s1, s2.
Qed.

Lemma derive_lang c r : forall s, lang (derive c r) s <-> lang r (c :: s).
Proof.
  induction r as [| |p|r1 IH1 r2 IH2|r1 IH1 r2 IH2|r IH]; intros s; cbn [derive].
  - split; by inversion 1.
  - split; by inversion 1.
  - rewrite lang_class. destruct (p c) eqn:E.
    + rewrite lang_empty. split; [intros ->; eauto | by intros (d & [= -> ->] & _)].
    + split; [by inversion 1|]. intros (d & [= <- _] & H). congruence.
  - assert (Hseq : lang (Seq (derive c r1) r2) s <-> exists s1 s2, s = s1 ++ s2 /\ lang r1 (c :: s1) /\ lang r2 s2).
    { rewrite lang_seq. by setoid_rewrite IH1. }
    transitivity ((exists s1 s2, s = s1 ++ s2 /\ lang r1 (c :: s1) /\ lang r2 s2) \/ lang r1 [] /\ lang r2 (c :: s)).
    + destruct (nullable r1) eqn:E; [apply nullable_lang in E; rewrite lang_alt, Hseq, IH2; tauto|].
      assert (~ lang r1 []) by (intros H%nullable_lang; congruence). rewrite Hseq. tauto.
    + rewrite lang_seq. split.
      * intros [(s1 & s2 & -> & H1 & H2)|[H1 H2]]; [by exists (c :: s1), s2 | by exists [], (c :: s)].
      * intros ([|d s1] & s2 & E & H1 & H2); [right; by cbn in E; subst s2 | left]. injection E as <- ->. by exists s1, s2.
  - by rewrite !lang_alt, IH1, IH2.
  - rewrite lang_seq. split.
    + intros (s1 & s2 & -> & H1%IH & H2). by apply (L_more r (c :: s1)).
    + intros (s1 & s2 & -> & H1%IH & H2)%star_cons. by exists s1, s2.
Qed.

(** the matcher decides the language *)
Lemma regex_match_lang s : forall r, regex_match s r = true <-> lang r s.
Proof. induction s as [|c s IH]; intros r; cbn [regex_match]; [apply nullable_lang | by rewrite IH, derive_lang]. Qed.

(** ** The languages of the repetitions of a class *)

Definition all (p : Z -> bool) (s : list Z) : Prop := Forall (fun c => p c = true) s.

Lemma lang_star_class p s : lang (Star (Class p)) s <-> all p s.
Proof.
  split.
  - remember (Star (Class p)) as x eqn:E. intros H. revert E. induction H as [| | | | | |r s1 s2 H1 _ _ IH]; try done; intros E; [constructor|].
    injection E as ->. apply lang_class in H1 as (c & -> & Hc). constructor; [done | by apply IH].
  - induction 1 as [|c s Hc _ IH]; [eauto|]. apply (L_more _ [c]); eauto.
Qed.

Lemma lang_atleast_class n p s : lang (AtLeast n (Class p)) s <-> (n <= length s)%nat /\ all p s.
Proof.
  revert s. induction n as [|n IH]; intros s; cbn [AtLeast]; [rewrite lang_star_class; intuition lia|]. rewrite lang_seq. split.
  - intros (s1 & s2 & -> & (c & -> & Hc)%lang_class & [Hl Hs]%IH). split; [cbn; lia | by constructor].
  - intros [Hl Hs]. destruct s as [|c s]; [cbn in Hl; lia|]. apply Forall_cons in Hs as [Hc Hs].
    exists [c], s. split; [done|]. split; [eauto|]. apply IH. cbn in Hl. split; [lia | done].
Qed.

Lemma lang_plus_class p s : lang (Plus (Class p)) s <-> s <> [] /\ all p s.
Proof. rewrite (lang_atleast_class 1 p s : lang (Plus (Class p)) s <-> _). destruct s; cbn; intuition (done || lia). Qed.

Lemma lang_char c s : lang (Char c) s <-> s = [c].
Proof.
  unfold Char. rewrite lang_class. split; [intros (d & -> & H); apply Z.eqb_eq in H; by subst d | intros ->; exists c; by rewrite Z.eqb_refl].
Qed.

Lemma lang_word w : forall s, lang (Word w) s <-> s = w.
Proof.
  induction w as [|c w IH]; intros s; cbn [Word fold_right]; [apply lang_empty|]. fold (Word w). rewrite lang_seq. split.
  - by intros (s1 & s2 & -> & ->%lang_char & ->%IH).
  - intros ->. exists [c], w. split; [done|]. split; [by apply lang_char | by apply IH].
Qed.
