(* ===== verification/AssetNames.v ===== *)
(** * Asset names and verifier strings (assets/assets.cpp, assets/assettypes.h)

    Which texts are names of assets and of which kind, the names derived from a name
    (parent, owner, unique), and the syntax check of verifier strings.  The regular
    expressions are those of the source.

    The texts of the error messages are left out; [IsAssetNameValid] gives the result
    and the [assetType] it assigns, [None] where it assigns none. *)

From Stdlib Require Import String.
From stdpp Require Import gmap.
From S2P Require Import Prelude Text Regex LibBoolEE.
Open Scope Z_scope.

Inductive AssetType :=
  | ROOT | SUB | UNIQUE | MSGCHANNEL | QUALIFIER | SUB_QUALIFIER | RESTRICTED | VOTE | REISSUE | OWNER | NULL_ADD_QUALIFIER | INVALID.

#[global] Instance AssetType_eq_dec : EqDecision AssetType.
Proof. solve_decision. Defined.

Definition MAX_NAME_LENGTH : Z := 31.
Definition MAX_CHANNEL_NAME_LENGTH : Z := 12.
Definition MIN_ASSET_LENGTH : Z := 3.

Definition SLASH : Z := 47.
Definition HASH : Z := 35.
Definition TILDE : Z := 126.
Definition CARET : Z := 94.
Definition BANG : Z := 33.
Definition DOLLAR : Z := 36.

(** ** The regular expressions *)

Definition range (a b : Z) (c : Z) : bool := (a <=? c) && (c <=? b).

(** [[A-Z0-9._]], [[._]] and the classes of the tags *)
Definition name_char (c : Z) : bool := range 65 90 c || range 48 57 c || (c =? 46) || (c =? 95).
Definition punctuation (c : Z) : bool := (c =? 46) || (c =? 95).
Definition unique_char (c : Z) : bool := range 65 90 c || range 97 122 c || range 48 57 c || one_of (lit "-@$%&*()[]{}_.?:") c.
Definition channel_char (c : Z) : bool := range 65 90 c || range 97 122 c || range 48 57 c || (c =? 95).

Definition ROOT_NAME_CHARACTERS : regex := AtLeast 3 (Class name_char).
Definition SUB_NAME_CHARACTERS : regex := Plus (Class name_char).
Definition UNIQUE_TAG_CHARACTERS : regex := Plus (Class unique_char).
Definition MSGCHANNEL_TAG_CHARACTERS : regex := Plus (Class channel_char).
Definition VOTE_TAG_CHARACTERS : regex := Plus (Class name_char).

Definition QUALIFIER_NAME_CHARACTERS : regex := Seq (Char HASH) (AtLeast 3 (Class name_char)).
Definition SUB_QUALIFIER_NAME_CHARACTERS : regex := Seq (Char HASH) (Plus (Class name_char)).
Definition RESTRICTED_NAME_CHARACTERS : regex := Seq (Char DOLLAR) (AtLeast 3 (Class name_char)).

Definition DOUBLE_PUNCTUATION : regex := Seq (Star Dot) (Seq (AtLeast 2 (Class punctuation)) (Star Dot)).
Definition LEADING_PUNCTUATION : regex := Seq (Class punctuation) (Star Dot).
Definition TRAILING_PUNCTUATION : regex := Seq (Star Dot) (Class punctuation).
Definition QUALIFIER_LEADING_PUNCTUATION : regex := Seq (Class (one_of [HASH; DOLLAR])) (Seq (Class punctuation) (Star Dot)).

(** [^[^^~#!]+#[^~#!\/]+$] and the same with another mark *)
Definition before_mark : Z -> bool := none_of [CARET; TILDE; HASH; BANG].
Definition after_mark : Z -> bool := none_of [TILDE; HASH; BANG; SLASH].
Definition indicator (mark : Z) : regex := Seq (Plus (Class before_mark)) (Seq (Char mark) (Plus (Class after_mark))).
Definition UNIQUE_INDICATOR : regex := indicator HASH.
Definition MSGCHANNEL_INDICATOR : regex := indicator TILDE.
Definition OWNER_INDICATOR : regex := Seq (Plus (Class before_mark)) (Char BANG).
Definition VOTE_INDICATOR : regex := indicator CARET.

Definition QUALIFIER_INDICATOR : regex := Seq (Char HASH) (AtLeast 3 (Class name_char)).
Definition SUB_QUALIFIER_INDICATOR : regex :=
  Seq (Char HASH) (Seq (Plus (Class name_char)) (Seq (Char SLASH) (Seq (Char HASH) (Plus (Class name_char))))).
Definition RESTRICTED_INDICATOR : regex := Seq (Char DOLLAR) (AtLeast 3 (Class name_char)).

Definition reserved_names : list text :=
  map lit ["RVN"; "RAVEN"; "RAVENCOIN"; "#RVN"; "#RAVEN"; "#RAVENCOIN"; "BLKR"; "BLKR"; "BLACKRAVEN"; "BLACKRAVENCOIN";
           "#BLKR"; "#BLACKRAVEN"; "#BLACKRAVENCOIN"]%string.
Definition BLACKRAVEN_NAMES : regex := fold_right (fun w r => Alt (Word w) r) Never reserved_names.

(** ** Parts of names *)

Definition IsRootNameValid (name : text) : bool :=
  regex_match name ROOT_NAME_CHARACTERS && negb (regex_match name DOUBLE_PUNCTUATION) &&
  negb (regex_match name LEADING_PUNCTUATION) && negb (regex_match name TRAILING_PUNCTUATION) && negb (regex_match name BLACKRAVEN_NAMES).

Definition IsQualifierNameValid (name : text) : bool :=
  regex_match name QUALIFIER_NAME_CHARACTERS && negb (regex_match name DOUBLE_PUNCTUATION) &&
  negb (regex_match name QUALIFIER_LEADING_PUNCTUATION) && negb (regex_match name TRAILING_PUNCTUATION) && negb (regex_match name BLACKRAVEN_NAMES).

Definition IsRestrictedNameValid (name : text) : bool :=
  regex_match name RESTRICTED_NAME_CHARACTERS && negb (regex_match name DOUBLE_PUNCTUATION) &&
  negb (regex_match name LEADING_PUNCTUATION) && negb (regex_match name TRAILING_PUNCTUATION) && negb (regex_match name BLACKRAVEN_NAMES).

Definition IsSubQualifierNameValid (name : text) : bool :=
  regex_match name SUB_QUALIFIER_NAME_CHARACTERS && negb (regex_match name DOUBLE_PUNCTUATION) &&
  negb (regex_match name LEADING_PUNCTUATION) && negb (regex_match name TRAILING_PUNCTUATION).

Definition IsSubNameValid (name : text) : bool :=
  regex_match name SUB_NAME_CHARACTERS && negb (regex_match name DOUBLE_PUNCTUATION) &&
  negb (regex_match name LEADING_PUNCTUATION) && negb (regex_match name TRAILING_PUNCTUATION).

Definition IsUniqueTagValid (tag : text) : bool := regex_match tag UNIQUE_TAG_CHARACTERS.
Definition IsVoteTagValid (tag : text) : bool := regex_match tag VOTE_TAG_CHARACTERS.

Definition IsMsgChannelTagValid (tag : text) : bool :=
  regex_match tag MSGCHANNEL_TAG_CHARACTERS && negb (regex_match tag DOUBLE_PUNCTUATION) &&
  negb (regex_match tag LEADING_PUNCTUATION) && negb (regex_match tag TRAILING_PUNCTUATION).

(** [parts.front()] and [parts.back()]; [split] gives at least one part *)
Definition front (parts : list text) : text := default [] (head parts).
Definition back (parts : list text) : text := default [] (last parts).

Definition IsNameValidBeforeTag (name : text) : bool :=
  let parts := split SLASH name in
  if negb (IsRootNameValid (front parts)) then false else forallb IsSubNameValid (tail parts).

Definition IsQualifierNameValidBeforeTag (name : text) : bool :=
  let parts := split SLASH name in
  if negb (IsQualifierNameValid (front parts)) then false
  else if zlen parts >? 2 then false
  else forallb IsSubQualifierNameValid (tail parts).

Definition IsAssetNameASubasset (name : text) : bool :=
  let parts := split SLASH name in
  if negb (IsRootNameValid (front parts)) then false else zlen parts >? 1.

Definition IsAssetNameASubQualifier (name : text) : bool :=
  let parts := split SLASH name in
  if negb (IsQualifierNameValid (front parts)) then false else zlen parts >? 1.

(** ** Names *)

Definition IsTypeCheckNameValid (type : AssetType) (name : text) : bool :=
  match type with
  | UNIQUE =>
      if zlen name >? MAX_NAME_LENGTH then false
      else let parts := split HASH name in IsNameValidBeforeTag (front parts) && IsUniqueTagValid (back parts)
  | MSGCHANNEL =>
      if zlen name >? MAX_NAME_LENGTH then false
      else
        let parts := split TILDE name in
        let valid := IsNameValidBeforeTag (front parts) && IsMsgChannelTagValid (back parts) in
        if zlen (back parts) >? MAX_CHANNEL_NAME_LENGTH then false else valid
  | OWNER =>
      if zlen name >? MAX_NAME_LENGTH then false else IsNameValidBeforeTag (substr name 0 (zlen name - 1))
  | VOTE =>
      if zlen name >? MAX_NAME_LENGTH then false
      else let parts := split CARET name in IsNameValidBeforeTag (front parts) && IsVoteTagValid (back parts)
  | QUALIFIER | SUB_QUALIFIER => if zlen name >? MAX_NAME_LENGTH then false else IsQualifierNameValidBeforeTag name
  | RESTRICTED => if zlen name >? MAX_NAME_LENGTH then false else IsRestrictedNameValid name
  | _ =>
      if zlen name >? MAX_NAME_LENGTH - 1 then false
      else if negb (IsAssetNameASubasset name) && (zlen name <? MIN_ASSET_LENGTH) then false
      else IsNameValidBeforeTag name
  end.

(** the result and the type it assigns when the check passes *)
Definition typed (type : AssetType) (ret : bool) : bool * option AssetType := (ret, Some (if ret then type else INVALID)).

Definition IsAssetNameValid (name : text) : bool * option AssetType :=
  if zlen name >? 40 then (false, None)
  else if regex_match name UNIQUE_INDICATOR then typed UNIQUE (IsTypeCheckNameValid UNIQUE name)
  else if regex_match name MSGCHANNEL_INDICATOR then typed MSGCHANNEL (IsTypeCheckNameValid MSGCHANNEL name)
  else if regex_match name OWNER_INDICATOR then typed OWNER (IsTypeCheckNameValid OWNER name)
  else if regex_match name VOTE_INDICATOR then typed VOTE (IsTypeCheckNameValid VOTE name)
  else if regex_match name QUALIFIER_INDICATOR then
    typed (if IsAssetNameASubQualifier name then SUB_QUALIFIER else QUALIFIER) (IsTypeCheckNameValid QUALIFIER name)
  else if regex_match name SUB_QUALIFIER_INDICATOR then
    typed (if IsAssetNameASubQualifier name then SUB_QUALIFIER else INVALID) (IsTypeCheckNameValid SUB_QUALIFIER name)
  else if regex_match name RESTRICTED_INDICATOR then typed RESTRICTED (IsTypeCheckNameValid RESTRICTED name)
  else
    let type := if IsAssetNameASubasset name then SUB else ROOT in
    typed type (IsTypeCheckNameValid type name).

Definition IsAssetNameARoot (name : text) : bool :=
  (IsAssetNameValid name).1 && bool_decide ((IsAssetNameValid name).2 = Some ROOT).
Definition IsAssetNameAnOwner (name : text) : bool := (IsAssetNameValid name).1 && regex_match name OWNER_INDICATOR.
Definition IsAssetNameAnRestricted (name : text) : bool := (IsAssetNameValid name).1 && regex_match name RESTRICTED_INDICATOR.
Definition IsAssetNameAQualifier (name : text) (fOnlyQualifiers : bool) : bool :=
  if fOnlyQualifiers then (IsAssetNameValid name).1 && regex_match name QUALIFIER_INDICATOR
  else (IsAssetNameValid name).1 && (regex_match name QUALIFIER_INDICATOR || regex_match name SUB_QUALIFIER_INDICATOR).
Definition IsAssetNameAnMsgChannel (name : text) : bool := (IsAssetNameValid name).1 && regex_match name MSGCHANNEL_INDICATOR.

(** ** Derived names *)

Definition RestrictedNameToOwnerName (name : text) : text :=
  if negb (IsAssetNameAnRestricted name) then [] else substr name 1 (zlen name) ++ [BANG].

(** [name.substr(0, name.find_last_of(c))], or the name when there is no [c] *)
Fixpoint before_last (c : Z) (name : text) : option text :=
  match name with
  | [] => None
  | d :: name =>
      match before_last c name with
      | Some s => Some (d :: s)
      | None => if d =? c then Some [] else None
      end
  end.
Definition cut_last (c : Z) (name : text) : text := default name (before_last c name).

Definition GetParentName (name : text) : text :=
  match IsAssetNameValid name with
  | (true, Some type) =>
      match type with
      | SUB | SUB_QUALIFIER => cut_last SLASH name
      | UNIQUE => cut_last HASH name
      | MSGCHANNEL => cut_last TILDE name
      | VOTE => cut_last CARET name
      | _ => name
      end
  | _ => []
  end.

Definition GetUniqueAssetName (parent tag : text) : text :=
  let unique := parent ++ lit "#" ++ tag in
  match IsAssetNameValid unique with
  | (true, Some UNIQUE) => unique
  | _ => []
  end.

(** ** What the parts are *)

Definition reserved (name : text) : Prop := name ∈ reserved_names.
Definition double (s : text) : Prop := exists a x y b, s = a ++ x :: y :: b /\ punctuation x = true /\ punctuation y = true.
Definition leading (s : text) : Prop := exists x b, s = x :: b /\ punctuation x = true.
Definition trailing (s : text) : Prop := exists a x, s = a ++ [x] /\ punctuation x = true.
Definition tidy (s : text) : Prop := ~ double s /\ ~ leading s /\ ~ trailing s.

Definition sub_name (s : text) : Prop := s <> [] /\ all name_char s /\ tidy s.
Definition root_name (s : text) : Prop := (3 <= length s)%nat /\ all name_char s /\ tidy s /\ ~ reserved s.

(** a root name and the names below it *)
Definition path (l : list text) : Prop := match l with r :: subs => root_name r /\ Forall sub_name subs | [] => False end.

Definition printable : Z -> bool := none_of [10; 13].

Lemma name_printable c : name_char c = true -> printable c = true.
Proof. unfold name_char, range, printable, none_of, one_of. cbn. lia. Qed.

Lemma all_impl (p q : Z -> bool) s : (forall c, p c = true -> q c = true) -> all p s -> all q s.
Proof. intros H Hs. eapply Forall_impl; [exact Hs | done]. Qed.

Lemma all_app p s1 s2 : all p (s1 ++ s2) <-> all p s1 /\ all p s2.
Proof. apply Forall_app. Qed.

Lemma match_double s : all printable s -> regex_match s DOUBLE_PUNCTUATION = true <-> double s.
Proof.
  intros Hs. rewrite regex_match_lang. unfold DOUBLE_PUNCTUATION, Dot. rewrite lang_seq. setoid_rewrite lang_seq.
  setoid_rewrite lang_star_class. setoid_rewrite lang_atleast_class. split.
  - intros (a & ? & -> & _ & p & b & -> & [Hl Hp] & _). destruct p as [|x [|y p]]; [cbn in Hl; lia..|].
    apply Forall_cons in Hp as [Hx Hp]. apply Forall_cons in Hp as [Hy _]. exists a, x, y, (p ++ b). done.
  - intros (a & x & y & b & -> & Hx & Hy). apply all_app in Hs as [Ha Hb]. apply Forall_cons in Hb as [_ Hb]. apply Forall_cons in Hb as [_ Hb].
    exists a, (x :: y :: b). split; [done|]. split; [done|]. exists [x; y], b. split; [done|]. split; [|done].
    split; [done | by repeat constructor].
Qed.

Lemma match_leading s : all printable s -> regex_match s LEADING_PUNCTUATION = true <-> leading s.
Proof.
  intros Hs. rewrite regex_match_lang. unfold LEADING_PUNCTUATION, Dot. rewrite lang_seq. setoid_rewrite lang_class. setoid_rewrite lang_star_class. split.
  - intros (? & b & -> & (x & -> & Hx) & _). by exists x, b.
  - intros (x & b & -> & Hx). apply Forall_cons in Hs as [_ Hb]. exists [x], b. eauto.
Qed.

Lemma match_trailing s : all printable s -> regex_match s TRAILING_PUNCTUATION = true <-> trailing s.
Proof.
  intros Hs. rewrite regex_match_lang. unfold TRAILING_PUNCTUATION, Dot. rewrite lang_seq. setoid_rewrite lang_class. setoid_rewrite lang_star_class. split.
  - intros (a & ? & -> & _ & x & -> & Hx). by exists a, x.
  - intros (a & x & -> & Hx). apply all_app in Hs as [Ha _]. exists a, [x]. eauto.
Qed.

Lemma match_reserved s : regex_match s BLACKRAVEN_NAMES = true <-> reserved s.
Proof.
  rewrite regex_match_lang. unfold BLACKRAVEN_NAMES, reserved. induction reserved_names as [|w l IH]; cbn [fold_right].
  - split; [by inversion 1 | by intros H%not_elem_of_nil].
  - by rewrite lang_alt, lang_word, IH, elem_of_cons.
Qed.

Lemma negb_iff (b : bool) (P : Prop) : (b = true <-> P) -> negb b = true <-> ~ P.
Proof. intros H. rewrite negb_true_iff, <- not_true_iff_false, H. done. Qed.

Lemma IsRootNameValid_spec s : IsRootNameValid s = true <-> root_name s.
Proof.
  unfold IsRootNameValid, root_name, tidy. rewrite !andb_true_iff, (regex_match_lang s ROOT_NAME_CHARACTERS). unfold ROOT_NAME_CHARACTERS.
  rewrite lang_atleast_class. destruct (decide (Forall (fun c => name_char c = true) s)) as [Hs|Hs]; [|unfold all; tauto].
  pose proof (all_impl _ _ s name_printable Hs) as Hp.
  rewrite (negb_iff _ _ (match_double s Hp)), (negb_iff _ _ (match_leading s Hp)), (negb_iff _ _ (match_trailing s Hp)), (negb_iff _ _ (match_reserved s)). tauto.
Qed.

Lemma IsSubNameValid_spec s : IsSubNameValid s = true <-> sub_name s.
Proof.
  unfold IsSubNameValid, sub_name, tidy. rewrite !andb_true_iff, (regex_match_lang s SUB_NAME_CHARACTERS). unfold SUB_NAME_CHARACTERS.
  rewrite lang_plus_class. destruct (decide (Forall (fun c => name_char c = true) s)) as [Hs|Hs]; [|unfold all; tauto].
  pose proof (all_impl _ _ s name_printable Hs) as Hp.
  rewrite (negb_iff _ _ (match_double s Hp)), (negb_iff _ _ (match_leading s Hp)), (negb_iff _ _ (match_trailing s Hp)). tauto.
Qed.

Lemma sub_names_chars subs : Forall sub_name subs -> Forall (all name_char) subs.
Proof. intros H. eapply Forall_impl; [exact H|]. by intros s (_ & Hs & _). Qed.

Lemma path_chars l : path l -> Forall (all name_char) l.
Proof. destruct l as [|r subs]; [done|]. intros [(_ & Hr & _) Hs]. constructor; [done | by apply sub_names_chars]. Qed.

Lemma all_free p s c : all p s -> p c = false -> c ∉ s.
Proof. intros Hs Hc Hin. unfold all in Hs. rewrite Forall_forall in Hs. specialize (Hs c Hin). congruence. Qed.

Lemma path_split l : path l -> split SLASH (join SLASH l) = l.
Proof.
  intros Hl. apply split_join; [by destruct l|]. eapply Forall_impl; [exact (path_chars l Hl)|]. intros s Hs. by apply (all_free name_char).
Qed.

Lemma IsNameValidBeforeTag_spec name : IsNameValidBeforeTag name = true <-> exists l, path l /\ name = join SLASH l.
Proof.
  transitivity (path (split SLASH name)).
  - unfold IsNameValidBeforeTag. pose proof (split_nonempty SLASH name). destruct (split SLASH name) as [|r subs]; [done|]. cbn.
    rewrite <- IsRootNameValid_spec. destruct (IsRootNameValid r); cbn; [|intuition congruence].
    rewrite forallb_forall, Forall_forall. setoid_rewrite list_elem_of_In. setoid_rewrite <- IsSubNameValid_spec. tauto.
  - split; [intros H; exists (split SLASH name); by rewrite join_split | intros (l & Hl & ->); by rewrite path_split].
Qed.

(** qualifiers and restricted names behind their first character *)
Definition body (n : nat) (s : text) : Prop := (n <= length s)%nat /\ all name_char s /\ ~ double s /\ ~ trailing s.

Lemma double_cons c s : punctuation c = false -> double (c :: s) <-> double s.
Proof.
  intros Hc. split.
  - intros ([|d a] & x & y & b & E & Hx & Hy); injection E as -> ->; [congruence | by exists a, x, y, b].
  - intros (a & x & y & b & -> & Hx & Hy). by exists (c :: a), x, y, b.
Qed.

Lemma trailing_cons c s : s <> [] -> trailing (c :: s) <-> trailing s.
Proof.
  intros Hs. split.
  - intros ([|d a] & x & E & Hx); injection E as -> ->; [done | by exists a, x].
  - intros (a & x & -> & Hx). by exists (c :: a), x.
Qed.

Lemma not_leading_cons c s : punctuation c = false -> ~ leading (c :: s).
Proof. intros Hc (x & b & [= -> ->] & Hx). congruence. Qed.

(** the shared part of the checks of qualifiers and restricted names *)
Lemma marked_name c n r name : printable c = true -> punctuation c = false -> r = AtLeast (S n) (Class name_char) ->
  regex_match name (Seq (Char c) r) = true /\ regex_match name DOUBLE_PUNCTUATION <> true /\ regex_match name TRAILING_PUNCTUATION <> true <->
  exists b, name = c :: b /\ body (S n) b.
Proof.
  intros Hc Hp ->. rewrite regex_match_lang, lang_seq. setoid_rewrite lang_char. setoid_rewrite lang_atleast_class.
  assert (Hpr : forall b, all name_char b -> all printable (c :: b)) by (intros b Hb; constructor; [done | by eapply all_impl, Hb; exact name_printable]).
  split.
  - intros [(? & b & -> & -> & Hl & Hb) [H1 H2]]. cbn [app] in *. exists b. split; [done|].
    rewrite (match_double _ (Hpr b Hb)), double_cons in H1 by done. rewrite (match_trailing _ (Hpr b Hb)), trailing_cons in H2 by (destruct b; [cbn in Hl; lia | done]).
    done.
  - intros (b & -> & Hl & Hb & H1 & H2). split; [by exists [c], b|].
    rewrite (match_double _ (Hpr b Hb)), (match_trailing _ (Hpr b Hb)), double_cons, trailing_cons by first [done | (destruct b; [cbn in Hl; lia | done])]. done.
Qed.

Lemma IsRestrictedNameValid_spec name : IsRestrictedNameValid name = true <-> exists b, name = DOLLAR :: b /\ body 3 b.
Proof.
  rewrite <- (marked_name DOLLAR 2 _ name eq_refl eq_refl eq_refl). unfold IsRestrictedNameValid, RESTRICTED_NAME_CHARACTERS.
  rewrite !andb_true_iff, !negb_true_iff, <- !not_true_iff_false. split; [tauto|]. intros (H1 & H2 & H3).
  split; [split; [split; [done|]|done]|].
  - pose proof (proj1 (marked_name DOLLAR 2 _ name eq_refl eq_refl eq_refl) (conj H1 (conj H2 H3))) as (b & -> & _ & Hb & _).
    rewrite match_leading; [by apply not_leading_cons|]. constructor; [done | by eapply all_impl, Hb; exact name_printable].
  - rewrite match_reserved. intros Hr. apply regex_match_lang, lang_seq in H1 as (s1 & s2 & -> & ->%lang_char & _).
    unfold reserved in Hr. repeat (apply elem_of_cons in Hr as [Hr|Hr]; [discriminate|]). by apply not_elem_of_nil in Hr.
Qed.

Lemma match_qualifier_leading b : all name_char b -> regex_match (HASH :: b) QUALIFIER_LEADING_PUNCTUATION = true <-> leading b.
Proof.
  intros Hb. rewrite regex_match_lang. unfold QUALIFIER_LEADING_PUNCTUATION. rewrite lang_seq. setoid_rewrite lang_class.
  assert (Hp : all printable b) by (by eapply all_impl, Hb; exact name_printable). split.
  - intros (? & s & E & (c & -> & _) & Hs). injection E as <- <-. by apply (match_leading b Hp), regex_match_lang.
  - intros Hl. exists [HASH], b. split; [done|]. split; [by exists HASH|]. by apply regex_match_lang, match_leading.
Qed.

Lemma IsQualifierNameValid_spec name :
  IsQualifierNameValid name = true <-> exists b, name = HASH :: b /\ body 3 b /\ ~ leading b /\ ~ reserved name.
Proof.
  pose proof (marked_name HASH 2 _ name eq_refl eq_refl eq_refl) as M. unfold IsQualifierNameValid, QUALIFIER_NAME_CHARACTERS.
  rewrite !andb_true_iff, !negb_true_iff, <- !not_true_iff_false, match_reserved. split.
  - intros [[[[H1 H2] H3] H4] H5]. destruct (proj1 M (conj H1 (conj H2 H4))) as (b & -> & Hb). exists b.
    rewrite match_qualifier_leading in H3 by apply Hb. done.
  - intros (b & -> & Hb & Hl & Hr). destruct (proj2 M (ex_intro _ b (conj eq_refl Hb))) as (H1 & H2 & H4).
    rewrite match_qualifier_leading by apply Hb. done.
Qed.

Lemma IsSubQualifierNameValid_spec name : IsSubQualifierNameValid name = true <-> exists b, name = HASH :: b /\ body 1 b.
Proof.
  pose proof (marked_name HASH 0 _ name eq_refl eq_refl eq_refl) as M. unfold IsSubQualifierNameValid, SUB_QUALIFIER_NAME_CHARACTERS.
  rewrite !andb_true_iff, !negb_true_iff, <- !not_true_iff_false. rewrite <- M. split; [unfold Plus; cbn [AtLeast]; tauto|].
  intros (H1 & H2 & H3). split; [split; [split; [exact H1|exact H2]|]|exact H3].
  destruct (proj1 M (conj H1 (conj H2 H3))) as (b & -> & _ & Hb & _).
  rewrite match_leading; [by apply not_leading_cons|]. constructor; [done | by eapply all_impl, Hb; exact name_printable].
Qed.

(** ** The kinds of names *)

Definition channel_tag (tag : text) : Prop := tag <> [] /\ all channel_char tag /\ tidy tag /\ zlen tag <= MAX_CHANNEL_NAME_LENGTH.

(** behind the first [^] of a vote: only what follows the last one is checked *)
Definition vote_tag (tag : text) : Prop :=
  all after_mark tag /\ exists t, (tag = t \/ exists x, tag = x ++ CARET :: t) /\ t <> [] /\ all name_char t.

(** the text before a mark is a path, and the tag behind it *)
Definition tagged (mark : Z) (tag_ok : text -> Prop) (name : text) : Prop :=
  exists l tag, name = join SLASH l ++ mark :: tag /\ path l /\ tag_ok tag.

Definition name_spec (type : AssetType) (name : text) : Prop :=
  match type with
  | ROOT => root_name name /\ zlen name <= 30
  | SUB => (exists l, name = join SLASH l /\ path l /\ (2 <= length l)%nat) /\ zlen name <= 30
  | UNIQUE => tagged HASH (fun tag => tag <> [] /\ all unique_char tag) name /\ zlen name <= 31
  | MSGCHANNEL => tagged TILDE channel_tag name /\ zlen name <= 31
  | VOTE => tagged CARET vote_tag name /\ zlen name <= 31
  | OWNER => (exists l, name = join SLASH l ++ [BANG] /\ path l) /\ zlen name <= 31
  | QUALIFIER => (exists b, name = HASH :: b /\ body 3 b /\ ~ leading b /\ ~ reserved name) /\ zlen name <= 31
  | SUB_QUALIFIER =>
      (exists b c, name = HASH :: b ++ SLASH :: HASH :: c /\ body 3 b /\ ~ leading b /\ ~ reserved (HASH :: b) /\ body 1 c) /\ zlen name <= 31
  | RESTRICTED => (exists b, name = DOLLAR :: b /\ body 3 b) /\ zlen name <= 31
  | _ => False
  end.

(** ** The indicators *)

Lemma match_indicator mark name : regex_match name (indicator mark) = true <->
  exists a b, name = a ++ mark :: b /\ (a <> [] /\ all before_mark a) /\ (b <> [] /\ all after_mark b).
Proof.
  rewrite regex_match_lang. unfold indicator. rewrite lang_seq. setoid_rewrite lang_plus_class. setoid_rewrite lang_seq.
  setoid_rewrite lang_plus_class. setoid_rewrite lang_char. split.
  - intros (a & ? & -> & Ha & ? & b & -> & -> & Hb). by exists a, b.
  - intros (a & b & -> & Ha & Hb). exists a, (mark :: b). split; [done|]. split; [done|]. by exists [mark], b.
Qed.

Lemma match_owner name : regex_match name OWNER_INDICATOR = true <-> exists a, name = a ++ [BANG] /\ a <> [] /\ all before_mark a.
Proof.
  rewrite regex_match_lang. unfold OWNER_INDICATOR. rewrite lang_seq. setoid_rewrite lang_plus_class. setoid_rewrite lang_char. split.
  - intros (a & ? & -> & Ha & ->). by exists a.
  - intros (a & -> & Ha). by exists a, [BANG].
Qed.

Lemma match_marked c n name : regex_match name (Seq (Char c) (AtLeast n (Class name_char))) = true <->
  exists b, name = c :: b /\ (n <= length b)%nat /\ all name_char b.
Proof.
  rewrite regex_match_lang, lang_seq. setoid_rewrite lang_char. setoid_rewrite lang_atleast_class. split.
  - intros (? & b & -> & -> & Hb). by exists b.
  - intros (b & -> & Hb). by exists [c], b.
Qed.

Lemma match_sub_qualifier name : regex_match name SUB_QUALIFIER_INDICATOR = true <->
  exists b c, name = HASH :: b ++ SLASH :: HASH :: c /\ (b <> [] /\ all name_char b) /\ (c <> [] /\ all name_char c).
Proof.
  rewrite regex_match_lang. unfold SUB_QUALIFIER_INDICATOR. rewrite lang_seq. setoid_rewrite lang_seq. setoid_rewrite lang_plus_class.
  do 2 setoid_rewrite lang_seq. setoid_rewrite lang_plus_class. setoid_rewrite lang_char. split.
  - intros (? & ? & -> & -> & b & ? & -> & Hb & ? & ? & -> & -> & ? & c & -> & -> & Hc). by exists b, c.
  - intros (b & c & -> & Hb & Hc). exists [HASH], (b ++ SLASH :: HASH :: c). split; [done|]. split; [done|].
    exists b, (SLASH :: HASH :: c). split; [done|]. split; [done|]. exists [SLASH], (HASH :: c). split; [done|]. split; [done|]. by exists [HASH], c.
Qed.

(** ** Every name has one kind *)

Definition plain (c : Z) : bool := name_char c || (c =? SLASH).

Lemma path_plain l : path l -> join SLASH l <> [] /\ all plain (join SLASH l).
Proof.
  intros Hl. pose proof (path_chars l Hl) as Hc. split.
  - destruct l as [|r [|q l]]; [done | |]; cbn [join]; destruct Hl as [(H & _) _]; destruct r; (done || (cbn in H; lia)).
  - clear Hl. induction Hc as [|s l Hs Hc IH]; [constructor|]. assert (all plain s) by (eapply all_impl, Hs; intros c Ec; unfold plain; by rewrite Ec).
    destruct l as [|q l]; [done|]. rewrite join_cons by done. apply all_app. split; [done|]. by constructor.
Qed.

Lemma plain_before c : plain c = true -> before_mark c = true.
Proof. unfold plain, name_char, range, before_mark, none_of, one_of, SLASH, CARET, TILDE, HASH, BANG. cbn. lia. Qed.

(** the marks an indicator asks for *)
Lemma indicator_mark mark name : regex_match name (indicator mark) = true -> mark ∈ name.
Proof. intros (a & b & -> & _)%match_indicator. apply elem_of_app. right. by left. Qed.

Lemma indicator_head mark c name : before_mark c = false -> regex_match (c :: name) (indicator mark) = false.
Proof.
  intros Hc. apply not_true_iff_false. intros (a & b & E & [Hn Ha] & _)%match_indicator.
  destruct a as [|d a]; [done|]. injection E as -> _. apply Forall_cons in Ha as [Ha _]. congruence.
Qed.

Lemma owner_mark name : regex_match name OWNER_INDICATOR = true -> BANG ∈ name.
Proof. intros (a & -> & _)%match_owner. apply elem_of_app. right. by left. Qed.

Lemma marked_mark c n name : regex_match name (Seq (Char c) (AtLeast n (Class name_char))) = true -> c ∈ name.
Proof. intros (b & -> & _)%match_marked. by left. Qed.

Lemma sub_qualifier_mark name : regex_match name SUB_QUALIFIER_INDICATOR = true -> HASH ∈ name.
Proof. intros (b & c & -> & _)%match_sub_qualifier. by left. Qed.

Lemma unmatched (b : bool) (P : Prop) : (b = true -> P) -> ~ P -> b = false.
Proof. intros H N. apply not_true_iff_false. tauto. Qed.

(** the check of a name with a tag, once the text before the mark is known *)
Lemma check_tag_spec mark a rest : mark ∉ a ->
  front (split mark (a ++ mark :: rest)) = a /\
  exists t, back (split mark (a ++ mark :: rest)) = t /\ (mark ∉ t) /\ (rest = t \/ exists x, rest = x ++ mark :: t).
Proof.
  intros Ha. rewrite split_app, (split_one mark a Ha). destruct (split_back mark rest) as (parts & p & -> & Hp & Hr).
  split; [done|]. exists p. split; [|done]. unfold back. cbn [app]. by rewrite app_comm_cons, last_snoc.
Qed.

(** a tagged name that its indicator matches *)
Lemma tagged_match mark tag_ok name : mark ∈ [HASH; TILDE; CARET] -> (forall tag, tag_ok tag -> tag <> [] /\ all after_mark tag) ->
  tagged mark tag_ok name -> regex_match name (indicator mark) = true.
Proof.
  intros Hm Htag (l & tag & -> & Hl & Ht). apply match_indicator. exists (join SLASH l), tag. split; [done|].
  destruct (path_plain l Hl) as [Hn Hp]. split; [|by apply Htag]. split; [done|]. eapply all_impl, Hp. exact plain_before.
Qed.

Lemma mark_free mark a : mark ∈ [HASH; TILDE; CARET] -> all before_mark a -> mark ∉ a.
Proof.
  intros Hm Ha. apply (all_free before_mark); [done|]. repeat (apply elem_of_cons in Hm as [->|Hm]; [done|]). by apply not_elem_of_nil in Hm.
Qed.

(** the shared part of unique assets, channels and votes *)
Lemma tagged_spec mark (tag_check : text -> bool) (tag_ok : text -> Prop) name : mark ∈ [HASH; TILDE; CARET] ->
  (forall tag, tag_ok tag -> tag <> [] /\ all after_mark tag) ->
  (forall rest t, rest <> [] -> all after_mark rest -> (mark ∉ t) -> (rest = t \/ exists x, rest = x ++ mark :: t) -> tag_check t = true <-> tag_ok rest) ->
  regex_match name (indicator mark) = true /\
    IsNameValidBeforeTag (front (split mark name)) && tag_check (back (split mark name)) = true <-> tagged mark tag_ok name.
Proof.
  intros Hm Htag Hcheck. split.
  - intros [(a & rest & -> & [Ha1 Ha2] & [Hr1 Hr2])%match_indicator H]. apply andb_true_iff in H as [H1 H2].
    destruct (check_tag_spec mark a rest (mark_free mark a Hm Ha2)) as (Ef & t & Eb & Hf & Ht). rewrite Ef in H1. rewrite Eb in H2.
    apply IsNameValidBeforeTag_spec in H1 as (l & Hl & ->). exists l, rest. split; [done|]. split; [done|]. by apply (Hcheck rest t).
  - intros H. split; [by apply (tagged_match mark tag_ok)|]. destruct H as (l & rest & -> & Hl & Hr). destruct (path_plain l Hl) as [_ Hp].
    assert (Ha : all before_mark (join SLASH l)) by (eapply all_impl, Hp; exact plain_before).
    destruct (check_tag_spec mark (join SLASH l) rest (mark_free mark _ Hm Ha)) as (-> & t & -> & Hf & Ht). destruct (Htag rest Hr).
    apply andb_true_iff. split; [apply IsNameValidBeforeTag_spec; eauto | by apply (Hcheck rest t)].
Qed.

Lemma class_after (p : Z -> bool) s : (forall c, p c = true -> after_mark c = true) -> all p s -> all after_mark s.
Proof. apply all_impl. Qed.

Lemma unique_after c : unique_char c = true -> after_mark c = true.
Proof.
  unfold unique_char, range, one_of, after_mark, none_of, TILDE, HASH, BANG, SLASH. set (l := lit _). vm_compute in l. subst l. cbn. lia.
Qed.
Lemma channel_after c : channel_char c = true -> after_mark c = true.
Proof. unfold channel_char, range, one_of, after_mark, none_of, TILDE, HASH, BANG, SLASH. cbn. lia. Qed.
Lemma channel_printable c : channel_char c = true -> printable c = true.
Proof. unfold channel_char, range, printable, none_of, one_of. cbn. lia. Qed.
Lemma name_after c : name_char c = true -> after_mark c = true.
Proof. unfold name_char, range, one_of, after_mark, none_of, TILDE, HASH, BANG, SLASH. cbn. lia. Qed.

Lemma no_second_mark mark rest t : after_mark mark = false -> all after_mark rest -> (rest = t \/ exists x, rest = x ++ mark :: t) -> rest = t.
Proof.
  intros Hm Hr [?|(x & ->)]; [done|]. apply all_app in Hr as [_ Hr]. apply Forall_cons in Hr as [Hr _]. congruence.
Qed.

Lemma unique_spec name : regex_match name UNIQUE_INDICATOR = true /\ IsTypeCheckNameValid UNIQUE name = true <-> name_spec UNIQUE name.
Proof.
  cbn [IsTypeCheckNameValid name_spec]. unfold UNIQUE_INDICATOR, MAX_NAME_LENGTH.
  rewrite <- (tagged_spec HASH IsUniqueTagValid _ name ltac:(by left)); [destruct (Z.gtb_spec (zlen name) 31); split; intuition (done || lia) | |].
  - intros tag [H1 H2]. split; [done | by eapply class_after, H2; exact unique_after].
  - intros rest t _ Hr _ Ht. rewrite (no_second_mark HASH rest t eq_refl Hr Ht). unfold IsUniqueTagValid, UNIQUE_TAG_CHARACTERS.
    by rewrite regex_match_lang, lang_plus_class.
Qed.

Lemma IsMsgChannelTagValid_spec t : IsMsgChannelTagValid t = true <-> t <> [] /\ all channel_char t /\ tidy t.
Proof.
  unfold IsMsgChannelTagValid, tidy. rewrite !andb_true_iff, (regex_match_lang t MSGCHANNEL_TAG_CHARACTERS). unfold MSGCHANNEL_TAG_CHARACTERS.
  rewrite lang_plus_class. destruct (decide (Forall (fun c => channel_char c = true) t)) as [Hs|Hs]; [|unfold all; tauto].
  pose proof (all_impl _ _ t channel_printable Hs) as Hp.
  rewrite (negb_iff _ _ (match_double t Hp)), (negb_iff _ _ (match_leading t Hp)), (negb_iff _ _ (match_trailing t Hp)). tauto.
Qed.

Lemma channel_spec name : regex_match name MSGCHANNEL_INDICATOR = true /\ IsTypeCheckNameValid MSGCHANNEL name = true <-> name_spec MSGCHANNEL name.
Proof.
  cbn [IsTypeCheckNameValid name_spec]. unfold MSGCHANNEL_INDICATOR, MAX_NAME_LENGTH.
  rewrite <- (tagged_spec TILDE (fun t => IsMsgChannelTagValid t && negb (zlen t >? MAX_CHANNEL_NAME_LENGTH)) _ name ltac:(by right; left)).
  - rewrite !andb_true_iff, negb_true_iff. destruct (Z.gtb_spec (zlen name) 31), (_ >? MAX_CHANNEL_NAME_LENGTH); rewrite ?andb_true_iff; split; intuition (done || lia).
  - intros tag (H1 & H2 & _). split; [done | by eapply class_after, H2; exact channel_after].
  - intros rest t _ Hr _ Ht. rewrite (no_second_mark TILDE rest t eq_refl Hr Ht). unfold channel_tag.
    rewrite andb_true_iff, IsMsgChannelTagValid_spec, negb_true_iff, Z.gtb_ltb, Z.ltb_ge. tauto.
Qed.

Lemma vote_spec name : regex_match name VOTE_INDICATOR = true /\ IsTypeCheckNameValid VOTE name = true <-> name_spec VOTE name.
Proof.
  cbn [IsTypeCheckNameValid name_spec]. unfold VOTE_INDICATOR, MAX_NAME_LENGTH.
  rewrite <- (tagged_spec CARET IsVoteTagValid _ name ltac:(by right; right; left)); [destruct (Z.gtb_spec (zlen name) 31); split; intuition (done || lia) | |].
  - intros tag (H1 & t & Ht & Hn & _). split; [|done]. destruct Ht as [->|[x ->]]; [done | by destruct x].
  - intros rest t _ Hr Hf Ht. unfold IsVoteTagValid, VOTE_TAG_CHARACTERS. rewrite regex_match_lang, lang_plus_class. split.
    + intros [H1 H2]. split; [done|]. by exists t.
    + intros (_ & u & Hu & Hn & Hc). replace t with u; [done|]. assert (Hf' : CARET ∉ u) by (by apply (all_free name_char)).
      assert (Eu : last (split CARET rest) = Some u) by (destruct Hu as [->|[x ->]]; rewrite ?split_app, (split_one CARET u) by done; [done | apply last_snoc]).
      assert (Et : last (split CARET rest) = Some t) by (destruct Ht as [->|[x ->]]; rewrite ?split_app, (split_one CARET t) by done; [done | apply last_snoc]).
      congruence.
Qed.

Lemma owner_spec name : regex_match name OWNER_INDICATOR = true /\ IsTypeCheckNameValid OWNER name = true <-> name_spec OWNER name.
Proof.
  assert (Hsub : forall a, substr (a ++ [BANG]) 0 (zlen (a ++ [BANG]) - 1) = a).
  { intros a. rewrite length_app. cbn [length]. replace (Z.of_nat (length a + 1) - 1) with (zlen a) by lia. apply (substr_middle [] a [BANG]). }
  cbn [IsTypeCheckNameValid name_spec]. unfold MAX_NAME_LENGTH. rewrite match_owner. split.
  - intros [(a & -> & Ha) H]. destruct (Z.gtb_spec (zlen (a ++ [BANG])) 31); [done|]. rewrite Hsub in H.
    apply IsNameValidBeforeTag_spec in H as (l & Hl & ->). split; [by exists l | done].
  - intros [(l & -> & Hl) Hlen]. destruct (path_plain l Hl) as [Hn Hp]. split.
    + exists (join SLASH l). split; [done|]. split; [done|]. eapply all_impl, Hp. exact plain_before.
    + destruct (Z.gtb_spec (zlen (join SLASH l ++ [BANG])) 31); [lia|]. rewrite Hsub. apply IsNameValidBeforeTag_spec. eauto.
Qed.

Lemma restricted_spec name : regex_match name RESTRICTED_INDICATOR = true /\ IsTypeCheckNameValid RESTRICTED name = true <-> name_spec RESTRICTED name.
Proof.
  cbn [IsTypeCheckNameValid name_spec]. unfold MAX_NAME_LENGTH, RESTRICTED_INDICATOR. rewrite match_marked. split.
  - intros [_ H]. destruct (Z.gtb_spec (zlen name) 31); [done|]. by apply IsRestrictedNameValid_spec in H.
  - intros [H Hlen]. split; [destruct H as (b & -> & Hl & Hb & _); by exists b|].
    destruct (Z.gtb_spec (zlen name) 31); [lia | by apply IsRestrictedNameValid_spec].
Qed.

Lemma qualifier_one_part b : all name_char b -> split SLASH (HASH :: b) = [HASH :: b].
Proof. intros Hb. apply split_one, not_elem_of_cons. split; [done | by apply (all_free name_char)]. Qed.

Lemma qualifier_spec name : regex_match name QUALIFIER_INDICATOR = true ->
  IsAssetNameASubQualifier name = false /\ (IsTypeCheckNameValid QUALIFIER name = true <-> name_spec QUALIFIER name).
Proof.
  unfold QUALIFIER_INDICATOR. intros (b & -> & _ & Hb)%match_marked. split.
  - unfold IsAssetNameASubQualifier. rewrite (qualifier_one_part b Hb). by destruct (IsQualifierNameValid _).
  - cbn [IsTypeCheckNameValid name_spec]. unfold MAX_NAME_LENGTH, IsQualifierNameValidBeforeTag. rewrite (qualifier_one_part b Hb).
    change (front [HASH :: b]) with (HASH :: b). change (forallb IsSubQualifierNameValid (tail [HASH :: b])) with true.
    change (zlen [HASH :: b] >? 2) with false. rewrite <- IsQualifierNameValid_spec.
    destruct (Z.gtb_spec (zlen (HASH :: b)) 31), (IsQualifierNameValid (HASH :: b)); cbn [negb]; split; intuition (done || lia).
Qed.

Lemma qualifier_match name : name_spec QUALIFIER name -> regex_match name QUALIFIER_INDICATOR = true.
Proof. intros [(b & -> & (Hl & Hb & _) & _) _]. apply match_marked. by exists b. Qed.

Lemma sub_qualifier_parts b c : all name_char b -> all name_char c ->
  split SLASH (HASH :: b ++ SLASH :: HASH :: c) = [HASH :: b; HASH :: c].
Proof.
  intros Hb Hc. rewrite app_comm_cons, split_app, !qualifier_one_part by done. done.
Qed.

Lemma sub_qualifier_spec name : regex_match name SUB_QUALIFIER_INDICATOR = true ->
  IsTypeCheckNameValid SUB_QUALIFIER name = true <-> IsAssetNameASubQualifier name = true /\ name_spec SUB_QUALIFIER name.
Proof.
  intros (b & c & -> & [_ Hb] & [_ Hc])%match_sub_qualifier. cbn [IsTypeCheckNameValid name_spec].
  unfold MAX_NAME_LENGTH, IsQualifierNameValidBeforeTag, IsAssetNameASubQualifier. rewrite (sub_qualifier_parts b c Hb Hc).
  change (front [HASH :: b; HASH :: c]) with (HASH :: b). change (zlen [HASH :: b; HASH :: c] >? 2) with false.
  change (zlen [HASH :: b; HASH :: c] >? 1) with true. change (tail [HASH :: b; HASH :: c]) with [HASH :: c]. cbn [forallb].
  assert (Hspec : (exists b' c', HASH :: b ++ SLASH :: HASH :: c = HASH :: b' ++ SLASH :: HASH :: c' /\ body 3 b' /\ ~ leading b' /\ ~ reserved (HASH :: b') /\ body 1 c') <->
    IsQualifierNameValid (HASH :: b) = true /\ IsSubQualifierNameValid (HASH :: c) = true).
  { rewrite IsQualifierNameValid_spec, IsSubQualifierNameValid_spec. split.
    - intros (b' & c' & E & H1 & H2 & H3 & H4).
      pose proof (sub_qualifier_parts b c Hb Hc) as E1. rewrite E, (sub_qualifier_parts b' c') in E1 by (apply H1 || apply H4).
      injection E1 as -> ->. split; [by exists b | by exists c].
    - intros [(b' & [= <-] & H1) (c' & [= <-] & H4)]. exists b, c. tauto. }
  rewrite Hspec. destruct (Z.gtb_spec (zlen (HASH :: b ++ SLASH :: HASH :: c)) 31), (IsQualifierNameValid (HASH :: b)), (IsSubQualifierNameValid (HASH :: c));
    cbn [negb andb]; split; intuition (done || lia).
Qed.

Lemma sub_qualifier_match name : name_spec SUB_QUALIFIER name -> regex_match name SUB_QUALIFIER_INDICATOR = true.
Proof.
  intros [(b & c & -> & (Hl & Hb & _) & _ & _ & (Hlc & Hc & _)) _]. apply match_sub_qualifier. exists b, c. split; [done|].
  split; (split; [|done]); [destruct b | destruct c]; (done || (cbn in *; lia)).
Qed.

(** names without a mark *)
Lemma default_spec name : let type := if IsAssetNameASubasset name then SUB else ROOT in
  IsTypeCheckNameValid type name = true <-> name_spec type name.
Proof.
  intros type. transitivity (zlen name <= 30 /\ (IsAssetNameASubasset name = true \/ 3 <= zlen name) /\ IsNameValidBeforeTag name = true).
  { assert (E : IsTypeCheckNameValid type name = IsTypeCheckNameValid ROOT name) by (subst type; by destruct (IsAssetNameASubasset name)).
    rewrite E. cbn [IsTypeCheckNameValid]. unfold MAX_NAME_LENGTH, MIN_ASSET_LENGTH. change (31 - 1) with 30.
    destruct (Z.gtb_spec (zlen name) 30), (IsAssetNameASubasset name), (Z.ltb_spec (zlen name) 3), (IsNameValidBeforeTag name); cbn; split; intuition (done || lia). }
  rewrite IsNameValidBeforeTag_spec. subst type. unfold IsAssetNameASubasset. split.
  - intros (Hlen & _ & l & Hl & ->). rewrite path_split by done. destruct l as [|r l]; [done|]. change (front (r :: l)) with r.
    pose proof Hl as [Hr _]. rewrite (proj2 (IsRootNameValid_spec r) Hr). cbn [negb]. destruct l as [|q l].
    + done.
    + change (zlen (r :: q :: l)) with (Z.of_nat (S (S (length l)))). rewrite (proj2 (Z.gtb_lt _ _)) by lia.
      split; [|done]. exists (r :: q :: l). split; [done|]. split; [done | cbn; lia].
  - destruct (negb (IsRootNameValid (front (split SLASH name)))) eqn:E.
    + cbn [name_spec]. intros [Hr Hlen]. exfalso. rewrite split_one in E by (apply (all_free name_char); [apply Hr | done]).
      cbn in E. apply negb_true_iff in E. by rewrite (proj2 (IsRootNameValid_spec name) Hr) in E.
    + destruct (zlen (split SLASH name) >? 1) eqn:E2; cbn [name_spec].
      * intros [(l & -> & Hl & _) Hlen]. split; [done|]. split; [by left | by exists l].
      * intros [Hr Hlen]. split; [done|]. split; [right; destruct Hr; lia|]. exists [name]. by repeat split; try apply Hr.
Qed.

(** texts that a name of a kind cannot contain *)
Lemma plain_free l c : path l -> plain c = false -> c ∉ join SLASH l.
Proof. intros Hl Hc. apply (all_free plain); [by apply path_plain | done]. Qed.

Lemma tagged_free mark tag_ok (p : Z -> bool) name c : tagged mark tag_ok name -> (forall tag, tag_ok tag -> all p tag) ->
  plain c = false -> p c = false -> c <> mark -> c ∉ name.
Proof.
  intros (l & tag & -> & Hl & Ht) Hp H1 H2 Hn. rewrite not_elem_of_app, not_elem_of_cons. split; [by apply plain_free|].
  split; [done|]. by apply (all_free p); [apply Hp|].
Qed.

Lemma owner_head c name : before_mark c = false -> regex_match (c :: name) OWNER_INDICATOR = false.
Proof.
  intros Hc. apply not_true_iff_false. intros (a & E & Hn & Ha)%match_owner.
  destruct a as [|d a]; [done|]. injection E as -> _. apply Forall_cons in Ha as [Ha _]. congruence.
Qed.

(** no indicator asks for a mark that is not there *)
Definition unmarked (name : text) : Prop :=
  regex_match name UNIQUE_INDICATOR = false /\ regex_match name MSGCHANNEL_INDICATOR = false /\
  regex_match name OWNER_INDICATOR = false /\ regex_match name VOTE_INDICATOR = false.

Lemma free_unmarked name : HASH ∉ name -> TILDE ∉ name -> BANG ∉ name -> CARET ∉ name -> unmarked name.
Proof.
  intros H1 H2 H3 H4. split; [by apply (unmatched _ _ (indicator_mark HASH name))|]. split; [by apply (unmatched _ _ (indicator_mark TILDE name))|].
  split; [by apply (unmatched _ _ (owner_mark name)) | by apply (unmatched _ _ (indicator_mark CARET name))].
Qed.

Lemma head_unmarked name : unmarked (HASH :: name).
Proof. unfold unmarked, UNIQUE_INDICATOR, MSGCHANNEL_INDICATOR, VOTE_INDICATOR. by rewrite !indicator_head, owner_head. Qed.

Lemma subasset_of_path l : path l -> IsAssetNameASubasset (join SLASH l) = (2 <=? zlen l).
Proof.
  intros Hl. unfold IsAssetNameASubasset. rewrite path_split by done. destruct l as [|r l]; [done|]. change (front (r :: l)) with r.
  pose proof Hl as [Hr _]. rewrite (proj2 (IsRootNameValid_spec r) Hr). cbn [negb]. lia.
Qed.

Lemma name_spec_length type name : name_spec type name -> zlen name <= 31.
Proof. destruct type; cbn [name_spec]; intuition lia. Qed.

Lemma default_valid type name l : name = join SLASH l -> path l -> type = (if 2 <=? zlen l then SUB else ROOT) -> name_spec type name ->
  IsAssetNameValid name = (true, Some type).
Proof.
  intros -> Hl -> Hs. pose proof (name_spec_length _ _ Hs) as Hlen. pose proof (fun c => plain_free l c Hl) as Hfree.
  unfold IsAssetNameValid. destruct (Z.gtb_spec (zlen (join SLASH l)) 40); [lia|].
  destruct (free_unmarked (join SLASH l)) as (-> & -> & -> & ->); [by apply Hfree..|].
  unfold QUALIFIER_INDICATOR, RESTRICTED_INDICATOR. rewrite (unmatched _ _ (marked_mark HASH 3 _)) by (by apply Hfree).
  rewrite (unmatched _ _ (sub_qualifier_mark _)), (unmatched _ _ (marked_mark DOLLAR 3 _)) by (by apply Hfree).
  pose proof (proj2 (default_spec (join SLASH l))) as D. rewrite subasset_of_path in * by done. by rewrite (D Hs).
Qed.

Lemma qualifier_valid name : name_spec QUALIFIER name -> IsAssetNameValid name = (true, Some QUALIFIER).
Proof.
  intros Hs. pose proof (name_spec_length _ _ Hs) as Hlen.
  pose proof (qualifier_match name Hs) as Em. destruct (qualifier_spec name Em) as [E1 E2]. apply E2 in Hs as E3.
  destruct Hs as [(b & -> & _) _]. unfold IsAssetNameValid. destruct (head_unmarked b) as (-> & -> & -> & ->). rewrite Em, E1, E3.
  by destruct (Z.gtb_spec (zlen (HASH :: b)) 40); [lia|].
Qed.

Lemma sub_qualifier_valid name : name_spec SUB_QUALIFIER name -> IsAssetNameValid name = (true, Some SUB_QUALIFIER).
Proof.
  intros Hs. pose proof (name_spec_length _ _ Hs) as Hlen.
  pose proof (sub_qualifier_match name Hs) as Em. pose proof (sub_qualifier_spec name Em) as E2.
  assert (Eq : regex_match name QUALIFIER_INDICATOR = false).
  { apply not_true_iff_false. intros (b' & E & _ & Hb')%match_marked. destruct Hs as [(b & c & -> & _) _]. injection E as <-.
    apply all_app in Hb' as [_ Hb']. by apply Forall_cons in Hb' as [Hb' _]. }
  assert (Ea : IsAssetNameASubQualifier name = true).
  { destruct Hs as [(b & c & -> & H1 & H2 & H3 & H4) _]. unfold IsAssetNameASubQualifier. rewrite sub_qualifier_parts by (apply H1 || apply H4).
    change (front [HASH :: b; HASH :: c]) with (HASH :: b). by rewrite (proj2 (IsQualifierNameValid_spec (HASH :: b)) ltac:(by exists b)). }
  assert (Ec : IsTypeCheckNameValid SUB_QUALIFIER name = true) by (by apply E2).
  unfold IsAssetNameValid. rewrite Eq, Em, Ea, Ec. destruct Hs as [(b & c & -> & _) _]. destruct (head_unmarked (b ++ SLASH :: HASH :: c)) as (-> & -> & -> & ->).
  by destruct (Z.gtb_spec (zlen (HASH :: b ++ SLASH :: HASH :: c)) 40); [lia|].
Qed.

Lemma name_spec_valid type name : name_spec type name -> IsAssetNameValid name = (true, Some type).
Proof.
  intros Hs. pose proof (name_spec_length _ _ Hs) as Hlen.
  destruct type; try done.
  - destruct Hs as [Hr Hl]. apply (default_valid ROOT name [name]); [done | split; [done | constructor] | done | done].
  - pose proof Hs as [(l & E & Hl & H2) _]. apply (default_valid SUB name l); [done | done | by destruct (Z.leb_spec 2 (zlen l)); [|lia] | done].
  - apply unique_spec in Hs as [E1 E2]. unfold IsAssetNameValid. rewrite E1, E2. by destruct (Z.gtb_spec (zlen name) 40); [lia|].
  - assert (HASH ∉ name) by (destruct Hs as [Ht _]; apply (tagged_free TILDE channel_tag channel_char name HASH Ht); [intros tag H; apply H | done..]).
    apply channel_spec in Hs as [E1 E2]. unfold IsAssetNameValid, UNIQUE_INDICATOR. rewrite (unmatched _ _ (indicator_mark HASH name)), E1, E2 by done.
    by destruct (Z.gtb_spec (zlen name) 40); [lia|].
  - by apply qualifier_valid.
  - by apply sub_qualifier_valid.
  - assert (Hfree : forall c, name_char c = false -> c <> DOLLAR -> c ∉ name).
    { intros c Hc Hd. destruct Hs as [(b & -> & _ & Hb & _) _]. apply not_elem_of_cons. split; [done | by apply (all_free name_char)]. }
    apply restricted_spec in Hs as [E1 E2]. unfold IsAssetNameValid. destruct (free_unmarked name) as (-> & -> & -> & ->); [by apply Hfree..|].
    unfold QUALIFIER_INDICATOR. rewrite (unmatched _ _ (marked_mark HASH 3 _)), (unmatched _ _ (sub_qualifier_mark _)), E1, E2 by (by apply Hfree).
    by destruct (Z.gtb_spec (zlen name) 40); [lia|].
  - assert (Hfree : forall c, plain c = false -> after_mark c = false -> c <> CARET -> c ∉ name).
    { intros c H1 H2 H3. destruct Hs as [Ht _]. apply (tagged_free CARET vote_tag after_mark name c Ht); [intros tag H; apply H | done..]. }
    apply vote_spec in Hs as [E1 E2]. unfold IsAssetNameValid, UNIQUE_INDICATOR, MSGCHANNEL_INDICATOR.
    rewrite (unmatched _ _ (indicator_mark HASH name)), (unmatched _ _ (indicator_mark TILDE name)), (unmatched _ _ (owner_mark name)), E1, E2 by (by apply Hfree).
    by destruct (Z.gtb_spec (zlen name) 40); [lia|].
  - assert (Hfree : forall c, plain c = false -> c <> BANG -> c ∉ name).
    { intros c H1 H2. destruct Hs as [(l & -> & Hl) _]. rewrite not_elem_of_app. split; [by apply plain_free|]. rewrite list_elem_of_singleton. done. }
    apply owner_spec in Hs as [E1 E2]. unfold IsAssetNameValid, UNIQUE_INDICATOR, MSGCHANNEL_INDICATOR.
    rewrite (unmatched _ _ (indicator_mark HASH name)), (unmatched _ _ (indicator_mark TILDE name)), E1, E2 by (by apply Hfree).
    by destruct (Z.gtb_spec (zlen name) 40); [lia|].
Qed.

Lemma typed_true type ret t : typed type ret = (true, Some t) -> ret = true /\ t = type.
Proof. unfold typed. by destruct ret; intros [= <-]. Qed.

Lemma valid_name_spec name type : IsAssetNameValid name = (true, Some type) -> name_spec type name.
Proof.
  unfold IsAssetNameValid. destruct (zlen name >? 40); [done|].
  destruct (regex_match name UNIQUE_INDICATOR) eqn:E1; [intros [H ->]%typed_true; by apply unique_spec|].
  destruct (regex_match name MSGCHANNEL_INDICATOR) eqn:E2; [intros [H ->]%typed_true; by apply channel_spec|].
  destruct (regex_match name OWNER_INDICATOR) eqn:E3; [intros [H ->]%typed_true; by apply owner_spec|].
  destruct (regex_match name VOTE_INDICATOR) eqn:E4; [intros [H ->]%typed_true; by apply vote_spec|].
  destruct (regex_match name QUALIFIER_INDICATOR) eqn:E5.
  { intros [H ->]%typed_true. destruct (qualifier_spec name E5) as [-> Hq]. by apply Hq. }
  destruct (regex_match name SUB_QUALIFIER_INDICATOR) eqn:E6.
  { intros [H ->]%typed_true. apply (sub_qualifier_spec name E6) in H as [-> H]. done. }
  destruct (regex_match name RESTRICTED_INDICATOR) eqn:E7; [intros [H ->]%typed_true; by apply restricted_spec|].
  intros [H ->]%typed_true. by apply default_spec.
Qed.

Lemma name_valid_iff name type : IsAssetNameValid name = (true, Some type) <-> name_spec type name.
Proof. split; [apply valid_name_spec | apply name_spec_valid]. Qed.

(** C14: [IsAssetNameValid] sorts texts into kinds of names.  It accepts a text with a
    type exactly when the text is, for that type: a root name of at most 30
    characters (at least three of A-Z, 0-9, dot and underscore, neither first nor last
    nor two in a row of the last two, not reserved); a root name with further names
    behind slashes; such a path of together at most 31 characters with [!] (owner),
    with [#] and a tag (unique), with [~] and a tag of at most 12 (channel) or with [^]
    (vote); [#] and a name, or two of them with a slash (qualifiers); or [$] and a
    name.  The kinds exclude each other. *)
Theorem asset_names_classified (name : text) (type : AssetType) :
  IsAssetNameValid name = (true, Some type) <-> name_spec type name.
Proof. apply name_valid_iff. Qed.

(** ** Parents and owners *)

Lemma before_last_none c s : c ∉ s -> before_last c s = None.
Proof.
  induction s as [|d s IH]; [done|]. intros [Hd Hs]%not_elem_of_cons. cbn. rewrite IH by done. by rewrite (proj2 (Z.eqb_neq d c)) by congruence.
Qed.

Lemma cut_last_app c x y : c ∉ y -> cut_last c (x ++ c :: y) = x.
Proof.
  intros Hy. unfold cut_last. assert (E : before_last c (x ++ c :: y) = Some x); [|by rewrite E].
  induction x as [|d x IH]; cbn; [by rewrite before_last_none, Z.eqb_refl|]. by rewrite IH.
Qed.

(** the name of an asset that has an owner token *)
Definition owned (name : text) : Prop := name_spec ROOT name \/ name_spec SUB name.

Lemma path_owned l : path l -> zlen (join SLASH l) <= 30 -> owned (join SLASH l).
Proof.
  intros Hl Hlen. destruct l as [|r [|q l]]; [done | left; by destruct Hl | right].
  split; [|done]. exists (r :: q :: l). split; [done|]. split; [done | cbn; lia].
Qed.

Lemma owned_path name : owned name -> exists l, name = join SLASH l /\ path l /\ zlen name <= 30.
Proof.
  intros [[Hr Hl]|[(l & -> & Hl & _) Hlen]]; [|by exists l]. exists [name]. split; [done|]. split; [|done]. split; [done | constructor].
Qed.

Lemma owner_of_owned name : owned name <-> name_spec OWNER (name ++ [BANG]).
Proof.
  split.
  - intros (l & -> & Hl & Hlen)%owned_path. split; [by exists l|]. rewrite length_app. cbn [length]. lia.
  - intros [(l & [-> _]%app_inj_tail & Hl) Hlen]. rewrite length_app in Hlen. cbn [length] in Hlen. apply path_owned; [done | lia].
Qed.

Lemma path_init l s : path (l ++ [s]) -> l <> [] -> path l /\ SLASH ∉ s.
Proof.
  intros H Hn. pose proof (path_chars _ H) as Hc. apply Forall_app in Hc as [_ Hc]. apply Forall_cons in Hc as [Hc _].
  destruct l as [|r l]; [done|]. destruct H as [Hr Hl]. apply Forall_app in Hl as [Hl _]. split; [done | by apply (all_free name_char)].
Qed.

Lemma tagged_parent mark tag_ok name : tagged mark tag_ok name -> (forall tag, tag_ok tag -> tag <> [] /\ mark ∉ tag) -> zlen name <= 31 ->
  exists tag, name = cut_last mark name ++ mark :: tag /\ owned (cut_last mark name).
Proof.
  intros (l & tag & -> & Hl & Ht) Htag Hlen. destruct (Htag tag Ht) as [Hn Hm]. exists tag. rewrite cut_last_app by done. split; [done|].
  apply path_owned; [done|]. rewrite length_app in Hlen. cbn [length] in Hlen. lia.
Qed.

(** an owned asset and its owner token are valid names *)
Definition valid_as (type : AssetType) (name : text) : Prop := IsAssetNameValid name = (true, Some type).

Lemma owned_valid name : owned name -> (valid_as ROOT name \/ valid_as SUB name) /\ valid_as OWNER (name ++ [BANG]).
Proof.
  intros H. split; [destruct H as [H|H]; [left | right]; by apply name_spec_valid|]. by apply name_spec_valid, owner_of_owned.
Qed.

Lemma sub_parent name : name_spec SUB name -> exists tag, name = cut_last SLASH name ++ SLASH :: tag /\ owned (cut_last SLASH name).
Proof.
  intros [(l & -> & Hl & H2) Hlen]. destruct l as [|s l _] using rev_ind; [done|]. rewrite length_app in H2. cbn in H2.
  assert (Hn : l <> []) by (destruct l; [cbn in H2; lia | done]). destruct (path_init l s Hl Hn) as [Hl' Hs].
  exists s. rewrite (join_snoc SLASH l s Hn) in *. rewrite cut_last_app by done. split; [done|]. apply path_owned; [done|].
  rewrite length_app in Hlen. cbn [length] in Hlen. lia.
Qed.

Lemma restricted_owner b : body 3 b -> zlen (DOLLAR :: b) <= 31 ->
  valid_as OWNER (b ++ [BANG]) <-> ~ leading b /\ ~ reserved b.
Proof.
  intros (Hl & Hb & Hd & Ht) Hlen. cbn [length] in Hlen. assert (Hs : SLASH ∉ b) by (by apply (all_free name_char)).
  unfold valid_as. rewrite name_valid_iff, <- owner_of_owned. split.
  - intros [[(_ & _ & (_ & H1 & _) & H2) _]|[(l & E & Hp & H2) _]]; [done|]. exfalso.
    rewrite <- (path_split l Hp), <- E, (split_one SLASH b Hs) in H2. cbn in H2. lia.
  - intros [H1 H2]. left. split; [|lia]. repeat split; done.
Qed.

(** The names derived from a name fit together.  The parent of a sub-asset, a
    unique asset or a channel is the text before its last separator, and is the valid
    name of an asset with a valid owner token; the parent of a sub-qualifier is a
    valid qualifier; a root is its own parent and has a valid owner token.  The owner
    token of a restricted asset is the valid name of one exactly when the name behind
    the dollar sign is not reserved and does not begin with a dot or an underscore,
    which [IsAssetNameValid] does not ask. *)
Theorem asset_parents (name : text) (type : AssetType) (H : IsAssetNameValid name = (true, Some type)) :
  let parent := GetParentName name in
  match type with
  | SUB | UNIQUE | MSGCHANNEL =>
      (exists mark tag, name = parent ++ mark :: tag) /\ (valid_as ROOT parent \/ valid_as SUB parent) /\ valid_as OWNER (parent ++ [BANG])
  | SUB_QUALIFIER => (exists tag, name = parent ++ SLASH :: HASH :: tag) /\ valid_as QUALIFIER parent
  | ROOT => parent = name /\ valid_as OWNER (name ++ [BANG])
  | RESTRICTED =>
      RestrictedNameToOwnerName name = tail name ++ [BANG] /\
      (valid_as OWNER (RestrictedNameToOwnerName name) <-> ~ leading (tail name) /\ ~ reserved (tail name))
  | _ => True
  end.
Proof.
  pose proof (valid_name_spec name type H) as Hs. intros parent. subst parent. unfold GetParentName. rewrite H. destruct type; try done.
  - split; [done|]. apply owned_valid. by left.
  - destruct (sub_parent name Hs) as (tag & E & Ho). split; [by exists SLASH, tag | by apply owned_valid].
  - destruct Hs as [Ht Hlen]. destruct (tagged_parent _ _ _ Ht) as (tag & E & Ho); [|done|].
    + intros tag [Hn Hc]. split; [done | by apply (all_free unique_char)].
    + split; [by exists HASH, tag | by apply owned_valid].
  - destruct Hs as [Ht Hlen]. destruct (tagged_parent _ _ _ Ht) as (tag & E & Ho); [|done|].
    + intros tag (Hn & Hc & _). split; [done | by apply (all_free channel_char)].
    + split; [by exists TILDE, tag | by apply owned_valid].
  - destruct Hs as [(b & c & -> & H1 & H2 & H3 & H4) Hlen]. rewrite app_comm_cons.
    rewrite cut_last_app by (apply not_elem_of_cons; split; [done | apply (all_free name_char); [apply H4 | done]]).
    split; [by exists c|]. apply name_spec_valid. split; [by exists b|]. cbn [length] in Hlen |- *. rewrite length_app in Hlen. cbn [length] in Hlen. lia.
  - apply restricted_spec in Hs as Hm. destruct Hm as [Hm _]. destruct Hs as [(b & -> & Hb) Hlen].
    assert (E : RestrictedNameToOwnerName (DOLLAR :: b) = b ++ [BANG]).
    { unfold RestrictedNameToOwnerName, IsAssetNameAnRestricted. rewrite H, Hm. cbn [fst andb negb]. f_equal.
      unfold substr. cbn [Z.to_nat]. change (Pos.to_nat 1) with 1%nat. cbn [drop]. apply take_ge. cbn [length]. lia. }
    rewrite E. cbn [tail]. split; [done | by apply restricted_owner].
Qed.

Lemma asset_parents_witness :
  GetParentName (lit "ROOT/SUB.1#tag") = lit "ROOT/SUB.1" /\
  (valid_as ROOT (lit "ROOT/SUB.1") \/ valid_as SUB (lit "ROOT/SUB.1")) /\ valid_as OWNER (lit "ROOT/SUB.1!").
Proof.
  assert (E : GetParentName (lit "ROOT/SUB.1#tag") = lit "ROOT/SUB.1") by (vm_compute; reflexivity). split; [exact E|].
  destruct (asset_parents (lit "ROOT/SUB.1#tag") UNIQUE) as [_ H]; [vm_compute; reflexivity|]. rewrite E in H. exact H.
Defined.

(** a leading underscore behind [$] and behind the second [#] passes, and the text between
    two [^] is not looked at *)
Example odd_names :
  valid_as RESTRICTED (lit "$_AB") /\ (IsAssetNameValid (RestrictedNameToOwnerName (lit "$_AB"))).1 = false /\
  valid_as SUB_QUALIFIER (lit "#ABC/#_X") /\ (IsAssetNameValid (lit "#_ABC")).1 = false /\
  valid_as VOTE (lit "ABC^?lower case?^X") /\ (IsAssetNameValid (lit "ABC^?lower case?")).1 = false /\
  GetParentName (lit "ABC^?lower case?^X") = lit "ABC^?lower case?".
Proof. vm_compute. done. Qed.
