(* ===== verification/Verifier.v ===== *)
(** * Verifier strings (assets/assets.cpp)

    The rules for the expression that restricts who may hold an asset:
    [CheckVerifierString] and [ContextualCheckVerifierString], from the text through
    the names in it to the evaluator of LibBoolEE.  What the cache of the assets
    answers, whether a qualifier exists and whether an address has it, is the class
    [QualifierCache].

    A rejection is [inl] of the type the error report gets; the texts of the messages
    are left out. *)

From Stdlib Require Import String.
From stdpp Require Import gmap.
From S2P Require Import Prelude Text Regex LibBoolEE AssetNames.
Open Scope Z_scope.

Definition GetStrippedVerifierString (verifier : text) : text := removeCharacter (removeWhitespaces verifier) HASH.

(** the loop of [std::regex_search] with [[A-Z0-9_.]+]: the longest runs of such
    characters, from left to right; [run] is the one being read *)
Fixpoint search_names (s run : text) : list text :=
  match s with
  | [] => match run with [] => [] | _ => [run] end
  | c :: s =>
      if name_char c then search_names s (run ++ [c])
      else match run with [] => search_names s [] | _ => run :: search_names s [] end
  end.

Definition ExtractVerifierStringQualifiers (verifier : text) : gset text := list_to_set (search_names verifier []).

(** [LibBoolEE::resolve], with enough fuel *)
Definition resolve_all (verifier : text) (vals : gmap text bool) : ErrorType + bool :=
  default (inl NotSetError) (resolve vals (S (length verifier)) verifier).

(** [vals.insert(std::make_pair(qualifier, value(qualifier)))] for each of the set *)
Definition valuation (value : text -> bool) (qualifiers : gset text) : gmap text bool := set_to_map (fun q => (q, value q)) qualifiers.

(** the result is the set of qualifiers found *)
Definition CheckVerifierString (verifier : text) : ErrorType + gset text :=
  if bool_decide (verifier = lit "true") then inr ∅
  else if bool_decide (verifier = []) then inl EmptyString
  else
    let strippedVerifier := GetStrippedVerifierString verifier in
    if zlen strippedVerifier >? 80 then inl LengthToLarge
    else
      let setFoundQualifiers := ExtractVerifierStringQualifiers strippedVerifier in
      if negb (forallb (fun q => IsQualifierNameValid (HASH :: q)) (elements setFoundQualifiers)) then inl InvalidQualifierName
      else
        match resolve_all verifier (valuation (fun _ => true) setFoundQualifiers) with
        | inr _ => inr setFoundQualifiers
        | inl NotSetError => inl InvalidSyntax
        | inl e => inl e
        end.

Class QualifierCache := {
  address : Type;
  CheckIfAssetExists : text -> bool;
  CheckForAddressQualifier : text -> address -> bool;
}.

Section Contextual.
Context `{QualifierCache}.

(** [check_address] is [None] for the empty string *)
Definition ContextualCheckVerifierString (verifier : text) (check_address : option address) : ErrorType + unit :=
  if bool_decide (verifier = lit "true") then inr tt
  else
    match CheckVerifierString verifier with
    | inl e => inl e
    | inr setFoundQualifiers =>
        if negb (forallb (fun q => CheckIfAssetExists (HASH :: q)) (elements setFoundQualifiers)) then inl AssetDoesntExist
        else
          match check_address with
          | None => inr tt
          | Some a =>
              match resolve_all verifier (valuation (fun q => CheckForAddressQualifier (HASH :: q) a) setFoundQualifiers) with
              | inr true => inr tt
              | inr false => inl FailedToVerifyAgainstAddress
              | inl NotSetError => inl InvalidSyntax
              | inl e => inl e
              end
          end
    end.
End Contextual.

(** ** What is thrown does not depend on the truth values *)

(** two results that differ at most in the truth value *)
Definition same_kind (a b : option (ErrorType + bool)) : Prop :=
  match a, b with
  | None, None => True
  | Some (inl e), Some (inl e') => e = e'
  | Some (inr _), Some (inr _) => True
  | _, _ => False
  end.

Lemma combine_same f ev1 ev2 l : (forall s, same_kind (ev1 s) (ev2 s)) -> forall b1 b2, same_kind (combine_all f ev1 l b1) (combine_all f ev2 l b2).
Proof.
  intros H. induction l as [|s l IH]; intros b1 b2; cbn; [done|]. specialize (H s).
  by destruct (ev1 s) as [[e1|v1]|], (ev2 s) as [[e2|v2]|].
Qed.

Lemma resolve_same (v1 v2 : gmap text bool) : dom v1 = dom v2 -> forall fuel s, same_kind (resolve v1 fuel s) (resolve v2 fuel s).
Proof.
  intros Hd. induction fuel as [|fuel IH]; intros source; [done|]. cbn [resolve]. generalize (removeWhitespaces source). intros s.
  destruct s as [|c tail]; [done|]. destruct (singleParse (c :: tail) OR) as [e|subs]; [done|].
  destruct (if Nat.eqb (length subs) 1 then singleParse (c :: tail) AND else inr subs) as [e|[|s1 [|s2 l]]]; [done | done | |].
  - destruct (c =? NOT).
    { specialize (IH tail). by destruct (resolve v1 fuel tail) as [[]|], (resolve v2 fuel tail) as [[]|]. }
    destruct (c =? OPEN); [apply IH|]. destruct (bool_decide _); [done|]. destruct (bool_decide _); [done|].
    destruct (v1 !! (c :: tail)) as [x|] eqn:E1, (v2 !! (c :: tail)) as [y|] eqn:E2; try done.
    + apply elem_of_dom_2 in E1. rewrite Hd in E1. by apply not_elem_of_dom in E2.
    + apply elem_of_dom_2 in E2. rewrite <- Hd in E2. by apply not_elem_of_dom in E1.
  - destruct (negb _); by apply combine_same.
Qed.

Lemma valuation_dom value qs : dom (valuation value qs) = qs.
Proof.
  apply set_eq. intros q. rewrite elem_of_dom. unfold valuation. split.
  - intros [v Hv]. apply lookup_set_to_map in Hv as (x & Hx & E); [|done]. by injection E as -> _.
  - intros Hq. exists (value q). apply lookup_set_to_map; [done|]. by exists q.
Qed.

Lemma resolve_all_same verifier v1 v2 b : dom v1 = dom v2 -> resolve_all verifier v1 = inr b -> exists b', resolve_all verifier v2 = inr b'.
Proof.
  intros Hd. unfold resolve_all. pose proof (resolve_same v1 v2 Hd (S (length verifier)) verifier) as Hs.
  destruct (resolve v1 _ verifier) as [[e|x]|]; try done. destruct (resolve v2 _ verifier) as [[e|y]|]; try done. intros _. by exists y.
Qed.

Lemma CheckVerifierString_resolves verifier qs : verifier <> lit "true" -> CheckVerifierString verifier = inr qs ->
  exists b, resolve_all verifier (valuation (fun _ => true) qs) = inr b.
Proof.
  intros Ht. unfold CheckVerifierString. rewrite bool_decide_false by done. destruct (bool_decide _); [done|].
  destruct (_ >? 80); [done|]. destruct (negb _); [done|].
  destruct (resolve_all verifier _) as [[]|b] eqn:E; try done. intros [= <-]. by exists b.
Qed.

(** C19: a verifier string that [CheckVerifierString] accepted, other than "true", and of which
    every qualifier is issued, decides about every address: checking an address ends in
    acceptance or in the refusal of that address, never in a syntax error, whatever
    qualifiers the address has; and when the text is also a formula of the documented
    grammar, the address is accepted exactly when the formula is true of the qualifiers
    it has. *)
Theorem verifier_decides (cache : QualifierCache) (verifier : text) (qs : gset text) (a : address)
    (Ht : verifier <> lit "true") (Hc : CheckVerifierString verifier = inr qs)
    (He : forallb (fun q => CheckIfAssetExists (HASH :: q)) (elements qs) = true) :
  let answer (b : bool) := if b then inr tt else inl FailedToVerifyAgainstAddress in
  let held q := CheckForAddressQualifier (HASH :: q) a in
  (exists b, ContextualCheckVerifierString verifier (Some a) = answer b) /\
  forall v, denotes (valuation held qs) Disj (removeWhitespaces verifier) v ->
    ContextualCheckVerifierString verifier (Some a) = answer v.
Proof.
  intros answer held. assert (E : forall b, resolve_all verifier (valuation held qs) = inr b -> ContextualCheckVerifierString verifier (Some a) = answer b).
  { intros b Eb. unfold ContextualCheckVerifierString. rewrite bool_decide_false, Hc, He by done. cbn [negb]. fold held. rewrite Eb. by destruct b. }
  split.
  - destruct (CheckVerifierString_resolves verifier qs Ht Hc) as [b Hb].
    destruct (resolve_all_same verifier _ (valuation held qs) b ltac:(by rewrite !valuation_dom) Hb) as [b' Hb']. eauto.
  - intros v Hv. apply E. unfold resolve_all. rewrite (resolve_denotes_source (valuation held qs) verifier v); [done | done | lia].
Qed.

(** one address, two qualifiers of which it has the first *)
Definition sample_cache : QualifierCache :=
  {| address := unit; CheckIfAssetExists _ := true; CheckForAddressQualifier q _ := bool_decide (q = lit "#KYC_A") |}.

Lemma verifier_decides_witness :
  @ContextualCheckVerifierString sample_cache (lit "KYC_A & !FROZEN") (Some tt) = inr tt /\
  @ContextualCheckVerifierString sample_cache (lit "FROZEN | (FROZEN & KYC_A)") (Some tt) = inl FailedToVerifyAgainstAddress.
Proof.
  split.
  - destruct (verifier_decides sample_cache (lit "KYC_A & !FROZEN") {[lit "KYC_A"; lit "FROZEN"]} tt) as [_ H];
      [discriminate | vm_compute; reflexivity | reflexivity |]. apply (H true). apply D_conj.
    apply (D_and _ (lit "KYC_A") true (lit "!FROZEN") true); [apply D_atom; name_denotes|].
    apply D_unary. apply (D_not _ (lit "FROZEN") false), D_atom. name_denotes.
  - vm_compute. reflexivity.
Defined.

(** the names are looked for in the text without [#], but the text with it is evaluated *)
Example hash_sign_refused :
  CheckVerifierString (lit "KYC_A") = inr {[lit "KYC_A"]} /\ CheckVerifierString (lit "#KYC_A") = inl VariableNotFound.
Proof. vm_compute. done. Qed.
