(* ===== verification/BestChain.v ===== *)
(** * Selecting the best chain (validation.cpp)

    The globals that [ActivateBestChain] works on are the record [chain_state]: the
    block index, the active chain, the candidates for its tip, the blocks that wait
    for data of an ancestor, and the blocks found invalid.  Every function that
    changes them is a definition: [AcceptBlockHeader], [AcceptBlock],
    [ReceivedBlockTransactions], [FindMostWorkChain], [PruneBlockIndexCandidates],
    [ConnectTip], [DisconnectTip], [ActivateBestChainStep], [ActivateBestChain],
    [PreciousBlock], [InvalidateBlock], [ResetBlockFailureFlags], and what calls
    them: [ProcessNewBlock], [ProcessNewBlockHeaders], [LoadGenesisBlock] and three
    calls of rpc/blockchain.cpp.  A function is [None] when an assertion fails or a
    null pointer is followed.

    What reading, validating and undoing a block come to is the class
    [BlockValidation]; the theorems hold for every instance that decides.  The verdict of
    [ConnectBlock] is a function of the block alone: that a chainlock or an InstantSend
    lock may arrive and change it from one call to the next is not modelled.  The coins
    those functions change are modelled in Utxo.v and Money.v. *)

From S2P Require Import Chain ActiveChain.
From S2P Require Import Prelude ArithUint Compact.
#[local] Open Scope Z_scope.

(** ** Data *)

Definition BLOCK_VALID_TRANSACTIONS : Z := 3.
Definition BLOCK_VALID_SCRIPTS : Z := 5.
Definition BLOCK_OPT_WITNESS : Z := 128.

(** [nStatus & flag], as a condition *)
Definition has_flag (b : CBlockIndex) (flag : Z) : bool := negb (Z.land (nStatus b) flag =? 0).
Abbreviation failed b := (has_flag b BLOCK_FAILED_MASK).
Abbreviation have_data b := (has_flag b BLOCK_HAVE_DATA).

Record chain_state := MkChainState {
  tree : block_tree;
  chainActive : vchain;
  setBlockIndexCandidates : gset ptr;
  mapBlocksUnlinked : list (ptr * ptr);
  pindexBestInvalid : option ptr;
  g_failed_blocks : gset ptr;
  nBlockSequenceId : Z;
  nBlockReverseSequenceId : Z;
  nLastPreciousChainwork : arith_uint256;
}.
Abbreviation objects st := (index (tree st)).

(** assignments to the globals *)
Definition on_tree (f : block_tree -> block_tree) (st : chain_state) : chain_state :=
  MkChainState (f (tree st)) (chainActive st) (setBlockIndexCandidates st) (mapBlocksUnlinked st) (pindexBestInvalid st)
    (g_failed_blocks st) (nBlockSequenceId st) (nBlockReverseSequenceId st) (nLastPreciousChainwork st).
Definition set_chain (v : vchain) (st : chain_state) : chain_state :=
  MkChainState (tree st) v (setBlockIndexCandidates st) (mapBlocksUnlinked st) (pindexBestInvalid st)
    (g_failed_blocks st) (nBlockSequenceId st) (nBlockReverseSequenceId st) (nLastPreciousChainwork st).
Definition on_candidates (f : gset ptr -> gset ptr) (st : chain_state) : chain_state :=
  MkChainState (tree st) (chainActive st) (f (setBlockIndexCandidates st)) (mapBlocksUnlinked st) (pindexBestInvalid st)
    (g_failed_blocks st) (nBlockSequenceId st) (nBlockReverseSequenceId st) (nLastPreciousChainwork st).
Definition on_unlinked (f : list (ptr * ptr) -> list (ptr * ptr)) (st : chain_state) : chain_state :=
  MkChainState (tree st) (chainActive st) (setBlockIndexCandidates st) (f (mapBlocksUnlinked st)) (pindexBestInvalid st)
    (g_failed_blocks st) (nBlockSequenceId st) (nBlockReverseSequenceId st) (nLastPreciousChainwork st).
Definition set_best_invalid (p : option ptr) (st : chain_state) : chain_state :=
  MkChainState (tree st) (chainActive st) (setBlockIndexCandidates st) (mapBlocksUnlinked st) p
    (g_failed_blocks st) (nBlockSequenceId st) (nBlockReverseSequenceId st) (nLastPreciousChainwork st).
Definition on_failed (f : gset ptr -> gset ptr) (st : chain_state) : chain_state :=
  MkChainState (tree st) (chainActive st) (setBlockIndexCandidates st) (mapBlocksUnlinked st) (pindexBestInvalid st)
    (f (g_failed_blocks st)) (nBlockSequenceId st) (nBlockReverseSequenceId st) (nLastPreciousChainwork st).
Definition set_sequence (n : Z) (st : chain_state) : chain_state :=
  MkChainState (tree st) (chainActive st) (setBlockIndexCandidates st) (mapBlocksUnlinked st) (pindexBestInvalid st)
    (g_failed_blocks st) n (nBlockReverseSequenceId st) (nLastPreciousChainwork st).
Definition set_precious (n : Z) (work : arith_uint256) (st : chain_state) : chain_state :=
  MkChainState (tree st) (chainActive st) (setBlockIndexCandidates st) (mapBlocksUnlinked st) (pindexBestInvalid st)
    (g_failed_blocks st) (nBlockSequenceId st) n work.

(** assignments to the fields of an object, and [setDirtyBlockIndex.insert] *)
Definition tree_update (p : ptr) (f : CBlockIndex -> CBlockIndex) (t : block_tree) : block_tree :=
  BlockTree (alter f p (index t)) (mapBlockIndex t) (pindexBestHeader t) (setDirtyBlockIndex t) (mapPrevBlockIndex t).
Definition set_best_header (p : option ptr) (t : block_tree) : block_tree :=
  BlockTree (index t) (mapBlockIndex t) p (setDirtyBlockIndex t) (mapPrevBlockIndex t).
Definition set_dirty (p : ptr) (t : block_tree) : block_tree :=
  BlockTree (index t) (mapBlockIndex t) (pindexBestHeader t) ({[p]} ∪ setDirtyBlockIndex t) (mapPrevBlockIndex t).

Definition modify (p : ptr) (f : CBlockIndex -> CBlockIndex) : chain_state -> chain_state := on_tree (tree_update p f).
Definition dirty (p : ptr) : chain_state -> chain_state := on_tree (set_dirty p).
Definition or_status (flag : Z) (b : CBlockIndex) : CBlockIndex := set_status (Z.lor (nStatus b) flag) b.
Definition erase (p : ptr) : chain_state -> chain_state := on_candidates (fun C => C ∖ {[p]}).
Definition candidate (p : ptr) : chain_state -> chain_state := on_candidates (fun C => {[p]} ∪ C).

Definition set_undo (pos : Z) (b : CBlockIndex) : CBlockIndex :=
  MkCBlockIndex (phashBlock b) (pprev b) (pskip b) (nHeight b) (nFile b) (nDataPos b) pos (nChainWork b)
    (nTx b) (nChainTx b) (nStatus b) (header b) (nSequenceId b) (nTimeMax b).
Definition set_block_data (n file pos : Z) (b : CBlockIndex) : CBlockIndex :=
  MkCBlockIndex (phashBlock b) (pprev b) (pskip b) (nHeight b) file pos 0 (nChainWork b)
    n 0 (nStatus b) (header b) (nSequenceId b) (nTimeMax b).
Definition set_chain_tx (n : Z) (b : CBlockIndex) : CBlockIndex :=
  MkCBlockIndex (phashBlock b) (pprev b) (pskip b) (nHeight b) (nFile b) (nDataPos b) (nUndoPos b) (nChainWork b)
    (nTx b) n (nStatus b) (header b) (nSequenceId b) (nTimeMax b).
Definition set_sequence_id (n : Z) (b : CBlockIndex) : CBlockIndex :=
  MkCBlockIndex (phashBlock b) (pprev b) (pskip b) (nHeight b) (nFile b) (nDataPos b) (nUndoPos b) (nChainWork b)
    (nTx b) (nChainTx b) (nStatus b) (header b) n (nTimeMax b).

(** what [ConnectBlock] says of a block, with reading it and writing its undo data at
    a position; and whether a block can be read and undone *)
Inductive block_verdict :=
  | Connected (pos : Z)
  | Invalid (CorruptionPossible : bool)
  | SystemError.

Class BlockValidation := {
  hashGenesisBlock : list Z;
  ConnectBlock : ptr -> block_verdict;
  can_disconnect : ptr -> bool;
}.

(** ** The order of the candidates *)

(** pointers are compared as addresses *)
Definition CBlockIndexWorkComparator (x y : ptr * CBlockIndex) : bool :=
  let '(pa, a) := x in
  let '(pb, b) := y in
  if Uint.CompareTo (nChainWork a) (nChainWork b) >? 0 then false
  else if Uint.CompareTo (nChainWork a) (nChainWork b) <? 0 then true
  else if nSequenceId a <? nSequenceId b then false
  else if nSequenceId a >? nSequenceId b then true
  else if (pa <? pb)%positive then false
  else if (pb <? pa)%positive then true
  else false.

(** the objects a set of pointers leads to *)
Definition set_entries (s : store) (C : gset ptr) : option (list (ptr * CBlockIndex)) :=
  mapM (fun p => b ← s !! p; Some (p, b)) (elements C).

Definition later (x : ptr * CBlockIndex) (m : option (ptr * CBlockIndex)) : option (ptr * CBlockIndex) :=
  match m with
  | None => Some x
  | Some y => Some (if CBlockIndexWorkComparator y x then x else y)
  end.

(** [*setBlockIndexCandidates.rbegin()], or the end *)
Definition greatest (s : store) (C : gset ptr) : option (option (ptr * CBlockIndex)) :=
  l ← set_entries s C;
  Some (foldr later None l).

(** ** Invalid blocks *)

Definition more_work (s : store) (p q : ptr) : option bool :=
  a ← s !! p;
  b ← s !! q;
  Some (Uint.CompareTo (nChainWork a) (nChainWork b) >? 0).

(** the assignment to [pindexBestInvalid], when [p] has more work *)
Definition note_invalid (p : ptr) (st : chain_state) : option chain_state :=
  better ← match pindexBestInvalid st with None => Some true | Some q => more_work (objects st) p q end;
  Some (if (better : bool) then set_best_invalid (Some p) st else st).

Definition InvalidChainFound (pindexNew : ptr) (st : chain_state) : option chain_state :=
  st ← note_invalid pindexNew st;
  _ ← Tip (chainActive st);
  Some st.

Definition InvalidBlockFound (pindex : ptr) (CorruptionPossible : bool) (st : chain_state) : option chain_state :=
  if CorruptionPossible then Some st
  else
    let st := modify pindex (or_status BLOCK_FAILED_VALID) st in
    let st := on_failed (fun F => {[pindex]} ∪ F) st in
    let st := dirty pindex st in
    let st := erase pindex st in
    InvalidChainFound pindex st.

(** ** FindMostWorkChain *)

(** [while (pindexTest && !chainActive.Contains(pindexTest))]: the block that makes
    the candidate unusable *)
Definition test_step (s : store) (v : vchain) (pindexTest : option ptr) : option ptr + option (option ptr) :=
  match pindexTest with
  | None => inr (Some None)
  | Some p =>
      match s !! p with
      | None => inr None
      | Some b =>
          if bool_decide (at_height v (nHeight b) = Some p) then inr (Some None)
          else if (nChainTx b =? 0) && negb (nHeight b =? 0) then inr None
          else if failed b || negb (have_data b) then inr (Some (Some p))
          else inl (pprev b)
      end
  end.

(** [while (pindexTest != pindexFailed)] *)
Definition remove_step (fFailedChain : bool) (pindexTest : ptr) (x : ptr * chain_state) :
    ptr * chain_state + option chain_state :=
  let '(pindexFailed, st) := x in
  if bool_decide (pindexTest = pindexFailed) then inr (Some st)
  else
    match objects st !! pindexFailed with
    | None => inr None
    | Some b =>
        match pprev b with
        | None => inr None
        | Some q =>
            let st := if fFailedChain then modify pindexFailed (or_status BLOCK_FAILED_CHILD) st
                      else on_unlinked (fun U => U ++ [(q, pindexFailed)]) st in
            inl (q, erase pindexFailed st)
        end
    end.

(** the candidate [pindexNew] and the blocks down to [pindexTest] leave the set *)
Definition remove_chain (pindexNew pindexTest : ptr) (st : chain_state) : option chain_state :=
  n ← objects st !! pindexNew;
  b ← objects st !! pindexTest;
  let fFailedChain := failed b in
  st ← (if fFailedChain then note_invalid pindexNew st else Some st);
  r ← while_loop (remove_step fFailedChain pindexTest) (S (S (Z.to_nat (nHeight n)))) (pindexNew, st);
  st ← r;
  Some (erase pindexTest st).

(** one turn of the outer loop *)
Definition find_step (st : chain_state) : chain_state + option (option ptr * chain_state) :=
  match greatest (objects st) (setBlockIndexCandidates st) with
  | None => inr None
  | Some None => inr (Some (None, st))
  | Some (Some (pindexNew, b)) =>
      match while_loop (test_step (objects st) (chainActive st)) (S (S (Z.to_nat (nHeight b)))) (Some pindexNew) with
      | Some (Some None) => inr (Some (Some pindexNew, st))
      | Some (Some (Some pindexTest)) =>
          match remove_chain pindexNew pindexTest st with None => inr None | Some st => inl st end
      | _ => inr None
      end
  end.

Definition FindMostWorkChain (st : chain_state) : option (option ptr * chain_state) :=
  r ← while_loop find_step (S (size (setBlockIndexCandidates st))) st;
  r.

(** the entries that are worse than the tip are at the front of the set *)
Definition PruneBlockIndexCandidates (st : chain_state) : option chain_state :=
  tip ← Tip (chainActive st);
  t ← objects st !! tip;
  l ← set_entries (objects st) (setBlockIndexCandidates st);
  let kept := base.filter (fun x => CBlockIndexWorkComparator x (tip, t) = false) l in
  match kept with
  | [] => None
  | _ => Some (on_candidates (fun _ => list_to_set (map fst kept)) st)
  end.

(** ** Moving the tip *)

(** [UpdateTip]; the message it logs reads the tip *)
Definition UpdateTip (pindexNew : option ptr) (st : chain_state) : option chain_state :=
  v ← SetTip (objects st) (chainActive st) pindexNew;
  _ ← Tip v;
  Some (set_chain v st).

Section Validation.
Context {BV : BlockValidation}.

(** a block without data cannot be read *)
Definition DisconnectTip (st : chain_state) : option (bool * chain_state) :=
  pindexDelete ← Tip (chainActive st);
  b ← objects st !! pindexDelete;
  if negb (have_data b) || negb (can_disconnect pindexDelete) then Some (false, st)
  else
    v ← SetTip (objects st) (chainActive st) (pprev b);
    st ← UpdateTip (pprev b) (set_chain v st);
    Some (true, st).

(** what [ConnectBlock] writes into the object, except for the genesis block *)
Definition connected (pindex : ptr) (pos : Z) (b : CBlockIndex) (st : chain_state) : option chain_state :=
  if bool_decide (GetBlockHash b = hashGenesisBlock) then Some st
  else
    valid ← IsValid (nStatus b) BLOCK_VALID_SCRIPTS;
    if negb (has_flag b BLOCK_HAVE_UNDO) || negb valid then
      let b := if has_flag b BLOCK_HAVE_UNDO then b else or_status BLOCK_HAVE_UNDO (set_undo pos b) in
      r ← RaiseValidity (nStatus b) BLOCK_VALID_SCRIPTS;
      Some (dirty pindex (modify pindex (fun _ => set_status (snd (r : bool * Z)) b) st))
    else Some st.

Definition ConnectTip (pindexNew : ptr) (st : chain_state) : option (block_verdict * chain_state) :=
  b ← objects st !! pindexNew;
  if negb (bool_decide (pprev b = Tip (chainActive st))) then None
  else
    match ConnectBlock pindexNew with
    | SystemError => Some (SystemError, st)
    | Invalid c => st ← InvalidBlockFound pindexNew c st; Some (Invalid c, st)
    | Connected pos =>
        st ← connected pindexNew pos b st;
        st ← UpdateTip (Some pindexNew) st;
        Some (Connected pos, st)
    end.

(** ** ActivateBestChainStep *)

(** [while (chainActive.Tip() && chainActive.Tip() != pindexFork)] *)
Definition disconnect_step (pindexFork : option ptr) (st : chain_state) : chain_state + option (bool * chain_state) :=
  match Tip (chainActive st) with
  | None => inr (Some (true, st))
  | Some tip =>
      if bool_decide (Some tip = pindexFork) then inr (Some (true, st))
      else
        match DisconnectTip st with
        | None => inr None
        | Some (false, st) => inr (Some (false, st))
        | Some (true, st) => inl st
        end
  end.

(** [while (pindexIter && pindexIter->nHeight != nHeight)]; the list is in the order
    of [vpindexToConnect] *)
Definition collect_step (s : store) (height : Z) (x : option ptr * list ptr) :
    option ptr * list ptr + option (list ptr) :=
  let '(pindexIter, l) := x in
  match pindexIter with
  | None => inr (Some l)
  | Some p =>
      match s !! p with
      | None => inr None
      | Some b => if nHeight b =? height then inr (Some l) else inl (pprev b, l ++ [p])
      end
  end.

(** the end of the loop over [vpindexToConnect]: the list is done, the step is over
    with or without an invalid block, or a system error *)
Inductive connect_result := Continue | Stop (fInvalidFound : bool) | Fatal.

Fixpoint connect_list (pindexOldTip : option ptr) (back : option ptr) (l : list ptr) (st : chain_state) :
    option (connect_result * chain_state) :=
  match l with
  | [] => Some (Continue, st)
  | pindexConnect :: l =>
      r ← ConnectTip pindexConnect st;
      match r with
      | (Connected _, st) =>
          st ← PruneBlockIndexCandidates st;
          better ← match pindexOldTip with
                   | None => Some true
                   | Some old => tip ← Tip (chainActive st); more_work (objects st) tip old
                   end;
          if (better : bool) then Some (Stop false, st) else connect_list pindexOldTip back l st
      | (Invalid corrupt, st) =>
          st ← (if (corrupt : bool) then Some st else p ← back; InvalidChainFound p st);
          Some (Stop true, st)
      | (SystemError, st) => Some (Fatal, st)
      end
  end.

(** [while (fContinue && nHeight != pindexMostWork->nHeight)] *)
Definition connect_batch_step (pindexOldTip : option ptr) (pindexMostWork : ptr) (x : Z * chain_state) :
    Z * chain_state + option (connect_result * chain_state) :=
  let '(height, st) := x in
  match objects st !! pindexMostWork with
  | None => inr None
  | Some m =>
      if height =? nHeight m then inr (Some (Continue, st))
      else
        let nTargetHeight := Z.min (height + 32) (nHeight m) in
        match (pindexIter ← GetAncestor (objects st) pindexMostWork nTargetHeight;
               r ← while_loop (collect_step (objects st) height) (S (S (Z.to_nat nTargetHeight))) (pindexIter, []);
               vpindexToConnect ← r;
               connect_list pindexOldTip (last vpindexToConnect) (rev vpindexToConnect) st) with
        | None => inr None
        | Some (Continue, st) => inl (nTargetHeight, st)
        | Some r => inr (Some r)
        end
  end.

(** [None] for the flag is the result [false] *)
Definition ActivateBestChainStep (pindexMostWork : ptr) (st : chain_state) : option (option bool * chain_state) :=
  let pindexOldTip := Tip (chainActive st) in
  pindexFork ← FindFork (objects st) (chainActive st) (Some pindexMostWork);
  r ← while_loop (disconnect_step pindexFork) (S (length (chainActive st))) st;
  r ← r;
  match r with
  | (false, st) => Some (None, st)
  | (true, st) =>
      height ← match pindexFork with None => Some (-1) | Some f => b ← objects st !! f; Some (nHeight b) end;
      m ← objects st !! pindexMostWork;
      r ← while_loop (connect_batch_step pindexOldTip pindexMostWork) (S (S (Z.to_nat (nHeight m)))) (height, st);
      r ← r;
      match r with
      | (Continue, st) => Some (Some false, st)
      | (Stop fInvalidFound, st) => Some (Some fInvalidFound, st)
      | (Fatal, st) => Some (None, st)
      end
  end.

(** ** ActivateBestChain *)

(** one turn of the loop, without a request to shut down *)
Definition activate_step (x : option ptr * chain_state) : option ptr * chain_state + option (bool * chain_state) :=
  let '(pindexMostWork, st) := x in
  match (match pindexMostWork with None => FindMostWorkChain st | Some p => Some (Some p, st) end) with
  | None => inr None
  | Some (pindexMostWork, st) =>
      match pindexMostWork with
      | None => inr (Some (true, st))
      | Some p =>
          if bool_decide (Some p = Tip (chainActive st)) then inr (Some (true, st))
          else
            match ActivateBestChainStep p st with
            | None => inr None
            | Some (None, st) => inr (Some (false, st))
            | Some (Some fInvalidFound, st) =>
                let pindexMostWork := if (fInvalidFound : bool) then None else Some p in
                if bool_decide (Tip (chainActive st) = pindexMostWork) then inr (Some (true, st))
                else inl (pindexMostWork, st)
            end
      end
  end.

(** the bound: every turn marks a block as failed, or raises the work of the tip *)
Definition activate_fuel (st : chain_state) : nat := S (S (size (objects st)) * S (size (objects st))).

Definition ActivateBestChain (st : chain_state) : option (bool * chain_state) :=
  r ← while_loop activate_step (activate_fuel st) (None, st);
  r.

(** ** PreciousBlock *)

Definition INT32_MIN : Z := -2147483648.

Definition PreciousBlock (pindex : ptr) (st : chain_state) : option (bool * chain_state) :=
  b ← objects st !! pindex;
  tip ← Tip (chainActive st);
  t ← objects st !! tip;
  if Uint.CompareTo (nChainWork b) (nChainWork t) <? 0 then Some (true, st)
  else
    let reverse := if Uint.CompareTo (nChainWork t) (nLastPreciousChainwork st) >? 0 then -1
                   else nBlockReverseSequenceId st in
    let st := erase pindex st in
    let st := modify pindex (set_sequence_id reverse) st in
    let st := set_precious (if reverse >? INT32_MIN then reverse - 1 else reverse) (nChainWork t) st in
    valid ← IsValid (nStatus b) BLOCK_VALID_TRANSACTIONS;
    st ← (if valid && negb (nChainTx b =? 0) then PruneBlockIndexCandidates (candidate pindex st) else Some st);
    ActivateBestChain st.

(** ** InvalidateBlock *)

(** [pindexBestHeader] leaves the block [p] *)
Definition leave_header (p : ptr) (st : chain_state) : option chain_state :=
  if bool_decide (pindexBestHeader (tree st) = Some p) then
    b ← objects st !! p;
    Some (on_tree (set_best_header (pprev b)) (set_best_invalid (Some p) st))
  else Some st.

(** [while (chainActive.Contains(pindex))]; the flag is [pindex_was_in_chain] *)
Definition invalidate_step (pindex : ptr) (x : bool * chain_state) : bool * chain_state + option (option bool * chain_state) :=
  let '(was, st) := x in
  match Contains (objects st) (chainActive st) pindex with
  | None => inr None
  | Some false => inr (Some (Some was, st))
  | Some true =>
      match Tip (chainActive st), DisconnectTip st with
      | Some pindexOldTip, Some (true, st) =>
          match leave_header pindexOldTip st with None => inr None | Some st => inl (true, st) end
      | _, Some (_, st) => inr (Some (None, st))
      | _, None => inr None
      end
  end.

(** [while (pindex_was_in_chain && invalid_walk_tip != pindex)] *)
Definition mark_step (pindex : ptr) (x : ptr * chain_state) : ptr * chain_state + option chain_state :=
  let '(walk, st) := x in
  if bool_decide (walk = pindex) then inr (Some st)
  else
    match objects st !! walk with
    | None => inr None
    | Some b =>
        match pprev b with
        | None => inr None
        | Some q => inl (q, erase walk (dirty walk (modify walk (or_status BLOCK_FAILED_CHILD) st)))
        end
    end.

(** the blocks of [mapBlockIndex], one after the other *)
Fixpoint for_blocks (f : ptr -> chain_state -> option chain_state) (l : list ptr) (st : chain_state) : option chain_state :=
  match l with
  | [] => Some st
  | p :: l => st ← f p st; for_blocks f l st
  end.
Definition all_blocks (st : chain_state) : list ptr := map snd (map_to_list (mapBlockIndex (tree st))).

(** a block that is valid, linked and not worse than the tip becomes a candidate *)
Definition readd (p : ptr) (st : chain_state) : option chain_state :=
  b ← objects st !! p;
  valid ← IsValid (nStatus b) BLOCK_VALID_TRANSACTIONS;
  if valid && negb (nChainTx b =? 0) then
    tip ← Tip (chainActive st);
    t ← objects st !! tip;
    Some (if CBlockIndexWorkComparator (p, b) (tip, t) then st else candidate p st)
  else Some st.

Definition InvalidateBlock (pindex : ptr) (st : chain_state) : option (bool * chain_state) :=
  let walk := Tip (chainActive st) in
  st ← leave_header pindex st;
  r ← while_loop (invalidate_step pindex) (S (length (chainActive st))) (false, st);
  r ← r;
  match r with
  | (None, st) => Some (false, st)
  | (Some was, st) =>
      st ← (if (was : bool) then
              w ← walk;
              b ← objects st !! w;
              r ← while_loop (mark_step pindex) (S (S (Z.to_nat (nHeight b)))) (w, st);
              r
            else Some st);
      let st := modify pindex (or_status BLOCK_FAILED_VALID) st in
      let st := dirty pindex st in
      let st := erase pindex st in
      let st := on_failed (fun F => {[pindex]} ∪ F) st in
      st ← for_blocks readd (all_blocks st) st;
      st ← InvalidChainFound pindex st;
      Some (true, st)
  end.
End Validation.

(** ** ResetBlockFailureFlags *)

Definition clear_failed (b : CBlockIndex) : CBlockIndex :=
  set_status (Z.land (nStatus b) (Z.lnot BLOCK_FAILED_MASK)) b.

(** one block of [mapBlockIndex] *)
Definition reset_block (pindex : ptr) (height : Z) (p : ptr) (st : chain_state) : option chain_state :=
  b ← objects st !! p;
  valid ← IsValid (nStatus b) BLOCK_VALID_TRANSACTIONS;
  if (valid : bool) then Some st
  else
    a ← GetAncestor (objects st) p height;
    if negb (bool_decide (a = Some pindex)) then Some st
    else
      let st := dirty p (modify p clear_failed st) in
      let b := clear_failed b in
      valid ← IsValid (nStatus b) BLOCK_VALID_TRANSACTIONS;
      st ← (if valid && negb (nChainTx b =? 0) then
              tip ← Tip (chainActive st);
              t ← objects st !! tip;
              Some (if CBlockIndexWorkComparator (tip, t) (p, b) then candidate p st else st)
            else Some st);
      let st := if bool_decide (pindexBestInvalid st = Some p) then set_best_invalid None st else st in
      Some (on_failed (fun F => F ∖ {[p]}) st).

(** [while (pindex != nullptr)] *)
Definition reset_step (x : option ptr * chain_state) : option ptr * chain_state + option chain_state :=
  let '(pindex, st) := x in
  match pindex with
  | None => inr (Some st)
  | Some p =>
      match objects st !! p with
      | None => inr None
      | Some b => inl (pprev b, if failed b then dirty p (modify p clear_failed st) else st)
      end
  end.

Definition ResetBlockFailureFlags (pindex : ptr) (st : chain_state) : option chain_state :=
  b ← objects st !! pindex;
  st ← for_blocks (reset_block pindex (nHeight b)) (all_blocks st) st;
  r ← while_loop reset_step (S (S (Z.to_nat (nHeight b)))) (Some pindex, st);
  r.

(** ** ReceivedBlockTransactions *)

(** one turn of [while (!queue.empty())] *)
Definition queue_step (x : list ptr * chain_state) : list ptr * chain_state + option chain_state :=
  let '(queue, st) := x in
  match queue with
  | [] => inr (Some st)
  | pindex :: queue =>
      match (b ← objects st !! pindex;
             prev ← match pprev b with None => Some 0 | Some q => c ← objects st !! q; Some (nChainTx c) end;
             let b := set_sequence_id (nBlockSequenceId st) (set_chain_tx (u32 (prev + nTx b)) b) in
             let st := set_sequence (i32 (nBlockSequenceId st + 1)) (modify pindex (fun _ => b) st) in
             st ← match Tip (chainActive st) with
                  | None => Some (candidate pindex st)
                  | Some tip => t ← objects st !! tip;
                      Some (if CBlockIndexWorkComparator (pindex, b) (tip, t) then st else candidate pindex st)
                  end;
             let range := base.filter (fun e => e.1 = pindex) (mapBlocksUnlinked st) in
             Some (queue ++ map snd range, on_unlinked (base.filter (fun e => e.1 <> pindex)) st)) with
      | None => inr None
      | Some x => inl x
      end
  end.

Definition ReceivedBlockTransactions (n file pos : Z) (witness : bool) (pindexNew : ptr) (st : chain_state) : option chain_state :=
  b ← objects st !! pindexNew;
  let b := or_status BLOCK_HAVE_DATA (set_block_data n file pos b) in
  let b := if witness then or_status BLOCK_OPT_WITNESS b else b in
  r ← RaiseValidity (nStatus b) BLOCK_VALID_TRANSACTIONS;
  let b := set_status (snd (r : bool * Z)) b in
  let st := dirty pindexNew (modify pindexNew (fun _ => b) st) in
  parent ← match pprev b with
           | None => Some None
           | Some q => c ← objects st !! q; Some (Some (q, c))
           end;
  match parent with
  | Some (q, c) =>
      if nChainTx c =? 0 then
        valid ← IsValid (nStatus c) BLOCK_VALID_TREE;
        Some (if (valid : bool) then on_unlinked (fun U => U ++ [(q, pindexNew)]) st else st)
      else r ← while_loop queue_step (S (S (length (mapBlocksUnlinked st)))) ([pindexNew], st); r
  | None => r ← while_loop queue_step (S (S (length (mapBlocksUnlinked st)))) ([pindexNew], st); r
  end.

(** ** Headers that extend an invalid block *)

(** [while (invalid_walk != failedit)] *)
Definition mark_header_step (failedit : ptr) (x : ptr * chain_state) : ptr * chain_state + option chain_state :=
  let '(walk, st) := x in
  if bool_decide (walk = failedit) then inr (Some st)
  else
    match objects st !! walk with
    | None => inr None
    | Some b =>
        match pprev b with
        | None => inr None
        | Some q => inl (q, dirty walk (modify walk (or_status BLOCK_FAILED_CHILD) st))
        end
    end.

(** the loop over [g_failed_blocks] in [AcceptBlockHeader]: [false] is "bad-prevblk" *)
Fixpoint failed_ancestor (pindexPrev : ptr) (l : list ptr) (st : chain_state) : option (bool * chain_state) :=
  match l with
  | [] => Some (true, st)
  | failedit :: l =>
      f ← objects st !! failedit;
      a ← GetAncestor (objects st) pindexPrev (nHeight f);
      if bool_decide (a = Some failedit) then
        if negb (has_flag f BLOCK_FAILED_VALID) then None
        else
          b ← objects st !! pindexPrev;
          r ← while_loop (mark_header_step failedit) (S (S (Z.to_nat (nHeight b)))) (pindexPrev, st);
          st ← r;
          Some (false, st)
      else failed_ancestor pindexPrev l st
  end.

(** ** Headers and blocks that arrive *)

Record CBlock := MkCBlock {
  block_header : CBlockHeader;
  vtx_size : Z;
}.

(** what a check of a block leaves in [CValidationState] *)
Inductive check := Passed | Refused (IsInvalid CorruptionPossible : bool).

(** the checks, at the time of the call *)
Class BlockChecks := {
  CheckBlockHeader : CBlockHeader -> bool;
  ContextualCheckBlockHeader : CBlockHeader -> ptr -> bool;
  HasConflictingChainLock : Z -> list Z -> bool;
  CheckBlock : CBlock -> check;
  ContextualCheckBlock : CBlock -> option ptr -> check;
  FindBlockPos : CBlock -> Z -> option (Z * Z);
  IsWitnessEnabled : bool;
  nMinimumChainWork : arith_uint256;
}.

Definition MIN_BLOCKS_TO_KEEP : Z := 288.

Section Accept.
Context `{HeaderHash} {BV : BlockValidation} {BC : BlockChecks}.

Definition add_header (block : CBlockHeader) (status : Z) (st : chain_state) : option (ptr * chain_state) :=
  r ← AddToBlockIndex (tree st) block status;
  let '(p, t) := (r : ptr * block_tree) in
  Some (p, on_tree (fun _ => t) st).

(** the result with [*ppindex] *)
Definition AcceptBlockHeader (block : CBlockHeader) (st : chain_state) : option (bool * option ptr * chain_state) :=
  let hash := GetHeaderHash block in
  let accept st := r ← add_header block BLOCK_VALID_TREE st; Some (true, Some (fst r), snd r) in
  if bool_decide (hash = hashGenesisBlock) then accept st
  else
    match mapBlockIndex (tree st) !! hash with
    | Some pindex =>
        b ← objects st !! pindex;
        Some (negb (failed b), Some pindex, st)
    | None =>
        if negb (CheckBlockHeader block) then Some (false, None, st)
        else
          match mapBlockIndex (tree st) !! hdr_hashPrevBlock block with
          | None => Some (false, None, st)
          | Some pindexPrev =>
              b ← objects st !! pindexPrev;
              if failed b || has_flag b BLOCK_CONFLICT_CHAINLOCK || negb (ContextualCheckBlockHeader block pindexPrev)
              then Some (false, None, st)
              else
                valid ← IsValid (nStatus b) BLOCK_VALID_SCRIPTS;
                r ← (if (valid : bool) then Some (true, st) else failed_ancestor pindexPrev (elements (g_failed_blocks st)) st);
                match r with
                | (false, st) => Some (false, None, st)
                | (true, st) =>
                    if HasConflictingChainLock (nHeight b + 1) hash then
                      r ← add_header block BLOCK_CONFLICT_CHAINLOCK st;
                      Some (false, None, snd r)
                    else accept st
                end
          end
    end.

Fixpoint ProcessNewBlockHeaders (headers : list CBlockHeader) (st : chain_state) : option (bool * chain_state) :=
  match headers with
  | [] => Some (true, st)
  | header :: headers =>
      r ← AcceptBlockHeader header st;
      match r with
      | (false, _, st) => Some (false, st)
      | (true, _, st) => ProcessNewBlockHeaders headers st
      end
  end.

(** a block that was not asked for is taken when it is new, has enough work and is
    not too far ahead *)
Definition unwanted (b : CBlockIndex) (fHasMoreOrSameWork : bool) (v : vchain) : bool :=
  negb (nTx b =? 0) || negb fHasMoreOrSameWork || (nHeight b >? i32 (Height v + MIN_BLOCKS_TO_KEEP)) ||
  (Uint.CompareTo (nChainWork b) nMinimumChainWork <? 0).

Definition AcceptBlock (block : CBlock) (fRequested : bool) (st : chain_state) : option (bool * chain_state) :=
  r ← AcceptBlockHeader (block_header block) st;
  match r with
  | (false, _, st) => Some (false, st)
  | (true, pindex, st) =>
      p ← pindex;
      b ← objects st !! p;
      more ← match Tip (chainActive st) with
             | None => Some true
             | Some tip => t ← objects st !! tip; Some (Uint.CompareTo (nChainWork b) (nChainWork t) >=? 0)
             end;
      if have_data b || (negb fRequested && unwanted b more (chainActive st)) then Some (true, st)
      else
        match (match CheckBlock block with Passed => ContextualCheckBlock block (pprev b) | r => r end) with
        | Refused invalid corrupt =>
            Some (false, if invalid && negb corrupt then dirty p (modify p (or_status BLOCK_FAILED_VALID) st) else st)
        | Passed =>
            match FindBlockPos block (nHeight b) with
            | None => Some (false, st)
            | Some (file, pos) =>
                st ← ReceivedBlockTransactions (vtx_size block) file pos IsWitnessEnabled p st;
                Some (true, st)
            end
        end
  end.

(** the height of the tip is read first *)
Definition ProcessNewBlock (block : CBlock) (fForceProcessing : bool) (st : chain_state) : option (bool * chain_state) :=
  _ ← Tip (chainActive st);
  match CheckBlock block with
  | Refused _ _ => Some (false, st)
  | Passed =>
      r ← AcceptBlock block fForceProcessing st;
      match r with
      | (false, st) => Some (false, st)
      | (true, st) => ActivateBestChain st
      end
  end.

Definition LoadGenesisBlock (block : CBlock) (st : chain_state) : option (bool * chain_state) :=
  if bool_decide (is_Some (mapBlockIndex (tree st) !! GetHeaderHash (block_header block))) then Some (true, st)
  else
    match FindBlockPos block 0 with
    | None => Some (false, st)
    | Some (file, pos) =>
        r ← add_header (block_header block) BLOCK_VALID_TREE st;
        let '(p, st) := (r : ptr * chain_state) in
        st ← ReceivedBlockTransactions (vtx_size block) file pos IsWitnessEnabled p st;
        Some (true, st)
    end.

(** ** The calls of rpc/blockchain.cpp; [None] as a result is "Block not found" *)

Definition preciousblock (hash : list Z) (st : chain_state) : option (option bool * chain_state) :=
  match mapBlockIndex (tree st) !! hash with
  | None => Some (None, st)
  | Some p => r ← PreciousBlock p st; Some (Some (fst r), snd r)
  end.

Definition invalidateblock (hash : list Z) (st : chain_state) : option (option bool * chain_state) :=
  match mapBlockIndex (tree st) !! hash with
  | None => Some (None, st)
  | Some p =>
      r ← InvalidateBlock p st;
      match r with
      | (false, st) => Some (Some false, st)
      | (true, st) => r ← ActivateBestChain st; Some (Some (fst r), snd r)
      end
  end.

Definition reconsiderblock (hash : list Z) (st : chain_state) : option (option bool * chain_state) :=
  match mapBlockIndex (tree st) !! hash with
  | None => Some (None, st)
  | Some p =>
      st ← ResetBlockFailureFlags p st;
      r ← ActivateBestChain st;
      Some (Some (fst r), snd r)
  end.
End Accept.
