(* ===== verification/Candidates.v ===== *)
(** * The candidates for the tip (validation.cpp)

    The order of [CBlockIndexWorkComparator] as a strict total order, block index
    objects that are changed in place ([stored]), ancestors ([anc]), and the proof that
    [FindMostWorkChain] returns the best candidate whose chain can be used. *)

From S2P Require Import Chain ActiveChain BestChain.
From S2P Require Import Prelude ArithUint Compact.
#[local] Open Scope Z_scope.

(** ** The order *)

Definition work (b : CBlockIndex) : Z := uval (nChainWork b).

(** less work; or as much, and received later; or at a higher address *)
Definition worse (x y : ptr * CBlockIndex) : Prop :=
  work x.2 < work y.2 \/
  work x.2 = work y.2 /\
    (nSequenceId y.2 < nSequenceId x.2 \/ nSequenceId x.2 = nSequenceId y.2 /\ Z.pos y.1 < Z.pos x.1).

Definition work_ok (b : CBlockIndex) : Prop := uwf 8 (nChainWork b).

Lemma comparator_spec x y : work_ok x.2 -> work_ok y.2 -> CBlockIndexWorkComparator x y = true <-> worse x y.
Proof.
  destruct x as [pa a], y as [pb b]. unfold work_ok, worse, work, CBlockIndexWorkComparator. cbn [fst snd]. intros Ha Hb.
  rewrite (CompareTo_gt 8), (CompareTo_lt 8), !Z.gtb_ltb by done.
  repeat match goal with |- context [if ?c <? ?d then _ else _] => destruct (Z.ltb_spec c d) end; try (split; [done|]; lia); try (split; [lia|done]).
  destruct (Pos.ltb_spec pa pb); [split; [done|lia]|]. destruct (Pos.ltb_spec pb pa); [split; [lia|done]|]. split; [done|lia].
Qed.

Lemma comparator_false x y : work_ok x.2 -> work_ok y.2 -> CBlockIndexWorkComparator x y = false <-> ~ worse x y.
Proof. intros Hx Hy. rewrite <- (comparator_spec x y Hx Hy). destruct (CBlockIndexWorkComparator x y); split; congruence. Qed.

#[export] Instance worse_dec x y : Decision (worse x y).
Proof. unfold worse. apply _. Defined.

Lemma worse_irrefl x : ~ worse x x.
Proof. unfold worse. lia. Qed.
Lemma worse_trans x y z : worse x y -> worse y z -> worse x z.
Proof. unfold worse. lia. Qed.
Lemma not_worse_trans x y z : ~ worse x y -> ~ worse y z -> ~ worse x z.
Proof. unfold worse. lia. Qed.
Lemma worse_not x y : worse x y -> ~ worse y x.
Proof. unfold worse. lia. Qed.
Lemma less_work_worse p a q b : work a < work b -> worse (p, a) (q, b).
Proof. unfold worse. simpl. lia. Qed.

(** ** Sets of pointers *)

(** every pointer of the set leads to an object *)
Definition in_store (s : store) (C : gset ptr) : Prop := forall p, p ∈ C -> is_Some (s !! p).

Lemma objects_of (s : store) (l : list ptr) : (forall p, p ∈ l -> is_Some (s !! p)) ->
  exists k : list (ptr * CBlockIndex), mapM (fun p => b ← s !! p; Some (p, b)) l = Some k /\
    (forall p b, (p, b) ∈ k <-> p ∈ l /\ s !! p = Some b) /\ length k = length l.
Proof.
  induction l as [|q l IH]; intros Hl.
  - exists []. split; [done|]. split; [|done]. intros p b. rewrite !elem_of_nil. tauto.
  - destruct IH as (k & E & Hk & Hlen); [intros p Hp; apply Hl; by right|]. destruct (Hl q ltac:(by left)) as [c Hc].
    exists ((q, c) :: k). cbn. rewrite Hc. cbn. rewrite E. split; [done|]. split; [|simpl; congruence].
    intros p b. rewrite !elem_of_cons, Hk. split.
    + intros [[= -> ->]|[? ?]]; [tauto|]. tauto.
    + intros [[->|?] E']; [left; congruence | tauto].
Qed.

Lemma set_entries_spec s C : in_store s C ->
  exists l, set_entries s C = Some l /\ (forall p b, (p, b) ∈ l <-> p ∈ C /\ s !! p = Some b) /\ (C = ∅ <-> l = []).
Proof.
  intros HC. destruct (objects_of s (elements C)) as (l & E & Hl & Hlen).
  { intros p Hp. apply HC. by apply elem_of_elements. }
  exists l. split; [done|]. split; [intros p b; by rewrite Hl, elem_of_elements|]. split.
  - intros ->. rewrite elements_empty in Hlen. by destruct l.
  - intros ->. apply leibniz_equiv, elements_empty_inv. by destruct (elements C).
Qed.

(** the last element of the ordered set *)
Lemma foldr_later l : (forall x, x ∈ l -> work_ok x.2) ->
  match foldr later None l with
  | None => l = []
  | Some x => x ∈ l /\ forall y, y ∈ l -> ~ worse x y
  end.
Proof.
  induction l as [|x l IH]; intros Hl; [done|]. simpl.
  assert (Hx : work_ok x.2) by (apply Hl; by left). specialize (IH (fun y Hy => Hl y ltac:(by right))).
  destruct (foldr later None l) as [m|]; simpl.
  - destruct IH as [Hm Hmax]. assert (Hwm : work_ok m.2) by (apply Hl; by right).
    destruct (CBlockIndexWorkComparator m x) eqn:E.
    + apply (comparator_spec _ _ Hwm Hx) in E. split; [by left|]. intros y [->|Hy]%elem_of_cons; [apply worse_irrefl|].
      intros Hxy. apply (Hmax y Hy). by apply (worse_trans m x).
    + apply (comparator_false _ _ Hwm Hx) in E. split; [by right|]. intros y [->|Hy]%elem_of_cons; [done|]. by apply Hmax.
  - subst l. split; [by left|]. intros y ->%list_elem_of_singleton. apply worse_irrefl.
Qed.

Lemma greatest_spec s C : store_ok s -> in_store s C ->
  exists r, greatest s C = Some r /\
  match r with
  | None => C = ∅
  | Some (p, b) => p ∈ C /\ s !! p = Some b /\ forall q c, q ∈ C -> s !! q = Some c -> ~ worse (p, b) (q, c)
  end.
Proof.
  intros Hs HC. destruct (set_entries_spec s C HC) as (l & E & Hl & Hnil). unfold greatest. rewrite E. cbn [mbind option_bind].
  eexists. split; [done|]. pose proof (foldr_later l) as H. destruct (foldr later None l) as [[p b]|].
  - destruct H as [Hin Hmax]; [intros [q c] Hq%Hl; apply (node_work _ _ (Hs q c (proj2 Hq)))|].
    apply Hl in Hin as [Hp Hb]. split; [done|]. split; [done|]. intros q c Hq Hc. apply Hmax. by apply Hl.
  - apply Hnil, H. intros [q c] Hq%Hl. apply (node_work _ _ (Hs q c (proj2 Hq))).
Qed.

(** ** Objects that change in place *)

(** the fields that are set once: the pointers, the height, the work, the header *)
Definition same_node (a b : CBlockIndex) : Prop :=
  (phashBlock a, pprev a, pskip a, nHeight a) = (phashBlock b, pprev b, pskip b, nHeight b) /\
  (nChainWork a, header a, nTimeMax a) = (nChainWork b, header b, nTimeMax b).

Abbreviation validity b := (Z.land (nStatus b) BLOCK_VALID_MASK).

(** what every operation on linked blocks leaves alone *)
Record held (a b : CBlockIndex) : Prop := {
  held_node : same_node a b;
  held_counts : (nTx a, nChainTx a) = (nTx b, nChainTx b);
  held_data : have_data a = have_data b;
  held_valid : validity a <= validity b;
}.

(** what connecting, disconnecting and marking blocks leaves alone: the marks of
    failure stay *)
Record kept (a b : CBlockIndex) : Prop := {
  kept_node : same_node a b;
  kept_counts : (nSequenceId a, nTx a, nChainTx a) = (nSequenceId b, nTx b, nChainTx b);
  kept_data : have_data a = have_data b;
  kept_valid : validity a <= validity b;
  kept_flags : forall flag, flag = BLOCK_FAILED_MASK \/ flag = BLOCK_FAILED_VALID -> has_flag a flag = true -> has_flag b flag = true;
}.

#[export] Instance same_node_equiv : Equivalence same_node.
Proof. unfold same_node. split; [done | by intros ? ? [? ?] | intros ? ? ? [? ?] [? ?]; split; congruence]. Qed.

#[export] Instance kept_preorder : PreOrder kept.
Proof.
  split; [done|]. intros a b c [? ? ? ? ?] [? ? ? ? ?]. split; [by etrans | congruence.. | lia | auto].
Qed.

Lemma kept_failed a b : kept a b -> failed a = true -> failed b = true.
Proof. intros H. apply (kept_flags _ _ H). by left. Qed.
Lemma kept_held a b : kept a b -> held a b.
Proof. intros [H1 H2 H3 H4 _]. split; [done | congruence | done..]. Qed.

#[export] Instance held_preorder : PreOrder held.
Proof. split; [done|]. intros a b c [? ? ? ?] [? ? ? ?]. split; [by etrans | congruence.. | lia]. Qed.

(** the same objects, related by [R] *)
Definition stored (R : relation CBlockIndex) (s s' : store) : Prop := forall p, option_Forall2 R (s !! p) (s' !! p).

Section Stored.
Context (R : relation CBlockIndex).

Lemma stored_fwd s s' p a : stored R s s' -> s !! p = Some a -> exists b, s' !! p = Some b /\ R a b.
Proof. intros H E. specialize (H p). rewrite E in H. inversion H as [? b Hab E1 E2|]. exists b. by rewrite E2. Qed.

Lemma stored_bwd s s' p b : stored R s s' -> s' !! p = Some b -> exists a, s !! p = Some a /\ R a b.
Proof. intros H E. specialize (H p). rewrite E in H. inversion H as [a ? Hab E1 E2|]. exists a. by rewrite E1. Qed.

Lemma stored_alter `{!Reflexive R} s p f : (forall b, s !! p = Some b -> R b (f b)) -> stored R s (alter f p s).
Proof.
  intros Hf q. destruct (decide (p = q)) as [<-|Hne].
  - rewrite lookup_alter_eq. destruct (s !! p) as [b|]; simpl; constructor. by apply Hf.
  - rewrite lookup_alter_ne by done. by destruct (s !! q); constructor.
Qed.

#[export] Instance stored_refl `{!Reflexive R} : Reflexive (stored R).
Proof. intros s p. by destruct (s !! p); constructor. Qed.
#[export] Instance stored_trans `{!Transitive R} : Transitive (stored R).
Proof.
  intros s1 s2 s3 H1 H2 p. specialize (H1 p). specialize (H2 p).
  destruct H1 as [a b Hab|]; inversion H2; subst; constructor. by etrans.
Qed.
End Stored.

Lemma stored_sub (R R' : relation CBlockIndex) s s' : (forall a b, R a b -> R' a b) -> stored R s s' -> stored R' s s'.
Proof. intros H Hs p. destruct (Hs p); constructor. auto. Qed.

#[export] Instance stored_sym R `{!Symmetric R} : Symmetric (stored R).
Proof. intros s s' H p. destruct (H p); by constructor. Qed.

Lemma worse_kept p a a' q b b' : kept a a' -> kept b b' -> worse (p, a) (q, b) <-> worse (p, a') (q, b').
Proof.
  intros [[_ [= Wa _ _]] [= Sa _ _] _ _ _] [[_ [= Wb _ _]] [= Sb _ _] _ _ _]. unfold worse, work. simpl.
  by rewrite Wa, Wb, Sa, Sb.
Qed.

Lemma held_same s s' : stored held s s' -> stored same_node s s'.
Proof. apply stored_sub. intros a b H. apply H. Qed.

Lemma kept_stored s s' : stored kept s s' -> stored held s s'.
Proof. apply stored_sub, kept_held. Qed.

Lemma kept_same s s' : stored kept s s' -> stored same_node s s'.
Proof. apply stored_sub. intros a b H. apply H. Qed.

(** *** The tree does not change *)

Section Same.
Variables s s' : store.
Hypothesis H : stored same_node s s'.

Lemma up_same p n : up s p n = up s' p n.
Proof.
  revert p. induction n as [|n IH]; intros p; [done|]. simpl. destruct (H p) as [a b [Hab _]|]; [|done]. simpl.
  injection Hab as _ -> _ _. by destruct (pprev b); simpl.
Qed.

Lemma node_ok_same a b : same_node a b -> node_ok s a -> node_ok s' b.
Proof.
  intros [[= E1 E2 E3 E4] [= E5 E6 E7]] [Hh Hb Hw Hp]. unfold nBits, nTime in *.
  split; unfold nBits, nTime; [by rewrite <- E4 | by rewrite <- E6 | by rewrite <- E5 |]. rewrite <- E2. destruct (pprev a) as [q|].
  - destruct Hp as (c & proof & Hc & ? & Hk & ? & ? & ?). destruct (stored_fwd _ _ _ _ _ H Hc) as (d & Hd & [[= _ _ _ F4] [= F5 _ F7]]).
    exists d, proof. rewrite <- up_same, <- E3, <- E4, <- E5, <- E6, <- E7, <- F4, <- F5, <- F7. done.
  - by rewrite <- E3, <- E4, <- E5, <- E6, <- E7.
Qed.

Lemma store_ok_same : store_ok s -> store_ok s'.
Proof.
  intros Hs p b Hb. destruct (stored_bwd _ _ _ _ _ H Hb) as (a & Ha & Hab). apply (node_ok_same a b Hab). by apply (Hs p).
Qed.

Lemma link_ok_same v i : link_ok s v i -> link_ok s' v i.
Proof.
  intros (p & a & Hv & Ha & Hh & Hl). destruct (stored_fwd _ _ _ _ _ H Ha) as (b & Hb & [[= E1 E2 E3 E4] _]).
  exists p, b. rewrite <- E4, <- E2. done.
Qed.

Lemma chain_ok_same v : chain_ok s v -> chain_ok s' v.
Proof. intros Hv i Hi. by apply link_ok_same, Hv. Qed.
End Same.

(** ** Ancestors *)

(** [q] is [p] or an ancestor of it *)
Definition anc (s : store) (p q : ptr) : Prop := exists n, up s p n = Some q.

Lemma anc_refl s p : anc s p p.
Proof. by exists 0%nat. Qed.
Lemma anc_step s p b r q : s !! p = Some b -> pprev b = Some r -> anc s r q -> anc s p q.
Proof. intros Hb Hr [n Hn]. exists (S n). simpl. rewrite Hb. simpl. by rewrite Hr. Qed.
Lemma anc_inv s p q : anc s p q -> q = p \/ exists b r, s !! p = Some b /\ pprev b = Some r /\ anc s r q.
Proof.
  intros [[|n] Hn]; simpl in Hn; [left; congruence|]. right. destruct (s !! p) as [b|] eqn:Hb; [|done]. simpl in Hn.
  destruct (pprev b) as [r|] eqn:Hr; [|done]. exists b, r. split_and!; [done..|]. by exists n.
Qed.
Lemma anc_trans s p q r : anc s p q -> anc s q r -> anc s p r.
Proof. intros [n Hn] [m Hm]. exists (n + m)%nat. by rewrite up_add, Hn. Qed.
Lemma anc_same s s' p q : stored same_node s s' -> anc s p q <-> anc s' p q.
Proof. intros H. unfold anc. split; intros [n Hn]; exists n; by rewrite ?(up_same _ _ H) in *. Qed.

Section Anc.
Variable s : store.
Hypothesis Hs : store_ok s.

Lemma up_store p b n q : s !! p = Some b -> up s p n = Some q -> exists c, s !! q = Some c /\ nHeight c = nHeight b - Z.of_nat n.
Proof.
  revert p b. induction n as [|n IH]; intros p b Hb Hn; simpl in Hn; [injection Hn as <-; exists b; split; [done|lia]|].
  rewrite Hb in Hn. simpl in Hn. pose proof (parent_height s p b Hs Hb) as Hp. destruct (pprev b) as [r|]; [|done]. simpl in Hn.
  destruct Hp as (c & Hc & E & _). destruct (IH r c Hc Hn) as (d & Hd & Eh). exists d. split; [done|lia].
Qed.

Lemma anc_store p b q : s !! p = Some b -> anc s p q -> exists c, s !! q = Some c /\ nHeight c <= nHeight b /\ (q = p \/ nHeight c < nHeight b).
Proof.
  intros Hb [n Hn]. destruct (up_store p b n q Hb Hn) as (c & Hc & E). exists c. split; [done|]. split; [lia|].
  destruct n; [left; simpl in Hn; congruence | right; lia].
Qed.

Lemma anc_antisym p b q : s !! p = Some b -> anc s p q -> anc s q p -> p = q.
Proof.
  intros Hb Hpq Hqp. destruct (anc_store p b q Hb Hpq) as (c & Hc & _ & [?|Hlt]); [done|].
  destruct (anc_store q c p Hc Hqp) as (b' & Hb' & Hle & _). rewrite Hb in Hb'. injection Hb' as <-. lia.
Qed.

Lemma anc_ancestor p b q : s !! p = Some b -> anc s p q <-> exists h, ancestor s p h q.
Proof.
  intros Hb. split.
  - intros [n Hn]. destruct (up_store p b n q Hb Hn) as (c & Hc & E). exists (nHeight c).
    pose proof (node_height _ _ (Hs q c Hc)). exists b. split; [done|]. split; [lia|]. rewrite <- Hn. f_equal. lia.
  - intros (h & b' & Hb' & _ & Hu). by exists (Z.to_nat (nHeight b' - h)).
Qed.

(** two ancestors of a block are ancestors of one another *)
Lemma anc_total p b q r : s !! p = Some b -> anc s p q -> anc s p r -> anc s q r \/ anc s r q.
Proof.
  intros Hb [n Hn] [m Hm]. destruct (Nat.le_gt_cases n m).
  - left. exists (m - n)%nat. replace m with (n + (m - n))%nat in Hm by lia. by rewrite up_add, Hn in Hm.
  - right. exists (n - m)%nat. replace n with (m + (n - m))%nat in Hn by lia. by rewrite up_add, Hm in Hn.
Qed.

(** on the active chain the ancestors are on it too *)
Definition on_main (v : vchain) (p : ptr) : Prop := exists b, s !! p = Some b /\ at_height v (nHeight b) = Some p.

Lemma main_anc v p q : chain_ok s v -> on_main v p -> anc s p q -> on_main v q.
Proof.
  intros Hv (b & Hb & Hp) Hq. apply (anc_ancestor p b q Hb) in Hq as [h Hq].
  destruct (chain_ancestor s v _ p h Hv Hp) as (g & Hg & Ha); [destruct Hq as (b' & Hb' & ? & _); rewrite Hb in Hb'; injection Hb' as <-; lia|].
  rewrite (ancestor_fun s p h q g Hq Ha). destruct (ancestor_node s Hs _ _ _ Ha) as (c & Hc & E). exists c. by rewrite E.
Qed.
End Anc.

(** ** Flags *)

Lemma has_flag_or b f g : has_flag (or_status f b) g = has_flag b g || negb (Z.land f g =? 0).
Proof.
  unfold has_flag, or_status. simpl. rewrite Z.land_lor_distr_l.
  destruct (Z.eqb_spec (Z.lor (Z.land (nStatus b) g) (Z.land f g)) 0) as [E|E].
  - apply Z.lor_eq_0_iff in E as [-> ->]. done.
  - destruct (Z.eqb_spec (Z.land (nStatus b) g) 0) as [E1|]; [|done]. destruct (Z.eqb_spec (Z.land f g) 0) as [E2|]; [|done].
    by rewrite E1, E2 in E.
Qed.

Lemma validity_or b f : Z.land f BLOCK_VALID_MASK = 0 -> validity (or_status f b) = validity b.
Proof. intros H. simpl. by rewrite Z.land_lor_distr_l, H, Z.lor_0_r. Qed.

Lemma or_status_kept f b : Z.land f BLOCK_VALID_MASK = 0 -> Z.land f BLOCK_HAVE_DATA = 0 -> kept b (or_status f b).
Proof.
  intros Hv Hd. split; [done | done | | |].
  - by rewrite has_flag_or, Hd, orb_false_r.
  - by rewrite validity_or.
  - intros flag _ H. by rewrite has_flag_or, H.
Qed.

(** marked as a descendant of a failed block, or not *)
Definition marked (a b : CBlockIndex) : Prop := b = a \/ b = or_status BLOCK_FAILED_CHILD a.

#[export] Instance marked_preorder : PreOrder marked.
Proof.
  split; [by left|]. intros a b c [->| ->] [->| ->]; unfold marked; [auto.. |]. right.
  unfold or_status, set_status. simpl. by rewrite <- Z.lor_assoc.
Qed.

Lemma marked_kept a b : marked a b -> kept a b.
Proof. intros [->| ->]; [done|]. by apply or_status_kept. Qed.

(** ** FindMostWorkChain *)

Definition bad (s : store) (p : ptr) : Prop := exists b, s !! p = Some b /\ (failed b = true \/ have_data b = false).

(** between the block and the active chain, something is invalid or missing *)
Definition unusable (s : store) (v : vchain) (p : ptr) : Prop := exists q, anc s p q /\ ~ on_main s v q /\ bad s q.

#[export] Instance on_main_dec s v p : Decision (on_main s v p).
Proof.
  destruct (s !! p) as [b|] eqn:E; [|right; intros (b & ? & _); congruence].
  destruct (decide (at_height v (nHeight b) = Some p)); [left; by exists b | right; intros (c & ? & ?); congruence].
Defined.

Lemma on_main_same s s' v p : stored same_node s s' -> on_main s v p <-> on_main s' v p.
Proof.
  intros H. split; intros (b & Hb & Hp).
  - destruct (stored_fwd _ _ _ _ _ H Hb) as (c & Hc & [[= _ _ _ E] _]). exists c. by rewrite <- E.
  - destruct (stored_bwd _ _ _ _ _ H Hb) as (c & Hc & [[= _ _ _ E] _]). exists c. by rewrite E.
Qed.

Section Test.
Variables (s : store) (v : vchain) (p : ptr) (b : CBlockIndex).
Hypothesis Hs : store_ok s.
Hypothesis Hv : chain_ok s v.
Hypothesis Hp : s !! p = Some b.
Hypothesis Hlinked : forall q c, anc s p q -> ~ on_main s v q -> s !! q = Some c -> nChainTx c <> 0 \/ nHeight c = 0.

Definition fine (r : ptr) : Prop := ~ on_main s v r /\ ~ bad s r.

Definition test_inv (x : option ptr) : Prop :=
  match x with
  | Some q => anc s p q /\ forall r, anc s p r -> anc s q r \/ fine r
  | None => forall r, anc s p r -> fine r
  end.

Definition test_result (x : option (option ptr)) : Prop :=
  match x with
  | None => False
  | Some None => ~ unusable s v p
  | Some (Some t) => anc s p t /\ ~ on_main s v t /\ bad s t
  end.

Lemma test_step_spec x : test_inv x ->
  match test_step s v x with
  | inl y => test_inv y /\ match x, y with
      | Some q, Some r => exists c d, s !! q = Some c /\ s !! r = Some d /\ nHeight d < nHeight c
      | Some _, None => True
      | None, _ => False end
  | inr r => test_result r
  end.
Proof.
  destruct x as [q|]; simpl.
  2: { intros H (r & Hr & _ & Hbad). by destruct (H r Hr) as [_ []]. }
  intros [Hq Hrest]. destruct (anc_store s Hs p b q Hp Hq) as (c & Hc & _). rewrite Hc.
  case_bool_decide as Hm.
  { intros (r & Hr & Hoff & Hbad). destruct (Hrest r Hr) as [Hqr|[_ Hgood]]; [|done]. apply Hoff.
    apply (main_anc s Hs v q r Hv); [|done]. by exists c. }
  assert (Hoff : ~ on_main s v q) by (intros (c' & Hc' & ?); congruence).
  destruct (Hlinked q c Hq Hoff Hc) as [Hl|Hl].
  all: [> rewrite (proj2 (Z.eqb_neq _ _) Hl) | rewrite Hl, Z.eqb_refl, andb_false_r]; cbn [andb];
    (destruct (failed c || negb (have_data c)) eqn:Ebad;
     [split; [done|]; split; [done|]; exists c; split; [done|]; apply orb_true_iff in Ebad as [?| ?%negb_true_iff]; auto|]).
  all: apply orb_false_iff in Ebad as [Ef ?%negb_false_iff];
    assert (Hfine : fine q) by (split; [done|]; intros (c' & Hc' & [?|?]); congruence);
    pose proof (parent_height s q c Hs Hc) as Hpar; destruct (pprev c) as [r|] eqn:Er; simpl.
  all: try (split; [|done]; intros r Hr; destruct (Hrest r Hr) as [Hqr|]; [|done];
    apply anc_inv in Hqr as [->|(c' & r' & Hc' & Hr' & _)]; [done|congruence]).
  all: destruct Hpar as (d & Hd & Eh & _); split; [|exists c, d; split; [done|]; split; [done|lia]];
    (split; [apply (anc_trans s p q r Hq), (anc_step s q c r r Hc Er), anc_refl|]);
    intros r' Hr'; destruct (Hrest r' Hr') as [Hqr|]; [|by right];
    apply anc_inv in Hqr as [->|(c' & r'' & Hc' & Hr'' & Hanc)]; [by right|]; left; congruence.
Qed.

Lemma test_loop : exists x, while_loop (test_step s v) (S (S (Z.to_nat (nHeight b)))) (Some p) = Some x /\ test_result x.
Proof.
  destruct (while_total (test_step s v) test_inv
    (fun x => match x with Some q => match s !! q with Some c => S (Z.to_nat (nHeight c)) | None => 0 end | None => 0 end)%nat
    test_result) with (fuel := S (S (Z.to_nat (nHeight b)))) (s := Some p) as (x & E & Hx); [| | | |by exists x].
  - intros x y Hx E. pose proof (test_step_spec x Hx) as H. rewrite E in H. destruct H as [Hy Hm]. split; [done|].
    destruct x as [q|], y as [r|]; try done.
    + destruct Hm as (c & d & -> & Hd & Hlt). rewrite Hd. pose proof (node_height _ _ (Hs r d Hd)). lia.
    + destruct Hx as [Hq _]. destruct (anc_store s Hs p b q Hp Hq) as (c & -> & _). lia.
  - intros x r Hx E. pose proof (test_step_spec x Hx) as H. by rewrite E in H.
  - split; [apply anc_refl|]. by left.
  - rewrite Hp. lia.
Qed.
End Test.

(** the state with other objects, candidates, waiting blocks and best invalid block *)
Definition rebuild (st : chain_state) (s : store) (C : gset ptr) (U : list (ptr * ptr)) (i : option ptr) : chain_state :=
  MkChainState (BlockTree s (mapBlockIndex (tree st)) (pindexBestHeader (tree st)) (setDirtyBlockIndex (tree st))
                  (mapPrevBlockIndex (tree st)))
    (chainActive st) C U i (g_failed_blocks st) (nBlockSequenceId st) (nBlockReverseSequenceId st) (nLastPreciousChainwork st).

Lemma rebuild_id st : st = rebuild st (objects st) (setBlockIndexCandidates st) (mapBlocksUnlinked st) (pindexBestInvalid st).
Proof. by destruct st as [[] ? ? ? ? ? ? ? ?]. Qed.

Section Remove.
Variables (st0 : chain_state) (p t : ptr) (b bt : CBlockIndex).
Let s0 := objects st0.
Let C0 := setBlockIndexCandidates st0.
Hypothesis Hs : store_ok s0.
Hypothesis Hp : s0 !! p = Some b.
Hypothesis Ht : s0 !! t = Some bt.
Hypothesis Hpt : anc s0 p t.
Let fF := failed bt.

(** what the loop has done when it is at [q] *)
Record removed_to (q : ptr) (s : store) (C : gset ptr) : Prop := {
  rem_at : anc s0 p q /\ anc s0 q t;
  rem_marked : stored marked s0 s;
  rem_sub : C ⊆ C0;
  rem_gone : forall r, anc s0 p r -> anc s0 q r \/ ((r ∉ C) /\ (fF = true -> forall c, s !! r = Some c -> failed c = true));
  rem_only : forall r, r ∈ C0 -> r ∉ C -> anc s0 p r /\ anc s0 r t;
  rem_new : forall r c c', s0 !! r = Some c -> s !! r = Some c' -> c' = c \/ (fF = true /\ anc s0 p r /\ anc s0 r t);
}.

Definition remove_inv (x : ptr * chain_state) : Prop :=
  exists s C U, x.2 = rebuild st0 s C U (pindexBestInvalid st0) /\ (fF = true -> U = mapBlocksUnlinked st0) /\ removed_to x.1 s C.

Definition remove_result (x : option chain_state) : Prop :=
  exists s C U, x = Some (rebuild st0 s C U (pindexBestInvalid st0)) /\ (fF = true -> U = mapBlocksUnlinked st0) /\ removed_to t s C.

Lemma remove_one q s C c r : removed_to q s C -> q <> t -> s !! q = Some c -> pprev c = Some r ->
  removed_to r (if fF then alter (or_status BLOCK_FAILED_CHILD) q s else s) (C ∖ {[q]}).
Proof.
  intros [[Hpq Hqt] Hm Hsub Hgone Honly Hnew] Hne Hc Hr. pose proof (stored_bwd _ _ _ _ _ Hm Hc) as (c0 & Hc0 & Hcc).
  assert (Er : pprev c0 = Some r) by (apply marked_kept in Hcc; destruct Hcc as [[[= _ E _ _] _] _ _ _ _]; congruence).
  assert (Hqr : anc s0 q r) by (apply (anc_step s0 q c0 r r Hc0 Er), anc_refl).
  assert (Hrt : anc s0 r t).
  { apply anc_inv in Hqt as [->|(c1 & r1 & Hc1 & Hr1 & ?)]; [done|congruence]. }
  assert (Hmark : stored marked s (if fF then alter (or_status BLOCK_FAILED_CHILD) q s else s)).
  { destruct fF; [apply stored_alter; [apply _ | by right] | done]. }
  split.
  - split; [by apply (anc_trans s0 p q r) | done].
  - by etrans.
  - set_solver.
  - intros x Hx. destruct (Hgone x Hx) as [Hqx|[Hx1 Hx2]].
    + apply anc_inv in Hqx as [->|(c1 & r1 & Hc1 & Hr1 & ?)]; [|left; congruence]. right. split; [set_solver|].
      intros -> c'. rewrite lookup_alter_eq, Hc. simpl. intros [= <-]. by rewrite has_flag_or, orb_true_r.
    + right. split; [set_solver|]. intros EF c'. rewrite EF. destruct (decide (q = x)) as [->|].
      * rewrite lookup_alter_eq, Hc. simpl. intros [= <-]. by rewrite has_flag_or, orb_true_r.
      * rewrite lookup_alter_ne by done. by apply Hx2.
  - intros x Hx1 Hx2. destruct (decide (x = q)) as [->|]; [done|]. apply Honly; [done|]. set_solver.
  - intros x d d' Hd Hd'. destruct fF eqn:EF; [|by apply (Hnew x d d')]. destruct (decide (q = x)) as [->|]; [by right|].
    rewrite lookup_alter_ne in Hd' by done. by apply (Hnew x d d').
Qed.

Lemma remove_step_spec x : remove_inv x ->
  match remove_step fF t x with
  | inl y => remove_inv y /\ exists c d, s0 !! x.1 = Some c /\ s0 !! y.1 = Some d /\ nHeight d < nHeight c
  | inr r => remove_result r
  end.
Proof.
  destruct x as [q st]. intros (s & C & U & E & HU & Hrem). simpl in E, HU, Hrem. subst st. unfold remove_step.
  case_bool_decide as Ht'; [subst q; by exists s, C, U|]. simpl.
  pose proof (rem_at q s C Hrem) as [Hpq Hqt]. destruct (anc_store s0 Hs p b q Hp Hpq) as (c0 & Hc0 & _).
  destruct (stored_fwd _ _ _ _ _ (rem_marked q s C Hrem) Hc0) as (c & Hc & Hcc). rewrite Hc.
  apply marked_kept in Hcc as [[[= _ Eprev _ _] _] _ _ _ _].
  apply anc_inv in Hqt as [?|(c1 & r & Hc1 & Hr & _)]; [congruence|].
  assert (c1 = c0) as -> by congruence. assert (Hr' : pprev c = Some r) by congruence. rewrite Hr'.
  pose proof (remove_one q s C c r Hrem ltac:(congruence) Hc Hr') as Hone. split.
  - assert (HU' : fF = true -> (if fF then U else U ++ [(r, q)]) = mapBlocksUnlinked st0) by (intros EF; rewrite EF; auto).
    exists (if fF then alter (or_status BLOCK_FAILED_CHILD) q s else s), (C ∖ {[q]}), (if fF then U else U ++ [(r, q)]).
    split; [by destruct fF | done].
  - pose proof (parent_height s0 q c0 Hs Hc0) as Hh. rewrite Hr in Hh. destruct Hh as (d & Hd & ? & _). exists c0, d. split_and!; [done..|lia].
Qed.

Lemma remove_loop : exists s C U,
  while_loop (remove_step fF t) (S (S (Z.to_nat (nHeight b)))) (p, st0) = Some (Some (rebuild st0 s C U (pindexBestInvalid st0))) /\
  (fF = true -> U = mapBlocksUnlinked st0) /\ removed_to t s C.
Proof.
  destruct (while_total (remove_step fF t) remove_inv
    (fun x => match s0 !! x.1 with Some c => Z.to_nat (nHeight c) | None => 0 end)%nat remove_result)
    with (fuel := S (S (Z.to_nat (nHeight b)))) (s := (p, st0)) as (x & E & Hx).
  - intros x y Hx E. pose proof (remove_step_spec x Hx) as H. rewrite E in H. destruct H as [Hy (c & d & -> & Hd & ?)].
    split; [done|]. rewrite Hd. pose proof (node_height _ _ (Hs _ d Hd)). lia.
  - intros x r Hx E. pose proof (remove_step_spec x Hx) as H. by rewrite E in H.
  - exists s0, C0, (mapBlocksUnlinked st0). split; [apply rebuild_id|]. split; [done|]. split; simpl; try done.
    + split; [apply anc_refl | done].
    + by left.
    + intros r c c' H1 H2. left. congruence.
  - simpl. rewrite Hp. lia.
  - destruct Hx as (s & C & U & -> & HU & Hrem). by exists s, C, U.
Qed.
End Remove.

Lemma usable_kept s s' v p : stored kept s s' -> ~ unusable s' v p -> ~ unusable s v p.
Proof.
  intros Hk Hu (q & Hq & Hoff & b & Hb & Hbad). pose proof (kept_same _ _ Hk) as Hsame. apply Hu. exists q.
  split; [by apply (anc_same s s')|]. split; [by rewrite <- (on_main_same s s')|].
  destruct (stored_fwd _ _ _ _ _ Hk Hb) as (c & Hc & [_ _ Ed _ Hf]). exists c. split; [done|]. rewrite <- Ed. destruct Hbad; auto.
Qed.

(** what the search relies on *)
Record find_ok (st : chain_state) : Prop := {
  find_store : store_ok (objects st);
  find_chain : chain_ok (objects st) (chainActive st);
  find_candidates : in_store (objects st) (setBlockIndexCandidates st);
  find_invalid : forall p, pindexBestInvalid st = Some p -> is_Some (objects st !! p);
  find_linked : forall p q c, p ∈ setBlockIndexCandidates st -> anc (objects st) p q ->
    ~ on_main (objects st) (chainActive st) q -> objects st !! q = Some c -> nChainTx c <> 0 \/ nHeight c = 0;
}.

Lemma note_invalid_spec st p : store_ok (objects st) -> is_Some (objects st !! p) ->
  (forall q, pindexBestInvalid st = Some q -> is_Some (objects st !! q)) ->
  exists i, note_invalid p st = Some (set_best_invalid i st) /\ (forall q, i = Some q -> is_Some (objects st !! q)).
Proof.
  intros Hs [b Hb] Hi. unfold note_invalid, more_work. destruct (pindexBestInvalid st) as [q|] eqn:Eq; simpl.
  - destruct (Hi q eq_refl) as [c Hc]. rewrite Hb, Hc. simpl. destruct (_ >? 0).
    + exists (Some p). split; [done|]. intros r [= <-]. by exists b.
    + exists (Some q). split; [|by intros r [= <-]; exists c]. f_equal. destruct st. simpl in *. by subst.
  - exists (Some p). split; [done|]. intros r [= <-]. by exists b.
Qed.

(** how far the search has come *)
Record found_to (st0 : chain_state) (s : store) (C : gset ptr) : Prop := {
  found_marked : stored marked (objects st0) s;
  found_sub : C ⊆ setBlockIndexCandidates st0;
  found_out : forall r, r ∈ setBlockIndexCandidates st0 -> r ∉ C -> unusable (objects st0) (chainActive st0) r;
  found_bad : forall r, bad s r -> ~ on_main (objects st0) (chainActive st0) r -> unusable (objects st0) (chainActive st0) r;
  found_failed : forall r, r ∈ setBlockIndexCandidates st0 -> r ∉ C ->
    (forall c, s !! r = Some c -> failed c = true) \/
    exists q c, anc (objects st0) r q /\ objects st0 !! q = Some c /\ have_data c = false;
  found_new : forall r c c', objects st0 !! r = Some c -> s !! r = Some c' -> c' = c \/
    exists q d, anc (objects st0) r q /\ ~ on_main (objects st0) (chainActive st0) q /\
      objects st0 !! q = Some d /\ failed d = true;
}.

Lemma find_ok_marked st s C U i : find_ok st -> stored marked (objects st) s -> C ⊆ setBlockIndexCandidates st ->
  (forall q, i = Some q -> is_Some (objects st !! q)) -> find_ok (rebuild st s C U i).
Proof.
  intros [H1 H2 H3 H4 H5] Hm Hsub Hi. pose proof (stored_sub _ _ _ _ marked_kept Hm) as Hk. pose proof (kept_same _ _ Hk) as Hsame.
  split; simpl.
  - by apply (store_ok_same (objects st)).
  - by apply (chain_ok_same (objects st)).
  - intros p Hp. destruct (H3 p (Hsub p Hp)) as [b Hb]. destruct (stored_fwd _ _ _ _ _ Hm Hb) as (c & -> & _). done.
  - intros p Hp. destruct (Hi p Hp) as [b Hb]. destruct (stored_fwd _ _ _ _ _ Hm Hb) as (c & -> & _). done.
  - intros p q c Hp Hq Hoff Hc. destruct (stored_bwd _ _ _ _ _ Hk Hc) as (a & Ha & Hac).
    destruct Hac as [[[= _ _ _ <-] _] [= _ _ <-] _ _ _]. apply (H5 p q a); [by apply Hsub | by apply (anc_same _ s) | | done].
    by rewrite (on_main_same _ s).
Qed.

Section Find.
Variable st0 : chain_state.
Hypothesis Hok : find_ok st0.
Let s0 := objects st0.
Let v := chainActive st0.

Lemma unusable_anc r t : anc s0 r t -> unusable s0 v t -> unusable s0 v r.
Proof. intros Hrt (q & Hq & H). exists q. split; [by apply (anc_trans s0 r t) | done]. Qed.

(** a failed block off the active chain has a failed ancestor from the start *)
Lemma found_cause s C t c : found_to st0 s C -> s !! t = Some c -> failed c = true -> ~ on_main s0 v t ->
  exists q d, anc s0 t q /\ ~ on_main s0 v q /\ s0 !! q = Some d /\ failed d = true.
Proof.
  intros [Hm _ _ _ _ Hnew] Hc Hf Hoff. destruct (stored_bwd _ _ _ _ _ Hm Hc) as (c0 & Hc0 & _).
  destruct (Hnew t c0 c Hc0 Hc) as [->|?]; [|done]. exists t, c0. split; [apply anc_refl|]. done.
Qed.

(** the state after [remove_chain] took [p] and its ancestors down to [t] out of [C] *)
Section Removed.
Variables (s : store) (C : gset ptr) (U : list (ptr * ptr)) (i : option ptr) (p t : ptr) (b bt : CBlockIndex) (s' : store) (C1 : gset ptr).
Hypothesis Hfound : found_to st0 s C.
Hypothesis Hs : store_ok s.
Hypothesis Hb : s !! p = Some b.
Hypothesis Ht : s !! t = Some bt.
Hypothesis Hpt : anc s p t.
Hypothesis Hoff : ~ on_main s0 v t.
Hypothesis Hbad : failed bt = true \/ have_data bt = false.
Hypothesis Hrem : removed_to (rebuild st0 s C U i) p t bt t s' C1.

Lemma removed_same : stored same_node s0 s.
Proof. apply kept_same, (stored_sub _ _ _ _ marked_kept), (found_marked _ _ _ Hfound). Qed.

Lemma removed_anc r : anc s r t -> unusable s0 v r.
Proof.
  intros Hr%(anc_same s0 s r t removed_same). apply (unusable_anc r t Hr), (found_bad _ _ _ Hfound); [by exists bt | done].
Qed.

Lemma removed_gone r : r ∈ C -> r ∉ C1 ∖ {[t]} -> anc s p r /\ anc s r t.
Proof.
  intros Hr Hr'. destruct (decide (r = t)) as [->|]; [split; [done | apply anc_refl]|].
  apply (rem_only _ _ _ _ _ _ _ Hrem); [done|]. set_solver.
Qed.

Lemma removed_failed r : r ∈ C -> r ∉ C1 ∖ {[t]} ->
  (forall c, s' !! r = Some c -> failed c = true) \/ exists q c, anc s0 r q /\ s0 !! q = Some c /\ have_data c = false.
Proof.
  intros Hr Hr'. destruct (removed_gone r Hr Hr') as [Hpr Hrt]. destruct (failed bt) eqn:Ef.
  - left. intros c Hc. pose proof (rem_marked _ _ _ _ _ _ _ Hrem) as Rm. simpl in Rm. destruct (decide (r = t)) as [->|Hne].
    + destruct (stored_fwd _ _ _ _ _ Rm Ht) as (c' & Hc' & Hmc). apply marked_kept in Hmc.
      rewrite Hc in Hc'. injection Hc' as <-. by apply (kept_failed _ _ Hmc).
    + destruct (rem_gone _ _ _ _ _ _ _ Hrem r Hpr) as [Htr|[_ H]]; [|by apply (H Ef)]. exfalso. apply Hne.
      destruct (anc_store s Hs p b r Hb Hpr) as (cr & Hcr & _). by apply (anc_antisym s Hs r cr).
  - right. destruct Hbad as [?|Hd]; [congruence|].
    destruct (stored_bwd _ _ _ _ _ (stored_sub _ _ _ _ marked_kept (found_marked _ _ _ Hfound)) Ht) as (c & Hc & [_ _ Ed _ _]).
    exists t, c. split; [by apply (anc_same s0 s _ _ removed_same)|]. split; [done|congruence].
Qed.

Lemma removed_found : found_to st0 s' (C1 ∖ {[t]}).
Proof.
  pose proof Hfound as [Hm Hsub Hout Hbad0 Hfail Hnew]. pose proof Hrem as [_ Rm Rsub _ _ Rnew]. simpl in Rm, Rsub, Rnew. split.
  - by etrans.
  - set_solver.
  - intros r Hr Hr'. destruct (decide (r ∈ C)) as [HC|HC]; [|by apply Hout]. by apply removed_anc, removed_gone.
  - intros r (c & Hc & Hrb) Hr. destruct (stored_bwd _ _ _ _ _ Rm Hc) as (c1 & Hc1 & _).
    destruct (Rnew r c1 c Hc1 Hc) as [->|(_ & _ & Hrt)]; [apply Hbad0; [by exists c1 | done] | by apply removed_anc].
  - intros r Hr Hr'. destruct (decide (r ∈ C)) as [HC|HC]; [by apply removed_failed|].
    destruct (Hfail r Hr HC) as [Hf|?]; [left|by right]. intros c Hc. destruct (stored_bwd _ _ _ _ _ Rm Hc) as (c1 & Hc1 & Hmc).
    apply marked_kept in Hmc. by apply (kept_failed _ _ Hmc), Hf.
  - intros r c c' Hc Hc'. destruct (stored_bwd _ _ _ _ _ Rm Hc') as (c1 & Hc1 & _).
    destruct (Rnew r c1 c' Hc1 Hc') as [->|(Hf & _ & Hrt)]; [by apply (Hnew r c c1)|]. right.
    destruct (found_cause s C t bt Hfound Ht Hf Hoff) as (q & d & Hq & ?). exists q, d. split; [|done].
    apply (anc_trans s0 r t q); [|done]. by apply (anc_same s0 s _ _ removed_same).
Qed.

Lemma removed_shrinks : C1 ∖ {[t]} ⊆ C ∖ {[p]}.
Proof.
  pose proof (rem_sub _ _ _ _ _ _ _ Hrem) as Rsub. simpl in Rsub. intros r Hr. apply elem_of_difference.
  split; [set_solver|]. intros ->%elem_of_singleton.
  destruct (rem_gone _ _ _ _ _ _ _ Hrem p (anc_refl s p)) as [Htp|[H _]]; [|set_solver].
  assert (p = t) as <- by (by apply (anc_antisym s Hs p b)). set_solver.
Qed.
End Removed.

Lemma found_remove s C U i p b t : found_to st0 s C -> find_ok (rebuild st0 s C U i) -> p ∈ C -> s !! p = Some b ->
  anc s p t -> ~ on_main s v t -> bad s t ->
  exists s' C' U' i', remove_chain p t (rebuild st0 s C U i) = Some (rebuild st0 s' C' U' i') /\
    found_to st0 s' C' /\ find_ok (rebuild st0 s' C' U' i') /\ C' ⊆ C ∖ {[p]} /\
    (U' = U \/ exists c, s !! t = Some c /\ have_data c = false).
Proof.
  intros Hfound Hfok Hp Hb Hpt Hoff (bt & Ht & Hbad). pose proof (find_store _ Hfok) as Hs. simpl in Hs.
  unfold remove_chain. change (objects (rebuild st0 s C U i)) with s. rewrite Hb, Ht. cbn [mbind option_bind]. cbv zeta.
  assert (Hi : exists i', (if failed bt then note_invalid p (rebuild st0 s C U i) else Some (rebuild st0 s C U i)) =
      Some (rebuild st0 s C U i') /\ forall q, i' = Some q -> is_Some (s !! q)).
  { destruct (failed bt); [|exists i; split; [done | apply (find_invalid _ Hfok)]].
    destruct (note_invalid_spec (rebuild st0 s C U i) p Hs ltac:(by exists b) (find_invalid _ Hfok)) as (i' & -> & ?). by exists i'. }
  destruct Hi as (i' & -> & Hi'). cbn [mbind option_bind].
  destruct (remove_loop (rebuild st0 s C U i') p t b bt Hs Hb Ht Hpt) as (s' & C1 & U' & -> & HU & Hrem).
  cbn [mbind option_bind]. simpl. exists s', (C1 ∖ {[t]}), U', i'. split; [done|].
  rewrite <- (on_main_same s0 s _ _ (removed_same s C Hfound)) in Hoff.
  split; [by apply (removed_found s C U i' p t b bt)|]. split; [|split; [by apply (removed_shrinks s C U i' p t b bt s' C1) |
    destruct (failed bt) eqn:Ef; [left; by apply HU | right; exists bt; by destruct Hbad]]].
  pose proof (rem_sub _ _ _ _ _ _ _ Hrem) as Rsub. simpl in Rsub.
  apply (find_ok_marked (rebuild st0 s C U i)); simpl; [done | apply (rem_marked _ _ _ _ _ _ _ Hrem) | set_solver | done].
Qed.

(** data of an ancestor of a candidate was deleted *)
Definition missing_data : Prop :=
  exists p q c, p ∈ setBlockIndexCandidates st0 /\ anc s0 p q /\ s0 !! q = Some c /\ have_data c = false.

Definition find_inv (st : chain_state) : Prop :=
  exists s C U i, st = rebuild st0 s C U i /\ found_to st0 s C /\ find_ok st /\ (U = mapBlocksUnlinked st0 \/ missing_data).

(** the result, and what became of the state *)
Definition find_result (x : option (option ptr * chain_state)) : Prop :=
  exists r s C U i, x = Some (r, rebuild st0 s C U i) /\ found_to st0 s C /\ find_ok (rebuild st0 s C U i) /\
  (U = mapBlocksUnlinked st0 \/ missing_data) /\
  match r with
  | None => C = ∅
  | Some p => exists b, p ∈ C /\ s !! p = Some b /\ ~ unusable s v p /\
      forall q c, q ∈ C -> s !! q = Some c -> ~ worse (p, b) (q, c)
  end.

Lemma find_step_spec st : find_inv st ->
  match find_step st with
  | inl st' => find_inv st' /\ (size (setBlockIndexCandidates st') < size (setBlockIndexCandidates st))%nat
  | inr r => find_result r
  end.
Proof.
  intros (s & C & U & i & -> & Hfound & Hfok & HU). unfold find_step. pose proof Hfok as [Hs Hv HC _ Hl]. simpl in Hs, Hv, HC, Hl.
  change (objects (rebuild st0 s C U i)) with s. change (setBlockIndexCandidates (rebuild st0 s C U i)) with C.
  change (chainActive (rebuild st0 s C U i)) with v.
  destruct (greatest_spec s C Hs HC) as (r & -> & Hr). destruct r as [[p b]|]; [|by exists None, s, C, U, i].
  destruct Hr as (Hp & Hb & Hmax).
  destruct (test_loop s v p b Hs Hv Hb (fun q c => Hl p q c Hp)) as (x & -> & Hx). destruct x as [[t|]|]; [| |done].
  - destruct Hx as (Hpt & Hoff & Hbad).
    destruct (found_remove s C U i p b t Hfound Hfok Hp Hb Hpt Hoff Hbad) as (s' & C' & U' & i' & -> & Hf' & Hok' & Hsub & HU').
    split; [exists s', C', U', i'; do 3 (split; [done|])|].
    { destruct HU' as [->|(c & Hc & Hd)]; [done|]. right. pose proof (stored_sub _ _ _ _ marked_kept (found_marked _ _ _ Hfound)) as Hk.
      destruct (stored_bwd _ _ _ _ _ Hk Hc) as (a & Ha & [_ _ Ed _ _]). exists p, t, a. split; [by apply (found_sub _ _ _ Hfound)|].
      split; [by apply (anc_same s0 s _ _ (kept_same _ _ Hk))|]. split; [done|congruence]. } simpl. apply subset_size. set_solver.
  - exists (Some p), s, C, U, i. do 4 (split; [done|]). by exists b.
Qed.

Lemma find_loop : exists x, FindMostWorkChain st0 = x /\ find_result x.
Proof.
  unfold FindMostWorkChain.
  destruct (while_total find_step find_inv (fun st => size (setBlockIndexCandidates st)) find_result)
    with (fuel := S (size (setBlockIndexCandidates st0))) (s := st0) as (x & -> & Hx); [| | |lia|by exists x].
  - intros st st' Hi E. pose proof (find_step_spec st Hi) as H. by rewrite E in H.
  - intros st r Hi E. pose proof (find_step_spec st Hi) as H. by rewrite E in H.
  - eexists _, _, _, _. split; [apply rebuild_id|]. split; [|split; [done | by left]]. split; try done.
    + intros r Hr Hoff. exists r. split; [apply anc_refl | done].
    + intros r c c' H1 H2. left. congruence.
Qed.
End Find.
