(* ===== verification/ChainState.v ===== *)
(** * The invariant of the chain state (validation.cpp)

    What holds between the calls ([chain_state_ok]): the index is well formed, the
    active chain consists of linked, valid blocks, and every linked block that is not
    worse than the tip and not marked as failed is a candidate.  Then the parts of a
    reorganisation: [ConnectTip], [DisconnectTip], [InvalidBlockFound] and
    [PruneBlockIndexCandidates].  While the tip moves, the candidates are complete
    with respect to the best tip there has been ([searching]). *)

From S2P Require Import Chain ActiveChain BestChain Candidates.
From S2P Require Import Prelude ArithUint Compact.
#[local] Open Scope Z_scope.

(** ** The invariant *)

(** the verdicts are decisions, none is that the block may be corrupt or that the system
    failed, and every block can be undone *)
Class BlockValidationLaws (BV : BlockValidation) := {
  ConnectBlock_decides : forall p, match ConnectBlock p with Connected _ | Invalid false => True | _ => False end;
  can_disconnect_all : forall p, can_disconnect p = true;
}.

Definition connects {BV : BlockValidation} (p : ptr) : Prop := exists pos, ConnectBlock p = Connected pos.

(** bounds on the transactions of a block and on the height, such that the number of
    transactions up to a block fits 32 bits *)
Class Limits := {
  max_tx : Z;
  max_height : Z;
  limits_fit : max_tx * max_height < 2 ^ 32;
}.

Section Invariant.
Context {BV : BlockValidation} {LM : Limits}.

Definition linked (b : CBlockIndex) : Prop := nChainTx b <> 0.

(** the block came in and passed the checks that need no other block *)
Definition received (b : CBlockIndex) : Prop :=
  have_data b = true /\ BLOCK_VALID_TRANSACTIONS <= validity b /\ 0 < nTx b <= max_tx.

Record objects_ok (s : store) : Prop := {
  obj_received : forall p b, s !! p = Some b -> linked b -> received b;
  obj_count : forall p b, s !! p = Some b -> linked b -> 0 < nChainTx b <= max_tx * (nHeight b + 1);
  obj_parent : forall p b q c, s !! p = Some b -> linked b -> pprev b = Some q -> s !! q = Some c -> linked c;
  obj_work : forall p b q c, s !! p = Some b -> pprev b = Some q -> s !! q = Some c -> work c < work b;
  obj_height : forall p b, s !! p = Some b -> nHeight b < max_height;
  obj_genesis : forall p b, s !! p = Some b -> pprev b = None -> phashBlock b = Some hashGenesisBlock /\ connects p;
}.

Record core (st : chain_state) : Prop := {
  core_tree : index_ok (tree st);
  core_chain : chain_ok (objects st) (chainActive st);
  core_objects : objects_ok (objects st);
  core_main : forall p b, on_main (objects st) (chainActive st) p -> objects st !! p = Some b ->
    linked b /\ failed b = false /\ connects p;
  core_candidates : forall p, p ∈ setBlockIndexCandidates st -> exists b, objects st !! p = Some b /\ linked b;
  core_waiting : NoDup (map snd (mapBlocksUnlinked st)) /\ forall a p, (a, p) ∈ mapBlocksUnlinked st ->
    exists b, objects st !! p = Some b /\ pprev b = Some a /\ received b /\ nChainTx b = 0;
  core_invalid : forall p, pindexBestInvalid st = Some p -> is_Some (objects st !! p);
  core_failed : forall p, p ∈ g_failed_blocks st -> exists b, objects st !! p = Some b /\ has_flag b BLOCK_FAILED_VALID = true;
}.

(** every linked block that is not failed and not worse than the block [r] is a candidate *)
Definition complete (r : option ptr) (st : chain_state) : Prop :=
  forall p b, objects st !! p = Some b -> linked b -> failed b = false ->
    (forall q c, r = Some q -> objects st !! q = Some c -> ~ worse (p, b) (q, c)) ->
    p ∈ setBlockIndexCandidates st.

(** the invariant between the calls: nothing better than the tip is overlooked *)
Definition chain_state_ok (st : chain_state) : Prop := core st /\ complete (Tip (chainActive st)) st.

(** no ancestor is marked as failed *)
Definition clean (s : store) (p : ptr) : Prop := forall q c, anc s p q -> s !! q = Some c -> failed c = false.

(** *** Objects *)

Lemma core_store st : core st -> store_ok (objects st).
Proof. intros Hc. apply (index_store _ (core_tree _ Hc)). Qed.

Lemma received_held a b : held a b -> received a -> received b.
Proof. intros [_ [= Et _] Ed Hv] (? & ? & ?). unfold received. rewrite <- Ed, <- Et. split_and!; [done | lia..]. Qed.

Lemma linked_held a b : held a b -> linked a <-> linked b.
Proof. intros [_ [= _ E] _ _]. unfold linked. by rewrite E. Qed.

Lemma linked_kept a b : kept a b -> linked a <-> linked b.
Proof. intros H. by apply linked_held, kept_held. Qed.

Lemma objects_ok_held s s' : stored held s s' -> objects_ok s -> objects_ok s'.
Proof.
  intros Hk [H1 H2 H3 H4 H5 H6]. split.
  - intros p b Hb Hl. destruct (stored_bwd _ _ _ _ _ Hk Hb) as (a & Ha & Hab). apply (received_held a b Hab), (H1 p a Ha).
    by apply (linked_held a b).
  - intros p b Hb Hl. destruct (stored_bwd _ _ _ _ _ Hk Hb) as (a & Ha & Hab). pose proof (H2 p a Ha (proj2 (linked_held a b Hab) Hl)).
    destruct Hab as [[[= _ _ _ <-] _] [= _ <-] _ _]. done.
  - intros p b q c Hb Hl Hq Hc. destruct (stored_bwd _ _ _ _ _ Hk Hb) as (a & Ha & Hab).
    destruct (stored_bwd _ _ _ _ _ Hk Hc) as (d & Hd & Hdc). apply (linked_held d c Hdc).
    apply (H3 p a q d Ha); [by apply (linked_held a b) | | done]. destruct Hab as [[[= _ -> _ _] _] _ _ _]. done.
  - intros p b q c Hb Hq Hc. destruct (stored_bwd _ _ _ _ _ Hk Hb) as (a & Ha & [[[= _ Ea _ _] [= Wa _ _]] _ _ _]).
    destruct (stored_bwd _ _ _ _ _ Hk Hc) as (d & Hd & [[_ [= Wd _ _]] _ _ _]). unfold work in *. rewrite <- Wa, <- Wd.
    apply (H4 p a q d Ha); [congruence | done].
  - intros p b Hb. destruct (stored_bwd _ _ _ _ _ Hk Hb) as (a & Ha & [[[= _ _ _ <-] _] _ _ _]). by apply (H5 p).
  - intros p b Hb Hn. destruct (stored_bwd _ _ _ _ _ Hk Hb) as (a & Ha & [[[= <- Ea _ _] _] _ _ _]). apply (H6 p a Ha). congruence.
Qed.

Lemma index_ok_kept t t' : index_ok t -> stored same_node (index t) (index t') ->
  mapBlockIndex t' = mapBlockIndex t -> mapPrevBlockIndex t' = mapPrevBlockIndex t ->
  (forall q, pindexBestHeader t' = Some q -> is_Some (index t' !! q)) -> index_ok t'.
Proof.
  intros [H1 H2 H3 H4 H5] Hs Em Ep Hb.
  assert (Hiff : forall (P : CBlockIndex -> Prop), (forall a b, same_node a b -> P a <-> P b) -> forall p,
    (exists b, index t !! p = Some b /\ P b) <-> (exists b, index t' !! p = Some b /\ P b)).
  { intros P HP p. split; intros (b & Hb' & Hpb).
    - destruct (stored_fwd _ _ _ _ _ Hs Hb') as (c & Hc & Hbc). exists c. split; [done|]. by apply (HP b c).
    - destruct (stored_bwd _ _ _ _ _ Hs Hb') as (c & Hc & Hbc). exists c. split; [done|]. by apply (HP c b). }
  assert (Hh : forall h a b, same_node a b -> phashBlock a = Some h <-> phashBlock b = Some h) by (intros h a b [[= -> _ _ _] _]; done).
  assert (Hq : forall q a b, same_node a b -> pprev a = Some q <-> pprev b = Some q) by (intros q a b [[= _ -> _ _] _]; done).
  split.
  - by apply (store_ok_same (index t)).
  - intros h p. rewrite Em, H2. apply (Hiff (fun b => phashBlock b = Some h)), Hh.
  - intros p b Hb'. destruct (stored_bwd _ _ _ _ _ Hs Hb') as (a & Ha & [[= <- _ _ _] _]). by apply (H3 p).
  - done.
  - intros h p. rewrite Ep, H5. split; intros (b & q & c & Hb' & Hqb & Hc & Hhc).
    + destruct (proj1 (Hiff _ (Hq q) p) (ex_intro _ b (conj Hb' Hqb))) as (b' & ? & ?).
      destruct (proj1 (Hiff _ (Hh h) q) (ex_intro _ c (conj Hc Hhc))) as (c' & ? & ?). by exists b', q, c'.
    + destruct (proj2 (Hiff _ (Hq q) p) (ex_intro _ b (conj Hb' Hqb))) as (b' & ? & ?).
      destruct (proj2 (Hiff _ (Hh h) q) (ex_intro _ c (conj Hc Hhc))) as (c' & ? & ?). by exists b', q, c'.
Qed.

(** what has to be shown of a function that links no block *)
Lemma core_held st st' : core st -> stored held (objects st) (objects st') ->
  mapBlockIndex (tree st') = mapBlockIndex (tree st) -> mapPrevBlockIndex (tree st') = mapPrevBlockIndex (tree st) ->
  (forall q, pindexBestHeader (tree st') = Some q -> is_Some (objects st !! q)) ->
  (forall p, p ∈ setBlockIndexCandidates st' -> exists b, objects st !! p = Some b /\ linked b) -> mapBlocksUnlinked st' = mapBlocksUnlinked st ->
  (forall p, pindexBestInvalid st' = Some p -> is_Some (objects st !! p)) ->
  (forall p, p ∈ g_failed_blocks st' -> exists b, objects st' !! p = Some b /\ has_flag b BLOCK_FAILED_VALID = true) ->
  chain_ok (objects st) (chainActive st') ->
  (forall p b, on_main (objects st) (chainActive st') p -> objects st' !! p = Some b -> linked b /\ failed b = false /\ connects p) ->
  core st'.
Proof.
  intros [H1 H2 H3 H4 H5 H6 H7 H8] Hk Em Ep Hbest HC HU Hi Hf Hv Hmain. pose proof (held_same _ _ Hk) as Hs.
  assert (Hin : forall p, is_Some (objects st !! p) -> is_Some (objects st' !! p)).
  { intros p [b Hb]. destruct (stored_fwd _ _ _ _ _ Hs Hb) as (c & -> & _). done. }
  split; auto.
  - apply (index_ok_kept (tree st)); auto.
  - by apply (chain_ok_same (objects st)).
  - by apply (objects_ok_held (objects st)).
  - intros p b Hp. apply Hmain. by rewrite (on_main_same _ _ _ _ Hs).
  - intros p Hp. destruct (HC p Hp) as (b & Hb & Hl). destruct (stored_fwd _ _ _ _ _ Hk Hb) as (c & Hc & Hbc).
    exists c. split; [done|]. by apply (linked_held b c).
  - rewrite HU. destruct H6 as [Hnd Hw]. split; [done|]. intros a p Hp. destruct (Hw a p Hp) as (b & Hb & Hpb & Hrb & Hl).
    destruct (stored_fwd _ _ _ _ _ Hk Hb) as (c & Hc & Hbc). exists c. split; [done|]. pose proof (received_held b c Hbc Hrb).
    destruct Hbc as [[[= _ <- _ _] _] [= _ <-] _ _]. done.
Qed.

(** ... that only moves the tip and marks blocks *)
Lemma core_kept st st' : core st -> stored kept (objects st) (objects st') ->
  mapBlockIndex (tree st') = mapBlockIndex (tree st) -> mapPrevBlockIndex (tree st') = mapPrevBlockIndex (tree st) ->
  (forall q, pindexBestHeader (tree st') = Some q -> is_Some (objects st !! q)) ->
  setBlockIndexCandidates st' ⊆ setBlockIndexCandidates st -> mapBlocksUnlinked st' = mapBlocksUnlinked st ->
  (forall p, pindexBestInvalid st' = Some p -> is_Some (objects st !! p)) ->
  (forall p, p ∈ g_failed_blocks st' -> p ∈ g_failed_blocks st \/ exists b, objects st' !! p = Some b /\ has_flag b BLOCK_FAILED_VALID = true) ->
  chain_ok (objects st) (chainActive st') ->
  (forall p b, on_main (objects st) (chainActive st') p -> objects st' !! p = Some b -> linked b /\ failed b = false /\ connects p) ->
  core st'.
Proof.
  intros Hc Hk Em Ep Hbest HC HU Hi Hf Hv Hmain. apply (core_held st); auto; [by apply kept_stored | |].
  - intros p Hp. by apply (core_candidates _ Hc), HC.
  - intros p Hp. destruct (Hf p Hp) as [Hin|?]; [|done]. destruct (core_failed _ Hc p Hin) as (b & Hb & Hfb).
    destruct (stored_fwd _ _ _ _ _ Hk Hb) as (c & Hcp & Hbc). exists c. split; [done|]. apply (kept_flags _ _ Hbc); auto.
Qed.
End Invariant.

Section Moves.
Context {BV : BlockValidation} {BL : BlockValidationLaws BV} {LM : Limits}.

(** ** The tip *)

Lemma tip_nil v : Tip v = None -> v = [] \/ last v = Some None.
Proof. unfold Tip. destruct (last v) as [[x|]|] eqn:E; simpl; [done | by right |]. intros _. left. by apply last_None. Qed.

Lemma tip_none s v : chain_ok s v -> Tip v = None -> v = [].
Proof.
  intros Hv [?|E]%tip_nil; [done|]. rewrite last_lookup in E. destruct (Hv (pred (length v))) as (p & b & Hp & _); [|congruence].
  apply lookup_lt_Some in E. done.
Qed.

Lemma tip_some s v t : chain_ok s v -> Tip v = Some t -> exists b, s !! t = Some b /\ zlen v = nHeight b + 1 /\ at_height v (nHeight b) = Some t.
Proof.
  intros Hv E. unfold Tip in E. destruct (last v) as [x|] eqn:El; [|done]. simpl in E. subst x. rewrite last_lookup in El.
  pose proof (lookup_lt_Some _ _ _ El) as Hlt. destruct (Hv _ Hlt) as (p & b & Hp & Hb & Hh & _).
  rewrite El in Hp. injection Hp as <-. exists b. split; [done|]. split; [lia|]. unfold at_height.
  rewrite Z.geb_leb, (proj2 (Z.ltb_ge _ _)), (proj2 (Z.leb_gt _ _)) by lia. simpl. rewrite Hh, Nat2Z.id, El. done.
Qed.

(** the active chain is the tip and its ancestors *)
Lemma main_tip s v t p : store_ok s -> chain_ok s v -> Tip v = Some t -> on_main s v p <-> anc s t p.
Proof.
  intros Hs Hv Ht. destruct (tip_some s v t Hv Ht) as (b & Hb & Hlen & Hat). split.
  - intros (c & Hc & Hp). pose proof (chain_at v _ _ Hp) as [Hr _].
    destruct (chain_ancestor s v (nHeight b) t (nHeight c) Hv Hat) as (g & Hg & Ha); [lia|]. rewrite Hp in Hg. injection Hg as <-.
    apply (anc_ancestor s Hs t b p Hb). eauto.
  - apply (main_anc s Hs v t p Hv). by exists b.
Qed.

Lemma main_none s v p : chain_ok s v -> Tip v = None -> ~ on_main s v p.
Proof. intros Hv ->%(tip_none s v Hv) (c & _ & Hp). apply chain_at in Hp as [? _]. simpl in *. lia. Qed.

Lemma SetTip_to s v p b : store_ok s -> chain_ok s v -> s !! p = Some b ->
  exists v', SetTip s v (Some p) = Some v' /\ chain_ok s v' /\ Tip v' = Some p.
Proof.
  intros Hs Hv Hb. destruct (SetTip_spec s v p b Hs Hv Hb) as (v' & E & Hv' & Hl). exists v'. split; [done|]. split; [done|].
  unfold Tip. by rewrite Hl.
Qed.
(** ** Marks that validation leaves *)

Lemma RaiseValidity_spec b n : failed b = false -> n = BLOCK_VALID_TRANSACTIONS \/ n = BLOCK_VALID_SCRIPTS ->
  exists r x, RaiseValidity (nStatus b) n = Some (r, x) /\ Z.land x BLOCK_VALID_MASK = Z.max (validity b) n /\
    forall g, Z.land BLOCK_VALID_MASK g = 0 -> Z.land x g = Z.land (nStatus b) g.
Proof.
  intros Hf Hn. unfold RaiseValidity. unfold has_flag in Hf. rewrite Hf.
  replace (negb (Z.land n (Z.lnot BLOCK_VALID_MASK) =? 0)) with false by (by destruct Hn as [->| ->]).
  destruct (Z.ltb_spec (validity b) n).
  - eexists _, _. split; [done|]. split.
    + rewrite Z.land_lor_distr_l, <- Z.land_assoc. change (Z.land (Z.lnot BLOCK_VALID_MASK) BLOCK_VALID_MASK) with 0.
      rewrite Z.land_0_r, Z.lor_0_l. replace (Z.land n BLOCK_VALID_MASK) with n by (by destruct Hn as [->| ->]). lia.
    + intros g Hg. rewrite Z.land_lor_distr_l, <- Z.land_assoc.
      assert (Hng : Z.land (Z.lnot BLOCK_VALID_MASK) g = g).
      { apply Z.bits_inj'. intros i Hi. rewrite Z.land_spec, Z.lnot_spec by done. pose proof (f_equal (fun z => Z.testbit z i) Hg) as E.
        simpl in E. rewrite Z.land_spec, Z.bits_0 in E. by destruct (Z.testbit BLOCK_VALID_MASK i), (Z.testbit g i). }
      assert (Hn7 : Z.land n g = 0).
      { replace n with (Z.land n BLOCK_VALID_MASK) by (by destruct Hn as [->| ->]). by rewrite <- Z.land_assoc, Hg, Z.land_0_r. }
      by rewrite Hng, Hn7, Z.lor_0_r.
  - eexists _, _. split; [done|]. split; [lia|done].
Qed.

(** [ConnectBlock] raises the validity of a block that is not failed *)
Lemma connected_spec p pos b st : objects st !! p = Some b -> failed b = false ->
  exists st', connected p pos b st = Some st' /\
    (st' = st \/ exists b', kept b b' /\ failed b' = false /\ st' = dirty p (modify p (fun _ => b') st)).
Proof.
  intros Hb Hf. unfold connected. case_bool_decide; [by exists st; auto|].
  assert (Hv : exists v, IsValid (nStatus b) BLOCK_VALID_SCRIPTS = Some v).
  { unfold IsValid. change (negb (Z.land BLOCK_VALID_SCRIPTS (Z.lnot BLOCK_VALID_MASK) =? 0)) with false. cbv iota.
    destruct (negb _); eauto. }
  destruct Hv as [v ->]. cbn [mbind option_bind]. destruct (_ || _); [|by exists st; auto].
  set (b1 := if has_flag b BLOCK_HAVE_UNDO then b else or_status BLOCK_HAVE_UNDO (set_undo pos b)).
  assert (Hk1 : kept b b1 /\ failed b1 = false).
  { unfold b1. destruct (has_flag b BLOCK_HAVE_UNDO); [done|]. split.
    - transitivity (set_undo pos b); [done|]. by apply or_status_kept.
    - rewrite has_flag_or. change (has_flag (set_undo pos b) BLOCK_FAILED_MASK) with (failed b). by rewrite Hf. }
  destruct Hk1 as [Hk1 Hf1]. cbv zeta. destruct (RaiseValidity_spec b1 BLOCK_VALID_SCRIPTS Hf1 ltac:(by right)) as (r & x & -> & Hval & Hflag).
  cbn [mbind option_bind snd]. eexists. split; [done|]. right. exists (set_status x b1). split; [|split; [|done]].
  - transitivity b1; [done|]. split; [done | done | | simpl; lia |].
    + unfold has_flag. simpl. by rewrite (Hflag BLOCK_HAVE_DATA eq_refl).
    + intros flag Hfl. unfold has_flag. simpl. rewrite (Hflag flag); [done|]. by destruct Hfl as [->| ->].
  - unfold has_flag. simpl. rewrite (Hflag BLOCK_FAILED_MASK eq_refl). exact Hf1.
Qed.

(** *** DisconnectTip *)

Lemma DisconnectTip_spec st p b q : core st -> Tip (chainActive st) = Some p -> objects st !! p = Some b -> pprev b = Some q ->
  exists v, DisconnectTip st = Some (true, set_chain v st) /\ core (set_chain v st) /\ Tip v = Some q.
Proof.
  intros Hc Ht Hb Hq. pose proof (core_store _ Hc) as Hs. pose proof (core_chain _ Hc) as Hv. unfold DisconnectTip. rewrite Ht. cbn [mbind option_bind].
  rewrite Hb. cbn [mbind option_bind].
  assert (Hp : on_main (objects st) (chainActive st) p) by (apply (main_tip _ _ p); [done.. | apply anc_refl]).
  destruct (core_main _ Hc p b Hp Hb) as (Hl & _ & _). destruct (obj_received _ (core_objects _ Hc) p b Hb Hl) as (-> & _).
  rewrite can_disconnect_all. simpl. rewrite Hq.
  pose proof (parent_height _ p b Hs Hb) as Hpar. rewrite Hq in Hpar. destruct Hpar as (c & Hcq & _).
  destruct (SetTip_to _ _ q c Hs Hv Hcq) as (v1 & -> & Hv1 & _). cbn [mbind option_bind]. unfold UpdateTip. cbn [chainActive set_chain tree].
  destruct (SetTip_to _ _ q c Hs Hv1 Hcq) as (v2 & -> & Hv2 & Ht2). cbn [mbind option_bind]. rewrite Ht2. cbn [mbind option_bind].
  exists v2. split; [done|]. split; [|done].
  apply (core_kept st); simpl; try done; [apply (index_best_in _ (core_tree _ Hc)) | apply (core_invalid _ Hc) | by left |].
  intros x bx Hx. apply (core_main _ Hc). apply (main_tip _ _ q) in Hx; [|done..]. apply (main_tip _ _ p); [done..|].
  by apply (anc_step _ p b q).
Qed.

(** *** ConnectTip *)

(** validation has not found the block invalid *)
Definition steady (a b : CBlockIndex) : Prop := kept a b /\ failed a = failed b.

#[export] Instance steady_preorder : PreOrder steady.
Proof. split; [done|]. intros a b c [? ?] [? ?]. split; [by etrans | congruence]. Qed.

Lemma steady_kept s s' : stored steady s s' -> stored kept s s'.
Proof. apply stored_sub. by intros a b []. Qed.

(** the block above the tip is not on the chain *)
Lemma above_tip_off st p b : core st -> objects st !! p = Some b -> pprev b = Tip (chainActive st) ->
  ~ on_main (objects st) (chainActive st) p.
Proof.
  intros Hc Hb Hp Hm. pose proof (core_store _ Hc) as Hs. pose proof (core_chain _ Hc) as Hv.
  destruct (Tip (chainActive st)) as [t|] eqn:Ht; [|by apply (main_none _ _ p Hv Ht)].
  apply (main_tip _ _ t p Hs Hv Ht) in Hm. destruct (tip_some _ _ t Hv Ht) as (c & Hct & _).
  destruct (anc_store _ Hs t c p Hct Hm) as (b' & Hb' & Hle & _). rewrite Hb in Hb'. injection Hb' as <-.
  pose proof (parent_height _ p b Hs Hb) as Hpar. rewrite Hp in Hpar. destruct Hpar as (c' & Hc' & ? & _).
  rewrite Hct in Hc'. injection Hc' as <-. lia.
Qed.

Lemma ConnectTip_connected st p b pos : core st -> objects st !! p = Some b -> pprev b = Tip (chainActive st) ->
  linked b -> failed b = false -> ConnectBlock p = Connected pos ->
  exists st', ConnectTip p st = Some (Connected pos, st') /\ core st' /\ Tip (chainActive st') = Some p /\
    stored steady (objects st) (objects st') /\ setBlockIndexCandidates st' = setBlockIndexCandidates st.
Proof.
  intros Hc Hb Hp Hl Hf Hcon. pose proof (core_store _ Hc) as Hs. pose proof (core_chain _ Hc) as Hv.
  unfold ConnectTip. rewrite Hb. cbn [mbind option_bind]. rewrite bool_decide_true by done. simpl. rewrite Hcon.
  destruct (connected_spec p pos b st Hb Hf) as (st1 & -> & Hst1). cbn [mbind option_bind].
  assert (H1 : stored steady (objects st) (objects st1) /\ mapBlockIndex (tree st1) = mapBlockIndex (tree st) /\
    mapPrevBlockIndex (tree st1) = mapPrevBlockIndex (tree st) /\ pindexBestHeader (tree st1) = pindexBestHeader (tree st) /\
    setBlockIndexCandidates st1 = setBlockIndexCandidates st /\ mapBlocksUnlinked st1 = mapBlocksUnlinked st /\
    pindexBestInvalid st1 = pindexBestInvalid st /\ g_failed_blocks st1 = g_failed_blocks st /\ chainActive st1 = chainActive st).
  { destruct Hst1 as [->|(b' & Hk & Hf' & ->)]; [done|]. split; [|done]. simpl. apply stored_alter; [apply _|].
    intros b0 Hb0. rewrite Hb in Hb0. injection Hb0 as <-. split; [done|congruence]. }
  destruct H1 as (Hst & Em & Ep & Ebh & EC & EU & Ei & Ef & Ev). pose proof (steady_kept _ _ Hst) as Hk. pose proof (kept_same _ _ Hk) as Hsame.
  destruct (stored_fwd _ _ _ _ _ Hst Hb) as (b1 & Hb1 & _). unfold UpdateTip. rewrite Ev.
  destruct (SetTip_to (objects st1) (chainActive st) p b1) as (v & -> & Hv' & Ht'); [by apply (store_ok_same (objects st)) | by apply (chain_ok_same (objects st)) | done |].
  cbn [mbind option_bind]. rewrite Ht'. cbn [mbind option_bind]. eexists. split; [done|]. simpl. split; [|done].
  assert (Hv0 : chain_ok (objects st) v) by (apply (chain_ok_same (objects st1)); [by symmetry | done]).
  apply (core_kept st); simpl; try done; [rewrite Ebh; apply (index_best_in _ (core_tree _ Hc)) | by rewrite EC | rewrite Ei; apply (core_invalid _ Hc) | rewrite Ef; by left |].
  intros x bx Hx Hbx. apply (main_tip _ _ p) in Hx; [|done..]. destruct (stored_bwd _ _ _ _ _ Hst Hbx) as (a & Ha & [Hka Hfa]).
  apply anc_inv in Hx as [->|(b0 & t & Hb0 & Ht & Hx)].
  - rewrite Hb in Ha. injection Ha as <-. split; [by apply (linked_kept b bx)|]. split; [congruence|]. by exists pos.
  - rewrite Hb in Hb0. injection Hb0 as <-. rewrite Hp in Ht.
    destruct (core_main _ Hc x a) as (? & ? & ?); [by apply (main_tip _ _ t) | done |].
    split; [by apply (linked_kept a bx)|]. split; [congruence | done].
Qed.

Lemma InvalidChainFound_spec st p : core st -> is_Some (objects st !! p) -> is_Some (Tip (chainActive st)) ->
  exists i, InvalidChainFound p st = Some (set_best_invalid i st) /\ core (set_best_invalid i st).
Proof.
  intros Hc Hp [t Ht]. destruct (note_invalid_spec st p (core_store _ Hc) Hp (core_invalid _ Hc)) as (i & E & Hi).
  unfold InvalidChainFound. rewrite E. cbn [mbind option_bind chainActive set_best_invalid]. rewrite Ht. cbn [mbind option_bind].
  exists i. split; [done|].
  apply (core_kept st); simpl; try done; [apply (index_best_in _ (core_tree _ Hc)) | by left | apply (core_chain _ Hc) | apply (core_main _ Hc)].
Qed.

(** marking a block that is not on the chain as failed *)
Definition fail_block (p : ptr) (st : chain_state) : chain_state :=
  erase p (dirty p (on_failed (fun F => {[p]} ∪ F) (modify p (or_status BLOCK_FAILED_VALID) st))).

Lemma or_failed_valid b : failed (or_status BLOCK_FAILED_VALID b) = true.
Proof. rewrite has_flag_or. apply orb_true_r. Qed.

Lemma fail_block_core st p b : core st -> objects st !! p = Some b -> ~ on_main (objects st) (chainActive st) p -> core (fail_block p st).
Proof.
  intros Hc Hb Hoff. apply (core_kept st); simpl; try done.
  - apply stored_alter; [apply _|]. intros b' _. by apply or_status_kept.
  - apply (index_best_in _ (core_tree _ Hc)).
  - set_solver.
  - apply (core_invalid _ Hc).
  - intros q [->%elem_of_singleton|Hq]%elem_of_union; [|by left]. right. rewrite lookup_alter_eq, Hb. simpl. eexists. split; [done|].
    rewrite has_flag_or. apply orb_true_r.
  - apply (core_chain _ Hc).
  - intros q c Hq Hcq. rewrite lookup_alter_ne in Hcq by congruence. by apply (core_main _ Hc).
Qed.

Lemma ConnectTip_invalid st p b : core st -> objects st !! p = Some b -> pprev b = Tip (chainActive st) ->
  is_Some (Tip (chainActive st)) -> ConnectBlock p = Invalid false ->
  exists st', ConnectTip p st = Some (Invalid false, st') /\ core st' /\ chainActive st' = chainActive st /\
    objects st' = alter (or_status BLOCK_FAILED_VALID) p (objects st) /\
    setBlockIndexCandidates st' = setBlockIndexCandidates st ∖ {[p]}.
Proof.
  intros Hc Hb Hp Ht Hcon. unfold ConnectTip. rewrite Hb. cbn [mbind option_bind]. rewrite bool_decide_true by done. simpl. rewrite Hcon.
  unfold InvalidBlockFound. fold (fail_block p st). pose proof (fail_block_core st p b Hc Hb (above_tip_off st p b Hc Hb Hp)) as Hc'.
  destruct (InvalidChainFound_spec (fail_block p st) p Hc') as (i & -> & Hc''); [simpl; rewrite lookup_alter_eq, Hb; simpl; eauto | done |].
  cbn [mbind option_bind]. by eexists.
Qed.

(** *** PruneBlockIndexCandidates *)

Lemma Prune_spec st x bx : core st -> Tip (chainActive st) = Some x -> objects st !! x = Some bx ->
  (exists p b, p ∈ setBlockIndexCandidates st /\ objects st !! p = Some b /\ ~ worse (p, b) (x, bx)) ->
  exists C, PruneBlockIndexCandidates st = Some (on_candidates (fun _ => C) st) /\ core (on_candidates (fun _ => C) st) /\
    forall p, p ∈ C <-> p ∈ setBlockIndexCandidates st /\ forall b, objects st !! p = Some b -> ~ worse (p, b) (x, bx).
Proof.
  intros Hc Ht Hx (p0 & b0 & Hp0 & Hb0 & Hw0). pose proof (core_store _ Hc) as Hs. unfold PruneBlockIndexCandidates. rewrite Ht. cbn [mbind option_bind].
  rewrite Hx. cbn [mbind option_bind].
  destruct (set_entries_spec (objects st) (setBlockIndexCandidates st)) as (l & -> & Hl & _).
  { intros p Hp. destruct (core_candidates _ Hc p Hp) as (b & -> & _). eauto. }
  cbn [mbind option_bind]. set (kept := base.filter _ l).
  assert (Hwo : forall p b, objects st !! p = Some b -> work_ok b) by (intros p b Hb; apply (node_work _ _ (Hs p b Hb))).
  assert (Hk : forall p b, (p, b) ∈ kept <-> p ∈ setBlockIndexCandidates st /\ objects st !! p = Some b /\ ~ worse (p, b) (x, bx)).
  { intros p b. unfold kept. rewrite list_elem_of_filter, Hl. split.
    - intros [E [Hp Hb]]. split; [done|]. split; [done|]. apply comparator_false in E; simpl; eauto.
    - intros (Hp & Hb & Hw). split; [|done]. apply comparator_false; simpl; eauto. }
  assert (Hin : (p0, b0) ∈ kept) by (by apply Hk). destruct kept as [|y k] eqn:Ek; [by apply not_elem_of_nil in Hin|].
  rewrite <- Ek in *. clear Ek y k. exists (list_to_set (map fst kept)). split; [done|].
  assert (HC : forall p, p ∈ (list_to_set (map fst kept) : gset ptr) <->
    p ∈ setBlockIndexCandidates st /\ forall b, objects st !! p = Some b -> ~ worse (p, b) (x, bx)).
  { intros p. rewrite elem_of_list_to_set, list_elem_of_fmap. split.
    - intros ([q b] & -> & Hq). apply Hk in Hq as (Hp & Hb & Hw). simpl. split; [done|]. intros b' Hb'. congruence.
    - intros [Hp Hw]. destruct (core_candidates _ Hc p Hp) as (b & Hb & _). exists (p, b). split; [done|]. apply Hk. auto. }
  split; [|done]. apply (core_kept st); simpl; try done; [apply (index_best_in _ (core_tree _ Hc)) | intros p Hp; by apply HC | apply (core_invalid _ Hc) | by left | apply (core_chain _ Hc) | apply (core_main _ Hc)].
Qed.
End Moves.

Section Search.
Context {BV : BlockValidation} {BL : BlockValidationLaws BV} {LM : Limits}.

(** ** The reference of a search

    While the tip moves, the candidates are complete with respect to the best tip [r]
    there has been, which can be reached again. *)

Lemma linked_anc s p b q c : objects_ok s -> s !! p = Some b -> linked b -> anc s p q -> s !! q = Some c -> linked c.
Proof.
  intros Ho Hb Hl [n Hn] Hc. revert p b Hb Hl Hn. induction n as [|n IH]; intros p b Hb Hl Hn; simpl in Hn.
  - injection Hn as <-. congruence.
  - rewrite Hb in Hn. simpl in Hn. destruct (pprev b) as [r|] eqn:Er; [|done]. simpl in Hn. destruct (s !! r) as [d|] eqn:Hd.
    + apply (IH r d Hd); [by apply (obj_parent s Ho p b r d) | done].
    + destruct n; simpl in Hn; [|by rewrite Hd in Hn]. injection Hn as <-. congruence.
Qed.

Lemma anc_work s p b q c : store_ok s -> objects_ok s -> s !! p = Some b -> anc s p q -> s !! q = Some c -> q = p \/ work c < work b.
Proof.
  intros Hs Ho Hb [n Hn] Hc. revert p b Hb Hn. induction n as [|n IH]; intros p b Hb Hn; simpl in Hn; [left; congruence|].
  right. rewrite Hb in Hn. simpl in Hn. pose proof (parent_height s p b Hs Hb) as Hpar. destruct (pprev b) as [r|] eqn:Er; [|done].
  destruct Hpar as (d & Hd & _). simpl in Hn. pose proof (obj_work s Ho p b r d Hb Er Hd).
  destruct (IH r d Hd Hn) as [->|?]; [|lia]. rewrite Hd in Hc. injection Hc as <-. done.
Qed.

Lemma anc_not_worse s p b q c : store_ok s -> objects_ok s -> s !! p = Some b -> anc s p q -> s !! q = Some c -> ~ worse (p, b) (q, c).
Proof.
  intros Hs Ho Hb Ha Hc. destruct (anc_work s p b q c Hs Ho Hb Ha Hc) as [->|Hlt].
  - rewrite Hb in Hc. injection Hc as <-. apply worse_irrefl.
  - apply worse_not, less_work_worse, Hlt.
Qed.

Lemma clean_kept s s' p : stored kept s s' -> clean s' p -> clean s p.
Proof.
  intros Hk Hc q c Hq Hcq. destruct (stored_fwd _ _ _ _ _ Hk Hcq) as (d & Hd & Hcd).
  destruct (failed c) eqn:E; [|done]. rewrite <- (Hc q d); [by rewrite (kept_failed c d Hcd E) | by apply (anc_same s s'), Hq; apply kept_same | done].
Qed.

Lemma clean_steady s s' p : stored steady s s' -> clean s p -> clean s' p.
Proof.
  intros Hk Hc q c Hq Hcq. destruct (stored_bwd _ _ _ _ _ Hk Hcq) as (d & Hd & [_ <-]). apply (Hc q d); [|done].
  apply (anc_same s s'); [by apply kept_same, steady_kept | done].
Qed.

(** a block that is valid, with valid ancestors, is not marked *)
Definition spared (s s' : store) : Prop := forall p, clean s p -> (forall a, anc s p a -> connects a) -> clean s' p.

Lemma spared_steady s s' : stored steady s s' -> spared s s'.
Proof. intros Hs p Hc _. by apply (clean_steady s). Qed.
Lemma spared_trans s1 s2 s3 : stored same_node s1 s2 -> spared s1 s2 -> spared s2 s3 -> spared s1 s3.
Proof. intros Hs H1 H2 p Hc Ha. apply H2; [by apply H1|]. intros a Haa. apply Ha. by apply (anc_same s1 s2). Qed.

(** [r'] is as good as [r] *)
Definition ref_le (s : store) (r r' : option ptr) : Prop :=
  forall q c, r = Some q -> s !! q = Some c -> exists q' c', r' = Some q' /\ s !! q' = Some c' /\ ~ worse (q', c') (q, c).

(** the block of the reference is linked and valid with all its ancestors *)
Definition ref_safe (s : store) (r : option ptr) : Prop :=
  forall q, r = Some q -> exists c, s !! q = Some c /\ linked c /\ clean s q /\ forall a, anc s q a -> connects a.

Record searching (r : option ptr) (st : chain_state) : Prop := {
  search_core : core st;
  search_complete : complete r st;
  search_safe : ref_safe (objects st) r;
  search_tip : ref_le (objects st) (Tip (chainActive st)) r;
}.

(** the target of a step: linked, clean, and as good as the reference *)
Definition target (M : ptr) (r : option ptr) (s : store) : Prop :=
  exists m, s !! M = Some m /\ linked m /\ clean s M /\ ref_le s r (Some M).

Lemma ref_le_refl s r : ref_le s r r.
Proof. intros q c -> Hc. exists q, c. split; [done|]. split; [done|]. apply worse_irrefl. Qed.
Lemma ref_le_trans s r1 r2 r3 : ref_le s r1 r2 -> ref_le s r2 r3 -> ref_le s r1 r3.
Proof.
  intros H1 H2 q c Hq Hc. destruct (H1 q c Hq Hc) as (q' & c' & Hq' & Hc' & Hw). destruct (H2 q' c' Hq' Hc') as (q2 & c2 & ? & ? & Hw2).
  exists q2, c2. split; [done|]. split; [done|]. by apply (not_worse_trans _ (q', c')).
Qed.
Lemma ref_le_kept s s' r r' : stored kept s s' -> ref_le s r r' <-> ref_le s' r r'.
Proof.
  intros Hk. split; intros Hr q c Hq Hc.
  - destruct (stored_bwd _ _ _ _ _ Hk Hc) as (d & Hd & Hdc). destruct (Hr q d Hq Hd) as (q' & d' & Hq' & Hd' & Hw).
    destruct (stored_fwd _ _ _ _ _ Hk Hd') as (c' & Hc' & Hdc'). exists q', c'. rewrite <- (worse_kept q' d' c' q d c Hdc' Hdc). done.
  - destruct (stored_fwd _ _ _ _ _ Hk Hc) as (d & Hd & Hdc). destruct (Hr q d Hq Hd) as (q' & d' & Hq' & Hd' & Hw).
    destruct (stored_bwd _ _ _ _ _ Hk Hd') as (c' & Hc' & Hdc'). exists q', c'. rewrite (worse_kept q' c' d' q c d Hdc' Hdc). done.
Qed.

Lemma ref_safe_kept s s' r : stored kept s s' -> ref_safe s r -> (forall q, r = Some q -> clean s' q) -> ref_safe s' r.
Proof.
  intros Hk Hr Hc q Hq. destruct (Hr q Hq) as (c & Hcq & Hl & _ & Ha). destruct (stored_fwd _ _ _ _ _ Hk Hcq) as (d & Hd & Hcd).
  exists d. split; [done|]. split; [by apply (linked_kept c d)|]. split; [by apply Hc|]. intros a Haa. apply Ha.
  by apply (anc_same s s'), Haa; apply kept_same.
Qed.

(** completeness with respect to a better reference, after candidates were removed *)
Lemma complete_kept r r' st st' : complete r st -> stored kept (objects st) (objects st') -> ref_le (objects st') r r' ->
  (forall p b, p ∈ setBlockIndexCandidates st -> objects st' !! p = Some b -> failed b = false ->
     (forall q c, r' = Some q -> objects st' !! q = Some c -> ~ worse (p, b) (q, c)) -> p ∈ setBlockIndexCandidates st') ->
  complete r' st'.
Proof.
  intros Hc Hk Hr HC p b Hb Hl Hf Hw. destruct (stored_bwd _ _ _ _ _ Hk Hb) as (a & Ha & Hab). apply (HC p b); [|done..].
  apply (Hc p a Ha); [by apply (linked_kept a b) | destruct (failed a) eqn:E; [|done]; by rewrite (kept_failed a b Hab E) in Hf |].
  intros q c Hq Hcq. destruct (stored_fwd _ _ _ _ _ Hk Hcq) as (d & Hd & Hcd). rewrite (worse_kept p a b q c d Hab Hcd).
  destruct (Hr q d Hq Hd) as (q' & d' & Hq' & Hd' & Hw'). apply (not_worse_trans _ (q', d')); [|done]. by apply Hw.
Qed.

(** the better of the reference and a block *)
Lemma better_ref s r x bx : s !! x = Some bx -> (forall q, r = Some q -> is_Some (s !! q)) ->
  exists r', (r' = r \/ r' = Some x) /\ ref_le s r r' /\ ref_le s (Some x) r' /\ is_Some r'.
Proof.
  intros Hx Hr. destruct r as [q|].
  - destruct (Hr q eq_refl) as [c Hc]. destruct (decide (worse (q, c) (x, bx))) as [Hw|Hw].
    + exists (Some x). split; [by right|]. split; [|split; [apply ref_le_refl | done]]. intros q' c' [= <-] Hc'. rewrite Hc in Hc'. injection Hc' as <-.
      exists x, bx. split; [done|]. split; [done|]. by apply worse_not.
    + exists (Some q). split; [by left|]. split; [apply ref_le_refl|]. split; [|done]. intros q' c' [= <-] Hc'. rewrite Hx in Hc'. injection Hc' as <-.
      exists q, c. done.
  - exists (Some x). split; [by right|]. split; [done|]. split; [apply ref_le_refl | done].
Qed.

(** the reference is a candidate *)
Lemma ref_candidate r st q : complete r st -> ref_safe (objects st) r -> r = Some q -> q ∈ setBlockIndexCandidates st.
Proof.
  intros Hc Hr Hq. destruct (Hr q Hq) as (c & Hcq & Hl & Hcl & _). apply (Hc q c Hcq Hl); [by apply (Hcl q c); [apply anc_refl|]|].
  intros q' c' Hq' Hc'. rewrite Hq in Hq'. injection Hq' as <-. rewrite Hcq in Hc'. injection Hc' as <-. apply worse_irrefl.
Qed.

(** the tip and its ancestors are valid *)
Lemma tip_safe st : core st -> ref_safe (objects st) (Tip (chainActive st)).
Proof.
  intros Hc x Ht. pose proof (core_store _ Hc) as Hs. pose proof (core_chain _ Hc) as Hv. destruct (tip_some _ _ x Hv Ht) as (bx & Hx & _).
  assert (Hmain : forall a b, anc (objects st) x a -> objects st !! a = Some b -> linked b /\ failed b = false /\ connects a).
  { intros a b Ha Hb. apply (core_main _ Hc); [|done]. by apply (main_tip _ _ x). }
  exists bx. split; [done|]. split; [by apply (Hmain x bx (anc_refl _ _))|]. split; [intros a b Ha Hb; by apply (Hmain a b)|].
  intros a Ha. destruct (anc_store _ Hs x bx a Hx Ha) as (b & Hb & _). by apply (Hmain a b).
Qed.

(** the tip after [PruneBlockIndexCandidates] *)
Lemma prune_search r st x bx : core st -> complete r st -> ref_safe (objects st) r -> Tip (chainActive st) = Some x -> objects st !! x = Some bx ->
  exists C r', PruneBlockIndexCandidates st = Some (on_candidates (fun _ => C) st) /\ C ⊆ setBlockIndexCandidates st /\
    searching r' (on_candidates (fun _ => C) st) /\ (r' = r \/ r' = Some x) /\ ref_le (objects st) r r'.
Proof.
  intros Hc Hcomp Hsafe Ht Hx.
  destruct (better_ref (objects st) r x bx Hx) as (r' & Hr' & Hle & Hlex & [q' Eq']); [intros q Hq; destruct (Hsafe q Hq) as (c & -> & _); eauto|].
  assert (Hsafe' : ref_safe (objects st) r').
  { destruct Hr' as [->| ->]; [done|]. rewrite <- Ht. by apply tip_safe. }
  destruct (Hsafe' q' Eq') as (c' & Hc' & Hl' & Hcl' & _).
  destruct (Hlex x bx eq_refl Hx) as (q2 & c2 & Eq2 & Hc2 & Hwx). rewrite Eq' in Eq2. injection Eq2 as <-. rewrite Hc' in Hc2. injection Hc2 as <-.
  assert (Hin : q' ∈ setBlockIndexCandidates st).
  { apply (complete_kept r r' st st Hcomp) with (p := q') (b := c'); try done; [by apply (Hcl' q' c'); [apply anc_refl|]|].
    intros q c E Hcq. rewrite Eq' in E. injection E as <-. rewrite Hc' in Hcq. injection Hcq as <-. apply worse_irrefl. }
  destruct (Prune_spec st x bx Hc Ht Hx) as (C & -> & Hcore & HC); [by exists q', c'|].
  exists C, r'. split; [done|]. split; [intros p Hp; by apply HC|]. split; [|done]. split; simpl; [done | | done |].
  - apply (complete_kept r r' st); simpl; [done..|]. intros p b Hp Hb Hf Hw. apply HC. split; [done|]. intros b' Hb'.
    rewrite Hb in Hb'. injection Hb' as <-. apply (not_worse_trans _ (q', c')); [by apply Hw | done].
  - by rewrite Ht.
Qed.

Lemma target_steady M r s s' : stored steady s s' -> target M r s -> target M r s'.
Proof.
  intros Hs (m & Hm & Hl & Hc & Hle). pose proof (steady_kept _ _ Hs) as Hk. destruct (stored_fwd _ _ _ _ _ Hk Hm) as (m' & Hm' & Hmm).
  exists m'. split; [done|]. split; [by apply (linked_kept m m')|]. split; [by apply (clean_steady s s')|]. by apply (ref_le_kept s s').
Qed.

(** [ConnectTip] and [PruneBlockIndexCandidates], for a block on the way to the target *)
Lemma connect_valid r st M p b pos : searching r st -> target M r (objects st) -> anc (objects st) M p -> objects st !! p = Some b ->
  pprev b = Tip (chainActive st) -> ConnectBlock p = Connected pos ->
  exists st1 st2 r', ConnectTip p st = Some (Connected pos, st1) /\ PruneBlockIndexCandidates st1 = Some st2 /\
    searching r' st2 /\ stored steady (objects st) (objects st2) /\
    setBlockIndexCandidates st2 ⊆ setBlockIndexCandidates st /\ ref_le (objects st2) r r' /\ target M r' (objects st2) /\
    Tip (chainActive st2) = Some p.
Proof.
  intros [Hc Hcomp Hsafe Htip] Htg HMp Hb Hp Hcon. pose proof Htg as (m & Hm & Hlm & Hclm & Hle).
  assert (Hl : linked b) by (by apply (linked_anc (objects st) M m p b (core_objects _ Hc))).
  destruct (ConnectTip_connected st p b pos Hc Hb Hp Hl (Hclm p b HMp Hb) Hcon) as (st1 & E1 & Hc1 & Ht1 & Hst1 & EC1).
  pose proof (steady_kept _ _ Hst1) as Hk1. destruct (stored_fwd _ _ _ _ _ Hk1 Hb) as (b1 & Hb1 & _).
  assert (Hsafe1 : ref_safe (objects st1) r).
  { apply (ref_safe_kept (objects st)); [done..|]. intros q Hq. apply (clean_steady (objects st)); [done|]. by destruct (Hsafe q Hq) as (c & _ & _ & ? & _). }
  destruct (prune_search r st1 p b1 Hc1) as (C & r' & E2 & HC & Hsearch & Hr' & Hle'); [| done.. |].
  { apply (complete_kept r r st); [done | done | apply ref_le_refl |]. intros. by rewrite EC1. }
  exists st1, (on_candidates (fun _ => C) st1), r'. split; [done|]. split; [done|]. split; [done|]. simpl.
  split; [done|]. split; [by rewrite <- EC1|]. split; [done|]. split; [|done].
  destruct (target_steady M r _ _ Hst1 Htg) as (m1 & Hm1 & ? & ? & Hle1). exists m1. split; [done|]. split; [done|]. split; [done|].
  destruct Hr' as [->| ->]; [done|]. intros q c [= <-] Hcq. exists M, m1. split; [done|]. split; [done|].
  apply (anc_not_worse (objects st1)); [by apply core_store | by apply core_objects | done | | done].
  by apply (anc_same _ _ _ _ (kept_same _ _ Hk1)).
Qed.

Lemma connect_invalid r st p b : searching r st -> objects st !! p = Some b -> failed b = false ->
  pprev b = Tip (chainActive st) -> is_Some (Tip (chainActive st)) -> ConnectBlock p = Invalid false ->
  exists st1, ConnectTip p st = Some (Invalid false, st1) /\ searching r st1 /\ stored kept (objects st) (objects st1) /\
    setBlockIndexCandidates st1 ⊆ setBlockIndexCandidates st /\ chainActive st1 = chainActive st /\
    spared (objects st) (objects st1) /\ exists b1, objects st1 !! p = Some b1 /\ failed b1 = true.
Proof.
  intros [Hc Hcomp Hsafe Htip] Hb Hf Hp Ht Hcon.
  destruct (ConnectTip_invalid st p b Hc Hb Hp Ht Hcon) as (st1 & E1 & Hc1 & Ev & Eo & EC).
  assert (Hk : stored kept (objects st) (objects st1)).
  { rewrite Eo. apply stored_alter; [apply _|]. intros b' _. by apply or_status_kept. }
  assert (Hsp : spared (objects st) (objects st1)).
  { intros q Hcl Hcon' a d Ha Hd. apply (anc_same _ _ _ _ (kept_same _ _ Hk)) in Ha. destruct (decide (p = a)) as [->|Hne].
    - destruct (Hcon' a Ha) as [pos ?]. congruence.
    - rewrite Eo, lookup_alter_ne in Hd by done. by apply (Hcl a d). }
  exists st1. split; [done|]. split; [|split; [done|]; split; [rewrite EC; set_solver|]; split; [done|]; split; [done|]].
  - split; [done | | | rewrite Ev; by apply (ref_le_kept (objects st))].
    + apply (complete_kept r r st); [done | done | apply ref_le_refl |]. intros q c Hq Hcq Hfc _. rewrite EC.
      apply elem_of_difference. split; [done|]. intros ->%elem_of_singleton. rewrite Eo, lookup_alter_eq, Hb in Hcq. simpl in Hcq.
      injection Hcq as <-. by rewrite or_failed_valid in Hfc.
    + apply (ref_safe_kept (objects st)); [done..|]. intros q Hq. destruct (Hsafe q Hq) as (c & _ & _ & Hcl & Hcon'). by apply Hsp.
  - rewrite Eo, lookup_alter_eq, Hb. simpl. eexists. split; [done|]. apply or_failed_valid.
Qed.
End Search.
