(* ===== verification/Activation.v ===== *)
(** * Activating the best chain (validation.cpp)

    [ActivateBestChainStep] and the loop of [ActivateBestChain]: each turn marks a block
    as failed or raises the work of the tip ([activate_measure]), and at the end the tip
    is the best block ([ActivateBestChain_spec]). *)

From S2P Require Import Chain ActiveChain BestChain Candidates ChainState.
From S2P Require Import Prelude ArithUint Compact.
#[local] Open Scope Z_scope.

Section Search.
Context {BV : BlockValidation} {BL : BlockValidationLaws BV} {LM : Limits}.

(** the blocks of the list follow one another, the first one on [x] *)
Fixpoint path (s : store) (x : option ptr) (l : list ptr) : Prop :=
  match l with
  | [] => True
  | p :: l => (exists b, s !! p = Some b /\ pprev b = x) /\ path s (Some p) l
  end.

Lemma path_same s s' x l : stored same_node s s' -> path s x l -> path s' x l.
Proof.
  intros Hs. revert x. induction l as [|p l IH]; intros x; [done|]. intros [(b & Hb & Hx) Hl]. split; [|by apply IH].
  destruct (stored_fwd _ _ _ _ _ Hs Hb) as (c & Hc & [[= _ E _ _] _]). exists c. split; [done|congruence].
Qed.

(** there is a tip, and a block that was not marked as failed is now *)
Definition newly_failed (s : store) (st : chain_state) : Prop :=
  is_Some (Tip (chainActive st)) /\
  exists p b b', s !! p = Some b /\ failed b = false /\ objects st !! p = Some b' /\ failed b' = true.

Lemma newly_failed_steady s s1 st : stored steady s s1 -> newly_failed s1 st -> newly_failed s st.
Proof.
  intros Hs (Ht & p & b & b' & Hb & Hf & H'). split; [done|].
  destruct (stored_bwd _ _ _ _ _ Hs Hb) as (a & Ha & [_ E]). exists p, a, b'. rewrite E. done.
Qed.

(** the tip has more work than the block [old] *)
Definition improved (old : option ptr) (st : chain_state) : Prop :=
  exists x bx, Tip (chainActive st) = Some x /\ objects st !! x = Some bx /\
    forall o bo, old = Some o -> objects st !! o = Some bo -> work bo < work bx.

(** the state after blocks were connected *)
Record connected_to (r : option ptr) (st : chain_state) (r' : option ptr) (st' : chain_state) : Prop := {
  to_search : searching r' st';
  to_ref : ref_le (objects st') r r';
  to_kept : stored kept (objects st) (objects st');
  to_sub : setBlockIndexCandidates st' ⊆ setBlockIndexCandidates st;
  to_spared : spared (objects st) (objects st');
}.

Lemma connected_to_refl r st : searching r st -> connected_to r st r st.
Proof. intros Hs. split; [done | apply ref_le_refl | done | done |]. by intros p Hp _. Qed.

Lemma connected_to_trans r1 st1 r2 st2 r3 st3 :
  connected_to r1 st1 r2 st2 -> connected_to r2 st2 r3 st3 -> connected_to r1 st1 r3 st3.
Proof.
  intros [H1 H2 H3 H4 HS1] [H5 H6 H7 H8 HS2]. split; [done | | by etrans | set_solver | by apply (spared_trans _ (objects st2)); [apply kept_same|..]].
  apply (ref_le_trans _ r1 r2 r3); [by apply (ref_le_kept (objects st2)) | done].
Qed.

Lemma searching_best_invalid r st i : searching r st -> core (set_best_invalid i st) -> searching r (set_best_invalid i st).
Proof. intros [_ H2 H3 H4] Hc. by split. Qed.

Lemma more_work_spec s p a q b : store_ok s -> s !! p = Some a -> s !! q = Some b -> more_work s p q = Some (work b <? work a).
Proof.
  intros Hs Ha Hb. unfold more_work. rewrite Ha, Hb. cbn [mbind option_bind].
  rewrite (CompareTo_gt 8); [done | apply (node_work _ _ (Hs p a Ha)) | apply (node_work _ _ (Hs q b Hb))].
Qed.

(** [pindexOldTip && chainActive.Tip()->nChainWork > pindexOldTip->nChainWork] *)
Lemma better_spec old st p b : store_ok (objects st) -> Tip (chainActive st) = Some p -> objects st !! p = Some b ->
  (forall o, old = Some o -> is_Some (objects st !! o)) ->
  exists better, match old with None => Some true | Some o => tip ← Tip (chainActive st); more_work (objects st) tip o end = Some better /\
    (better = true -> improved old st).
Proof.
  intros Hs Ht Hb Hold. destruct old as [o|]; [|exists true; split; [done|]; intros _; exists p, b; done].
  rewrite Ht. cbn [mbind option_bind]. destruct (Hold o eq_refl) as [bo Hbo]. rewrite (more_work_spec _ p b o bo Hs Hb Hbo).
  eexists. split; [done|]. intros Hw. bool_to_prop. exists p, b. split; [done|]. split; [done|].
  intros o' bo' [= <-] Hbo'. rewrite Hbo in Hbo'. injection Hbo' as <-. done.
Qed.

(** what the loop over [vpindexToConnect] comes to *)
Definition list_result (M : ptr) (old last_tip : option ptr) (r : option ptr) (st : chain_state) (res : connect_result)
    (r' : option ptr) (st' : chain_state) : Prop :=
  connected_to r st r' st' /\
  match res with
  | Fatal => False
  | Stop true => newly_failed (objects st) st'
  | Stop false => stored steady (objects st) (objects st') /\ target M r' (objects st') /\ improved old st'
  | Continue => stored steady (objects st) (objects st') /\ target M r' (objects st') /\ Tip (chainActive st') = last_tip
  end.

Lemma list_result_trans M old t r st r1 st1 res r' st' : connected_to r st r1 st1 -> stored steady (objects st) (objects st1) ->
  list_result M old t r1 st1 res r' st' -> list_result M old t r st res r' st'.
Proof.
  intros H1 Hst [H2 Hres]. split; [by apply (connected_to_trans r st r1 st1)|].
  destruct res as [|[|]|]; [| | |done].
  - destruct Hres as (? & ? & ?). split; [by etrans | done].
  - by apply (newly_failed_steady _ (objects st1)).
  - destruct Hres as (? & ? & ?). split; [by etrans | done].
Qed.

(** a block of the list that is not valid *)
Lemma connect_list_invalid M old back p b l r st : searching r st -> target M r (objects st) -> anc (objects st) M p ->
  objects st !! p = Some b -> pprev b = Tip (chainActive st) -> ConnectBlock p = Invalid false ->
  (exists q, back = Some q /\ is_Some (objects st !! q)) -> forall t,
  exists st', connect_list old back (p :: l) st = Some (Stop true, st') /\ list_result M old t r st (Stop true) r st'.
Proof.
  intros Hsearch (m & Hm & _ & Hclm & _) HMp Hb Hp Hcon (q & -> & [bq Hbq]) t.
  assert (Htip : is_Some (Tip (chainActive st))).
  { destruct (pprev b) as [o|] eqn:Ep; [by rewrite <- Hp|].
    destruct (obj_genesis _ (core_objects _ (search_core _ _ Hsearch)) p b Hb Ep) as [_ [pos ?]]. congruence. }
  destruct (connect_invalid r st p b Hsearch Hb (Hclm p b HMp Hb) Hp Htip Hcon) as (st1 & E1 & Hs1 & Hk & HC & Ev & Hsp & b1 & Hb1 & Hf1).
  cbn [connect_list]. rewrite E1. cbn [mbind option_bind].
  destruct (InvalidChainFound_spec st1 q (search_core _ _ Hs1)) as (i & -> & Hci).
  { destruct (stored_fwd _ _ _ _ _ Hk Hbq) as (? & -> & _). done. }
  { by rewrite Ev. }
  cbn [mbind option_bind]. exists (set_best_invalid i st1). split; [done|]. split.
  - split; [by apply searching_best_invalid | apply ref_le_refl | done | done | done].
  - split; [simpl; by rewrite Ev|]. exists p, b, b1. split; [done|]. split; [by apply (Hclm p b HMp Hb) | done].
Qed.

Lemma connect_list_spec M old back l : forall r st,
  searching r st -> target M r (objects st) -> path (objects st) (Tip (chainActive st)) l -> Forall (anc (objects st) M) l ->
  (forall o, old = Some o -> is_Some (objects st !! o)) -> (l <> [] -> exists q, back = Some q /\ is_Some (objects st !! q)) ->
  exists res st' r', connect_list old back l st = Some (res, st') /\
    list_result M old (match last l with Some p => Some p | None => Tip (chainActive st) end) r st res r' st'.
Proof.
  induction l as [|p l IH]; intros r st Hsearch Htg Hpath Hanc Hold Hback.
  { exists Continue, st, r. split; [done|]. split; [by apply connected_to_refl | done]. }
  destruct Hpath as [(b & Hb & Hp) Hpath]. apply Forall_cons in Hanc as [HMp Hanc]. specialize (Hback ltac:(done)).
  pose proof (ConnectBlock_decides p) as Hdec. destruct (ConnectBlock p) as [pos|[|]|] eqn:Hcon; [|done| |done]; clear Hdec.
  2:{ destruct (connect_list_invalid M old back p b l r st Hsearch Htg HMp Hb Hp Hcon Hback (match last (p :: l) with Some p => Some p | None => Tip (chainActive st) end)) as (st' & E & H). by exists (Stop true), st', r. }
  destruct (connect_valid r st M p b pos Hsearch Htg HMp Hb Hp Hcon) as (st1 & st2 & r1 & E1 & E2 & Hs2 & Hst & HC & Hle & Htg2 & Ht2).
  cbn [connect_list]. rewrite E1. cbn [mbind option_bind]. rewrite E2. cbn [mbind option_bind]. pose proof (steady_kept _ _ Hst) as Hk.
  assert (H12 : connected_to r st r1 st2) by (split; [done.. | by apply spared_steady]).
  assert (Hin : forall q, is_Some (objects st !! q) -> is_Some (objects st2 !! q)).
  { intros q [c Hc]. destruct (stored_fwd _ _ _ _ _ Hk Hc) as (? & -> & _). done. }
  destruct (stored_fwd _ _ _ _ _ Hk Hb) as (b2 & Hb2 & _).
  destruct (better_spec old st2 p b2 (core_store _ (search_core _ _ Hs2)) Ht2 Hb2) as (better & -> & Himp); [by auto|].
  cbn [mbind option_bind]. destruct better.
  { exists (Stop false), st2, r1. split; [done|]. split; [done | auto]. }
  destruct (IH r1 st2 Hs2 Htg2) as (res & st3 & r3 & E3 & Hres).
  - rewrite Ht2. by apply (path_same (objects st)); [apply kept_same|].
  - apply (Forall_impl _ _ _ Hanc). intros q. by apply (anc_same _ _ _ _ (kept_same _ _ Hk)).
  - auto.
  - intros _. destruct Hback as (q & Hq & Hbq). eauto.
  - exists res, st3, r3. split; [done|]. apply (list_result_trans M old _ r st r1 st2); [done | done |].
    rewrite Ht2 in Hres. destruct l as [|y l]; [done|]. rewrite last_cons_cons. destruct (last (y :: l)) eqn:El; [done|]. by apply last_None in El.
Qed.
End Search.

(** the ancestor of [M] at a height, none at -1 *)
Definition base_at (s : store) (M : ptr) (height : Z) (x : option ptr) : Prop :=
  match x with
  | None => height = -1
  | Some a => anc s M a /\ exists c, s !! a = Some c /\ nHeight c = height
  end.

Lemma anc_height_eq s M m a a' c c' : store_ok s -> s !! M = Some m -> anc s M a -> anc s M a' -> s !! a = Some c -> s !! a' = Some c' ->
  nHeight c = nHeight c' -> a = a'.
Proof.
  intros Hs Hm Ha Ha' Hc Hc' E. destruct (anc_total s M m a a' Hm Ha Ha') as [H|H].
  - destruct (anc_store s Hs a c a' Hc H) as (d & Hd & _ & [->|?]); [done|]. rewrite Hc' in Hd. injection Hd as <-. lia.
  - destruct (anc_store s Hs a' c' a Hc' H) as (d & Hd & _ & [->|?]); [done|]. rewrite Hc in Hd. injection Hd as <-. lia.
Qed.

Section Collect.
Variables (s : store) (M g : ptr) (m bg : CBlockIndex) (height : Z) (x : option ptr).
Hypothesis Hs : store_ok s.
Hypothesis Hm : s !! M = Some m.
Hypothesis Hg : s !! g = Some bg.
Hypothesis HMg : anc s M g.
Hypothesis Hx : base_at s M height x.
Hypothesis Hh : height < nHeight bg.

Definition collect_inv (st : option ptr * list ptr) : Prop :=
  let '(it, l) := st in
  path s it (rev l) /\ Forall (anc s M) (rev l) /\
  match it with
  | Some p => anc s M p /\ (exists b, s !! p = Some b /\ height <= nHeight b) /\ (l = [] /\ p = g \/ last (rev l) = Some g)
  | None => height = -1 /\ last (rev l) = Some g
  end.

Definition collect_result (r : option (list ptr)) : Prop :=
  exists l, r = Some l /\ path s x (rev l) /\ Forall (anc s M) (rev l) /\ last (rev l) = Some g.

Lemma collect_step_spec st : collect_inv st ->
  match collect_step s height st with
  | inl st' => collect_inv st' /\ match st.1, st'.1 with
      | Some p, Some q => exists b c, s !! p = Some b /\ s !! q = Some c /\ nHeight c < nHeight b
      | Some _, None => True
      | None, _ => False end
  | inr r => collect_result r
  end.
Proof.
  destruct st as [[p|] l]; simpl.
  2: { intros (Hp & Ha & Eh & Hl). exists l. split; [done|]. destruct x as [a|]; [|done]. destruct Hx as (_ & c & Hc & ?).
       pose proof (node_height _ _ (Hs a c Hc)). lia. }
  intros (Hp & Ha & HMp & (b & Hb & Hle) & Hl). rewrite Hb. destruct (Z.eqb_spec (nHeight b) height) as [E|Hne].
  - exists l. split; [done|]. assert (x = Some p) as ->.
    { destruct x as [a|]; [|pose proof (node_height _ _ (Hs p b Hb)); simpl in Hx; lia]. destruct Hx as (HMa & c & Hc & Ec). f_equal.
      apply (anc_height_eq s M m a p c b); try done. lia. }
    split; [done|]. split; [done|]. destruct Hl as [[-> ->]|?]; [|done]. rewrite Hg in Hb. injection Hb as <-. lia.
  - unfold collect_inv. rewrite rev_app_distr. simpl. assert (Hlast : last (p :: rev l) = Some g).
    { destruct Hl as [[-> ->]|Hl]; [done|]. destruct (rev l) as [|y k] eqn:Er; [done|]. by rewrite last_cons_cons. }
    pose proof (parent_height s p b Hs Hb) as Hpar. destruct (pprev b) as [q|] eqn:Eq.
    + destruct Hpar as (c & Hc & Eh & _). split; [|exists b, c; split; [done|]; split; [done|lia]].
      split; [split; [by exists b | done]|]. split; [by apply Forall_cons|].
      split; [by apply (anc_trans s M p q), (anc_step s p b q q Hb Eq), anc_refl|]. split; [exists c; split; [done|lia] | by right].
    + split; [|done]. split; [split; [by exists b | done]|]. split; [by apply Forall_cons|]. split; [|done].
      destruct x as [a|]; [|done]. destruct Hx as (_ & c & Hc & ?). pose proof (node_height _ _ (Hs a c Hc)). lia.
Qed.

Lemma collect_loop : exists l, while_loop (collect_step s height) (S (S (Z.to_nat (nHeight bg)))) (Some g, []) = Some (Some l) /\
  path s x (rev l) /\ Forall (anc s M) (rev l) /\ last (rev l) = Some g.
Proof.
  destruct (while_total (collect_step s height) collect_inv
    (fun st => match st.1 with Some q => match s !! q with Some c => S (Z.to_nat (nHeight c)) | None => 0 end | None => 0 end)%nat
    collect_result) with (fuel := S (S (Z.to_nat (nHeight bg)))) (s := (Some g, [] : list ptr)) as (r & E & l & -> & Hl).
  - intros st st' Hi E. pose proof (collect_step_spec st Hi) as H. rewrite E in H. destruct H as [Hi' Hm']. split; [done|].
    destruct st as [[p|] l], st' as [[q|] l']; simpl in *; try done.
    + destruct Hm' as (b & c & -> & Hc & ?). rewrite Hc. pose proof (node_height _ _ (Hs q c Hc)). lia.
    + destruct Hi as (_ & _ & _ & (b & -> & _) & _). lia.
  - intros st r Hi E. pose proof (collect_step_spec st Hi) as H. by rewrite E in H.
  - split; [done|]. split; [done|]. split; [done|]. split; [exists bg; split; [done|lia] | by left].
  - simpl. rewrite Hg. lia.
  - by exists l.
Qed.
End Collect.

Section Search.
Context {BV : BlockValidation} {BL : BlockValidationLaws BV} {LM : Limits}.

Section Batches.
Variables (st0 : chain_state) (r0 : option ptr) (M : ptr) (m : CBlockIndex) (old : option ptr).
Hypothesis Hm : objects st0 !! M = Some m.
Hypothesis Hold : forall o, old = Some o -> is_Some (objects st0 !! o).

(** where the step stands *)
Definition on_way (r : option ptr) (st : chain_state) : Prop :=
  connected_to r0 st0 r st /\ stored steady (objects st0) (objects st) /\ target M r (objects st).

Definition batch_inv (x : Z * chain_state) : Prop :=
  x.1 <= nHeight m /\ base_at (objects x.2) M x.1 (Tip (chainActive x.2)) /\ exists r, on_way r x.2.

Definition batch_result (x : option (connect_result * chain_state)) : Prop :=
  exists res st r, x = Some (res, st) /\ list_result M old (Some M) r0 st0 res r st.

Lemma base_at_height s height x : store_ok s -> base_at s M height x -> -1 <= height.
Proof. intros Hs. destruct x as [a|]; simpl; [|lia]. intros (_ & c & Hc & <-). pose proof (node_height _ _ (Hs a c Hc)). lia. Qed.

Lemma connect_batch_step_spec x : batch_inv x ->
  match connect_batch_step old M x with
  | inl y => batch_inv y /\ x.1 < y.1
  | inr r => batch_result r
  end.
Proof.
  destruct x as [height st]. intros (Hle & Hbase & r & Hto & Hst & Htg). simpl in Hle, Hbase, Hto, Hst, Htg. unfold connect_batch_step.
  pose proof (steady_kept _ _ Hst) as Hk. pose proof (kept_same _ _ Hk) as Hsame. pose proof (to_search _ _ _ _ Hto) as Hsearch.
  pose proof (core_store _ (search_core _ _ Hsearch)) as Hs. destruct (stored_fwd _ _ _ _ _ Hsame Hm) as (m' & Hm' & [[= _ _ _ Eh] _]).
  rewrite Hm'. pose proof (base_at_height _ _ _ Hs Hbase) as Hge. destruct (Z.eqb_spec height (nHeight m')) as [E|Hne].
  { exists Continue, st, r. split; [done|]. split; [done|]. split; [done|]. split; [done|].
    destruct (Tip (chainActive st)) as [a|]; simpl in Hbase; [|pose proof (node_height _ _ (Hs M m' Hm')); lia].
    destruct Hbase as (Ha & c & Hc & Ec). f_equal. apply (anc_height_eq (objects st) M m' a M c m'); try done; [apply anc_refl | lia]. }
  cbv zeta. set (th := Z.min (height + 32) (nHeight m')).
  destruct (GetAncestor_ancestor (objects st) Hs M m' th Hm') as (g & -> & Hg); [unfold th; lia|]. cbn [mbind option_bind].
  destruct (ancestor_node (objects st) Hs _ _ _ Hg) as (bg & Hbg & Ebg).
  assert (HMg : anc (objects st) M g) by (apply (anc_ancestor _ Hs M m' g Hm'); eauto).
  destruct (collect_loop (objects st) M g m' bg height (Tip (chainActive st))) as (l & El & Hpath & Hanc & Hlast); try done; [unfold th in *; lia|].
  rewrite Ebg in El. rewrite El. cbn [mbind option_bind].
  destruct (connect_list_spec M old (last l) (rev l) r st Hsearch Htg Hpath Hanc) as (res & st1 & r1 & -> & Hres).
  - intros o Ho. destruct (Hold o Ho) as [bo Hbo]. destruct (stored_fwd _ _ _ _ _ Hk Hbo) as (? & -> & _). done.
  - intros _. destruct (last l) as [q|] eqn:Eq; [|apply last_None in Eq; by subst l]. exists q. split; [done|].
    apply last_Some in Eq as [l' ->]. rewrite rev_app_distr in Hanc. apply Forall_cons in Hanc as [Hq _].
    destruct (anc_store _ Hs M m' q Hm' Hq) as (c & -> & _). eauto.
  - apply (list_result_trans _ _ _ _ _ _ _ _ _ _ Hto Hst) in Hres. rewrite Hlast in Hres. destruct res as [|[|]|]; [| | |by destruct Hres].
    + destruct Hres as (Hto' & Hst' & Htg' & Etip). split; [|unfold th in *; simpl; lia].
      split; [unfold th in *; simpl; lia|]. simpl. rewrite Etip. split; [|by exists r1].
      assert (Hsame1 : stored same_node (objects st) (objects st1)) by (etrans; [by symmetry | by apply kept_same, steady_kept]).
      split; [by apply (anc_same _ _ _ _ Hsame1)|].
      destruct (stored_fwd _ _ _ _ _ Hsame1 Hbg) as (c & Hc & [[= _ _ _ Ec] _]). exists c. split; [done|]. rewrite <- Ec. done.
    + by exists (Stop true), st1, r1.
    + by exists (Stop false), st1, r1.
Qed.

Lemma connect_batch_loop height : height <= nHeight m -> base_at (objects st0) M height (Tip (chainActive st0)) -> searching r0 st0 -> target M r0 (objects st0) ->
  exists x, while_loop (connect_batch_step old M) (S (S (Z.to_nat (nHeight m)))) (height, st0) = Some x /\ batch_result x.
Proof.
  intros Hle Hbase Hsearch Htg. pose proof (base_at_height _ _ _ (core_store _ (search_core _ _ Hsearch)) Hbase) as Hge.
  destruct (while_total (connect_batch_step old M) batch_inv (fun x => Z.to_nat (nHeight m - x.1)) batch_result)
    with (fuel := S (S (Z.to_nat (nHeight m)))) (s := (height, st0)) as (x & -> & Hx).
  - intros x y Hi E. pose proof (connect_batch_step_spec x Hi) as H. rewrite E in H. destruct H as [Hi' Hlt]. split; [done|].
    destruct Hi' as [? _]. lia.
  - intros x r Hi E. pose proof (connect_batch_step_spec x Hi) as H. by rewrite E in H.
  - split; [done|]. split; [done|]. exists r0. split; [by apply connected_to_refl | done].
  - simpl. lia.
  - by exists x.
Qed.
End Batches.

(** every block descends from the one genesis block *)
Lemma root_anc s p b : store_ok s -> s !! p = Some b -> exists g c, anc s p g /\ s !! g = Some c /\ nHeight c = 0 /\ pprev c = None.
Proof.
  intros Hs Hb. pose proof (node_height _ _ (Hs p b Hb)). destruct (GetAncestor_ancestor s Hs p b 0 Hb) as (g & _ & Hg); [lia|].
  destruct (ancestor_node s Hs _ _ _ Hg) as (c & Hc & E). exists g, c. split; [apply (anc_ancestor s Hs p b g Hb); eauto|].
  split; [done|]. split; [done|]. pose proof (parent_height s g c Hs Hc) as Hp. destruct (pprev c); [|done]. destruct Hp as (d & _ & ? & ?). lia.
Qed.

Lemma root_unique st p b q c : core st -> objects st !! p = Some b -> objects st !! q = Some c -> pprev b = None -> pprev c = None -> p = q.
Proof.
  intros Hc Hb Hcq Hp Hq. destruct (obj_genesis _ (core_objects _ Hc) p b Hb Hp) as [Eb _].
  destruct (obj_genesis _ (core_objects _ Hc) q c Hcq Hq) as [Ec _]. pose proof (index_map _ (core_tree _ Hc) hashGenesisBlock) as Hmap.
  pose proof (proj2 (Hmap p) (ex_intro _ b (conj Hb Eb))). pose proof (proj2 (Hmap q) (ex_intro _ c (conj Hcq Ec))). congruence.
Qed.

(** the block where the target leaves the active chain *)
Lemma fork_found st M m : core st -> objects st !! M = Some m ->
  exists f, FindFork (objects st) (chainActive st) (Some M) = Some f /\
  match f with
  | None => Tip (chainActive st) = None
  | Some f => anc (objects st) M f /\ exists t, Tip (chainActive st) = Some t /\ anc (objects st) t f
  end.
Proof.
  intros Hc Hm. pose proof (core_store _ Hc) as Hs. pose proof (core_chain _ Hc) as Hv.
  destruct (FindFork_spec (objects st) (chainActive st) M m Hs Hm) as (f & E & Hf). exists f. split; [done|].
  destruct (Tip (chainActive st)) as [t|] eqn:Ht.
  - destruct (tip_some _ _ t Hv Ht) as (bt & Hbt & _). destruct f as [f|].
    + destruct Hf as (h & [Ha Hat] & _). split; [apply (anc_ancestor _ Hs M m f Hm); eauto|]. exists t. split; [done|].
      apply (main_tip _ _ t f Hs Hv Ht). destruct (ancestor_node _ Hs _ _ _ Ha) as (c & Hcf & Eh). exists c. by rewrite Eh.
    + destruct (root_anc _ M m Hs Hm) as (g & c & Hg & Hcg & Eg & Hpg). destruct (root_anc _ t bt Hs Hbt) as (g' & c' & Hg' & Hcg' & _ & Hpg').
      assert (g = g') as <- by (by apply (root_unique st g c g' c')). exfalso.
      apply (anc_ancestor _ Hs M m g Hm) in Hg as [h Hg]. apply (Hf h g). split; [done|].
      destruct (ancestor_node _ Hs _ _ _ Hg) as (d & Hd & Eh). apply (main_tip _ _ t g Hs Hv Ht) in Hg' as (d' & Hd' & Hat). congruence.
  - destruct f as [f|]; [|done]. destruct Hf as (h & [_ Hat] & _). apply (tip_none _ _ Hv) in Ht. rewrite Ht in Hat.
    apply chain_at in Hat as [? _]. simpl in *. lia.
Qed.

(** going back to an ancestor of the tip *)
Lemma searching_back r st v : searching r st -> core (set_chain v st) ->
  (forall t, Tip v = Some t -> exists t0, Tip (chainActive st) = Some t0 /\ anc (objects st) t0 t) -> searching r (set_chain v st).
Proof.
  intros [Hc H2 H3 H4] Hcv Ht. split; [done..|]. intros t bt Et Hbt. simpl in Et, Hbt. destruct (Ht t Et) as (t0 & Et0 & Ha).
  destruct (tip_some _ _ t0 (core_chain _ Hc) Et0) as (b0 & Hb0 & _). destruct (H4 t0 b0 Et0 Hb0) as (q & c & Hq & Hcq & Hw).
  exists q, c. split; [done|]. split; [done|]. apply (not_worse_trans _ (t0, b0)); [done|].
  by apply (anc_not_worse (objects st)); [apply core_store | apply core_objects |..].
Qed.

Section Disconnect.
Variables (st0 : chain_state) (r : option ptr) (f : ptr).
Hypothesis Hsearch : searching r st0.

Definition disconnect_inv (st : chain_state) : Prop :=
  exists v t t0, st = set_chain v st0 /\ core st /\ Tip v = Some t /\ anc (objects st0) t f /\
    Tip (chainActive st0) = Some t0 /\ anc (objects st0) t0 t.

Definition disconnect_result (x : option (bool * chain_state)) : Prop :=
  exists v, x = Some (true, set_chain v st0) /\ Tip v = Some f /\ searching r (set_chain v st0).

Lemma disconnect_step_spec st : disconnect_inv st ->
  match disconnect_step (Some f) st with
  | inl st' => disconnect_inv st' /\ exists t b t' b', Tip (chainActive st) = Some t /\ objects st0 !! t = Some b /\
      Tip (chainActive st') = Some t' /\ objects st0 !! t' = Some b' /\ nHeight b' < nHeight b
  | inr x => disconnect_result x
  end.
Proof.
  intros (v & t & t0 & -> & Hc & Ht & Htf & Ht0 & Hanc). unfold disconnect_step. cbn [chainActive set_chain]. rewrite Ht.
  pose proof (core_store _ (search_core _ _ Hsearch)) as Hs. case_bool_decide as E.
  { injection E as ->. exists v. split; [done|]. split; [done|]. apply searching_back; [done..|]. intros t Et. exists t0. split; [done|congruence]. }
  destruct (tip_some _ _ t (core_chain _ Hc) Ht) as (b & Hb & _). simpl in Hb.
  apply anc_inv in Htf as [->|(b' & q & Hb' & Hq & Hqf)]; [done|]. rewrite Hb in Hb'. injection Hb' as <-.
  destruct (DisconnectTip_spec (set_chain v st0) t b q Hc Ht Hb Hq) as (v' & -> & Hc' & Ht').
  pose proof (parent_height _ t b Hs Hb) as Hpar. rewrite Hq in Hpar. destruct Hpar as (c & Hcq & Eh & _).
  split; [|exists t, b, q, c; simpl; split_and!; [done..|lia]]. exists v', q, t0. split; [done|]. split; [done|]. split; [done|]. split; [done|].
  split; [done|]. by apply (anc_trans _ t0 t q), (anc_step _ t b q q Hb Hq), anc_refl.
Qed.

Lemma disconnect_to_fork t : Tip (chainActive st0) = Some t -> anc (objects st0) t f ->
  exists v, while_loop (disconnect_step (Some f)) (S (length (chainActive st0))) st0 = Some (Some (true, set_chain v st0)) /\
    Tip v = Some f /\ searching r (set_chain v st0).
Proof.
  intros Ht Hf. pose proof (search_core _ _ Hsearch) as Hc. pose proof (core_store _ Hc) as Hs. destruct (tip_some _ _ t (core_chain _ Hc) Ht) as (b & Hb & Hlen & _).
  destruct (while_total (disconnect_step (Some f)) disconnect_inv
    (fun st => match Tip (chainActive st) with Some t => match objects st0 !! t with Some b => Z.to_nat (nHeight b) | None => 0 end | None => 0 end)%nat
    disconnect_result) with (fuel := S (length (chainActive st0))) (s := st0) as (x & -> & v & -> & Hv).
  - intros st st' Hi E. pose proof (disconnect_step_spec st Hi) as H. rewrite E in H. destruct H as [Hi' (t1 & b1 & t2 & b2 & -> & -> & -> & Hb2 & ?)].
    rewrite Hb2. split; [done|]. pose proof (node_height _ _ (Hs t2 b2 Hb2)). lia.
  - intros st x Hi E. pose proof (disconnect_step_spec st Hi) as H. by rewrite E in H.
  - exists (chainActive st0), t, t. split; [by destruct st0|]. split; [done|]. split; [done|]. split; [done|]. split; [done|]. apply anc_refl.
  - rewrite Ht, Hb. lia.
  - by exists v.
Qed.
End Disconnect.

(** one step towards the target: it is reached, or the tip has more work than before,
    or a block was found invalid *)
Lemma ActivateBestChainStep_spec r st M : searching r st -> target M r (objects st) ->
  exists (inv : bool) st' r', ActivateBestChainStep M st = Some (Some inv, st') /\ connected_to r st r' st' /\
  if inv then newly_failed (objects st) st'
  else stored steady (objects st) (objects st') /\ target M r' (objects st') /\
    (Tip (chainActive st') = Some M \/ improved (Tip (chainActive st)) st').
Proof.
  intros Hsearch Htg. pose proof Htg as (m & Hm & _). pose proof (search_core _ _ Hsearch) as Hc. pose proof (core_store _ Hc) as Hs.
  unfold ActivateBestChainStep. cbv zeta.
  destruct (fork_found st M m Hc Hm) as (f & -> & Hf). cbn [mbind option_bind].
  assert (Hd : exists v height, while_loop (disconnect_step f) (S (length (chainActive st))) st = Some (Some (true, set_chain v st)) /\
    match f with None => Some (-1) | Some f => b ← objects (set_chain v st) !! f; Some (nHeight b) end = Some height /\
    base_at (objects st) M height (Tip v) /\ height <= nHeight m /\ searching r (set_chain v st)).
  { destruct f as [f|].
    - destruct Hf as (HMf & t & Ht & Htf). destruct (disconnect_to_fork st r f Hsearch t Ht Htf) as (v & -> & Hv & Hsv).
      destruct (anc_store _ Hs M m f Hm HMf) as (b & Hb & Hle & _). exists v, (nHeight b). split; [done|]. simpl. rewrite Hb. simpl.
      split; [done|]. rewrite Hv. split; [|done]. split; [done|]. by exists b.
    - exists (chainActive st), (-1). split; [|split; [done|]; rewrite Hf; split; [done|]; split; [pose proof (node_height _ _ (Hs M m Hm)); lia | by destruct st]].
      cbn [while_loop]. unfold disconnect_step. rewrite Hf. by destruct st. }
  destruct Hd as (v & height & -> & Eh & Hbase & Hle & Hsv). cbn [mbind option_bind]. rewrite Eh. cbn [mbind option_bind].
  change (objects (set_chain v st)) with (objects st). rewrite Hm. cbn [mbind option_bind].
  destruct (connect_batch_loop (set_chain v st) r M m (Tip (chainActive st)) Hm) with (height := height) as (x & -> & res & st' & r' & -> & Hto & Hres); try done.
  { intros o Ho. change (objects (set_chain v st)) with (objects st). destruct (tip_some _ _ o (core_chain _ Hc) Ho) as (bo & -> & _). eauto. }
  assert (Hto' : connected_to r st r' st').
  { apply (connected_to_trans r st r (set_chain v st)); [|done]. split; [done | apply ref_le_refl | done | done |]. by intros p Hp _. }
  cbn [mbind option_bind]. destruct res as [|inv|]; [| |done].
  - exists false, st', r'. split; [done|]. split; [done|]. destruct Hres as (? & ? & ?). auto.
  - exists inv, st', r'. split; [done|]. split; [done|]. destruct inv; [done|]. destruct Hres as (? & ? & ?). auto.
Qed.

Lemma core_find_ok st : core st -> find_ok st.
Proof.
  intros Hc. split; [by apply core_store | apply (core_chain _ Hc) | | apply (core_invalid _ Hc) |].
  - intros p Hp. destruct (core_candidates _ Hc p Hp) as (b & -> & _). eauto.
  - intros p q c Hp Hq _ Hcq. left. destruct (core_candidates _ Hc p Hp) as (b & Hb & Hl).
    by apply (linked_anc (objects st) p b q c (core_objects _ Hc)).
Qed.

(** with all data at hand, only failed blocks are removed *)
Lemma core_no_missing st : core st -> ~ missing_data st.
Proof.
  intros Hc (p & q & c & Hp & Hq & Hcq & Hd). destruct (core_candidates _ Hc p Hp) as (b & Hb & Hl).
  pose proof (linked_anc _ p b q c (core_objects _ Hc) Hb Hl Hq Hcq) as Hlc.
  destruct (obj_received _ (core_objects _ Hc) q c Hcq Hlc) as (? & _). congruence.
Qed.

(** the objects a search has marked are not on the chain, nor below the reference *)
Lemma found_unchanged st s C p b b' : core st -> found_to st s C -> objects st !! p = Some b -> s !! p = Some b' ->
  on_main (objects st) (chainActive st) p \/ clean (objects st) p -> b' = b.
Proof.
  intros Hc Hfound Hb Hb' Hp. destruct (found_new _ _ _ Hfound p b b' Hb Hb') as [?|(q & d & Hq & Hoff & Hd & Hf)]; [done|].
  exfalso. destruct Hp as [Hm|Hcl]; [apply Hoff; by apply (main_anc _ (core_store _ Hc) _ p q (core_chain _ Hc)) | by rewrite (Hcl q d Hq Hd) in Hf].
Qed.

(** nothing in the set is better *)
Definition best_candidate (M : ptr) (st : chain_state) : Prop :=
  forall m q c, objects st !! M = Some m -> q ∈ setBlockIndexCandidates st -> objects st !! q = Some c -> ~ worse (M, m) (q, c).

Section Found.
Variables (r : option ptr) (st : chain_state) (s : store) (C : gset ptr) (U : list (ptr * ptr)) (i : option ptr).
Hypothesis Hsearch : searching r st.
Hypothesis Hfound : found_to st s C.
Hypothesis Hok : find_ok (rebuild st s C U i).
Hypothesis HU : U = mapBlocksUnlinked st.

Lemma found_kept : stored kept (objects st) s.
Proof. apply (stored_sub _ _ _ _ marked_kept), (found_marked _ _ _ Hfound). Qed.

Lemma found_core : core (rebuild st s C U i).
Proof.
  pose proof (search_core _ _ Hsearch) as Hc. pose proof found_kept as Hk.
  apply (core_kept st); simpl; try done; [apply (index_best_in _ (core_tree _ Hc)) | apply (found_sub _ _ _ Hfound) | | by left | apply (core_chain _ Hc) |].
  - intros p Hp. destruct (find_invalid _ Hok p Hp) as [b Hb]. destruct (stored_bwd _ _ _ _ _ Hk Hb) as (a & -> & _). eauto.
  - intros p b' Hp Hb'. destruct (stored_bwd _ _ _ _ _ Hk Hb') as (b & Hb & _).
    rewrite (found_unchanged st s C p b b' Hc Hfound Hb Hb') by auto. by apply (core_main _ Hc).
Qed.

Lemma found_spared : spared (objects st) s.
Proof.
  intros q Hcl _ a d' Ha Hd'. pose proof found_kept as Hk. apply (anc_same (objects st) s _ _ (kept_same _ _ Hk)) in Ha.
  destruct (stored_bwd _ _ _ _ _ Hk Hd') as (d & Hd & _).
  rewrite (found_unchanged st s C a d d' (search_core _ _ Hsearch) Hfound Hd Hd'); [by apply (Hcl a d)|]. right. intros x e Hx. apply Hcl. by apply (anc_trans _ q a x).
Qed.

Lemma found_searching : searching r (rebuild st s C U i).
Proof.
  pose proof Hsearch as [Hc Hcomp Hsafe Htip]. pose proof found_kept as Hk. split; [apply found_core | | |].
  - apply (complete_kept r r st); [done | done | apply ref_le_refl |]. intros p b Hp Hb Hf _. simpl in *.
    destruct (decide (p ∈ C)) as [?|Hn]; [done|]. exfalso. destruct (found_failed _ _ _ Hfound p Hp Hn) as [H|(q & c & Hq & Hcq & Hd)].
    + by rewrite (H b Hb) in Hf.
    + apply (core_no_missing st Hc). by exists p, q, c.
  - apply (ref_safe_kept (objects st)); [done..|]. intros q Hq. destruct (Hsafe q Hq) as (c & _ & _ & Hcl & Hcon). by apply found_spared.
  - simpl. by apply (ref_le_kept (objects st)).
Qed.

Lemma found_target M b : M ∈ C -> s !! M = Some b -> ~ unusable s (chainActive st) M ->
  (forall q c, q ∈ C -> s !! q = Some c -> ~ worse (M, b) (q, c)) -> target M r s.
Proof.
  intros HM Hb Hu Hmax. pose proof found_core as Hc. exists b. split; [done|].
  destruct (core_candidates _ Hc M HM) as (b' & Hb' & Hl). simpl in Hb'. rewrite Hb in Hb'. injection Hb' as <-. split; [done|]. split.
  - intros q c Hq Hcq. destruct (decide (on_main s (chainActive st) q)) as [Hm|Hm]; [by apply (core_main _ Hc q c Hm Hcq)|].
    destruct (failed c) eqn:E; [|done]. exfalso. apply Hu. exists q. split; [done|]. split; [done|]. exists c. auto.
  - intros q c Hq Hcq. exists M, b. split; [done|]. split; [done|]. apply Hmax; [|done].
    by apply (ref_candidate r (rebuild st s C U i)), Hq; apply found_searching.
Qed.
End Found.

Lemma find_search r st : searching r st ->
  exists x st', FindMostWorkChain st = Some (x, st') /\ connected_to r st r st' /\ chainActive st' = chainActive st /\
  match x with
  | None => setBlockIndexCandidates st' = ∅ /\ r = None
  | Some M => target M r (objects st') /\ best_candidate M st'
  end.
Proof.
  intros Hsearch. pose proof (search_core _ _ Hsearch) as Hc.
  destruct (find_loop st (core_find_ok st Hc)) as (x & -> & M & s & C & U & i & -> & Hfound & Hok & HU & HM).
  destruct HU as [HU|HU]; [|by apply core_no_missing in HU]. pose proof (found_searching r st s C U i Hsearch Hfound Hok HU) as Hs'.
  exists M, (rebuild st s C U i). split; [done|]. split; [|split; [done|]].
  - split; [done | apply ref_le_refl | by apply (found_kept st s C) | apply (found_sub _ _ _ Hfound) | by apply (found_spared r st s C)].
  - destruct M as [M|].
    + destruct HM as (b & HM & Hb & Hu & Hmax). split; [by apply (found_target r st s C U i Hsearch Hfound Hok HU M b)|].
      intros m q c Hm Hq Hcq. simpl in *. rewrite Hb in Hm. injection Hm as <-. by apply Hmax.
    + split; [done|]. destruct r as [q|]; [|done]. pose proof (ref_candidate (Some q) _ q (search_complete _ _ Hs') (search_safe _ _ Hs') eq_refl) as Hin.
      simpl in Hin. by rewrite HM in Hin.
Qed.
End Search.

(** ** The measure of the activation *)

(** the blocks that are not failed, and those with more work than [w] *)
Definition not_failed (s : store) : gset ptr := dom (base.filter (fun kv : ptr * CBlockIndex => failed kv.2 = false) s).
Definition above (s : store) (w : Z) : gset ptr := dom (base.filter (fun kv : ptr * CBlockIndex => w < work kv.2) s).

Lemma elem_of_not_failed s p : p ∈ not_failed s <-> exists b, s !! p = Some b /\ failed b = false.
Proof. unfold not_failed. rewrite elem_of_dom. split; intros [b Hb]; exists b; [by apply map_lookup_filter_Some in Hb | by apply map_lookup_filter_Some]. Qed.
Lemma elem_of_above s w p : p ∈ above s w <-> exists b, s !! p = Some b /\ w < work b.
Proof. unfold above. rewrite elem_of_dom. split; intros [b Hb]; exists b; [by apply map_lookup_filter_Some in Hb | by apply map_lookup_filter_Some]. Qed.

Lemma not_failed_kept s s' : stored kept s s' -> not_failed s' ⊆ not_failed s.
Proof.
  intros Hk p. rewrite !elem_of_not_failed. intros (b & Hb & Hf). destruct (stored_bwd _ _ _ _ _ Hk Hb) as (a & Ha & Hab).
  exists a. split; [done|]. destruct (failed a) eqn:E; [|done]. by rewrite (kept_failed _ _ Hab E) in Hf.
Qed.
Lemma above_kept s s' w w' : stored kept s s' -> w <= w' -> above s' w' ⊆ above s w.
Proof.
  intros Hk Hle p. rewrite !elem_of_above. intros (b & Hb & Hw). destruct (stored_bwd _ _ _ _ _ Hk Hb) as (a & Ha & [[_ [= E _ _]] _ _ _ _]).
  exists a. split; [done|]. unfold work in *. rewrite E. lia.
Qed.
Lemma above_size s w : (size (above s w) <= size s)%nat.
Proof. rewrite <- (size_dom (D := gset ptr) s). apply subseteq_size, dom_filter_subseteq. Qed.
Lemma not_failed_size s : (size (not_failed s) <= size s)%nat.
Proof. rewrite <- (size_dom (D := gset ptr) s). apply subseteq_size, dom_filter_subseteq. Qed.

Lemma stored_size R s s' : stored R s s' -> size s = size s'.
Proof.
  intros H. rewrite <- !(size_dom (D := gset ptr)). f_equal. apply leibniz_equiv. intros p. rewrite !elem_of_dom.
  by destruct (H p); split; intros [? [=]].
Qed.

Definition tip_work (st : chain_state) : Z :=
  match Tip (chainActive st) with
  | Some t => match objects st !! t with Some b => work b | None => -1 end
  | None => -1
  end.

(** failing a block counts more than raising the work of the tip *)
Definition activate_measure (st : chain_state) : nat :=
  size (not_failed (objects st)) * S (size (objects st)) + size (above (objects st) (tip_work st)).

Lemma measure_fuel st : (activate_measure st < activate_fuel st)%nat.
Proof.
  unfold activate_measure, activate_fuel. pose proof (above_size (objects st) (tip_work st)). pose proof (not_failed_size (objects st)). nia.
Qed.

Lemma tip_work_same st st' : stored kept (objects st) (objects st') -> chainActive st' = chainActive st -> tip_work st' = tip_work st.
Proof.
  intros Hk Ev. unfold tip_work. rewrite Ev. destruct (Tip _) as [t|]; [|done].
  destruct (Hk t) as [a b [[_ [= E _ _]] _ _ _ _]|]; [|done]. unfold work. by rewrite E.
Qed.

Lemma measure_same st st' : stored kept (objects st) (objects st') -> chainActive st' = chainActive st ->
  (activate_measure st' <= activate_measure st)%nat.
Proof.
  intros Hk Ev. unfold activate_measure. rewrite (tip_work_same st st' Hk Ev), <- (stored_size _ _ _ Hk).
  pose proof (subseteq_size _ _ (not_failed_kept _ _ Hk)). pose proof (subseteq_size _ _ (above_kept _ _ (tip_work st) _ Hk (Z.le_refl _))). nia.
Qed.

Lemma measure_failed st st' : stored kept (objects st) (objects st') -> newly_failed (objects st) st' ->
  (activate_measure st' < activate_measure st)%nat.
Proof.
  intros Hk (_ & p & b & b' & Hb & Hf & Hb' & Hf'). unfold activate_measure. rewrite <- (stored_size _ _ _ Hk).
  assert (Hlt : (size (not_failed (objects st')) < size (not_failed (objects st)))%nat).
  { apply subset_size. split; [by apply not_failed_kept|]. intros Hsub. specialize (Hsub p).
    rewrite !elem_of_not_failed in Hsub. destruct Hsub as (c & Hc & Hfc); [eauto|]. rewrite Hb' in Hc. injection Hc as <-. congruence. }
  pose proof (above_size (objects st') (tip_work st')) as Ha. rewrite <- (stored_size _ _ _ Hk) in Ha. nia.
Qed.

Lemma measure_improved st st' : store_ok (objects st') -> chain_ok (objects st) (chainActive st) ->
  stored kept (objects st) (objects st') -> improved (Tip (chainActive st)) st' ->
  (activate_measure st' < activate_measure st)%nat.
Proof.
  intros Hs Hv Hk (x & bx & Hx & Hbx & Himp). unfold activate_measure. rewrite <- (stored_size _ _ _ Hk).
  assert (Hlt : tip_work st < tip_work st').
  { unfold tip_work. rewrite Hx, Hbx. pose proof (uval_range 8 _ (node_work _ _ (Hs x bx Hbx))). destruct (Tip (chainActive st)) as [o|] eqn:Eo; [|unfold work; lia].
    destruct (tip_some _ _ o Hv Eo) as (bo & Hbo & _). rewrite Hbo. destruct (stored_fwd _ _ _ _ _ Hk Hbo) as (bo' & Hbo' & [[_ [= E _ _]] _ _ _ _]).
    pose proof (Himp o bo' eq_refl Hbo'). unfold work in *. by rewrite E. }
  assert (Hlt' : (size (above (objects st') (tip_work st')) < size (above (objects st) (tip_work st)))%nat).
  { apply subset_size. split; [apply above_kept; [done|lia]|]. intros Hsub. specialize (Hsub x). rewrite !elem_of_above in Hsub.
    destruct (stored_bwd _ _ _ _ _ Hk Hbx) as (b & Hb & [[_ [= E _ _]] _ _ _ _]). assert (Et : tip_work st' = work bx) by (unfold tip_work; by rewrite Hx, Hbx).
    destruct Hsub as (c & Hc & Hw); [exists b; split; [done|]; unfold work in *; rewrite E; lia|]. rewrite Hbx in Hc. injection Hc as <-. lia. }
  pose proof (subseteq_size _ _ (not_failed_kept _ _ Hk)). nia.
Qed.

Section Activate.
Context {BV : BlockValidation} {BL : BlockValidationLaws BV} {LM : Limits}.

(** no linked block whose ancestors are all unmarked is better than the tip *)
Definition best_tip (st : chain_state) : Prop :=
  forall p b, objects st !! p = Some b -> linked b -> clean (objects st) p ->
    exists t bt, Tip (chainActive st) = Some t /\ objects st !! t = Some bt /\ ~ worse (t, bt) (p, b).

(** what is known of [pindexMostWork] *)
Definition chosen (x r : option ptr) (st : chain_state) : Prop :=
  match x with
  | None => True
  | Some M => target M r (objects st) /\ best_candidate M st
  end.

Lemma best_candidate_sub M st st' : stored kept (objects st) (objects st') -> setBlockIndexCandidates st' ⊆ setBlockIndexCandidates st ->
  best_candidate M st -> best_candidate M st'.
Proof.
  intros Hk HC Hb m q c Hm Hq Hc. destruct (stored_bwd _ _ _ _ _ Hk Hm) as (m0 & Hm0 & Hmm). destruct (stored_bwd _ _ _ _ _ Hk Hc) as (c0 & Hc0 & Hcc).
  rewrite <- (worse_kept M m0 m q c0 c Hmm Hcc). apply Hb; auto.
Qed.

(** the end of the loop *)
Lemma chosen_done M r st : searching r st -> chosen (Some M) r st -> Tip (chainActive st) = Some M -> chain_state_ok st /\ best_tip st.
Proof.
  intros [Hc Hcomp _ _] [(m & Hm & _ & _ & Hle) Hbest] Ht. split.
  - split; [done|]. rewrite Ht. apply (complete_kept r (Some M) st st); [done | reflexivity | done | auto].
  - intros p b Hb Hl Hcl. exists M, m. split; [done|]. split; [done|]. intros Hw. apply (Hbest m p b Hm); [|done..].
    apply (Hcomp p b Hb Hl); [by apply (Hcl p b (anc_refl _ _))|]. intros q c Hq Hcq Hpq.
    destruct (Hle q c Hq Hcq) as (M' & m' & [= <-] & Hm' & Hn). rewrite Hm in Hm'. injection Hm' as <-. apply Hn. by apply (worse_trans _ (p, b)).
Qed.

Lemma none_done st : searching None st -> setBlockIndexCandidates st = ∅ -> chain_state_ok st /\ best_tip st.
Proof.
  intros [Hc Hcomp _ Htip] HC. assert (Hnone : forall p b, objects st !! p = Some b -> linked b -> failed b = false -> False).
  { intros p b Hb Hl Hf. assert (p ∈ setBlockIndexCandidates st) as Hp by (by apply (Hcomp p b)). by rewrite HC in Hp. }
  split; [split; [done|]|].
  - intros p b Hb Hl Hf _. by destruct (Hnone p b).
  - intros p b Hb Hl Hcl. destruct (Hnone p b); [done..|]. by apply (Hcl p b (anc_refl _ _)).
Qed.

Section Loop.
Variables (st0 : chain_state) (r0 : option ptr).

Definition activate_inv (x : option ptr * chain_state) : Prop :=
  exists r, connected_to r0 st0 r x.2 /\ chosen x.1 r x.2.

Definition activate_result (x : option (bool * chain_state)) : Prop :=
  exists st r, x = Some (true, st) /\ connected_to r0 st0 r st /\ chain_state_ok st /\ best_tip st.

(** the choice of the target *)
Lemma choose_spec x : activate_inv x ->
  exists y r st, match x.1 with None => FindMostWorkChain x.2 | Some p => Some (Some p, x.2) end = Some (y, st) /\
    connected_to r0 st0 r st /\ chosen y r st /\ (y = None -> r = None /\ setBlockIndexCandidates st = ∅) /\
    stored kept (objects x.2) (objects st) /\ chainActive st = chainActive x.2.
Proof.
  destruct x as [[M|] st]; intros (r & Hto & Hch); simpl in *.
  - exists (Some M), r, st. done.
  - destruct (find_search r st (to_search _ _ _ _ Hto)) as (y & st' & E & Hto' & Ev & Hy). exists y, r, st'. split; [done|].
    split; [by apply (connected_to_trans _ _ r st)|]. split; [by destruct y|]. split; [intros ->; tauto|].
    split; [apply (to_kept _ _ _ _ Hto') | done].
Qed.

Lemma activate_step_spec x : activate_inv x ->
  match activate_step x with
  | inl y => activate_inv y /\ (activate_measure y.2 < activate_measure x.2)%nat
  | inr res => activate_result res
  end.
Proof.
  intros Hi. destruct (choose_spec x Hi) as (y & r & st & E & Hto & Hch & Hnone & Hk & Ev). destruct x as [M0 st1]. simpl in E, Hk, Ev.
  unfold activate_step. rewrite E. pose proof (to_search _ _ _ _ Hto) as Hsearch. destruct y as [M|].
  2:{ destruct (Hnone eq_refl) as [-> HC]. exists st, None. split; [done|]. split; [done|]. by apply none_done. }
  case_bool_decide as Et; [exists st, r; split; [done|]; split; [done|]; by apply (chosen_done M r st)|].
  destruct Hch as [Htg Hbest]. pose proof (measure_same _ _ Hk Ev) as Hle.
  destruct (ActivateBestChainStep_spec r st M Hsearch Htg) as (inv & st' & r' & -> & Hto' & Hres).
  pose proof (connected_to_trans _ _ _ _ _ _ Hto Hto') as Hto2. pose proof Hto' as [Hsearch' _ Hk' HC]. destruct inv.
  - case_bool_decide as Et'; [destruct Hres as [[t Ht] _]; congruence|]. split; [by exists r'|]. simpl.
    pose proof (measure_failed st st' Hk' Hres). lia.
  - destruct Hres as (Hst & Htg' & Hprog). pose proof (best_candidate_sub M st st' Hk' HC Hbest) as Hbest'.
    case_bool_decide as Et'; [exists st', r'; split; [done|]; split; [done|]; by apply (chosen_done M r' st')|].
    destruct Hprog as [?|Himp]; [done|]. split; [by exists r'|]. simpl.
    pose proof (measure_improved st st' (core_store _ (search_core _ _ Hsearch')) (core_chain _ (search_core _ _ Hsearch)) Hk' Himp). lia.
Qed.
End Loop.

Lemma searching_start st : chain_state_ok st -> searching (Tip (chainActive st)) st.
Proof. intros [Hc Hcomp]. split; [done | done | by apply tip_safe | apply ref_le_refl]. Qed.

(** the call returns [true]; the tip is the best block there is *)
Lemma ActivateBestChain_spec st : chain_state_ok st ->
  exists st', ActivateBestChain st = Some (true, st') /\ chain_state_ok st' /\ best_tip st' /\
    stored kept (objects st) (objects st') /\ ref_le (objects st') (Tip (chainActive st)) (Tip (chainActive st')) /\
    spared (objects st) (objects st').
Proof.
  intros Hok. pose proof (searching_start st Hok) as Hsearch. set (r0 := Tip (chainActive st)).
  destruct (while_total activate_step (activate_inv st r0) (fun x => activate_measure x.2) (activate_result st r0))
    with (fuel := activate_fuel st) (s := (None : option ptr, st)) as (x & E & st' & r & -> & Hto & Hok' & Hbest).
  - intros x y Hi E. pose proof (activate_step_spec st r0 x Hi) as H. by rewrite E in H.
  - intros x y Hi E. pose proof (activate_step_spec st r0 x Hi) as H. by rewrite E in H.
  - exists r0. split; [by apply connected_to_refl | done].
  - simpl. apply measure_fuel.
  - exists st'. unfold ActivateBestChain. rewrite E. split; [done|]. split; [done|]. split; [done|]. split; [apply (to_kept _ _ _ _ Hto)|].
    split; [|apply (to_spared _ _ _ _ Hto)]. intros q c Hq Hcq. destruct (to_ref _ _ _ _ Hto q c Hq Hcq) as (q' & c' & -> & Hc' & Hw).
    destruct (search_safe _ _ (to_search _ _ _ _ Hto) q' eq_refl) as (c2 & Hc2 & Hl & Hcl & _). rewrite Hc' in Hc2. injection Hc2 as <-.
    destruct (Hbest q' c' Hc' Hl Hcl) as (t & bt & Ht & Hbt & Hw2). exists t, bt. split; [done|]. split; [done|].
    by apply (not_worse_trans _ (q', c')).
Qed.
End Activate.
