(* ===== verification/ChainCalls.v ===== *)
(** * Operations on the chain state (validation.cpp)

    [InvalidateBlock], [ReceivedBlockTransactions], [PreciousBlock] and
    [ResetBlockFailureFlags] keep the invariant; what each of them does to the blocks
    and the chain. *)

From S2P Require Import Chain ActiveChain BestChain Candidates ChainState Activation.
From S2P Require Import Prelude ArithUint Compact.
#[local] Open Scope Z_scope.

Section Events.
Context {BV : BlockValidation} {BL : BlockValidationLaws BV} {LM : Limits}.

(** ** Parts of the state the invariant does not depend on *)

Definition with_header (h i : option ptr) (st : chain_state) : chain_state := on_tree (set_best_header h) (set_best_invalid i st).

Lemma core_header st h i : core st -> (forall q, h = Some q -> is_Some (objects st !! q)) -> (forall q, i = Some q -> is_Some (objects st !! q)) ->
  core (with_header h i st).
Proof. intros Hc Hh Hi. apply (core_kept st); simpl; try done; [by left | apply (core_chain _ Hc) | apply (core_main _ Hc)]. Qed.

Lemma core_candidates_set st C : core st -> (forall p, p ∈ C -> exists b, objects st !! p = Some b /\ linked b) ->
  core (on_candidates (fun _ => C) st).
Proof.
  intros Hc HC. apply (core_held st); simpl; try done; [apply (index_best_in _ (core_tree _ Hc)) | apply (core_invalid _ Hc) |
    apply (core_failed _ Hc) | apply (core_chain _ Hc) | apply (core_main _ Hc)].
Qed.

Lemma leave_header_spec st p : core st -> is_Some (objects st !! p) ->
  exists h i, leave_header p st = Some (with_header h i st) /\ core (with_header h i st).
Proof.
  intros Hc [b Hb]. unfold leave_header. case_bool_decide.
  - rewrite Hb. cbn [mbind option_bind]. exists (pprev b), (Some p). split; [done|]. apply core_header; [done | | intros q [= <-]; eauto].
    intros q Hq. pose proof (parent_height _ p b (core_store _ Hc) Hb) as Hpar. rewrite Hq in Hpar. destruct Hpar as (c & -> & _). eauto.
  - exists (pindexBestHeader (tree st)), (pindexBestInvalid st). assert (E : with_header (pindexBestHeader (tree st)) (pindexBestInvalid st) st = st) by (by destruct st as [[]]).
    rewrite E. done.
Qed.

(** ** Marks *)

Definition mark (f : Z) (p : ptr) (st : chain_state) : chain_state := dirty p (modify p (or_status f) st).

Lemma mark_core f st p : core st -> ~ on_main (objects st) (chainActive st) p ->
  Z.land f BLOCK_VALID_MASK = 0 -> Z.land f BLOCK_HAVE_DATA = 0 -> core (mark f p st).
Proof.
  intros Hc Hoff Hv Hd. apply (core_kept st); simpl; try done; [| apply (index_best_in _ (core_tree _ Hc)) | apply (core_invalid _ Hc) | by left | apply (core_chain _ Hc) |].
  - apply stored_alter; [apply _|]. intros b' _. by apply or_status_kept.
  - intros q c Hq Hcq. rewrite lookup_alter_ne in Hcq by congruence. by apply (core_main _ Hc).
Qed.

Lemma erase_core st p : core st -> core (erase p st).
Proof. intros Hc. apply (core_candidates_set st (setBlockIndexCandidates st ∖ {[p]}) Hc). intros q Hq. apply (core_candidates _ Hc). set_solver. Qed.

(** the blocks from [t] down to [p], without [p], are marked and leave the set *)
Section MarkDown.
Variables (st0 : chain_state) (t p : ptr).
Hypothesis Hc0 : core st0.
Hypothesis Hoff : ~ on_main (objects st0) (chainActive st0) p.

(** the candidates that are gone are marked *)
Definition only_marked (st : chain_state) : Prop :=
  core st /\ stored kept (objects st0) (objects st) /\ chainActive st = chainActive st0 /\
  forall y c, y ∈ setBlockIndexCandidates st0 -> y ∉ setBlockIndexCandidates st -> objects st !! y = Some c -> failed c = true.

Definition down_inv (x : ptr * chain_state) : Prop := only_marked x.2 /\ anc (objects st0) x.1 p.

Definition down_result (x : option chain_state) : Prop := exists st, x = Some st /\ only_marked st.

Lemma down_mark w st (leave : ptr -> chain_state -> chain_state) : down_inv (w, st) -> w <> p -> (leave = erase \/ leave = fun _ st => st) ->
  exists b q, objects st !! w = Some b /\ pprev b = Some q /\
  down_inv (q, leave w (mark BLOCK_FAILED_CHILD w st)) /\ exists c, objects st0 !! q = Some c /\ nHeight c = nHeight b - 1.
Proof.
  intros ((Hc & Hk & Ev & Hgone) & Hw) Hne Hleave. simpl in Hc, Hk, Ev, Hgone, Hw. apply anc_inv in Hw as [?|(b0 & q & Hb0 & Hq & Hqp)]; [done|].
  destruct (stored_fwd _ _ _ _ _ Hk Hb0) as (b & Hb & [[[= _ Eq _ Eh] _] _ _ _ _]). exists b, q. split; [done|]. split; [congruence|].
  assert (Hoffw : ~ on_main (objects st) (chainActive st) w).
  { rewrite Ev, <- (on_main_same _ _ _ _ (kept_same _ _ Hk)). intros Hm. apply Hoff.
    by apply (main_anc _ (core_store _ Hc0) _ w p (core_chain _ Hc0) Hm), (anc_step _ w b0 q). }
  assert (Hc' : core (mark BLOCK_FAILED_CHILD w st)) by (by apply mark_core).
  split; [split; [|done]|].
  - split; [destruct Hleave as [->| ->]; [by apply erase_core | done]|].
    split; [|split; [by destruct Hleave as [->| ->]|]].
    + etrans; [done|]. destruct Hleave as [->| ->]; (apply stored_alter; [apply _|]); intros b' _; by apply or_status_kept.
    + intros y c Hy Hy' Hcy. assert (Hcy' : alter (or_status BLOCK_FAILED_CHILD) w (objects st) !! y = Some c) by (by destruct Hleave as [->| ->]).
      destruct (decide (w = y)) as [<-|Hwy].
      * rewrite lookup_alter_eq, Hb in Hcy'. injection Hcy' as <-. rewrite has_flag_or. apply orb_true_r.
      * rewrite lookup_alter_ne in Hcy' by done. apply (Hgone y c); [done | | done]. intros Hin. apply Hy'.
        destruct Hleave as [->| ->]; [|done]. apply elem_of_difference. split; [done|]. apply not_elem_of_singleton. congruence.
  - pose proof (parent_height _ w b0 (core_store _ Hc0) Hb0) as Hpar. rewrite Hq in Hpar. destruct Hpar as (c & Hcq & ? & _).
    exists c. split; [done|lia].
Qed.

Lemma down_height w st b : down_inv (w, st) -> objects st !! w = Some b -> exists c, objects st0 !! w = Some c /\ nHeight c = nHeight b /\ 0 <= nHeight b.
Proof.
  intros ((Hc & Hk & _ & _) & _) Hb. destruct (stored_bwd _ _ _ _ _ Hk Hb) as (c & Hcw & [[[= _ _ _ E] _] _ _ _ _]). exists c.
  split; [done|]. split; [done|]. apply (node_height _ _ (core_store _ Hc w b Hb)).
Qed.

Definition down_measure (x : ptr * chain_state) : nat :=
  match objects st0 !! x.1 with Some b => Z.to_nat (nHeight b) | None => 0 end.

(** the step of either loop: [mark_step] erases, [mark_header_step] does not *)
Lemma down_loop (step : ptr * chain_state -> ptr * chain_state + option chain_state) (leave : ptr -> chain_state -> chain_state) b :
  (leave = erase \/ leave = fun _ st => st) ->
  (forall w st, step (w, st) = if bool_decide (w = p) then inr (Some st) else
     match objects st !! w with
     | None => inr None
     | Some b => match pprev b with None => inr None | Some q => inl (q, leave w (mark BLOCK_FAILED_CHILD w st)) end
     end) ->
  objects st0 !! t = Some b -> anc (objects st0) t p ->
  exists st, while_loop step (S (S (Z.to_nat (nHeight b)))) (t, st0) = Some (Some st) /\ only_marked st.
Proof.
  intros Hleave Hstep Hb Htp.
  destruct (while_total step down_inv down_measure down_result) with (fuel := S (S (Z.to_nat (nHeight b)))) (s := (t, st0)) as (x & -> & st & -> & H).
  - intros [w st] y Hi E. rewrite Hstep in E. case_bool_decide as Hw; [done|].
    destruct (down_mark w st leave Hi Hw Hleave) as (bw & q & Hbw & Hq & Hi' & c & Hcq & Eh). rewrite Hbw, Hq in E. injection E as <-. split.
    + done.
    + destruct (down_height w st bw Hi Hbw) as (cw & Hcw & E & ?). unfold down_measure. simpl. rewrite Hcq, Hcw.
      pose proof (node_height _ _ (core_store _ Hc0 q c Hcq)). lia.
  - intros [w st] y Hi E. rewrite Hstep in E. case_bool_decide as Hw.
    + injection E as <-. exists st. by destruct Hi.
    + destruct (down_mark w st leave Hi Hw Hleave) as (bw & q & Hbw & Hq & _). by rewrite Hbw, Hq in E.
  - split; [|done]. split; [done|]. split; [done|]. split; [done|]. by intros y c ? ?.
  - unfold down_measure. simpl. rewrite Hb. lia.
  - by exists st.
Qed.
End MarkDown.

(** ** Blocks that become candidates again *)

Lemma IsValid_spec st p b : core st -> objects st !! p = Some b -> linked b ->
  IsValid (nStatus b) BLOCK_VALID_TRANSACTIONS = Some (negb (failed b)).
Proof.
  intros Hc Hb Hl. destruct (obj_received _ (core_objects _ Hc) p b Hb Hl) as (_ & Hv & _). unfold IsValid, has_flag.
  change (negb (Z.land BLOCK_VALID_TRANSACTIONS (Z.lnot BLOCK_VALID_MASK) =? 0)) with false. cbv iota.
  destruct (Z.land (nStatus b) BLOCK_FAILED_MASK =? 0); simpl; [|done]. f_equal. apply Z.geb_le. done.
Qed.

Lemma IsValid_some b n : n = BLOCK_VALID_TREE \/ n = BLOCK_VALID_TRANSACTIONS \/ n = BLOCK_VALID_SCRIPTS ->
  exists v, IsValid (nStatus b) n = Some v /\ (v = true -> failed b = false).
Proof.
  intros Hn. unfold IsValid, has_flag. replace (negb (Z.land n (Z.lnot BLOCK_VALID_MASK) =? 0)) with false by (by destruct Hn as [->|[->| ->]]).
  destruct (negb (Z.land (nStatus b) BLOCK_FAILED_MASK =? 0)); eauto.
Qed.

Lemma readd_spec st p t bt : core st -> is_Some (objects st !! p) -> Tip (chainActive st) = Some t -> objects st !! t = Some bt ->
  exists C, readd p st = Some (on_candidates (fun _ => C) st) /\ core (on_candidates (fun _ => C) st) /\ setBlockIndexCandidates st ⊆ C /\
    forall b, objects st !! p = Some b -> linked b -> failed b = false -> ~ worse (p, b) (t, bt) -> p ∈ C.
Proof.
  intros Hc [b Hb] Ht Hbt. pose proof (core_store _ Hc) as Hs. unfold readd. rewrite Hb. cbn [mbind option_bind].
  assert (Esame : on_candidates (fun _ => setBlockIndexCandidates st) st = st) by (by destruct st).
  destruct (IsValid_some b BLOCK_VALID_TRANSACTIONS ltac:(auto)) as (v & Ev & _). rewrite Ev. cbn [mbind option_bind].
  destruct (v && negb (nChainTx b =? 0)) eqn:E.
  2:{ exists (setBlockIndexCandidates st). rewrite Esame. split; [done|]. split; [done|]. split; [done|]. intros b' [= <-] Hl Hf _.
      rewrite (IsValid_spec st p b Hc Hb Hl), Hf in Ev. injection Ev as <-.
      simpl in E. apply negb_false_iff, Z.eqb_eq in E. by destruct (Hl E). }
  apply andb_true_iff in E as [-> Hl%negb_true_iff%Z.eqb_neq]. rewrite Ht. cbn [mbind option_bind]. rewrite Hbt. cbn [mbind option_bind].
  destruct (CBlockIndexWorkComparator (p, b) (t, bt)) eqn:Ecmp.
  - exists (setBlockIndexCandidates st). rewrite Esame. split; [done|]. split; [done|]. split; [done|]. intros b' [= <-] _ _ Hw.
    apply comparator_spec in Ecmp; [done | apply (node_work _ _ (Hs p b Hb)) | apply (node_work _ _ (Hs t bt Hbt))].
  - exists ({[p]} ∪ setBlockIndexCandidates st). split; [done|]. split; [|split; [set_solver|]; intros; set_solver].
    apply core_candidates_set; [done|]. intros q [->%elem_of_singleton|Hq]%elem_of_union; [by exists b | by apply (core_candidates _ Hc)].
Qed.

Lemma for_readd l : forall st t bt, core st -> Tip (chainActive st) = Some t -> objects st !! t = Some bt ->
  (forall p, p ∈ l -> is_Some (objects st !! p)) ->
  exists C, for_blocks readd l st = Some (on_candidates (fun _ => C) st) /\ core (on_candidates (fun _ => C) st) /\ setBlockIndexCandidates st ⊆ C /\
    forall p b, p ∈ l -> objects st !! p = Some b -> linked b -> failed b = false -> ~ worse (p, b) (t, bt) -> p ∈ C.
Proof.
  induction l as [|q l IH]; intros st t bt Hc Ht Hbt Hl; cbn [for_blocks].
  - exists (setBlockIndexCandidates st). assert (E : on_candidates (fun _ => setBlockIndexCandidates st) st = st) by (by destruct st).
    rewrite E. split; [done|]. split; [done|]. split; [done|]. intros p b Hp. by apply not_elem_of_nil in Hp.
  - destruct (readd_spec st q t bt Hc (Hl q ltac:(by left)) Ht Hbt) as (C1 & -> & Hc1 & Hsub1 & Hq). cbn [mbind option_bind].
    destruct (IH (on_candidates (fun _ => C1) st) t bt Hc1 Ht Hbt) as (C & -> & Hc2 & Hsub2 & Hrest); [intros p Hp; apply Hl; by right|].
    exists C. split; [done|]. split; [done|]. simpl in Hsub2. split; [set_solver|]. intros p b [->|Hp]%elem_of_cons Hb Hlb Hf Hw; [|by apply (Hrest p b)].
    apply Hsub2. by apply (Hq b).
Qed.

Lemma all_blocks_spec st p : core st -> p ∈ all_blocks st <-> is_Some (objects st !! p).
Proof.
  intros Hc. unfold all_blocks. rewrite list_elem_of_fmap. split.
  - intros ([h q] & -> & Hin). simpl. apply elem_of_map_to_list in Hin. apply (index_map _ (core_tree _ Hc)) in Hin as (b & -> & _). eauto.
  - intros [b Hb]. destruct (index_hash _ (core_tree _ Hc) p b Hb) as [h Hh]. exists (h, p). split; [done|].
    apply elem_of_map_to_list, (index_map _ (core_tree _ Hc)). eauto.
Qed.

Lemma readd_all st : core st -> is_Some (Tip (chainActive st)) ->
  exists C, for_blocks readd (all_blocks st) st = Some (on_candidates (fun _ => C) st) /\ chain_state_ok (on_candidates (fun _ => C) st).
Proof.
  intros Hc [t Ht]. destruct (tip_some _ _ t (core_chain _ Hc) Ht) as (bt & Hbt & _).
  destruct (for_readd (all_blocks st) st t bt Hc Ht Hbt) as (C & E & Hc' & _ & HC); [intros p; by apply all_blocks_spec|].
  exists C. split; [done|]. split; [done|]. intros p b Hb Hl Hf Hw. apply (HC p b); [apply all_blocks_spec; eauto | done..|].
  by apply (Hw t bt).
Qed.

Lemma contains_main s v p b : s !! p = Some b -> Contains s v p = Some (bool_decide (on_main s v p)).
Proof.
  intros Hb. unfold Contains. rewrite Hb. cbn [mbind option_bind]. f_equal. apply bool_decide_ext. split.
  - intros H. by exists b.
  - intros (b' & Hb' & H). rewrite Hb in Hb'. by injection Hb' as <-.
Qed.

(** ** InvalidateBlock *)

Section Invalidate.
Variables (st0 : chain_state) (t p : ptr) (b : CBlockIndex) (q : ptr).
Hypothesis Hc0 : core st0.
Hypothesis Ht0 : Tip (chainActive st0) = Some t.
Hypothesis Hb : objects st0 !! p = Some b.
Hypothesis Hq : pprev b = Some q.

Abbreviation was_main := (on_main (objects st0) (chainActive st0) p).

(** the chain has lost some of its blocks *)
Definition undone (was : bool) (st : chain_state) : Prop :=
  exists v h i t', st = set_chain v (with_header h i st0) /\ core st /\ Tip v = Some t' /\
    (if was then was_main else v = chainActive st0) /\ (was_main -> anc (objects st0) t' p \/ t' = q).

Definition undone_result (x : option (option bool * chain_state)) : Prop :=
  exists was st, x = Some (Some was, st) /\ undone was st /\ ~ on_main (objects st) (chainActive st) p.

Lemma invalidate_step_spec was st : undone was st ->
  match invalidate_step p (was, st) with
  | inl (was', st') => undone was' st' /\ exists t1 b1 t2 b2, Tip (chainActive st) = Some t1 /\ Tip (chainActive st') = Some t2 /\
      objects st0 !! t1 = Some b1 /\ objects st0 !! t2 = Some b2 /\ nHeight b2 < nHeight b1
  | inr r => undone_result r
  end.
Proof.
  intros Hu. pose proof Hu as (v & h & i & t' & -> & Hc & Ht & Hwas & Hmain). unfold invalidate_step.
  set (st := set_chain v (with_header h i st0)) in *. change (objects st) with (objects st0). change (chainActive st) with v.
  rewrite (contains_main _ v p b Hb). case_bool_decide as Hp.
  2:{ exists was, st. done. }
  rewrite Ht. pose proof (core_store _ Hc) as Hs. pose proof (core_chain _ Hc) as Hv. change (objects st) with (objects st0) in Hs, Hv.
  assert (Htp : anc (objects st0) t' p) by (by apply (main_tip _ _ t' p Hs Hv Ht)).
  destruct (tip_some _ _ t' Hv Ht) as (bt & Hbt & _).
  assert (Hprev : exists q', pprev bt = Some q' /\ (anc (objects st0) q' p \/ q' = q)).
  { apply anc_inv in Htp as [->|(b' & q' & Hb' & Hq' & Ha)]; [rewrite Hb in Hbt; injection Hbt as <-; eauto|].
    rewrite Hbt in Hb'. injection Hb' as <-. eauto. }
  destruct Hprev as (q' & Hq' & Hor). destruct (DisconnectTip_spec st t' bt q' Hc Ht Hbt Hq') as (v' & -> & Hc' & Ht').
  destruct (leave_header_spec (set_chain v' st) t' Hc') as (h' & i' & -> & Hc''); [simpl; eauto|].
  assert (Hm0 : was_main).
  { destruct was; [done|]. simpl in Hwas. by rewrite <- Hwas. }
  split; [by exists v', h', i', q'|]. pose proof (parent_height _ t' bt Hs Hbt) as Hpar. rewrite Hq' in Hpar.
  destruct Hpar as (c & Hcq & E & _). exists t', bt, q', c. split; [done|]. split; [done|]. split; [done|]. split; [done|lia].
Qed.

Lemma invalidate_loop h i : core (with_header h i st0) ->
  exists was st, while_loop (invalidate_step p) (S (length (chainActive st0))) (false, with_header h i st0) = Some (Some (Some was, st)) /\
    undone was st /\ ~ on_main (objects st) (chainActive st) p.
Proof.
  intros Hc. pose proof (core_chain _ Hc0) as Hv. pose proof (core_store _ Hc0) as Hs. destruct (tip_some _ _ t Hv Ht0) as (bt & Hbt & Hlen & _).
  destruct (while_total (invalidate_step p) (fun x => undone x.1 x.2)
    (fun x => match Tip (chainActive x.2) with Some t => match objects st0 !! t with Some b => Z.to_nat (nHeight b) | None => 0 end | None => 0 end)%nat
    undone_result) with (fuel := S (length (chainActive st0))) (s := (false, with_header h i st0)) as (x & -> & was & st & -> & H).
  - intros [w st] [w' st'] Hi E. pose proof (invalidate_step_spec w st Hi) as H. rewrite E in H.
    destruct H as [Hi' (t1 & b1 & t2 & b2 & E1 & E2 & E3 & E4 & ?)]. split; [done|]. simpl. rewrite E1, E2, E3, E4.
    pose proof (node_height _ _ (Hs t2 b2 E4)). lia.
  - intros [w st] r Hi E. pose proof (invalidate_step_spec w st Hi) as H. by rewrite E in H.
  - exists (chainActive st0), h, i, t. split; [done|]. split; [done|]. split; [done|]. split; [done|]. simpl. intros Hm. left.
    by apply (main_tip _ _ t p Hs Hv Ht0).
  - simpl. rewrite Ht0, Hbt. lia.
  - by exists was, st.
Qed.

(** the marks, after the blocks are disconnected *)
Lemma invalidate_mark was st : undone was st -> ~ on_main (objects st) (chainActive st) p ->
  exists st', (if (was : bool) then
              b ← objects st !! t;
              r ← while_loop (mark_step p) (S (S (Z.to_nat (nHeight b)))) (t, st);
              r
            else Some st) = Some st' /\ core st' /\ stored kept (objects st0) (objects st') /\ chainActive st' = chainActive st.
Proof.
  intros (v & h & i & t' & -> & Hc & _ & Hwas & _) Hoff. set (st := set_chain v (with_header h i st0)) in *.
  destruct was; [|exists st; done]. change (objects st) with (objects st0).
  pose proof (core_chain _ Hc0) as Hv. pose proof (core_store _ Hc0) as Hs. destruct (tip_some _ _ t Hv Ht0) as (bt & Hbt & _).
  rewrite Hbt. cbn [mbind option_bind].
  destruct (down_loop st t p Hc Hoff (mark_step p) erase bt ltac:(by left) ltac:(done) Hbt) as (st' & -> & ? & ? & ? & _).
  - by apply (main_tip _ _ t p Hs Hv Ht0).
  - cbn [mbind option_bind]. by exists st'.
Qed.
End Invalidate.

(** after the call the block is marked as failed, the chain ends below it, and the
    candidates are complete again *)
Lemma InvalidateBlock_spec st p b q : core st -> is_Some (Tip (chainActive st)) -> objects st !! p = Some b -> pprev b = Some q ->
  exists st', InvalidateBlock p st = Some (true, st') /\ chain_state_ok st' /\ stored kept (objects st) (objects st') /\
    (exists b', objects st' !! p = Some b' /\ failed b' = true) /\ is_Some (Tip (chainActive st')) /\
    (if decide (on_main (objects st) (chainActive st) p) then Tip (chainActive st') = Some q else chainActive st' = chainActive st).
Proof.
  intros Hc [t Ht] Hb Hq. pose proof (core_store _ Hc) as Hs. unfold InvalidateBlock.
  destruct (leave_header_spec st p Hc ltac:(eauto)) as (h & i & -> & Hch). cbn [mbind option_bind]. rewrite Ht.
  destruct (invalidate_loop st t p b q Hc Ht Hb Hq h i Hch) as (was & st1 & E1 & Hu & Hoff).
  change (chainActive (with_header h i st)) with (chainActive st). rewrite E1. cbn [mbind option_bind].
  destruct (invalidate_mark st t p q Hc Ht was st1 Hu Hoff) as (st2 & -> & Hc2 & Hk2 & Ev2). cbn [mbind option_bind]. cbv zeta.
  destruct Hu as (v & h1 & i1 & t1 & -> & Hc1 & Ht1 & Hwas & Hmain). simpl in Ev2, Hoff.
  destruct (stored_fwd _ _ _ _ _ Hk2 Hb) as (b2 & Hb2 & _).
  assert (Hoff2 : ~ on_main (objects st2) (chainActive st2) p) by (by rewrite Ev2, <- (on_main_same _ _ _ _ (kept_same _ _ Hk2))).
  pose proof (fail_block_core st2 p b2 Hc2 Hb2 Hoff2) as Hc3.
  change (on_failed _ (erase p _)) with (fail_block p st2). set (st3 := fail_block p st2) in *.
  assert (Ht3 : Tip (chainActive st3) = Some t1) by (simpl; by rewrite Ev2).
  destruct (readd_all st3 Hc3 ltac:(eauto)) as (C & -> & [Hc4 Hcomp]). cbn [mbind option_bind].
  destruct (InvalidChainFound_spec (on_candidates (fun _ => C) st3) p Hc4) as (i2 & -> & Hc5); [simpl; rewrite lookup_alter_eq, Hb2; simpl; eauto | by exists t1 |].
  cbn [mbind option_bind]. eexists. split; [done|]. split; [done|]. split; [|split; [|split; [by exists t1|]]].
  - etrans; [done|]. simpl. apply stored_alter; [apply _|]. intros b' _. by apply or_status_kept.
  - simpl. rewrite lookup_alter_eq, Hb2. simpl. eexists. split; [done|]. apply or_failed_valid.
  - simpl. rewrite Ev2. case_decide as Hd.
    + rewrite Ht1. destruct (Hmain Hd) as [Ha| ->]; [|done]. exfalso. apply Hoff. by apply (main_tip _ _ t1 p Hs (core_chain _ Hc1) Ht1).
    + by destruct was.
Qed.

Lemma dirty_core st p : core st -> core (dirty p st).
Proof.
  intros Hc. apply (core_kept st); simpl; try done; [apply (index_best_in _ (core_tree _ Hc)) | apply (core_invalid _ Hc) | by left | apply (core_chain _ Hc) | apply (core_main _ Hc)].
Qed.

(** the parent, when there is one, is linked *)
Definition parent_linked (s : store) (b : CBlockIndex) : Prop := forall q c, pprev b = Some q -> s !! q = Some c -> linked c.

(** *** A block that is not linked gets new data *)

Section Replace.
Variables (st : chain_state) (p : ptr) (b b' : CBlockIndex).
Hypothesis Hc : core st.
Hypothesis Hb : objects st !! p = Some b.
Hypothesis Hzero : nChainTx b = 0.
Hypothesis Hnode : same_node b b'.
Hypothesis Hflag : has_flag b BLOCK_FAILED_VALID = true -> has_flag b' BLOCK_FAILED_VALID = true.
Hypothesis Hwait : p ∉ map snd (mapBlocksUnlinked st).
Hypothesis Hlink : linked b' -> received b' /\ 0 < nChainTx b' <= max_tx * (nHeight b' + 1) /\ parent_linked (objects st) b'.

Abbreviation s' := (alter (fun _ => b') p (objects st)).

Lemma replace_same : stored same_node (objects st) s'.
Proof. apply stored_alter; [apply _|]. intros a Ha. rewrite Hb in Ha. by injection Ha as <-. Qed.

Lemma replace_at x a : s' !! x = Some a -> x = p /\ a = b' \/ x <> p /\ objects st !! x = Some a.
Proof.
  destruct (decide (p = x)) as [<-|Hne].
  - rewrite lookup_alter_eq, Hb. simpl. intros [= <-]. by left.
  - rewrite lookup_alter_ne by done. auto.
Qed.

Lemma replace_back x a : objects st !! x = Some a -> linked a -> x <> p /\ s' !! x = Some a.
Proof.
  intros Ha Hl. assert (x <> p) by (intros ->; rewrite Hb in Ha; injection Ha as <-; by destruct (Hl Hzero)).
  split; [done|]. by rewrite lookup_alter_ne by congruence.
Qed.

Lemma replace_objects : objects_ok s'.
Proof.
  destruct (core_objects _ Hc) as [H1 H2 H3 H4 H5 H6]. pose proof Hnode as [[= E1 E2 E3 E4] [= E5 E6 E7]]. split.
  - intros x a [[-> ->]|[_ Ha]]%replace_at Hl; [by apply Hlink | by apply (H1 x)].
  - intros x a [[-> ->]|[_ Ha]]%replace_at Hl; [by apply Hlink | by apply (H2 x)].
  - intros x a q c [[-> ->]|[_ Ha]]%replace_at Hl Hq Hcq.
    + apply replace_at in Hcq as [[-> ->]|[_ Hcq]]; [done|]. by apply (proj2 (proj2 (Hlink Hl)) q c).
    + apply replace_at in Hcq as [[-> ->]|[_ Hcq]]; [|by apply (H3 x a q c)]. destruct (H3 x a p b Ha Hl Hq Hb Hzero).
  - assert (Hw : forall x a, s' !! x = Some a -> exists a0, objects st !! x = Some a0 /\ work a0 = work a /\ pprev a0 = pprev a).
    { intros x a [[-> ->]|[_ Ha]]%replace_at; [exists b; unfold work; by rewrite E5, E2 | by exists a]. }
    intros x a q c Ha Hq Hcq. destruct (Hw x a Ha) as (a0 & Ha0 & <- & Ea). destruct (Hw q c Hcq) as (c0 & Hc0 & <- & _).
    apply (H4 x a0 q c0); [done | congruence | done].
  - intros x a [[-> ->]|[_ Ha]]%replace_at; [rewrite <- E4; by apply (H5 p) | by apply (H5 x)].
  - intros x a [[-> ->]|[_ Ha]]%replace_at Hn; [rewrite <- E1; apply (H6 p b); [done|congruence] | by apply (H6 x a)].
Qed.

Lemma replace_core : core (modify p (fun _ => b') st).
Proof.
  pose proof replace_same as Hs. assert (Hin : forall x, is_Some (objects st !! x) -> is_Some (s' !! x)).
  { intros x [a Ha]. destruct (stored_fwd _ _ _ _ _ Hs Ha) as (a' & -> & _). eauto. }
  split; simpl.
  - apply (index_ok_kept (tree st)); try done; [apply (core_tree _ Hc)|]. intros q Hq. apply Hin, (index_best_in _ (core_tree _ Hc) q Hq).
  - apply (chain_ok_same (objects st)); [done | apply (core_chain _ Hc)].
  - apply replace_objects.
  - intros x a Hx [[-> ->]|[_ Ha]]%replace_at; rewrite <- (on_main_same _ _ _ _ Hs) in Hx; [|by apply (core_main _ Hc)].
    destruct (core_main _ Hc p b Hx Hb) as (Hl & _). by destruct (Hl Hzero).
  - intros x Hx. destruct (core_candidates _ Hc x Hx) as (a & Ha & Hl). exists a. split; [by apply replace_back | done].
  - destruct (core_waiting _ Hc) as [Hnd Hw]. split; [done|]. intros a x Hx. destruct (Hw a x Hx) as (d & Hd & ?). exists d.
    rewrite lookup_alter_ne; [done|]. intros <-. apply Hwait. apply list_elem_of_fmap. by exists (a, p).
  - intros x Hx. apply Hin, (core_invalid _ Hc x Hx).
  - intros x Hx. destruct (core_failed _ Hc x Hx) as (a & Ha & Hf). destruct (decide (p = x)) as [<-|Hne].
    + rewrite lookup_alter_eq, Hb. simpl. exists b'. rewrite Hb in Ha. injection Ha as <-. auto.
    + rewrite lookup_alter_ne by done. eauto.
Qed.

Lemma replace_tip t : Tip (chainActive st) = Some t -> t <> p.
Proof.
  intros Ht ->. destruct (tip_safe st Hc p Ht) as (c & Hcp & Hl & _). rewrite Hb in Hcp. injection Hcp as <-. by destruct (Hl Hzero).
Qed.

(** only the block itself can be missing among the candidates *)
Lemma replace_complete : complete (Tip (chainActive st)) st -> forall C, setBlockIndexCandidates st ⊆ C ->
  (linked b' -> (forall t c, Tip (chainActive st) = Some t -> objects st !! t = Some c -> ~ worse (p, b') (t, c)) -> p ∈ C) ->
  complete (Tip (chainActive st)) (on_candidates (fun _ => C) (modify p (fun _ => b') st)).
Proof.
  intros Hcomp C HC Hp x a Ha Hl Hf Hw. simpl in *.
  assert (Hw' : forall t c, Tip (chainActive st) = Some t -> objects st !! t = Some c -> ~ worse (x, a) (t, c)).
  { intros t c Ht Hct. apply Hw; [done|]. rewrite lookup_alter_ne; [done|]. pose proof (replace_tip t Ht). congruence. }
  apply replace_at in Ha as [[-> ->]|[_ Ha]]; [by apply Hp|]. by apply HC, (Hcomp x a).
Qed.
End Replace.

(** *** The queue of [ReceivedBlockTransactions] *)

(** a block of the queue: its data is there, and its parent is linked *)
Definition queued (s : store) (p : ptr) : Prop :=
  exists b, s !! p = Some b /\ received b /\ nChainTx b = 0 /\ parent_linked s b.

(** linking a block leaves its flags *)
Definition same_status (a b : CBlockIndex) : Prop := same_node a b /\ nStatus a = nStatus b.

#[export] Instance same_status_preorder : PreOrder same_status.
Proof. split; [done|]. intros a b c [? ?] [? ?]. split; [by etrans | congruence]. Qed.

Record queue_inv (st0 : chain_state) (p0 : ptr) (x : list ptr * chain_state) : Prop := {
  queue_ok : chain_state_ok x.2;
  queue_nodup : NoDup (x.1 ++ map snd (mapBlocksUnlinked x.2));
  queue_blocks : Forall (queued (objects x.2)) x.1;
  queue_chain : chainActive x.2 = chainActive st0;
  queue_same : stored same_status (objects st0) (objects x.2);
  queue_first : p0 ∈ x.1 \/ exists b, objects x.2 !! p0 = Some b /\ linked b;
}.

(** the number of transactions up to a block of the queue *)
Lemma queue_count st p b : core st -> objects st !! p = Some b -> received b -> parent_linked (objects st) b ->
  exists n, match pprev b with None => Some 0 | Some q => c ← objects st !! q; Some (nChainTx c) end = Some n /\
    u32 (n + nTx b) = n + nTx b /\ 0 < n + nTx b <= max_tx * (nHeight b + 1).
Proof.
  intros Hc Hb (_ & _ & Htx) Hpar. pose proof (core_store _ Hc) as Hs. pose proof (core_objects _ Hc) as Ho.
  pose proof (node_height _ _ (Hs p b Hb)) as Hh. pose proof (obj_height _ Ho p b Hb) as Hmax.
  assert (H : exists n, match pprev b with None => Some 0 | Some q => c ← objects st !! q; Some (nChainTx c) end = Some n /\ 0 <= n <= max_tx * nHeight b).
  { pose proof (parent_height _ p b Hs Hb) as Hp. destruct (pprev b) as [q|] eqn:Eq; [|exists 0; split; [done|nia]].
    destruct Hp as (c & Hcq & Eh & _). rewrite Hcq. cbn [mbind option_bind]. exists (nChainTx c). split; [done|].
    pose proof (obj_count _ Ho q c Hcq (Hpar q c Eq Hcq)). replace (nHeight b) with (nHeight c + 1) by lia. lia. }
  destruct H as (n & E & Hn). exists n. split; [done|]. assert (Hle : 0 < n + nTx b <= max_tx * (nHeight b + 1)) by nia.
  split; [|done]. unfold u32. apply Z.mod_small. pose proof limits_fit. nia.
Qed.

(** the entries of [mapBlocksUnlinked] that wait for a block *)
Lemma waiting_split (U : list (ptr * ptr)) p (queue : list ptr) :
  queue ++ map snd U ≡ₚ (queue ++ map snd (base.filter (fun e => e.1 = p) U)) ++ map snd (base.filter (fun e => e.1 <> p) U).
Proof.
  rewrite <- app_assoc. apply Permutation_app_head. rewrite <- map_app. apply Permutation_map. symmetry.
  apply (filter_app_complement (fun e : ptr * ptr => e.1 = p) U).
Qed.

Section Step.
Variables (st : chain_state) (p : ptr) (b : CBlockIndex) (n : Z).
Hypothesis Hok : chain_state_ok st.
Hypothesis Hb : objects st !! p = Some b.
Hypothesis Hr : received b.
Hypothesis Hzero : nChainTx b = 0.
Hypothesis Hpar : parent_linked (objects st) b.
Hypothesis Hn : 0 < n <= max_tx * (nHeight b + 1).
Hypothesis Hwait : p ∉ map snd (mapBlocksUnlinked st).

Abbreviation b' := (set_sequence_id (nBlockSequenceId st) (set_chain_tx n b)).
Abbreviation st1 := (set_sequence (i32 (nBlockSequenceId st + 1)) (modify p (fun _ => b') st)).

Lemma linked_candidate : exists C,
  match Tip (chainActive st) with
  | None => Some (candidate p st1)
  | Some tip => t ← objects st1 !! tip; Some (if CBlockIndexWorkComparator (p, b') (tip, t) then st1 else candidate p st1)
  end = Some (on_candidates (fun _ => C) st1) /\ core (on_candidates (fun _ => C) st1) /\ complete (Tip (chainActive st)) (on_candidates (fun _ => C) st1).
Proof.
  pose proof Hok as [Hc Hcomp]. pose proof (core_store _ Hc) as Hs.
  assert (Hnode : same_node b b') by done. assert (Hlink : linked b' -> received b' /\ 0 < nChainTx b' <= max_tx * (nHeight b' + 1) /\ parent_linked (objects st) b') by done.
  pose proof (replace_core st p b b' Hc Hb Hzero Hnode ltac:(done) Hwait Hlink) as Hc1.
  assert (Hin : forall C, (forall x, x ∈ C -> x = p \/ x ∈ setBlockIndexCandidates st) -> core (on_candidates (fun _ => C) st1)).
  { intros C HC. pose proof (core_candidates_set _ C Hc1) as H. destruct H as [H1 H2 H3 H4 H5 H6 H7 H8]; [|by split].
    intros x [->|Hx]%HC; [|by apply (core_candidates _ Hc1)]. exists b'. split; [simpl; by rewrite lookup_alter_eq, Hb|]. unfold linked. simpl. lia. }
  pose proof (replace_complete st p b b' Hc Hb Hzero Hcomp) as Hcomp1.
  destruct (Tip (chainActive st)) as [t|] eqn:Ht.
  2:{ exists ({[p]} ∪ setBlockIndexCandidates st). split; [done|]. split; [apply Hin; set_solver|]. apply (Hcomp1 ({[p]} ∪ setBlockIndexCandidates st)); [set_solver|]. intros _ _. set_solver. }
  pose proof (replace_tip st p b Hc Hb Hzero t Ht) as Hne. destruct (tip_some _ _ t (core_chain _ Hc) Ht) as (bt & Hbt & _).
  change (objects st1) with (alter (fun _ => b') p (objects st)). rewrite lookup_alter_ne, Hbt by congruence. cbn [mbind option_bind].
  destruct (CBlockIndexWorkComparator (p, b') (t, bt)) eqn:E.
  - exists (setBlockIndexCandidates st). split; [done|]. split; [apply Hin; auto|]. apply (Hcomp1 (setBlockIndexCandidates st)); [done|]. intros _ Hw. exfalso.
    apply (Hw t bt); [done..|]. apply comparator_spec in E; [done | apply (node_work _ _ (Hs p b Hb)) | apply (node_work _ _ (Hs t bt Hbt))].
  - exists ({[p]} ∪ setBlockIndexCandidates st). split; [done|]. split; [apply Hin; set_solver|]. apply (Hcomp1 ({[p]} ∪ setBlockIndexCandidates st)); [set_solver|]. intros _ _. set_solver.
Qed.

(** the entries leave the map *)
Lemma unlinked_core C : core (on_candidates (fun _ => C) st1) ->
  core (on_unlinked (base.filter (fun e => e.1 <> p)) (on_candidates (fun _ => C) st1)).
Proof.
  intros [H1 H2 H3 H4 H5 [Hnd Hw] H7 H8]. split; try done. simpl in *. split.
  - pose proof (waiting_split (mapBlocksUnlinked st) p []) as E. simpl in E. rewrite E in Hnd. by apply NoDup_app in Hnd as (_ & _ & ?).
  - intros a x [_ Hx]%list_elem_of_filter. by apply Hw.
Qed.
End Step.

Lemma queue_step_spec st0 p0 x : queue_inv st0 p0 x ->
  match queue_step x with
  | inl y => queue_inv st0 p0 y /\ (length y.1 + length (mapBlocksUnlinked y.2) < length x.1 + length (mapBlocksUnlinked x.2))%nat
  | inr r => exists st, r = Some st /\ queue_inv st0 p0 ([], st)
  end.
Proof.
  destruct x as [[|p queue] st]; intros Hi; [by exists st|]. destruct Hi as [Hok Hnd Hq Ev Hsame Hfirst]. simpl in Hok, Hnd, Hq, Ev, Hsame, Hfirst.
  apply Forall_cons in Hq as [(b & Hb & Hr & Hzero & Hpar) Hq]. pose proof Hok as [Hc _].
  destruct (queue_count st p b Hc Hb Hr Hpar) as (n & En & Eu & Hn). unfold queue_step. rewrite Hb. cbn [mbind option_bind].
  rewrite En. cbn [mbind option_bind]. rewrite Eu. cbv zeta. apply NoDup_cons in Hnd as [Hp Hnd]. rewrite elem_of_app in Hp.
  assert (Hwait : p ∉ map snd (mapBlocksUnlinked st)) by tauto.
  destruct (linked_candidate st p b (n + nTx b) Hok Hb Hr Hzero Hpar Hn Hwait) as (C & E & Hc1 & Hcomp1).
  match goal with |- context [Tip (chainActive ?x)] => change (chainActive x) with (chainActive st) end. rewrite E. cbn [mbind option_bind].
  pose proof (waiting_split (mapBlocksUnlinked st) p queue) as Hperm.
  assert (Hb' : forall x bx, objects st !! x = Some bx -> x <> p -> alter (fun _ => set_sequence_id (nBlockSequenceId st) (set_chain_tx (n + nTx b) b)) p (objects st) !! x = Some bx)
    by (intros x bx Hx Hne; by rewrite lookup_alter_ne by congruence).
  split.
  - split; simpl.
    + split; [by apply unlinked_core | done].
    + by rewrite <- Hperm.
    + apply Forall_app. split.
      * rewrite Forall_forall in Hq |- *. intros x Hx. destruct (Hq x Hx) as (bx & Hbx & Hrx & Hzx & Hpx). exists bx.
        split; [apply Hb'; [done|]; intros ->; tauto|]. split; [done|]. split; [done|]. intros q c Hqx Hcq.
        apply (replace_at st p b _ Hb) in Hcq as [[-> ->]|[_ Hcq]]; [unfold linked; simpl; lia | by apply (Hpx q c)].
      * apply Forall_forall. intros x ([a x'] & -> & Hax)%list_elem_of_fmap. apply list_elem_of_filter in Hax as [Ha Hax]. simpl in Ha. subst a. simpl.
        destruct (proj2 (core_waiting _ Hc) p x' Hax) as (bx & Hbx & Hpx & Hrx & Hzx). exists bx.
        split; [apply Hb'; [done|]; intros ->; apply Hwait, list_elem_of_fmap; by exists (p, p)|]. split; [done|]. split; [done|].
        intros q c Hqx Hcq. rewrite Hpx in Hqx. injection Hqx as <-. apply (replace_at st p b _ Hb) in Hcq as [[_ ->]|[? _]]; [unfold linked; simpl; lia | done].
    + done.
    + etrans; [done|]. apply stored_alter; [apply _|]. intros a Ha. rewrite Hb in Ha. by injection Ha as <-.
    + destruct Hfirst as [[->|Hin]%elem_of_cons|(bf & Hbf & Hl)]; [right | left; apply elem_of_app; by left | right].
      * rewrite lookup_alter_eq, Hb. simpl. eexists. split; [done|]. unfold linked. simpl. lia.
      * exists bf. split; [|done]. by apply (replace_back st p b _ Hb Hzero).
  - simpl. apply Permutation_length in Hperm. rewrite !length_app, !length_map in Hperm. rewrite length_app, length_map. lia.
Qed.

Lemma queue_loop st p : queue_inv st p ([p], st) ->
  exists st', while_loop queue_step (S (S (length (mapBlocksUnlinked st)))) ([p], st) = Some (Some st') /\ queue_inv st p ([], st').
Proof.
  intros Hi. destruct (while_total queue_step (queue_inv st p) (fun x => length x.1 + length (mapBlocksUnlinked x.2))%nat
    (fun r => exists st', r = Some st' /\ queue_inv st p ([], st')))
    with (fuel := S (S (length (mapBlocksUnlinked st)))) (s := ([p], st)) as (x & -> & st' & -> & H).
  - intros x y Hx E. pose proof (queue_step_spec st p x Hx) as H. by rewrite E in H.
  - intros x y Hx E. pose proof (queue_step_spec st p x Hx) as H. by rewrite E in H.
  - done.
  - simpl. lia.
  - by exists st'.
Qed.

Lemma failed_of_valid b : has_flag b BLOCK_FAILED_VALID = true -> failed b = true.
Proof.
  unfold has_flag. destruct (Z.eqb_spec (Z.land (nStatus b) BLOCK_FAILED_MASK) 0) as [E|]; [|done]. intros H. exfalso.
  change BLOCK_FAILED_VALID with (Z.land BLOCK_FAILED_MASK BLOCK_FAILED_VALID) in H. by rewrite Z.land_assoc, E in H.
Qed.

(** *** ReceivedBlockTransactions *)

(** the object with the data of the block *)
Lemma received_object n file pos (witness : bool) b : failed b = false -> 0 < n <= max_tx ->
  let b1 := or_status BLOCK_HAVE_DATA (set_block_data n file pos b) in
  let b2 := if witness then or_status BLOCK_OPT_WITNESS b1 else b1 in
  exists r x, RaiseValidity (nStatus b2) BLOCK_VALID_TRANSACTIONS = Some (r, x) /\ received (set_status x b2) /\
    failed (set_status x b2) = false /\ same_node b (set_status x b2) /\ nChainTx (set_status x b2) = 0.
Proof.
  intros Hf Hn b1 b2. assert (Hb1 : has_flag b1 BLOCK_HAVE_DATA = true /\ failed b1 = false).
  { unfold b1. rewrite !has_flag_or, !orb_true_iff. split; [by right|]. change (has_flag (set_block_data n file pos b) BLOCK_FAILED_MASK) with (failed b). by rewrite Hf. }
  assert (Hb2 : has_flag b2 BLOCK_HAVE_DATA = true /\ failed b2 = false).
  { unfold b2. destruct Hb1 as [H1 H2]. destruct witness; [|done]. rewrite !has_flag_or, H1, H2. done. }
  assert (Hx : nTx b2 = n /\ nChainTx b2 = 0 /\ same_node b b2) by (by unfold b2; destruct witness).
  destruct Hb2 as [Hd Hf2]. destruct Hx as (E1 & E2 & E3).
  destruct (RaiseValidity_spec b2 BLOCK_VALID_TRANSACTIONS Hf2 ltac:(by left)) as (r & x & E & Hv & Hg). exists r, x. split; [done|].
  assert (Hkeep : forall g, Z.land BLOCK_VALID_MASK g = 0 -> has_flag (set_status x b2) g = has_flag b2 g) by (intros g H; unfold has_flag; simpl; by rewrite (Hg g H)).
  split; [|split; [by rewrite Hkeep|done]]. split; [by rewrite Hkeep|]. simpl. rewrite E1. split; [lia|done].
Qed.

(** the block waits for its parent *)
Lemma wait_core st p b q : core st -> objects st !! p = Some b -> pprev b = Some q -> received b -> nChainTx b = 0 ->
  p ∉ map snd (mapBlocksUnlinked st) -> core (on_unlinked (fun U => U ++ [(q, p)]) st).
Proof.
  intros [H1 H2 H3 H4 H5 [Hnd Hw] H7 H8] Hb Hq Hr Hz Hwait. split; try done. simpl. split.
  - rewrite map_app. apply NoDup_app. split; [done|]. split; [|apply NoDup_singleton]. intros y Hy Hy'. apply list_elem_of_singleton in Hy'. by subst y.
  - intros a y [Hin|Hin]%elem_of_app; [by apply Hw|]. apply list_elem_of_singleton in Hin. injection Hin as -> ->. by exists b.
Qed.

(** the block and those that wait for it are linked *)
Lemma queue_linked st p b : chain_state_ok st -> objects st !! p = Some b -> received b -> nChainTx b = 0 ->
  p ∉ map snd (mapBlocksUnlinked st) -> parent_linked (objects st) b ->
  exists st', (r ← while_loop queue_step (S (S (length (mapBlocksUnlinked st)))) ([p], st); r) = Some st' /\ chain_state_ok st' /\
    chainActive st' = chainActive st /\ stored same_status (objects st) (objects st') /\ exists b', objects st' !! p = Some b' /\ linked b'.
Proof.
  intros Hok Hb Hr Hz Hwait Hpar. destruct (queue_loop st p) as (st' & -> & [Hok' _ _ Ev Hs' Hfirst]).
  - split; simpl; [done | | | done | done | left; by left].
    + apply NoDup_cons. split; [done | apply (core_waiting _ (proj1 Hok))].
    + apply Forall_singleton. by exists b.
  - exists st'. cbn [mbind option_bind]. split_and!; try done. by destruct Hfirst as [Hin%not_elem_of_nil|?].
Qed.

(** the data of a block arrive: the state stays right, and the block is linked when its
    parent is *)
Lemma ReceivedBlockTransactions_spec n file pos witness st p b : chain_state_ok st -> objects st !! p = Some b ->
  nChainTx b = 0 -> p ∉ map snd (mapBlocksUnlinked st) -> failed b = false -> 0 < n <= max_tx ->
  exists st', ReceivedBlockTransactions n file pos witness p st = Some st' /\ chain_state_ok st' /\
    chainActive st' = chainActive st /\ stored same_node (objects st) (objects st') /\
    (parent_linked (objects st) b -> exists b', objects st' !! p = Some b' /\ linked b' /\ failed b' = false).
Proof.
  intros [Hc Hcomp] Hb Hzero Hwait Hf Hn.
  unfold ReceivedBlockTransactions. rewrite Hb. cbn [mbind option_bind]. cbv zeta.
  destruct (received_object n file pos witness b Hf Hn) as (r & x & -> & Hr & Hf' & Hnode & Hz). cbn [mbind option_bind snd].
  set (b' := set_status x _) in *.
  assert (Hok1 : chain_state_ok (dirty p (modify p (fun _ => b') st))).
  { split; [apply dirty_core, (replace_core st p b b'); try done; intros Hv%failed_of_valid; congruence|].
    apply (replace_complete st p b b' Hc Hb Hzero Hcomp (setBlockIndexCandidates st)); [done|]. intros Hl. by destruct (Hl Hz). }
  set (st1 := dirty p _) in *. pose proof (replace_same st p b b' Hb Hnode) as Hsame. change (alter _ p (objects st)) with (objects st1) in Hsame.
  assert (Hb1 : objects st1 !! p = Some b') by (simpl; by rewrite lookup_alter_eq, Hb).
  assert (Hprev : pprev b' = pprev b) by (by destruct Hnode as [[= _ -> _ _] _]).
  assert (Hqueue : parent_linked (objects st1) b' ->
    exists st', (r ← while_loop queue_step (S (S (length (mapBlocksUnlinked st1)))) ([p], st1); r) = Some st' /\ chain_state_ok st' /\
      chainActive st' = chainActive st /\ stored same_node (objects st) (objects st') /\ exists b2, objects st' !! p = Some b2 /\ linked b2 /\ failed b2 = false).
  { intros Hpar. destruct (queue_linked st1 p b' Hok1 Hb1 Hr Hz Hwait Hpar) as (st' & E & Hok' & Ev & Hst & b2 & Hb2 & Hl2).
    exists st'. split; [done|]. split; [done|]. split; [done|]. split; [etrans; [done|]; apply (stored_sub same_status); [by intros ? ? [] | done]|].
    exists b2. split; [done|]. split; [done|]. destruct (stored_fwd _ _ _ _ _ Hst Hb1) as (b3 & Hb3 & [_ E3]). rewrite Hb2 in Hb3. injection Hb3 as <-.
    unfold has_flag. rewrite <- E3. exact Hf'. }
  pose proof (parent_height _ p b' (core_store _ (proj1 Hok1)) Hb1) as Hph. rewrite Hprev in *. destruct (pprev b) as [q|] eqn:Eq.
  - destruct Hph as (c & Hcq & Eh & _). rewrite Hcq. cbn [mbind option_bind].
    assert (Hcq0 : objects st !! q = Some c) by (destruct (replace_at st p b b' Hb q c Hcq) as [[-> ->]|[_ ?]]; [lia|done]).
    destruct (Z.eqb_spec (nChainTx c) 0) as [Ec|Ec].
    + destruct (IsValid_some c BLOCK_VALID_TREE ltac:(auto)) as (v & -> & _). cbn [mbind option_bind]. eexists. split; [done|].
      assert (Hno : parent_linked (objects st) b -> False) by (intros Hpar; by destruct (Hpar q c Eq Hcq0 Ec)).
      destruct v; [|split; [done|]; split; [done|]; split; [done | tauto]].
      split; [split; [by apply (wait_core st1 p b' q (proj1 Hok1)) | apply Hok1]|]. split; [done|]. split; [done | tauto].
    + destruct Hqueue as (st' & -> & ? & ? & ? & ?); [intros q' c' Hq' Hc'; rewrite Hprev in Hq'; injection Hq' as <-; rewrite Hcq in Hc'; by injection Hc' as <-|].
      by exists st'.
  - cbn [mbind option_bind]. destruct Hqueue as (st' & -> & ? & ? & ? & ?); [intros q' c' Hq'; congruence|]. by exists st'.
Qed.

(** a block without data is neither linked nor waiting *)
Lemma no_data st p b : core st -> objects st !! p = Some b -> have_data b = false -> nChainTx b = 0 /\ p ∉ map snd (mapBlocksUnlinked st).
Proof.
  intros Hc Hb Hd. split.
  - destruct (decide (nChainTx b = 0)) as [|Hl]; [done|]. destruct (obj_received _ (core_objects _ Hc) p b Hb Hl) as (? & _). congruence.
  - intros ([a p'] & E & Hin)%list_elem_of_fmap. simpl in E. subst p'. destruct (proj2 (core_waiting _ Hc) a p Hin) as (b' & Hb' & _ & (? & _) & _). congruence.
Qed.

(** *** PreciousBlock *)

(** the sequence id the block gets *)
Definition precious_id (st : chain_state) (t : CBlockIndex) : Z :=
  if Uint.CompareTo (nChainWork t) (nLastPreciousChainwork st) >? 0 then -1 else nBlockReverseSequenceId st.

Section Precious.
Variables (st : chain_state) (p : ptr) (b : CBlockIndex) (t : ptr) (bt : CBlockIndex) (n m : Z) (w : arith_uint256).
Hypothesis Hok : chain_state_ok st.
Hypothesis Hb : objects st !! p = Some b.
Hypothesis Ht : Tip (chainActive st) = Some t.
Hypothesis Hbt : objects st !! t = Some bt.
Hypothesis Hid : t = p -> n <= nSequenceId b.

Abbreviation st1 := (set_precious m w (modify p (set_sequence_id n) (erase p st))).

Lemma precious_core : core st1.
Proof.
  pose proof Hok as [Hc _]. apply (core_held st); simpl; try done; [| apply (index_best_in _ (core_tree _ Hc)) | | apply (core_invalid _ Hc) | | apply (core_chain _ Hc) |].
  - by apply stored_alter; [apply _|].
  - intros x Hx. apply (core_candidates _ Hc). set_solver.
  - intros x Hx. destruct (core_failed _ Hc x Hx) as (c & Hcx & Hf). destruct (decide (p = x)) as [<-|Hne].
    + rewrite lookup_alter_eq, Hcx. simpl. eauto.
    + rewrite lookup_alter_ne by done. eauto.
  - intros x c Hx Hcx. destruct (decide (p = x)) as [<-|Hne]; [|rewrite lookup_alter_ne in Hcx by done; by apply (core_main _ Hc)].
    rewrite lookup_alter_eq, Hb in Hcx. simpl in Hcx. injection Hcx as <-. by apply (core_main _ Hc p b).
Qed.

(** blocks other than [p] *)
Lemma precious_other x c : x <> p -> objects st1 !! x = Some c -> linked c -> failed c = false ->
  (forall c', objects st1 !! t = Some c' -> ~ worse (x, c) (t, c')) -> x ∈ setBlockIndexCandidates st1.
Proof.
  intros Hne Hcx Hl Hf Hw. simpl in *. rewrite lookup_alter_ne in Hcx by congruence. apply elem_of_difference. split; [|by intros ?%elem_of_singleton].
  destruct Hok as [_ Hcomp]. apply (Hcomp x c Hcx Hl Hf). intros t' c' Ht' Hct. rewrite Ht in Ht'. injection Ht' as <-.
  rewrite Hbt in Hct. injection Hct as <-. destruct (decide (p = t)) as [<-|Hnt].
  - rewrite lookup_alter_eq, Hbt in Hw. specialize (Hw _ eq_refl). specialize (Hid eq_refl). rewrite Hb in Hbt. injection Hbt as <-.
    unfold worse, work in *. simpl in Hw |- *. lia.
  - rewrite lookup_alter_ne, Hbt in Hw by done. by apply Hw.
Qed.

Lemma tip_valid : linked bt /\ failed bt = false /\ t ∈ setBlockIndexCandidates st.
Proof.
  destruct Hok as [Hc Hcomp]. destruct (tip_safe st Hc t Ht) as (c & Hct & Hl & Hcl & _). rewrite Hbt in Hct. injection Hct as <-.
  assert (Hf : failed bt = false) by apply (Hcl t bt (anc_refl _ _) Hbt). split; [done|]. split; [done|].
  apply (Hcomp t bt Hbt Hl Hf). intros q c Hq Hc'. rewrite Ht in Hq. injection Hq as <-. rewrite Hbt in Hc'. injection Hc' as <-. apply worse_irrefl.
Qed.

Lemma precious_candidate : exists st2 v, IsValid (nStatus b) BLOCK_VALID_TRANSACTIONS = Some v /\
  (if v && negb (nChainTx b =? 0) then PruneBlockIndexCandidates (candidate p st1) else Some st1) = Some st2 /\ chain_state_ok st2 /\
  stored held (objects st) (objects st2) /\ chainActive st2 = chainActive st.
Proof.
  pose proof Hok as [Hc _]. pose proof precious_core as Hc1. destruct tip_valid as (Hlt & Hft & Hct).
  assert (Hstored : stored held (objects st) (objects st1)) by (by apply stored_alter; [apply _|]).
  destruct (IsValid_some b BLOCK_VALID_TRANSACTIONS ltac:(auto)) as (v & Ev & _).
  destruct (v && negb (nChainTx b =? 0)) eqn:E.
  2:{ exists st1, v. rewrite E. split; [done|]. split; [done|]. split; [|done]. split; [done|]. intros x c Hcx Hl Hf Hw.
      destruct (decide (x = p)) as [->|Hne]; [exfalso|by apply (precious_other x c); [done..|]; intros c'; apply Hw].
      simpl in Hcx. rewrite lookup_alter_eq, Hb in Hcx. simpl in Hcx. injection Hcx as <-. rewrite (IsValid_spec st p b Hc Hb Hl) in Ev.
      change (failed (set_sequence_id n b)) with (failed b) in Hf. rewrite Hf in Ev. injection Ev as <-. simpl in E. apply negb_false_iff, Z.eqb_eq in E. by destruct (Hl E). }
  apply andb_true_iff in E as Ex. destruct Ex as [Ev' Hl%negb_true_iff%Z.eqb_neq].
  assert (Hc2 : core (candidate p st1)).
  { apply (core_candidates_set st1 ({[p]} ∪ setBlockIndexCandidates st1) Hc1). intros x [->%elem_of_singleton|Hx]%elem_of_union; [|by apply (core_candidates _ Hc1)].
    simpl. rewrite lookup_alter_eq, Hb. simpl. by eexists. }
  destruct (stored_fwd _ _ _ _ _ Hstored Hbt) as (bt1 & Hbt1 & _).
  destruct (Prune_spec (candidate p st1) t bt1 Hc2 Ht Hbt1) as (C & EP & Hc3 & HC).
  { exists t, bt1. split; [|split; [done | apply worse_irrefl]]. apply elem_of_union. destruct (decide (t = p)) as [->|Hne]; [left | right].
    - by apply elem_of_singleton.
    - apply elem_of_difference. split; [done|]. by intros ?%elem_of_singleton. }
  exists (on_candidates (fun _ => C) (candidate p st1)), v. rewrite E. split; [done|]. split; [done|]. split; [|done]. split; [done|].
  intros x c Hcx Hlx Hf Hw. apply HC. split.
  - destruct (decide (x = p)) as [->|Hne]; [apply elem_of_union; left; by apply elem_of_singleton|]. apply elem_of_union. right. apply (precious_other x c); [done..|].
    intros c'. by apply Hw.
  - intros c' Hc'. change (objects (on_candidates (fun _ => C) (candidate p st1))) with (objects (candidate p st1)) in Hcx. rewrite Hcx in Hc'. injection Hc' as <-. by apply Hw.
Qed.
End Precious.

Lemma PreciousBlock_spec st p b t bt : chain_state_ok st -> objects st !! p = Some b -> Tip (chainActive st) = Some t -> objects st !! t = Some bt ->
  (t = p -> precious_id st bt <= nSequenceId b) ->
  exists st', PreciousBlock p st = Some (true, st') /\ chain_state_ok st' /\ stored held (objects st) (objects st') /\ is_Some (Tip (chainActive st')) /\
    (best_tip st -> best_tip st').
Proof.
  intros Hok Hb Ht Hbt Hid. unfold PreciousBlock. rewrite Hb. cbn [mbind option_bind]. rewrite Ht. cbn [mbind option_bind]. rewrite Hbt. cbn [mbind option_bind].
  destruct (_ <? 0); [exists st; rewrite Ht; split_and!; eauto; done|]. cbv zeta. fold (precious_id st bt).
  destruct (precious_candidate st p b t bt (precious_id st bt) (if precious_id st bt >? INT32_MIN then precious_id st bt - 1 else precious_id st bt) (nChainWork bt) Hok Hb Ht Hbt Hid)
    as (st2 & v & -> & E & Hok2 & Hk & Ev). cbn [mbind option_bind]. rewrite E. cbn [mbind option_bind].
  destruct (ActivateBestChain_spec st2 Hok2) as (st' & -> & Hok' & Hbest & Hk' & Hle & _). exists st'. split; [done|]. split; [done|].
  split; [etrans; [done | by apply kept_stored]|]. split; [|done].
  destruct (stored_fwd _ _ _ _ _ Hk Hbt) as (c & Hct & _). destruct (stored_fwd _ _ _ _ _ Hk' Hct) as (c' & Hct' & _).
  destruct (Hle t c') as (t' & _ & -> & _); [by rewrite Ev | done | eauto].
Qed.
End Events.

Lemma worse_total p a q b : p <> q -> ~ worse (p, a) (q, b) -> worse (q, b) (p, a).
Proof. unfold worse. simpl. lia. Qed.

(** [GetAncestor] decides whether a block is an ancestor *)
Lemma GetAncestor_anc s x bx p b : store_ok s -> s !! x = Some bx -> s !! p = Some b ->
  exists a, GetAncestor s x (nHeight b) = Some a /\ (a = Some p <-> anc s x p).
Proof.
  intros Hs Hx Hp. rewrite (GetAncestor_spec s s x bx (nHeight b)) by done. eexists. split; [done|]. pose proof (node_height _ _ (Hs p b Hp)) as Hh.
  rewrite Z.gtb_ltb. destruct (Z.ltb_spec (nHeight bx) (nHeight b)); simpl.
  - split; [done|]. intros Ha. destruct (anc_store s Hs x bx p Hx Ha) as (b' & Hb' & ? & _). rewrite Hp in Hb'. injection Hb' as <-. lia.
  - rewrite (proj2 (Z.ltb_ge _ _)) by lia. split; [intros H'; by exists (Z.to_nat (nHeight bx - nHeight b))|].
    intros [n Hn]. destruct (up_store s Hs x bx n p Hx Hn) as (b' & Hb' & E). rewrite Hp in Hb'. injection Hb' as <-.
    rewrite <- Hn. f_equal. lia.
Qed.

(** ** Clearing the marks *)

Lemma clear_land f b : Z.land f BLOCK_FAILED_MASK = 0 -> Z.land (nStatus (clear_failed b)) f = Z.land (nStatus b) f.
Proof.
  intros Hf. simpl. rewrite <- Z.land_assoc. f_equal. apply Z.bits_inj'. intros i Hi. rewrite Z.land_spec, Z.lnot_spec by done.
  pose proof (f_equal (fun z => Z.testbit z i) Hf) as E. simpl in E. rewrite Z.land_spec, Z.bits_0 in E.
  by destruct (Z.testbit f i), (Z.testbit BLOCK_FAILED_MASK i).
Qed.

Lemma clear_not_failed b : failed (clear_failed b) = false.
Proof.
  unfold has_flag. simpl. rewrite <- Z.land_assoc, (Z.land_comm (Z.lnot _)), Z.land_lnot_diag, Z.land_0_r. done.
Qed.

Lemma clear_held b : held b (clear_failed b).
Proof. split; [done | done | unfold has_flag; by rewrite clear_land | by rewrite clear_land]. Qed.

Lemma clear_idle b : failed b = false -> clear_failed b = b.
Proof.
  unfold has_flag, clear_failed. intros H%negb_false_iff%Z.eqb_eq. assert (E : Z.land (nStatus b) (Z.lnot BLOCK_FAILED_MASK) = nStatus b).
  { apply Z.bits_inj'. intros i Hi. rewrite Z.land_spec, Z.lnot_spec by done. pose proof (f_equal (fun z => Z.testbit z i) H) as E.
    simpl in E. rewrite Z.land_spec, Z.bits_0 in E. by destruct (Z.testbit (nStatus b) i), (Z.testbit BLOCK_FAILED_MASK i). }
  rewrite E. by destruct b.
Qed.

Definition cleared (a b : CBlockIndex) : Prop := b = a \/ b = clear_failed a.

#[export] Instance cleared_preorder : PreOrder cleared.
Proof.
  split; [by left|]. intros a b c [->| ->] [->| ->]; unfold cleared; auto. right. apply clear_idle, clear_not_failed.
Qed.

Lemma cleared_held a b : cleared a b -> held a b.
Proof. intros [->| ->]; [done | apply clear_held]. Qed.

Section Events.
Context {BV : BlockValidation} {LM : Limits}.

(** *** ResetBlockFailureFlags *)

Section Clear.
Variables (st : chain_state) (x : ptr) (b : CBlockIndex) (C : gset ptr) (i : option ptr).
Hypothesis Hok : chain_state_ok st.
Hypothesis Hb : objects st !! x = Some b.
Hypothesis HC : forall y, y ∈ C -> y = x \/ y ∈ setBlockIndexCandidates st.
Hypothesis HxC : x ∈ C -> linked b.
Hypothesis Hi : i = pindexBestInvalid st \/ i = None.

Abbreviation st1 := (on_failed (fun F => F ∖ {[x]}) (set_best_invalid i (on_candidates (fun _ => C) (dirty x (modify x clear_failed st))))).

Lemma clear_at y c : objects st1 !! y = Some c -> y = x /\ c = clear_failed b \/ y <> x /\ objects st !! y = Some c.
Proof.
  simpl. destruct (decide (x = y)) as [<-|Hne].
  - rewrite lookup_alter_eq, Hb. simpl. intros [= <-]. by left.
  - rewrite lookup_alter_ne by done. auto.
Qed.

Lemma clear_core : core st1.
Proof.
  pose proof Hok as [Hc _]. apply (core_held st); simpl; try done; [| apply (index_best_in _ (core_tree _ Hc)) | | | | apply (core_chain _ Hc) |].
  - apply stored_alter; [apply _|]. intros c _. apply clear_held.
  - intros y Hy. destruct (HC y Hy) as [->|?]; [exists b; auto | by apply (core_candidates _ Hc)].
  - intros y Hy. destruct Hi as [->| ->]; [by apply (core_invalid _ Hc) | done].
  - intros y [Hy Hne%not_elem_of_singleton]%elem_of_difference. rewrite lookup_alter_ne by congruence. by apply (core_failed _ Hc).
  - intros y c Hy [[-> ->]|[_ Hcy]]%clear_at; [|by apply (core_main _ Hc)]. destruct (core_main _ Hc x b Hy Hb) as (? & _ & ?).
    split; [done|]. split; [apply clear_not_failed | done].
Qed.

Lemma clear_complete : setBlockIndexCandidates st ⊆ C ->
  (linked b -> (forall t bt, Tip (chainActive st) = Some t -> objects st !! t = Some bt -> ~ worse (x, clear_failed b) (t, bt)) -> x ∈ C) ->
  (forall t, Tip (chainActive st) = Some t -> t <> x) -> complete (Tip (chainActive st)) st1.
Proof.
  intros Hsub Hx Hne y c Hcy Hl Hf Hw.
  assert (Hw' : forall t bt, Tip (chainActive st) = Some t -> objects st !! t = Some bt -> ~ worse (y, c) (t, bt)).
  { intros t bt Ht Hbt. apply Hw; [done|]. simpl. rewrite lookup_alter_ne; [done|]. specialize (Hne t Ht). congruence. }
  apply clear_at in Hcy as [[-> ->]|[_ Hcy]]; [by apply Hx|]. destruct Hok as [_ Hcomp]. apply Hsub. by apply (Hcomp y c).
Qed.
End Clear.

(** the block becomes a candidate when it is better than the tip *)
Lemma reset_candidate st t bt x b : chain_state_ok st -> Tip (chainActive st) = Some t -> objects st !! t = Some bt -> t <> x -> objects st !! x = Some b ->
  let st1 := dirty x (modify x clear_failed st) in
  exists C v, IsValid (nStatus (clear_failed b)) BLOCK_VALID_TRANSACTIONS = Some v /\
    (if v && negb (nChainTx (clear_failed b) =? 0) then
       tip ← Tip (chainActive st1); t ← objects st1 !! tip;
       Some (if CBlockIndexWorkComparator (tip, t) (x, clear_failed b) then candidate x st1 else st1)
     else Some st1) = Some (on_candidates (fun _ => C) st1) /\
    setBlockIndexCandidates st ⊆ C /\ (forall y, y ∈ C -> y = x \/ y ∈ setBlockIndexCandidates st) /\ (x ∈ C -> linked b) /\
    (linked b -> ~ worse (x, clear_failed b) (t, bt) -> x ∈ C).
Proof.
  intros Hok Ht Hbt Hne Hb st1. pose proof Hok as [Hc _]. pose proof (core_store _ Hc) as Hs.
  assert (Hold : x ∈ setBlockIndexCandidates st -> linked b).
  { intros Hin. destruct (core_candidates _ Hc x Hin) as (b' & Hb' & Hl). rewrite Hb in Hb'. by injection Hb' as <-. }
  destruct (IsValid_some (clear_failed b) BLOCK_VALID_TRANSACTIONS ltac:(auto)) as (v & Ev & _).
  assert (Hv : linked b -> v = true).
  { intros Hl. pose proof (obj_received _ (core_objects _ Hc) x b Hb Hl) as (_ & Hval & _). unfold IsValid in Ev.
    pose proof (clear_not_failed b) as Hf. unfold has_flag in Hf. rewrite Hf, clear_land in Ev by done. injection Ev as <-. by apply Z.geb_le. }
  destruct (v && negb (nChainTx (clear_failed b) =? 0)) eqn:E.
  - apply andb_true_iff in E as Ex. destruct Ex as [-> Hl%negb_true_iff%Z.eqb_neq]. destruct (CBlockIndexWorkComparator (t, bt) (x, clear_failed b)) eqn:Ecmp.
    + exists ({[x]} ∪ setBlockIndexCandidates st), true. rewrite E. split; [done|]. change (chainActive st1) with (chainActive st). rewrite Ht. cbn [mbind option_bind].
      change (objects st1) with (alter clear_failed x (objects st)). rewrite lookup_alter_ne, Hbt by congruence. cbn [mbind option_bind]. rewrite Ecmp.
      split; [done|]. split; [set_solver|]. split; [set_solver|]. split; [done|]. intros _ _. set_solver.
    + exists (setBlockIndexCandidates st), true. rewrite E. split; [done|]. change (chainActive st1) with (chainActive st). rewrite Ht. cbn [mbind option_bind].
      change (objects st1) with (alter clear_failed x (objects st)). rewrite lookup_alter_ne, Hbt by congruence. cbn [mbind option_bind]. rewrite Ecmp.
      split; [done|]. split; [done|]. split; [auto|]. split; [done|]. intros _ Hw. exfalso. apply worse_total in Hw; [|congruence].
      apply comparator_false in Ecmp; [done | apply (node_work _ _ (Hs t bt Hbt)) | apply (node_work _ _ (Hs x b Hb))].
  - exists (setBlockIndexCandidates st), v. rewrite E. split; [done|]. split; [done|]. split; [done|]. split; [auto|]. split; [done|].
    intros Hl _. rewrite (Hv Hl) in E. simpl in E. apply negb_false_iff, Z.eqb_eq in E. by destruct (Hl E).
Qed.

(** what the loop over [mapBlockIndex] keeps *)
Record reset_to (p : ptr) (st st' : chain_state) : Prop := {
  reset_ok : chain_state_ok st';
  reset_main : chainActive st' = chainActive st;
  reset_index : mapBlockIndex (tree st') = mapBlockIndex (tree st);
  reset_objects : stored cleared (objects st) (objects st');
  reset_failed : forall f, ~ anc (objects st) f p -> f ∈ g_failed_blocks st -> f ∈ g_failed_blocks st';
}.

Lemma cleared_same s s' : stored cleared s s' -> stored same_node s s'.
Proof. intros H. exact (held_same _ _ (stored_sub _ _ _ _ cleared_held H)). Qed.

Lemma reset_to_trans p st1 st2 st3 : reset_to p st1 st2 -> reset_to p st2 st3 -> reset_to p st1 st3.
Proof.
  intros [_ E1 F1 H1 G1] [H2 E2 F2 H3 G2]. split; [done | congruence | congruence | by etrans |]. intros f Hf Hin.
  apply G2; [by rewrite <- (anc_same _ _ _ _ (cleared_same _ _ H1)) | by apply G1].
Qed.

Lemma reset_block_spec st p b x : chain_state_ok st -> is_Some (Tip (chainActive st)) -> objects st !! p = Some b -> is_Some (objects st !! x) ->
  exists st', reset_block p (nHeight b) x st = Some st' /\ reset_to p st st' /\
    (anc (objects st) x p -> forall b', objects st' !! x = Some b' -> failed b' = false).
Proof.
  intros Hok [t Ht] Hp [bx Hx]. pose proof Hok as [Hc _]. pose proof (core_store _ Hc) as Hs. unfold reset_block. rewrite Hx. cbn [mbind option_bind].
  destruct (IsValid_some bx BLOCK_VALID_TRANSACTIONS ltac:(auto)) as (v & Ev & Hv). rewrite Ev. cbn [mbind option_bind]. destruct v.
  { exists st. split; [done|]. split; [done|]. intros _ b'. rewrite Hx. intros [= <-]. by apply Hv. }
  destruct (GetAncestor_anc _ x bx p b Hs Hx Hp) as (a & -> & Ha). cbn [mbind option_bind]. case_bool_decide as Ea; cbn [negb].
  2:{ exists st. split; [done|]. split; [done|]. intros Hanc. destruct Ea. by apply Ha. }
  destruct (tip_some _ _ t (core_chain _ Hc) Ht) as (bt & Hbt & _). destruct (tip_valid st t bt Hok Ht Hbt) as (Hlt & Hft & _).
  assert (Htx : t <> x) by (intros ->; rewrite Hx in Hbt; injection Hbt as <-; by rewrite (IsValid_spec st x bx Hc Hx Hlt), Hft in Ev).
  destruct (reset_candidate st t bt x bx Hok Ht Hbt Htx Hx) as (C & v & -> & E & Hsub & HC & HxC & Hnew). cbv zeta. cbn [mbind option_bind]. rewrite E. cbn [mbind option_bind].
  set (st2 := on_candidates (fun _ => C) (dirty x (modify x clear_failed st))).
  assert (Hi : exists i, (if bool_decide (pindexBestInvalid st2 = Some x) then set_best_invalid None st2 else st2) = set_best_invalid i st2 /\ (i = pindexBestInvalid st \/ i = None)).
  { case_bool_decide; [exists None; auto | exists (pindexBestInvalid st); auto]. }
  destruct Hi as (i & -> & Hi). eexists. split; [done|]. split.
  2:{ intros _ b' [[_ ->]|[? _]]%(clear_at st x bx C i Hx); [apply clear_not_failed | done]. }
  split; [split; [by apply (clear_core st x bx C i)|] | done | done | |].
  - apply (clear_complete st x bx C i Hok Hx Hsub); [|intros t' Ht'; congruence]. intros Hl Hw. apply Hnew; [done|]. by apply Hw.
  - simpl. apply stored_alter; [apply _|]. intros c _. by right.
  - intros f Hf Hin. apply elem_of_difference. split; [done|]. intros ->%elem_of_singleton. apply Hf. by apply Ha.
Qed.

Lemma for_reset p b0 l : forall st, chain_state_ok st -> is_Some (Tip (chainActive st)) -> (exists b, objects st !! p = Some b /\ nHeight b = nHeight b0) ->
  (forall x, x ∈ l -> is_Some (objects st !! x)) ->
  exists st', for_blocks (reset_block p (nHeight b0)) l st = Some st' /\ reset_to p st st' /\
    forall x b', x ∈ l -> anc (objects st) x p -> objects st' !! x = Some b' -> failed b' = false.
Proof.
  induction l as [|x l IH]; intros st Hok Ht Hp Hl; cbn [for_blocks].
  { exists st. split; [done|]. split; [done|]. intros x b' Hin. by apply not_elem_of_nil in Hin. }
  destruct Hp as (b & Hb & Eh). rewrite <- Eh in *.
  destruct (reset_block_spec st p b x Hok Ht Hb (Hl x ltac:(by left))) as (st1 & -> & H1 & Hx). cbn [mbind option_bind].
  pose proof (cleared_same _ _ (reset_objects _ _ _ H1)) as Hsame.
  destruct (IH st1 (reset_ok _ _ _ H1)) as (st' & E & H2 & Hin').
  - by rewrite (reset_main _ _ _ H1).
  - destruct (stored_fwd _ _ _ _ _ Hsame Hb) as (c & Hc & [[= _ _ _ Ec] _]). exists c. by rewrite <- Ec.
  - intros y Hy. destruct (Hl y ltac:(by right)) as [c Hc]. destruct (stored_fwd _ _ _ _ _ Hsame Hc) as (c' & -> & _). eauto.
  - rewrite E. exists st'. split; [done|]. split; [by apply (reset_to_trans p st st1)|]. intros y b' [->|Hin]%elem_of_cons Ha Hb'.
    + destruct (stored_bwd _ _ _ _ _ (reset_objects _ _ _ H2) Hb') as (c & Hc & [->| ->]); [by apply Hx | apply clear_not_failed].
    + apply (Hin' y b' Hin); [by apply (anc_same _ _ _ _ Hsame) | done].
Qed.

(** no ancestor is marked: there is nothing more to clear *)
Lemma reset_loop st p b : store_ok (objects st) -> objects st !! p = Some b -> clean (objects st) p ->
  while_loop reset_step (S (S (Z.to_nat (nHeight b)))) (Some p, st) = Some (Some st).
Proof.
  intros Hs Hb Hcl.
  destruct (while_total reset_step (fun x => x.2 = st /\ forall y, x.1 = Some y -> anc (objects st) p y /\ is_Some (objects st !! y))
    (fun x => match x.1 with Some y => match objects st !! y with Some c => S (Z.to_nat (nHeight c)) | None => 0 end | None => 0 end)%nat
    (fun r => r = Some st)) with (fuel := S (S (Z.to_nat (nHeight b)))) (s := (Some p, st)) as (r & -> & ->); [| | | |done].
  - intros [[y|] st'] x' [Est Hy] E; simpl in Est, Hy, E; subst st'; [|done]. destruct (Hy y eq_refl) as [Ha [c Hc]]. rewrite Hc, (Hcl y c Ha Hc) in E. injection E as <-. simpl.
    pose proof (parent_height _ y c Hs Hc) as Hpar. split.
    + split; [done|]. intros z Hz. rewrite Hz in Hpar. destruct Hpar as (d & -> & _). split; [|eauto]. apply (anc_trans _ p y z Ha), (anc_step _ y c z z Hc Hz), anc_refl.
    + rewrite Hc. destruct (pprev c) as [z|]; [|lia]. destruct Hpar as (d & Hd & ? & _). rewrite Hd. pose proof (node_height _ _ (Hs z d Hd)). lia.
  - intros [[y|] st'] x' [Est Hy] E; simpl in Est, Hy, E; subst st'; [|by injection E]. destruct (Hy y eq_refl) as [_ [c Hc]]. by rewrite Hc in E.
  - split; [done|]. intros y [= <-]. split; [apply anc_refl | eauto].
  - simpl. rewrite Hb. lia.
Qed.

(** a block that was found invalid, with its descendants, is tried again *)
Lemma ResetBlockFailureFlags_spec st p b : chain_state_ok st -> is_Some (Tip (chainActive st)) -> objects st !! p = Some b ->
  (forall q c, anc (objects st) p q -> q <> p -> objects st !! q = Some c -> failed c = false) ->
  exists st', ResetBlockFailureFlags p st = Some st' /\ chain_state_ok st' /\ chainActive st' = chainActive st /\
    stored cleared (objects st) (objects st') /\ clean (objects st') p.
Proof.
  intros Hok Ht Hb Hanc. unfold ResetBlockFailureFlags. rewrite Hb. cbn [mbind option_bind].
  destruct (for_reset p b (all_blocks st) st Hok Ht) as (st' & -> & [Hok' Ev _ Hst _] & Hp); [eauto | intros x; by apply all_blocks_spec, Hok|].
  cbn [mbind option_bind]. pose proof (held_same _ _ (stored_sub _ _ _ _ cleared_held Hst)) as Hsame.
  destruct (stored_fwd _ _ _ _ _ Hsame Hb) as (b' & Hb' & [[= _ _ _ Eh] _]).
  assert (Hcl : clean (objects st') p).
  { intros q c Hq Hcq. destruct (decide (q = p)) as [->|Hne].
    - apply (Hp p c); [apply all_blocks_spec; [apply Hok | eauto] | apply anc_refl | done].
    - destruct (stored_bwd _ _ _ _ _ Hst Hcq) as (d & Hd & [->| ->]); [|apply clear_not_failed].
      apply (Hanc q d); [by apply (anc_same _ _ _ _ Hsame) | done..]. }
  rewrite Eh, (reset_loop st' p b'); [|apply core_store, Hok'|done..]. cbn [mbind option_bind]. by exists st'.
Qed.
(** the walk to the first block: what is still marked is further up *)
Record walked (p : ptr) (st : chain_state) (pindex : option ptr) (st' : chain_state) : Prop := {
  walked_objects : stored cleared (objects st) (objects st');
  walked_index : mapBlockIndex (tree st') = mapBlockIndex (tree st);
  walked_failed : g_failed_blocks st' = g_failed_blocks st;
  walked_at : forall y, pindex = Some y -> anc (objects st) p y;
  walked_left : forall z c, anc (objects st) p z -> objects st' !! z = Some c -> failed c = true -> exists y, pindex = Some y /\ anc (objects st) y z;
}.

Lemma anc_parent s y c z : s !! y = Some c -> anc s y z -> z <> y -> exists q, pprev c = Some q /\ anc s q z.
Proof.
  intros Hc [[|n] Hn] Hne; simpl in Hn; [by injection Hn as <-|]. rewrite Hc in Hn. simpl in Hn.
  destruct (pprev c) as [q|]; [|done]. exists q. split; [done|]. by exists n.
Qed.

Lemma walked_step p st y st' c : walked p st (Some y) st' -> objects st' !! y = Some c ->
  walked p st (pprev c) (if failed c then dirty y (modify y clear_failed st') else st').
Proof.
  intros [Ho Ei Ef Hat Hleft] Hc. destruct (stored_bwd _ _ _ _ _ (cleared_same _ _ Ho) Hc) as (a & Ha & [[= _ Epp _ _] _]).
  set (st1 := if failed c then _ else _).
  assert (Ho1 : stored cleared (objects st') (objects st1)).
  { unfold st1. destruct (failed c); [|done]. simpl. apply stored_alter; [apply _|]. intros d _. by right. }
  split.
  - by etrans.
  - unfold st1. by destruct (failed c).
  - unfold st1. by destruct (failed c).
  - intros q Hq. apply (anc_trans _ p y q (Hat y eq_refl)), (anc_step _ y a q q Ha); [congruence | apply anc_refl].
  - intros z d Hz Hd Hf. assert (Hzy : z <> y).
    { intros ->. revert Hd. unfold st1. destruct (failed c) eqn:E; simpl; [|congruence]. rewrite lookup_alter_eq, Hc. intros [= <-]. by rewrite clear_not_failed in Hf. }
    destruct (stored_bwd _ _ _ _ _ Ho1 Hd) as (e & He & [->| ->]); [|by rewrite clear_not_failed in Hf].
    destruct (Hleft z e Hz He Hf) as (y' & [= <-] & Hyz). destruct (anc_parent _ y a z Ha Hyz Hzy) as (q & Hq & Hqz). exists q. split; [congruence | done].
Qed.

(** the second loop returns, and leaves no ancestor marked *)
Lemma reset_walk st p b : store_ok (objects st) -> objects st !! p = Some b ->
  exists st', while_loop reset_step (S (S (Z.to_nat (nHeight b)))) (Some p, st) = Some (Some st') /\ walked p st None st'.
Proof.
  intros Hs Hb.
  destruct (while_total reset_step (fun x => walked p st x.1 x.2 /\ forall y, x.1 = Some y -> is_Some (objects st !! y))
    (fun x => match x.1 with Some y => match objects st !! y with Some c => S (Z.to_nat (nHeight c)) | None => 0 end | None => 0 end)%nat
    (fun r => exists st', r = Some st' /\ walked p st None st')) with (fuel := S (S (Z.to_nat (nHeight b)))) (s := (Some p, st)) as (r & -> & st' & -> & Hw); [| | | |by exists st'].
  - intros [[y|] st'] x' [Hw Hy] E; simpl in Hw, Hy, E; [|done]. destruct (Hy y eq_refl) as [a Ha].
    destruct (stored_fwd _ _ _ _ _ (cleared_same _ _ (walked_objects _ _ _ _ Hw)) Ha) as (c & Hc & [[= _ Epp _ _] _]). rewrite Hc in E. injection E as <-. simpl.
    pose proof (parent_height _ y a Hs Ha) as Hpar. rewrite Ha, <- Epp. split.
    + split; [rewrite Epp; by apply walked_step|]. intros z Hz. rewrite Hz in Hpar. destruct Hpar as (d & -> & _). eauto.
    + destruct (pprev a) as [z|]; [|lia]. destruct Hpar as (d & Hd & ? & _). rewrite Hd. pose proof (node_height _ _ (Hs z d Hd)). lia.
  - intros [[y|] st'] x' [Hw Hy] E; simpl in Hw, Hy, E; [|injection E as <-; eauto]. destruct (Hy y eq_refl) as [a Ha].
    destruct (stored_fwd _ _ _ _ _ (cleared_same _ _ (walked_objects _ _ _ _ Hw)) Ha) as (c & Hc & _). by rewrite Hc in E.
  - split; [|intros y [= <-]; eauto]. split; [done | done | done | |]; [intros y [= <-]; apply anc_refl | eauto].
  - simpl. rewrite Hb. lia.
Qed.

(** all that is marked among the descendants and the ancestors of a block is cleared;
    but what is in [g_failed_blocks] and not a descendant stays there *)
Lemma ResetBlockFailureFlags_clears st p b : chain_state_ok st -> is_Some (Tip (chainActive st)) -> objects st !! p = Some b ->
  exists st', ResetBlockFailureFlags p st = Some st' /\ stored cleared (objects st) (objects st') /\ mapBlockIndex (tree st') = mapBlockIndex (tree st) /\
    (forall f, ~ anc (objects st) f p -> f ∈ g_failed_blocks st -> f ∈ g_failed_blocks st') /\
    (forall f, f ∈ g_failed_blocks st' -> is_Some (objects st' !! f)) /\
    forall x, is_Some (objects st !! x) -> anc (objects st) x p -> clean (objects st') x.
Proof.
  intros Hok Ht Hb. pose proof (core_store _ (proj1 Hok)) as Hs. unfold ResetBlockFailureFlags. rewrite Hb. cbn [mbind option_bind].
  destruct (for_reset p b (all_blocks st) st Hok Ht) as (st1 & -> & [Hok1 _ Ei Ho1 Hf1] & Hd); [eauto | intros x; by apply all_blocks_spec, Hok|].
  cbn [mbind option_bind]. pose proof (cleared_same _ _ Ho1) as Hsame. destruct (stored_fwd _ _ _ _ _ Hsame Hb) as (b1 & Hb1 & [[= _ _ _ Eh] _]).
  destruct (reset_walk st1 p b1 (core_store _ (proj1 Hok1)) Hb1) as (st' & E & [Ho2 Ei2 Ef2 _ Hleft]). rewrite Eh, E. cbn [mbind option_bind].
  exists st'. split; [done|]. split; [by etrans|]. split; [congruence|]. split; [by rewrite Ef2|]. split.
  - intros f Hf. rewrite Ef2 in Hf. destruct (core_failed _ (proj1 Hok1) f Hf) as (c & Hc & _). destruct (stored_fwd _ _ _ _ _ Ho2 Hc) as (d & -> & _). eauto.
  - intros x [bx Hx] Hxp q c Hq Hc. assert (Ho : stored same_node (objects st) (objects st')) by (etrans; [exact Hsame | by apply cleared_same]).
    apply (anc_same _ _ _ _ Ho) in Hq. destruct (anc_total _ x bx q p Hx Hq Hxp) as [Hqp|Hpq].
    + destruct (stored_bwd _ _ _ _ _ Ho2 Hc) as (d & Hd1 & [->| ->]); [|apply clear_not_failed]. apply (Hd q d); [|done..].
      apply all_blocks_spec; [apply Hok|]. destruct (stored_bwd _ _ _ _ _ Ho1 Hd1) as (e & -> & _). eauto.
    + apply not_true_is_false. intros Hf. destruct (Hleft q c) as (y & [=] & _); [by apply (anc_same _ _ _ _ Hsame) | done..].
Qed.
End Events.
