(* ===== verification/NodeState.v ===== *)
(** * A node (validation.cpp, rpc/blockchain.cpp)

    [AcceptBlockHeader], [AcceptBlock], [ProcessNewBlock], [ProcessNewBlockHeaders],
    [LoadGenesisBlock] and the calls of the operator keep the invariant; the states a
    node reaches by them ([node_state]), and the theorems about these states. *)

From S2P Require Import Chain ActiveChain BestChain Candidates ChainState Activation ChainCalls.
From S2P Require Import Prelude ArithUint Compact.
#[local] Open Scope Z_scope.

Section Events.
Context {BV : BlockValidation} {BL : BlockValidationLaws BV} {LM : Limits}.

(** ** Headers *)

Lemma only_marked_ok st st' : complete (Tip (chainActive st)) st -> only_marked st st' -> chain_state_ok st'.
Proof.
  intros Hcomp (Hc' & Hk & Ev & Hgone). split; [done|]. rewrite Ev.
  apply (complete_kept (Tip (chainActive st)) _ st st'); [done | done | apply ref_le_refl |]. intros y c Hy Hcy Hf _.
  destruct (decide (y ∈ setBlockIndexCandidates st')) as [|Hn]; [done|]. by rewrite (Hgone y c Hy Hn Hcy) in Hf.
Qed.

(** a failed block is not on the chain *)
Lemma failed_off st p b : core st -> objects st !! p = Some b -> failed b = true -> ~ on_main (objects st) (chainActive st) p.
Proof. intros Hc Hb Hf Hm. destruct (core_main _ Hc p b Hm Hb) as (_ & ? & _). congruence. Qed.

(** the descendants of a failed block are marked *)
Lemma failed_ancestor_spec st p b l : chain_state_ok st -> objects st !! p = Some b -> (forall f, f ∈ l -> f ∈ g_failed_blocks st) ->
  exists r st', failed_ancestor p l st = Some (r, st') /\ chain_state_ok st' /\ stored kept (objects st) (objects st') /\ chainActive st' = chainActive st /\
    if r then st' = st else exists f c, anc (objects st) p f /\ objects st !! f = Some c /\ failed c = true.
Proof.
  intros Hok Hb. pose proof Hok as [Hc Hcomp]. pose proof (core_store _ Hc) as Hs. induction l as [|f l IH]; intros Hl.
  { exists true, st. done. }
  cbn [failed_ancestor]. destruct (core_failed _ Hc f (Hl f ltac:(by left))) as (bf & Hbf & Hvf). rewrite Hbf. cbn [mbind option_bind].
  destruct (GetAncestor_anc _ p b f bf Hs Hb Hbf) as (a & -> & Ha). cbn [mbind option_bind]. case_bool_decide as Ea.
  2:{ apply IH. intros g Hg. apply Hl. by right. }
  rewrite Hvf, Hb. cbn [negb mbind option_bind]. pose proof (failed_of_valid bf Hvf) as Hf.
  destruct (down_loop st p f Hc (failed_off st f bf Hc Hbf Hf) (mark_header_step f) (fun _ st => st) b ltac:(by right) ltac:(done) Hb) as (st' & -> & Hm); [by apply Ha|].
  cbn [mbind option_bind]. exists false, st'. split; [done|]. split; [by apply (only_marked_ok st)|]. destruct Hm as (_ & Hk & Ev & _).
  split; [done|]. split; [done|]. exists f, bf. split; [by apply Ha | done].
Qed.

(** a block of the list is an ancestor, and none that is is marked: the assertion fails *)
Lemma failed_ancestor_asserts st x c l : store_ok (objects st) -> objects st !! x = Some c -> clean (objects st) x ->
  (forall f, f ∈ l -> is_Some (objects st !! f)) -> (exists f, f ∈ l /\ anc (objects st) x f) -> failed_ancestor x l st = None.
Proof.
  intros Hs Hx Hcl. induction l as [|g l IH]; intros Hl (f & Hf & Ha); [by apply not_elem_of_nil in Hf|].
  cbn [failed_ancestor]. destruct (Hl g ltac:(by left)) as [bg Hg]. rewrite Hg. cbn [mbind option_bind].
  destruct (GetAncestor_anc _ x c g bg Hs Hx Hg) as (a & -> & Hag). cbn [mbind option_bind]. case_bool_decide as Ea.
  - destruct (has_flag bg BLOCK_FAILED_VALID) eqn:Ev; [|done]. apply failed_of_valid in Ev. by rewrite (Hcl g bg (proj1 Hag Ea) Hg) in Ev.
  - apply IH; [intros y Hy; apply Hl; by right|]. apply elem_of_cons in Hf as [->|Hf]; [by destruct Ea; apply Hag | by exists f].
Qed.

(** *** One more object *)

Section Insert.
Variables (st : chain_state) (p : ptr) (b : CBlockIndex) (t : block_tree).
Hypothesis Hok : chain_state_ok st.
Hypothesis Hp : objects st !! p = None.
Hypothesis Ht : index t = <[p := b]> (objects st).
Hypothesis Hidx : index_ok t.
Hypothesis Hfresh : nChainTx b = 0.
Hypothesis Hheight : nHeight b < max_height.
Hypothesis Hwork : forall q c, pprev b = Some q -> objects st !! q = Some c -> work c < work b.
Hypothesis Hroot : pprev b = None -> phashBlock b = Some hashGenesisBlock /\ connects p.

Lemma insert_at x c : index t !! x = Some c -> x = p /\ c = b \/ x <> p /\ objects st !! x = Some c.
Proof.
  rewrite Ht. destruct (decide (p = x)) as [<-|Hne]; [rewrite lookup_insert_eq; intros [= <-]; by left | rewrite lookup_insert_ne by done; auto].
Qed.

Lemma insert_old x c : objects st !! x = Some c -> index t !! x = Some c.
Proof. intros Hx. rewrite Ht, lookup_insert_ne; [done|congruence]. Qed.

Lemma insert_chain : chain_ok (index t) (chainActive st).
Proof.
  intros i Hi. destruct Hok as [Hc _]. destruct (core_chain _ Hc i Hi) as (x & c & Hx & Hcx & H'). exists x, c. split; [done|]. split; [by apply insert_old|done].
Qed.

Lemma insert_main x : on_main (index t) (chainActive st) x -> on_main (objects st) (chainActive st) x.
Proof.
  intros (c & Hcx & Hat). destruct (insert_at x c Hcx) as [[-> ->]|[_ ?]]; [exfalso|by exists c].
  destruct (chain_at _ _ _ Hat) as [Hr Hv]. destruct Hok as [Hc _]. destruct (core_chain _ Hc (Z.to_nat (nHeight b))) as (y & d & Hy & Hd & _); [apply lookup_lt_Some in Hv; done|].
  congruence.
Qed.

Lemma insert_objects : objects_ok (index t).
Proof.
  destruct Hok as [Hc _]. pose proof (core_store _ Hc) as Hs. destruct (core_objects _ Hc) as [H1 H2 H3 H4 H5 H6].
  assert (Hold : forall x c q d, objects st !! x = Some c -> pprev c = Some q -> index t !! q = Some d -> objects st !! q = Some d).
  { intros x c q d Hcx Hq Hd. pose proof (parent_height _ x c Hs Hcx) as Hpar. rewrite Hq in Hpar. destruct Hpar as (d' & Hd' & _).
    apply insert_old in Hd' as Hd2. congruence. }
  split.
  - intros x c [[-> ->]|[_ Hcx]]%insert_at Hl; [by destruct (Hl Hfresh) | by apply (H1 x)].
  - intros x c [[-> ->]|[_ Hcx]]%insert_at Hl; [by destruct (Hl Hfresh) | by apply (H2 x)].
  - intros x c q d [[-> ->]|[_ Hcx]]%insert_at Hl Hq Hd; [by destruct (Hl Hfresh) | apply (H3 x c q d Hcx Hl Hq); by apply (Hold x c)].
  - intros x c q d [[-> ->]|[_ Hcx]]%insert_at Hq Hd; [|apply (H4 x c q d Hcx Hq); by apply (Hold x c)].
    apply insert_at in Hd as Hd2. destruct Hd2 as [[-> ->]|[_ Hd']]; [|by apply (Hwork q)].
    pose proof (parent_height _ p b (index_store _ Hidx)) as Hpar. rewrite Ht, lookup_insert_eq in Hpar. specialize (Hpar eq_refl). rewrite Hq in Hpar.
    destruct Hpar as (d & Hd' & ? & _). rewrite lookup_insert_eq in Hd'. injection Hd' as <-. lia.
  - intros x c [[-> ->]|[_ Hcx]]%insert_at; [done | by apply (H5 x)].
  - intros x c [[-> ->]|[_ Hcx]]%insert_at Hn; [by apply Hroot | by apply (H6 x c)].
Qed.

Lemma insert_ok : chain_state_ok (on_tree (fun _ => t) st).
Proof.
  pose proof Hok as [Hc Hcomp]. split.
  - split; simpl; [done | apply insert_chain | apply insert_objects | | | | |].
    + intros x c Hx%insert_main Hcx. apply (core_main _ Hc x c Hx). apply insert_at in Hcx as [[-> ->]|[_ ?]]; [|done]. destruct Hx as (d & Hd & _). congruence.
    + intros x Hx. destruct (core_candidates _ Hc x Hx) as (c & Hcx & Hl). exists c. split; [by apply insert_old | done].
    + destruct (core_waiting _ Hc) as [Hnd Hw]. split; [done|]. intros a x Hx. destruct (Hw a x Hx) as (c & Hcx & ?). exists c. split; [by apply insert_old | done].
    + intros x Hx. destruct (core_invalid _ Hc x Hx) as [c Hcx]. exists c. by apply insert_old.
    + intros x Hx. destruct (core_failed _ Hc x Hx) as (c & Hcx & ?). exists c. split; [by apply insert_old | done].
  - intros x c Hcx Hl Hf Hw. simpl in *. apply insert_at in Hcx as [[-> ->]|[_ Hcx]]; [by destruct (Hl Hfresh)|].
    apply (Hcomp x c Hcx Hl Hf). intros q d Hq Hd. apply (Hw q d Hq). by apply insert_old.
Qed.
End Insert.

(** what is asked of a header that passes the checks: the work of the chain fits 256 bits
    and grows, and the height stays in bounds *)
Record admissible `{HeaderHash} (block : CBlockHeader) (st : chain_state) : Prop := {
  adm_bits : is_u32 (hdr_nBits block);
  adm_self : hdr_hashPrevBlock block <> GetHeaderHash block;
  adm_parent : forall q c proof, mapBlockIndex (tree st) !! hdr_hashPrevBlock block = Some q -> objects st !! q = Some c ->
    GetBlockProof (hdr_nBits block) = Some proof ->
    nHeight c + 1 < max_height /\ 0 < uval proof /\ uval (nChainWork c) + uval proof < modulus 8;
}.

Lemma add_fresh `{HeaderHash} t block status p t' : mapBlockIndex t !! GetHeaderHash block = None ->
  AddToBlockIndex t block status = Some (p, t') -> p = fresh (dom (index t)).
Proof.
  intros E. unfold AddToBlockIndex. rewrite E. cbv zeta. destruct (link_prev _ _ _ _); [|done]. cbn [mbind option_bind].
  destruct (accumulate _ _); [|done]. cbn [mbind option_bind]. destruct (raise_new _ _ _ _) as [[s' best]|]; [|done]. cbn [mbind option_bind].
  destruct (s' !! _) as [b|]; [|done]. cbn [mbind option_bind]. destruct (pprev b) as [q|]; [destruct (s' !! q); [|done]|]; cbn [mbind option_bind]; by intros [= <- <-].
Qed.

Lemma add_header_spec `{HeaderHash} block status st : chain_state_ok st -> status = BLOCK_VALID_TREE \/ status = BLOCK_CONFLICT_CHAINLOCK ->
  mapBlockIndex (tree st) !! GetHeaderHash block = None -> admissible block st ->
  (mapBlockIndex (tree st) !! hdr_hashPrevBlock block = None -> i32 (hdr_nHeight block) = 0 /\ 0 < max_height /\ GetHeaderHash block = hashGenesisBlock /\
     connects (fresh (dom (objects st)))) ->
  exists p b st', add_header block status st = Some (p, st') /\ chain_state_ok st' /\ chainActive st' = chainActive st /\
    objects st' = <[p := b]> (objects st) /\ objects st !! p = None /\ nChainTx b = 0 /\ failed b = false /\
    pprev b = mapBlockIndex (tree st) !! hdr_hashPrevBlock block /\ mapBlocksUnlinked st' = mapBlocksUnlinked st.
Proof.
  intros Hok Hst Enew Hadm Hroot. pose proof Hok as [Hc _]. unfold add_header.
  destruct (AddToBlockIndex_index (tree st) block status (core_tree _ Hc)) as (p & b & t & Eadd & Hidx & Hp & Ei & Em & Eh & Eprev & Ebits & _ & Hfresh & Hfl); [|done..|].
  { split; [apply (adm_bits _ _ Hadm) | apply (adm_self _ _ Hadm) | intros E; by apply Hroot]. }
  pose proof (add_fresh _ _ _ _ _ Enew Eadd) as Hpf. rewrite Eadd.
  assert (Hb : index t !! p = Some b) by (by rewrite Ei, lookup_insert_eq).
  pose proof (index_store _ Hidx p b Hb) as [_ _ _ Hprev].
  assert (Hpar : forall q c, pprev b = Some q -> objects st !! q = Some c -> nHeight b = nHeight c + 1 /\ nHeight b < max_height /\ work c < work b).
  { intros q c Hq Hcq. rewrite Hq in Hprev. destruct Hprev as (c' & proof & Hc' & Ehb & _ & _ & Epr & Ew).
    rewrite Ei, lookup_insert_ne, Hcq in Hc' by congruence. injection Hc' as <-. rewrite Ebits in Epr.
    destruct (adm_parent _ _ Hadm q c proof) as (? & ? & Hfit); [congruence | done | done |]. split; [done|]. split; [lia|].
    destruct (GetBlockProof_spec _ (adm_bits _ _ Hadm)) as (proof' & Epr' & Hwf & _). rewrite Epr in Epr'. injection Epr' as <-.
    unfold work. rewrite Ew. pose proof (node_work _ _ (core_store _ Hc q c Hcq)) as Hwc. pose proof (uval_range 8 _ Hwc). pose proof (uval_range 8 _ Hwf).
    destruct (uval_add 8 _ _ Hwc Hwf) as [_ ->]. rewrite Z.mod_small by lia. lia. }
  cbn [mbind option_bind]. exists p, b, (on_tree (fun _ => t) st). split; [done|].
  assert (Hfb : failed b = false) by (unfold has_flag; by rewrite Hfl).
  split; [|split_and!; try done; by destruct Hfresh as (_ & ? & _)].
  apply (insert_ok st p b t); try done; [by destruct Hfresh as (_ & ? & _) | | intros q c Hq Hcq; by apply (Hpar q c) |].
  - destruct (pprev b) as [q|] eqn:Eq.
    + destruct (proj1 (index_map _ (core_tree _ Hc) _ _) (eq_sym Eprev)) as (c & Hcq & _). by apply (Hpar q c).
    + destruct Hprev as (-> & _). by apply Hroot.
  - intros Hn. rewrite Hn in Eprev. destruct (Hroot (eq_sym Eprev)) as (_ & _ & E & Hcon). rewrite Eh, E, Hpf. done.
Qed.
End Events.

Section Events.
Context `{HeaderHash} {BV : BlockValidation} {BL : BlockValidationLaws BV} {LM : Limits}.

(** ** The state between the calls *)

Record settled (st : chain_state) : Prop := {
  settled_ok : chain_state_ok st;
  settled_tip : is_Some (Tip (chainActive st));
  settled_best : best_tip st;
}.

(** the genesis block is at the bottom of the chain *)
Lemma genesis_known st : chain_state_ok st -> is_Some (Tip (chainActive st)) ->
  exists p b, mapBlockIndex (tree st) !! hashGenesisBlock = Some p /\ objects st !! p = Some b /\ linked b /\ failed b = false.
Proof.
  intros [Hc _] [t Ht]. assert (Hlen : (0 < length (chainActive st))%nat).
  { destruct (tip_some _ _ t (core_chain _ Hc) Ht) as (b & Hb & Hl & _). pose proof (node_height _ _ (core_store _ Hc t b Hb)). lia. }
  destruct (core_chain _ Hc 0%nat Hlen) as (p & b & Hv & Hb & Hh & Hn). exists p, b.
  destruct (obj_genesis _ (core_objects _ Hc) p b Hb Hn) as [Hash _].
  assert (Hm : on_main (objects st) (chainActive st) p).
  { exists b. split; [done|]. unfold at_height. rewrite Hh, Z.geb_leb, (proj2 (Z.ltb_ge _ _)), (proj2 (Z.leb_gt _ _)) by lia.
    change (Z.to_nat (Z.of_nat 0)) with 0%nat. by rewrite Hv. }
  destruct (core_main _ Hc p b Hm Hb) as (? & ? & _). split; [|done]. apply (index_map _ (core_tree _ Hc)). eauto.
Qed.

Lemma best_tip_kept st st' : stored kept (objects st) (objects st') -> chainActive st' = chainActive st -> best_tip st -> best_tip st'.
Proof.
  intros Hk Ev Hbest p b Hb Hl Hcl. destruct (stored_bwd _ _ _ _ _ Hk Hb) as (a & Ha & Hab).
  destruct (Hbest p a Ha) as (t & bt & Ht & Hbt & Hw); [by apply (linked_kept a b) | by apply (clean_kept _ _ _ Hk)|].
  destruct (stored_fwd _ _ _ _ _ Hk Hbt) as (bt' & Hbt' & Hbb). exists t, bt'. rewrite Ev. split; [done|]. split; [done|].
  by rewrite <- (worse_kept t bt bt' p a b Hbb Hab).
Qed.

Lemma best_tip_insert st st' p b : store_ok (objects st) -> objects st !! p = None -> objects st' = <[p := b]> (objects st) -> nChainTx b = 0 ->
  chainActive st' = chainActive st -> best_tip st -> best_tip st'.
Proof.
  intros Hs Hp E Hz Ev Hbest x c Hc Hl Hcl. rewrite E in Hc. destruct (decide (p = x)) as [<-|Hne].
  { rewrite lookup_insert_eq in Hc. injection Hc as <-. by destruct (Hl Hz). }
  rewrite lookup_insert_ne in Hc by done. assert (Hsub : objects st ⊆ objects st') by (rewrite E; by apply insert_subseteq).
  destruct (Hbest x c Hc Hl) as (t & bt & Ht & Hbt & Hw).
  - intros q d [n Hq] Hd. apply (Hcl q d); [exists n; by apply (up_mono (objects st)) | by apply (lookup_weaken (objects st))].
  - exists t, bt. rewrite Ev. split; [done|]. split; [by apply (lookup_weaken (objects st)) | done].
Qed.

(** the call leaves the chain as it is *)
Record same_chain (st st' : chain_state) : Prop := {
  same_ok : chain_state_ok st';
  same_active : chainActive st' = chainActive st;
  same_best : best_tip st -> best_tip st';
}.

Lemma same_chain_refl st : chain_state_ok st -> same_chain st st.
Proof. by split. Qed.
Lemma same_chain_trans st1 st2 st3 : same_chain st1 st2 -> same_chain st2 st3 -> same_chain st1 st3.
Proof. intros [? E1 ?] [? E2 ?]. split; [done | congruence | auto]. Qed.
Lemma same_chain_settled st st' : settled st -> same_chain st st' -> settled st'.
Proof. intros [? ? ?] [? E ?]. split; [done | by rewrite E | auto]. Qed.
Lemma activated_settled st st' : chain_state_ok st -> is_Some (Tip (chainActive st)) -> ActivateBestChain st = Some (true, st') -> settled st'.
Proof.
  intros Hok [t Ht] E. destruct (ActivateBestChain_spec st Hok) as (st2 & E2 & Hok2 & Hbest & Hk & Hle & _). rewrite E in E2. injection E2 as <-.
  split; [done | | done]. destruct (tip_some _ _ t (core_chain _ (proj1 Hok)) Ht) as (b & Hb & _). destruct (stored_fwd _ _ _ _ _ Hk Hb) as (b' & Hb' & _).
  destruct (Hle t b' Ht Hb') as (t' & _ & -> & _). eauto.
Qed.

(** ** AcceptBlockHeader *)

Section Checks.
Context {BC : BlockChecks}.

(** the object a header was accepted for *)
Definition accepted (pindex : option ptr) (st : chain_state) : Prop :=
  exists p b, pindex = Some p /\ objects st !! p = Some b /\ failed b = false.

Lemma accept_new block status q st : settled st -> admissible block st -> status = BLOCK_VALID_TREE \/ status = BLOCK_CONFLICT_CHAINLOCK ->
  mapBlockIndex (tree st) !! GetHeaderHash block = None -> mapBlockIndex (tree st) !! hdr_hashPrevBlock block = Some q ->
  exists p st', add_header block status st = Some (p, st') /\ same_chain st st' /\ accepted (Some p) st'.
Proof.
  intros [Hok Ht Hbest] Hadm Hst Enew Eq.
  destruct (add_header_spec block status st Hok Hst Enew Hadm) as (p & b & st' & -> & Hok' & Ev & Ei & Hp & Hz & Hf & _); [by rewrite Eq|].
  exists p, st'. split; [done|]. split; [|exists p, b; by rewrite Ei, lookup_insert_eq].
  split; [done | done |]. by apply (best_tip_insert st st' p b (core_store _ (proj1 Hok))).
Qed.

Lemma AcceptBlockHeader_spec block st : settled st -> admissible block st ->
  exists ok pindex st', AcceptBlockHeader block st = Some (ok, pindex, st') /\ same_chain st st' /\ (ok = true -> accepted pindex st').
Proof.
  intros Hset Hadm. pose proof Hset as [Hok Ht Hbest]. pose proof Hok as [Hc _]. unfold AcceptBlockHeader. cbv zeta. case_bool_decide as Eg.
  { destruct (genesis_known st Hok Ht) as (p & b & Hp & Hb & Hl & Hf). unfold add_header, AddToBlockIndex. rewrite Eg, Hp. cbn [mbind option_bind].
    eexists _, _, _. split; [done|]. simpl. assert (E : on_tree (fun _ => tree st) st = st) by (by destruct st). rewrite E.
    split; [by apply same_chain_refl|]. intros _. by exists p, b. }
  destruct (mapBlockIndex (tree st) !! GetHeaderHash block) as [p|] eqn:Enew.
  { apply (index_map _ (core_tree _ Hc)) in Enew as (b & Hb & _). rewrite Hb. cbn [mbind option_bind].
    eexists _, _, _. split; [done|]. split; [by apply same_chain_refl|]. intros Hf%negb_true_iff. by exists p, b. }
  assert (Hno : exists ok pindex st', Some (false, None, st) = Some (ok, pindex, st') /\ same_chain st st' /\ (ok = true -> accepted pindex st')).
  { exists false, None, st. split; [done|]. split; [by apply same_chain_refl | done]. }
  destruct (negb (CheckBlockHeader block)); [done|]. destruct (mapBlockIndex (tree st) !! hdr_hashPrevBlock block) as [q|] eqn:Eq; [|done].
  destruct (proj1 (index_map _ (core_tree _ Hc) _ _) Eq) as (c & Hcq & _). rewrite Hcq. cbn [mbind option_bind].
  destruct (_ || _ || _); [done|]. destruct (IsValid_some c BLOCK_VALID_SCRIPTS ltac:(auto)) as (v & -> & _). cbn [mbind option_bind].
  assert (Hr : exists r st1, (if v then Some (true, st) else failed_ancestor q (elements (g_failed_blocks st)) st) = Some (r, st1) /\
    same_chain st st1 /\ (r = true -> st1 = st)).
  { destruct v; [exists true, st; split; [done|]; split; [by apply same_chain_refl | done]|].
    destruct (failed_ancestor_spec st q c (elements (g_failed_blocks st)) Hok Hcq) as (r & st1 & -> & Hok1 & Hk & Ev & Hr); [intros f; by rewrite elem_of_elements|].
    exists r, st1. split; [done|]. split; [split; [done | done | by apply best_tip_kept] | by intros ->]. }
  destruct Hr as (r & st1 & -> & Hsame & Hr). cbn [mbind option_bind]. destruct r; [|by exists false, None, st1].
  rewrite (Hr eq_refl). destruct (HasConflictingChainLock _ _).
  - destruct (accept_new block BLOCK_CONFLICT_CHAINLOCK q st Hset Hadm ltac:(by right) Enew Eq) as (p & st' & -> & ? & _).
    cbn [mbind option_bind snd]. by exists false, None, st'.
  - destruct (accept_new block BLOCK_VALID_TREE q st Hset Hadm ltac:(by left) Enew Eq) as (p & st' & -> & ? & ?).
    cbn [mbind option_bind fst snd]. by exists true, (Some p), st'.
Qed.

(** ** AcceptBlock *)

(** a block that passes the checks has transactions, and not too many *)
Definition bounded_block (block : CBlock) : Prop := CheckBlock block = Passed -> 0 < vtx_size block <= max_tx.

(** the checks fail: the block has no data, it is not on the chain *)
Lemma refuse_block st p b : chain_state_ok st -> objects st !! p = Some b -> have_data b = false ->
  same_chain st (dirty p (modify p (or_status BLOCK_FAILED_VALID) st)).
Proof.
  intros [Hc Hcomp] Hb Hd. assert (Hoff : ~ on_main (objects st) (chainActive st) p).
  { intros Hm. destruct (core_main _ Hc p b Hm Hb) as (Hl & _). destruct (obj_received _ (core_objects _ Hc) p b Hb Hl) as (? & _). congruence. }
  assert (Hk : stored kept (objects st) (objects (mark BLOCK_FAILED_VALID p st))) by (apply stored_alter; [apply _|]; intros c _; by apply or_status_kept).
  split; [|done | by apply best_tip_kept]. apply (only_marked_ok st); [done|]. split; [by apply mark_core|]. split; [done|]. split; [done|]. by intros y c ? ?.
Qed.

Lemma AcceptBlock_spec block fRequested st : settled st -> admissible (block_header block) st -> bounded_block block ->
  exists (ok : bool) st', AcceptBlock block fRequested st = Some (ok, st') /\ chain_state_ok st' /\ chainActive st' = chainActive st /\
    if ok then True else settled st'.
Proof.
  intros Hset Hadm Hbound. unfold AcceptBlock.
  destruct (AcceptBlockHeader_spec (block_header block) st Hset Hadm) as (ok & pindex & st1 & -> & Hsame & Hacc). cbn [mbind option_bind].
  pose proof Hsame as [Hok1 Ev1 _]. pose proof (same_chain_settled _ _ Hset Hsame) as Hset1. destruct ok; [|by exists false, st1].
  destruct (Hacc eq_refl) as (p & b & -> & Hb & Hf). cbn [mbind option_bind]. rewrite Hb. cbn [mbind option_bind].
  assert (Hmore : exists more, match Tip (chainActive st1) with None => Some true
    | Some tip => t ← objects st1 !! tip; Some (Uint.CompareTo (nChainWork b) (nChainWork t) >=? 0) end = Some more).
  { destruct (Tip (chainActive st1)) as [t|] eqn:Ht; [|eauto]. destruct (tip_some _ _ t (core_chain _ (proj1 Hok1)) Ht) as (bt & -> & _). simpl. eauto. }
  destruct Hmore as (more & ->). cbn [mbind option_bind]. destruct (have_data b) eqn:Hd; simpl; [by exists true, st1|].
  destruct (_ && _); [by exists true, st1|].
  assert (Hfail : forall invalid corrupt : bool, settled (if invalid && negb corrupt then dirty p (modify p (or_status BLOCK_FAILED_VALID) st1) else st1) /\
    chainActive (if invalid && negb corrupt then dirty p (modify p (or_status BLOCK_FAILED_VALID) st1) else st1) = chainActive st).
  { intros invalid corrupt. destruct (_ && _); [|done]. split; [|done]. by apply (same_chain_settled st1), (refuse_block st1 p b). }
  destruct (CheckBlock block) as [|i c] eqn:Echk.
  2:{ eexists false, _. split; [done|]. destruct (Hfail i c) as [Hs ?]. split; [apply Hs | done]. }
  destruct (ContextualCheckBlock block (pprev b)) as [|i c].
  2:{ eexists false, _. split; [done|]. destruct (Hfail i c) as [Hs ?]. split; [apply Hs | done]. }
  destruct (FindBlockPos block (nHeight b)) as [[file pos]|]; [|by exists false, st1].
  destruct (no_data st1 p b (proj1 Hok1) Hb Hd) as [Hz Hwait].
  destruct (ReceivedBlockTransactions_spec (vtx_size block) file pos IsWitnessEnabled st1 p b Hok1 Hb Hz Hwait Hf (Hbound Echk)) as (st2 & -> & Hok2 & Ev2 & _).
  cbn [mbind option_bind]. exists true, st2. split; [done|]. split; [done|]. split; [congruence | done].
Qed.

Lemma ProcessNewBlock_spec block fForce st : settled st -> admissible (block_header block) st -> bounded_block block ->
  exists ok st', ProcessNewBlock block fForce st = Some (ok, st') /\ settled st'.
Proof.
  intros Hset Hadm Hbound. unfold ProcessNewBlock. destruct (settled_tip _ Hset) as [t Ht]. rewrite Ht. cbn [mbind option_bind].
  destruct (CheckBlock block) as [|i c] eqn:Echk; [|by exists false, st].
  destruct (AcceptBlock_spec block fForce st Hset Hadm Hbound) as (ok & st1 & -> & Hok1 & Ev1 & H1). cbn [mbind option_bind].
  destruct ok; [|by exists false, st1]. destruct (ActivateBestChain_spec st1 Hok1) as (st2 & E & _). exists true, st2. split; [done|].
  apply (activated_settled st1); [done | by rewrite Ev1, Ht | done].
Qed.

(** every header of the list, when its turn comes *)
Fixpoint admissible_all (headers : list CBlockHeader) (st : chain_state) : Prop :=
  match headers with
  | [] => True
  | h :: l => admissible h st /\ forall p st', AcceptBlockHeader h st = Some (true, p, st') -> admissible_all l st'
  end.

Lemma ProcessNewBlockHeaders_spec headers : forall st, settled st -> admissible_all headers st ->
  exists ok st', ProcessNewBlockHeaders headers st = Some (ok, st') /\ settled st' /\ chainActive st' = chainActive st.
Proof.
  induction headers as [|h l IH]; intros st Hset Hadm; [by exists true, st|]. destruct Hadm as [Hh Hl]. cbn [ProcessNewBlockHeaders].
  destruct (AcceptBlockHeader_spec h st Hset Hh) as (ok & pindex & st1 & E & Hsame & _). rewrite E. cbn [mbind option_bind].
  pose proof (same_chain_settled _ _ Hset Hsame) as Hset1. destruct ok; [|exists false, st1; split; [done|]; split; [done | apply Hsame]].
  destruct (IH st1 Hset1 (Hl pindex st1 E)) as (ok & st2 & -> & ? & E2). exists ok, st2. split; [done|]. split; [done|]. rewrite E2. apply Hsame.
Qed.
End Checks.
End Events.

(** the globals before anything is loaded *)
Definition empty_state : chain_state := MkChainState empty_tree [] ∅ [] None ∅ 1 (-1) (Uint.of_u64 8 0).

Section Events.
Context `{HeaderHash} {BV : BlockValidation} {BL : BlockValidationLaws BV} {LM : Limits}.

(** ** The genesis block *)

(** what is known of the genesis block of the chain parameters *)
Record genesis_ok (block : CBlock) : Prop := {
  genesis_hash : GetHeaderHash (block_header block) = hashGenesisBlock;
  genesis_bits : is_u32 (hdr_nBits (block_header block));
  genesis_self : hdr_hashPrevBlock (block_header block) <> GetHeaderHash (block_header block);
  genesis_height : i32 (hdr_nHeight (block_header block)) = 0 /\ 0 < max_height;
  genesis_size : 0 < vtx_size block <= max_tx;
  genesis_connects : connects (fresh (∅ : gset ptr));
}.

Lemma empty_ok : chain_state_ok empty_state.
Proof.
  assert (Hno : forall p : ptr, objects empty_state !! p = None) by (intros p; apply lookup_empty). split.
  - split.
    + apply (tree_index _ (reachable_ok _ reachable_init)).
    + intros i Hi. simpl in Hi. lia.
    + split; intros p b; by rewrite Hno.
    + intros p b _. by rewrite Hno.
    + intros p Hp. simpl in Hp. set_solver.
    + split; [constructor|]. intros a p Hp. by apply not_elem_of_nil in Hp.
    + done.
    + intros p Hp. simpl in Hp. set_solver.
  - intros p b. by rewrite Hno.
Qed.

Lemma LoadGenesisBlock_spec {BC : BlockChecks} block : genesis_ok block ->
  exists ok st, LoadGenesisBlock block empty_state = Some (ok, st) /\ (ok = true -> chain_state_ok st /\
    exists p b, objects st !! p = Some b /\ linked b /\ failed b = false /\ pprev b = None).
Proof.
  intros [Hh Hbits Hself [Hheight Hmax] Hsize Hcon]. unfold LoadGenesisBlock. rewrite bool_decide_false by (simpl; rewrite lookup_empty; by intros [? ?]).
  destruct (FindBlockPos block 0) as [[file pos]|]; [|by exists false, empty_state].
  destruct (add_header_spec (block_header block) BLOCK_VALID_TREE empty_state empty_ok ltac:(by left) (lookup_empty _))
    as (p & b & st1 & -> & Hok1 & _ & Ei & _ & Hz & Hf & Hprev & EU).
  { split; [done | done |]. intros q c proof Hq. simpl in Hq. by rewrite lookup_empty in Hq. }
  { intros _. split; [done|]. split; [done|]. split; [done|]. simpl. by rewrite dom_empty_L. }
  cbn [mbind option_bind]. assert (Hb : objects st1 !! p = Some b) by (by rewrite Ei, lookup_insert_eq). simpl in Hprev. rewrite lookup_empty in Hprev.
  destruct (ReceivedBlockTransactions_spec (vtx_size block) file pos IsWitnessEnabled st1 p b Hok1 Hb Hz) as (st2 & -> & Hok2 & _ & Hs2 & Hlink); [|done..|].
  { rewrite EU. by apply not_elem_of_nil. }
  cbn [mbind option_bind]. exists true, st2. split; [done|]. intros _. split; [done|]. destruct Hlink as (b' & Hb' & Hl' & Hf'); [intros q c Hq; congruence|].
  exists p, b'. split; [done|]. split; [done|]. split; [done|]. destruct (stored_fwd _ _ _ _ _ Hs2 Hb) as (b2 & Hb2 & [[= _ E _ _] _]). congruence.
Qed.

(** ** The start: the genesis block is loaded and connected *)
Lemma started_settled {BC : BlockChecks} block st st' : genesis_ok block -> LoadGenesisBlock block empty_state = Some (true, st) ->
  ActivateBestChain st = Some (true, st') -> settled st'.
Proof.
  intros Hg E E'. destruct (LoadGenesisBlock_spec block Hg) as (ok & st1 & E1 & Hst). rewrite E in E1. injection E1 as <- <-.
  destruct (Hst eq_refl) as (Hok & p & b & Hb & Hl & Hf & Hprev).
  destruct (ActivateBestChain_spec st Hok) as (st2 & E2 & Hok2 & Hbest & Hk & _ & Hsp). rewrite E' in E2. injection E2 as <-.
  split; [done | | done]. destruct (stored_fwd _ _ _ _ _ Hk Hb) as (b' & Hb' & Hbb).
  assert (Hanc : forall a, anc (objects st) p a -> a = p) by (intros a [->|(c & r & Hc & Hr & _)]%anc_inv; [done | congruence]).
  destruct (Hbest p b' Hb') as (t & bt & -> & _); [by apply (linked_kept b b') | |eauto].
  apply Hsp; [intros q c ->%Hanc Hc; congruence|]. intros a ->%Hanc. by apply (obj_genesis _ (core_objects _ (proj1 Hok)) p b).
Qed.

(** ** The calls of rpc/blockchain.cpp *)

Lemma hash_object hash p st : core st -> mapBlockIndex (tree st) !! hash = Some p -> exists b, objects st !! p = Some b /\ phashBlock b = Some hash.
Proof. intros Hc. apply (index_map _ (core_tree _ Hc)). Qed.

Lemma activate_after st : chain_state_ok st -> is_Some (Tip (chainActive st)) -> exists st', ActivateBestChain st = Some (true, st') /\ settled st'.
Proof.
  intros Hok Ht. destruct (ActivateBestChain_spec st Hok) as (st' & E & _). exists st'. split; [done|]. by apply (activated_settled st).
Qed.

(** a block that is made precious while it is the tip keeps its place *)
Definition precious_guard (hash : list Z) (st : chain_state) : Prop := forall p b, mapBlockIndex (tree st) !! hash = Some p -> objects st !! p = Some b ->
  Tip (chainActive st) = Some p -> precious_id st b <= nSequenceId b.

Lemma preciousblock_spec hash st : settled st -> precious_guard hash st -> exists r st', preciousblock hash st = Some (r, st') /\ settled st'.
Proof.
  intros [Hok [t Ht] Hbest] Hg. unfold preciousblock. destruct (mapBlockIndex (tree st) !! hash) as [p|] eqn:Ep; [|exists None, st; split; [done|]; by split].
  destruct (hash_object hash p st (proj1 Hok) Ep) as (b & Hb & _). destruct (tip_some _ _ t (core_chain _ (proj1 Hok)) Ht) as (bt & Hbt & _).
  destruct (PreciousBlock_spec st p b t bt Hok Hb Ht Hbt) as (st' & -> & Hok' & _ & Ht' & Hbest').
  { intros ->. rewrite Hb in Hbt. injection Hbt as <-. by apply (Hg p b). }
  cbn [mbind option_bind fst snd]. exists (Some true), st'. split; [done|]. split; auto.
Qed.

Lemma invalidateblock_spec hash st : settled st -> hash <> hashGenesisBlock -> exists r st', invalidateblock hash st = Some (r, st') /\ settled st'.
Proof.
  intros Hset Hg. pose proof Hset as [Hok Ht Hbest]. unfold invalidateblock. destruct (mapBlockIndex (tree st) !! hash) as [p|] eqn:Ep; [|by exists None, st].
  destruct (hash_object hash p st (proj1 Hok) Ep) as (b & Hb & Hh). destruct (pprev b) as [q|] eqn:Hq.
  2:{ destruct (obj_genesis _ (core_objects _ (proj1 Hok)) p b Hb Hq) as [? _]. congruence. }
  destruct (InvalidateBlock_spec st p b q (proj1 Hok) Ht Hb Hq) as (st1 & -> & Hok1 & _ & _ & Ht1 & _). cbn [mbind option_bind].
  destruct (activate_after st1 Hok1 Ht1) as (st2 & -> & Hset2). cbn [mbind option_bind fst snd]. by exists (Some true), st2.
Qed.

(** only the block itself is marked, of it and its ancestors *)
Definition reconsider_guard (hash : list Z) (st : chain_state) : Prop := forall p q c, mapBlockIndex (tree st) !! hash = Some p ->
  anc (objects st) p q -> q <> p -> objects st !! q = Some c -> failed c = false.

Lemma reconsiderblock_spec hash st : settled st -> reconsider_guard hash st -> exists r st', reconsiderblock hash st = Some (r, st') /\ settled st'.
Proof.
  intros Hset Hg. pose proof Hset as [Hok Ht Hbest]. unfold reconsiderblock. destruct (mapBlockIndex (tree st) !! hash) as [p|] eqn:Ep; [|by exists None, st].
  destruct (hash_object hash p st (proj1 Hok) Ep) as (b & Hb & _).
  destruct (ResetBlockFailureFlags_spec st p b Hok Ht Hb) as (st1 & -> & Hok1 & Ev1 & _); [intros q c; by apply Hg|]. cbn [mbind option_bind].
  destruct (activate_after st1 Hok1) as (st2 & -> & Hset2); [by rewrite Ev1|]. cbn [mbind option_bind fst snd]. by exists (Some true), st2.
Qed.

(** ** Events *)

Inductive chain_event :=
  | NewBlock (checks : BlockChecks) (block : CBlock) (fForceProcessing : bool)
  | NewHeaders (checks : BlockChecks) (headers : list CBlockHeader)
  | Precious (hash : list Z)
  | Invalidate (hash : list Z)
  | Reconsider (hash : list Z).

Definition handle (e : chain_event) (st : chain_state) : option chain_state :=
  match e with
  | NewBlock checks block force => snd <$> ProcessNewBlock (BC := checks) block force st
  | NewHeaders checks headers => snd <$> ProcessNewBlockHeaders (BC := checks) headers st
  | Precious hash => snd <$> preciousblock hash st
  | Invalidate hash => snd <$> invalidateblock hash st
  | Reconsider hash => snd <$> reconsiderblock hash st
  end.

(** what the callers, the checks of blocks and the size of the chain make sure *)
Definition allowed (e : chain_event) (st : chain_state) : Prop :=
  match e with
  | NewBlock checks block force => admissible (block_header block) st /\ bounded_block (BC := checks) block
  | NewHeaders checks headers => admissible_all (BC := checks) headers st
  | Precious hash => precious_guard hash st
  | Invalidate hash => hash <> hashGenesisBlock
  | Reconsider hash => reconsider_guard hash st
  end.

Lemma handle_settled e st : settled st -> allowed e st -> exists st', handle e st = Some st' /\ settled st'.
Proof.
  intros Hset. destruct e as [checks block force|checks headers|hash|hash|hash]; simpl.
  - intros [Hadm Hbound]. destruct (ProcessNewBlock_spec (BC := checks) block force st Hset Hadm Hbound) as (ok & st' & -> & ?). by exists st'.
  - intros Hadm. destruct (ProcessNewBlockHeaders_spec (BC := checks) headers st Hset Hadm) as (ok & st' & -> & ? & _). by exists st'.
  - intros Hg. destruct (preciousblock_spec hash st Hset Hg) as (r & st' & -> & ?). by exists st'.
  - intros Hg. destruct (invalidateblock_spec hash st Hset Hg) as (r & st' & -> & ?). by exists st'.
  - intros Hg. destruct (reconsiderblock_spec hash st Hset Hg) as (r & st' & -> & ?). by exists st'.
Qed.

(** the states of a node *)
Inductive node_state : chain_state -> Prop :=
  | node_start (checks : BlockChecks) block st st' : genesis_ok block -> LoadGenesisBlock block empty_state = Some (true, st) ->
      ActivateBestChain st = Some (true, st') -> node_state st'
  | node_event e st st' : node_state st -> allowed e st -> handle e st = Some st' -> node_state st'.

Lemma node_settled st : node_state st -> settled st.
Proof.
  induction 1 as [checks block st st' Hg E E'|e st st' _ IH Ha E]; [by apply (started_settled block st)|].
  destruct (handle_settled e st IH Ha) as (st2 & E2 & Hset). congruence.
Qed.
End Events.

(** ** A node *)

#[local] Existing Instance sample_header_hash.

(** the blocks [bad] are not valid *)
Definition sample_validation (bad : list ptr) (corrupt : bool) : BlockValidation := {|
  hashGenesisBlock := [0];
  ConnectBlock p := if bool_decide (p ∈ bad) then Invalid corrupt else Connected 0;
  can_disconnect _ := true;
|}.

#[local] Instance sample_laws bad : BlockValidationLaws (sample_validation bad false).
Proof. split; intros p; simpl; [by destruct (bool_decide _) | done]. Qed.

#[local] Program Instance sample_limits : Limits := {| max_tx := 10; max_height := 100 |}.
Next Obligation. done. Qed.

#[local] Instance sample_checks : BlockChecks := {|
  CheckBlockHeader _ := true;
  ContextualCheckBlockHeader _ _ := true;
  HasConflictingChainLock _ _ := false;
  CheckBlock _ := Passed;
  ContextualCheckBlock _ _ := Passed;
  FindBlockPos _ _ := Some (0, 8);
  IsWitnessEnabled := true;
  nMinimumChainWork := Uint.of_u64 8 0;
|}.

Definition node_block (n prev : Z) : CBlock := MkCBlock (sample_header n prev) 1.

Section Sample.
Context {BV : BlockValidation} {BL : BlockValidationLaws BV}.

Definition next (st : chain_state) (e : chain_event) : chain_state := default st (handle e st).
Definition sample_start : chain_state :=
  match (r ← LoadGenesisBlock (node_block 0 (-1)) empty_state; ActivateBestChain (snd r)) with Some (_, st) => st | None => empty_state end.
Definition block_event (np : Z * Z) : chain_event := NewBlock sample_checks (node_block np.1 np.2) true.

Lemma next_node st e : node_state st -> allowed e st -> node_state (next st e).
Proof.
  intros Hn Ha. destruct (handle_settled e st (node_settled st Hn) Ha) as (st' & E & _). unfold next. rewrite E. by apply (node_event e st).
Qed.
End Sample.
Definition sample_run (bad : list ptr) (l : list (Z * Z)) : chain_state :=
  foldl (next (BV := sample_validation bad false)) (sample_start (BV := sample_validation bad false)) (map block_event l).

(** a header on a known block, in a state that can be computed *)
Ltac known_parent :=
  intros q c proof Hq Hc Hp; vm_compute in Hq; injection Hq as <-; vm_compute in Hc; injection Hc as <-;
  vm_compute in Hp; injection Hp as <-; vm_compute; done.
Ltac allowed_block := split; [split; [unfold is_u32; simpl; lia | done | known_parent] | done].

Lemma sample_genesis bad : (1%positive : ptr) ∉ bad -> genesis_ok (BV := sample_validation bad false) (node_block 0 (-1)).
Proof.
  intros Hb. split; [done | unfold is_u32; simpl; lia | done | done | done |]. exists 0. simpl. by rewrite bool_decide_false.
Qed.

(** the genesis block, two blocks, and a fork of three, whose last block is not valid *)
Definition node_blocks : list (Z * Z) := [(1, 0); (2, 1); (11, 0); (12, 11); (13, 12)].
Abbreviation bad_tip := [6%positive].

Lemma sample_start_node bad : bad = [] \/ bad = bad_tip -> node_state (BV := sample_validation bad false) (sample_start (BV := sample_validation bad false)).
Proof.
  intros Hbad. assert (E : exists st, LoadGenesisBlock (node_block 0 (-1)) empty_state = Some (true, st) /\
    ActivateBestChain (BV := sample_validation bad false) st = Some (true, sample_start (BV := sample_validation bad false))).
  { destruct Hbad as [->| ->]; (eexists; split; [vm_compute; reflexivity | vm_compute; reflexivity]). }
  destruct E as (st & E1 & E2). apply (node_start sample_checks (node_block 0 (-1)) st); [|done..]. apply sample_genesis.
  destruct Hbad as [->| ->]; set_solver.
Qed.

Lemma sample_node bad : bad = [] \/ bad = bad_tip -> forall n, node_state (BV := sample_validation bad false) (sample_run bad (take n node_blocks)).
Proof.
  intros Hbad. assert (Hbl := sample_laws bad).
  assert (H5 : forall n, (n <= 5)%nat -> node_state (BV := sample_validation bad false) (sample_run bad (take n node_blocks))).
  { intros n Hn. induction n as [|n IH]; [by apply sample_start_node|].
    assert (Hx : exists e, take (S n) node_blocks = take n node_blocks ++ [e] /\ allowed (BV := sample_validation bad false) (block_event e) (sample_run bad (take n node_blocks))).
    { destruct Hbad as [->| ->]; do 5 (destruct n as [|n]; [eexists; split; [reflexivity | allowed_block]|]); lia. }
    destruct Hx as (e & E & Ha). unfold sample_run. rewrite E, map_app, foldl_app. simpl. apply next_node; [apply IH; lia | done]. }
  intros n. destruct (decide (n <= 5)%nat); [by apply H5|]. rewrite take_ge by (simpl; lia). by apply (H5 5%nat).
Qed.

(** ** A block that is reported as corrupt *)

Section Corrupt.
Context {BV : BlockValidation} {LM : Limits}.
Variables (st : chain_state) (t M : ptr) (bt m : CBlockIndex).
Hypothesis Hc : core st.
Hypothesis Ht : Tip (chainActive st) = Some t.
Hypothesis Hbt : objects st !! t = Some bt.
Hypothesis Hm : objects st !! M = Some m.
Hypothesis Hprev : pprev m = Some t.
Hypothesis Hcorrupt : ConnectBlock M = Invalid true.

Lemma child_height : nHeight m = nHeight bt + 1 /\ 0 <= nHeight bt.
Proof.
  pose proof (parent_height _ M m (core_store _ Hc) Hm) as Hp. rewrite Hprev in Hp. destruct Hp as (c & Hct & ? & ?).
  rewrite Hbt in Hct. injection Hct as <-. done.
Qed.

Lemma child_fork : FindFork (objects st) (chainActive st) (Some M) = Some (Some t).
Proof.
  pose proof (core_store _ Hc) as Hs. pose proof (core_chain _ Hc) as Hv. destruct child_height as [Eh Hh].
  destruct (tip_some _ _ t Hv Ht) as (bt' & Hbt' & Hlen & Hat). rewrite Hbt in Hbt'. injection Hbt' as <-.
  assert (Hon : ancestor (objects st) M (nHeight bt) t).
  { exists m. split; [done|]. split; [lia|].
    replace (Z.to_nat (nHeight m - nHeight bt)) with 1%nat by lia. simpl. rewrite Hm. simpl. by rewrite Hprev. }
  destruct (FindFork_spec (objects st) (chainActive st) M m Hs Hm) as (f & -> & Hf). destruct f as [f|]; [|by destruct (Hf (nHeight bt) t)].
  destruct Hf as (h & [Ha Hath] & Hmax). assert (h = nHeight bt).
  { pose proof (Hmax (nHeight bt) t (conj Hon Hat)). destruct (chain_at _ _ _ Hath) as [? _]. lia. }
  subst h. congruence.
Qed.
(** the step stops at the block and changes nothing *)
Lemma corrupt_step : ActivateBestChainStep M st = Some (Some true, st).
Proof.
  destruct child_height as [Eh Hh]. pose proof (core_store _ Hc) as Hs. unfold ActivateBestChainStep. rewrite child_fork. cbn [mbind option_bind].
  assert (Ed : disconnect_step (Some t) st = inr (Some (true, st))) by (unfold disconnect_step; rewrite Ht; by rewrite bool_decide_true).
  cbn [while_loop]. rewrite Ed. cbn [mbind option_bind]. rewrite Hbt. cbn [mbind option_bind]. rewrite Hm. cbn [mbind option_bind].
  assert (Eb : connect_batch_step (Tip (chainActive st)) M (nHeight bt, st) = inr (Some (Stop true, st))).
  { unfold connect_batch_step. rewrite Hm. rewrite (proj2 (Z.eqb_neq (nHeight bt) (nHeight m))) by lia. cbv zeta.
    replace (Z.min (nHeight bt + 32) (nHeight m)) with (nHeight m) by lia.
    destruct (GetAncestor_anc _ M m M m Hs Hm Hm) as (a & -> & Ha). rewrite (proj2 Ha (anc_refl _ _)). cbn [mbind option_bind].
    assert (E1 : collect_step (objects st) (nHeight bt) (Some M, []) = inl (Some t, [M])).
    { simpl. rewrite Hm, (proj2 (Z.eqb_neq (nHeight m) (nHeight bt))) by lia. by rewrite Hprev. }
    assert (E2 : collect_step (objects st) (nHeight bt) (Some t, [M]) = inr (Some [M])) by (simpl; by rewrite Hbt, Z.eqb_refl).
    cbn [while_loop]. rewrite E1. destruct (Z.to_nat (nHeight m)) as [|k] eqn:Ek; [lia|]. cbn [while_loop]. rewrite E2. cbn [mbind option_bind].
    cbn [last rev app connect_list]. unfold ConnectTip. rewrite Hm. cbn [mbind option_bind]. rewrite bool_decide_true by congruence. cbn [negb].
    rewrite Hcorrupt. done. }
  cbn [while_loop]. rewrite Eb. done.
Qed.

Hypothesis Hfind : FindMostWorkChain st = Some (Some M, st).

Lemma corrupt_turn : activate_step (None, st) = inl (None, st).
Proof.
  unfold activate_step. rewrite Hfind. destruct child_height as [Eh _].
  rewrite bool_decide_false by (rewrite Ht; intros [= E]; assert (Eb : bt = m) by congruence; rewrite Eb in Eh; lia).
  rewrite corrupt_step. by rewrite bool_decide_false by (rewrite Ht; done).
Qed.
End Corrupt.

(** ** Properties *)

(** C7: [FindMostWorkChain] always returns.  It throws out candidates of which some block off the
    active chain is invalid or missing, and no others; it marks only descendants of
    failed blocks; and it returns the greatest of the candidates that are left, which
    is usable, or null when none is left. *)
Theorem FindMostWorkChain_correct st :
  find_ok st ->
  exists r st', FindMostWorkChain st = Some (r, st') /\
    chainActive st' = chainActive st /\ stored marked (objects st) (objects st') /\
    setBlockIndexCandidates st' ⊆ setBlockIndexCandidates st /\
    (forall p, p ∈ setBlockIndexCandidates st -> p ∉ setBlockIndexCandidates st' ->
       unusable (objects st) (chainActive st) p) /\
    (forall p c c', objects st !! p = Some c -> objects st' !! p = Some c' -> c' = c \/
       exists q d, anc (objects st) p q /\ objects st !! q = Some d /\ failed d = true) /\
    match r with
    | None => setBlockIndexCandidates st' = ∅
    | Some p => exists b, p ∈ setBlockIndexCandidates st' /\ objects st !! p = Some b /\
        ~ unusable (objects st) (chainActive st) p /\
        forall q c, q ∈ setBlockIndexCandidates st -> objects st !! q = Some c ->
          ~ unusable (objects st) (chainActive st) q -> ~ worse (p, b) (q, c)
    end.
Proof.
  intros Hok. destruct (find_loop st Hok) as (x & -> & r & s & C & U & i & -> & Hfound & Hok' & _ & Hr).
  pose proof Hfound as [Hm Hsub Hout _ _ Hnew]. pose proof (stored_sub _ _ _ _ marked_kept Hm) as Hk.
  exists r, (rebuild st s C U i). split; [done|]. split; [done|]. split; [done|]. split; [done|]. split; [done|]. simpl. split.
  { intros p c c' Hc Hc'. destruct (Hnew p c c' Hc Hc') as [?|(q & d & ? & _ & ?)]; [by left | right; by exists q, d]. }
  destruct r as [p|]; [|done]. destruct Hr as (b' & Hp & Hb' & Huse & Hmax).
  destruct (stored_bwd _ _ _ _ _ Hk Hb') as (b & Hb & Hbb). exists b. split; [done|]. split; [done|].
  split; [by apply (usable_kept _ s)|]. intros q c Hq Hc Hu.
  destruct (decide (q ∈ C)) as [HC|HC]; [|by destruct Hu; apply Hout].
  destruct (stored_fwd _ _ _ _ _ Hk Hc) as (c' & Hc' & Hcc). rewrite (worse_kept p b b' q c c' Hbb Hcc). by apply Hmax.
Qed.

(** C6: let [ConnectBlock] accept or refuse each block, once for all and never as possibly
    corrupt or with a system error, and let every block be undone
    ([BlockValidationLaws]).  Then [ActivateBestChain], called in a state that fulfils
    [chain_state_ok], returns [true].  After it the state fulfils [chain_state_ok], every
    block of the active chain was connected and none is marked as failed, and no chain
    of received blocks that are valid and not marked before the call is better than
    the tip: it has neither more work, nor as much work and an earlier arrival. *)
Theorem best_chain_activated (BV : BlockValidation) (BL : BlockValidationLaws BV) (LM : Limits) st :
  chain_state_ok st ->
  exists st', ActivateBestChain st = Some (true, st') /\ chain_state_ok st' /\
    (forall p b, on_main (objects st') (chainActive st') p -> objects st' !! p = Some b -> connects p /\ failed b = false) /\
    (forall p b, objects st !! p = Some b -> linked b ->
       (forall q c, anc (objects st) p q -> objects st !! q = Some c -> connects q /\ failed c = false) ->
       exists t bt b', Tip (chainActive st') = Some t /\ objects st' !! t = Some bt /\ objects st' !! p = Some b' /\ ~ worse (t, bt) (p, b')).
Proof.
  intros Hok. destruct (ActivateBestChain_spec st Hok) as (st' & E & Hok' & Hbest & Hk & _ & Hsp). exists st'. split; [done|]. split; [done|]. split.
  - intros p b Hp Hb. by destruct (core_main _ (proj1 Hok') p b Hp Hb) as (_ & ? & ?).
  - intros p b Hb Hl Hv. destruct (stored_fwd _ _ _ _ _ Hk Hb) as (b' & Hb' & Hbb).
    destruct (Hbest p b' Hb') as (t & bt & Ht & Hbt & Hw); [by apply (linked_kept b b') | | by exists t, bt, b'].
    apply Hsp; [intros q c Hq Hc; by apply (Hv q c)|]. intros a Ha. destruct (anc_store _ (core_store _ (proj1 Hok)) p b a Hb Ha) as (c & Hc & _). by apply (Hv a c).
Qed.

(** C5: let [ConnectBlock] accept or refuse each block, once for all and never as possibly
    corrupt or with a system error, and let every block be undone
    ([BlockValidationLaws]).  Whatever blocks, headers and calls of the operator arrive,
    in any order, as long as they are [allowed]: the tip of the node is never worse than
    a received chain of blocks that are not marked as failed, and the next such event is
    handled, without a failing assertion or a loop that does not end.  Allowed are
    headers that do not name themselves as parent and do not take the height or the
    work of the chain past their limits, blocks with a bounded number of transactions,
    invalidating any block but the first, reconsidering a block of which no ancestor is
    marked, and making a block precious unless it is the tip and would get a later
    sequence number. *)
Theorem node_follows_best_chain (hh : HeaderHash) (BV : BlockValidation) (BL : BlockValidationLaws BV) (LM : Limits) st :
  node_state st ->
  chain_state_ok st /\ is_Some (Tip (chainActive st)) /\ best_tip st /\
  forall e, allowed e st -> exists st', handle e st = Some st' /\ node_state st'.
Proof.
  intros Hn. pose proof (node_settled st Hn) as Hset. pose proof Hset as [Hok Ht Hbest]. split; [done|]. split; [done|]. split; [done|].
  intros e Ha. destruct (handle_settled e st Hset Ha) as (st' & E & _). exists st'. split; [done|]. by apply (node_event e st).
Qed.

(** C8: [InvalidateBlock] returns [true] for every block but the first.  The block is marked
    as failed, the chain ends at its parent if it was part of the chain and is left
    alone otherwise, and everything that can replace it is a candidate. *)
Theorem InvalidateBlock_cuts_chain (hh : HeaderHash) (BV : BlockValidation) (BL : BlockValidationLaws BV) (LM : Limits) st p b q :
  node_state st -> objects st !! p = Some b -> pprev b = Some q ->
  exists st', InvalidateBlock p st = Some (true, st') /\ chain_state_ok st' /\ ~ on_main (objects st') (chainActive st') p /\
    (exists b', objects st' !! p = Some b' /\ failed b' = true) /\
    if decide (on_main (objects st) (chainActive st) p) then Tip (chainActive st') = Some q else chainActive st' = chainActive st.
Proof.
  intros Hn Hb Hq. destruct (node_settled st Hn) as [Hok Ht _].
  destruct (InvalidateBlock_spec st p b q (proj1 Hok) Ht Hb Hq) as (st' & E & Hok' & _ & (b' & Hb' & Hf) & _ & Htip).
  exists st'. split; [done|]. split; [done|]. split; [by apply (failed_off st' p b' (proj1 Hok'))|]. split; [by exists b' | done].
Qed.

(** C38: when the best candidate is the next block and [ConnectBlock] reports it as possibly
    corrupt, a turn of the loop of [ActivateBestChain] ends in the state it began with,
    so that the loop does not end, whatever its bound. *)
Theorem corrupt_block_never_ends (BV : BlockValidation) (LM : Limits) st t M m :
  core st -> Tip (chainActive st) = Some t -> objects st !! M = Some m -> pprev m = Some t ->
  FindMostWorkChain st = Some (Some M, st) -> ConnectBlock M = Invalid true ->
  activate_step (None, st) = inl (None, st) /\ forall fuel, while_loop activate_step fuel (None, st) = None.
Proof.
  intros Hc Ht Hm Hp Hfind Hcor. destruct (tip_some _ _ t (core_chain _ Hc) Ht) as (bt & Hbt & _). split; [by apply (corrupt_turn st t M bt m)|].
  induction fuel as [|fuel IH]; [done|]. cbn [while_loop]. by rewrite (corrupt_turn st t M bt m).
Qed.

(** the last block of the fork has arrived, and is about to be tried *)
Definition sample_pending : chain_state :=
  snd (default (false, empty_state) (AcceptBlock (BV := sample_validation bad_tip false) (node_block 13 12) true (sample_run bad_tip (take 4 node_blocks)))).

Lemma sample_pending_ok : chain_state_ok (BV := sample_validation bad_tip false) sample_pending.
Proof.
  pose proof (node_settled (BV := sample_validation bad_tip false) _ (sample_node bad_tip ltac:(by right) 4)) as Hset.
  destruct (AcceptBlock_spec (node_block 13 12) true _ Hset) as (ok & st & E & Hok & _); [split; [unfold is_u32; simpl; lia | done | known_parent] | done |].
  unfold sample_pending. rewrite E. done.
Qed.

Lemma FindMostWorkChain_correct_witness : find_ok sample_pending /\
  exists r st', FindMostWorkChain sample_pending = Some (r, st') /\ setBlockIndexCandidates st' ⊆ setBlockIndexCandidates sample_pending.
Proof.
  assert (Hok : find_ok sample_pending) by (apply (core_find_ok (BV := sample_validation bad_tip false)), sample_pending_ok). split; [exact Hok|].
  destruct (FindMostWorkChain_correct sample_pending Hok) as (r & st' & E & _ & _ & Hsub & _). exists r, st'. split; [exact E | exact Hsub].
Defined.

Lemma best_chain_activated_witness : chain_state_ok (BV := sample_validation bad_tip false) sample_pending /\
  exists st', ActivateBestChain (BV := sample_validation bad_tip false) sample_pending = Some (true, st') /\ chain_state_ok (BV := sample_validation bad_tip false) st'.
Proof.
  split; [apply sample_pending_ok|]. destruct (best_chain_activated (sample_validation bad_tip false) _ _ sample_pending sample_pending_ok) as (st' & E & Hok & _).
  exists st'. split; [exact E | exact Hok].
Defined.

Lemma node_follows_best_chain_witness :
  exists st', handle (BV := sample_validation bad_tip false) (Invalidate [1]) (sample_run bad_tip (take 5 node_blocks)) = Some st' /\ node_state (BV := sample_validation bad_tip false) st'.
Proof.
  destruct (node_follows_best_chain _ (sample_validation bad_tip false) _ _ _ (sample_node bad_tip (or_intror eq_refl) 5)) as (_ & _ & _ & Hrun).
  apply Hrun. simpl. discriminate.
Defined.

Lemma InvalidateBlock_cuts_chain_witness : exists b,
  objects (sample_run bad_tip (take 5 node_blocks)) !! 2%positive = Some b /\ pprev b = Some 1%positive /\
  exists st', InvalidateBlock (BV := sample_validation bad_tip false) 2%positive (sample_run bad_tip (take 5 node_blocks)) = Some (true, st').
Proof.
  eexists. split; [vm_compute; reflexivity|]. split; [reflexivity|].
  destruct (InvalidateBlock_cuts_chain _ (sample_validation bad_tip false) _ _ (sample_run bad_tip (take 5 node_blocks)) 2%positive _ 1%positive
    (sample_node bad_tip (or_intror eq_refl) 5) ltac:(vm_compute; reflexivity) ltac:(reflexivity)) as (st' & E & _). exists st'. exact E.
Defined.

(** the invariant for other verdicts on the blocks that are not on the chain *)
Lemma core_verdicts (BV BV' : BlockValidation) {LM : Limits} st : hashGenesisBlock (BlockValidation := BV') = hashGenesisBlock (BlockValidation := BV) ->
  (forall p b, objects st !! p = Some b -> on_main (objects st) (chainActive st) p \/ pprev b = None -> connects (BV := BV') p) ->
  core (BV := BV) st -> core (BV := BV') st.
Proof.
  intros Eg Hcon [H1 H2 [O1 O2 O3 O4 O5 O6] H4 H5 H6 H7 H8]. split; try done.
  - split; try done. intros p b Hb Hn. rewrite Eg. split; [by apply (O6 p b) | apply (Hcon p b Hb); by right].
  - intros p b Hp Hb. destruct (H4 p b Hp Hb) as (? & ? & _). split; [done|]. split; [done|]. apply (Hcon p b Hb). by left.
Qed.

(** the first block after the genesis block is found corrupt *)
Definition sample_corrupt : chain_state :=
  snd (default (false, empty_state) (AcceptBlock (BV := sample_validation [] false) (node_block 1 0) true (sample_run [] (take 0 node_blocks)))).

Lemma sample_corrupt_core : core (BV := sample_validation [2%positive] true) sample_corrupt.
Proof.
  pose proof (node_settled (BV := sample_validation [] false) _ (sample_node [] ltac:(by left) 0)) as Hset.
  destruct (AcceptBlock_spec (node_block 1 0) true _ Hset) as (ok & st & E & [Hc _] & _); [split; [unfold is_u32; simpl; lia | done | known_parent] | done |].
  assert (Est : sample_corrupt = st) by (unfold sample_corrupt; by rewrite E). rewrite Est.
  apply (core_verdicts (sample_validation [] false)); [done | | done]. rewrite <- Est. intros p b Hb Hp. exists 0. simpl. rewrite bool_decide_false; [done|].
  intros ->%list_elem_of_singleton. vm_compute in Hb. injection Hb as <-. destruct Hp as [(c & Hc' & Hat)|Hp]; [|by vm_compute in Hp].
  vm_compute in Hc'. injection Hc' as <-. by vm_compute in Hat.
Qed.

Lemma corrupt_block_never_ends_witness :
  while_loop (activate_step (BV := sample_validation [2%positive] true)) (activate_fuel sample_corrupt) (None, sample_corrupt) = None.
Proof.
  eapply (corrupt_block_never_ends (sample_validation [2%positive] true) _ sample_corrupt 1%positive 2%positive _ sample_corrupt_core);
    [vm_compute; reflexivity | vm_compute; reflexivity | reflexivity | vm_compute; reflexivity | reflexivity].
Defined.

(** C39: the marks and [g_failed_blocks] come apart.  When a proper ancestor [f] of a block
    [p] is in [g_failed_blocks], [ResetBlockFailureFlags] of [p] takes the mark from [f]
    but leaves it in the set; and then [AcceptBlockHeader] fails its assertion on every
    unknown header that passes the checks and extends [p] or a descendant of [p], as
    long as that block does not conflict with a chainlock and was never validated up to
    its scripts. *)
Theorem reconsider_breaks_headers (hh : HeaderHash) (BV : BlockValidation) (LM : Limits) st p b f :
  chain_state_ok st -> is_Some (Tip (chainActive st)) -> objects st !! p = Some b ->
  f ∈ g_failed_blocks st -> anc (objects st) p f -> f <> p ->
  exists st', ResetBlockFailureFlags p st = Some st' /\ f ∈ g_failed_blocks st' /\
    (exists c, objects st' !! f = Some c /\ failed c = false) /\
    forall (BC : BlockChecks) block x c,
      GetHeaderHash block <> hashGenesisBlock -> mapBlockIndex (tree st') !! GetHeaderHash block = None ->
      CheckBlockHeader block = true -> mapBlockIndex (tree st') !! hdr_hashPrevBlock block = Some x ->
      objects st' !! x = Some c -> anc (objects st') x p -> has_flag c BLOCK_CONFLICT_CHAINLOCK = false ->
      validity c < BLOCK_VALID_SCRIPTS -> ContextualCheckBlockHeader block x = true ->
      AcceptBlockHeader block st' = None.
Proof.
  intros Hok Ht Hb Hf Hpf Hne. pose proof (core_store _ (proj1 Hok)) as Hs.
  destruct (ResetBlockFailureFlags_clears st p b Hok Ht Hb) as (st' & E & Ho & _ & Hkeep & Hin & Hclean). pose proof (cleared_same _ _ Ho) as Hsame.
  assert (Hf' : f ∈ g_failed_blocks st') by (apply Hkeep; [|done]; intros Hfp; by destruct Hne; rewrite (anc_antisym _ Hs p b f Hb Hpf Hfp)).
  exists st'. split; [done|]. split; [done|]. split.
  { destruct (Hin f Hf') as [c Hc]. exists c. split; [done|]. apply (Hclean p ltac:(eauto) (anc_refl _ _) f c); [by apply (anc_same _ _ _ _ Hsame) | done]. }
  intros BC block x c Hg Hnew Hchk Hprev Hx Hxp Hlock Hval Hctx.
  destruct (stored_bwd _ _ _ _ _ Hsame Hx) as (cx & Hcx & _). assert (Hcl : clean (objects st') x) by (apply Hclean; [eauto | by apply (anc_same _ _ _ _ Hsame)]).
  pose proof (Hcl x c (anc_refl _ _) Hx) as Hfail.
  unfold AcceptBlockHeader. cbv zeta. rewrite bool_decide_false, Hnew, Hchk, Hprev by done. cbn [negb]. rewrite Hx. cbn [mbind option_bind]. rewrite Hfail, Hlock, Hctx. cbn [orb negb].
  assert (Ev : IsValid (nStatus c) BLOCK_VALID_SCRIPTS = Some false).
  { unfold has_flag in Hfail. unfold IsValid. rewrite Hfail. simpl. f_equal. rewrite Z.geb_leb. apply Z.leb_gt. done. }
  rewrite Ev. cbn [mbind option_bind]. rewrite (failed_ancestor_asserts st' x c); [done | by apply (store_ok_same _ _ Hsame) | done | done | |].
  - intros g Hg'%elem_of_elements. by apply Hin.
  - exists f. rewrite elem_of_elements. split; [done|]. apply (anc_trans _ x p f); [done | by apply (anc_same _ _ _ _ Hsame)].
Qed.

(** two blocks of the fork, the first of them invalidated *)
Definition sample_invalidated : chain_state := next (BV := sample_validation [] false) (sample_run [] (take 4 node_blocks)) (Invalidate [11]).

Lemma sample_invalidated_node : node_state (BV := sample_validation [] false) sample_invalidated.
Proof. apply next_node; [apply sample_node; by left | done]. Qed.

Lemma reconsider_breaks_headers_witness :
  exists st', ResetBlockFailureFlags 5%positive sample_invalidated = Some st' /\ AcceptBlockHeader (BV := sample_validation [] false) (sample_header 13 12) st' = None.
Proof.
  destruct (node_settled (BV := sample_validation [] false) _ sample_invalidated_node) as [Hok Ht _].
  destruct (objects sample_invalidated !! 5%positive) as [b|] eqn:Hb; [|vm_compute in Hb; discriminate Hb].
  destruct (reconsider_breaks_headers _ (sample_validation [] false) _ sample_invalidated 5%positive b 4%positive Hok Ht Hb) as (st' & E & _ & _ & Hbreak).
  - apply (bool_decide_unpack (4%positive ∈ g_failed_blocks sample_invalidated)). vm_compute. exact I.
  - exists 1%nat. vm_compute. reflexivity.
  - discriminate.
  - exists st'. split; [exact E|]. vm_compute in E. injection E as <-.
    eapply (Hbreak sample_checks (sample_header 13 12) 5%positive);
      [discriminate | vm_compute; reflexivity | reflexivity | vm_compute; reflexivity | vm_compute; reflexivity | apply anc_refl | vm_compute; reflexivity | vm_compute; reflexivity | reflexivity].
Defined.

(** the same by the calls of a node: the header is refused after [reconsiderblock] *)
Lemma reconsider_breaks_node :
  exists st', handle (BV := sample_validation [] false) (Reconsider [12]) sample_invalidated = Some st' /\
    admissible (sample_header 13 12) st' /\
    handle (BV := sample_validation [] false) (NewHeaders sample_checks [sample_header 13 12]) st' = None.
Proof.
  eexists. split; [vm_compute; reflexivity|].
  split; [split; [unfold is_u32; simpl; lia | done | known_parent] | vm_compute; reflexivity].
Qed.
